(* ===== verification/_CoqProject ===== *)
-Q . S2P
Prelude.v
Lookup3.v
Memory.v
CString.v
Split.v
Escape.v
Uuid.v
Utf8.v
SipHash.v
Hashmap.v
HashmapLists.v
HashmapInv.v
HashmapSteps.v
HashmapSpec.v
HashmapProofs.v
HashmapRefines.v
HashmapSession.v
RateLimit.v
Vacuum.v
JournalDef.v
Numbers.v
JournalFile.v
ObjectLemmas.v
ArenaProofs.v
HeaderProofs.v
Metrics.v
HashTableProofs.v
DataProofs.v
StoreProofs.v
StoreOps.v
JournalSeek.v
BisectProofs.v
ArraySearch.v
JournalEntries.v
JournalSamples.v
StoreSpec.v
StoreSamples.v
EntryArrayProofs.v
JournalInv.v
JournalAppend.v
JournalSpec.v
JournalOpen.v
JournalOpenProofs.v
JournalLog.v
JournalLogSpec.v
Match.v
MatchProofs.v
MatchSpec.v
SdJournal.v
MatchTree.v
SdNext.v
MatchFind.v
SdFiles.v
SdForeach.v
Cursor.v
SdCursor.v
SdData.v
SdDataProofs.v
JournalCopy.v
Daemon.v
Native.v
NativeSpec.v
Syslog.v
SyslogSpec.v
Kmsg.v
KmsgSpec.v
TimeUtil.v
Server.v
ServerStore.v
ServerSpec.v
Verify.v
VerifySpec.v
Config.v
ConfigSpec.v
Mmap.v
MmapInv.v
MmapSpec.v
Output.v
OutputSpec.v
