(* ===== verification/Prelude.v ===== *)
(** * A model of the journal (libjournal, journald and journalctl)

    The program stores log messages in journal files and lets readers seek in them.
    This development models the code that decides what is in a file and what a reader
    finds, and the self-contained algorithms around it, and proves them correct.  The
    machine is a 64-bit little-endian one with XZ compression built in and LZ4 left
    out, as the build files configure it by default.

    ** How the program is modelled

    - Unsigned integers are [Z] with the wrap-around written out ([u8], [u32], [u64]
      below); a C string is the list of bytes from its pointer on.
    - A journal file is a byte memory ([Memory.v]: a finite map from offsets to bytes,
      never-written bytes read 0) inside a handle, [JournalFile] of [JournalDef.v],
      which mirrors the struct of lib/journal-file.h.  The windows of the mmap cache
      show the bytes of the file, so an [Object *] is the offset of the object.
    - The operations of lib/journal-file.c run in a state and error monad over the
      handle ([JournalDef.v]): [Ok], [Err errno] (the function returns [-errno]),
      [Crash] (an assertion fails) and [NoFuel].  Their theorems rule the last two out.
    - The kernel, liblzma, the clock and uninitialised variables are the fields of
      the record [Env]; what the theorems need of them is a named hypothesis
      ([mmap_ok]: mappings succeed; [page_ok]: the page size is a power of two;
      [compress_law]: the decoder undoes the encoder).

    ** The files

    - [Prelude.v]: machine integers, tactics and lemmas on bits.
    - [Memory.v]: loads and stores of little-endian fields and their frame lemmas.
    - [CString.v], [Split.v], [Escape.v], [Numbers.v], [Uuid.v], [Utf8.v]: lib/utils
      (str.h, parse-uint.c, parse-bool.c, uuid/), split, the escaping functions and the
      parsers of numbers of shared/util.c, and shared/utf8.c.  [TimeUtil.v]: spans of
      time and relative times, from shared/time-util.c.
    - [Lookup3.v]: lib/hash, the hash functions of the on-disk format.  [SipHash.v]:
      shared/siphash24.c, the hash of the hash maps in memory.
    - [Hashmap.v]: shared/hashmap.c and shared/set.c over a heap of linked entries.
      [HashmapLists.v], [HashmapInv.v], [HashmapSteps.v]: the two kinds of linked lists
      and the invariant of a map.  [HashmapSpec.v]: the abstract map and what each
      operation promises.  [HashmapProofs.v], [HashmapRefines.v], [HashmapSession.v]:
      that the code keeps it.
    - [Mmap.v]: lib/mmap-cache.c, windows, contexts and files with their linked lists
      over a kernel that maps and unmaps.  [MmapInv.v]: the invariant of a cache;
      [MmapSpec.v]: every operation keeps it, and the address a caller gets shows the
      bytes asked for as long as its context keeps the window.
    - [RateLimit.v]: src/core/journald-rate-limit.c.  [Vacuum.v]:
      lib/journal-vacuum.c.  [Metrics.v]: size limits and rotation, from
      lib/journal-file.c.
    - [JournalDef.v]: lib/journal-def.h, the handle and the monad.  [JournalFile.v]:
      the writing half of lib/journal-file.c, one definition per function under the
      function's name (state and header, allocation and objects, hash tables, data and
      field objects, entry arrays and entries).  [JournalSeek.v]: the reading half
      (the chain cache, generic_array_get, generic_array_bisect and every
      journal_file_move_to_entry and journal_file_next_entry).
    - [ObjectLemmas.v], [ArenaProofs.v]: a well-formed file is an arena of aligned,
      consecutive objects ([arena]); what journal_file_append_object does to it.
    - [HeaderProofs.v]: the state byte, the header, sequence numbers, allocation.
    - [HashTableProofs.v], [DataProofs.v], [StoreProofs.v], [StoreOps.v]: the two hash
      tables as maps from contents to objects.  The proofs are made once for both kinds
      of object against the interface [KindLaws] of [StoreProofs.v], which data and
      field objects implement.  [StoreSpec.v]: the resulting specification.
    - [EntryArrayProofs.v]: a chain of entry arrays as a growing sequence.
    - [BisectProofs.v], [ArraySearch.v], [JournalEntries.v]: bisection of a chain with
      the chain cache is the linear search of the sequence it holds; seeking and
      stepping in the list of entries.
    - [JournalInv.v]: the invariant [journal] of a whole file: arena, store, one chain
      of entries for the file and one for each data object.  [JournalAppend.v],
      [JournalSpec.v]: journal_file_append_entry keeps it, appends to the chains and
      keeps their order.
    - [JournalOpen.v]: journal_file_open, journal_file_open_reliably,
      journal_file_rotate, journal_file_close and journal_file_copy_entry over a disk of
      files.  [JournalOpenProofs.v]: a file that is created or opened satisfies
      [journal].  [JournalLog.v]: a journal file as the list of the entries written to
      it ([holds]); [JournalLogSpec.v]: opening, rotating and recovering in terms of such
      lists.  [JournalCopy.v]: the copy of an entry is the entry appended.
    - [Match.v]: the matches of lib/sd-journal.c, the tree of terms and next_for_match,
      find_location_for_match and next_with_matches, which search one file.
      [MatchProofs.v] and [MatchFind.v] prove the search against the interface
      [Searchable]; [MatchSpec.v] implements it by journal files.  [MatchTree.v]: what
      the tree that the calls of a program build means.
    - [SdJournal.v]: the handle of lib/sd-journal.c, its location, the order of entries
      of different files, stepping and seeking over all files.  [SdNext.v] proves the
      iteration against the interface [Enumerable], which [SdFiles.v] implements by
      journal files with matches; [SdForeach.v]: SD_JOURNAL_FOREACH.
    - [Cursor.v]: writing, reading and testing cursors; [SdCursor.v]: their round trip.
    - [SdData.v]: the data of the current entry, the distinct values of a field, the
      times a set of files spans; [SdDataProofs.v]: what is read is what was written.
    - [Daemon.v]: what the parsers of the daemon share, the ends of lines, the trusted
      fields and the priorities.  [Native.v]: the native protocol of
      core/journald-native.c and its client lib/journal-send.c; [NativeSpec.v]: safety
      on any datagram and the round trip from sd_journal_sendv.  [Syslog.v],
      [SyslogSpec.v]: core/journald-syslog.c.  [Kmsg.v], [KmsgSpec.v]:
      core/journald-kmsg.c.
    - [Server.v]: the journals of core/journald-server.c and its main loop.
      [ServerStore.v]: the store of the server, what every step does to the files on its
      disk; [ServerSpec.v]: what becomes of a message.
    - [Verify.v]: src/journalctl/journal-verify.c, both passes over a file;
      [VerifySpec.v]: what a file that passes is known to be.
    - [Config.v]: core/conf-parser.c and the settings of journald.conf.
      [ConfigSpec.v]: the settings and the values they can have, as the manual has them,
      and that a file sets them.
    - [Output.v]: src/journalctl/logs-show.c, the formats an entry is written in;
      [OutputSpec.v]: the export and the JSON format are read back.
    - [JournalSamples.v], [StoreSamples.v]: small concrete files the theorems are
      applied to.

    ** What the theorems show

    - The server ([ServerSpec.v]): when files can be mapped and the directories are as
      vacuuming expects them, handing a message to an open journal with room ends; it is
      written at most twice, exactly once if the first try succeeds, and whatever
      rotation, vacuuming and retries do on the way, every other log survives but those
      vacuuming deletes and those a rotation renames another journal over.
    - Writing ([JournalSpec.v]): journal_file_append_entry writes the entry with its
      data and appends it to the sequence of the file and of each of its data objects,
      or fails without losing what is there; sequence numbers and offsets stay in strict
      order and a reader finds an appended entry by its number.
    - Files ([JournalLogSpec.v], [JournalCopy.v]): opening creates an empty journal or
      finds the entries that were written; rotation archives the old file with its
      entries; a file that cannot be opened reliably is set aside and never lost; copying
      an entry appends it.
    - The store ([StoreSpec.v], [StoreOps.v]): appending an object keeps the arena;
      finding data is the lookup of a map and appending data its insertion, whatever
      fails in between.
    - Entries ([EntryArrayProofs.v], [ArraySearch.v], [JournalEntries.v]): linking an
      entry appends to a sequence; seeking is the linear search of a sequence, with the
      chain cache as an optimisation that never changes a result; in one case of the
      upward search, past the last entry of arrays that are exactly full, the answer is
      wrong, and the theorems give it together with the right one.
    - Reading ([MatchSpec.v], [MatchTree.v], [SdForeach.v], [SdCursor.v],
      [SdDataProofs.v]): the matches of a program mean what the documentation says and
      the search of a file finds the first entry that satisfies them; iterating over
      several files ends and visits all matching entries in order; a cursor leads back
      to its entry; the data of an entry are the data that were logged.
    - The header ([HeaderProofs.v], [ArenaProofs.v], [Metrics.v]): state changes, the
      round trip of writing and checking a header, growth of sequence numbers, size
      limits.
    - Verification ([VerifySpec.v]): a file that is accepted is well-formed, in its
      objects, its header, its list of entries, its hash table and all references.
    - The mmap cache ([MmapSpec.v]): after any requests and closed files, every pointer
      that was given and not taken back lies in a mapping of its range, and dropping the
      cache unmaps exactly what it mapped.
    - Messages ([NativeSpec.v], [SyslogSpec.v], [KmsgSpec.v]): the native parser ends on
      every datagram below 512 MB and stays within its array, with two faults: a leading
      empty line aborts the daemon, and behind the last message it frees the fields of
      the daemon, which are on the stack; no client sets a trusted field; what sd_journal_sendv sends is what
      is received; a forwarded syslog message and a kernel record are read back; no kernel
      message is read twice and gaps are reported.
    - Output ([OutputSpec.v]): the export format of an entry parses back to its fields,
      and so does its JSON, in the three formats that write it, for fields of different
      names whose values are ASCII or not printable and not too long.
    - The hash maps ([HashmapSession.v]): any sequence of operations on a map does what
      it does to an association list in the order of insertion.
    - The algorithms: the hash functions agree with their byte-wise definition and
      [mix] is reversible; UTF-8 validation is exactly well-formedness; parsers and
      printers of numbers, identifiers, escapes and time spans round-trip; a
      configuration file sets what it says; the rate limiter accounts for every
      message; vacuuming deletes the journals without entries or unreadable, and of the
      others exactly as many as the limits require.
    - Where the code does not do what it means to, a theorem says what it does
      (for instance seek_up_past_full_arrays_misses, compress_failure_loses_data,
      uuid_parse_accepts_everything, vacuum_compare_cycle, min_size_exceeds_max_use,
      unclosed_file_accepted_later, unused_window_forgotten,
      output_json_trailing_comma).

    ** Fuel

    Loops over chains take a fuel.  The hash and entry array chains are lists in the
    invariants, and the theorems ask for a fuel of at least their length; bisection
    asks for 62, as a chain holds fewer than 2^62 items.  The jumping of the AND terms
    takes at most the number of terms times the number of entries of the file, and an
    iteration one turn for each entry and one to see the end.  The loops over strings
    take the length of the string, uuid_parse the 16 bytes and 4 dashes, the parsers of
    messages the length of the datagram; theorems show that these suffice.  The passes of
    the verification take the fuel of the caller, and the theorem about them speaks of a
    verification that accepts the file.

    ** What is not modelled

    System calls are arguments or fields of [Env]: sockets and their credentials, the
    event loop, the terminal, the pager and the command line of journalctl, and log.c,
    the logging of the program itself.  A handle on several files is given its files:
    opening them, scanning directories and the inotify events are system calls around
    hash maps.  Compression is liblzma and liblz4.  parse_timestamp and the absolute
    formats of times are strptime, mktime and strftime with little around them.  The
    sequence number file is a mapped counter, which the model reads and writes as a field
    of the server.  Most helpers of shared/util.c wrap a system call or an allocation;
    those that compute are modelled where a component uses them.
    sd_journal_get_data, sd_journal_enumerate_unique, the cutoff times and stepping by
    several entries are modelled without theorems of their own, as are hash map functions
    that only combine others. *)
From Stdlib Require Export ZArith Lia.
From stdpp Require Export prelude list numbers gmap sorting.

(** * Notations and automation *)

Declare Scope journal_scope.
Delimit Scope journal_scope with journal.

(** [lia] with divisions and remainders by constants turned into equations. *)
Ltac mlia := Z.div_mod_to_equations; lia.

(** Destruct the boolean comparisons of the goal, keeping what they decide. *)
Ltac zcases :=
  repeat match goal with
  | |- context [Z.eqb ?a ?b] => destruct (Z.eqb_spec a b)
  | |- context [Z.ltb ?a ?b] => destruct (Z.ltb_spec a b)
  | |- context [Z.leb ?a ?b] => destruct (Z.leb_spec a b)
  end.

(** The same in a hypothesis. *)
Ltac zcases_in H :=
  repeat match type of H with
  | context [Z.eqb ?a ?b] => destruct (Z.eqb_spec a b)
  | context [Z.ltb ?a ?b] => destruct (Z.ltb_spec a b)
  | context [Z.leb ?a ?b] => destruct (Z.leb_spec a b)
  end.

(** Evaluate the comparisons of literals in the goal. *)
Ltac zeval :=
  repeat match goal with
  | |- context [Z.leb ?a ?b] =>
      let v := eval vm_compute in (Z.leb a b) in
      lazymatch v with true => idtac | false => idtac end; change (Z.leb a b) with v
  | |- context [Z.ltb ?a ?b] =>
      let v := eval vm_compute in (Z.ltb a b) in
      lazymatch v with true => idtac | false => idtac end; change (Z.ltb a b) with v
  | |- context [Z.eqb ?a ?b] =>
      let v := eval vm_compute in (Z.eqb a b) in
      lazymatch v with true => idtac | false => idtac end; change (Z.eqb a b) with v
  end; cbv iota zeta beta.

(** Decide a boolean condition of the code from the context. *)
Ltac zdecide :=
  rewrite ?negb_true_iff, ?negb_false_iff, ?andb_true_iff, ?andb_false_iff,
    ?orb_true_iff, ?orb_false_iff, ?Z.eqb_eq, ?Z.eqb_neq, ?Z.ltb_lt, ?Z.ltb_ge,
    ?Z.leb_le, ?Z.leb_gt; try lia.

(** Split the conjunctions of the context and turn boolean facts into
    propositions. *)
Ltac bprop :=
  repeat match goal with
  | H : _ && _ = true |- _ => apply andb_true_iff in H as [? ?]
  | H : _ || _ = false |- _ => apply orb_false_iff in H as [? ?]
  | H : negb _ = true |- _ => apply negb_true_iff in H
  | H : negb _ = false |- _ => apply negb_false_iff in H
  | H : Z.eqb _ _ = true |- _ => apply Z.eqb_eq in H
  | H : Z.eqb _ _ = false |- _ => apply Z.eqb_neq in H
  | H : Z.ltb _ _ = true |- _ => apply Z.ltb_lt in H
  | H : Z.ltb _ _ = false |- _ => apply Z.ltb_ge in H
  | H : Z.leb _ _ = true |- _ => apply Z.leb_le in H
  | H : Z.leb _ _ = false |- _ => apply Z.leb_gt in H
  | H : bool_decide _ = true |- _ => apply bool_decide_eq_true in H
  | H : bool_decide _ = false |- _ => apply bool_decide_eq_false in H
  end.

Open Scope Z_scope.

(** * Machine integers *)

(** Unsigned integers of the C program are [Z] values kept in range by an
    explicit reduction after every operation that may leave it. *)
Definition u8 (x : Z) : Z := x mod 256.
Definition u16 (x : Z) : Z := x mod 65536.
Definition u32 (x : Z) : Z := x mod 4294967296.
Definition u64 (x : Z) : Z := x mod 18446744073709551616.

(** [(uint64_t) -1] *)
Definition u64_max : Z := 18446744073709551615.

Definition is_u8 (x : Z) : Prop := 0 <= x < 256.
Definition is_u32 (x : Z) : Prop := 0 <= x < 4294967296.
Definition is_u64 (x : Z) : Prop := 0 <= x < 18446744073709551616.

Definition bytes_ok (l : list Z) : Prop := Forall is_u8 l.

(** memchr, as the index of the first occurrence *)
Fixpoint memchr (c : Z) (l : list Z) : option nat :=
  match l with
  | [] => None
  | b :: l => if b =? c then Some O else S <$> memchr c l
  end.

Definition zlen {A} (l : list A) : Z := Z.of_nat (length l).

Lemma u32_range x : is_u32 (u32 x).
Proof. unfold is_u32, u32. apply Z.mod_pos_bound. lia. Qed.

Lemma u64_range x : is_u64 (u64 x).
Proof. unfold is_u64, u64. apply Z.mod_pos_bound. lia. Qed.

Lemma u8_range x : is_u8 (u8 x).
Proof. unfold is_u8, u8. apply Z.mod_pos_bound. lia. Qed.

Lemma u32_small x : is_u32 x -> u32 x = x.
Proof. apply Z.mod_small. Qed.

Lemma u64_small x : is_u64 x -> u64 x = x.
Proof. apply Z.mod_small. Qed.

Lemma u8_small x : is_u8 x -> u8 x = x.
Proof. apply Z.mod_small. Qed.

Lemma u32_idem x : u32 (u32 x) = u32 x.
Proof. apply u32_small, u32_range. Qed.

Lemma u32_add_l x y : u32 (u32 x + y) = u32 (x + y).
Proof. apply Zplus_mod_idemp_l. Qed.

Lemma u32_add_r x y : u32 (x + u32 y) = u32 (x + y).
Proof. apply Zplus_mod_idemp_r. Qed.

Lemma u32_add_l2 x y z : u32 (u32 x + y + z) = u32 (x + y + z).
Proof. by rewrite <- !Z.add_assoc, u32_add_l. Qed.

Lemma u32_sub_l x y : u32 (u32 x - y) = u32 (x - y).
Proof. apply Zminus_mod_idemp_l. Qed.

Lemma u32_sub_r x y : u32 (x - u32 y) = u32 (x - y).
Proof. apply Zminus_mod_idemp_r. Qed.

Create HintDb machine_int.
#[export] Hint Resolve u8_range u32_range u64_range : machine_int.

Create Rewrite HintDb u32_norm.
#[export] Hint Rewrite u32_idem u32_add_l u32_add_l2 u32_add_r u32_sub_l u32_sub_r : u32_norm.

(** Normalise an equation between 32-bit sums: push the reductions out and
    compare the unreduced sums. *)
Ltac u32_ring := autorewrite with u32_norm; f_equal; lia.

(** Bitwise operations stay in range. *)
Lemma lxor_range a b n :
  0 <= n -> 0 <= a < 2 ^ n -> 0 <= b < 2 ^ n -> 0 <= Z.lxor a b < 2 ^ n.
Proof.
  intros Hn Ha Hb.
  assert (Z.lxor a b = Z.lxor a b mod 2 ^ n) as ->.
  { symmetry. apply Z.bits_inj'. intros i Hi.
    rewrite <- (Z.mod_small a (2 ^ n)), <- (Z.mod_small b (2 ^ n)) by lia.
    destruct (Z.lt_ge_cases i n).
    - rewrite Z.mod_pow2_bits_low by lia. done.
    - rewrite Z.mod_pow2_bits_high by lia. rewrite Z.lxor_spec.
      rewrite !Z.mod_pow2_bits_high by lia. done. }
  apply Z.mod_pos_bound. lia.
Qed.

Lemma lor_range a b n :
  0 <= n -> 0 <= a < 2 ^ n -> 0 <= b < 2 ^ n -> 0 <= Z.lor a b < 2 ^ n.
Proof.
  intros Hn Ha Hb.
  assert (Z.lor a b = Z.lor a b mod 2 ^ n) as ->.
  { symmetry. apply Z.bits_inj'. intros i Hi.
    rewrite <- (Z.mod_small a (2 ^ n)), <- (Z.mod_small b (2 ^ n)) by lia.
    destruct (Z.lt_ge_cases i n).
    - rewrite Z.mod_pow2_bits_low by lia. done.
    - rewrite Z.mod_pow2_bits_high by lia. rewrite Z.lor_spec.
      rewrite !Z.mod_pow2_bits_high by lia. done. }
  apply Z.mod_pos_bound. lia.
Qed.

Lemma lxor_cancel_r a b : Z.lxor (Z.lxor a b) b = a.
Proof. by rewrite Z.lxor_assoc, Z.lxor_nilpotent, Z.lxor_0_r. Qed.

(** Every byte, decided by computation. *)
Lemma all_bytes (P : Z -> bool) :
  forallb (fun n => P (Z.of_nat n)) (seq 0 256) = true -> forall b, is_u8 b -> P b = true.
Proof.
  intros H b Hb. unfold is_u8 in Hb. rewrite forallb_forall in H.
  rewrite <- (Z2Nat.id b) by lia. apply H, in_seq. lia.
Qed.

(** A shifted value and one that fits below it: [|] is [+]. *)
Lemma lor_shiftl u n x :
  0 <= n -> 0 <= x < 2 ^ n -> Z.lor (Z.shiftl u n) x = u * 2 ^ n + x.
Proof.
  intros Hn Hx.
  assert (Z.land (Z.shiftl u n) x = 0) as Hz.
  { apply Z.bits_inj'. intros i Hi. rewrite Z.land_spec, Z.shiftl_spec, Z.bits_0 by lia.
    destruct (Z.lt_ge_cases i n).
    - by rewrite Z.testbit_neg_r by lia.
    - rewrite <- (Z.mod_small x (2 ^ n)) by lia. by rewrite Z.mod_pow2_bits_high, andb_false_r by lia. }
  rewrite <- (Z.shiftl_mul_pow2 u n) by lia.
  pose proof (Z.add_lor_land (Z.shiftl u n) x). lia.
Qed.
