(* ===== verification/Lookup3.v ===== *)
(** lib/hash: Bob Jenkins' lookup3 hash functions.

    The aligned variants of [hashlittle] and [hashlittle2] read the key as
    32-bit or 16-bit words, and the last word possibly beyond the key; the model
    therefore takes the memory the key starts in ([k], at least as long as the
    key) together with the length, and the alignment of the address. *)
From S2P Require Import Prelude.

(** Reads of the little-endian machine. *)
Definition rd8 (k : list Z) (i : nat) : Z := nth i k 0.
Definition rd16 (k : list Z) (i : nat) : Z :=
  rd8 k (2 * i) + 256 * rd8 k (2 * i + 1).
Definition rd32 (k : list Z) (i : nat) : Z :=
  rd8 k (4 * i) + 256 * rd8 k (4 * i + 1) + 65536 * rd8 k (4 * i + 2)
  + 16777216 * rd8 k (4 * i + 3).

Definition abc : Type := (Z * Z * Z)%type.

Definition add32 (x y : Z) : Z := u32 (x + y).
Definition sub32 (x y : Z) : Z := u32 (x - y).

Definition rot (x k : Z) : Z := Z.lor (u32 (Z.shiftl x k)) (Z.shiftr x (32 - k)).

Definition mix (s : abc) : abc :=
  let '(a, b, c) := s in
  let a := sub32 a c in let a := Z.lxor a (rot c 4) in let c := add32 c b in
  let b := sub32 b a in let b := Z.lxor b (rot a 6) in let a := add32 a c in
  let c := sub32 c b in let c := Z.lxor c (rot b 8) in let b := add32 b a in
  let a := sub32 a c in let a := Z.lxor a (rot c 16) in let c := add32 c b in
  let b := sub32 b a in let b := Z.lxor b (rot a 19) in let a := add32 a c in
  let c := sub32 c b in let c := Z.lxor c (rot b 4) in let b := add32 b a in
  (a, b, c).

Definition final (s : abc) : abc :=
  let '(a, b, c) := s in
  let c := Z.lxor c b in let c := sub32 c (rot b 14) in
  let a := Z.lxor a c in let a := sub32 a (rot c 11) in
  let b := Z.lxor b a in let b := sub32 b (rot a 25) in
  let c := Z.lxor c b in let c := sub32 c (rot b 16) in
  let a := Z.lxor a c in let a := sub32 a (rot c 4) in
  let b := Z.lxor b a in let b := sub32 b (rot a 14) in
  let c := Z.lxor c b in let c := sub32 c (rot b 24) in
  (a, b, c).

(** One iteration's additions, by the width of the reads. *)
Definition block_le32 (k : list Z) (s : abc) : abc :=
  let '(a, b, c) := s in
  (add32 a (rd32 k 0), add32 b (rd32 k 1), add32 c (rd32 k 2)).

Definition block_le16 (k : list Z) (s : abc) : abc :=
  let '(a, b, c) := s in
  (add32 a (u32 (rd16 k 0 + Z.shiftl (rd16 k 1) 16)),
   add32 b (u32 (rd16 k 2 + Z.shiftl (rd16 k 3) 16)),
   add32 c (u32 (rd16 k 4 + Z.shiftl (rd16 k 5) 16))).

Definition block_bytes (k : list Z) (s : abc) : abc :=
  let '(a, b, c) := s in
  let a := add32 a (rd8 k 0) in
  let a := add32 a (Z.shiftl (rd8 k 1) 8) in
  let a := add32 a (Z.shiftl (rd8 k 2) 16) in
  let a := add32 a (Z.shiftl (rd8 k 3) 24) in
  let b := add32 b (rd8 k 4) in
  let b := add32 b (Z.shiftl (rd8 k 5) 8) in
  let b := add32 b (Z.shiftl (rd8 k 6) 16) in
  let b := add32 b (Z.shiftl (rd8 k 7) 24) in
  let c := add32 c (rd8 k 8) in
  let c := add32 c (Z.shiftl (rd8 k 9) 8) in
  let c := add32 c (Z.shiftl (rd8 k 10) 16) in
  let c := add32 c (Z.shiftl (rd8 k 11) 24) in
  (a, b, c).

(** [while (length > 12) { ...; mix(a,b,c); length -= 12; k += ...; }] *)
Fixpoint while12 (block : list Z -> abc -> abc) (fuel : nat) (k : list Z)
    (length : Z) (s : abc) : list Z * Z * abc :=
  match fuel with
  | O => (k, length, s)
  | S fuel =>
      if 12 <? length
      then while12 block fuel (drop 12 k) (length - 12) (mix (block k s))
      else (k, length, s)
  end.

(** The last block; [None] is [case 0]: return without mixing. *)
Definition tail_le32 (k : list Z) (length : Z) (s : abc) : option abc :=
  let '(a, b, c) := s in
  let w i := rd32 k i in
  match length with
  | 12 => Some (add32 a (w 0%nat), add32 b (w 1%nat), add32 c (w 2%nat))
  | 11 => Some (add32 a (w 0%nat), add32 b (w 1%nat), add32 c (Z.land (w 2%nat) 0xffffff))
  | 10 => Some (add32 a (w 0%nat), add32 b (w 1%nat), add32 c (Z.land (w 2%nat) 0xffff))
  | 9 => Some (add32 a (w 0%nat), add32 b (w 1%nat), add32 c (Z.land (w 2%nat) 0xff))
  | 8 => Some (add32 a (w 0%nat), add32 b (w 1%nat), c)
  | 7 => Some (add32 a (w 0%nat), add32 b (Z.land (w 1%nat) 0xffffff), c)
  | 6 => Some (add32 a (w 0%nat), add32 b (Z.land (w 1%nat) 0xffff), c)
  | 5 => Some (add32 a (w 0%nat), add32 b (Z.land (w 1%nat) 0xff), c)
  | 4 => Some (add32 a (w 0%nat), b, c)
  | 3 => Some (add32 a (Z.land (w 0%nat) 0xffffff), b, c)
  | 2 => Some (add32 a (Z.land (w 0%nat) 0xffff), b, c)
  | 1 => Some (add32 a (Z.land (w 0%nat) 0xff), b, c)
  | _ => None
  end.

Definition tail_le16 (k : list Z) (length : Z) (s : abc) : option abc :=
  let '(a, b, c) := s in
  let w i j := u32 (rd16 k i + Z.shiftl (rd16 k j) 16) in
  let a0 := add32 a (w 0%nat 1%nat) in
  let b0 := add32 b (w 2%nat 3%nat) in
  match length with
  | 12 => Some (a0, b0, add32 c (w 4%nat 5%nat))
  | 11 => Some (a0, b0, add32 (add32 c (Z.shiftl (rd8 k 10) 16)) (rd16 k 4))
  | 10 => Some (a0, b0, add32 c (rd16 k 4))
  | 9 => Some (a0, b0, add32 c (rd8 k 8))
  | 8 => Some (a0, b0, c)
  | 7 => Some (a0, add32 (add32 b (Z.shiftl (rd8 k 6) 16)) (rd16 k 2), c)
  | 6 => Some (a0, add32 b (rd16 k 2), c)
  | 5 => Some (a0, add32 b (rd8 k 4), c)
  | 4 => Some (a0, b, c)
  | 3 => Some (add32 (add32 a (Z.shiftl (rd8 k 2) 16)) (rd16 k 0), b, c)
  | 2 => Some (add32 a (rd16 k 0), b, c)
  | 1 => Some (add32 a (rd8 k 0), b, c)
  | _ => None
  end.

(** All the case statements fall through: the switch enters at [case length]
    and runs every later one. *)
Definition tail_bytes (k : list Z) (length : Z) (s : abc) : option abc :=
  let '(a, b, c) := s in
  let on n x y := if n <=? length then add32 x y else x in
  if length =? 0 then None else
  let c := on 12 c (Z.shiftl (rd8 k 11) 24) in
  let c := on 11 c (Z.shiftl (rd8 k 10) 16) in
  let c := on 10 c (Z.shiftl (rd8 k 9) 8) in
  let c := on 9 c (rd8 k 8) in
  let b := on 8 b (Z.shiftl (rd8 k 7) 24) in
  let b := on 7 b (Z.shiftl (rd8 k 6) 16) in
  let b := on 6 b (Z.shiftl (rd8 k 5) 8) in
  let b := on 5 b (rd8 k 4) in
  let a := on 4 a (Z.shiftl (rd8 k 3) 24) in
  let a := on 3 a (Z.shiftl (rd8 k 2) 16) in
  let a := on 2 a (Z.shiftl (rd8 k 1) 8) in
  let a := on 1 a (rd8 k 0) in
  Some (a, b, c).

(** ** hashlittle and hashlittle2 *)

(** After the switch: [case 0] returns what it has, the others run [final]. *)
Definition finish (t : option abc) (s : abc) : abc :=
  match t with None => s | Some s => final s end.

(** The three ways through the functions, chosen by the low bits of the key's
    address (HASH_LITTLE_ENDIAN is 1). *)
Definition hl_run (align : Z) (k : list Z) (length : Z) (s : abc) : abc :=
  if Z.land align 3 =? 0 then
    let '(k, len, s) := while12 block_le32 (Z.to_nat length) k length s in
    finish (tail_le32 k len s) s
  else if Z.land align 1 =? 0 then
    let '(k, len, s) := while12 block_le16 (Z.to_nat length) k length s in
    finish (tail_le16 k len s) s
  else
    let '(k, len, s) := while12 block_bytes (Z.to_nat length) k length s in
    finish (tail_bytes k len s) s.

Definition hashlittle (align : Z) (k : list Z) (length initval : Z) : Z :=
  let a := u32 (u32 (0xdeadbeef + u32 length) + initval) in
  let '(_, _, c) := hl_run align k length (a, a, a) in c.

Definition hashlittle2 (align : Z) (k : list Z) (length pc pb : Z) : Z * Z :=
  let a := u32 (u32 (0xdeadbeef + u32 length) + pc) in
  let c := add32 a pb in
  let '(_, b, c) := hl_run align k length (a, a, c) in (c, b).

(** lib/hash/hash.h: the high half of [*hash] is hashlittle2's [*pc], the low
    half its [*pb], both zero on entry. *)
Definition hash64 (align : Z) (data : list Z) (len : Z) : Z :=
  let '(pc, pb) := hashlittle2 align data len 0 0 in
  Z.shiftl pc 32 + pb.

(** ** hashword and hashword2: the key is an array of 32-bit words *)

Definition blockw (k : list Z) (s : abc) : abc :=
  let '(a, b, c) := s in
  (add32 a (rd8 k 0), add32 b (rd8 k 1), add32 c (rd8 k 2)).

Fixpoint while3 (fuel : nat) (k : list Z) (length : Z) (s : abc) : list Z * Z * abc :=
  match fuel with
  | O => (k, length, s)
  | S fuel =>
      if 3 <? length
      then while3 fuel (drop 3 k) (length - 3) (mix (blockw k s))
      else (k, length, s)
  end.

Definition tail_word (k : list Z) (length : Z) (s : abc) : abc :=
  let '(a, b, c) := s in
  match length with
  | 3 => final (add32 a (rd8 k 0), add32 b (rd8 k 1), add32 c (rd8 k 2))
  | 2 => final (add32 a (rd8 k 0), add32 b (rd8 k 1), c)
  | 1 => final (add32 a (rd8 k 0), b, c)
  | _ => (a, b, c)
  end.

Definition hashword (k : list Z) (length initval : Z) : Z :=
  let a := u32 (u32 (0xdeadbeef + u32 (Z.shiftl (u32 length) 2)) + initval) in
  let '(k, len, s) := while3 (Z.to_nat length) k length (a, a, a) in
  let '(_, _, c) := tail_word k len s in c.

Definition hashword2 (k : list Z) (length pc pb : Z) : Z * Z :=
  let a := u32 (u32 (0xdeadbeef + u32 (u64 (Z.shiftl length 2))) + pc) in
  let c := add32 a pb in
  let '(k, len, s) := while3 (Z.to_nat length) k length (a, a, c) in
  let '(_, b, c) := tail_word k len s in (c, b).

(** ** hashbig (on a little-endian machine: always byte by byte) *)

Definition block_be (k : list Z) (s : abc) : abc :=
  let '(a, b, c) := s in
  let a := add32 a (Z.shiftl (rd8 k 0) 24) in
  let a := add32 a (Z.shiftl (rd8 k 1) 16) in
  let a := add32 a (Z.shiftl (rd8 k 2) 8) in
  let a := add32 a (rd8 k 3) in
  let b := add32 b (Z.shiftl (rd8 k 4) 24) in
  let b := add32 b (Z.shiftl (rd8 k 5) 16) in
  let b := add32 b (Z.shiftl (rd8 k 6) 8) in
  let b := add32 b (rd8 k 7) in
  let c := add32 c (Z.shiftl (rd8 k 8) 24) in
  let c := add32 c (Z.shiftl (rd8 k 9) 16) in
  let c := add32 c (Z.shiftl (rd8 k 10) 8) in
  let c := add32 c (rd8 k 11) in
  (a, b, c).

Definition tail_be (k : list Z) (length : Z) (s : abc) : option abc :=
  let '(a, b, c) := s in
  let on n x y := if n <=? length then add32 x y else x in
  if length =? 0 then None else
  let c := on 12 c (rd8 k 11) in
  let c := on 11 c (Z.shiftl (rd8 k 10) 8) in
  let c := on 10 c (Z.shiftl (rd8 k 9) 16) in
  let c := on 9 c (Z.shiftl (rd8 k 8) 24) in
  let b := on 8 b (rd8 k 7) in
  let b := on 7 b (Z.shiftl (rd8 k 6) 8) in
  let b := on 6 b (Z.shiftl (rd8 k 5) 16) in
  let b := on 5 b (Z.shiftl (rd8 k 4) 24) in
  let a := on 4 a (rd8 k 3) in
  let a := on 3 a (Z.shiftl (rd8 k 2) 8) in
  let a := on 2 a (Z.shiftl (rd8 k 1) 16) in
  let a := on 1 a (Z.shiftl (rd8 k 0) 24) in
  Some (a, b, c).

Definition hashbig (k : list Z) (length initval : Z) : Z :=
  let a := u32 (u32 (0xdeadbeef + u32 length) + initval) in
  let '(k, len, s) := while12 block_be (Z.to_nat length) k length (a, a, a) in
  let '(_, _, c) := finish (tail_be k len s) s in c.

(** * Properties *)

(** Two memories that hold the same [n] bytes from the key's address on. *)
Definition agree (n : Z) (k k' : list Z) : Prop :=
  forall i, Z.of_nat i < n -> rd8 k i = rd8 k' i.

Lemma rd8_drop k n i : rd8 (drop n k) i = rd8 k (n + i).
Proof.
  unfold rd8. rewrite !nth_lookup, lookup_drop. done.
Qed.

Lemma rd8_take k n i : (i < n)%nat -> rd8 (take n k) i = rd8 k i.
Proof. intros. unfold rd8. rewrite !nth_lookup, lookup_take_lt by done. done. Qed.

Lemma agree_drop n k k' : agree n k k' -> agree (n - 12) (drop 12 k) (drop 12 k').
Proof. intros H i Hi. rewrite !rd8_drop. apply H. lia. Qed.

Lemma agree_take n k : agree n k (take (Z.to_nat n) k).
Proof. intros i Hi. by rewrite rd8_take by lia. Qed.

Lemma rd8_range k i : bytes_ok k -> 0 <= rd8 k i < 256.
Proof.
  intros H. unfold rd8. rewrite nth_lookup.
  destruct (k !! i) eqn:E; simpl; [|lia].
  eapply Forall_lookup_1 in E; eauto. apply E.
Qed.

Lemma bytes_ok_drop n k : bytes_ok k -> bytes_ok (drop n k).
Proof. apply Forall_drop. Qed.
Create HintDb lookup3.
#[export] Hint Resolve bytes_ok_drop agree_drop : lookup3.

(** Compute the reads of a block down to byte sums and compare them. *)
Ltac block_eq :=
  unfold add32, rd32, rd16; simpl Nat.mul; simpl Nat.add;
  rewrite ?Z.shiftl_mul_pow2 by lia;
  repeat match goal with |- context [2 ^ ?n] =>
    let v := eval vm_compute in (2 ^ n) in change (2 ^ n) with v end;
  repeat first [apply (f_equal2 pair) | apply (f_equal Some)]; try done; u32_ring.

Lemma block_le32_bytes k s : block_le32 k s = block_bytes k s.
Proof. destruct s as [[a b] c]. unfold block_le32, block_bytes. block_eq. Qed.

Lemma block_le16_bytes k s : block_le16 k s = block_bytes k s.
Proof. destruct s as [[a b] c]. unfold block_le16, block_bytes. block_eq. Qed.

Lemma block_bytes_agree k k' s : agree 12 k k' -> block_bytes k s = block_bytes k' s.
Proof.
  intros H. destruct s as [[a b] c]. unfold block_bytes.
  rewrite !(H 0%nat), !(H 1%nat), !(H 2%nat), !(H 3%nat), !(H 4%nat), !(H 5%nat),
    !(H 6%nat), !(H 7%nat), !(H 8%nat), !(H 9%nat), !(H 10%nat), !(H 11%nat) by lia.
  done.
Qed.

(** The masks of the aligned tails keep the bytes of the key. *)
Lemma rd32_mask k i n :
  bytes_ok k -> 0 <= n -> Z.land (rd32 k i) (Z.ones n) = rd32 k i mod 2 ^ n.
Proof. intros. by rewrite Z.land_ones by lia. Qed.

Lemma rd32_mask1 k i : bytes_ok k -> Z.land (rd32 k i) 0xff = rd8 k (4 * i).
Proof.
  intros H. change 0xff with (Z.ones 8). rewrite rd32_mask by (auto; lia).
  pose proof (rd8_range k (4 * i) H). unfold rd32. change (2 ^ 8) with 256. mlia.
Qed.

Lemma rd32_mask2 k i :
  bytes_ok k -> Z.land (rd32 k i) 0xffff = rd8 k (4 * i) + 256 * rd8 k (4 * i + 1).
Proof.
  intros H. change 0xffff with (Z.ones 16). rewrite rd32_mask by (auto; lia).
  pose proof (rd8_range k (4 * i) H). pose proof (rd8_range k (4 * i + 1) H).
  unfold rd32. change (2 ^ 16) with 65536. mlia.
Qed.

Lemma rd32_mask3 k i :
  bytes_ok k ->
  Z.land (rd32 k i) 0xffffff
  = rd8 k (4 * i) + 256 * rd8 k (4 * i + 1) + 65536 * rd8 k (4 * i + 2).
Proof.
  intros H. change 0xffffff with (Z.ones 24). rewrite rd32_mask by (auto; lia).
  pose proof (rd8_range k (4 * i) H). pose proof (rd8_range k (4 * i + 1) H).
  pose proof (rd8_range k (4 * i + 2) H).
  unfold rd32. change (2 ^ 24) with 16777216. mlia.
Qed.

Lemma len_cases (P : Z -> Prop) :
  P 0 -> P 1 -> P 2 -> P 3 -> P 4 -> P 5 -> P 6 -> P 7 -> P 8 -> P 9 -> P 10 ->
  P 11 -> P 12 -> forall n, 0 <= n <= 12 -> P n.
Proof.
  intros. rewrite <- (Z2Nat.id n) by lia.
  assert (Z.to_nat n <= 12)%nat as Hm by lia. revert Hm.
  generalize (Z.to_nat n). intros m Hm.
  do 13 (destruct m as [|m]; [assumption|]). lia.
Qed.

Lemma tail_le32_bytes k n s :
  bytes_ok k -> 0 <= n <= 12 -> tail_le32 k n s = tail_bytes k n s.
Proof.
  intros Hk. destruct s as [[a b] c]. unfold tail_le32, tail_bytes.
  revert n. apply len_cases; cbv zeta beta; zeval;
    rewrite ?rd32_mask1, ?rd32_mask2, ?rd32_mask3 by done; try done; block_eq.
Qed.

Lemma tail_le16_bytes k n s :
  0 <= n <= 12 -> tail_le16 k n s = tail_bytes k n s.
Proof.
  destruct s as [[a b] c]. unfold tail_le16, tail_bytes.
  revert n. apply len_cases; cbv zeta beta; zeval; try done; block_eq.
Qed.

Lemma tail_bytes_agree k k' n s :
  0 <= n <= 12 -> agree n k k' -> tail_bytes k n s = tail_bytes k' n s.
Proof.
  destruct s as [[a b] c]. revert n.
  apply (len_cases (fun n => agree n k k' -> tail_bytes k n (a, b, c) = tail_bytes k' n (a, b, c)));
    intros H; unfold tail_bytes; cbv zeta beta; zeval;
    repeat match goal with |- context [rd8 k ?i] => rewrite (H i) by lia end; done.
Qed.

Lemma while12_rel block block' fuel k k' n s :
  (forall k k' s, agree 12 k k' -> block k s = block' k' s) ->
  agree n k k' -> bytes_ok k -> bytes_ok k' -> 0 <= n -> (Z.to_nat n <= fuel)%nat ->
  exists k1 k1' n1 s1,
    while12 block fuel k n s = (k1, n1, s1) /\ while12 block' fuel k' n s = (k1', n1, s1)
    /\ agree n1 k1 k1' /\ bytes_ok k1 /\ bytes_ok k1' /\ 0 <= n1 <= 12.
Proof.
  intros Hb. revert k k' n s.
  induction fuel as [|fuel IH]; intros k k' n s Ha Hk Hk' Hn Hf; simpl.
  - exists k, k', n, s. naive_solver lia.
  - destruct (Z.ltb_spec 12 n).
    + rewrite (Hb k k' s) by (intros i Hi; apply Ha; lia).
      apply IH; eauto with lookup3; lia.
    + exists k, k', n, s. naive_solver lia.
Qed.

Lemma hl_run_agree al al' k k' n s :
  agree n k k' -> bytes_ok k -> bytes_ok k' -> 0 <= n ->
  hl_run al k n s = hl_run al' k' n s.
Proof.
  intros Ha Hk Hk' Hn.
  assert (forall al k k', agree n k k' -> bytes_ok k -> bytes_ok k' ->
    hl_run al k n s = (let '(k, len, s) := while12 block_bytes (Z.to_nat n) k' n s in
                       finish (tail_bytes k len s) s)) as Hto.
  { clear al al' k k' Ha Hk Hk'. intros al k k' Ha Hk Hk'. unfold hl_run.
    destruct (_ =? 0); [|destruct (_ =? 0)];
      [ destruct (while12_rel block_le32 block_bytes (Z.to_nat n) k k' n s)
          as (k1 & k1' & n1 & s1 & -> & -> & ? & ? & ? & ?)
      | destruct (while12_rel block_le16 block_bytes (Z.to_nat n) k k' n s)
          as (k1 & k1' & n1 & s1 & -> & -> & ? & ? & ? & ?)
      | destruct (while12_rel block_bytes block_bytes (Z.to_nat n) k k' n s)
          as (k1 & k1' & n1 & s1 & -> & -> & ? & ? & ? & ?) ];
      rewrite ?tail_le32_bytes, ?tail_le16_bytes by done;
      try (by rewrite (tail_bytes_agree k1 k1')); auto; intros;
      rewrite ?block_le32_bytes, ?block_le16_bytes; by apply block_bytes_agree. }
  rewrite (Hto al k k) by (auto; done). by rewrite (Hto al' k' k) by (auto; intros i Hi; symmetry; auto).
Qed.

(** *** Ranges *)

Definition abc_ok (s : abc) : Prop :=
  let '(a, b, c) := s in is_u32 a /\ is_u32 b /\ is_u32 c.

Lemma rot_range x k : is_u32 x -> 0 <= k <= 32 -> is_u32 (rot x k).
Proof.
  intros Hx Hk. unfold rot. apply (lor_range _ _ 32); [lia|apply u32_range|].
  rewrite Z.shiftr_div_pow2 by lia.
  assert (1 <= 2 ^ (32 - k)) by (pose proof (Z.pow_pos_nonneg 2 (32 - k)); lia).
  unfold is_u32 in Hx. split; [apply Z.div_pos; lia|].
  apply Z.div_lt_upper_bound; nia.
Qed.

Lemma lxor32_range a b : is_u32 a -> is_u32 b -> is_u32 (Z.lxor a b).
Proof. apply (lxor_range a b 32). lia. Qed.

#[export] Hint Resolve rot_range lxor32_range : machine_int.
#[export] Hint Extern 1 (is_u32 (add32 _ _)) => apply u32_range : machine_int.
#[export] Hint Extern 1 (is_u32 (sub32 _ _)) => apply u32_range : machine_int.
#[export] Hint Extern 2 (_ <= _ <= _) => lia : machine_int.

Lemma mix_ok s : abc_ok s -> abc_ok (mix s).
Proof.
  destruct s as [[a b] c]. intros (Ha & Hb & Hc). unfold mix, abc_ok. cbv zeta.
  auto 20 with machine_int.
Qed.

Lemma final_ok s : abc_ok s -> abc_ok (final s).
Proof.
  destruct s as [[a b] c]. intros (Ha & Hb & Hc). unfold final, abc_ok. cbv zeta.
  auto 20 with machine_int.
Qed.

Lemma block_bytes_ok k s : abc_ok (block_bytes k s).
Proof. destruct s as [[a b] c]. unfold block_bytes, abc_ok. auto with machine_int. Qed.

Lemma while12_ok block fuel k n s :
  (forall k s, abc_ok (block k s)) -> abc_ok s ->
  abc_ok (while12 block fuel k n s).2.
Proof.
  intros Hb. revert k n s. induction fuel as [|fuel IH]; intros k n s Hs; simpl; [done|].
  destruct (12 <? n); [|done]. apply IH, mix_ok, Hb.
Qed.

Lemma tail_bytes_ok k n s :
  abc_ok s -> from_option abc_ok True (tail_bytes k n s).
Proof.
  destruct s as [[a b] c]. intros (Ha & Hb & Hc). unfold tail_bytes. cbv zeta beta.
  destruct (n =? 0); simpl; [done|].
  repeat match goal with |- context [if ?b then _ else _] => destruct b end;
    auto with machine_int.
Qed.

Lemma hl_run_ok al k n s :
  bytes_ok k -> 0 <= n -> abc_ok s -> abc_ok (hl_run al k n s).
Proof.
  intros Hk Hn Hs. rewrite (hl_run_agree al 1 k k) by (auto; done). unfold hl_run.
  change (Z.land 1 3 =? 0) with false. change (Z.land 1 1 =? 0) with false. cbv iota.
  pose proof (while12_ok block_bytes (Z.to_nat n) k n s block_bytes_ok Hs) as H.
  destruct while12 as [[k' n'] s'].
  pose proof (tail_bytes_ok k' n' s' H) as Ht.
  destruct (tail_bytes k' n' s'); simpl in *; auto using final_ok.
Qed.

(** *** What the hash functions promise *)

(** C24 The word-at-a-time variants of [hashlittle] and [hashlittle2], which may
    read beyond the key, compute the same as the byte-at-a-time ones on the key
    alone: the result depends neither on the alignment of the key's address nor
    on the bytes that follow the key. *)
Theorem hashlittle_key_only al al' k k' n initval pb :
  bytes_ok k -> bytes_ok k' -> 0 <= n -> agree n k k' ->
  hashlittle al k n initval = hashlittle al' k' n initval
  /\ hashlittle2 al k n initval pb = hashlittle2 al' k' n initval pb.
Proof.
  intros Hk Hk' Hn Ha. unfold hashlittle, hashlittle2.
  split; by rewrite (hl_run_agree al al' k k' n _ Ha Hk Hk' Hn).
Qed.

Lemma hashlittle_key_only_witness :
  hashlittle 0 [1; 2; 3; 77; 78] 3 0 = hashlittle 1 [1; 2; 3] 3 0
  /\ hashlittle2 2 [1; 2; 3; 77; 78] 3 0 5 = hashlittle2 3 [1; 2; 3] 3 0 5.
Proof.
  assert (bytes_ok [1; 2; 3; 77; 78]) by (repeat constructor; unfold is_u8; lia).
  assert (bytes_ok [1; 2; 3]) by (repeat constructor; unfold is_u8; lia).
  assert (agree 3 [1; 2; 3; 77; 78] [1; 2; 3]).
  { intros i Hi. destruct i as [|[|[|i]]]; [done..|lia]. }
  split.
  - apply (hashlittle_key_only 0 1 [1; 2; 3; 77; 78] [1; 2; 3] 3 0 0); auto; lia.
  - apply (hashlittle_key_only 2 3 [1; 2; 3; 77; 78] [1; 2; 3] 3 0 5); auto; lia.
Defined.

(** [hash64] is a 64-bit value that depends on the data only. *)
Lemma hash64_range al k n : bytes_ok k -> 0 <= n -> is_u64 (hash64 al k n).
Proof.
  intros Hk Hn. unfold hash64, hashlittle2.
  set (a := u32 (u32 (0xdeadbeef + u32 n) + 0)).
  pose proof (hl_run_ok al k n (a, a, add32 a 0) Hk Hn) as H.
  destruct (hl_run al k n (a, a, add32 a 0)) as [[x y] z].
  destruct H as (Hx & Hy & Hz); [unfold abc_ok, a; auto with machine_int|].
  rewrite Z.shiftl_mul_pow2 by lia. unfold is_u32, is_u64 in *. lia.
Qed.

Lemma hash64_key_only al al' k k' n :
  bytes_ok k -> bytes_ok k' -> 0 <= n -> agree n k k' ->
  hash64 al k n = hash64 al' k' n.
Proof.
  intros Hk Hk' Hn Ha. unfold hash64, hashlittle2.
  by rewrite (hl_run_agree al al' k k' n _ Ha Hk Hk' Hn).
Qed.

(** With a zero second seed, the primary value of [hashlittle2] is
    [hashlittle]'s, and that of [hashword2] is [hashword]'s, as the comments of
    lookup3.h say. *)
Theorem hash2_primary al k n pc :
  0 <= n ->
  (hashlittle2 al k n pc 0).1 = hashlittle al k n pc
  /\ (hashword2 k n pc 0).1 = hashword k n pc.
Proof.
  intros Hn. unfold hashlittle2, hashlittle, hashword2, hashword, add32.
  split.
  - rewrite Z.add_0_r, u32_idem. by destruct hl_run as [[x y] z].
  - assert (u32 (u64 (Z.shiftl n 2)) = u32 (Z.shiftl (u32 n) 2)) as ->.
    { rewrite !Z.shiftl_mul_pow2 by lia. unfold u32, u64. mlia. }
    rewrite Z.add_0_r, u32_idem.
    destruct while3 as [[k' n'] s]. by destruct tail_word as [[x y] z].
Qed.

Lemma hash2_primary_witness :
  0 <= 3 /\ (hashlittle2 0 [1; 2; 3] 3 7 0).1 = hashlittle 0 [1; 2; 3] 3 7.
Proof. split; [lia|]. apply (hash2_primary 0 [1; 2; 3] 3 7). lia. Defined.

(** *** Word keys *)

(** The bytes of an array of 32-bit words in the memory of a little-endian
    machine. *)
Definition word_bytes (w : Z) : list Z :=
  [w mod 256; w / 256 mod 256; w / 65536 mod 256; w / 16777216].
Definition words_bytes (ws : list Z) : list Z := flat_map word_bytes ws.

Lemma rd32_words ws i :
  Forall is_u32 ws -> rd32 (words_bytes ws) i = rd8 ws i.
Proof.
  revert i. induction ws as [|w ws IH]; intros i Hw.
  - unfold rd32, rd8. simpl words_bytes. by rewrite !nth_overflow by (simpl; lia).
  - apply Forall_cons in Hw as [Hw Hws].
    destruct i as [|i].
    + unfold rd32, rd8, word_bytes. simpl. unfold is_u32 in Hw. mlia.
    + change (rd8 (w :: ws) (S i)) with (rd8 ws i). rewrite <- (IH i) by done.
      unfold rd32. replace (4 * S i)%nat with (4 + 4 * i)%nat by lia.
      rewrite <- !(Nat.add_assoc 4). done.
Qed.

Lemma words_bytes_length ws : length (words_bytes ws) = (4 * length ws)%nat.
Proof. induction ws; simpl; lia. Qed.

Lemma words_bytes_ok ws : Forall is_u32 ws -> bytes_ok (words_bytes ws).
Proof.
  induction 1 as [|w ws Hw Hws IH]; [constructor|].
  unfold is_u32 in Hw. repeat constructor; try (unfold is_u8; mlia). apply IH.
Qed.

Lemma words_bytes_drop3 ws :
  drop 12 (words_bytes ws) = words_bytes (drop 3 ws).
Proof. destruct ws as [|a [|b [|c ws]]]; reflexivity. Qed.

Lemma block_le32_words ws s :
  Forall is_u32 ws -> block_le32 (words_bytes ws) s = blockw ws s.
Proof.
  intros H. destruct s as [[a b] c]. unfold block_le32, blockw. by rewrite !rd32_words.
Qed.

Lemma while3_while12 fuel fuel' ws n s :
  Forall is_u32 ws -> 0 <= n -> (Z.to_nat n <= fuel)%nat -> (Z.to_nat n <= fuel')%nat ->
  exists ws' n' s', while3 fuel ws n s = (ws', n', s')
    /\ while12 block_le32 fuel' (words_bytes ws) (4 * n) s = (words_bytes ws', 4 * n', s')
    /\ 0 <= n' <= 3 /\ Forall is_u32 ws'.
Proof.
  revert fuel' ws n s. induction fuel as [|fuel IH]; intros fuel' ws n s Hw Hn Hf Hf'.
  { exists ws, n, s. assert (n = 0) as -> by lia. by destruct fuel'. }
  destruct fuel' as [|fuel'].
  { exists ws, n, s. assert (n = 0) as -> by lia. done. }
  simpl while3. cbn [while12].
  destruct (Z.ltb_spec 3 n), (Z.ltb_spec 12 (4 * n)); try lia.
  - rewrite words_bytes_drop3, block_le32_words by done.
    replace (4 * n - 12) with (4 * (n - 3)) by lia.
    apply IH; [by apply Forall_drop|lia..].
  - exists ws, n, s. naive_solver lia.
Qed.

Lemma tail_word_le32 ws n s :
  Forall is_u32 ws -> 0 <= n <= 3 ->
  tail_word ws n s = finish (tail_le32 (words_bytes ws) (4 * n) s) s.
Proof.
  intros Hw Hn. destruct s as [[a b] c].
  assert (n = 0 \/ n = 1 \/ n = 2 \/ n = 3) as Hc by lia.
  destruct_or! Hc; subst; unfold tail_word, tail_le32; cbn [Z.mul Pos.mul Pos.add];
    rewrite ?rd32_words by done; done.
Qed.

(** [hashword] on an array of 32-bit words is [hashlittle] on the bytes of
    the array, whatever the alignment: "identical on little-endian machines,
    except that the length has to be measured in uint32_ts". *)
Theorem hashword_hashlittle al ws initval :
  Forall is_u32 ws ->
  hashword ws (Z.of_nat (length ws)) initval
  = hashlittle al (words_bytes ws) (4 * Z.of_nat (length ws)) initval.
Proof.
  intros Hw. set (N := Z.of_nat (length ws)). unfold hashword, hashlittle.
  assert (u32 (Z.shiftl (u32 N) 2) = u32 (4 * N)) as ->.
  { rewrite Z.shiftl_mul_pow2 by lia. unfold u32. mlia. }
  set (s0 := (_, _, _)).
  rewrite (hl_run_agree al 0 (words_bytes ws) (words_bytes ws)) by (auto using words_bytes_ok; (done || lia)).
  unfold hl_run. change (Z.land 0 3 =? 0) with true. cbv iota.
  destruct (while3_while12 (Z.to_nat N) (Z.to_nat (4 * N)) ws N s0)
    as (ws' & n' & s' & H3 & H12 & Hn' & Hw'); [done|lia..|].
  rewrite H3, H12, tail_word_le32 by done. done.
Qed.

Lemma hashword_hashlittle_witness :
  Forall is_u32 [5; 4294967295]
  /\ hashword [5; 4294967295] 2 9 = hashlittle 1 (words_bytes [5; 4294967295]) 8 9.
Proof.
  assert (Forall is_u32 [5; 4294967295]) as H by (repeat constructor; unfold is_u32; lia).
  split; [exact H|exact (hashword_hashlittle 1 [5; 4294967295] 9 H)].
Defined.

(** *** mix is reversible *)

Definition unmix (s : abc) : abc :=
  let '(a, b, c) := s in
  let b := sub32 b a in let c := Z.lxor c (rot b 4) in let c := add32 c b in
  let a := sub32 a c in let b := Z.lxor b (rot a 19) in let b := add32 b a in
  let c := sub32 c b in let a := Z.lxor a (rot c 16) in let a := add32 a c in
  let b := sub32 b a in let c := Z.lxor c (rot b 8) in let c := add32 c b in
  let a := sub32 a c in let b := Z.lxor b (rot a 6) in let b := add32 b a in
  let c := sub32 c b in let a := Z.lxor a (rot c 4) in let a := add32 a c in
  (a, b, c).

Lemma sub_add32 x y : is_u32 x -> sub32 (add32 x y) y = x.
Proof. intros. unfold sub32, add32. rewrite u32_sub_l, Z.add_simpl_r. by apply u32_small. Qed.

Lemma add_sub32 x y : is_u32 x -> add32 (sub32 x y) y = x.
Proof. intros. unfold sub32, add32. rewrite u32_add_l, Z.sub_add. by apply u32_small. Qed.

(** [mix] is reversible, as its comment says: no information in (a,b,c) is
    lost, so two different states never become the same. *)
Theorem mix_reversible s s' :
  abc_ok s -> abc_ok s' -> unmix (mix s) = s /\ (mix s = mix s' -> s = s').
Proof.
  assert (forall s, abc_ok s -> unmix (mix s) = s) as Hun.
  { clear. intros [[a b] c] (Ha & Hb & Hc). unfold mix, unmix. cbv zeta.
    repeat first
      [ rewrite sub_add32 by auto 20 with machine_int
      | rewrite lxor_cancel_r
      | rewrite add_sub32 by auto 20 with machine_int ]. done. }
  intros Hs Hs'. split; [auto|]. intros E.
  rewrite <- (Hun s), <- (Hun s') by done. by rewrite E.
Qed.

Lemma mix_reversible_witness : unmix (mix (1, 2, 3)) = (1, 2, 3).
Proof.
  assert (abc_ok (1, 2, 3)) as H by (repeat split; done).
  exact (proj1 (mix_reversible (1, 2, 3) (1, 2, 3) H H)).
Defined.

(** The test vectors of lib/hash/hash.c and hashbig.c. *)
Example hash64_vector :
  hash64 0 [104; 97; 115; 104; 32; 118; 97; 108; 117; 101; 32; 46; 46; 46; 32;
            104; 97; 115; 104; 32; 118; 97; 108; 117; 101; 32; 46; 46; 46; 32] 30
  = 0x34436c8269eb4c47.
Proof. vm_compute. reflexivity. Qed.

Example hashbig_vector :
  hashbig [104; 97; 115; 104; 98; 105; 103] 7 17 = 0x6c6d2a07.
Proof. vm_compute. reflexivity. Qed.
