(* ===== verification/Memory.v ===== *)
(** Byte memory: the contents of a mapped journal file.

    A file is a finite map from byte offsets to byte values; a byte never
    written is 0, as in a freshly allocated range.  Multi-byte fields are
    little-endian (include/sparse-endian.h on a little-endian machine). *)
From S2P Require Import Prelude.

Abbreviation mem := (gmap Z Z).

Definition byte_at (m : mem) (a : Z) : Z := default 0 (m !! a).

(** [le_val l]: the value of little-endian bytes; [le_bytes n v]: the [n] bytes
    of a value. *)
Fixpoint le_val (l : list Z) : Z :=
  match l with [] => 0 | b :: l => b + 256 * le_val l end.

Fixpoint le_bytes (n : nat) (v : Z) : list Z :=
  match n with O => [] | S n => v mod 256 :: le_bytes n (v / 256) end.

Fixpoint load_bytes (m : mem) (a : Z) (n : nat) : list Z :=
  match n with O => [] | S n => byte_at m a :: load_bytes m (a + 1) n end.

Fixpoint store_bytes (m : mem) (a : Z) (l : list Z) : mem :=
  match l with [] => m | b :: l => <[a := b]> (store_bytes m (a + 1) l) end.

(** le64toh / htole64 through a pointer *)
Definition load64 (m : mem) (a : Z) : Z := le_val (load_bytes m a 8).
Definition store64 (m : mem) (a v : Z) : mem := store_bytes m a (le_bytes 8 v).
Definition load32 (m : mem) (a : Z) : Z := le_val (load_bytes m a 4).
Definition store32 (m : mem) (a v : Z) : mem := store_bytes m a (le_bytes 4 v).
Definition store8 (m : mem) (a v : Z) : mem := store_bytes m a [v mod 256].

(** memzero(p, n) *)
Definition memzero (m : mem) (a n : Z) : mem := store_bytes m a (replicate (Z.to_nat n) 0).

Definition mem_ok (m : mem) : Prop := forall a, is_u8 (byte_at m a).

(** ** Little-endian values *)

Lemma le_bytes_length n v : length (le_bytes n v) = n.
Proof. revert v. induction n; intros v; simpl; [done|]. by rewrite IHn. Qed.

Lemma le_bytes_ok n v : bytes_ok (le_bytes n v).
Proof. revert v. induction n; intros v; simpl; constructor; [apply u8_range|apply IHn]. Qed.

Lemma le_val_bytes n v : le_val (le_bytes n v) = v mod 256 ^ Z.of_nat n.
Proof.
  revert v. induction n as [|n IH]; intros v.
  - simpl. by rewrite Z.mod_1_r.
  - cbn [le_bytes le_val]. rewrite IH, Nat2Z.inj_succ, Z.pow_succ_r by lia.
    rewrite Z.rem_mul_r by lia. lia.
Qed.

Lemma le_val_range l : bytes_ok l -> 0 <= le_val l < 256 ^ Z.of_nat (length l).
Proof.
  induction 1 as [|b l Hb Hl IH]; [simpl; lia|].
  cbn [le_val length]. rewrite Nat2Z.inj_succ, Z.pow_succ_r by lia.
  unfold is_u8 in Hb. nia.
Qed.

Lemma le_bytes_val l : bytes_ok l -> le_bytes (length l) (le_val l) = l.
Proof.
  induction 1 as [|b l Hb Hl IH]; [done|].
  cbn [le_val length le_bytes]. unfold is_u8 in Hb. f_equal.
  - mlia.
  - replace ((b + 256 * le_val l) / 256) with (le_val l) by mlia. done.
Qed.

(** ** Loads and stores *)

Lemma byte_at_insert m a b x :
  byte_at (<[a := b]> m) x = if decide (x = a) then b else byte_at m x.
Proof.
  unfold byte_at. destruct (decide (x = a)) as [->|].
  - by rewrite lookup_insert_eq.
  - by rewrite lookup_insert_ne.
Qed.

Lemma byte_at_store m a l x :
  byte_at (store_bytes m a l) x
  = if decide (a <= x < a + Z.of_nat (length l)) then nth (Z.to_nat (x - a)) l 0
    else byte_at m x.
Proof.
  revert a. induction l as [|b l IH]; intros a.
  - simpl. by rewrite decide_False by lia.
  - cbn [store_bytes length]. rewrite byte_at_insert, IH.
    destruct (decide (x = a)) as [->|].
    + rewrite decide_True by lia. by rewrite Z.sub_diag.
    + destruct (decide (a + 1 <= x < a + 1 + Z.of_nat (length l))).
      * rewrite decide_True by lia.
        replace (Z.to_nat (x - a)) with (S (Z.to_nat (x - (a + 1)))) by lia. done.
      * by rewrite decide_False by lia.
Qed.

Lemma byte_at_store_ne m a l x :
  x < a \/ a + Z.of_nat (length l) <= x -> byte_at (store_bytes m a l) x = byte_at m x.
Proof. intros. by rewrite byte_at_store, decide_False by lia. Qed.

Lemma load_bytes_length m a n : length (load_bytes m a n) = n.
Proof. revert a. induction n; intros; simpl; auto. Qed.

Lemma load_bytes_ext m m' a n :
  (forall x, a <= x < a + Z.of_nat n -> byte_at m x = byte_at m' x) ->
  load_bytes m a n = load_bytes m' a n.
Proof.
  revert a. induction n as [|n IH]; intros a H; simpl; [done|].
  f_equal; [apply H; lia|]. apply IH. intros x Hx. apply H. lia.
Qed.

Lemma load_store_bytes_eq m a l : load_bytes (store_bytes m a l) a (length l) = l.
Proof.
  revert a. induction l as [|b l IH]; intros a; [done|].
  cbn [length load_bytes store_bytes]. f_equal.
  - by rewrite byte_at_insert, decide_True by done.
  - etrans; [|apply IH]. apply load_bytes_ext. intros x Hx.
    by rewrite byte_at_insert, decide_False by lia.
Qed.

Lemma load_store_bytes_ne m a l b n :
  b + Z.of_nat n <= a \/ a + Z.of_nat (length l) <= b ->
  load_bytes (store_bytes m a l) b n = load_bytes m b n.
Proof. intros. apply load_bytes_ext. intros. apply byte_at_store_ne. lia. Qed.

Lemma load64_ext m m' a :
  (forall x, a <= x < a + 8 -> byte_at m x = byte_at m' x) -> load64 m a = load64 m' a.
Proof. intros. unfold load64. f_equal. by apply load_bytes_ext. Qed.

Lemma load64_store_ne m a l b :
  b + 8 <= a \/ a + Z.of_nat (length l) <= b -> load64 (store_bytes m a l) b = load64 m b.
Proof. intros. unfold load64. f_equal. apply load_store_bytes_ne. lia. Qed.

Lemma load64_store64_ne m a v b :
  b + 8 <= a \/ a + 8 <= b -> load64 (store64 m a v) b = load64 m b.
Proof. intros. unfold store64. apply load64_store_ne. by rewrite le_bytes_length. Qed.

Lemma load64_store64_eq m a v : is_u64 v -> load64 (store64 m a v) a = v.
Proof.
  intros. unfold load64, store64.
  rewrite <- (le_bytes_length 8 v) at 1. rewrite load_store_bytes_eq, le_val_bytes.
  apply Z.mod_small. exact H.
Qed.

Lemma load64_store8_ne m a v b :
  b + 8 <= a \/ a + 1 <= b -> load64 (store8 m a v) b = load64 m b.
Proof. intros. unfold store8. apply load64_store_ne. simpl. lia. Qed.

Lemma byte_at_store64_ne m a v b :
  b < a \/ a + 8 <= b -> byte_at (store64 m a v) b = byte_at m b.
Proof. intros. unfold store64. apply byte_at_store_ne. by rewrite le_bytes_length. Qed.

Lemma byte_at_store8_ne m a v b : b <> a -> byte_at (store8 m a v) b = byte_at m b.
Proof. intros. unfold store8. apply byte_at_store_ne. simpl. lia. Qed.

Lemma byte_at_store8_eq m a v : byte_at (store8 m a v) a = v mod 256.
Proof.
  unfold store8. rewrite byte_at_store, decide_True by (simpl; lia). by rewrite Z.sub_diag.
Qed.

Lemma byte_at_memzero m a n x :
  byte_at (memzero m a n) x = if decide (a <= x < a + n) then 0 else byte_at m x.
Proof.
  unfold memzero. rewrite byte_at_store, length_replicate.
  destruct (decide (a <= x < a + n)).
  - rewrite decide_True by lia. rewrite nth_lookup, lookup_replicate_2 by lia. done.
  - rewrite decide_False by lia. done.
Qed.

Lemma load64_memzero_ne m a n b :
  0 <= n -> b + 8 <= a \/ a + n <= b -> load64 (memzero m a n) b = load64 m b.
Proof. intros. unfold memzero. apply load64_store_ne. rewrite length_replicate. lia. Qed.

Lemma load64_zero m a :
  (forall x, a <= x < a + 8 -> byte_at m x = 0) -> load64 m a = 0.
Proof.
  intros H. unfold load64. cbn [load_bytes le_val]. rewrite !H by lia. done.
Qed.

(** ** Bytes stay bytes *)

Lemma mem_ok_store m a l : mem_ok m -> bytes_ok l -> mem_ok (store_bytes m a l).
Proof.
  intros Hm Hl x. rewrite byte_at_store. case_decide; [|apply Hm].
  rewrite nth_lookup. destruct (l !! Z.to_nat (x - a)) eqn:E; simpl; [|unfold is_u8; lia].
  by eapply Forall_lookup_1 in E.
Qed.

Lemma mem_ok_store64 m a v : mem_ok m -> mem_ok (store64 m a v).
Proof. intros. apply mem_ok_store; [done|apply le_bytes_ok]. Qed.

Lemma mem_ok_store8 m a v : mem_ok m -> mem_ok (store8 m a v).
Proof. intros. apply mem_ok_store; [done|]. repeat constructor; apply u8_range. Qed.

Lemma mem_ok_memzero m a n : mem_ok m -> mem_ok (memzero m a n).
Proof.
  intros. apply mem_ok_store; [done|]. apply Forall_replicate. unfold is_u8. lia.
Qed.

Lemma mem_ok_empty : mem_ok ∅.
Proof. intros a. unfold byte_at. rewrite lookup_empty. simpl. unfold is_u8. lia. Qed.

Lemma load_bytes_ok m a n : mem_ok m -> bytes_ok (load_bytes m a n).
Proof. intros Hm. revert a. induction n; intros; simpl; constructor; [apply Hm|apply IHn]. Qed.

Lemma load64_range m a : mem_ok m -> is_u64 (load64 m a).
Proof.
  intros Hm. pose proof (le_val_range _ (load_bytes_ok m a 8 Hm)) as H.
  by rewrite load_bytes_length in H.
Qed.

Create HintDb mem.
#[export] Hint Resolve mem_ok_store mem_ok_store64 mem_ok_store8 mem_ok_memzero
  mem_ok_empty load_bytes_ok load64_range le_bytes_ok : mem.

Lemma load32_ext m m' a :
  (forall x, a <= x < a + 4 -> byte_at m x = byte_at m' x) -> load32 m a = load32 m' a.
Proof. intros. unfold load32. f_equal. by apply load_bytes_ext. Qed.

Lemma load32_store32_eq m a v : is_u32 v -> load32 (store32 m a v) a = v.
Proof.
  intros. unfold load32, store32.
  rewrite <- (le_bytes_length 4 v) at 1. rewrite load_store_bytes_eq, le_val_bytes.
  apply Z.mod_small. exact H.
Qed.

Lemma load32_zero m a :
  (forall x, a <= x < a + 4 -> byte_at m x = 0) -> load32 m a = 0.
Proof.
  intros H. unfold load32. cbn [load_bytes le_val]. rewrite !H by lia. done.
Qed.

Lemma byte_at_store32_ne m a v b :
  b < a \/ a + 4 <= b -> byte_at (store32 m a v) b = byte_at m b.
Proof. intros. unfold store32. apply byte_at_store_ne. by rewrite le_bytes_length. Qed.

Lemma nth_load_bytes m a n i : (i < n)%nat -> nth i (load_bytes m a n) 0 = byte_at m (a + Z.of_nat i).
Proof.
  revert a i. induction n as [|n IH]; intros a i Hi; [lia|].
  destruct i as [|i]; simpl; [f_equal; lia|]. rewrite IH by lia. f_equal. lia.
Qed.

(** Copying a block. *)
Lemma byte_at_copy m m0 a n x :
  a <= x < a + Z.of_nat n -> byte_at (store_bytes m a (load_bytes m0 a n)) x = byte_at m0 x.
Proof.
  intros Hx. rewrite byte_at_store, load_bytes_length, decide_True by lia.
  rewrite nth_load_bytes by lia. f_equal. lia.
Qed.

(** Read through stores that do not overlap; the positions are compared with
    [lia]. *)
Ltac mem_simp :=
  repeat first
    [ rewrite load64_store64_eq by (assumption || (unfold is_u64 in *; lia))
    | rewrite load64_store64_ne by lia
    | rewrite load64_store8_ne by lia
    | rewrite load64_memzero_ne by lia
    | rewrite byte_at_store64_ne by lia
    | rewrite byte_at_store8_ne by lia
    | rewrite byte_at_store8_eq ].
