(* ===== verification/CString.v ===== *)
(** lib/utils: C strings (str.h) and the parsers of numbers and booleans.

    A string is the memory from a pointer on; what lies beyond the list reads as 0,
    the terminator.  A pointer that may be NULL is an option. *)
From S2P Require Import Prelude Memory.
From Stdlib Require String Ascii.
Export (notations) String.

(** The bytes of a literal. *)
Definition txt (s : String.string) : list Z := map (fun a => Z.of_N (Ascii.N_of_ascii a)) (String.list_ascii_of_string s).
Arguments txt _%_string.

Definition chr (s : list Z) : Z := hd 0 s.

(** The string at a pointer: the bytes before the terminator. *)
Fixpoint cstring (s : list Z) : list Z :=
  match s with [] => [] | c :: s => if c =? 0 then [] else c :: cstring s end.

(** * str.h *)

(** startswith of shared/util.h; the prefix is a literal. *)
Definition startswith (s prefix : list Z) : bool := bool_decide (take (length prefix) s = prefix).

Definition str_empty (str : option (list Z)) : bool :=
  match str with None => true | Some s => chr s =? 0 end.

(** do { ... } while ( *str1++) *)
Fixpoint str_eq_loop (s1 s2 : list Z) : bool :=
  match s1 with
  | [] => chr s2 =? 0
  | c :: s1 => if negb (c =? chr s2) then false else if c =? 0 then true else str_eq_loop s1 (tl s2)
  end.

(** Comparing a NULL pointer: [str1 == str2], which the caller's NULL decides. *)
Definition str_eq (str1 str2 : option (list Z)) : bool :=
  match str1, str2 with
  | Some s1, Some s2 => str_eq_loop s1 s2
  | None, None => true
  | _, _ => false
  end.

(** The second string's character as it is compared with [c]: [char] arithmetic
    wraps at 8 bits. *)
Definition case_adjust (c val : Z) : Z :=
  let val := if (0x60 <? val) && (val <? 0x7b) then val - 0x20 else val in
  if (0x60 <? c) && (c <? 0x7b) then u8 (val + 0x20) else val.

Fixpoint str_caseeq_loop (s1 s2 : list Z) : bool :=
  match s1 with
  | [] => case_adjust 0 (chr s2) =? 0
  | c :: s1 =>
      if negb (c =? case_adjust c (chr s2)) then false
      else if c =? 0 then true else str_caseeq_loop s1 (tl s2)
  end.

Definition str_caseeq (str1 str2 : option (list Z)) : bool :=
  match str1, str2 with
  | Some s1, Some s2 => str_caseeq_loop s1 s2
  | None, None => true
  | _, _ => false
  end.

(** The loop of str_copy: the memory, [dst] and [size] after it. *)
Fixpoint str_copy_loop (m : mem) (dst : Z) (src : list Z) (size : Z) : mem * Z * Z :=
  match src with
  | c :: src' =>
      if negb (c =? 0) && (1 <? size) then str_copy_loop (store8 m dst c) (dst + 1) src' (size - 1)
      else (m, dst, size)
  | [] => (m, dst, size)
  end.

Definition str_copy (m : mem) (dst : Z) (src : list Z) (size : Z) : mem * Z :=
  let '(m, dst, rest) := str_copy_loop m dst src size in
  (store8 m dst 0, size - rest).

(** * parse-uint.c, parse-bool.c: [None] is -1 with errno set to EINVAL *)

Fixpoint parse_uint_loop (p : list Z) (val : Z) : option Z :=
  match p with
  | [] => Some val
  | c :: p =>
      if c =? 0 then Some val
      else if (c <? 48) || (57 <? c) then None
      else
        let val := if 0 <? val then u64 (val * 10) else val in
        parse_uint_loop p (u64 (val + (c - 48)))
  end.

Definition parse_uint (str : option (list Z)) : option Z :=
  match str with None => None | Some s => parse_uint_loop s 0 end.

Definition str_yes := [121; 101; 115].
Definition str_true := [116; 114; 117; 101].
Definition str_on := [111; 110].
Definition str_no := [110; 111].
Definition str_false := [102; 97; 108; 115; 101].
Definition str_off := [111; 102; 102].

Definition parse_bool (str : option (list Z)) : option bool :=
  match str with
  | None => None
  | Some s =>
      if str_empty str then None else
      if chr (tl s) =? 0 then
        let c := chr s in
        if (c =? 49) || (c =? 121) || (c =? 89) then Some true
        else if (c =? 48) || (c =? 110) || (c =? 78) then Some false
        else None
      else if str_caseeq str (Some str_yes) || str_caseeq str (Some str_true) || str_caseeq str (Some str_on)
      then Some true
      else if str_caseeq str (Some str_no) || str_caseeq str (Some str_false) || str_caseeq str (Some str_off)
      then Some false
      else None
  end.

(** * Comparisons *)

Definition lower (c : Z) : Z := if (64 <? c) && (c <? 91) then c + 32 else c.
Definition is_digit (c : Z) : bool := (48 <=? c) && (c <=? 57).

Lemma cstring_nil s : cstring s = [] <-> chr s = 0.
Proof. destruct s as [|c s]; [done|]. simpl. destruct (Z.eqb_spec c 0); split; done. Qed.

Lemma cstring_cons s : chr s <> 0 -> cstring s = chr s :: cstring (tl s).
Proof. destruct s as [|c s]; [done|]. simpl. by destruct (Z.eqb_spec c 0). Qed.

Lemma str_eq_loop_ok s1 s2 : str_eq_loop s1 s2 = bool_decide (cstring s1 = cstring s2).
Proof.
  revert s2. induction s1 as [|c s1 IH]; intros s2; cbn [str_eq_loop cstring].
  { pose proof (cstring_nil s2). symmetry.
    destruct (Z.eqb_spec (chr s2) 0); [apply bool_decide_true; symmetry; tauto|
      apply bool_decide_false; intros E; symmetry in E; tauto]. }
  destruct (Z.eqb_spec c (chr s2)) as [->|Hne]; cbn [negb].
  - destruct (Z.eqb_spec (chr s2) 0) as [E|E].
    + symmetry. apply bool_decide_true. symmetry. by apply cstring_nil.
    + rewrite IH, (cstring_cons s2) by done. apply bool_decide_ext. split; [by intros ->|by intros [=]].
  - symmetry. apply bool_decide_false. destruct (Z.eqb_spec c 0) as [->|E].
    + intros H. apply Hne. symmetry. by apply cstring_nil.
    + intros H. destruct (decide (chr s2 = 0)) as [E2|E2].
      * rewrite (proj2 (cstring_nil _) E2) in H. done.
      * rewrite (cstring_cons s2) in H by done. by injection H.
Qed.

Lemma case_adjust_ok c v : is_u8 c -> is_u8 v -> (c = case_adjust c v <-> lower c = lower v).
Proof.
  unfold is_u8, case_adjust, lower, u8. intros Hc Hv. zcases; cbn [andb]; try lia.
  all: try (rewrite Z.mod_small by lia; lia). Z.div_mod_to_equations; lia.
Qed.

Lemma tl_ok s : bytes_ok s -> is_u8 (chr s) /\ bytes_ok (tl s).
Proof. destruct 1; simpl; [unfold is_u8; split; [lia|constructor]|done]. Qed.

Lemma lower_0 c : is_u8 c -> lower c = lower 0 -> c = 0.
Proof. unfold lower, is_u8. zcases; simpl; lia. Qed.

Lemma str_caseeq_loop_ok s1 s2 :
  bytes_ok s1 -> bytes_ok s2 ->
  str_caseeq_loop s1 s2 = bool_decide (lower <$> cstring s1 = lower <$> cstring s2).
Proof.
  intros H1. revert s2. induction H1 as [|c s1 Hc Hs1 IH]; intros s2 H2;
    destruct (tl_ok _ H2) as [Hv Htl]; cbn [str_caseeq_loop cstring].
  { pose proof (case_adjust_ok 0 (chr s2) ltac:(unfold is_u8; lia) Hv) as Hadj. symmetry.
    destruct (Z.eqb_spec (case_adjust 0 (chr s2)) 0) as [E|E]; [apply bool_decide_true|apply bool_decide_false].
    - rewrite (proj2 (cstring_nil s2)); [done|]. apply lower_0; [done|]. symmetry. by apply Hadj.
    - intros E'. symmetry in E'. apply fmap_nil_inv, cstring_nil in E'. apply E. symmetry. apply Hadj. by rewrite E'. }
  pose proof (case_adjust_ok c (chr s2) Hc Hv) as Hadj.
  destruct (Z.eqb_spec c (case_adjust c (chr s2))) as [E|Hne]; cbn [negb]; symmetry.
  - apply proj1 in Hadj. specialize (Hadj E). destruct (Z.eqb_spec c 0) as [->|Hc0].
    + apply bool_decide_true. by rewrite (proj2 (cstring_nil s2)) by (by apply lower_0).
    + rewrite (cstring_cons s2), IH by (done || by intros Hz; rewrite Hz in Hadj; apply lower_0 in Hadj).
      cbn [fmap list_fmap]. apply bool_decide_ext. split; [by intros [=]|by intros ->; f_equal].
  - apply bool_decide_false. destruct (Z.eqb_spec c 0) as [->|Hc0].
    + intros H. symmetry in H. apply fmap_nil_inv, cstring_nil in H. apply Hne, Hadj. by rewrite H.
    + intros H. destruct (decide (chr s2 = 0)) as [E2|E2].
      * by rewrite (proj2 (cstring_nil _) E2) in H.
      * rewrite (cstring_cons s2) in H by done. injection H as H _. tauto.
Qed.

(** str_eq compares two C strings, and str_caseeq compares them up to the case of
    ASCII letters; a NULL pointer equals only NULL. *)
Theorem str_eq_caseeq_correct (s1 s2 : list Z) :
  bytes_ok s1 -> bytes_ok s2 ->
  str_eq (Some s1) (Some s2) = bool_decide (cstring s1 = cstring s2)
  /\ str_caseeq (Some s1) (Some s2) = bool_decide (lower <$> cstring s1 = lower <$> cstring s2)
  /\ str_eq None (Some s1) = false /\ str_caseeq (Some s1) None = false.
Proof. intros H1 H2. split_and!; [apply str_eq_loop_ok|by apply str_caseeq_loop_ok|done|done]. Qed.

(** "On" and "oN" *)
Lemma str_eq_caseeq_witness :
  str_eq (Some [79; 110]) (Some [111; 78]) = false /\ str_caseeq (Some [79; 110]) (Some [111; 78]) = true.
Proof.
  destruct (str_eq_caseeq_correct [79; 110] [111; 78]) as (H1 & H2 & _);
    [repeat constructor; done|repeat constructor; done|].
  rewrite H1, H2. split; reflexivity.
Defined.

(** * Numbers *)

Definition digits_from (v : Z) (l : list Z) : Z := fold_left (fun v c => v * 10 + (c - 48)) l v.

(** The decimal notation of a number below [10 ^ n]. *)
Fixpoint decimal (n : nat) (v : Z) : list Z :=
  match n with
  | O => []
  | S n => if v <? 10 then [48 + v] else decimal n (v / 10) ++ [48 + v mod 10]
  end.

Lemma u64_digits_from v v' l : u64 v = u64 v' -> u64 (digits_from v l) = u64 (digits_from v' l).
Proof.
  revert v v'. induction l as [|c l IH]; intros v v' E; [done|]. apply IH.
  unfold u64 in *. by rewrite <- Zplus_mod_idemp_l, <- Zmult_mod_idemp_l, E, Zmult_mod_idemp_l, Zplus_mod_idemp_l.
Qed.

Lemma parse_uint_loop_ok p v :
  is_u64 v ->
  parse_uint_loop p v
  = if forallb is_digit (cstring p) then Some (u64 (digits_from v (cstring p))) else None.
Proof.
  revert v. induction p as [|c p IH]; intros v Hv; cbn [parse_uint_loop cstring].
  { simpl. by rewrite u64_small. }
  destruct (Z.eqb_spec c 0) as [->|Hc]; [simpl; by rewrite u64_small|].
  cbn [forallb]. unfold is_digit at 1. zcases; try lia; cbn [orb andb]; try done.
  all: rewrite IH by apply u64_range; destruct forallb; [|done]; f_equal;
    change (digits_from v (c :: cstring p)) with (digits_from (v * 10 + (c - 48)) (cstring p));
    apply u64_digits_from.
  - unfold u64. by rewrite Zplus_mod_idemp_l, Zmod_mod.
  - unfold is_u64 in Hv. replace v with 0 by lia. unfold u64. by rewrite Zmod_mod.
Qed.

Lemma decimal_ok n v :
  0 <= v < 10 ^ Z.of_nat n ->
  forallb is_digit (decimal n v) = true /\ digits_from 0 (decimal n v) = v /\ cstring (decimal n v) = decimal n v.
Proof.
  revert v. induction n as [|n IH]; intros v Hv; [simpl in *; split_and!; [done|lia|done]|].
  cbn [decimal]. destruct (Z.ltb_spec v 10).
  { unfold digits_from, is_digit. simpl. rewrite andb_true_r. destruct (Z.eqb_spec (48 + v) 0); [lia|].
    split_and!; [zdecide; lia|lia|done]. }
  rewrite Nat2Z.inj_succ, Z.pow_succ_r in Hv by lia.
  destruct (IH (v / 10)) as (Hd & Hval & _); [Z.div_mod_to_equations; lia|].
  assert (forallb is_digit (decimal n (v / 10) ++ [48 + v mod 10]) = true) as Hall.
  { rewrite forallb_app, Hd. simpl. rewrite andb_true_r. unfold is_digit. pose proof (Z.mod_pos_bound v 10 ltac:(lia)).
    zdecide; lia. }
  split_and!; [done| |].
  - unfold digits_from in *. rewrite fold_left_app, Hval. simpl. Z.div_mod_to_equations. lia.
  - generalize dependent (decimal n (v / 10) ++ [48 + v mod 10]). clear. intros l. induction l as [|c l IH]; [done|].
    cbn [forallb cstring]. intros [Hc Hl]%andb_true_iff. unfold is_digit in Hc. destruct (Z.eqb_spec c 0) as [->|]; [done|].
    by rewrite IH.
Qed.

(** parse_uint accepts exactly the strings of decimal digits and returns their
    value modulo 2^64; the decimal notation of every 64-bit number is read back as
    that number. *)
Theorem parse_uint_correct (s : list Z) (n : Z) :
  parse_uint (Some s)
  = (if forallb is_digit (cstring s) then Some (u64 (digits_from 0 (cstring s))) else None)
  /\ (is_u64 n -> parse_uint (Some (decimal 20 n)) = Some n).
Proof.
  split; [by apply parse_uint_loop_ok|].
  intros Hn. unfold is_u64 in Hn. destruct (decimal_ok 20 n) as (Hd & Hv & Hc); [simpl; lia|].
  unfold parse_uint. rewrite parse_uint_loop_ok, Hc, Hd, Hv by done. by rewrite u64_small.
Qed.

Lemma parse_uint_witness :
  parse_uint (Some [49; 50; 51; 97]) = None /\ parse_uint (Some (decimal 20 u64_max)) = Some u64_max.
Proof.
  destruct (parse_uint_correct [49; 50; 51; 97] u64_max) as [H1 H2].
  split; [by rewrite H1|]. apply H2. unfold is_u64, u64_max. lia.
Defined.

(** parse_uint has no overflow check and no check for the empty string: the
    decimal notation of 2^64, and the empty string, are read as 0. *)
Theorem parse_uint_unchecked :
  parse_uint (Some (decimal 20 (2 ^ 64))) = Some 0 /\ parse_uint (Some []) = Some 0.
Proof. by vm_compute. Qed.

(** * Booleans *)

Definition bool_words (b : bool) : list (list Z) :=
  if b then [[49]; [121]; str_yes; str_true; str_on] else [[48]; [110]; str_no; str_false; str_off].

Ltac bool_words :=
  unfold bool_words, str_yes, str_true, str_on, str_no, str_false, str_off;
  rewrite !elem_of_cons, elem_of_nil.

(** One of the words: both sides are computed. *)
Ltac bool_word_case :=
  match goal with |- _ <-> ?P => rewrite <- (bool_decide_eq_true P) end; vm_compute; split; congruence.

Lemma caseeq_word s w :
  bytes_ok s -> bytes_ok w -> cstring w = w -> lower <$> w = w ->
  str_caseeq (Some s) (Some w) = bool_decide (lower <$> cstring s = w).
Proof. intros Hs Hw Hc Hl. unfold str_caseeq. rewrite str_caseeq_loop_ok by done. by rewrite Hc, Hl. Qed.

Lemma parse_bool_char c b :
  is_u8 c -> c <> 0 ->
  (if (c =? 49) || (c =? 121) || (c =? 89) then Some true
   else if (c =? 48) || (c =? 110) || (c =? 78) then Some false else None) = Some b
  <-> [lower c] ∈ bool_words b.
Proof.
  intros Hc H0. unfold is_u8 in Hc.
  assert ([lower c] ∈ bool_words b <-> lower c = (if b then 49 else 48) \/ lower c = (if b then 121 else 110)) as ->.
  { destruct b; bool_words; intuition congruence. }
  unfold lower. destruct b; zcases; cbn [orb andb]; split; intros H'; try done; try lia; destruct H'; lia.
Qed.

(** parse_bool accepts exactly, in any letter case, 1, y, yes, true and on as true
    and 0, n, no, false and off as false. *)
Theorem parse_bool_correct (s : list Z) (b : bool) :
  bytes_ok s -> parse_bool (Some s) = Some b <-> lower <$> cstring s ∈ bool_words b.
Proof.
  intros Hs. destruct (tl_ok _ Hs) as [Hc Htl]. unfold parse_bool. cbn [str_empty].
  destruct (Z.eqb_spec (chr s) 0) as [E|E].
  { rewrite (proj2 (cstring_nil s) E). split; [done|]. cbn [fmap list_fmap]. destruct b; bool_words; intuition congruence. }
  rewrite (cstring_cons s) by done. destruct (Z.eqb_spec (chr (tl s)) 0) as [E2|E2].
  { rewrite (proj2 (cstring_nil _) E2). by apply parse_bool_char. }
  rewrite !caseeq_word by first [done | repeat constructor; done].
  rewrite (cstring_cons s), (cstring_cons (tl s)) by done.
  set (w := lower <$> _). assert (w <> [49] /\ w <> [121] /\ w <> [48] /\ w <> [110]) as (H1 & H2 & H3 & H4) by done.
  clearbody w. unfold bool_words.
  destruct (decide (w = str_yes)) as [->|?]; [destruct b; bool_word_case|].
  destruct (decide (w = str_true)) as [->|?]; [destruct b; bool_word_case|].
  destruct (decide (w = str_on)) as [->|?]; [destruct b; bool_word_case|].
  destruct (decide (w = str_no)) as [->|?]; [destruct b; bool_word_case|].
  destruct (decide (w = str_false)) as [->|?]; [destruct b; bool_word_case|].
  destruct (decide (w = str_off)) as [->|?]; [destruct b; bool_word_case|].
  rewrite !bool_decide_false by done. simpl. split; [done|].
  destruct b; rewrite !elem_of_cons, elem_of_nil; intuition congruence.
Qed.

Lemma parse_bool_witness : parse_bool (Some [79; 102; 70; 0; 9]) = Some false.
Proof.
  apply parse_bool_correct; [repeat constructor; done|].
  change (lower <$> cstring [79; 102; 70; 0; 9]) with str_off. unfold bool_words. rewrite !elem_of_cons. tauto.
Defined.

(** * str_copy *)

Lemma str_copy_loop_ok m dst src size :
  0 <= size ->
  exists n, (n = Z.min (Z.of_nat (length (cstring src))) (Z.max 0 (size - 1)))
    /\ let '(m', dst', rest) := str_copy_loop m dst src size in
       dst' = dst + n /\ rest = size - n
       /\ forall a, byte_at m' a
                    = if (dst <=? a) && (a <? dst + n) then u8 (nth (Z.to_nat (a - dst)) (cstring src) 0)
                      else byte_at m a.
Proof.
  revert m dst size. induction src as [|c src IH]; intros m dst size Hs; cbn [str_copy_loop cstring].
  { exists 0. split; [simpl; lia|]. split_and!; [lia|lia|]. intros a. zcases; simpl; done || lia. }
  destruct (Z.eqb_spec c 0) as [->|Hc]; cbn [negb andb].
  { exists 0. split; [simpl; lia|]. split_and!; [lia|lia|]. intros a. zcases; simpl; done || lia. }
  destruct (Z.ltb_spec 1 size) as [H1|H1].
  2:{ exists 0. split; [simpl; lia|]. split_and!; [lia|lia|]. intros a. zcases; simpl; done || lia. }
  destruct (IH (store8 m dst c) (dst + 1) (size - 1) ltac:(lia)) as (n & Hn & IH').
  exists (n + 1). split; [cbn [length]; lia|].
  destruct (str_copy_loop _ _ _ _) as [[m' dst'] rest]. destruct IH' as (-> & -> & Hb).
  split_and!; [lia|lia|]. intros a. rewrite Hb.
  destruct (decide (a = dst)) as [->|Hne].
  - rewrite byte_at_store8_eq, Z.sub_diag. simpl nth. zcases; try lia. done.
  - rewrite byte_at_store8_ne by done.
    zcases; simpl andb; cbv iota; try lia; try done.
    replace (Z.to_nat (a - dst)) with (S (Z.to_nat (a - (dst + 1)))) by lia. done.
Qed.

(** str_copy stores the source, cut to [size - 1] bytes, and the terminator at the
    destination and nothing else, never beyond [size] bytes of a non-empty buffer, and
    returns the length of what it stored. *)
Theorem str_copy_correct m dst src size :
  0 <= size ->
  exists m' n, str_copy m dst src size = (m', n)
    /\ n = Z.min (Z.of_nat (length (cstring src))) (Z.max 0 (size - 1))
    /\ forall a, byte_at m' a
         = if (dst <=? a) && (a <? dst + n) then u8 (nth (Z.to_nat (a - dst)) (cstring src) 0)
           else if a =? dst + n then 0 else byte_at m a.
Proof.
  intros Hs. destruct (str_copy_loop_ok m dst src size Hs) as (n & Hn & H). unfold str_copy.
  destruct (str_copy_loop _ _ _ _) as [[m' dst'] rest]. destruct H as (-> & -> & Hb).
  exists (store8 m' (dst + n) 0), n. split; [f_equal; lia|]. split; [done|]. intros a.
  destruct (Z.eqb_spec a (dst + n)) as [->|Hne].
  - rewrite byte_at_store8_eq. by zcases; try lia.
  - by rewrite byte_at_store8_ne, Hb by done.
Qed.

Lemma str_copy_witness : exists m', str_copy ∅ 10 [97; 98; 99] 3 = (m', 2) /\ byte_at m' 11 = 98 /\ byte_at m' 12 = 0.
Proof.
  destruct (str_copy_correct ∅ 10 [97; 98; 99] 3) as (m' & n & H & -> & Hb); [lia|].
  exists m'. split; [exact H|]. rewrite !Hb. split; reflexivity.
Defined.
