(* ===== verification/Split.v ===== *)
(** shared/util.c: split and the FOREACH_WORD loops over the words of a string.
    Strings are lists of bytes without the terminator; a pointer into a string is the
    rest of it. *)
From S2P Require Import Prelude Memory CString.

Definition is_in (set : list Z) (c : Z) : bool := existsb (Z.eqb c) set.

Fixpoint strspn (s accept : list Z) : nat :=
  match s with
  | [] => 0
  | c :: s => if is_in accept c then S (strspn s accept) else 0
  end.

Fixpoint strcspn (s reject : list Z) : nat :=
  match s with
  | [] => 0
  | c :: s => if is_in reject c then 0 else S (strcspn s reject)
  end.

(** The loop of strcspn_escaped: [n] and [escaped] at its end. *)
Fixpoint strcspn_escaped_loop (s reject : list Z) (n : nat) (escaped : bool) : nat * bool :=
  match s with
  | [] => (n, escaped)
  | c :: s =>
      if escaped then strcspn_escaped_loop s reject (S n) false
      else if c =? 92 then strcspn_escaped_loop s reject (S n) true
      else if is_in reject c then (n, escaped)
      else strcspn_escaped_loop s reject (S n) escaped
  end.

Definition strcspn_escaped (s reject : list Z) : nat :=
  let '(n, escaped) := strcspn_escaped_loop s reject 0 false in
  (n - if (escaped : bool) then 1 else 0)%nat.

Definition quotes : list Z := [39; 34].

(** The word, as the string it starts and its length, and the new state. *)
Definition split (state separator : list Z) (quoted : bool) : option (list Z * nat) * list Z :=
  match state with
  | [] => (None, state)
  | _ =>
      let current := drop (strspn state separator) state in
      match current with
      | [] => (None, current)
      | c :: rest =>
          if quoted && is_in quotes c then
            let l := strcspn_escaped rest [c] in
            if (chr (drop (l + 1) current) =? 0)
               || (negb (chr (drop (l + 2) current) =? 0) && negb (is_in separator (chr (drop (l + 2) current))))
            then (None, current)
            else (Some (rest, l), drop (l + 2) current)
          else if quoted then
            let l := strcspn_escaped current separator in (Some (current, l), drop l current)
          else
            let l := strcspn current separator in (Some (current, l), drop l current)
      end
  end.

(** FOREACH_WORD_SEPARATOR: the words in turn; every one consumes a byte at least. *)
Fixpoint words_loop (n : nat) (state separator : list Z) (quoted : bool) : list (list Z) :=
  match n with
  | O => []
  | S n =>
      match split state separator quoted with
      | (None, _) => []
      | (Some (word, l), state) => take l word :: words_loop n state separator quoted
      end
  end.

Definition words (s separator : list Z) (quoted : bool) : list (list Z) :=
  words_loop (S (length s)) s separator quoted.

(** * Words between separators *)

Lemma strspn_none s c accept : is_in accept c = false -> strspn (c :: s) accept = 0%nat.
Proof. simpl. by intros ->. Qed.

Lemma strcspn_app w c s reject :
  Forall (fun x => is_in reject x = false) w -> is_in reject c = true -> strcspn (w ++ c :: s) reject = length w.
Proof.
  intros Hw Hc. induction Hw as [|x w Hx Hw IH]; simpl; [by rewrite Hc|]. by rewrite Hx, IH.
Qed.

Lemma strcspn_all w reject : Forall (fun x => is_in reject x = false) w -> strcspn w reject = length w.
Proof. intros Hw. induction Hw as [|x w Hx Hw IH]; simpl; [done|]. by rewrite Hx, IH. Qed.

(** Words joined by a separator. *)
Fixpoint join (sep : Z) (ws : list (list Z)) : list Z :=
  match ws with
  | [] => []
  | [w] => w
  | w :: ws => w ++ sep :: join sep ws
  end.

Definition a_word (sep : Z) (w : list Z) : Prop := w <> [] /\ Forall (fun x => x <> sep) w.

Lemma a_word_in sep w : a_word sep w -> Forall (fun x => is_in [sep] x = false) w.
Proof.
  intros [_ Hw]. eapply Forall_impl; [exact Hw|]. intros x Hx. simpl. rewrite orb_false_r. by apply Z.eqb_neq.
Qed.

Lemma words_loop_empty n seps q : words_loop n [] seps q = [].
Proof. by destruct n. Qed.

(** [lead]: the separator before the rest, left by the word before. *)
Lemma words_loop_join sep ws : Forall (a_word sep) ws -> forall n lead, (length ws <= n)%nat ->
  lead = [] \/ lead = [sep] -> words_loop n (lead ++ join sep ws) [sep] false = ws.
Proof.
  induction 1 as [|w ws Hw Hws IH]; intros n lead Hn Hlead.
  { rewrite app_nil_r. destruct n; [done|]. destruct Hlead as [->| ->]; [done|]. simpl. unfold split. simpl.
    by rewrite Z.eqb_refl. }
  destruct n as [|n]; [simpl in Hn; lia|]. pose proof (a_word_in _ _ Hw) as Hin.
  destruct w as [|c w]; [by destruct Hw|]. pose proof (Forall_inv Hin) as Hc.
  assert (exists tl, join sep ((c :: w) :: ws) = (c :: w) ++ tl
    /\ (tl = [] /\ ws = [] \/ exists r, tl = sep :: r /\ r = join sep ws)) as (tl & Ej & Htl).
  { destruct ws as [|w' ws]; [exists []; rewrite app_nil_r; auto|]. eexists. split; [reflexivity|]. right. by eexists. }
  assert (split (lead ++ join sep ((c :: w) :: ws)) [sep] false = (Some ((c :: w) ++ tl, length (c :: w)), tl)) as Hsplit.
  { rewrite Ej. set (st := lead ++ (c :: w) ++ tl).
    assert (drop (strspn st [sep]) st = c :: w ++ tl) as Hdrop.
    { unfold st. destruct Hlead as [->| ->]; simpl in *; [by rewrite Hc|]. rewrite Z.eqb_refl. simpl. by rewrite Hc. }
    assert (strcspn (c :: w ++ tl) [sep] = length (c :: w)) as Hl.
    { change (c :: w ++ tl) with ((c :: w) ++ tl). destruct Htl as [[-> _]|(r & -> & _)].
      - rewrite app_nil_r. by apply strcspn_all.
      - apply strcspn_app; [done|]. simpl. by rewrite Z.eqb_refl. }
    unfold split. destruct st as [|s0 st'] eqn:Est; [by destruct lead|]. rewrite Hdrop. cbn [andb]. rewrite Hl.
    change (c :: w ++ tl) with ((c :: w) ++ tl). by rewrite drop_app_length. }
  cbn [words_loop]. rewrite Hsplit. rewrite take_app_length. f_equal.
  destruct Htl as [[-> ->]|(r & -> & ->)]; [apply words_loop_empty|].
  apply (IH n [sep]); [simpl in Hn; lia|by right].
Qed.

Lemma join_length sep ws : (length ws <= S (length (join sep ws)))%nat.
Proof.
  induction ws as [|w ws IH]; [simpl; lia|]. destruct ws as [|w' ws]; [simpl; lia|].
  change (join sep (w :: w' :: ws)) with (w ++ sep :: join sep (w' :: ws)). rewrite length_app. simpl in *. lia.
Qed.

Lemma words_join sep ws : Forall (a_word sep) ws -> words (join sep ws) [sep] false = ws.
Proof.
  intros H. unfold words. apply (words_loop_join sep ws H _ []); [apply join_length|by left].
Qed.
