(* ===== verification/Escape.v ===== *)
(** shared/util.c: escaping of strings in the manner of C and its inverse. *)
From S2P Require Import Prelude CString Split.

Definition hexchar (x : Z) : Z := nth (Z.to_nat (Z.land x 15)) [48; 49; 50; 51; 52; 53; 54; 55; 56; 57; 97; 98; 99; 100; 101; 102] 0.

(** Negative: not a digit. *)
Definition unhexchar (c : Z) : Z :=
  if is_digit c then c - 48 else
  if (97 <=? c) && (c <=? 102) then c - 97 + 10 else
  if (65 <=? c) && (c <=? 70) then c - 65 + 10 else - 22.

Definition octchar (x : Z) : Z := 48 + Z.land x 7.
Definition unoctchar (c : Z) : Z := if (48 <=? c) && (c <=? 55) then c - 48 else - 22.
Definition decchar (x : Z) : Z := 48 + x mod 10.
Definition undecchar (c : Z) : Z := if is_digit c then c - 48 else - 22.

(** [*f < ' ' || *f >= 127] for a char, which is signed. *)
Definition special (c : Z) : bool := (c <? 32) || (127 <=? c).

Definition cescape_char (c : Z) : list Z :=
  match c with
  | 7 => [92; 97] | 8 => [92; 98] | 12 => [92; 102] | 10 => [92; 110] | 13 => [92; 114]
  | 9 => [92; 116] | 11 => [92; 118] | 92 => [92; 92] | 34 => [92; 34] | 39 => [92; 39]
  | _ => if special c then [92; octchar (Z.shiftr c 6); octchar (Z.shiftr c 3); octchar c] else [c]
  end.

(** [s] is the string without its terminator. *)
Definition cescape (s : list Z) : list Z := concat (map cescape_char s).

Definition xescape_char (bad : list Z) (c : Z) : list Z :=
  if special c || (c =? 92) || is_in bad c then [92; 120; hexchar (Z.shiftr c 4); hexchar c] else [c].

Definition xescape (s bad : list Z) : list Z := concat (map (xescape_char bad) s).

(** The switch of cunescape_length_with_prefix, [f] behind the backslash: what is
    appended, how many characters behind [f] are skipped and whether it ends. *)
Definition unescape1 (f : list Z) : list Z * nat * bool :=
  let c := nth 0 f 0 in
  match c with
  | 97 => ([7], 0%nat, false) | 98 => ([8], 0%nat, false) | 102 => ([12], 0%nat, false)
  | 110 => ([10], 0%nat, false) | 114 => ([13], 0%nat, false) | 116 => ([9], 0%nat, false)
  | 118 => ([11], 0%nat, false) | 92 => ([92], 0%nat, false) | 34 => ([34], 0%nat, false)
  | 39 => ([39], 0%nat, false) | 115 => ([32], 0%nat, false)
  | 120 =>
      let a := unhexchar (nth 1 f 0) in let b := unhexchar (nth 2 f 0) in
      if (a <? 0) || (b <? 0) then ([92; 120], 0%nat, false)
      else ([u8 (Z.lor (Z.shiftl a 4) b)], 2%nat, false)
  | 48 | 49 | 50 | 51 | 52 | 53 | 54 | 55 =>
      let a := unoctchar c in let b := unoctchar (nth 1 f 0) in let d := unoctchar (nth 2 f 0) in
      if (a <? 0) || (b <? 0) || (d <? 0) then ([92; c], 0%nat, false)
      else ([u8 (Z.lor (Z.lor (Z.shiftl a 6) (Z.shiftl b 3)) d)], 2%nat, false)
  | 0 => ([92], 0%nat, true)
  | _ => ([92; c], 0%nat, false)
  end.

(** The loop while [f < s + length]; [length] is what is left of it. *)
Fixpoint unescape_loop (n : nat) (f : list Z) (length : Z) : list Z :=
  match n with
  | O => []
  | S n =>
      if length <=? 0 then [] else
      let c := nth 0 f 0 in
      if negb (c =? 92) then c :: unescape_loop n (drop 1 f) (length - 1) else
      match unescape1 (drop 1 f) with
      | (out, _, true) => out
      | (out, k, false) => out ++ unescape_loop n (drop (2 + k) f) (length - 2 - Z.of_nat k)
      end
  end.

(** [s] is the memory from the string on; what it does not hold reads as 0. *)
Definition cunescape_length_with_prefix (s : list Z) (length : Z) (prefix : list Z) : list Z :=
  prefix ++ unescape_loop (Z.to_nat length) s length.

Definition cunescape_length (s : list Z) (length : Z) : list Z := cunescape_length_with_prefix s length [].
Definition cunescape (s : list Z) : list Z := cunescape_length s (zlen s).

(** * Escaping is undone *)

Definition unescapes (e : list Z) (c : Z) : Prop :=
  (e = [c] /\ c <> 92)
  \/ exists e' k, e = 92 :: e' /\ length e' = S k /\ forall rest, unescape1 (e' ++ rest) = ([c], k, false).

Definition byte_values : list Z := seqZ 1 255.

Ltac unescapes_tac :=
  first [ left; split; [reflexivity|discriminate]
        | right; do 2 eexists; split; [reflexivity|split; [reflexivity|intros rest; reflexivity]] ].

Lemma byte_value c : 0 < c < 256 -> c ∈ byte_values.
Proof. intros H. apply elem_of_seqZ. lia. Qed.

Lemma cescape_char_ok c : 0 < c < 256 -> unescapes (cescape_char c) c.
Proof.
  intros Hc. assert (Forall (fun c => unescapes (cescape_char c) c) byte_values) as H
    by (unfold byte_values; vm_compute seqZ; repeat (apply Forall_cons; split; [unescapes_tac|]); apply Forall_nil; exact I).
  rewrite Forall_forall in H. by apply H, byte_value.
Qed.

Lemma hex_escape_ok c : 0 < c < 256 -> unescapes [92; 120; hexchar (Z.shiftr c 4); hexchar c] c.
Proof.
  intros Hc. assert (Forall (fun c => unescapes [92; 120; hexchar (Z.shiftr c 4); hexchar c] c) byte_values) as H
    by (unfold byte_values; vm_compute seqZ; repeat (apply Forall_cons; split; [unescapes_tac|]); apply Forall_nil; exact I).
  rewrite Forall_forall in H. by apply H, byte_value.
Qed.

Lemma xescape_char_ok bad c : 0 < c < 256 -> unescapes (xescape_char bad c) c.
Proof.
  intros Hc. unfold xescape_char. destruct (special c || (c =? 92) || is_in bad c) eqn:E; [by apply hex_escape_ok|].
  left. split; [done|]. intros ->. by rewrite orb_true_r in E.
Qed.

Lemma printable_values (esc : Z -> list Z) c : 0 < c < 256 ->
  forallb (fun c => forallb (fun x => (32 <=? x) && (x <? 127)) (esc c)) byte_values = true ->
  Forall (fun x => 32 <= x < 127) (esc c).
Proof.
  intros Hc H. rewrite forallb_forall in H. specialize (H c (proj1 (list_elem_of_In _ _) (byte_value c Hc))).
  rewrite forallb_forall in H. apply Forall_forall. intros x Hx%list_elem_of_In. specialize (H x Hx). bprop. lia.
Qed.

Lemma cescape_char_plain c : 0 < c < 256 -> Forall (fun x => 32 <= x < 127) (cescape_char c).
Proof. intros Hc. apply printable_values; [done|]. vm_compute. reflexivity. Qed.

Lemma xescape_char_plain bad c : 0 < c < 256 -> Forall (fun x => 32 <= x < 127) (xescape_char bad c).
Proof.
  intros Hc. unfold xescape_char. destruct (special c || (c =? 92) || is_in bad c) eqn:E.
  - apply (printable_values (fun c => [92; 120; hexchar (Z.shiftr c 4); hexchar c])); [done|]. vm_compute. reflexivity.
  - constructor; [|constructor]. rewrite !orb_false_iff in E. destruct E as [[E _] _]. unfold special in E.
    rewrite orb_false_iff in E. bprop. lia.
Qed.

Lemma unescape_loop_ok (esc : Z -> list Z) s : Forall (fun c => unescapes (esc c) c) s ->
  forall n rest, (length (concat (map esc s)) <= n)%nat ->
  unescape_loop n (concat (map esc s) ++ rest) (zlen (concat (map esc s))) = s.
Proof.
  induction 1 as [|c s Hc Hs IH]; intros n rest Hn; [by destruct n|].
  unfold zlen in *. simpl in *. rewrite length_app in Hn. destruct Hc as [[Ee H92]|(e' & k & Ee & Hl & He)];
    rewrite Ee in *; simpl in *.
  - destruct n as [|n]; [lia|]. simpl. rewrite (proj2 (Z.eqb_neq _ _)) by done. simpl. f_equal.
    rewrite drop_0. etransitivity; [|apply (IH n rest); lia]. f_equal. lia.
  - destruct n as [|n]; [lia|]. simpl. rewrite drop_0, <- app_assoc, He. simpl. f_equal.
    rewrite <- Hl, drop_app_length. etransitivity; [|apply (IH n rest); lia]. f_equal. rewrite length_app. lia.
Qed.

Lemma cunescape_concat (esc : Z -> list Z) s rest : Forall (fun c => unescapes (esc c) c) s ->
  cunescape_length (concat (map esc s) ++ rest) (zlen (concat (map esc s))) = s.
Proof.
  intros Hs. unfold cunescape_length, cunescape_length_with_prefix. rewrite app_nil_l.
  apply unescape_loop_ok; [done|]. unfold zlen. rewrite Nat2Z.id. done.
Qed.

(** Escaping loses nothing: cunescape gives back every string of bytes, whether it
    was escaped by cescape (octal) or by xescape (hexadecimal, with any set of further
    characters escaped), whatever bytes stand behind it in memory.  The escaped text
    has printable characters only. *)
Theorem cunescape_escaped (s bad rest : list Z) :
  Forall (fun c => 0 < c < 256) s ->
  cunescape_length (cescape s ++ rest) (zlen (cescape s)) = s
  /\ cunescape_length (xescape s bad ++ rest) (zlen (xescape s bad)) = s
  /\ Forall (fun c => 32 <= c < 127) (cescape s)
  /\ Forall (fun c => 32 <= c < 127) (xescape s bad).
Proof.
  intros Hs. split; [|split; [|split]].
  - apply (cunescape_concat cescape_char). exact (Forall_impl _ _ _ Hs cescape_char_ok).
  - apply (cunescape_concat (xescape_char bad)). exact (Forall_impl _ _ _ Hs (xescape_char_ok bad)).
  - apply Forall_concat, Forall_map. exact (Forall_impl _ _ _ Hs cescape_char_plain).
  - apply Forall_concat, Forall_map. exact (Forall_impl _ _ _ Hs (xescape_char_plain bad)).
Qed.

(** "a", a tab, "\", the byte 200 and a quote. *)
Definition escape_sample : list Z := [97; 9; 92; 200; 34].

Lemma cunescape_witness :
  cescape escape_sample = [97; 92; 116; 92; 92; 92; 51; 49; 48; 92; 34]
  /\ cunescape_length (cescape escape_sample ++ [120; 0]) (zlen (cescape escape_sample)) = escape_sample
  /\ xescape escape_sample [97] = [92; 120; 54; 49; 92; 120; 48; 57; 92; 120; 53; 99; 92; 120; 99; 56; 34].
Proof.
  split; [reflexivity|]. split; [|reflexivity].
  assert (Forall (fun c => 0 < c < 256) escape_sample) as H by (unfold escape_sample; repeat constructor).
  exact (proj1 (cunescape_escaped escape_sample [] [120; 0] H)).
Defined.
