(* ===== verification/Uuid.v ===== *)
(** lib/utils/uuid and hex_char of lib/utils.h: uuids as lists of 16 bytes. *)
From S2P Require Import Prelude Memory.

(** static const char table[16] = "0123456789abcdef" *)
Definition hex_table : list Z :=
  [48; 49; 50; 51; 52; 53; 54; 55; 56; 57; 97; 98; 99; 100; 101; 102].

Definition uuid_to_str (id : list Z) : list Z :=
  flat_map (fun b => [nth (Z.to_nat (Z.land (Z.shiftr b 4) 15)) hex_table 0;
                      nth (Z.to_nat (Z.land (Z.land b 0xf) 15)) hex_table 0]) id.

(** [-1] converted to uint8_t; a [char] above 127 is negative and so below '0'. *)
Definition hex_char (c : Z) : Z :=
  if (c <? 48) || (102 <? c) then u8 (-1)
  else if 97 <=? c then u8 (c - 97 + 10)
  else if c <=? 57 then u8 (c - 48)
  else if (65 <=? c) && (c <=? 70) then u8 (c - 65 + 10)
  else u8 (-1).

(** The loop of uuid_parse on the memory at [inp]: the value returned and the uuid. *)
Fixpoint uuid_parse_loop (fuel : nat) (inp : list Z) (i n : Z) (id : list Z) : option (Z * list Z) :=
  if 16 <=? n then Some (0, id) else
  match fuel with
  | O => None
  | S fuel =>
      if ((i =? 8) || (i =? 13) || (i =? 18) || (i =? 23)) && (nth (Z.to_nat i) inp 0 =? 45)
      then uuid_parse_loop fuel inp (u8 (i + 1)) n id
      else
        let a := hex_char (nth (Z.to_nat i) inp 0) in
        if a <? 0 then Some (-1, id) else
        let b := hex_char (nth (Z.to_nat (u8 (i + 1))) inp 0) in
        if a <? 0 then Some (-1, id) else
        uuid_parse_loop fuel inp (u8 (u8 (i + 1) + 1)) (u8 (n + 1))
          (<[Z.to_nat n := u8 (Z.lor (Z.shiftl a 4) b)]> id)
  end.

(** At most four dashes are skipped. *)
Definition uuid_parse (inp id : list Z) : option (Z * list Z) := uuid_parse_loop 20 inp 0 0 id.

Definition qword (id : list Z) (i : nat) : Z := le_val (take 8 (drop (8 * i) id)).

Definition uuid_equal (id1 id2 : list Z) : Z :=
  if negb (qword id1 0 =? qword id2 0) then 0
  else if negb (qword id1 1 =? qword id2 1) then 0
  else 1.

Definition uuid_is_null (id1 : list Z) : Z :=
  if 0 <? qword id1 0 then 0 else if 0 <? qword id1 1 then 0 else 1.

(** [random]: what random_get_bytes left in the uuid. *)
Definition uuid_gen_rand (random : list Z) : list Z :=
  let id := <[6%nat := Z.lor (Z.land (nth 6 random 0) 0x0f) 0x40]> random in
  <[8%nat := Z.lor (Z.land (nth 8 id 0) 0x3f) 0x80]> id.

(** * Properties *)

Definition uuid_ok (id : list Z) : Prop := length id = 16%nat /\ bytes_ok id.

(** The textual form from byte [n] on, with or without dashes. *)
Definition dash_before (n : nat) : bool :=
  Nat.eqb n 4 || Nat.eqb n 6 || Nat.eqb n 8 || Nat.eqb n 10.
Definition hex2 (b : Z) : list Z :=
  [nth (Z.to_nat (Z.land (Z.shiftr b 4) 15)) hex_table 0; nth (Z.to_nat (Z.land (Z.land b 0xf) 15)) hex_table 0].
Fixpoint uuid_text (dashes : bool) (n : nat) (bs : list Z) : list Z :=
  match bs with
  | [] => []
  | b :: bs => (if dashes && dash_before n then [45] else []) ++ hex2 b ++ uuid_text dashes (S n) bs
  end.

Lemma uuid_to_str_text id n : uuid_to_str id = uuid_text false n id.
Proof. revert n. induction id as [|b id IH]; intros n; [done|]. simpl. by rewrite <- IH. Qed.

Lemma hex2_ok b :
  is_u8 b ->
  exists h l, hex2 b = [h; l] /\ h <> 45 /\ 0 <= hex_char h /\ u8 (Z.lor (Z.shiftl (hex_char h) 4) (hex_char l)) = b.
Proof.
  intros Hb. eexists _, _. split; [reflexivity|].
  pose proof (all_bytes (fun b =>
    let h := nth (Z.to_nat (Z.land (Z.shiftr b 4) 15)) hex_table 0 in
    let l := nth (Z.to_nat (Z.land (Z.land b 0xf) 15)) hex_table 0 in
    negb (h =? 45) && (0 <=? hex_char h) && (u8 (Z.lor (Z.shiftl (hex_char h) 4) (hex_char l)) =? b))
    ltac:(vm_compute; reflexivity) b Hb) as H.
  cbv zeta beta in H. bprop. done.
Qed.

Lemma hex_char_range c : 0 <= hex_char c.
Proof. unfold hex_char. zcases; cbn [orb andb]; try apply u8_range; lia. Qed.

(** uuid_parse accepts whatever it is given: hex_char's -1 is 255 as a uint8_t. *)
Lemma uuid_parse_loop_accepts fuel inp i n id :
  is_u8 i -> 0 <= n <= 16 -> length id = 16%nat ->
  (16 - n) + (if i <=? 8 then 4 else if i <=? 13 then 3 else if i <=? 18 then 2 else if i <=? 23 then 1 else 0)
    <= Z.of_nat fuel -> i + 2 * (16 - n) + 4 < 256 ->
  exists id', uuid_parse_loop fuel inp i n id = Some (0, id') /\ length id' = 16%nat.
Proof.
  revert i n id. induction fuel as [|fuel IH]; intros i n id Hi Hn Hid Hf Hw; cbn [uuid_parse_loop];
    destruct (Z.leb_spec 16 n); try (by exists id); unfold is_u8 in Hi.
  { zcases_in Hf; lia. }
  assert (u8 (i + 1) = i + 1) as -> by (apply u8_small; unfold is_u8; lia).
  destruct (_ && _) eqn:Edash.
  - apply andb_true_iff in Edash as [Edash _]. rewrite !orb_true_iff, !Z.eqb_eq in Edash.
    apply IH; unfold is_u8; try done; try lia. zcases_in Hf; zcases; lia.
  - pose proof (hex_char_range (nth (Z.to_nat i) inp 0)). destruct (Z.ltb_spec (hex_char (nth (Z.to_nat i) inp 0)) 0); [lia|].
    rewrite (u8_small (i + 1 + 1)), (u8_small (n + 1)) by (unfold is_u8; lia).
    apply IH; unfold is_u8; rewrite ?length_insert; try done; try lia. zcases_in Hf; zcases; lia.
Qed.

Lemma drop_cons_inv (l : list Z) i x r : drop i l = x :: r -> nth i l 0 = x /\ drop (S i) l = r.
Proof.
  revert i. induction l as [|y l IH]; intros [|i] E; try discriminate; simpl in *.
  - by injection E as -> ->.
  - by apply IH.
Qed.

(** The dashes still to come before byte [n]. *)
Definition dashes_left (d : bool) (n : nat) : Z :=
  if d then Z.b2z (Nat.leb n 4) + Z.b2z (Nat.leb n 6) + Z.b2z (Nat.leb n 8) + Z.b2z (Nat.leb n 10) else 0.

Lemma dashes_left_S d n : dashes_left d n = dashes_left d (S n) + Z.b2z (d && dash_before n).
Proof.
  destruct d; [|done]. destruct (decide (n <= 10)%nat) as [H|H].
  - do 11 (destruct n; [done|]). lia.
  - unfold dashes_left, dash_before. repeat (rewrite (proj2 (Nat.leb_gt _ _)) by lia).
    repeat (rewrite (proj2 (Nat.eqb_neq _ _)) by lia). done.
Qed.

Lemma dashes_left_range d n : 0 <= dashes_left d n <= dashes_left d 0 /\ dashes_left d 0 <= 4.
Proof.
  destruct d; [|done]. change (dashes_left true 0) with 4. unfold dashes_left.
  destruct (n <=? 4)%nat, (n <=? 6)%nat, (n <=? 8)%nat, (n <=? 10)%nat; cbn [Z.b2z]; lia.
Qed.

(** Two digits are read. *)
Lemma uuid_parse_byte fuel inp i n id h l r :
  (0 <= n < 16)%nat -> 0 <= i < 200 -> drop (Z.to_nat i) inp = h :: l :: r -> h <> 45 ->
  0 <= hex_char h ->
  uuid_parse_loop (S fuel) inp i (Z.of_nat n) id
  = uuid_parse_loop fuel inp (i + 2) (Z.of_nat (S n))
      (<[n := u8 (Z.lor (Z.shiftl (hex_char h) 4) (hex_char l))]> id).
Proof.
  intros Hn Hi Hd Hh Hc. destruct (drop_cons_inv _ _ _ _ Hd) as [Hnth Hd']. apply drop_cons_inv in Hd' as [Hnth' _].
  cbn [uuid_parse_loop]. destruct (Z.leb_spec 16 (Z.of_nat n)); [lia|].
  rewrite !(u8_small (i + 1)), (u8_small (i + 1 + 1)), (u8_small (Z.of_nat n + 1)) by (unfold is_u8; lia).
  replace (Z.to_nat (i + 1)) with (S (Z.to_nat i)) by lia. rewrite Hnth, Hnth'.
  rewrite (proj2 (Z.eqb_neq h 45)), andb_false_r by done.
  destruct (Z.ltb_spec (hex_char h) 0); [lia|]. rewrite Nat2Z.id. f_equal; lia.
Qed.

Lemma uuid_text_parse d bs n fuel inp i id rest :
  bytes_ok bs -> (length bs + n = 16)%nat -> length id = 16%nat ->
  drop (Z.to_nat i) inp = uuid_text d n bs ++ rest ->
  i = 2 * Z.of_nat n + (dashes_left d 0 - dashes_left d n) ->
  Z.of_nat (length bs) + dashes_left d n <= Z.of_nat fuel ->
  uuid_parse_loop fuel inp i (Z.of_nat n) id = Some (0, take n id ++ bs).
Proof.
  intros Hbs. revert n fuel i id. induction Hbs as [|b bs Hb Hbs IH]; intros n fuel i id Hn Hid Hd Hi Hf.
  { simpl in Hn. assert (n = 16%nat) as -> by lia. rewrite take_ge, app_nil_r by lia. by destruct fuel. }
  cbn [length] in Hn, Hf. destruct (hex2_ok b Hb) as (h & l & E & Hh & Hc & Hv).
  pose proof (dashes_left_S d n) as Hs.
  pose proof (dashes_left_range d (S n)) as Hr. pose proof (dashes_left_range d n) as Hr'.
  assert (forall fuel i, drop (Z.to_nat i) inp = h :: l :: (uuid_text d (S n) bs ++ rest) ->
    i = 2 * Z.of_nat n + (dashes_left d 0 - dashes_left d (S n)) ->
    Z.of_nat (S (length bs)) + dashes_left d (S n) <= Z.of_nat fuel ->
    uuid_parse_loop fuel inp i (Z.of_nat n) id = Some (0, take n id ++ b :: bs)) as Hbyte.
  { clear fuel i Hd Hi Hf. intros fuel i Hd Hi Hf. destruct fuel as [|fuel]; [lia|].
    rewrite (uuid_parse_byte fuel inp i n id h l _ ltac:(lia) ltac:(lia) Hd) by done. rewrite Hv.
    rewrite (IH (S n) fuel (i + 2)); rewrite ?length_insert; try lia.
    - rewrite (take_S_r _ _ b) by (by apply list_lookup_insert_eq; lia).
      rewrite take_insert_ge, <- app_assoc by lia. done.
    - replace (Z.to_nat (i + 2)) with (S (S (Z.to_nat i))) by lia.
      apply drop_cons_inv in Hd as [_ Hd]. by apply drop_cons_inv in Hd as [_ ->]. }
  cbn [uuid_text] in Hd. rewrite E in Hd. destruct (d && dash_before n) eqn:Edash; simpl in Hd, Hs.
  2:{ apply Hbyte; simpl in *; [done|lia|lia]. }
  apply andb_true_iff in Edash as [-> Hdb].
  apply drop_cons_inv in Hd as [Hdash Hd].
  destruct fuel as [|fuel]; [lia|]. cbn [uuid_parse_loop]. destruct (Z.leb_spec 16 (Z.of_nat n)); [lia|].
  assert ((i =? 8) || (i =? 13) || (i =? 18) || (i =? 23) = true) as ->.
  { unfold dash_before in Hdb. rewrite !orb_true_iff, !Nat.eqb_eq in Hdb. rewrite !orb_true_iff, !Z.eqb_eq.
    destruct Hdb as [[[-> | ->] | ->] | ->]; vm_compute in Hi; lia. }
  rewrite Hdash, Z.eqb_refl. cbn [andb].
  rewrite u8_small by (unfold is_u8; lia).
  apply Hbyte; [|lia|lia]. by replace (Z.to_nat (i + 1)) with (S (Z.to_nat i)) by lia.
Qed.

(** What uuid_to_str writes is read back, whatever follows it. *)
Lemma uuid_parse_str id id0 rest :
  uuid_ok id -> length id0 = 16%nat -> uuid_parse (uuid_to_str id ++ rest) id0 = Some (0, id).
Proof.
  intros [Hl Hb] H0. unfold uuid_parse. rewrite (uuid_to_str_text id 0).
  apply (uuid_text_parse false id 0 20 _ 0 id0 rest); first [done | lia | rewrite Hl; done].
Qed.

(** C25 A uuid is read back from its textual form, which uuid_to_str writes without
    dashes and the 8-4-4-4-12 form has with them, whatever follows it. *)
Theorem uuid_parse_to_str id id0 rest :
  uuid_ok id -> length id0 = 16%nat ->
  uuid_parse (uuid_to_str id ++ rest) id0 = Some (0, id)
  /\ uuid_parse (uuid_text true 0 id ++ rest) id0 = Some (0, id).
Proof.
  intros [Hl Hb] H0. unfold uuid_parse. rewrite (uuid_to_str_text id 0).
  split; [apply (uuid_text_parse false id 0 20 _ 0 id0 rest)|apply (uuid_text_parse true id 0 20 _ 0 id0 rest)];
    first [done | lia | rewrite Hl; done].
Qed.

Definition uuid_sample : list Z := [222; 173; 190; 239; 0; 17; 34; 51; 68; 85; 102; 119; 136; 153; 170; 187].

Lemma uuid_parse_witness :
  uuid_parse (uuid_text true 0 uuid_sample) (replicate 16 0) = Some (0, uuid_sample).
Proof.
  destruct (uuid_parse_to_str uuid_sample (replicate 16 0) []) as [_ H];
    [split; [done|repeat constructor; done]|done|].
  rewrite app_nil_r in H. exact H.
Defined.

(** uuid_parse never reports an error: no character is refused, as the check
    for a negative digit is made on an unsigned byte. *)
Theorem uuid_parse_accepts_everything inp id :
  length id = 16%nat -> exists id', uuid_parse inp id = Some (0, id') /\ length id' = 16%nat.
Proof. intros Hid. apply uuid_parse_loop_accepts; unfold is_u8; simpl; done || lia. Qed.

(** "zzzz..." is the uuid of 16 bytes 0xff. *)
Lemma uuid_parse_accepts_witness : uuid_parse (replicate 32 122) (replicate 16 0) = Some (0, replicate 16 255).
Proof.
  destruct (uuid_parse_accepts_everything (replicate 32 122) (replicate 16 0)) as (id' & H & _); [done|].
  rewrite H. rewrite <- H. vm_compute. reflexivity.
Defined.

Lemma qword_inj id1 id2 : uuid_ok id1 -> uuid_ok id2 ->
  qword id1 0 = qword id2 0 -> qword id1 1 = qword id2 1 -> id1 = id2.
Proof.
  intros [H1 B1] [H2 B2] E0 E1. unfold qword in *.
  assert (forall id k, length id = 16%nat -> bytes_ok id -> (k <= 1)%nat ->
    le_bytes 8 (le_val (take 8 (drop (8 * k) id))) = take 8 (drop (8 * k) id)) as Hinv.
  { intros id k Hl Hb Hk. rewrite <- (le_bytes_val (take 8 (drop (8 * k) id))) at 2 by (by apply Forall_take, Forall_drop).
    f_equal. rewrite length_take, length_drop. lia. }
  rewrite <- (take_drop 8 id1), <- (take_drop 8 id2). f_equal.
  - change (take 8 (drop (8 * 0) id1) = take 8 (drop (8 * 0) id2)).
    rewrite <- (Hinv id1 0%nat), <- (Hinv id2 0%nat), E0 by (done || lia). done.
  - change (drop 8 id1) with (drop (8 * 1) id1). change (drop 8 id2) with (drop (8 * 1) id2).
    rewrite <- (take_ge (drop _ id1) 8), <- (take_ge (drop _ id2) 8) by (rewrite length_drop; lia).
    rewrite <- (Hinv id1 1%nat), <- (Hinv id2 1%nat), E1 by (done || lia). done.
Qed.

(** uuid_equal decides equality and uuid_is_null whether all bytes are zero. *)
Theorem uuid_equal_correct id1 id2 :
  uuid_ok id1 -> uuid_ok id2 ->
  uuid_equal id1 id2 = (if decide (id1 = id2) then 1 else 0)
  /\ uuid_is_null id1 = (if decide (id1 = replicate 16 0) then 1 else 0).
Proof.
  intros H1 H2. split.
  - unfold uuid_equal. destruct (decide (id1 = id2)) as [->|Hne]; [by rewrite !Z.eqb_refl|].
    destruct (Z.eqb_spec (qword id1 0) (qword id2 0)); [|done].
    destruct (Z.eqb_spec (qword id1 1) (qword id2 1)); [|done]. by destruct Hne; apply qword_inj.
  - assert (forall k, 0 <= qword id1 k) as Hq.
    { intros k. apply le_val_range. apply Forall_take, Forall_drop, H1. }
    unfold uuid_is_null. destruct (decide (id1 = replicate 16 0)) as [->|Hne]; [done|].
    pose proof (Hq 0%nat). pose proof (Hq 1%nat).
    destruct (Z.ltb_spec 0 (qword id1 0)); [done|]. destruct (Z.ltb_spec 0 (qword id1 1)); [done|].
    destruct Hne. apply qword_inj; [done|split; [done|repeat constructor; done]| |].
    + change (qword (replicate 16 0) 0) with 0. lia.
    + change (qword (replicate 16 0) 1) with 0. lia.
Qed.

(** uuid_gen_rand makes a random uuid of version 4 and the DCE variant, which is
    never the null uuid; the other bits are the random ones. *)
Theorem uuid_gen_rand_correct random :
  uuid_ok random ->
  let id := uuid_gen_rand random in
  uuid_ok id /\ Z.shiftr (nth 6 id 0) 4 = 4 /\ Z.shiftr (nth 8 id 0) 6 = 2
  /\ Z.land (nth 6 id 0) 0x0f = Z.land (nth 6 random 0) 0x0f
  /\ Z.land (nth 8 id 0) 0x3f = Z.land (nth 8 random 0) 0x3f
  /\ uuid_is_null id = 0
  /\ forall i, (i <> 6)%nat -> (i <> 8)%nat -> nth i id 0 = nth i random 0.
Proof.
  intros [Hl Hb]. do 17 (destruct random as [|? random]; try discriminate Hl). clear Hl.
  unfold bytes_ok in Hb. rewrite !Forall_cons in Hb. destruct Hb as (? & ? & ? & ? & ? & ? & Hb6 & ? & Hb8 & Hb).
  unfold uuid_gen_rand. cbn [nth insert list_insert]. cbv zeta. cbn [nth].
  pose proof (all_bytes (fun b =>
    let v := Z.lor (Z.land b 0x0f) 0x40 in let w := Z.lor (Z.land b 0x3f) 0x80 in
    (0 <? v) && (v <? 256) && (Z.shiftr v 4 =? 4) && (Z.land v 0x0f =? Z.land b 0x0f)
    && (0 <? w) && (w <? 256) && (Z.shiftr w 6 =? 2) && (Z.land w 0x3f =? Z.land b 0x3f))
    ltac:(vm_compute; reflexivity)) as Hbits.
  pose proof (Hbits _ Hb6) as H6. pose proof (Hbits _ Hb8) as H8. clear Hbits. cbv beta zeta in H6, H8. bprop.
  assert (uuid_ok (uuid_gen_rand [z; z0; z1; z2; z3; z4; z5; z6; z7; z8; z9; z10; z11; z12; z13; z14])) as Hok.
  { split; [done|]. unfold uuid_gen_rand. cbn [nth insert list_insert]. unfold bytes_ok.
    rewrite !Forall_cons. unfold is_u8 in *. intuition lia. }
  split_and!; try done.
  - etransitivity; [exact (proj2 (uuid_equal_correct _ _ Hok Hok))|]. rewrite decide_False; [done|].
    unfold uuid_gen_rand. cbn [nth insert list_insert]. intros [=]. lia.
  - intros i H6' H8'. do 9 (destruct i as [|i]; [done || congruence|]). done.
Qed.

Lemma uuid_gen_rand_witness : Z.shiftr (nth 6 (uuid_gen_rand uuid_sample) 0) 4 = 4.
Proof. apply (uuid_gen_rand_correct uuid_sample). split; [done|repeat constructor; done]. Defined.
