(* ===== verification/Utf8.v ===== *)
(** shared/utf8.c: validation, decoding and repair of UTF-8 strings. *)
From S2P Require Import Prelude Memory CString.

Definition is_unicode_valid (ch : Z) : bool :=
  if 0x110000 <=? ch then false
  else if Z.land ch 0xFFFFF800 =? 0xD800 then false
  else if (0xFDD0 <=? ch) && (ch <=? 0xFDEF) then false
  else if Z.land ch 0xFFFE =? 0xFFFE then false
  else true.

Definition is_unicode_control (ch : Z) : bool :=
  ((ch <? 32) && negb (ch =? 9) && negb (ch =? 10)) || ((0x7F <=? ch) && (ch <=? 0x9F)).

Definition utf8_encoded_expected_len (str : list Z) : Z :=
  let c := chr str in
  if c <? 0x80 then 1
  else if Z.land c 0xe0 =? 0xc0 then 2
  else if Z.land c 0xf0 =? 0xe0 then 3
  else if Z.land c 0xf8 =? 0xf0 then 4
  else if Z.land c 0xfc =? 0xf8 then 5
  else if Z.land c 0xfe =? 0xfc then 6
  else 0.

Definition EINVAL : Z := 22.

(** [for (i = 1; i < len; i++)]: [str] is the string at [i], [n] the rest of the count. *)
Fixpoint to_unichar_loop (n : nat) (str : list Z) (unichar : Z) : Z :=
  match n with
  | O => unichar
  | S n =>
      if negb (Z.land (chr str) 0xc0 =? 0x80) then - EINVAL
      else to_unichar_loop n (tl str) (Z.lor (Z.shiftl unichar 6) (Z.land (chr str) 0x3f))
  end.

Definition utf8_encoded_to_unichar (str : list Z) : Z :=
  let c := chr str in
  let len := utf8_encoded_expected_len str in
  let go mask := to_unichar_loop (Z.to_nat (len - 1)) (tl str) (Z.land c mask) in
  if len =? 1 then c
  else if len =? 2 then go 0x1f
  else if len =? 3 then go 0x0f
  else if len =? 4 then go 0x07
  else if len =? 5 then go 0x03
  else if len =? 6 then go 0x01
  else - EINVAL.

Definition utf8_unichar_to_encoded_len (unichar : Z) : Z :=
  if unichar <? 0x80 then 1
  else if unichar <? 0x800 then 2
  else if unichar <? 0x10000 then 3
  else if unichar <? 0x200000 then 4
  else if unichar <? 0x4000000 then 5
  else 6.

(** [for (i = 0; i < len; i++) if ((str[i] & 0x80) != 0x80) return -EINVAL;] *)
Fixpoint all_high (n : nat) (str : list Z) : bool :=
  match n with
  | O => true
  | S n => (Z.land (chr str) 0x80 =? 0x80) && all_high n (tl str)
  end.

Definition utf8_encoded_valid_unichar (str : list Z) : Z :=
  let len := utf8_encoded_expected_len str in
  if len =? 0 then - EINVAL
  else if len =? 1 then 1
  else if negb (all_high (Z.to_nat len) str) then - EINVAL
  else
    let unichar := utf8_encoded_to_unichar str in
    if negb (utf8_unichar_to_encoded_len unichar =? len) then - EINVAL
    else if negb (is_unicode_valid (u32 unichar)) then - EINVAL
    else len.

(** [length] is a size_t: it wraps when a character ends behind it. *)
Fixpoint utf8_is_printable_newline (fuel : nat) (str : list Z) (length : Z) (newline : bool) : option bool :=
  if length =? 0 then Some true else
  match fuel with
  | O => None
  | S fuel =>
      let encoded_len := utf8_encoded_valid_unichar str in
      let val := utf8_encoded_to_unichar str in
      if (encoded_len <? 0) || (val <? 0) || is_unicode_control (u32 val) || (negb newline && (val =? 10))
      then Some false
      else utf8_is_printable_newline fuel (drop (Z.to_nat encoded_len) str) (u64 (length - encoded_len)) newline
  end.

(** The pointer the function returns is [str] or NULL. *)
Fixpoint utf8_is_valid (fuel : nat) (str : list Z) : option bool :=
  if chr str =? 0 then Some true else
  match fuel with
  | O => None
  | S fuel =>
      let len := utf8_encoded_valid_unichar str in
      if len <? 0 then Some false else utf8_is_valid fuel (drop (Z.to_nat len) str)
  end.

Definition UTF8_REPLACEMENT_CHARACTER : list Z := [0xef; 0xbf; 0xbd].

(** What is written to the allocated buffer before the terminator. *)
Fixpoint utf8_escape_invalid (fuel : nat) (str : list Z) : option (list Z) :=
  if chr str =? 0 then Some [] else
  match fuel with
  | O => None
  | S fuel =>
      let len := utf8_encoded_valid_unichar str in
      if 0 <? len then
        s ← utf8_escape_invalid fuel (drop (Z.to_nat len) str); Some (take (Z.to_nat len) str ++ s)
      else
        s ← utf8_escape_invalid fuel (drop 1 str); Some (UTF8_REPLACEMENT_CHARACTER ++ s)
  end.

Fixpoint ascii_is_valid (str : list Z) : bool :=
  match str with
  | [] => true
  | c :: str => if c =? 0 then true else if 128 <=? c then false else ascii_is_valid str
  end.

(** The bytes written for a string of little-endian 16-bit units; [length] is in
    bytes and the loop reads a whole unit even when one byte is left. *)
Fixpoint utf16_to_utf8 (s : list Z) (length : nat) : list Z :=
  match length with
  | O => []
  | S length =>
      let c := u16 (Z.lor (Z.shiftl (chr (tl s)) 8) (chr s)) in
      let rest := utf16_to_utf8 (tl (tl s)) (pred length) in
      if c =? 0 then []
      else if c <? 0x80 then c :: rest
      else if c <? 0x800 then Z.lor 0xc0 (Z.shiftr c 6) :: Z.lor 0x80 (Z.land c 0x3f) :: rest
      else u8 (Z.lor 0xe0 (Z.shiftr c 12)) :: Z.lor 0x80 (Z.land (Z.shiftr c 6) 0x3f)
           :: Z.lor 0x80 (Z.land c 0x3f) :: rest
  end.

(** * The encoding *)

(** A Unicode scalar value's UTF-8 form (RFC 3629). *)
Definition utf8_encode (ch : Z) : list Z :=
  if ch <? 0x80 then [ch]
  else if ch <? 0x800 then [192 + ch / 64; 128 + ch mod 64]
  else if ch <? 0x10000 then [224 + ch / 4096; 128 + (ch / 64) mod 64; 128 + ch mod 64]
  else [240 + ch / 262144; 128 + (ch / 4096) mod 64; 128 + (ch / 64) mod 64; 128 + ch mod 64].

(** ASCII, NUL included, and the valid characters beyond. *)
Definition unichar_ok (ch : Z) : Prop := 0 <= ch /\ (ch < 0x80 \/ is_unicode_valid ch = true).

Lemma unichar_range ch : unichar_ok ch -> 0 <= ch < 0x110000.
Proof. intros [H0 [H|H]]; [lia|]. unfold is_unicode_valid in H. destruct (Z.leb_spec 0x110000 ch); [done|lia]. Qed.

(** The leading byte and the continuation bytes. *)
Lemma lead_bits c :
  is_u8 c ->
  utf8_encoded_expected_len [c]
  = (if c <? 128 then 1 else if c <? 192 then 0 else if c <? 224 then 2 else if c <? 240 then 3
     else if c <? 248 then 4 else if c <? 252 then 5 else if c <? 254 then 6 else 0).
Proof.
  intros Hc. apply Z.eqb_eq.
  exact (all_bytes (fun c => utf8_encoded_expected_len [c] =?
    (if c <? 128 then 1 else if c <? 192 then 0 else if c <? 224 then 2 else if c <? 240 then 3
     else if c <? 248 then 4 else if c <? 252 then 5 else if c <? 254 then 6 else 0))
    ltac:(vm_compute; reflexivity) c Hc).
Qed.

Definition is_cont (c : Z) : bool := (128 <=? c) && (c <? 192).

Lemma cont_bits c :
  is_u8 c ->
  (Z.land c 0xc0 =? 0x80) = is_cont c /\ (Z.land c 0x80 =? 0x80) = (128 <=? c) /\ Z.land c 0x3f = c mod 64
  /\ Z.land c 0x1f = c mod 32 /\ Z.land c 0x0f = c mod 16 /\ Z.land c 0x07 = c mod 8.
Proof.
  intros Hc.
  pose proof (all_bytes (fun c => eqb (Z.land c 0xc0 =? 0x80) (is_cont c) && eqb (Z.land c 0x80 =? 0x80) (128 <=? c)
    && (Z.land c 0x3f =? c mod 64) && (Z.land c 0x1f =? c mod 32) && (Z.land c 0x0f =? c mod 16) && (Z.land c 0x07 =? c mod 8))
    ltac:(vm_compute; reflexivity) c Hc) as H.
  cbv beta in H. bprop. rewrite !eqb_true_iff in *. done.
Qed.

Lemma shift6 u c : is_u8 c -> Z.lor (Z.shiftl u 6) (Z.land c 0x3f) = 64 * u + c mod 64.
Proof.
  intros Hc. destruct (cont_bits c Hc) as (_ & _ & -> & _).
  rewrite lor_shiftl by (try lia; change (2 ^ 6) with 64; apply Z.mod_pos_bound; lia). lia.
Qed.

(** The value of the continuation bytes. *)
Fixpoint cont_value (u : Z) (l : list Z) : Z :=
  match l with [] => u | c :: l => cont_value (64 * u + c mod 64) l end.

Lemma to_unichar_loop_ok l rest u :
  bytes_ok l ->
  to_unichar_loop (length l) (l ++ rest) u = if forallb is_cont l then cont_value u l else - EINVAL.
Proof.
  intros Hl. revert u. induction Hl as [|c l Hc Hl IH]; intros u; [done|].
  cbn [length app to_unichar_loop chr hd tl forallb cont_value].
  destruct (cont_bits c Hc) as (-> & _). rewrite shift6, IH by done. by destruct (is_cont c).
Qed.

Lemma all_high_inv n s : bytes_ok s -> all_high n s = true -> exists l rest, s = l ++ rest /\ length l = n.
Proof.
  intros Hs. revert s Hs. induction n as [|n IH]; intros s Hs H; [by exists [], s|].
  cbn [all_high] in H. destruct s as [|c s]; [done|]. inversion_clear Hs. bprop.
  destruct (IH s) as (l & rest & -> & Hl); [done|done|]. exists (c :: l), rest. split; [done|simpl; lia].
Qed.

Lemma all_high_ok l rest : bytes_ok l -> all_high (length l) (l ++ rest) = forallb (Z.leb 128) l.
Proof.
  induction 1 as [|c l Hc Hl IH]; [done|]. cbn [length app all_high chr hd tl forallb].
  destruct (cont_bits c Hc) as (_ & -> & _). by rewrite IH.
Qed.

Lemma conts_high l : forallb is_cont l = true -> forallb (Z.leb 128) l = true.
Proof.
  induction l as [|c l IH]; [done|]. cbn [forallb]. unfold is_cont at 1. intros H. bprop.
  rewrite IH by done. zcases; done || lia.
Qed.

Lemma cont_value_range u l : 0 <= u -> 64 ^ Z.of_nat (length l) * u <= cont_value u l < 64 ^ Z.of_nat (length l) * (u + 1).
Proof.
  revert u. induction l as [|c l IH]; intros u Hu; cbn [length cont_value]; [simpl; lia|].
  pose proof (Z.mod_pos_bound c 64 ltac:(lia)). specialize (IH (64 * u + c mod 64) ltac:(lia)).
  rewrite Nat2Z.inj_succ, Z.pow_succ_r by lia.
  pose proof (Z.pow_pos_nonneg 64 (Z.of_nat (length l))). nia.
Qed.

(** The bits of the leading byte that belong to the character. *)
Definition lead_value (c : Z) (len : Z) : Z := c mod 2 ^ (7 - len).

(** A sequence with all its bytes. *)
Section Multi.
Context (c : Z) (l rest : list Z) (len : Z).
Hypotheses (Hc : is_u8 c) (Hl : bytes_ok l) (Hlen : utf8_encoded_expected_len [c] = len) (H2 : 2 <= len)
  (Hn : Z.of_nat (length l) = len - 1).
Let v := cont_value (lead_value c len) l.

Lemma multi_len : len <= 6 /\ 192 <= c.
Proof.
  pose proof (lead_bits c Hc) as H. rewrite Hlen in H. zcases_in H; lia.
Qed.

Lemma multi_unichar :
  utf8_encoded_to_unichar (c :: l ++ rest) = if forallb is_cont l then v else - EINVAL.
Proof.
  unfold utf8_encoded_to_unichar. change (utf8_encoded_expected_len (c :: l ++ rest)) with (utf8_encoded_expected_len [c]).
  rewrite Hlen. replace (Z.to_nat (len - 1)) with (length l) by lia. cbn [chr hd tl].
  rewrite !to_unichar_loop_ok by done. unfold v, lead_value. destruct (cont_bits c Hc) as (_ & _ & _ & E2 & E3 & E4).
  assert (Z.land c 0x03 = c mod 4 /\ Z.land c 0x01 = c mod 2) as [E5 E6].
  { change 0x03 with (Z.ones 2). change 0x01 with (Z.ones 1). by rewrite !Z.land_ones by lia. }
  rewrite E2, E3, E4, E5, E6. destruct multi_len.
  destruct (Z.eqb_spec len 1); [lia|]. destruct (Z.eqb_spec len 2) as [->|]; [done|].
  destruct (Z.eqb_spec len 3) as [->|]; [done|]. destruct (Z.eqb_spec len 4) as [->|]; [done|].
  destruct (Z.eqb_spec len 5) as [->|]; [done|]. destruct (Z.eqb_spec len 6) as [->|]; [done|]. lia.
Qed.

Lemma multi_range : 0 <= v < 2 ^ 31.
Proof.
  destruct multi_len. assert (0 <= lead_value c len < 2 ^ (7 - len)) as Hlv by (apply Z.mod_pos_bound; lia).
  pose proof (cont_value_range (lead_value c len) l ltac:(lia)) as Hv. fold v in Hv. rewrite Hn in Hv.
  assert (64 ^ (len - 1) * 2 ^ (7 - len) <= 2 ^ 31) as Hp.
  { change 64 with (2 ^ 6). rewrite <- Z.pow_mul_r, <- Z.pow_add_r by lia. apply Z.pow_le_mono_r; lia. }
  pose proof (Z.pow_pos_nonneg 64 (len - 1)). nia.
Qed.

Lemma multi_valid :
  utf8_encoded_valid_unichar (c :: l ++ rest)
  = if forallb is_cont l && (utf8_unichar_to_encoded_len v =? len) && is_unicode_valid v then len else - EINVAL.
Proof.
  unfold utf8_encoded_valid_unichar. rewrite multi_unichar.
  change (utf8_encoded_expected_len (c :: l ++ rest)) with (utf8_encoded_expected_len [c]).
  rewrite Hlen. replace (Z.to_nat len) with (length (c :: l)) by (simpl; lia).
  change (c :: l ++ rest) with ((c :: l) ++ rest). rewrite all_high_ok by (by constructor).
  destruct (Z.eqb_spec len 0); [lia|]. destruct (Z.eqb_spec len 1); [lia|]. cbn [forallb].
  destruct multi_len. destruct (Z.leb_spec 128 c); [|lia]. cbn [andb].
  destruct (forallb is_cont l) eqn:Hcont; cbn [andb].
  - rewrite conts_high by done. cbn [negb]. rewrite u32_small by (pose proof multi_range; unfold is_u32; lia).
    by destruct (_ =? _), is_unicode_valid.
  - change (utf8_unichar_to_encoded_len (- EINVAL)) with 1. rewrite (proj2 (Z.eqb_neq 1 len)) by lia.
    by destruct (forallb (Z.leb 128) l).
Qed.
End Multi.

Lemma bytes_ok_app l1 l2 : bytes_ok (l1 ++ l2) <-> bytes_ok l1 /\ bytes_ok l2.
Proof. apply Forall_app. Qed.

Ltac divlia := Z.div_mod_to_equations; lia.

(** The shape of an encoded character beyond ASCII. *)
Lemma encode_multi ch :
  unichar_ok ch -> 0x80 <= ch ->
  exists c l, utf8_encode ch = c :: l /\ is_u8 c /\ bytes_ok l /\ forallb is_cont l = true
    /\ utf8_encoded_expected_len [c] = Z.of_nat (length (utf8_encode ch))
    /\ cont_value (lead_value c (Z.of_nat (length (utf8_encode ch)))) l = ch
    /\ utf8_unichar_to_encoded_len ch = Z.of_nat (length (utf8_encode ch)).
Proof.
  intros Hok Hch. pose proof (unichar_range ch Hok) as Hr. unfold utf8_encode.
  destruct (Z.ltb_spec ch 0x80); [lia|].
  pose proof (Z.mod_pos_bound ch 64 ltac:(lia)). pose proof (Z.mod_pos_bound (ch / 64) 64 ltac:(lia)).
  pose proof (Z.mod_pos_bound (ch / 4096) 64 ltac:(lia)).
  assert (forall x, 0 <= x < 64 -> is_cont (128 + x) = true) as Hcont.
  { intros x Hx. unfold is_cont. zcases; done || lia. }
  assert (forall x, 0 <= x < 64 -> (128 + x) mod 64 = x) as Hmod by (intros x Hx; divlia).
  destruct (Z.ltb_spec ch 0x800); [|destruct (Z.ltb_spec ch 0x10000)].
  all: eexists _, _; split; [reflexivity|]; cbn [length forallb cont_value Z.of_nat Pos.of_succ_nat Pos.succ].
  all: assert (Hlead : forall c, is_u8 c -> utf8_encoded_expected_len [c] = _) by (intros c; apply lead_bits).
  all: rewrite !Hcont, !Hmod by lia; unfold utf8_unichar_to_encoded_len, lead_value.
  all: split_and!; try done; try (unfold is_u8; divlia); try (repeat constructor; unfold is_u8; lia).
  all: try (rewrite Hlead by (unfold is_u8; divlia); clear Hlead; zcases; divlia).
  all: try (change (2 ^ (7 - 2)) with 32; divlia).
  all: try (change (2 ^ (7 - 3)) with 16; divlia).
  all: try (change (2 ^ (7 - 4)) with 8; divlia).
  all: zcases; lia.
Qed.

Lemma valid_encode ch rest :
  unichar_ok ch ->
  utf8_encoded_valid_unichar (utf8_encode ch ++ rest) = Z.of_nat (length (utf8_encode ch))
  /\ utf8_encoded_to_unichar (utf8_encode ch ++ rest) = ch.
Proof.
  intros Hok. pose proof (unichar_range ch Hok) as Hr. destruct (Z.lt_ge_cases ch 0x80) as [H|H].
  { assert (utf8_encode ch = [ch]) as -> by (unfold utf8_encode; by destruct (Z.ltb_spec ch 0x80); [|lia]).
    unfold utf8_encoded_valid_unichar, utf8_encoded_to_unichar, utf8_encoded_expected_len. cbn [app chr hd].
    destruct (Z.ltb_spec ch 0x80); [done|lia]. }
  destruct (encode_multi ch Hok H) as (c & l & E & Hc & Hl & Hcont & Hlen & Hv & Henc).
  assert (2 <= Z.of_nat (length (utf8_encode ch))) as H2 by (unfold utf8_encode; zcases; simpl; lia).
  assert (Z.of_nat (length l) = Z.of_nat (length (utf8_encode ch)) - 1) as Hn by (rewrite E; simpl; lia).
  set (L := Z.of_nat _) in *. rewrite E. cbn [app].
  rewrite (multi_valid c l rest L), (multi_unichar c l rest L) by done.
  rewrite Hcont, Hv, Henc, Z.eqb_refl. destruct Hok as [_ [?|Hval]]; [lia|]. by rewrite Hval.
Qed.

Lemma decode_bytes c l len :
  is_u8 c -> utf8_encoded_expected_len [c] = len -> 2 <= len -> Z.of_nat (length l) = len - 1 ->
  forallb is_cont l = true ->
  let v := cont_value (lead_value c len) l in
  utf8_unichar_to_encoded_len v = len -> 0 <= v < 0x110000 -> c :: l = utf8_encode v.
Proof.
  intros Hc Hlen H2 Hn Hcont v Henc Hv. pose proof (lead_bits c Hc) as Hlead. rewrite Hlen in Hlead.
  assert (len <= 4) by (unfold utf8_unichar_to_encoded_len in Henc; zcases_in Henc; lia).
  assert (forall x, is_cont x = true -> x mod 64 = x - 128 /\ 128 <= x < 192) as Hmod.
  { intros x Hx. unfold is_cont in Hx. bprop. split; [divlia|lia]. }
  unfold is_u8 in Hc. destruct l as [|c1 [|c2 [|c3 [|c4 l]]]]; cbn [length] in Hn; try lia.
  all: cbn [forallb] in Hcont; bprop; unfold v in *; clear v; cbn [cont_value] in *;
    repeat match goal with H : is_cont ?x = true |- _ => let E := fresh in
      destruct (Hmod x H) as [E ?]; rewrite E in *; clear E H end; clear Hmod.
  - assert (len = 2) as -> by lia. assert (192 <= c < 224) by (zcases_in Hlead; lia).
    assert (lead_value c 2 = c - 192) as Hlv by (unfold lead_value; change (2 ^ (7 - 2)) with 32; divlia); rewrite Hlv in *.
    unfold utf8_encode. unfold utf8_unichar_to_encoded_len in Henc. zcases_in Henc; zcases; try lia.
    repeat f_equal; divlia.
  - assert (len = 3) as -> by lia. assert (224 <= c < 240) by (zcases_in Hlead; lia).
    assert (lead_value c 3 = c - 224) as Hlv by (unfold lead_value; change (2 ^ (7 - 3)) with 16; divlia); rewrite Hlv in *.
    unfold utf8_encode. unfold utf8_unichar_to_encoded_len in Henc. zcases_in Henc; zcases; try lia.
    repeat f_equal; divlia.
  - assert (len = 4) as -> by lia. assert (240 <= c < 248) by (zcases_in Hlead; lia).
    assert (lead_value c 4 = c - 240) as Hlv by (unfold lead_value; change (2 ^ (7 - 4)) with 8; divlia); rewrite Hlv in *.
    unfold utf8_encode. unfold utf8_unichar_to_encoded_len in Henc. zcases_in Henc; zcases; try lia.
    repeat f_equal; divlia.
Qed.

Lemma valid_decode s :
  bytes_ok s -> s <> [] -> utf8_encoded_valid_unichar s <> - EINVAL ->
  exists ch rest, unichar_ok ch /\ s = utf8_encode ch ++ rest.
Proof.
  intros Hs Hne Hval. destruct s as [|c s]; [done|]. inversion_clear Hs as [|? ? Hc Hs'].
  pose proof (lead_bits c Hc) as Hlead.
  destruct (Z.lt_ge_cases c 128) as [H|H].
  { exists c, s. unfold is_u8 in Hc. split; [split; [lia|by left]|]. unfold utf8_encode.
    by destruct (Z.ltb_spec c 0x80); [|lia]. }
  set (len := utf8_encoded_expected_len [c]) in *.
  assert (all_high (Z.to_nat len) (c :: s) = true /\ len <> 0) as [Hhigh Hlen0].
  { unfold utf8_encoded_valid_unichar in Hval. change (utf8_encoded_expected_len (c :: s)) with len in Hval.
    destruct (Z.eqb_spec len 0); [done|]. destruct (Z.eqb_spec len 1); [zcases_in Hlead; lia|].
    by destruct (all_high (Z.to_nat len) (c :: s)). }
  assert (2 <= len) as H2 by (clear -Hlead Hlen0 H; zcases_in Hlead; lia).
  replace (Z.to_nat len) with (S (Z.to_nat (len - 1))) in Hhigh by lia. cbn [all_high tl] in Hhigh. bprop.
  destruct (all_high_inv _ _ Hs' ltac:(eassumption)) as (l & rest & -> & Hl).
  apply bytes_ok_app in Hs' as [Hlb _].
  assert (Z.of_nat (length l) = len - 1) as Hn by lia.
  rewrite (multi_valid c l rest len Hc Hlb eq_refl H2 Hn) in Hval.
  destruct (forallb is_cont l && _ && _) eqn:E; [|done]. bprop.
  set (v := cont_value (lead_value c len) l) in *.
  pose proof (multi_range c l len Hc eq_refl H2 Hn) as Hv. fold v in Hv.
  assert (unichar_ok v) as Hok by (split; [lia|by right]).
  pose proof (unichar_range v Hok). exists v, rest. split; [done|]. change (c :: l ++ rest) with ((c :: l) ++ rest). f_equal.
  by apply decode_bytes.
Qed.

(** The validator accepts exactly the well-formed encodings (RFC 3629, without
    the noncharacters and surrogates): it returns the length of the character the
    string starts with, which utf8_encoded_to_unichar decodes, or -EINVAL when the
    string starts with no encoded character. *)
Theorem utf8_encoded_valid_unichar_correct s :
  bytes_ok s -> s <> [] ->
  (exists ch rest, unichar_ok ch /\ s = utf8_encode ch ++ rest
     /\ utf8_encoded_valid_unichar s = Z.of_nat (length (utf8_encode ch)) /\ utf8_encoded_to_unichar s = ch)
  \/ (utf8_encoded_valid_unichar s = - EINVAL /\ forall ch rest, unichar_ok ch -> s <> utf8_encode ch ++ rest).
Proof.
  intros Hs Hne. destruct (decide (utf8_encoded_valid_unichar s = - EINVAL)) as [E|E].
  - right. split; [done|]. intros ch rest Hok ->. destruct (valid_encode ch rest Hok) as [H _]. unfold EINVAL in E. lia.
  - left. destruct (valid_decode s Hs Hne E) as (ch & rest & Hok & ->). exists ch, rest.
    destruct (valid_encode ch rest Hok) as [H1 H2]. done.
Qed.

(** "é" *)
Lemma utf8_valid_witness : utf8_encoded_valid_unichar [195; 169; 33] = 2.
Proof.
  destruct (utf8_encoded_valid_unichar_correct [195; 169; 33]) as [(ch & rest & _ & _ & H & _)|[H _]];
    [repeat constructor; done|done| |]; rewrite H; rewrite <- H; vm_compute; reflexivity.
Defined.

(** * Strings *)

(** The bytes of a sequence of characters other than NUL. *)
Definition char_ok (ch : Z) : Prop := unichar_ok ch /\ ch <> 0.
Definition utf8_text (l : list Z) : Prop := exists chs, Forall char_ok chs /\ l = flat_map utf8_encode chs.

Lemma cstring_app l s : Forall (fun c => c <> 0) l -> cstring (l ++ s) = l ++ cstring s.
Proof. induction 1 as [|c l Hc Hl IH]; [done|]. simpl. rewrite IH. by destruct (Z.eqb_spec c 0). Qed.

Lemma cstring_prefix s : exists t, s = cstring s ++ t.
Proof.
  induction s as [|c s [t IH]]; [by exists []|]. simpl. destruct (Z.eqb_spec c 0); [by exists (c :: s)|].
  exists t. simpl. by rewrite <- IH.
Qed.

Lemma encode_nonzero ch : char_ok ch -> utf8_encode ch <> [] /\ Forall (fun c => c <> 0) (utf8_encode ch).
Proof.
  intros [Hok Hz]. pose proof (unichar_range ch Hok). unfold utf8_encode.
  split; [zcases; done|]. zcases; repeat constructor; divlia.
Qed.

Lemma utf8_text_cons ch l : char_ok ch -> utf8_text l -> utf8_text (utf8_encode ch ++ l).
Proof. intros Hc (chs & H & ->). exists (ch :: chs). split; [by constructor|done]. Qed.

(** One character of a string that is not empty. *)
Lemma utf8_step s :
  bytes_ok s -> chr s <> 0 ->
  (exists ch rest, char_ok ch /\ s = utf8_encode ch ++ rest
     /\ utf8_encoded_valid_unichar s = Z.of_nat (length (utf8_encode ch))
     /\ cstring s = utf8_encode ch ++ cstring rest)
  \/ (utf8_encoded_valid_unichar s = - EINVAL /\ ~ utf8_text (cstring s)).
Proof.
  intros Hs Hc. assert (s <> []) as Hne by (by intros ->).
  destruct (decide (utf8_encoded_valid_unichar s = - EINVAL)) as [E|E].
  - right. split; [done|]. intros (chs & Hchs & Et). destruct (cstring_prefix s) as [t Ht].
    destruct Hchs as [|ch chs [Hok Hz] Hchs]; [by apply Hc, cstring_nil|].
    simpl in Et. rewrite Et, <- app_assoc in Ht. destruct (valid_encode ch (flat_map utf8_encode chs ++ t) Hok) as [H _].
    rewrite <- Ht in H. unfold EINVAL in E. lia.
  - left. destruct (valid_decode s Hs Hne E) as (ch & rest & Hok & ->). exists ch, rest.
    assert (char_ok ch) as Hch.
    { split; [done|]. intros ->. by apply Hc. }
    split_and!; [done|done|by apply valid_encode|]. apply cstring_app. by apply encode_nonzero.
Qed.

Lemma utf8_is_valid_ok fuel s :
  bytes_ok s -> (length s <= fuel)%nat ->
  exists b, utf8_is_valid fuel s = Some b /\ (b = true <-> utf8_text (cstring s)).
Proof.
  revert s. induction fuel as [|fuel IH]; intros s Hs Hf; cbn [utf8_is_valid];
    destruct (Z.eqb_spec (chr s) 0) as [E|E].
  1, 3: exists true; split; [done|]; split; [intros _|done]; exists []; split; [constructor|by apply cstring_nil].
  { destruct s; simpl in *; [done|lia]. }
  destruct (utf8_step s Hs E) as [(ch & rest & Hch & -> & -> & Ec)|[-> Hno]]; [|by exists false].
  destruct (Z.ltb_spec (Z.of_nat (length (utf8_encode ch))) 0); [lia|].
  rewrite Nat2Z.id, drop_app_length. apply bytes_ok_app in Hs as [_ Hs].
  destruct (encode_nonzero ch Hch) as [Hne Hnz]. rewrite length_app in Hf.
  destruct (IH rest Hs) as (b & Hb & Hiff); [destruct (utf8_encode ch); [done|simpl in Hf; lia]|].
  exists b. split; [done|]. rewrite Hiff, Ec. split; [by apply utf8_text_cons|].
  intros (chs & Hchs & Et). destruct Hchs as [|ch' chs Hch' Hchs]; [by apply app_nil in Et as [? ?]|].
  exists chs. split; [done|]. simpl in Et.
  pose proof (proj2 (valid_encode ch (cstring rest) (proj1 Hch))) as H1.
  pose proof (proj2 (valid_encode ch' (flat_map utf8_encode chs) (proj1 Hch'))) as H2.
  rewrite Et, H2 in H1. subst ch'. by apply app_inv_head in Et.
Qed.

(** utf8_is_valid decides whether a C string is a sequence of encoded characters. *)
Theorem utf8_is_valid_correct s :
  bytes_ok s -> exists b, utf8_is_valid (length s) s = Some b /\ (b = true <-> utf8_text (cstring s)).
Proof. intros Hs. by apply utf8_is_valid_ok. Qed.

Lemma utf8_is_valid_witness : utf8_is_valid 5 [72; 195; 169; 0; 255] = Some true /\ utf8_text [72; 195; 169].
Proof.
  destruct (utf8_is_valid_correct [72; 195; 169; 0; 255]) as (b & Hb & Hiff); [repeat constructor; done|].
  simpl in Hb. assert (b = true) as -> by (by injection Hb). split; [reflexivity|by apply Hiff].
Defined.

(** * Repair *)

Lemma replacement_char : char_ok 0xFFFD /\ utf8_encode 0xFFFD = UTF8_REPLACEMENT_CHARACTER.
Proof. by vm_compute; repeat split; try (by right); try discriminate. Qed.

Lemma utf8_escape_ok fuel s :
  bytes_ok s -> (length s <= fuel)%nat ->
  exists r, utf8_escape_invalid fuel s = Some r /\ utf8_text r /\ (length r <= 3 * length (cstring s))%nat
    /\ (utf8_text (cstring s) -> r = cstring s).
Proof.
  revert s. induction fuel as [|fuel IH]; intros s Hs Hf; cbn [utf8_escape_invalid];
    destruct (Z.eqb_spec (chr s) 0) as [E|E].
  1, 3: apply cstring_nil in E; exists []; rewrite E; split_and!; [done|by exists []|simpl; lia|done].
  { destruct s; simpl in *; [done|lia]. }
  destruct (utf8_step s Hs E) as [(ch & rest & Hch & -> & -> & Ec)|[-> Hno]].
  - destruct (encode_nonzero ch Hch) as [Hne _]. apply bytes_ok_app in Hs as [_ Hs]. rewrite length_app in Hf.
    assert (0 < length (utf8_encode ch))%nat by (destruct (utf8_encode ch); [done|simpl; lia]).
    destruct (Z.ltb_spec 0 (Z.of_nat (length (utf8_encode ch)))); [|lia].
    rewrite Nat2Z.id, drop_app_length, take_app_length.
    destruct (IH rest Hs) as (r & -> & Ht & Hl & Hid); [lia|]. simpl. eexists. split; [done|].
    rewrite Ec, !length_app. split_and!; [by apply utf8_text_cons|lia|].
    intros Htext. f_equal. apply Hid. destruct Htext as (chs & Hchs & Et).
    destruct Hchs as [|ch' chs Hch' Hchs]; [by apply app_nil in Et as [? ?]|]. simpl in Et.
    pose proof (proj2 (valid_encode ch (cstring rest) (proj1 Hch))) as H1.
    pose proof (proj2 (valid_encode ch' (flat_map utf8_encode chs) (proj1 Hch'))) as H2.
    rewrite Et, H2 in H1. subst ch'. apply app_inv_head in Et. by exists chs.
  - destruct (Z.ltb_spec 0 (- EINVAL)); [unfold EINVAL in *; lia|].
    destruct s as [|c s]; [done|]. inversion_clear Hs. change (drop 1 (c :: s)) with s. simpl in Hf.
    destruct (IH s) as (r & -> & Ht & Hl & _); [done|lia|]. cbn [mbind option_bind]. eexists. split; [done|].
    destruct replacement_char as [Hr <-]. split_and!; [by apply utf8_text_cons| |done].
    rewrite (cstring_cons (c :: s)), length_app by done. simpl. lia.
Qed.

(** utf8_escape_invalid always ends with well-formed UTF-8 that fits in the buffer
    of four bytes per input byte it allocates, and changes nothing in a string that
    is well formed already. *)
Theorem utf8_escape_invalid_correct s :
  bytes_ok s ->
  exists r, utf8_escape_invalid (length s) s = Some r /\ utf8_text r
    /\ (length r + 1 <= 4 * length (cstring s) + 1)%nat
    /\ (utf8_text (cstring s) -> r = cstring s).
Proof.
  intros Hs. destruct (utf8_escape_ok (length s) s Hs) as (r & Hr & Ht & Hl & Hid); [lia|].
  exists r. split_and!; [done|done|lia|done].
Qed.

Lemma utf8_escape_witness : utf8_escape_invalid 3 [65; 255; 66] = Some [65; 0xef; 0xbf; 0xbd; 66].
Proof.
  destruct (utf8_escape_invalid_correct [65; 255; 66]) as (r & Hr & _); [repeat constructor; done|].
  simpl length in Hr. rewrite Hr, <- Hr. vm_compute. reflexivity.
Defined.

(** ascii_is_valid accepts the strings of bytes below 128. *)
Lemma ascii_is_valid_correct s : ascii_is_valid s = forallb (fun c => c <? 128) (cstring s).
Proof.
  induction s as [|c s IH]; [done|]. cbn [ascii_is_valid cstring]. destruct (Z.eqb_spec c 0); [done|].
  cbn [forallb]. rewrite <- IH. zcases; done || lia.
Qed.

(** * Printable text *)

Definition printable (newline : bool) (ch : Z) : bool :=
  negb (is_unicode_control ch) && (newline || negb (ch =? 10)).

Lemma encode_length ch : (1 <= length (utf8_encode ch) <= 4)%nat.
Proof. unfold utf8_encode. zcases; simpl; lia. Qed.

(** On whole characters utf8_is_printable_newline looks at each of them and at nothing
    behind them. *)
Theorem utf8_is_printable_newline_correct chs rest newline :
  Forall unichar_ok chs -> Z.of_nat (length (flat_map utf8_encode chs)) < 2 ^ 64 ->
  utf8_is_printable_newline (length chs) (flat_map utf8_encode chs ++ rest)
    (Z.of_nat (length (flat_map utf8_encode chs))) newline
  = Some (forallb (printable newline) chs).
Proof.
  induction 1 as [|ch chs Hch Hchs IH]; intros Hsz; [done|].
  pose proof (encode_length ch). cbn [flat_map length] in *. rewrite length_app in *.
  cbn [utf8_is_printable_newline]. destruct (Z.eqb_spec (Z.of_nat (length (utf8_encode ch) + length (flat_map utf8_encode chs))) 0); [lia|].
  rewrite <- app_assoc. destruct (valid_encode ch (flat_map utf8_encode chs ++ rest) Hch) as [-> ->].
  pose proof (unichar_range ch Hch). rewrite (u32_small ch) by (unfold is_u32; lia).
  destruct (Z.ltb_spec (Z.of_nat (length (utf8_encode ch))) 0); [lia|]. destruct (Z.ltb_spec ch 0); [lia|].
  cbn [orb forallb]. rewrite Nat2Z.id, drop_app_length, u64_small by (unfold is_u64; lia).
  replace (Z.of_nat (length (utf8_encode ch) + length (flat_map utf8_encode chs)) - Z.of_nat (length (utf8_encode ch)))
    with (Z.of_nat (length (flat_map utf8_encode chs))) by lia.
  rewrite IH by lia. unfold printable. by destruct (is_unicode_control ch), newline, (ch =? 10).
Qed.

(** When the length ends inside a character it wraps around, and the scan goes on
    behind the buffer. *)
Theorem utf8_is_printable_runs_over fuel rest newline :
  utf8_is_printable_newline (S fuel) ([195; 169] ++ rest) 1 newline
  = utf8_is_printable_newline fuel rest u64_max newline.
Proof. by destruct newline. Qed.

(** * UTF-16 *)

(** A string of units without surrogates and noncharacters is converted to the UTF-8
    of the same characters, at most three bytes each. *)
Theorem utf16_to_utf8_correct us rest :
  Forall (fun u => char_ok u /\ u < 0x10000) us ->
  utf16_to_utf8 (flat_map (fun u => [u mod 256; u / 256]) us ++ 0 :: 0 :: rest) (2 * length us + 2)
  = flat_map utf8_encode us
  /\ (length (flat_map utf8_encode us) <= 3 * length us)%nat.
Proof.
  induction 1 as [|u us [[Hok Hz] Hu] Hus [IH IHl]]; [done|]. pose proof (unichar_range u Hok).
  cbn [length]. replace (2 * S (length us) + 2)%nat with (S (S (2 * length us + 2))) by lia.
  cbn [flat_map app utf16_to_utf8 chr hd tl pred]. rewrite IH.
  assert (Z.lor (Z.shiftl (u / 256) 8) (u mod 256) = u) as ->.
  { rewrite lor_shiftl by (try lia; change (2 ^ 8) with 256; apply Z.mod_pos_bound; lia). change (2 ^ 8) with 256. divlia. }
  unfold u16. rewrite Z.mod_small by lia.
  assert (forall x, Z.lor 0x80 (Z.land x 0x3f) = 128 + x mod 64) as H80.
  { intros x. change 0x3f with (Z.ones 6). rewrite Z.land_ones by lia.
    change (Z.lor (Z.shiftl 2 6) (x mod 2 ^ 6) = 128 + x mod 64).
    by rewrite lor_shiftl by (try lia; apply Z.mod_pos_bound; lia). }
  rewrite !H80, !Z.shiftr_div_pow2 by lia. change (2 ^ 6) with 64. change (2 ^ 12) with 4096.
  destruct (Z.eqb_spec u 0); [lia|]. rewrite length_app.
  set (tail := flat_map utf8_encode us) in *. clearbody tail. unfold utf8_encode.
  destruct (Z.ltb_spec u 0x80); [split; [done|simpl; lia]|].
  destruct (Z.ltb_spec u 0x800).
  - split; [|simpl; lia]. simpl. f_equal. change (Z.lor 192 (u / 64)) with (Z.lor (Z.shiftl 6 5) (u / 64)).
    rewrite lor_shiftl by (try lia; change (2 ^ 5) with 32; divlia). change (2 ^ 5) with 32. lia.
  - destruct (Z.ltb_spec u 0x10000); [|lia]. split; [|simpl; lia]. simpl. f_equal. change (Z.lor 224 (u / 4096)) with (Z.lor (Z.shiftl 14 4) (u / 4096)).
    rewrite lor_shiftl by (try lia; change (2 ^ 4) with 16; divlia). change (2 ^ 4) with 16.
    rewrite u8_small by (unfold is_u8; divlia). lia.
Qed.
