(* ===== verification/SipHash.v ===== *)
(** shared/siphash24.c: SipHash-2-4, the keyed hash of the hash maps. *)
From S2P Require Import Prelude Memory.

Definition rotl64 (x b : Z) : Z := Z.lor (u64 (Z.shiftl x b)) (Z.shiftr x (64 - b)).

(** The four words of the state. *)
Definition sip_state : Type := Z * Z * Z * Z.

Definition sipround (s : sip_state) : sip_state :=
  let '(v0, v1, v2, v3) := s in
  let v0 := u64 (v0 + v1) in let v1 := rotl64 v1 13 in let v1 := Z.lxor v1 v0 in let v0 := rotl64 v0 32 in
  let v2 := u64 (v2 + v3) in let v3 := rotl64 v3 16 in let v3 := Z.lxor v3 v2 in
  let v0 := u64 (v0 + v3) in let v3 := rotl64 v3 21 in let v3 := Z.lxor v3 v0 in
  let v2 := u64 (v2 + v1) in let v1 := rotl64 v1 17 in let v1 := Z.lxor v1 v2 in let v2 := rotl64 v2 32 in
  (v0, v1, v2, v3).

(** [U8TO64_LE] of the first eight bytes. *)
Definition u8to64_le (p : list Z) : Z := le_val (take 8 p).

(** One word of the message. *)
Definition sip_word (s : sip_state) (m : Z) : sip_state :=
  let '(v0, v1, v2, v3) := s in
  let '(v0, v1, v2, v3) := sipround (sipround (v0, v1, v2, Z.lxor v3 m)) in
  (Z.lxor v0 m, v1, v2, v3).

(** The loop over the whole words; [n] of them. *)
Fixpoint sip_words (n : nat) (s : sip_state) (inp : list Z) : sip_state * list Z :=
  match n with
  | O => (s, inp)
  | S n => sip_words n (sip_word s (u8to64_le inp)) (drop 8 inp)
  end.

(** The last word: the bytes left and the length in the top byte. *)
Definition sip_tail (left_ : nat) (inp : list Z) (inlen : Z) : Z :=
  fold_right (fun i b => Z.lor b (Z.shiftl (nth i inp 0) (8 * Z.of_nat i)))
    (u64 (Z.shiftl inlen 56)) (seq 0 left_).

Definition siphash24 (inp : list Z) (k : list Z) : list Z :=
  let inlen := Z.of_nat (length inp) in
  let k0 := u8to64_le k in
  let k1 := u8to64_le (drop 8 k) in
  let v0 := 8317987319222330741 in
  let v1 := 7237128888997146477 in
  let v2 := 7816392313619706465 in
  let v3 := 8387220255154660723 in
  let s := (Z.lxor v0 k0, Z.lxor v1 k1, Z.lxor v2 k0, Z.lxor v3 k1) in
  let '(s, rest) := sip_words (Z.to_nat (inlen / 8)) s inp in
  let b := sip_tail (Z.to_nat (Z.land inlen 7)) rest inlen in
  let '(v0, v1, v2, v3) := sip_word s b in
  let '(v0, v1, v2, v3) := sipround (sipround (sipround (sipround (v0, v1, Z.lxor v2 255, v3)))) in
  le_bytes 8 (Z.lxor (Z.lxor (Z.lxor v0 v1) v2) v3).

(** The test vector of the SipHash paper: key 00..0f, message 00..0e. *)
Lemma siphash24_vector :
  le_val (siphash24 (seqZ 0 15) (seqZ 0 16)) = 11613035633349379557.
Proof. vm_compute. reflexivity. Qed.

Lemma siphash24_length inp k : length (siphash24 inp k) = 8%nat.
Proof.
  unfold siphash24. destruct (sip_words _ _ _) as [s rest]. destruct (sip_word _ _) as [[[a b] c] d].
  destruct (sipround _) as [[[a' b'] c'] d']. apply le_bytes_length.
Qed.
