(* ===== verification/Hashmap.v ===== *)
(** shared/hashmap.c and shared/set.c: chained hash tables whose entries are also on a
    doubly linked list in the order of insertion.

    Entries live in a heap and are linked by their addresses, 0 being NULL; reading
    an address that holds no entry is a fault, [None].  The allocator, the random
    numbers and the caller's hash and comparison functions are parameters. *)
From S2P Require Import Prelude Memory SipHash.

Definition INITIAL_N_BUCKETS : Z := 31.
Definition HASH_KEY_SIZE : Z := 16.
Definition EEXIST : Z := 17.
Definition ENOENT : Z := 2.
Definition ENOMEM : Z := 12.

Record hashmap_entry := mkEntry {
  he_key : Z;
  he_value : Z;
  bucket_next : Z;
  bucket_previous : Z;
  iterate_next : Z;
  iterate_previous : Z }.

Definition set_key (k : Z) (e : hashmap_entry) : hashmap_entry :=
  mkEntry k (he_value e) (bucket_next e) (bucket_previous e) (iterate_next e) (iterate_previous e).
Definition set_value (v : Z) (e : hashmap_entry) : hashmap_entry :=
  mkEntry (he_key e) v (bucket_next e) (bucket_previous e) (iterate_next e) (iterate_previous e).
Definition set_bucket_next (p : Z) (e : hashmap_entry) : hashmap_entry :=
  mkEntry (he_key e) (he_value e) p (bucket_previous e) (iterate_next e) (iterate_previous e).
Definition set_bucket_previous (p : Z) (e : hashmap_entry) : hashmap_entry :=
  mkEntry (he_key e) (he_value e) (bucket_next e) p (iterate_next e) (iterate_previous e).
Definition set_iterate_next (p : Z) (e : hashmap_entry) : hashmap_entry :=
  mkEntry (he_key e) (he_value e) (bucket_next e) (bucket_previous e) p (iterate_previous e).
Definition set_iterate_previous (p : Z) (e : hashmap_entry) : hashmap_entry :=
  mkEntry (he_key e) (he_value e) (bucket_next e) (bucket_previous e) (iterate_next e) p.

Abbreviation heap := (gmap Z hashmap_entry).

Record Hashmap := mkHashmap {
  hash_func : Z -> list Z -> Z;
  compare_func : Z -> Z -> Z;
  iterate_list_head : Z;
  iterate_list_tail : Z;
  buckets : list Z;
  n_buckets : Z;
  n_entries : Z;
  hash_key : list Z;
  from_pool : bool }.

Definition set_iterate_list (h : Hashmap) (hd tl : Z) : Hashmap :=
  mkHashmap (hash_func h) (compare_func h) hd tl (buckets h) (n_buckets h) (n_entries h) (hash_key h) (from_pool h).
Definition set_buckets (h : Hashmap) (b : list Z) : Hashmap :=
  mkHashmap (hash_func h) (compare_func h) (iterate_list_head h) (iterate_list_tail h) b (n_buckets h)
    (n_entries h) (hash_key h) (from_pool h).
Definition set_n_entries (h : Hashmap) (n : Z) : Hashmap :=
  mkHashmap (hash_func h) (compare_func h) (iterate_list_head h) (iterate_list_tail h) (buckets h) (n_buckets h)
    n (hash_key h) (from_pool h).
Definition set_table (h : Hashmap) (b : list Z) (m : Z) (key : list Z) : Hashmap :=
  mkHashmap (hash_func h) (compare_func h) (iterate_list_head h) (iterate_list_tail h) b m (n_entries h) key
    (from_pool h).

(** The allocator (entries from the pool or not), whether the larger table can be
    allocated, the random bytes and the thread. *)
Record HashEnv := mkHashEnv {
  env_entry : bool -> heap -> option Z;
  env_table : Z -> bool;
  env_random : nat -> list Z;
  env_map : bool;
  env_main_thread : bool }.

(** The heap and the static variables of get_hash_key. *)
Record World := mkWorld {
  w_heap : heap;
  w_current : option (list Z);
  w_random : nat }.

Definition set_heap (w : World) (hp : heap) : World := mkWorld hp (w_current w) (w_random w).

(** * Hash and comparison functions *)

Definition trivial_hash_func (p : Z) (key : list Z) : Z := le_val (siphash24 (le_bytes 8 p) key).
Definition trivial_compare_func (a b : Z) : Z := if a <? b then -1 else if b <? a then 1 else 0.

(** The functions that look behind the pointers, given what is there. *)
Definition string_hash_func (str : Z -> list Z) (p : Z) (key : list Z) : Z := le_val (siphash24 (str p) key).
Definition uint64_hash_func (deref : Z -> Z) (p : Z) (key : list Z) : Z :=
  le_val (siphash24 (le_bytes 8 (deref p)) key).
Definition uint64_compare_func (deref : Z -> Z) (a b : Z) : Z :=
  let a := deref a in let b := deref b in if a <? b then -1 else if b <? a then 1 else 0.

Section Ops.
Context (E : HashEnv).

Definition bucket_hash (h : Hashmap) (p : Z) : Z := u32 (hash_func h p (hash_key h) mod n_buckets h).

Definition get_hash_key (reuse_is_ok : bool) (w : World) : list Z * World :=
  match w_current w with
  | Some k => if reuse_is_ok then (k, w)
              else (env_random E (w_random w), mkWorld (w_heap w) (Some (env_random E (w_random w))) (S (w_random w)))
  | None => (env_random E (w_random w), mkWorld (w_heap w) (Some (env_random E (w_random w))) (S (w_random w)))
  end.

(** [NULL] when the allocation fails; without functions the trivial ones are used. *)
Definition hashmap_new (hf : option (Z -> list Z -> Z)) (cf : option (Z -> Z -> Z)) (w : World)
  : option Hashmap * World :=
  if negb (env_map E) then (None, w) else
  let '(key, w) := get_hash_key true w in
  (Some (mkHashmap (default trivial_hash_func hf) (default trivial_compare_func cf) 0 0
           (replicate (Z.to_nat INITIAL_N_BUCKETS) 0) INITIAL_N_BUCKETS 0 key (env_main_thread E)), w).

(** * Memory *)

(** A write through a pointer to an entry. *)
Definition upd (hp : heap) (p : Z) (g : hashmap_entry -> hashmap_entry) : option heap :=
  e ← hp !! p; Some (<[p := g e]> hp).

(** [if (p) p->... = ...] *)
Definition upd_if (hp : heap) (p : Z) (g : hashmap_entry -> hashmap_entry) : option heap :=
  if p =? 0 then Some hp else upd hp p g.

Definition get_bucket (h : Hashmap) (b : Z) : option Z := buckets h !! Z.to_nat b.
Definition set_bucket (h : Hashmap) (b p : Z) : option Hashmap :=
  if b <? Z.of_nat (length (buckets h)) then Some (set_buckets h (<[Z.to_nat b := p]> (buckets h))) else None.

(** * Linking *)

Definition link_entry (hp : heap) (h : Hashmap) (e hash : Z) : option (heap * Hashmap) :=
  (* insert into hash table *)
  b ← get_bucket h hash;
  hp ← upd hp e (fun x => set_bucket_previous 0 (set_bucket_next b x));
  hp ← upd_if hp b (set_bucket_previous e);
  h ← set_bucket h hash e;
  (* insert into iteration list *)
  hp ← upd hp e (fun x => set_iterate_next 0 (set_iterate_previous (iterate_list_tail h) x));
  r ← (if negb (iterate_list_tail h =? 0) then
         (if iterate_list_head h =? 0 then None else
          hp ← upd hp (iterate_list_tail h) (set_iterate_next e); Some (hp, iterate_list_head h))
       else (if negb (iterate_list_head h =? 0) then None else Some (hp, e)));
  let h := set_iterate_list h r.2 e in
  let h := set_n_entries h (u32 (n_entries h + 1)) in
  if n_entries h <? 1 then None else Some (r.1, h).

(** Drop an entry from its bucket list. *)
Definition drop_bucket (hp : heap) (h : Hashmap) (e hash : Z) : option (heap * Hashmap) :=
  x ← hp !! e;
  hp ← upd_if hp (bucket_next x) (set_bucket_previous (bucket_previous x));
  if negb (bucket_previous x =? 0) then
    (hp ← upd hp (bucket_previous x) (set_bucket_next (bucket_next x)); Some (hp, h))
  else (h ← set_bucket h hash (bucket_next x); Some (hp, h)).

Definition unlink_entry (hp : heap) (h : Hashmap) (e hash : Z) : option (heap * Hashmap) :=
  (* remove from iteration list *)
  x ← hp !! e;
  hp ← upd_if hp (iterate_next x) (set_iterate_previous (iterate_previous x));
  let tl := if iterate_next x =? 0 then iterate_previous x else iterate_list_tail h in
  hp ← upd_if hp (iterate_previous x) (set_iterate_next (iterate_next x));
  let hd := if iterate_previous x =? 0 then iterate_next x else iterate_list_head h in
  let h := set_iterate_list h hd tl in
  (* remove from hash table bucket list *)
  r ← drop_bucket hp h e hash;
  if n_entries r.2 <? 1 then None else Some (r.1, set_n_entries r.2 (u32 (n_entries r.2 - 1))).

Definition remove_entry (hp : heap) (h : Hashmap) (e : Z) : option (heap * Hashmap) :=
  x ← hp !! e;
  r ← unlink_entry hp h e (bucket_hash h (he_key x));
  Some (delete e r.1, r.2).

(** * Looking up *)

(** [n] bounds the length of the bucket list. *)
Fixpoint scan_loop (n : nat) (hp : heap) (cf : Z -> Z -> Z) (e key : Z) : option Z :=
  if e =? 0 then Some 0 else
  match n with
  | O => None
  | S n => x ← hp !! e; if cf (he_key x) key =? 0 then Some e else scan_loop n hp cf (bucket_next x) key
  end.

(** A list cannot be longer than the number of entries. *)
Definition loop_fuel (h : Hashmap) : nat := S (Z.to_nat (n_entries h)).

Definition hash_scan (hp : heap) (h : Hashmap) (hash key : Z) : option Z :=
  if negb (hash <? n_buckets h) then None else
  e ← get_bucket h hash; scan_loop (loop_fuel h) hp (compare_func h) e key.

(** * Growing *)

(** The loop of resize_buckets, over the iteration list from [i] on: each entry moves
    from the old table, in [h], to the new one, [nb] of size [m] under the key [nkey]. *)
Fixpoint resize_loop (n : nat) (hp : heap) (h : Hashmap) (nb : list Z) (m : Z) (nkey : list Z) (i : Z)
  : option (heap * Hashmap * list Z) :=
  if i =? 0 then Some (hp, h, nb) else
  match n with
  | O => None
  | S n =>
      x ← hp !! i;
      let old_bucket := hash_func h (he_key x) (hash_key h) mod n_buckets h in
      r ← drop_bucket hp h i old_bucket;
      let '(hp, h) := r in
      let new_bucket := hash_func h (he_key x) nkey mod m in
      b ← nb !! Z.to_nat new_bucket;
      hp ← upd hp i (fun x => set_bucket_previous 0 (set_bucket_next b x));
      hp ← upd_if hp b (set_bucket_previous i);
      y ← hp !! i;
      resize_loop n hp h (<[Z.to_nat new_bucket := i]> nb) m nkey (iterate_next y)
  end.

Definition resize_buckets (w : World) (h : Hashmap) : option (bool * World * Hashmap) :=
  if u32 (n_entries h * 4) <? u32 (n_buckets h * 3) then Some (false, w, h) else
  let m := u32 (u32 (u32 (n_entries h + 1) * 4) - 1) in
  if negb (env_table E m) then Some (false, w, h) else
  let '(nkey, w) := get_hash_key false w in
  r ← resize_loop (loop_fuel h) (w_heap w) h (replicate (Z.to_nat m) 0) m nkey (iterate_list_head h);
  let '(hp, h, nb) := r in
  Some (true, set_heap w hp, set_table h nb m nkey).

(** * The operations *)

(** A call on a map: the result, or a fault. *)
Definition HM (A : Type) : Type := World -> Hashmap -> option (A * World * Hashmap).

Definition hashmap_put (key value : Z) : HM Z := fun w h =>
  let hash := bucket_hash h key in
  e ← hash_scan (w_heap w) h hash key;
  if negb (e =? 0) then
    (x ← w_heap w !! e; Some (if he_value x =? value then 0 else - EEXIST, w, h))
  else
    r ← resize_buckets w h;
    let '(grown, w, h) := r in
    let hash := if (grown : bool) then bucket_hash h key else hash in
    match env_entry E (from_pool h) (w_heap w) with
    | None => Some (- ENOMEM, w, h)
    | Some e =>
        r ← link_entry (<[e := mkEntry key value 0 0 0 0]> (w_heap w)) h e hash;
        Some (1, set_heap w r.1, r.2)
    end.

Definition hashmap_replace (key value : Z) : HM Z := fun w h =>
  e ← hash_scan (w_heap w) h (bucket_hash h key) key;
  if negb (e =? 0) then
    (hp ← upd (w_heap w) e (fun x => set_value value (set_key key x)); Some (0, set_heap w hp, h))
  else hashmap_put key value w h.

Definition hashmap_update (key value : Z) : HM Z := fun w h =>
  e ← hash_scan (w_heap w) h (bucket_hash h key) key;
  if e =? 0 then Some (- ENOENT, w, h) else
  hp ← upd (w_heap w) e (set_value value); Some (0, set_heap w hp, h).

Definition hashmap_get (key : Z) : HM Z := fun w h =>
  e ← hash_scan (w_heap w) h (bucket_hash h key) key;
  if e =? 0 then Some (0, w, h) else x ← w_heap w !! e; Some (he_value x, w, h).

(** The value and the key it is stored under. *)
Definition hashmap_get2 (key : Z) : HM (Z * Z) := fun w h =>
  e ← hash_scan (w_heap w) h (bucket_hash h key) key;
  if e =? 0 then Some ((0, 0), w, h) else x ← w_heap w !! e; Some ((he_value x, he_key x), w, h).

Definition hashmap_contains (key : Z) : HM bool := fun w h =>
  e ← hash_scan (w_heap w) h (bucket_hash h key) key; Some (negb (e =? 0), w, h).

Definition hashmap_remove2 (key : Z) : HM (Z * Z) := fun w h =>
  e ← hash_scan (w_heap w) h (bucket_hash h key) key;
  if e =? 0 then Some ((0, 0), w, h) else
  x ← w_heap w !! e;
  r ← remove_entry (w_heap w) h e;
  Some ((he_value x, he_key x), set_heap w r.1, r.2).

Definition hashmap_remove (key : Z) : HM Z := fun w h =>
  r ← hashmap_remove2 key w h; let '(vk, w, h) := r in Some (vk.1, w, h).

Definition hashmap_remove_and_put (old_key new_key value : Z) : HM Z := fun w h =>
  e ← hash_scan (w_heap w) h (bucket_hash h old_key) old_key;
  if e =? 0 then Some (- ENOENT, w, h) else
  k ← hash_scan (w_heap w) h (bucket_hash h new_key) new_key;
  if negb (k =? 0) then Some (- EEXIST, w, h) else
  r ← unlink_entry (w_heap w) h e (bucket_hash h old_key);
  hp ← upd r.1 e (fun x => set_value value (set_key new_key x));
  r ← link_entry hp r.2 e (bucket_hash h new_key);
  Some (0, set_heap w r.1, r.2).

Definition hashmap_remove_and_replace (old_key new_key value : Z) : HM Z := fun w h =>
  e ← hash_scan (w_heap w) h (bucket_hash h old_key) old_key;
  if e =? 0 then Some (- ENOENT, w, h) else
  k ← hash_scan (w_heap w) h (bucket_hash h new_key) new_key;
  r ← (if negb (k =? 0) && negb (e =? k) then remove_entry (w_heap w) h k else Some (w_heap w, h));
  r ← unlink_entry r.1 r.2 e (bucket_hash h old_key);
  hp ← upd r.1 e (fun x => set_value value (set_key new_key x));
  r ← link_entry hp r.2 e (bucket_hash h new_key);
  Some (0, set_heap w r.1, r.2).

Definition hashmap_remove_value (key value : Z) : HM Z := fun w h =>
  e ← hash_scan (w_heap w) h (bucket_hash h key) key;
  if e =? 0 then Some (0, w, h) else
  x ← w_heap w !! e;
  if negb (he_value x =? value) then Some (0, w, h) else
  r ← remove_entry (w_heap w) h e; Some (value, set_heap w r.1, r.2).

Definition hashmap_first (w : World) (h : Hashmap) : option Z :=
  if iterate_list_head h =? 0 then Some 0 else x ← w_heap w !! iterate_list_head h; Some (he_value x).

Definition hashmap_first_key (w : World) (h : Hashmap) : option Z :=
  if iterate_list_head h =? 0 then Some 0 else x ← w_heap w !! iterate_list_head h; Some (he_key x).

Definition hashmap_last (w : World) (h : Hashmap) : option Z :=
  if iterate_list_tail h =? 0 then Some 0 else x ← w_heap w !! iterate_list_tail h; Some (he_value x).

Definition steal (get : hashmap_entry -> Z) : HM Z := fun w h =>
  if iterate_list_head h =? 0 then Some (0, w, h) else
  x ← w_heap w !! iterate_list_head h;
  r ← remove_entry (w_heap w) h (iterate_list_head h); Some (get x, set_heap w r.1, r.2).

Definition hashmap_steal_first : HM Z := steal he_value.
Definition hashmap_steal_first_key : HM Z := steal he_key.

(** [while (h->iterate_list_head) remove_entry(...)] *)
Fixpoint clear_loop (n : nat) (hp : heap) (h : Hashmap) : option (heap * Hashmap) :=
  if iterate_list_head h =? 0 then Some (hp, h) else
  match n with
  | O => None
  | S n => r ← remove_entry hp h (iterate_list_head h); clear_loop n r.1 r.2
  end.

Definition hashmap_clear : HM unit := fun w h =>
  r ← clear_loop (loop_fuel h) (w_heap w) h; Some (tt, set_heap w r.1, r.2).

Definition hashmap_size (h : Hashmap) : Z := n_entries h.
Definition hashmap_buckets (h : Hashmap) : Z := n_buckets h.
Definition hashmap_isempty (h : Hashmap) : bool := n_entries h =? 0.

Definition hashmap_next (key : Z) : HM Z := fun w h =>
  e ← hash_scan (w_heap w) h (bucket_hash h key) key;
  if e =? 0 then Some (0, w, h) else
  x ← w_heap w !! e;
  if iterate_next x =? 0 then Some (0, w, h) else
  y ← w_heap w !! iterate_next x; Some (he_value y, w, h).

(** * Iteration *)

(** ITERATOR_FIRST is NULL and ITERATOR_LAST [(Iterator) -1]. *)
Definition ITERATOR_FIRST : Z := 0.
Definition ITERATOR_LAST : Z := u64_max.

(** The value, the key and the new iterator. *)
Definition hashmap_iterate (i : Z) (w : World) (h : Hashmap) : option (Z * Z * Z) :=
  if (i =? ITERATOR_LAST) || ((i =? ITERATOR_FIRST) && (iterate_list_head h =? 0)) then Some (0, 0, ITERATOR_LAST)
  else
    let e := if i =? ITERATOR_FIRST then iterate_list_head h else i in
    x ← w_heap w !! e;
    Some (he_value x, he_key x, if negb (iterate_next x =? 0) then iterate_next x else ITERATOR_LAST).

Definition hashmap_iterate_backwards (i : Z) (w : World) (h : Hashmap) : option (Z * Z * Z) :=
  if (i =? ITERATOR_FIRST) || ((i =? ITERATOR_LAST) && (iterate_list_tail h =? 0)) then Some (0, 0, ITERATOR_FIRST)
  else
    let e := if i =? ITERATOR_LAST then iterate_list_tail h else i in
    x ← w_heap w !! e;
    Some (he_value x, he_key x, if negb (iterate_previous x =? 0) then iterate_previous x else ITERATOR_FIRST).

(** The value and the iterator at a key; 0 leaves the iterator alone. *)
Definition hashmap_iterate_skip (key i : Z) (w : World) (h : Hashmap) : option (Z * Z) :=
  e ← hash_scan (w_heap w) h (bucket_hash h key) key;
  if e =? 0 then Some (0, i) else x ← w_heap w !! e; Some (he_value x, e).

(** HASHMAP_FOREACH, collecting the values: it ends at the first NULL value. *)
Fixpoint foreach_loop (n : nat) (i : Z) (w : World) (h : Hashmap) : option (list Z) :=
  match n with
  | O => None
  | S n =>
      r ← hashmap_iterate i w h;
      let '(v, _, i) := r in
      if v =? 0 then Some [] else rest ← foreach_loop n i w h; Some (v :: rest)
  end.

Definition hashmap_get_strv (w : World) (h : Hashmap) : option (list Z) :=
  foreach_loop (S (loop_fuel h)) ITERATOR_FIRST w h.

(** * Two maps *)

Fixpoint merge_loop (n : nat) (e : Z) : HM Z := fun w h =>
  if e =? 0 then Some (0, w, h) else
  match n with
  | O => None
  | S n =>
      x ← w_heap w !! e;
      r ← hashmap_put (he_key x) (he_value x) w h;
      let '(res, w, h) := r in
      if (res <? 0) && negb (res =? - EEXIST) then Some (res, w, h)
      else (x ← w_heap w !! e; merge_loop n (iterate_next x) w h)
  end.

Definition hashmap_merge (other : Hashmap) : HM Z := merge_loop (loop_fuel other) (iterate_list_head other).

Fixpoint move_loop (n : nat) (e : Z) (hp : heap) (h other : Hashmap) : option (heap * Hashmap * Hashmap) :=
  if e =? 0 then Some (hp, h, other) else
  match n with
  | O => None
  | S n =>
      x ← hp !! e;
      let nx := iterate_next x in
      k ← hash_scan hp h (bucket_hash h (he_key x)) (he_key x);
      if negb (k =? 0) then move_loop n nx hp h other else
      r ← unlink_entry hp other e (bucket_hash other (he_key x));
      let '(hp, other) := r in
      r ← link_entry hp h e (bucket_hash h (he_key x));
      let '(hp, h) := r in move_loop n nx hp h other
  end.

Definition hashmap_move (w : World) (h other : Hashmap) : option (World * Hashmap * Hashmap) :=
  r ← move_loop (loop_fuel other) (iterate_list_head other) (w_heap w) h other;
  let '(hp, h, other) := r in Some (set_heap w hp, h, other).

Definition hashmap_move_one (key : Z) (w : World) (h other : Hashmap) : option (Z * World * Hashmap * Hashmap) :=
  k ← hash_scan (w_heap w) h (bucket_hash h key) key;
  if negb (k =? 0) then Some (- EEXIST, w, h, other) else
  e ← hash_scan (w_heap w) other (bucket_hash other key) key;
  if e =? 0 then Some (- ENOENT, w, h, other) else
  r ← unlink_entry (w_heap w) other e (bucket_hash other key);
  let '(hp, other) := r in
  r ← link_entry hp h e (bucket_hash h key);
  let '(hp, h) := r in Some (0, set_heap w hp, h, other).

Definition hashmap_copy (w : World) (h : Hashmap) : option (option Hashmap * World) :=
  match hashmap_new (Some (hash_func h)) (Some (compare_func h)) w with
  | (None, w) => Some (None, w)
  | (Some copy, w) =>
      r ← hashmap_merge h w copy;
      let '(res, w, copy) := r in
      if res <? 0 then (r ← hashmap_clear w copy; let '(_, w, _) := r in Some (None, w))
      else Some (Some copy, w)
  end.

(** * Freeing *)

(** The values that are freed, up to the first NULL one. *)
Fixpoint clear_free_loop (n : nat) (w : World) (h : Hashmap) : option (list Z * World * Hashmap) :=
  match n with
  | O => None
  | S n =>
      r ← hashmap_steal_first w h;
      let '(p, w, h) := r in
      if p =? 0 then Some ([], w, h)
      else (r ← clear_free_loop n w h; let '(l, w, h) := r in Some (p :: l, w, h))
  end.

Definition hashmap_clear_free : HM (list Z) := fun w h => clear_free_loop (S (loop_fuel h)) w h.

(** The values and keys that are freed. *)
Fixpoint clear_free_free_loop (n : nat) (hp : heap) (h : Hashmap) : option (list (Z * Z) * heap * Hashmap) :=
  if iterate_list_head h =? 0 then Some ([], hp, h) else
  match n with
  | O => None
  | S n =>
      x ← hp !! iterate_list_head h;
      r ← remove_entry hp h (iterate_list_head h);
      r ← clear_free_free_loop n r.1 r.2;
      let '(l, hp, h) := r in Some ((he_value x, he_key x) :: l, hp, h)
  end.

Definition hashmap_clear_free_free : HM (list (Z * Z)) := fun w h =>
  r ← clear_free_free_loop (loop_fuel h) (w_heap w) h; let '(l, hp, h) := r in Some (l, set_heap w hp, h).

(** The map itself is gone; what is left is the heap. *)
Definition hashmap_free (w : World) (h : option Hashmap) : option World :=
  match h with None => Some w | Some h => r ← hashmap_clear w h; let '(_, w, _) := r in Some w end.

Definition hashmap_free_free (w : World) (h : option Hashmap) : option (list Z * World) :=
  match h with
  | None => Some ([], w)
  | Some h => r ← hashmap_clear_free w h; let '(l, w, h) := r in w ← hashmap_free w (Some h); Some (l, w)
  end.

Definition hashmap_free_free_free (w : World) (h : option Hashmap) : option (list (Z * Z) * World) :=
  match h with
  | None => Some ([], w)
  | Some h => r ← hashmap_clear_free_free w h; let '(l, w, h) := r in w ← hashmap_free w (Some h); Some (l, w)
  end.

Definition hashmap_ensure_allocated (h : option Hashmap) (hf : option (Z -> list Z -> Z)) (cf : option (Z -> Z -> Z))
    (w : World) : Z * option Hashmap * World :=
  match h with
  | Some h => (0, Some h, w)
  | None => let '(q, w) := hashmap_new hf cf w in (match q with Some _ => 0 | None => - ENOMEM end, q, w)
  end.

(** * NULL maps *)

(** [if (!h) return r;] *)
Definition unless_null {A} (r : A) (op : HM A) (w : World) (h : option Hashmap) : option (A * World * option Hashmap) :=
  match h with
  | None => Some (r, w, None)
  | Some h => x ← op w h; let '(a, w, h) := x in Some (a, w, Some h)
  end.

(** * shared/set.c: a map from each value to itself *)

Definition set_put (value : Z) : HM Z := hashmap_put value value.
Definition set_replace (value : Z) : HM Z := hashmap_replace value value.
Definition set_get (value : Z) : HM Z := hashmap_get value.
Definition set_contains (value : Z) : HM bool := hashmap_contains value.
Definition set_remove (value : Z) : HM Z := hashmap_remove value.
Definition set_remove_and_put (old_value new_value : Z) : HM Z := hashmap_remove_and_put old_value new_value new_value.
Definition set_steal_first : HM Z := hashmap_steal_first.
Definition set_size (s : Hashmap) : Z := hashmap_size s.
Definition set_isempty (s : Hashmap) : bool := hashmap_isempty s.
Definition set_first : World -> Hashmap -> option Z := hashmap_first.
Definition set_last : World -> Hashmap -> option Z := hashmap_last.
Definition set_iterate (i : Z) (w : World) (s : Hashmap) : option (Z * Z * Z) := hashmap_iterate i w s.
Definition set_iterate_backwards (i : Z) (w : World) (s : Hashmap) : option (Z * Z * Z) := hashmap_iterate_backwards i w s.
Definition set_iterate_skip (value i : Z) (w : World) (s : Hashmap) : option (Z * Z) := hashmap_iterate_skip value i w s.
Definition set_merge (other : Hashmap) : HM Z := hashmap_merge other.
Definition set_move : World -> Hashmap -> Hashmap -> option (World * Hashmap * Hashmap) := hashmap_move.
Definition set_move_one (value : Z) (w : World) (s other : Hashmap) : option (Z * World * Hashmap * Hashmap) :=
  hashmap_move_one value w s other.
Definition set_copy (w : World) (s : Hashmap) : option (option Hashmap * World) := hashmap_copy w s.
Definition set_clear : HM unit := hashmap_clear.
Definition set_clear_free : HM (list Z) := hashmap_clear_free.
Definition set_get_strv (w : World) (s : Hashmap) : option (list Z) := hashmap_get_strv w s.
Definition set_free (w : World) (s : option Hashmap) : option World := hashmap_free w s.
Definition set_free_free (w : World) (s : option Hashmap) : option (list Z * World) := hashmap_free_free w s.
Definition set_ensure_allocated (s : option Hashmap) (hf : option (Z -> list Z -> Z)) (cf : option (Z -> Z -> Z))
    (w : World) : Z * option Hashmap * World := hashmap_ensure_allocated s hf cf w.

(** The flag says whether the value was freed because it could not be stored. *)
Definition set_consume (value : Z) : HM (Z * bool) := fun w h =>
  r ← set_put value w h; let '(res, w, h) := r in Some ((res, res <? 0), w, h).

End Ops.
