(* ===== verification/HashmapLists.v ===== *)
(** The doubly linked lists of the hash maps: a list is described by the addresses it
    links, once for the bucket lists and once for the iteration list, which both
    implement the interface [LinkLaws].

    A table holds a set of entries when each of its bucket lists links exactly the entries
    whose keys hash to it.  Entries are put in and dropped as [link_entry], [drop_bucket]
    and the loop of [resize_buckets] do. *)
From S2P Require Import Prelude Memory SipHash Hashmap.

(** * Links *)

Record link := mkLink {
  lnext : hashmap_entry -> Z;
  lprev : hashmap_entry -> Z;
  lset_next : Z -> hashmap_entry -> hashmap_entry;
  lset_prev : Z -> hashmap_entry -> hashmap_entry }.

Class LinkLaws (lk : link) : Prop := {
  ll_next_next : forall p x, lnext lk (lset_next lk p x) = p;
  ll_prev_next : forall p x, lprev lk (lset_next lk p x) = lprev lk x;
  ll_next_prev : forall p x, lnext lk (lset_prev lk p x) = lnext lk x;
  ll_prev_prev : forall p x, lprev lk (lset_prev lk p x) = p }.

Definition bucket_link : link := mkLink bucket_next bucket_previous set_bucket_next set_bucket_previous.
Definition iterate_link : link := mkLink iterate_next iterate_previous set_iterate_next set_iterate_previous.

#[export] Instance bucket_link_laws : LinkLaws bucket_link.
Proof. done. Qed.
#[export] Instance iterate_link_laws : LinkLaws iterate_link.
Proof. done. Qed.

(** * Views of the heap *)

(** What is seen of an entry: its links, or its key and value. *)
Definition view {X} (g : hashmap_entry -> X) (hp : heap) (p : Z) : option X := g <$> hp !! p.

Definition links (lk : link) (x : hashmap_entry) : Z * Z := (lnext lk x, lprev lk x).
Definition key_value (x : hashmap_entry) : Z * Z := (he_key x, he_value x).

(** Writing the links of [lk] is not seen through [g]. *)
Definition blind {X} (g : hashmap_entry -> X) (lk : link) : Prop :=
  forall p x, g (lset_next lk p x) = g x /\ g (lset_prev lk p x) = g x.

Lemma kv_blind_bucket : blind key_value bucket_link.
Proof. done. Qed.
Lemma kv_blind_iterate : blind key_value iterate_link.
Proof. done. Qed.
Lemma bucket_blind_iterate : blind (links bucket_link) iterate_link.
Proof. done. Qed.
Lemma iterate_blind_bucket : blind (links iterate_link) bucket_link.
Proof. done. Qed.

Create HintDb hashmap.
#[export] Hint Resolve kv_blind_bucket kv_blind_iterate bucket_blind_iterate iterate_blind_bucket : hashmap.

Lemma upd_Some hp p g x : hp !! p = Some x -> upd hp p g = Some (<[p := g x]> hp).
Proof. intros H. unfold upd. by rewrite H. Qed.

Lemma view_insert_eq {X} (g : hashmap_entry -> X) hp p x : view g (<[p := x]> hp) p = Some (g x).
Proof. unfold view. by rewrite lookup_insert_eq. Qed.

Lemma view_insert_ne {X} (g : hashmap_entry -> X) hp p q x : q <> p -> view g (<[p := x]> hp) q = view g hp q.
Proof. intros. unfold view. by rewrite lookup_insert_ne. Qed.

(** A write that is not seen. *)
Lemma view_insert_same {X} (g : hashmap_entry -> X) hp p x y :
  hp !! p = Some x -> g y = g x -> forall q, view g (<[p := y]> hp) q = view g hp q.
Proof.
  intros Hp Hg q. destruct (decide (q = p)) as [->|Hne]; [|by apply view_insert_ne].
  rewrite view_insert_eq. unfold view. rewrite Hp. simpl. by rewrite Hg.
Qed.

Lemma view_Some {X} (g : hashmap_entry -> X) hp p v : view g hp p = Some v -> exists x, hp !! p = Some x /\ g x = v.
Proof. unfold view. intros H. apply fmap_Some in H as (x & Hx & ->). eauto. Qed.

(** * Lists *)

(** The address at an end of a list, NULL when it is empty. *)
Abbreviation hd0 l := (default 0 (head l)).
Abbreviation last0 l := (default 0 (last l)).

(** A list of addresses as the lists of a map hold them. *)
Record addresses (l : list Z) : Prop := mkAddresses {
  ad_nodup : NoDup l;
  ad_nonzero : 0 ∉ l }.

#[export] Instance addresses_proper : Proper ((≡ₚ) ==> iff) addresses.
Proof.
  intros l l' Hp. split; intros [Hn Hz]; constructor.
  - by rewrite <- Hp.
  - intros H. apply Hz. by rewrite Hp.
  - by rewrite Hp.
  - intros H. apply Hz. by rewrite <- Hp.
Qed.

Lemma addresses_cons p l : addresses (p :: l) <-> (p ∉ l) /\ p <> 0 /\ addresses l.
Proof.
  split.
  - intros [Hn Hz]. apply NoDup_cons in Hn as [Hp Hn]. apply not_elem_of_cons in Hz as [Hz Hz'].
    split_and!; [done|by intros ->|done].
  - intros (Hp & Hp0 & [Hn Hz]). split; [by apply NoDup_cons|]. apply not_elem_of_cons. split; [by intros <-|done].
Qed.

Lemma addresses_sublist l l' : (forall a, a ∈ l -> a ∈ l') -> NoDup l -> addresses l' -> addresses l.
Proof. intros Hs Hn [_ Hz]. split; [done|]. intros H. apply Hz. by apply Hs. Qed.

Lemma hd0_zero l : 0 ∉ l -> ((hd0 l) =? 0)%Z = bool_decide (l = []).
Proof.
  intros H. destruct l as [|a l]; [done|]. simpl. apply not_elem_of_cons in H as [H _].
  apply Z.eqb_neq. by intros ->.
Qed.

Lemma last0_zero l : 0 ∉ l -> ((last0 l) =? 0)%Z = bool_decide (l = []).
Proof.
  intros H. destruct l as [|a l _] using rev_ind; [done|]. rewrite last_snoc. simpl.
  rewrite bool_decide_eq_false_2 by (by destruct l). apply Z.eqb_neq. intros ->. apply H. apply elem_of_app. right. constructor.
Qed.

Section Dll.
Context (lk : link) `{!LinkLaws lk}.

(** The elements of [l] are linked to one another, the first to [pv], the last to [nx]. *)
Fixpoint dseg (hp : heap) (pv : Z) (l : list Z) (nx : Z) : Prop :=
  match l with
  | [] => True
  | a :: l' => view (links lk) hp a = Some (default nx (head l'), pv) /\ dseg hp a l' nx
  end.

Definition dll (hp : heap) (l : list Z) : Prop := dseg hp 0 l 0.

Lemma dseg_app hp pv l1 l2 nx :
  dseg hp pv (l1 ++ l2) nx <-> dseg hp pv l1 (default nx (head l2)) /\ dseg hp (default pv (last l1)) l2 nx.
Proof.
  revert pv. induction l1 as [|a l1 IH]; intros pv; simpl; [tauto|].
  rewrite IH. rewrite head_app, last_cons. destruct (head l1), (last l1); simpl; tauto.
Qed.

Lemma dseg_agree hp hp' pv l nx :
  (forall a, a ∈ l -> view (links lk) hp' a = view (links lk) hp a) -> dseg hp pv l nx -> dseg hp' pv l nx.
Proof.
  revert pv. induction l as [|a l IH]; intros pv Hv; [done|]. intros [Ha Hl]. split.
  - rewrite Hv; [done|constructor].
  - apply IH; [|done]. intros b Hb. apply Hv. by right.
Qed.

Lemma dseg_lookup hp pv l nx a : dseg hp pv l nx -> a ∈ l -> exists x, hp !! a = Some x.
Proof.
  revert pv. induction l as [|b l IH]; intros pv; [intros _ H; by apply elem_of_nil in H|].
  intros [Hb Hl] Ha. apply elem_of_cons in Ha as [->|Ha]; [|by eapply IH].
  apply view_Some in Hb as (x & ? & _). eauto.
Qed.

(** What a write of the links [lk] of entries of [l] leaves alone. *)
Definition links_only (l : list Z) (hp hp' : heap) : Prop :=
  (forall q, q ∉ l -> hp' !! q = hp !! q)
  /\ forall X (g : hashmap_entry -> X), blind g lk -> forall q, view g hp' q = view g hp q.

Lemma links_only_refl l hp : links_only l hp hp.
Proof. done. Qed.

Lemma links_only_trans l hp1 hp2 hp3 : links_only l hp1 hp2 -> links_only l hp2 hp3 -> links_only l hp1 hp3.
Proof.
  intros [H1 V1] [H2 V2]. split.
  - intros q Hq. by rewrite H2, H1.
  - intros X g Hg q. by rewrite V2, V1.
Qed.

Lemma links_only_mono l l' hp hp' : (forall a, a ∈ l -> a ∈ l') -> links_only l hp hp' -> links_only l' hp hp'.
Proof. intros Hs [H V]. split; [|done]. intros q Hq. apply H. intros ?. apply Hq. by apply Hs. Qed.

Lemma links_only_insert l hp p x y :
  hp !! p = Some x -> p ∈ l -> (forall X (g : hashmap_entry -> X), blind g lk -> g y = g x) ->
  links_only l hp (<[p := y]> hp).
Proof.
  intros Hx Hp Hg. split.
  - intros q Hq. apply lookup_insert_ne. by intros ->.
  - intros X g Hb. eapply view_insert_same; [exact Hx|]. by apply Hg.
Qed.

Lemma links_only_dseg l hp hp' pv l' nx :
  links_only l hp hp' -> (forall a, a ∈ l' -> a ∉ l) -> dseg hp pv l' nx -> dseg hp' pv l' nx.
Proof. intros [H _] Hd. apply dseg_agree. intros a Ha. unfold view. by rewrite H by (by apply Hd). Qed.

(** [if (first) first->previous = pv'] *)
Lemma dseg_set_prev hp pv l nx pv' :
  dseg hp pv l nx -> addresses l ->
  exists hp', upd_if hp (hd0 l) (lset_prev lk pv') = Some hp' /\ dseg hp' pv' l nx /\ links_only l hp hp'.
Proof.
  intros Hd Ha. destruct l as [|a l]; [exists hp; auto using links_only_refl|].
  apply addresses_cons in Ha as (Hal & Ha0 & _). destruct Hd as [Hv Hd].
  destruct (view_Some _ _ _ _ Hv) as (x & Hx & E). injection E as En Ep.
  exists (<[a := lset_prev lk pv' x]> hp). split_and!.
  - unfold upd_if. simpl. destruct (Z.eqb_spec a 0); [done|]. by apply upd_Some.
  - simpl. rewrite view_insert_eq. unfold links. rewrite ll_next_prev, ll_prev_prev, En. split; [done|].
    eapply dseg_agree; [|exact Hd]. intros b Hb. apply view_insert_ne. by intros ->.
  - eapply links_only_insert; [done|constructor|]. intros X g Hg. apply (Hg pv' x).
Qed.

(** [if (last) last->next = nx'] *)
Lemma dseg_set_next hp pv l nx nx' :
  dseg hp pv l nx -> addresses l ->
  exists hp', upd_if hp (last0 l) (lset_next lk nx') = Some hp' /\ dseg hp' pv l nx' /\ links_only l hp hp'.
Proof.
  intros Hd Ha. destruct l as [|a l _] using rev_ind; [exists hp; auto using links_only_refl|].
  rewrite Permutation_app_comm in Ha. simpl in Ha. apply addresses_cons in Ha as (Hal & Ha0 & _).
  apply dseg_app in Hd as [Hd [Hv _]].
  destruct (view_Some _ _ _ _ Hv) as (x & Hx & E). injection E as En Ep.
  exists (<[a := lset_next lk nx' x]> hp). rewrite last_snoc. split_and!.
  - unfold upd_if. simpl. destruct (Z.eqb_spec a 0); [done|]. by apply upd_Some.
  - apply dseg_app. simpl. rewrite view_insert_eq. unfold links. rewrite ll_next_next, ll_prev_next, Ep. split; [|done].
    eapply dseg_agree; [|exact Hd]. intros b Hb. apply view_insert_ne. by intros ->.
  - eapply links_only_insert; [done|apply elem_of_app; right; constructor|]. intros X g Hg. apply (Hg nx' x).
Qed.

(** Taking an element out of a list: its neighbours are linked to each other. *)
Lemma dll_unlink hp l1 p l2 :
  dll hp (l1 ++ p :: l2) -> addresses (l1 ++ p :: l2) ->
  view (links lk) hp p = Some (hd0 l2, last0 l1)
  /\ exists hp1 hp2, upd_if hp (hd0 l2) (lset_prev lk (last0 l1)) = Some hp1
    /\ upd_if hp1 (last0 l1) (lset_next lk (hd0 l2)) = Some hp2
    /\ dll hp2 (l1 ++ l2) /\ links_only l2 hp hp1 /\ links_only (l1 ++ l2) hp hp2.
Proof.
  intros Hd Ha. apply dseg_app in Hd as [Hd1 [Hp Hd2]]. split; [done|].
  rewrite <- Permutation_middle in Ha. apply addresses_cons in Ha as (_ & _ & [Hnd Hz]).
  apply NoDup_app in Hnd as (Hn1 & Hdis & Hn2). apply not_elem_of_app in Hz as [Hz1 Hz2].
  destruct (dseg_set_prev hp p l2 0 (last0 l1) Hd2 (mkAddresses _ Hn2 Hz2)) as (hp1 & U1 & D1 & F1).
  apply (links_only_dseg _ _ _ _ _ _ F1) in Hd1; [|done].
  destruct (dseg_set_next hp1 0 l1 _ (hd0 l2) Hd1 (mkAddresses _ Hn1 Hz1)) as (hp2 & U2 & D2 & F2).
  exists hp1, hp2. split_and!; [done|done| |done|].
  - apply dseg_app. split; [done|]. eapply links_only_dseg; [exact F2| |exact D1]. intros a H2 H1. by apply (Hdis a).
  - eapply links_only_trans; eapply links_only_mono; [|exact F1| |exact F2]; intros a; rewrite elem_of_app; auto.
Qed.

(** A new element at the front. *)
Lemma dll_push_front hp l p x :
  dll hp l -> addresses (p :: l) -> hp !! p = Some x ->
  exists hp', upd_if (<[p := lset_prev lk 0 (lset_next lk (hd0 l) x)]> hp) (hd0 l) (lset_prev lk p) = Some hp'
    /\ dll hp' (p :: l) /\ links_only (p :: l) hp hp'.
Proof.
  intros Hd Ha Hx. apply addresses_cons in Ha as (Hpl & Hp0 & Ha). set (hp1 := <[p := _]> hp).
  assert (links_only (p :: l) hp hp1) as F1.
  { eapply links_only_insert; [done|constructor|]. intros X g Hg. etransitivity; apply Hg. }
  assert (dseg hp1 0 l 0) as Hd1.
  { eapply dseg_agree; [|exact Hd]. intros b Hb. apply view_insert_ne. by intros ->. }
  destruct (dseg_set_prev hp1 0 l 0 p Hd1 Ha) as (hp2 & U & D & F2). exists hp2. split; [done|]. split.
  - split; [|done]. unfold view. rewrite (proj1 F2) by done. unfold hp1. rewrite lookup_insert_eq. simpl.
    unfold links. by rewrite ll_next_prev, ll_next_next, ll_prev_prev.
  - eapply links_only_trans; [exact F1|]. eapply links_only_mono; [|exact F2]. by right.
Qed.

(** A new element at the rear. *)
Lemma dll_push_back hp l p x :
  dll hp l -> addresses (p :: l) -> hp !! p = Some x ->
  exists hp', upd_if (<[p := lset_next lk 0 (lset_prev lk (last0 l) x)]> hp) (last0 l) (lset_next lk p) = Some hp'
    /\ dll hp' (l ++ [p]) /\ links_only (p :: l) hp hp'.
Proof.
  intros Hd Ha Hx. apply addresses_cons in Ha as (Hpl & Hp0 & Ha). set (hp1 := <[p := _]> hp).
  assert (links_only (p :: l) hp hp1) as F1.
  { eapply links_only_insert; [done|constructor|]. intros X g Hg. etransitivity; apply Hg. }
  assert (dseg hp1 0 l 0) as Hd1.
  { eapply dseg_agree; [|exact Hd]. intros b Hb. apply view_insert_ne. by intros ->. }
  destruct (dseg_set_next hp1 0 l 0 p Hd1 Ha) as (hp2 & U & D & F2). exists hp2. split; [done|]. split.
  - apply dseg_app. split; [done|]. simpl. split; [|done].
    unfold view. rewrite (proj1 F2) by done. unfold hp1. rewrite lookup_insert_eq. simpl.
    unfold links. by rewrite ll_next_next, ll_prev_next, ll_prev_prev.
  - eapply links_only_trans; [exact F1|]. eapply links_only_mono; [|exact F2]. by right.
Qed.

End Dll.


(** An entry: its address, key and value. *)
Abbreviation item := (Z * (Z * Z))%type.

(** [ch b] are the addresses on the list of bucket [b]. *)
Record table (hp : heap) (bs : list Z) (hash : Z -> Z) (its : list item) (ch : Z -> list Z) : Prop := mkTable {
  tb_bucket : forall b, 0 <= b < Z.of_nat (length bs) ->
    bs !! Z.to_nat b = Some (hd0 (ch b)) /\ dll bucket_link hp (ch b) /\ NoDup (ch b);
  tb_mem : forall b p, p ∈ ch b <-> exists kv, (p, kv) ∈ its /\ hash kv.1 = b;
  tb_range : forall p kv, (p, kv) ∈ its -> 0 <= hash kv.1 < Z.of_nat (length bs) }.

Lemma item_address p kv (its : list item) : (p, kv) ∈ its -> p ∈ its.*1.
Proof. intros H. apply list_elem_of_fmap. by exists (p, kv). Qed.

Lemma address_item p (its : list item) : p ∈ its.*1 -> exists kv, (p, kv) ∈ its.
Proof. intros H. apply list_elem_of_fmap in H as ([q kv] & -> & H). by exists kv. Qed.

Lemma same_item p kv kv' (its : list item) : NoDup its.*1 -> (p, kv) ∈ its -> (p, kv') ∈ its -> kv = kv'.
Proof.
  induction its as [|[q w] its IH]; intros Hn H1 H2; [by apply elem_of_nil in H1|].
  simpl in Hn. apply NoDup_cons in Hn as [Hq Hn].
  apply elem_of_cons in H1 as [E1|H1], H2 as [E2|H2].
  - congruence.
  - injection E1 as <- <-. destruct Hq. by eapply item_address.
  - injection E2 as <- <-. destruct Hq. by eapply item_address.
  - by apply IH.
Qed.

Section Table.
Context (hp : heap) (bs : list Z) (hash : Z -> Z).

Lemma table_chain_in its ch b a : table hp bs hash its ch -> a ∈ ch b -> a ∈ its.*1.
Proof. intros T H. apply (tb_mem _ _ _ _ _ T) in H as (kv & H & _). by eapply item_address. Qed.

Lemma table_chain_addresses its ch b :
  table hp bs hash its ch -> 0 <= b < Z.of_nat (length bs) -> addresses its.*1 -> addresses (ch b).
Proof.
  intros T Hb Ha. eapply addresses_sublist; [|apply (tb_bucket _ _ _ _ _ T b Hb)|exact Ha].
  intros a. by eapply table_chain_in.
Qed.

Lemma table_perm its its' ch : its ≡ₚ its' -> table hp bs hash its ch -> table hp bs hash its' ch.
Proof.
  intros Hp [Tb Tm Tr]. split; [done| |].
  - intros b p. rewrite Tm. by setoid_rewrite Hp.
  - intros p kv. rewrite <- Hp. apply Tr.
Qed.

Lemma table_agree hp' its ch :
  (forall a, a ∈ its.*1 -> view (links bucket_link) hp' a = view (links bucket_link) hp a) ->
  table hp bs hash its ch -> table hp' bs hash its ch.
Proof.
  intros Hv T. pose proof T as [Tb Tm Tr]. split; [|done|done].
  intros b Hb. destruct (Tb b Hb) as (H1 & H2 & H3). split_and!; [done| |done].
  eapply dseg_agree; [|exact H2]. intros a Ha. apply Hv. by eapply table_chain_in.
Qed.

Lemma table_hash hash' its ch : (forall k, hash k = hash' k) -> table hp bs hash its ch -> table hp bs hash' its ch.
Proof.
  intros Hh [Tb Tm Tr]. split; [done| |].
  - intros b p. rewrite Tm. by setoid_rewrite Hh.
  - intros p kv Hp. rewrite <- Hh. by eapply Tr.
Qed.

(** A list is not longer than the number of entries. *)
Lemma table_chain_length its ch b :
  table hp bs hash its ch -> 0 <= b < Z.of_nat (length bs) -> (length (ch b) <= length its)%nat.
Proof.
  intros T Hb. rewrite <- (length_fmap fst its). apply NoDup_incl_length.
  - apply NoDup_ListNoDup, (tb_bucket _ _ _ _ _ T b Hb).
  - intros a Ha. apply list_elem_of_In. eapply table_chain_in; [exact T|]. by apply list_elem_of_In.
Qed.

(** A new entry goes to the front of its list. *)
Lemma table_insert its ch p k v x :
  table hp bs hash its ch -> addresses (p :: its.*1) -> hp !! p = Some x ->
  0 <= hash k < Z.of_nat (length bs) ->
  exists c hp' ch', bs !! Z.to_nat (hash k) = Some c
    /\ upd_if (<[p := set_bucket_previous 0 (set_bucket_next c x)]> hp) c (set_bucket_previous p) = Some hp'
    /\ table hp' (<[Z.to_nat (hash k) := p]> bs) hash ((p, (k, v)) :: its) ch'
    /\ links_only bucket_link (p :: its.*1) hp hp'.
Proof.
  intros T Ha Hx Hb. pose proof T as [Tb Tm Tr]. destruct (Tb _ Hb) as (Hc & Hd & Hn).
  apply addresses_cons in Ha as (Hpi & Hp0 & Ha).
  assert (p ∉ ch (hash k)) as Hpc by (intros ?; apply Hpi; by eapply table_chain_in).
  destruct (dll_push_front bucket_link hp (ch (hash k)) p x Hd) as (hp' & U & D & F); [|done|].
  { apply addresses_cons. split_and!; [done|done|]. by eapply table_chain_addresses. }
  exists (hd0 (ch (hash k))), hp', (fun b => if decide (b = hash k) then p :: ch b else ch b).
  split; [done|]. split; [exact U|]. split; [|eapply links_only_mono; [|exact F]; intros a; rewrite !elem_of_cons;
    intros [->|Hac]; [by left|right; by eapply table_chain_in]].
  split.
  - intros b Hb'. rewrite length_insert in Hb'. destruct (decide (b = hash k)) as [->|Hne].
    + rewrite list_lookup_insert_eq by lia. split_and!; [done|done|]. by apply NoDup_cons.
    + rewrite list_lookup_insert_ne by lia. destruct (Tb b Hb') as (H1 & H2 & H3). split_and!; [done| |done].
      eapply links_only_dseg; [exact F| |exact H2]. intros a Hab Hap. apply elem_of_cons in Hap as [->|Hap].
      * apply Hpi. by eapply table_chain_in.
      * apply Tm in Hab as (kv & Hin & <-). apply Tm in Hap as (kv' & Hin' & E). apply Hne.
        rewrite <- E. f_equal. f_equal. eapply same_item; [apply Ha|done|done].
  - intros b q. destruct (decide (b = hash k)) as [->|Hne].
    + rewrite elem_of_cons, Tm. split.
      * intros [->|(kv & Hin & Hh)]; [exists (k, v)|exists kv]; (split; [|done]); [constructor|by right].
      * intros (kv & Hin & Hh). apply elem_of_cons in Hin as [E|Hin]; [left; congruence|right; eauto].
    + rewrite Tm. split; intros (kv & Hin & Hh); exists kv; (split; [|done]); [by right|].
      apply elem_of_cons in Hin as [E|Hin]; [|done]. injection E as -> ->. by destruct Hne.
  - intros q kv Hin. rewrite length_insert. apply elem_of_cons in Hin as [E|Hin]; [by injection E as -> ->|by eapply Tr].
Qed.

End Table.

Lemma set_buckets_same h : set_buckets h (buckets h) = h.
Proof. by destruct h. Qed.

(** Dropping an entry from its list. *)
Lemma table_drop hp h hash its ch p kv :
  table hp (buckets h) hash ((p, kv) :: its) ch -> addresses (p :: its.*1) ->
  exists hp' bs' ch', drop_bucket hp h p (hash kv.1) = Some (hp', set_buckets h bs')
    /\ length bs' = length (buckets h)
    /\ table hp' bs' hash its ch' /\ links_only bucket_link its.*1 hp hp'.
Proof.
  intros T Ha. pose proof T as [Tb Tm Tr].
  assert (0 <= hash kv.1 < Z.of_nat (length (buckets h))) as Hb by (eapply Tr; constructor).
  destruct (Tb _ Hb) as (Hc & Hd & Hn).
  assert (addresses (ch (hash kv.1))) as Hac by (by eapply table_chain_addresses).
  assert (p ∈ ch (hash kv.1)) as Hpc by (apply Tm; exists kv; split; [constructor|done]).
  apply list_elem_of_split in Hpc as (c1 & c2 & Ec). rewrite Ec in Hd, Hac, Hn, Hc.
  destruct (dll_unlink bucket_link hp c1 p c2 Hd Hac) as (Hv & hp1 & hp2 & U1 & U2 & D & F1 & F2).
  apply view_Some in Hv as (x & Hx & Exx). injection Exx as Enx Epx.
  apply addresses_cons in Ha as (Hpi & Hp0 & Ha).
  assert (forall a, a ∈ c1 ++ c2 -> a ∈ its.*1 /\ a ∈ ch (hash kv.1)) as Hin.
  { intros a Hac'. assert (a ∈ ch (hash kv.1)) as Hac2.
    { rewrite Ec, <- Permutation_middle. by right. }
    split; [|done]. pose proof (table_chain_in _ _ _ _ _ _ _ T Hac2) as Hi. apply elem_of_cons in Hi as [->|Hi]; [|done].
    rewrite <- Permutation_middle in Hn. by apply NoDup_cons in Hn as [? _]. }
  set (bs' := if decide (c1 = []) then <[Z.to_nat (hash kv.1) := hd0 c2]> (buckets h) else buckets h).
  exists hp2, bs', (fun b => if decide (b = hash kv.1) then c1 ++ c2 else ch b).
  assert (length bs' = length (buckets h)) as Hlen by (unfold bs'; destruct decide; [apply length_insert|done]).
  assert (bs' !! Z.to_nat (hash kv.1) = Some (hd0 (c1 ++ c2))) as Hhd.
  { unfold bs'. destruct (decide (c1 = [])) as [->|Hne]; [apply list_lookup_insert_eq; lia|]. by destruct c1. }
  assert (forall b, 0 <= b -> b <> hash kv.1 -> bs' !! Z.to_nat b = buckets h !! Z.to_nat b) as Hoth.
  { intros b Hb0 Hne. unfold bs'. destruct decide; [|done]. apply list_lookup_insert_ne. lia. }
  split.
  { unfold drop_bucket. rewrite Hx. simpl in *. rewrite Enx, Epx. unfold bs'.
    rewrite U1. simpl. rewrite last0_zero.
    2:{ destruct Hac as [_ Hz]. apply not_elem_of_app in Hz. tauto. }
    destruct (decide (c1 = [])) as [->|Hne].
    - rewrite bool_decide_eq_true_2 by done. unfold upd_if in U2. simpl in U2. injection U2 as ->. simpl.
      unfold set_bucket. rewrite (proj2 (Z.ltb_lt _ _)) by lia. done.
    - rewrite bool_decide_eq_false_2 by done. simpl. unfold upd_if in U2. rewrite last0_zero in U2.
      2:{ destruct Hac as [_ Hz]. apply not_elem_of_app in Hz. tauto. }
      rewrite bool_decide_eq_false_2 in U2 by done. simpl in U2. rewrite U2. simpl. by rewrite set_buckets_same. }
  split; [done|]. split; [|eapply links_only_mono; [|exact F2]; intros a; apply Hin].
  split.
  - intros b Hb'. rewrite Hlen in Hb'. destruct (decide (b = hash kv.1)) as [->|Hne].
    + split_and!; [done|done|]. rewrite <- Permutation_middle in Hn. by apply NoDup_cons in Hn as [_ ?].
    + rewrite Hoth by (done || lia). destruct (Tb b Hb') as (H1 & H2 & H3). split_and!; [done| |done].
      eapply links_only_dseg; [exact F2| |exact H2]. intros a Hab Hap. apply Hin in Hap as [_ Hap].
      apply Tm in Hab as (kv1 & Hi1 & <-). apply Tm in Hap as (kv2 & Hi2 & E). apply Hne.
      rewrite <- E. f_equal. f_equal. eapply same_item; [|exact Hi1|exact Hi2]. simpl. apply NoDup_cons. split; [done|apply Ha].
  - intros b q. destruct (decide (b = hash kv.1)) as [->|Hne].
    + split.
      * intros Hq. destruct (Hin q Hq) as [Hqi Hqc]. apply Tm in Hqc as (kv' & Hi & Hh).
        apply elem_of_cons in Hi as [E|Hi]; [|eauto]. injection E as -> ->. done.
      * intros (kv' & Hi & Hh). assert (q ∈ ch (hash kv.1)) as Hq by (apply Tm; exists kv'; split; [by right|done]).
        rewrite Ec, <- Permutation_middle in Hq. apply elem_of_cons in Hq as [->|Hq]; [|done].
        destruct Hpi. by eapply item_address.
    + rewrite Tm. split; intros (kv' & Hi & Hh); exists kv'; (split; [|done]); [|by right].
      apply elem_of_cons in Hi as [E|Hi]; [|done]. injection E as -> ->. by destruct Hne.
  - intros q kv' Hi. rewrite Hlen. eapply Tr. by right.
Qed.
