(* ===== verification/HashmapInv.v ===== *)
(** The invariant of the hash maps, and that scanning a bucket, linking, unlinking and
    growing keep it: an invariant map holds a list of entries, in the order of the
    iteration list. *)
From S2P Require Import Prelude Memory SipHash Hashmap HashmapLists.

(** The bound on the number of entries under which the 32 bit products of
    [resize_buckets] do not wrap. *)
Definition max_entries : Z := 268435456.
Definition max_buckets : Z := 1073741824.

(** What the callers' functions promise. *)
Class HashLaws (hf : Z -> list Z -> Z) (cf : Z -> Z -> Z) : Prop := {
  cf_refl : forall a, cf a a = 0;
  cf_sym : forall a b, cf a b = 0 -> cf b a = 0;
  cf_trans : forall a b c, cf a b = 0 -> cf b c = 0 -> cf a c = 0;
  cf_hash : forall a b key, cf a b = 0 -> hf a key = hf b key }.

Section Inv.
Context (hf : Z -> list Z -> Z) (cf : Z -> Z -> Z) `{!HashLaws hf cf}.

Record holds_entries (hp : heap) (its : list item) : Prop := mkHolds {
  he_addr : addresses its.*1;
  he_kv : forall p kv, (p, kv) ∈ its -> view key_value hp p = Some kv;
  he_iter : dll iterate_link hp its.*1 }.

Record hm_inv (hp : heap) (h : Hashmap) (its : list item) : Prop := mkInv {
  hi_hash : hash_func h = hf;
  hi_compare : compare_func h = cf;
  hi_entries : holds_entries hp its;
  hi_head : iterate_list_head h = hd0 its.*1;
  hi_tail : iterate_list_tail h = last0 its.*1;
  hi_n : n_entries h = Z.of_nat (length its);
  hi_small : Z.of_nat (length its) <= max_entries;
  hi_nb : n_buckets h = Z.of_nat (length (buckets h));
  hi_range : 0 < n_buckets h <= max_buckets;
  hi_table : exists ch, table hp (buckets h) (bucket_hash h) its ch;
  hi_distinct : forall p kv q kv', (p, kv) ∈ its -> (q, kv') ∈ its -> cf kv.1 kv'.1 = 0 -> p = q }.

(** ** Hashes *)

Lemma mod_range a n : 0 < n <= max_buckets -> u32 (a mod n) = a mod n.
Proof. intros H. pose proof (Z.mod_pos_bound a n ltac:(lia)). unfold u32, max_buckets in *. apply Z.mod_small. lia. Qed.

Lemma bucket_hash_eq h k : 0 < n_buckets h <= max_buckets -> bucket_hash h k = hash_func h k (hash_key h) mod n_buckets h.
Proof. apply mod_range. Qed.

Lemma bucket_hash_range h k : 0 < n_buckets h <= max_buckets -> 0 <= bucket_hash h k < n_buckets h.
Proof. intros H. rewrite bucket_hash_eq by done. apply Z.mod_pos_bound. lia. Qed.

Lemma bucket_hash_agree h k k' : hash_func h = hf -> cf k k' = 0 -> bucket_hash h k = bucket_hash h k'.
Proof. intros Hh Hc. unfold bucket_hash. rewrite Hh. by rewrite (cf_hash k k'). Qed.

(** ** Frames *)

Lemma holds_entries_frame hp hp' its :
  (forall a, a ∈ its.*1 -> hp' !! a = hp !! a) -> holds_entries hp its -> holds_entries hp' its.
Proof.
  intros Hf [Ha Hk Hi]. split; [done| |].
  - intros p kv Hp. unfold view. rewrite Hf by (by eapply item_address). by apply Hk.
  - eapply dseg_agree; [|exact Hi]. intros a Hin. unfold view. by rewrite Hf.
Qed.

Lemma holds_entries_blind hp hp' l its :
  links_only bucket_link l hp hp' -> holds_entries hp its -> holds_entries hp' its.
Proof.
  intros [_ V] [Ha Hk Hi]. split; [done| |].
  - intros p kv Hp. rewrite (V _ _ kv_blind_bucket). by apply Hk.
  - eapply dseg_agree; [|exact Hi]. intros a Hin. apply (V _ _ iterate_blind_bucket).
Qed.

Lemma hm_inv_frame hp hp' h its :
  (forall a, a ∈ its.*1 -> hp' !! a = hp !! a) -> hm_inv hp h its -> hm_inv hp' h its.
Proof.
  intros Hf [? ? He ? ? ? ? ? ? [ch Ht] ?]. split; try done.
  - by eapply holds_entries_frame.
  - exists ch. eapply table_agree; [|exact Ht]. intros a Ha. unfold view. by rewrite Hf.
Qed.

(** ** Scanning *)

Lemma scan_loop_ok hp (l : list Z) key pv n (kof : Z -> Z) :
  dseg bucket_link hp pv l 0 -> addresses l -> (length l <= n)%nat ->
  (forall a, a ∈ l -> exists x, hp !! a = Some x /\ he_key x = kof a) ->
  exists e, scan_loop n hp cf (hd0 l) key = Some e
    /\ (e = 0 /\ (forall a, a ∈ l -> cf (kof a) key <> 0) \/ e ∈ l /\ cf (kof e) key = 0).
Proof.
  revert pv n. induction l as [|a l IH]; intros pv n Hd Ha Hn Hk.
  { exists 0. split; [by destruct n|]. left. split; [done|]. intros a Ha'. by apply elem_of_nil in Ha'. }
  apply addresses_cons in Ha as (_ & Ha0 & Ha). destruct n as [|n]; [simpl in Hn; lia|].
  destruct Hd as [Hv Hd]. destruct (Hk a) as (x & Hx & Ek); [constructor|].
  simpl. destruct (Z.eqb_spec a 0); [done|]. rewrite Hx. simpl. rewrite Ek.
  destruct (Z.eqb_spec (cf (kof a) key) 0) as [E|E].
  { exists a. split; [done|]. right. split; [constructor|done]. }
  apply view_Some in Hv as (x' & Hx' & El). assert (x' = x) as -> by congruence. injection El as -> _.
  destruct (IH a n Hd Ha) as (e & He & Hc); [simpl in Hn; lia|intros b Hb; apply Hk; by right|].
  exists e. split; [done|]. destruct Hc as [[-> Hc]|[Hc1 Hc2]]; [left|right; split; [by right|done]].
  split; [done|]. intros b Hb. apply elem_of_cons in Hb as [->|Hb]; [done|by apply Hc].
Qed.

(** The entry with the key, or its absence. *)
Definition found (key e : Z) (its : list item) : Prop :=
  exists i1 kv i2, its = i1 ++ (e, kv) :: i2 /\ e <> 0 /\ cf kv.1 key = 0.
Definition absent (key : Z) (its : list item) : Prop := forall p kv, (p, kv) ∈ its -> cf kv.1 key <> 0.

Lemma hash_scan_ok hp h its key :
  hm_inv hp h its ->
  exists e, hash_scan hp h (bucket_hash h key) key = Some e /\ (e = 0 /\ absent key its \/ found key e its).
Proof.
  intros I. pose proof I as [Hh Hc [Ha Hkv _] _ _ Hn _ Hnb Hr [ch T] _].
  pose proof (bucket_hash_range h key Hr) as Hb.
  assert (0 <= bucket_hash h key < Z.of_nat (length (buckets h))) as Hb' by lia.
  destruct (tb_bucket _ _ _ _ _ T _ Hb') as (Hg & Hd & Hnd).
  pose proof (table_chain_length _ _ _ _ _ _ T Hb') as Hl.
  set (kof a := default 0 (he_key <$> hp !! a)).
  assert (forall p kv, (p, kv) ∈ its -> kof p = kv.1 /\ exists x, hp !! p = Some x) as Hkof.
  { intros p kv Hp. apply Hkv in Hp. apply view_Some in Hp as (x & Hx & <-). split; [|eauto]. unfold kof. by rewrite Hx. }
  destruct (scan_loop_ok hp (ch (bucket_hash h key)) key 0 (loop_fuel h) kof) as (e & He & Hcase).
  - done.
  - by eapply table_chain_addresses.
  - unfold loop_fuel. lia.
  - intros a Hin. apply (tb_mem _ _ _ _ _ T) in Hin as (kv & Hi & _). destruct (Hkof _ _ Hi) as [_ [x Hx]].
    exists x. split; [done|]. unfold kof. by rewrite Hx.
  - exists e. split.
    { unfold hash_scan, get_bucket. rewrite (proj2 (Z.ltb_lt _ _)) by lia. simpl. rewrite Hg. simpl. by rewrite Hc. }
    destruct Hcase as [[-> Hno]|[Hin Heq]]; [left|right].
    + split; [done|]. intros p kv Hp Hcf. apply (Hno p); [|by rewrite (proj1 (Hkof _ _ Hp))].
      apply (tb_mem _ _ _ _ _ T). exists kv. split; [done|]. by apply bucket_hash_agree.
    + apply (tb_mem _ _ _ _ _ T) in Hin as (kv & Hi & _). rewrite (proj1 (Hkof _ _ Hi)) in Heq.
      apply list_elem_of_split in Hi as (i1 & i2 & ->). exists i1, kv, i2. split_and!; [done| |done].
      intros ->. apply (ad_nonzero _ Ha). rewrite fmap_app. apply elem_of_app. right. constructor.
Qed.

End Inv.
