(* ===== verification/HashmapSteps.v ===== *)
(** [link_entry], [unlink_entry], [remove_entry] and [resize_buckets] on a map that
    satisfies the invariant; [resize_buckets] moves every entry to the larger table, and
    the map holds the same entries in the same order. *)
From S2P Require Import Prelude Memory SipHash Hashmap HashmapLists HashmapInv.

Section Steps.
Context (hf : Z -> list Z -> Z) (cf : Z -> Z -> Z) `{!HashLaws hf cf}.

Abbreviation hm_inv := (hm_inv hf cf).
Abbreviation absent := (absent cf).

(** What no operation changes but the table and the number of entries. *)
Definition same_map (h h' : Hashmap) : Prop :=
  hash_func h' = hash_func h /\ compare_func h' = compare_func h /\ hash_key h' = hash_key h
  /\ n_buckets h' = n_buckets h /\ from_pool h' = from_pool h.

Lemma bucket_hash_same h h' k : same_map h h' -> bucket_hash h' k = bucket_hash h k.
Proof. intros (H1 & _ & H2 & H3 & _). unfold bucket_hash. by rewrite H1, H2, H3. Qed.

(** ** Linking *)

(** Linking into the table first and then into the iteration list. *)
Lemma link_map_entry_ok hp h its p x :
  hm_inv hp h its -> addresses (p :: its.*1) -> hp !! p = Some x -> absent (he_key x) its ->
  Z.of_nat (length its) < max_entries ->
  exists hp' h', link_entry hp h p (bucket_hash h (he_key x)) = Some (hp', h')
    /\ hm_inv hp' h' (its ++ [(p, key_value x)]) /\ same_map h h'
    /\ (forall q, (q ∉ p :: its.*1) -> hp' !! q = hp !! q).
Proof.
  intros [Hh Hc [Ha Hkv Hit] Hhd Htl Hn Hsm Hnb Hr [ch T] Hdi] Hap Hx Habs Hlt.
  pose proof (bucket_hash_range h (he_key x) Hr) as Hb.
  destruct (table_insert hp (buckets h) (bucket_hash h) its ch p (he_key x) (he_value x) x T Hap Hx)
    as (c & hp1 & ch1 & Hget & U1 & T1 & F1); [lia|].
  assert (view key_value hp1 p = Some (key_value x)) as Vp.
  { rewrite (proj2 F1 _ _ kv_blind_bucket). unfold view. by rewrite Hx. }
  assert (dll iterate_link hp1 its.*1) as Hit1.
  { eapply dseg_agree; [|exact Hit]. intros a _. apply (proj2 F1 _ _ iterate_blind_bucket). }
  destruct (view_Some _ _ _ _ Vp) as (y & Hy & Ey).
  destruct (dll_push_back iterate_link hp1 its.*1 p y Hit1 Hap Hy) as (hp2 & U2 & D2 & F2).
  set (h' := set_n_entries (set_iterate_list (set_buckets h (<[Z.to_nat (bucket_hash h (he_key x)) := p]> (buckets h)))
               (if bool_decide (its.*1 = []) then p else iterate_list_head h) p) (u32 (n_entries h + 1))).
  exists hp2, h'.
  assert (u32 (n_entries h + 1) = n_entries h + 1) as Hu.
  { unfold u32. apply Z.mod_small. unfold max_entries in *. lia. }
  assert (0 ∉ its.*1) as Hz by apply Ha.
  split.
  { unfold link_entry, get_bucket, set_bucket. rewrite Hget. simpl. rewrite (upd_Some _ _ _ _ Hx). simpl.
    simpl in U1. rewrite U1. simpl. rewrite (proj2 (Z.ltb_lt _ _)) by lia. simpl.
    rewrite (upd_Some _ _ _ _ Hy). simpl. simpl in U2. rewrite Htl. unfold upd_if in U2.
    rewrite last0_zero in U2 |- * by done. rewrite Hhd, hd0_zero by done. subst h'.
    destruct (decide (its.*1 = [])) as [E|E].
    - rewrite !bool_decide_eq_true_2 in * by done. simpl. injection U2 as U2. rewrite U2. simpl. rewrite Hu.
      rewrite (proj2 (Z.ltb_ge _ _)) by lia. done.
    - rewrite !bool_decide_eq_false_2 in * by done. simpl. rewrite U2. simpl. rewrite Hu.
      rewrite (proj2 (Z.ltb_ge _ _)) by lia. by rewrite Hhd. }
  assert (bucket_hash h' = bucket_hash h) as Ehash by done.
  split; [|split; [done|]].
  - assert ((its ++ [(p, key_value x)]).*1 ≡ₚ p :: its.*1) as Eperm.
    { rewrite fmap_app, Permutation_app_comm. done. }
    split; try done.
    + split; [by rewrite Eperm| |by rewrite fmap_app].
      intros q kv Hq. apply elem_of_app in Hq as [Hq|Hq].
      * rewrite (proj2 F2 _ _ kv_blind_iterate), (proj2 F1 _ _ kv_blind_bucket). by apply Hkv.
      * apply list_elem_of_singleton in Hq as [= -> ->]. by rewrite (proj2 F2 _ _ kv_blind_iterate).
    + unfold h'. simpl. rewrite fmap_app, Hhd. by destruct its.*1.
    + unfold h'. rewrite fmap_app. simpl. by rewrite last_snoc.
    + unfold h'. simpl. rewrite length_app. simpl. lia.
    + rewrite length_app. simpl. unfold max_entries in *. lia.
    + unfold h'. simpl. by rewrite length_insert.
    + exists ch1. rewrite Ehash. unfold h'. simpl. eapply table_perm; [|eapply table_agree; [|exact T1]].
      * by rewrite Permutation_app_comm.
      * intros a _. apply (proj2 F2 _ _ bucket_blind_iterate).
    + intros q1 kv1 q2 kv2 H1 H2 E.
      apply elem_of_app in H1 as [H1|H1], H2 as [H2|H2]; try apply list_elem_of_singleton in H1; try apply list_elem_of_singleton in H2.
      * by eapply Hdi.
      * injection H2 as -> ->. simpl in E. exfalso. by eapply Habs.
      * injection H1 as -> ->. simpl in E. exfalso. eapply Habs; [exact H2|]. by apply (cf_sym (hf:=hf)).
      * congruence.
  - intros q Hq. rewrite (proj1 F2), (proj1 F1); done.
Qed.

(** ** Unlinking *)

Lemma unlink_entry_ok hp h i1 p kv i2 :
  hm_inv hp h (i1 ++ (p, kv) :: i2) ->
  exists hp' h', unlink_entry hp h p (bucket_hash h kv.1) = Some (hp', h')
    /\ hm_inv hp' h' (i1 ++ i2) /\ same_map h h'
    /\ view key_value hp' p = Some kv
    /\ (forall q, (q ∉ (i1 ++ i2).*1) -> hp' !! q = hp !! q).
Proof.
  intros [Hh Hc [Ha Hkv Hit] Hhd Htl Hn Hsm Hnb Hr [ch T] Hdi].
  pose proof (bucket_hash_range h kv.1 Hr) as Hb.
  assert (i1 ++ (p, kv) :: i2 ≡ₚ (p, kv) :: (i1 ++ i2)) as Eperm by by rewrite Permutation_middle.
  rewrite fmap_app, fmap_cons in Ha, Hit, Hhd, Htl. cbn [fst] in Ha, Hit, Hhd, Htl.
  assert (addresses (p :: (i1 ++ i2).*1)) as Ha'.
  { rewrite fmap_app. eapply addresses_proper; [|exact Ha]. by rewrite Permutation_middle. }
  destruct (dll_unlink iterate_link hp _ p _ Hit Ha) as (Hv & hp1 & hp2 & U1 & U2 & D & F1 & F2).
  rewrite <- fmap_app in D, F2.
  destruct (view_Some _ _ _ _ Hv) as (x & Hx & Ex). injection Ex as Enx Epx.
  assert (view key_value hp p = Some kv) as Vp by (apply Hkv; rewrite Eperm; constructor).
  assert ((0 ∉ i1.*1) /\ 0 ∉ i2.*1) as [Hz1 Hz2].
  { destruct Ha as [_ Hz]. apply not_elem_of_app in Hz as [? Hz]. apply not_elem_of_cons in Hz as [_ ?]. done. }
  set (h1 := set_iterate_list h (if bool_decide (i1.*1 = []) then hd0 i2.*1 else iterate_list_head h)
               (if bool_decide (i2.*1 = []) then last0 i1.*1 else iterate_list_tail h)).
  assert (table hp2 (buckets h1) (bucket_hash h1) ((p, kv) :: (i1 ++ i2)) ch) as T1.
  { eapply table_agree; [|eapply table_perm; [exact Eperm|exact T]]. intros a _. apply (proj2 F2 _ _ bucket_blind_iterate). }
  destruct (table_drop hp2 h1 (bucket_hash h1) (i1 ++ i2) ch p kv T1 Ha') as (hp3 & bs & ch' & U3 & Hbs & T3 & F3).
  exists hp3, (set_n_entries (set_buckets h1 bs) (u32 (n_entries h - 1))).
  rewrite length_app in Hn, Hsm. simpl in Hn, Hsm.
  assert (u32 (n_entries h - 1) = Z.of_nat (length (i1 ++ i2))) as Hu.
  { unfold u32. rewrite length_app, Z.mod_small; unfold max_entries in *; lia. }
  split.
  { unfold unlink_entry. rewrite Hx. simpl in *. rewrite Enx, Epx. rewrite U1. simpl. rewrite U2. simpl.
    rewrite hd0_zero, last0_zero by done.
    match goal with |- drop_bucket hp2 ?hh _ _ ≫= _ = _ => change hh with h1 end.
    change (bucket_hash h kv.1) with (bucket_hash h1 kv.1). rewrite U3. simpl.
    rewrite (proj2 (Z.ltb_ge _ _)) by lia. done. }
  assert (forall X (g : hashmap_entry -> X), blind g bucket_link -> blind g iterate_link ->
    forall q, view g hp3 q = view g hp q) as V3.
  { intros X g Hg1 Hg2 q. by rewrite (proj2 F3 _ _ Hg1), (proj2 F2 _ _ Hg2). }
  split; [|split; [done|split]].
  - split; try done.
    + split; [by apply addresses_cons in Ha' as (_ & _ & ?)| |].
      * intros q kv' Hq. rewrite V3 by auto with hashmap. apply Hkv. rewrite Eperm. by right.
      * eapply dseg_agree; [|exact D]. intros a _. apply (proj2 F3 _ _ iterate_blind_bucket).
    + simpl. rewrite fmap_app, Hhd. by destruct i1.*1.
    + change ((if bool_decide (i2.*1 = []) then last0 i1.*1 else iterate_list_tail h) = last0 (i1 ++ i2).*1).
      rewrite fmap_app, Htl, !last_app, last_cons. destruct (last i2.*1) eqn:El; simpl.
      * rewrite bool_decide_eq_false_2; [done|]. intros E. by rewrite E in El.
      * apply last_None in El. by rewrite bool_decide_eq_true_2.
    + rewrite length_app. lia.
    + simpl. by rewrite Hbs.
    + by exists ch'.
    + intros q1 kv1 q2 kv2 H1 H2. apply Hdi; rewrite Eperm; by right.
  - by rewrite V3 by auto with hashmap.
  - intros q Hq. rewrite (proj1 F3) by done. apply (proj1 F2). done.
Qed.

Lemma remove_entry_ok hp h i1 p kv i2 :
  hm_inv hp h (i1 ++ (p, kv) :: i2) ->
  exists hp' h', remove_entry hp h p = Some (hp', h')
    /\ hm_inv hp' h' (i1 ++ i2) /\ same_map h h'
    /\ (forall q, (q ∉ p :: (i1 ++ i2).*1) -> hp' !! q = hp !! q).
Proof.
  intros I. pose proof (hi_entries _ _ _ _ _ I) as [Ha Hkv _].
  destruct (unlink_entry_ok _ _ _ _ _ _ I) as (hp1 & h1 & U & I1 & S1 & V1 & F1).
  assert (view key_value hp p = Some kv) as Vp by (apply Hkv; apply elem_of_app; right; constructor).
  destruct (view_Some _ _ _ _ Vp) as (x & Hx & <-).
  exists (delete p hp1), h1. split; [|split; [|split; [done|]]].
  - unfold remove_entry. rewrite Hx. simpl. simpl in U. rewrite U. done.
  - eapply hm_inv_frame; [|exact I1]. intros a Hin. apply lookup_delete_ne. intros ->.
    rewrite fmap_app in Ha. simpl in Ha. rewrite <- Permutation_middle in Ha. apply addresses_cons in Ha as (Hn & _).
    apply Hn. by rewrite <- fmap_app.
  - intros q Hq. apply not_elem_of_cons in Hq as [Hqp Hq]. rewrite lookup_delete_ne by (by intros ->). by apply F1.
Qed.

(** ** Changing a key and a value in place *)

Lemma set_entry_ok hp h i1 p kv i2 x y :
  hm_inv hp h (i1 ++ (p, kv) :: i2) -> hp !! p = Some x ->
  links bucket_link y = links bucket_link x -> links iterate_link y = links iterate_link x ->
  cf (he_key y) kv.1 = 0 ->
  hm_inv (<[p := y]> hp) h (i1 ++ (p, key_value y) :: i2).
Proof.
  intros [Hh Hc [Ha Hkv Hit] Hhd Htl Hn Hsm Hnb Hr [ch T] Hdi] Hx Lb Li Hk.
  assert ((i1 ++ (p, key_value y) :: i2).*1 = (i1 ++ (p, kv) :: i2).*1) as E1 by by rewrite !fmap_app.
  assert (length (i1 ++ (p, key_value y) :: i2) = length (i1 ++ (p, kv) :: i2)) as E2 by by rewrite !length_app.
  assert (p ∉ (i1 ++ i2).*1) as Hp.
  { rewrite fmap_app in Ha |- *. simpl in Ha. rewrite <- Permutation_middle in Ha. by apply addresses_cons in Ha as (? & _). }
  assert (forall q w, (q, w) ∈ i1 ++ (p, key_value y) :: i2 ->
    q = p /\ w = key_value y \/ q <> p /\ (q, w) ∈ i1 ++ (p, kv) :: i2) as Hmem.
  { intros q w. rewrite <- !Permutation_middle, !elem_of_cons. intros [E|Hin]; [left; split; congruence|right].
    split; [|by right]. intros ->. apply Hp. by eapply item_address. }
  split; try done.
  - split; [by rewrite E1| |].
    + intros q w Hq. destruct (Hmem _ _ Hq) as [[-> ->]|[Hne Hin]].
      * apply view_insert_eq.
      * rewrite view_insert_ne by done. by apply Hkv.
    + rewrite E1. eapply dseg_agree; [|exact Hit]. intros a _. by apply view_insert_same with x.
  - by rewrite E1.
  - by rewrite E1.
  - by rewrite E2.
  - by rewrite E2.
  - exists ch. destruct T as [Tb Tm Tr].
    assert (bucket_hash h (he_key y) = bucket_hash h kv.1) as Ehash by by apply (bucket_hash_agree hf cf).
    split.
    + intros b Hb. destruct (Tb b Hb) as (H1 & H2 & H3). split_and!; [done| |done].
      eapply dseg_agree; [|exact H2]. intros a _. by apply view_insert_same with x.
    + intros b q. rewrite Tm. split; intros (w & Hin & Hw).
      * rewrite <- Permutation_middle in Hin. apply elem_of_cons in Hin as [E|Hin].
        -- injection E as -> ->. exists (key_value y). split; [|by simpl; rewrite Ehash].
           rewrite <- Permutation_middle. constructor.
        -- exists w. split; [|done]. rewrite <- Permutation_middle. by right.
      * destruct (Hmem _ _ Hin) as [[-> ->]|[Hne Hin']]; [|by exists w].
        exists kv. split; [rewrite <- Permutation_middle; constructor|]. by rewrite <- Ehash.
    + intros q w Hq. destruct (Hmem _ _ Hq) as [[-> ->]|[Hne Hin]]; [|by eapply Tr].
      simpl. rewrite Ehash. apply (Tr p kv). rewrite <- Permutation_middle. constructor.
  - intros q1 w1 q2 w2 H1 H2 E.
    assert ((p, kv) ∈ i1 ++ (p, kv) :: i2) as Hpin by (rewrite <- Permutation_middle; constructor).
    destruct (Hmem _ _ H1) as [[-> ->]|[Hne1 Hin1]], (Hmem _ _ H2) as [[-> ->]|[Hne2 Hin2]]; [done| | |by eapply Hdi].
    + eapply Hdi; [exact Hpin|exact Hin2|]. eapply (cf_trans (hf:=hf)); [|exact E]. by apply (cf_sym (hf:=hf)).
    + eapply Hdi; [exact Hin1|exact Hpin|]. eapply (cf_trans (hf:=hf)); [exact E|exact Hk].
Qed.

End Steps.


Section Resize.
Context (hf : Z -> list Z -> Z) (cf : Z -> Z -> Z).

Abbreviation hm_inv := (hm_inv hf cf).

Lemma empty_table hp hash m : table hp (replicate m 0) hash [] (fun _ => []).
Proof.
  split.
  - intros b Hb. rewrite length_replicate in Hb. split_and!; [apply lookup_replicate_2; lia|done|constructor].
  - intros b p. split; [intros H; by apply elem_of_nil in H|intros (kv & H & _); by apply elem_of_nil in H].
  - intros p kv H. by apply elem_of_nil in H.
Qed.

(** The entries [done] are in the new table, the entries [todo] in the old one. *)
Record halfway (hp : heap) (bs nb : list Z) (old new : Z -> Z) (done todo : list item) : Prop := mkHalfway {
  hw_entries : holds_entries hp (done ++ todo);
  hw_old : exists ch, table hp bs old todo ch;
  hw_new : exists ch, table hp nb new done ch }.

(** One turn of the loop. *)
Lemma halfway_step hp h bs nb old new done p kv todo :
  halfway hp bs nb old new done ((p, kv) :: todo) -> buckets h = bs -> 0 <= new kv.1 < Z.of_nat (length nb) ->
  exists hp1 bs' c x hp2,
    drop_bucket hp h p (old kv.1) = Some (hp1, set_buckets h bs')
    /\ hp1 !! p = Some x
    /\ nb !! Z.to_nat (new kv.1) = Some c
    /\ upd_if (<[p := set_bucket_previous 0 (set_bucket_next c x)]> hp1) c (set_bucket_previous p) = Some hp2
    /\ halfway hp2 bs' (<[Z.to_nat (new kv.1) := p]> nb) old new (done ++ [(p, kv)]) todo
    /\ links_only bucket_link (done ++ (p, kv) :: todo).*1 hp hp2.
Proof.
  intros [He [ch1 T1] [ch2 T2]] <- Hb. pose proof He as [Ha Hkv _].
  rewrite fmap_app, fmap_cons in Ha. cbn [fst] in Ha. rewrite <- Permutation_middle in Ha.
  apply addresses_cons in Ha as (Hp & Hp0 & [Hnd Hz]). apply NoDup_app in Hnd as (Hn1 & Hdis & Hn2).
  apply not_elem_of_app in Hp as [Hpd Hpt]. apply not_elem_of_app in Hz as [Hzd Hzt].
  assert (addresses (p :: todo.*1)) as Hat by by apply addresses_cons.
  assert (addresses (p :: done.*1)) as Had by by apply addresses_cons.
  destruct (table_drop hp h old todo ch1 p kv T1 Hat) as (hp1 & bs' & ch1' & U1 & Hlen & T1' & F1).
  assert (view key_value hp1 p = Some kv) as Vp.
  { rewrite (proj2 F1 _ _ kv_blind_bucket). apply Hkv. apply elem_of_app. right. constructor. }
  destruct (view_Some _ _ _ _ Vp) as (x & Hx & Ex).
  assert (table hp1 nb new done ch2) as T2'.
  { eapply table_agree; [|exact T2]. intros a Had'. unfold view. rewrite (proj1 F1); [reflexivity|]. intros ?. by eapply Hdis. }
  destruct (table_insert hp1 nb new done ch2 p kv.1 kv.2 x T2' Had Hx Hb) as (c & hp2 & ch2' & Hc & U2 & T2'' & F2).
  exists hp1, bs', c, x, hp2. split_and!; [exact U1|exact Hx|exact Hc|exact U2| |].
  - split.
    + rewrite <- (assoc (++)). simpl. eapply holds_entries_blind; [exact F2|]. by eapply holds_entries_blind.
    + exists ch1'. eapply table_agree; [|exact T1']. intros a Hat'. unfold view. rewrite (proj1 F2); [reflexivity|].
      intros Hin. apply elem_of_cons in Hin as [->|Hin]; [by destruct Hpt|by eapply Hdis].
    + exists ch2'. destruct kv as [k v]. eapply table_perm; [|exact T2'']. by rewrite Permutation_app_comm.
  - eapply links_only_trans; eapply links_only_mono; [|exact F1| |exact F2]; intros a; rewrite fmap_app, fmap_cons, elem_of_app, !elem_of_cons;
      simpl; tauto.
Qed.

Lemma resize_loop_ok h m nkey : forall todo n hp bs nb dn,
  hash_func h = hf -> 0 < n_buckets h <= max_buckets -> 0 < m ->
  halfway hp bs nb (bucket_hash h) (fun k => hf k nkey mod m) dn todo ->
  (length todo <= n)%nat -> Z.of_nat (length nb) = m ->
  exists hp' bs' nb', resize_loop n hp (set_buckets h bs) nb m nkey (hd0 todo.*1) = Some (hp', set_buckets h bs', nb')
    /\ halfway hp' bs' nb' (bucket_hash h) (fun k => hf k nkey mod m) (dn ++ todo) []
    /\ Z.of_nat (length nb') = m
    /\ links_only bucket_link (dn ++ todo).*1 hp hp'.
Proof.
  induction todo as [|[p kv] todo IH]; intros n hp bs nb dn Hh Hr Hm Hw Hn Hnb.
  { exists hp, bs, nb. rewrite app_nil_r. split; [by destruct n|]. split; [done|]. split; [done|apply links_only_refl]. }
  destruct n as [|n]; [simpl in Hn; lia|].
  assert (p <> 0) as Hp0.
  { destruct (hw_entries _ _ _ _ _ _ _ Hw) as [[_ Hz] _ _]. intros ->. apply Hz.
    rewrite fmap_app. apply elem_of_app. right. constructor. }
  pose proof (hw_entries _ _ _ _ _ _ _ Hw) as [_ Hkv _].
  destruct (view_Some _ _ _ _ (Hkv p kv ltac:(apply elem_of_app; right; constructor))) as (x0 & Hx0 & Ex0).
  destruct (halfway_step hp (set_buckets h bs) bs nb _ _ dn p kv todo Hw eq_refl)
    as (hp1 & bs' & c & x & hp2 & U1 & Hx & Hc & U2 & Hw2 & F).
  { pose proof (Z.mod_pos_bound (hf kv.1 nkey) m). lia. }
  assert (view (links iterate_link) hp2 p = Some (hd0 todo.*1, last0 dn.*1)) as Vp.
  { destruct (hw_entries _ _ _ _ _ _ _ Hw2) as [_ _ Hit]. unfold dll in Hit.
    rewrite fmap_app, dseg_app, fmap_app, dseg_app in Hit. simpl in Hit. by destruct Hit as [(_ & Hv & _) _]. }
  destruct (view_Some _ _ _ _ Vp) as (y & Hy & Ey). injection Ey as Ey _.
  destruct (IH n hp2 bs' (<[Z.to_nat (hf kv.1 nkey mod m) := p]> nb) (dn ++ [(p, kv)]))
    as (hp' & bs'' & nb' & U3 & Hw3 & Hl3 & F3); [done|done|done|done|simpl in Hn; lia|by rewrite length_insert|].
  rewrite <- (assoc (++)) in Hw3, F3. exists hp', bs'', nb'. split; [|split; [done|split; [done|]]].
  - simpl. destruct (Z.eqb_spec p 0); [done|]. rewrite Hx0. simpl.
    assert (he_key x0 = kv.1) as -> by by rewrite <- Ex0. simpl. rewrite Hh.
    rewrite bucket_hash_eq in U1 by done. rewrite Hh in U1. rewrite U1. simpl. rewrite Hh, Hc. simpl.
    rewrite (upd_Some _ _ _ _ Hx). simpl. rewrite U2. simpl. rewrite Hy. simpl. rewrite Ey. exact U3.
  - by eapply links_only_trans.
Qed.

Context (E : HashEnv).

(** The table of [h] and its new size when it grows. *)
Definition grown_size (h : Hashmap) : Z := (n_entries h + 1) * 4 - 1.

Lemma resize_buckets_ok w h its :
  hm_inv (w_heap w) h its -> Z.of_nat (length its) < max_entries ->
  exists grown w' h', resize_buckets E w h = Some (grown, w', h')
    /\ hm_inv (w_heap w') h' its /\ from_pool h' = from_pool h /\ (grown = false -> h' = h)
    /\ (forall q, (q ∉ its.*1) -> w_heap w' !! q = w_heap w !! q)
    /\ (n_entries h' * 4 < n_buckets h' * 3 \/ env_table E (grown_size h) = false).
Proof.
  intros I Hlt. pose proof I as [Hh Hc He Hhd Htl Hn Hsm Hnb Hr [ch T] Hdi].
  assert (forall a, 0 <= a < 4294967296 -> u32 a = a) as Hu by (intros a ?; unfold u32; by apply Z.mod_small).
  unfold resize_buckets. unfold max_entries, max_buckets in *.
  rewrite (Hu (n_entries h * 4)), (Hu (n_buckets h * 3)) by lia.
  destruct (Z.ltb_spec (n_entries h * 4) (n_buckets h * 3)) as [Hl|Hl].
  { exists false, w, h. split_and!; [done|done|done|done|done|by left]. }
  rewrite (Hu (n_entries h + 1)), (Hu ((n_entries h + 1) * 4)), (Hu ((n_entries h + 1) * 4 - 1)) by lia.
  fold (grown_size h). destruct (env_table E (grown_size h)) eqn:Et.
  2:{ exists false, w, h. split_and!; [done|done|done|done|done|by right]. }
  cbn [negb]. unfold grown_size in *. set (m := (n_entries h + 1) * 4 - 1) in *.
  destruct (get_hash_key E false w) as [nkey w1] eqn:Ek.
  assert (w_heap w1 = w_heap w) as Ew.
  { unfold get_hash_key in Ek. destruct (w_current w); by injection Ek as _ <-. }
  destruct (resize_loop_ok h m nkey its (loop_fuel h) (w_heap w) (buckets h) (replicate (Z.to_nat m) 0) [])
    as (hp' & bs' & nb' & U & [He' _ [ch' T']] & Hlen & F).
  - done.
  - done.
  - lia.
  - split; [done|by exists ch|by exists (fun _ => []); apply empty_table].
  - unfold loop_fuel. lia.
  - rewrite length_replicate. lia.
  - rewrite set_buckets_same in U. rewrite app_nil_r in He'. simpl in He', T', F.
    exists true, (set_heap w1 hp'), (set_table (set_buckets h bs') nb' m nkey).
    rewrite Ew, Hhd, U. split_and!; [done| |done|done|apply F|left; simpl; lia].
    split; try done.
    + simpl. unfold max_buckets. lia.
    + exists ch'. eapply table_hash; [|exact T']. intros k. unfold bucket_hash. simpl. rewrite Hh.
      symmetry. apply mod_range. unfold max_buckets. lia.
Qed.

End Resize.
