(* ===== verification/HashmapSpec.v ===== *)
(** What a hash map promises: it is an association list in the order of insertion.
    The operations on that list, and that each operation of the code returns a result
    and does to the entries of the map what the abstract one does to the list. *)
From S2P Require Import Prelude Memory SipHash Hashmap HashmapLists HashmapInv HashmapSteps.

Inductive op :=
  | OpPut (k v : Z) | OpReplace (k v : Z) | OpUpdate (k v : Z)
  | OpGet (k : Z) | OpGet2 (k : Z) | OpContains (k : Z) | OpNext (k : Z)
  | OpRemove (k : Z) | OpRemove2 (k : Z) | OpRemoveValue (k v : Z)
  | OpRemoveAndPut (old new v : Z) | OpRemoveAndReplace (old new v : Z)
  | OpStealFirst | OpStealFirstKey | OpFirst | OpFirstKey | OpLast | OpSize
  | OpClear | OpClearFree | OpClearFreeFree.

(** * The abstract map *)

Section Spec.
Context (cf : Z -> Z -> Z).

Definition has_key (k : Z) (kv : Z * Z) : bool := cf kv.1 k =? 0.
Definition assoc_find (k : Z) (l : list (Z * Z)) : option (Z * Z) := List.find (has_key k) l.
Definition assoc_del (k : Z) (l : list (Z * Z)) : list (Z * Z) := List.filter (fun kv => negb (has_key k kv)) l.
Definition assoc_set (k : Z) (f : Z * Z -> Z * Z) (l : list (Z * Z)) : list (Z * Z) :=
  map (fun kv => if has_key k kv then f kv else kv) l.

(** The value after a key. *)
Fixpoint assoc_next (k : Z) (l : list (Z * Z)) : Z :=
  match l with
  | [] => 0
  | kv :: l' => if has_key k kv then default 0 (snd <$> head l') else assoc_next k l'
  end.

(** The values up to the first NULL one, which is dropped as well. *)
Fixpoint drain (l : list (Z * Z)) : list Z * list (Z * Z) :=
  match l with
  | [] => ([], [])
  | kv :: l' => if kv.2 =? 0 then ([], l') else ((kv.2 :: (drain l').1), (drain l').2)
  end.

Definition spec (o : op) (l : list (Z * Z)) : list Z * list (Z * Z) :=
  match o with
  | OpPut k v => match assoc_find k l with
                 | Some kv => ([if kv.2 =? v then 0 else - EEXIST], l)
                 | None => ([1], l ++ [(k, v)]) end
  | OpReplace k v => match assoc_find k l with
                     | Some _ => ([0], assoc_set k (fun _ => (k, v)) l)
                     | None => ([1], l ++ [(k, v)]) end
  | OpUpdate k v => match assoc_find k l with
                    | Some _ => ([0], assoc_set k (fun kv => (kv.1, v)) l)
                    | None => ([- ENOENT], l) end
  | OpGet k => ([default 0 (snd <$> assoc_find k l)], l)
  | OpGet2 k => (match assoc_find k l with Some kv => [kv.2; kv.1] | None => [0; 0] end, l)
  | OpContains k => ([match assoc_find k l with Some _ => 1 | None => 0 end], l)
  | OpNext k => ([assoc_next k l], l)
  | OpRemove k => ([default 0 (snd <$> assoc_find k l)], assoc_del k l)
  | OpRemove2 k => (match assoc_find k l with Some kv => [kv.2; kv.1] | None => [0; 0] end, assoc_del k l)
  | OpRemoveValue k v => match assoc_find k l with
                         | Some kv => if kv.2 =? v then ([v], assoc_del k l) else ([0], l)
                         | None => ([0], l) end
  | OpRemoveAndPut old new v => match assoc_find old l, assoc_find new l with
                                | None, _ => ([- ENOENT], l)
                                | Some _, Some _ => ([- EEXIST], l)
                                | Some _, None => ([0], assoc_del old l ++ [(new, v)]) end
  | OpRemoveAndReplace old new v => match assoc_find old l with
                                    | None => ([- ENOENT], l)
                                    | Some _ => ([0], assoc_del old (assoc_del new l) ++ [(new, v)]) end
  | OpStealFirst => ([default 0 (snd <$> head l)], tail l)
  | OpStealFirstKey => ([default 0 (fst <$> head l)], tail l)
  | OpFirst => ([default 0 (snd <$> head l)], l)
  | OpFirstKey => ([default 0 (fst <$> head l)], l)
  | OpLast => ([default 0 (snd <$> last l)], l)
  | OpSize => ([Z.of_nat (length l)], l)
  | OpClear => ([], [])
  | OpClearFree => drain l
  | OpClearFreeFree => (concat (map (fun kv => [kv.2; kv.1]) l), [])
  end.

(** ** Where the key is *)

Lemma has_key_true k kv : cf kv.1 k = 0 -> has_key k kv = true.
Proof. intros H. unfold has_key. by rewrite H. Qed.

Lemma has_key_false k kv : cf kv.1 k <> 0 -> has_key k kv = false.
Proof. intros H. by apply Z.eqb_neq. Qed.

Definition without (k : Z) (l : list (Z * Z)) : Prop := forall kv, kv ∈ l -> cf kv.1 k <> 0.

Lemma without_cons k kv l : without k (kv :: l) <-> cf kv.1 k <> 0 /\ without k l.
Proof.
  split; [intros H; split; [apply H; constructor|intros w Hw; apply H; by right]|].
  intros [H Hl] w Hw. apply elem_of_cons in Hw as [->|Hw]; [done|by apply Hl].
Qed.

Lemma without_app k l1 l2 : without k (l1 ++ l2) <-> without k l1 /\ without k l2.
Proof. unfold without. setoid_rewrite elem_of_app. naive_solver. Qed.

Lemma assoc_absent k l f : without k l -> assoc_find k l = None /\ assoc_del k l = l /\ assoc_set k f l = l /\ assoc_next k l = 0.
Proof.
  induction l as [|kv l IH]; intros H; [done|]. apply without_cons in H as [H Hl].
  destruct (IH Hl) as (I1 & I2 & I3 & I4). simpl. rewrite (has_key_false _ _ H). simpl.
  split_and!; [done|by f_equal|by f_equal|done].
Qed.

Lemma assoc_found k l1 kv l2 f : cf kv.1 k = 0 -> without k (l1 ++ l2) ->
  assoc_find k (l1 ++ kv :: l2) = Some kv /\ assoc_del k (l1 ++ kv :: l2) = l1 ++ l2
  /\ assoc_set k f (l1 ++ kv :: l2) = l1 ++ f kv :: l2
  /\ assoc_next k (l1 ++ kv :: l2) = default 0 (snd <$> head l2).
Proof.
  intros Hk. induction l1 as [|w l1 IH]; intros H; simpl in *.
  - rewrite (has_key_true _ _ Hk). simpl. destruct (assoc_absent k l2 f H) as (_ & H2 & H3 & _).
    split_and!; [done|exact H2|by f_equal|done].
  - apply without_cons in H as [H Hl]. destruct (IH Hl) as (I1 & I2 & I3 & I4).
    rewrite (has_key_false _ _ H). simpl. split_and!; [done|by f_equal|by f_equal|done].
Qed.

End Spec.

(** * The operations of the code *)

Definition one (m : option (Z * World * Hashmap)) : option (list Z * World * Hashmap) :=
  r ← m; let '(a, w, h) := r in Some ([a], w, h).
Definition two (m : option (Z * Z * World * Hashmap)) : option (list Z * World * Hashmap) :=
  r ← m; let '(a, b, w, h) := r in Some ([a; b], w, h).
Definition query (m : option Z) (w : World) (h : Hashmap) : option (list Z * World * Hashmap) :=
  a ← m; Some ([a], w, h).

Definition run (E : HashEnv) (o : op) (w : World) (h : Hashmap) : option (list Z * World * Hashmap) :=
  match o with
  | OpPut k v => one (hashmap_put E k v w h)
  | OpReplace k v => one (hashmap_replace E k v w h)
  | OpUpdate k v => one (hashmap_update k v w h)
  | OpGet k => one (hashmap_get k w h)
  | OpGet2 k => two (hashmap_get2 k w h)
  | OpContains k => r ← hashmap_contains k w h; let '(b, w, h) := r in Some ([Z.b2z b], w, h)
  | OpNext k => one (hashmap_next k w h)
  | OpRemove k => one (hashmap_remove k w h)
  | OpRemove2 k => two (hashmap_remove2 k w h)
  | OpRemoveValue k v => one (hashmap_remove_value k v w h)
  | OpRemoveAndPut old new v => one (hashmap_remove_and_put old new v w h)
  | OpRemoveAndReplace old new v => one (hashmap_remove_and_replace old new v w h)
  | OpStealFirst => one (hashmap_steal_first w h)
  | OpStealFirstKey => one (hashmap_steal_first_key w h)
  | OpFirst => query (hashmap_first w h) w h
  | OpFirstKey => query (hashmap_first_key w h) w h
  | OpLast => query (hashmap_last w h) w h
  | OpSize => Some ([hashmap_size h], w, h)
  | OpClear => r ← hashmap_clear w h; let '(_, w, h) := r in Some ([], w, h)
  | OpClearFree => hashmap_clear_free w h
  | OpClearFreeFree => r ← hashmap_clear_free_free w h; let '(l, w, h) := r in
                       Some (concat (map (fun vk : Z * Z => [vk.1; vk.2]) l), w, h)
  end.
