(* ===== verification/HashmapProofs.v ===== *)
(** Every operation of the hash maps implements the abstract one. *)
From S2P Require Import Prelude Memory SipHash Hashmap HashmapLists HashmapInv HashmapSteps HashmapSpec.

(** The allocator returns the address of memory that is not in use. *)
Class AllocLaws (E : HashEnv) : Prop := {
  env_entry_fresh : forall pool hp p, env_entry E pool hp = Some p -> p <> 0 /\ hp !! p = None }.

Section Refinement.
Context (hf : Z -> list Z -> Z) (cf : Z -> Z -> Z) `{!HashLaws hf cf} (E : HashEnv) `{!AllocLaws E}.

Abbreviation hm_inv := (hm_inv hf cf).
Abbreviation found := (found cf).
Abbreviation absent := (absent cf).
Abbreviation spec := (spec cf).

(** The entries of other maps are left alone, and stay other entries. *)
Definition frame (hp : heap) (its : list item) (hp' : heap) (its' : list item) : Prop :=
  forall q x, hp !! q = Some x -> q ∉ its.*1 -> hp' !! q = Some x /\ q ∉ its'.*1.

Lemma frame_refl hp its : frame hp its hp its.
Proof. intros q x. done. Qed.

Lemma frame_trans hp1 its1 hp2 its2 hp3 its3 :
  frame hp1 its1 hp2 its2 -> frame hp2 its2 hp3 its3 -> frame hp1 its1 hp3 its3.
Proof. intros F1 F2 q x Hq Hn. destruct (F1 q x Hq Hn) as [H1 H2]. by apply F2. Qed.

Lemma frame_within hp hp' its its' :
  (forall a, a ∈ its'.*1 -> a ∈ its.*1) -> (forall q, q ∉ its.*1 -> hp' !! q = hp !! q) -> frame hp its hp' its'.
Proof. intros Hs Hf q x Hq Hn. split; [by rewrite Hf|]. intros H. apply Hn. by apply Hs. Qed.

(** The outcome of an operation: that of the abstract one, or out of memory. *)
Definition outcome (pool : bool) (o : op) (l : list (Z * Z)) (r : list Z) (l' : list (Z * Z)) : Prop :=
  (r, l') = spec o l
  \/ (match o with OpPut _ _ | OpReplace _ _ => (spec o l).1 = [1] | _ => False end)
     /\ r = [- ENOMEM] /\ l' = l /\ exists hp, env_entry E pool hp = None.

(** The operation returns, keeps the invariant and does what [Q] says to the entries. *)
Definition returns {A} (w : World) (h : Hashmap) (its : list item) (m : option (A * World * Hashmap))
    (Q : A -> list (Z * Z) -> Prop) : Prop :=
  exists a w' h' its', m = Some (a, w', h') /\ hm_inv (w_heap w') h' its' /\ from_pool h' = from_pool h
    /\ frame (w_heap w) its (w_heap w') its' /\ Q a its'.*2.

Lemma returns_same {A} w h its (a : A) (Q : A -> list (Z * Z) -> Prop) :
  hm_inv (w_heap w) h its -> Q a its.*2 -> returns w h its (Some (a, w, h)) Q.
Proof. intros I HQ. exists a, w, h, its. split_and!; [done|done|done|apply frame_refl|done]. Qed.

Lemma returns_bind {A B} w h its (m : option (A * World * Hashmap)) (f : A -> B) (Q : B -> list (Z * Z) -> Prop) :
  returns w h its m (fun a => Q (f a)) ->
  returns w h its (r ← m; let '(a, w, h) := r in Some (f a, w, h)) Q.
Proof. intros (a & w' & h' & its' & -> & H). exists (f a), w', h', its'. done. Qed.

(** ** The key, found or not *)

Lemma absent_without key its : absent key its -> without cf key its.*2.
Proof. intros H kv Hkv. apply list_elem_of_fmap in Hkv as ([p w] & -> & Hin). by apply (H p). Qed.

Lemma absent_assoc key its f : absent key its ->
  assoc_find cf key its.*2 = None /\ assoc_del cf key its.*2 = its.*2
  /\ assoc_set cf key f its.*2 = its.*2 /\ assoc_next cf key its.*2 = 0.
Proof. intros H. by apply assoc_absent, absent_without. Qed.

(** The other entries have other keys. *)
Lemma others_absent hp h i1 p kv i2 key :
  hm_inv hp h (i1 ++ (p, kv) :: i2) -> cf kv.1 key = 0 -> absent key (i1 ++ i2).
Proof.
  intros I Hk q w Hin Hc. pose proof (hi_distinct _ _ _ _ _ I) as Hd.
  pose proof (ad_nodup _ (he_addr _ _ (hi_entries _ _ _ _ _ I))) as Hn.
  assert (q = p) as ->.
  { apply (Hd q w p kv); [rewrite <- Permutation_middle; by right|rewrite <- Permutation_middle; constructor|].
    eapply (cf_trans (hf:=hf)); [exact Hc|]. by apply (cf_sym (hf:=hf)). }
  rewrite <- Permutation_middle in Hn. simpl in Hn. apply NoDup_cons in Hn as [Hn _]. apply Hn. by eapply item_address.
Qed.

Lemma found_assoc hp h i1 p kv i2 key f : hm_inv hp h (i1 ++ (p, kv) :: i2) -> cf kv.1 key = 0 ->
  assoc_find cf key (i1.*2 ++ kv :: i2.*2) = Some kv /\ assoc_del cf key (i1.*2 ++ kv :: i2.*2) = i1.*2 ++ i2.*2
  /\ assoc_set cf key f (i1.*2 ++ kv :: i2.*2) = i1.*2 ++ f kv :: i2.*2
  /\ assoc_next cf key (i1.*2 ++ kv :: i2.*2) = default 0 (snd <$> head i2.*2).
Proof.
  intros I Hk. apply assoc_found; [done|]. rewrite <- fmap_app. apply absent_without. by eapply others_absent.
Qed.

(** The entry behind an address of the map. *)
Lemma entry_at hp h i1 p kv i2 : hm_inv hp h (i1 ++ (p, kv) :: i2) ->
  p <> 0 /\ exists x, hp !! p = Some x /\ he_key x = kv.1 /\ he_value x = kv.2
    /\ iterate_next x = hd0 i2.*1 /\ iterate_previous x = last0 i1.*1.
Proof.
  intros I. destruct (hi_entries _ _ _ _ _ I) as [[_ Hz] Hkv Hit].
  rewrite fmap_app, fmap_cons in Hz, Hit. cbn [fst] in Hz, Hit. apply dseg_app in Hit as [_ [Hv _]].
  split. { intros ->. apply Hz. apply elem_of_app. right. constructor. }
  destruct (view_Some _ _ _ _ Hv) as (x & Hx & Ex). injection Ex as E1 E2. exists x.
  assert (view key_value hp p = Some kv) as Vk by (apply Hkv; apply elem_of_app; right; constructor).
  unfold view in Vk. rewrite Hx in Vk. injection Vk as <-. done.
Qed.

Lemma frame_remove hp hp' i1 p kv i2 :
  (forall q, (q ∉ p :: (i1 ++ i2).*1) -> hp' !! q = hp !! q) -> frame hp (i1 ++ (p, kv) :: i2) hp' (i1 ++ i2).
Proof.
  intros Hf. apply frame_within.
  - intros a. rewrite <- Permutation_middle. simpl. by right.
  - intros q Hq. apply Hf. by rewrite <- Permutation_middle in Hq.
Qed.

(** [remove_entry] as an operation. *)
Lemma remove_returns {A} w h i1 p kv i2 (a : A) Q :
  hm_inv (w_heap w) h (i1 ++ (p, kv) :: i2) -> Q a (i1.*2 ++ i2.*2) ->
  returns w h (i1 ++ (p, kv) :: i2) (r ← remove_entry (w_heap w) h p; Some (a, set_heap w r.1, r.2)) Q.
Proof.
  intros I HQ. destruct (remove_entry_ok _ _ _ _ _ _ _ _ I) as (hp' & h' & U & I' & S & F).
  exists a, (set_heap w hp'), h', (i1 ++ i2). rewrite U. split_and!; [done|done|apply S|by apply frame_remove|].
  by rewrite fmap_app.
Qed.

(** Storing in place, as an operation. *)
Lemma set_returns {A} w h i1 p kv i2 (a : A) (g : hashmap_entry -> hashmap_entry) kv' Q :
  hm_inv (w_heap w) h (i1 ++ (p, kv) :: i2) ->
  (forall x, links bucket_link (g x) = links bucket_link x /\ links iterate_link (g x) = links iterate_link x) ->
  (forall x, key_value x = kv -> key_value (g x) = kv') -> cf kv'.1 kv.1 = 0 -> Q a (i1.*2 ++ kv' :: i2.*2) ->
  returns w h (i1 ++ (p, kv) :: i2) (hp ← upd (w_heap w) p g; Some (a, set_heap w hp, h)) Q.
Proof.
  intros I Hl Hkv Hc HQ. destruct (entry_at _ _ _ _ _ _ I) as (Hp0 & x & Hx & Hk & Hv & _).
  assert (key_value x = kv) as Ex by (destruct kv; unfold key_value; simpl in *; congruence).
  rewrite (upd_Some _ _ _ _ Hx). simpl.
  assert (hm_inv (<[p := g x]> (w_heap w)) h (i1 ++ (p, key_value (g x)) :: i2)) as I'.
  { eapply set_entry_ok; [done|exact I|exact Hx|apply Hl|apply Hl|]. pose proof (Hkv _ Ex) as Ek.
    by rewrite <- Ek in Hc. }
  rewrite (Hkv _ Ex) in I'. exists a, (set_heap w (<[p := g x]> (w_heap w))), h, (i1 ++ (p, kv') :: i2).
  split_and!; [done|exact I'|done| |by rewrite fmap_app].
  apply frame_within; [by rewrite !fmap_app|]. intros q Hq. apply lookup_insert_ne. intros ->.
  apply Hq. rewrite fmap_app. apply elem_of_app. right. constructor.
Qed.

(** Linking an entry that is not in the map. *)
Lemma link_returns w h its p x :
  hm_inv (w_heap w) h its -> addresses (p :: its.*1) -> w_heap w !! p = Some x -> absent (he_key x) its ->
  Z.of_nat (length its) < max_entries ->
  exists hp' h', link_entry (w_heap w) h p (bucket_hash h (he_key x)) = Some (hp', h')
    /\ hm_inv hp' h' (its ++ [(p, key_value x)]) /\ from_pool h' = from_pool h
    /\ (forall q, (q ∉ p :: its.*1) -> hp' !! q = w_heap w !! q).
Proof.
  intros I Ha Hx Hab Hlt. destruct (link_map_entry_ok _ _ _ _ _ _ _ I Ha Hx Hab Hlt) as (hp' & h' & U & I' & S & F).
  exists hp', h'. split_and!; [done|done|apply S|done].
Qed.

(** ** put *)

Lemma put_absent_ok w h its k v :
  hm_inv (w_heap w) h its -> Z.of_nat (length its) < max_entries -> absent k its ->
  returns w h its (hashmap_put E k v w h) (fun a l' =>
    a = 1 /\ l' = its.*2 ++ [(k, v)]
    \/ a = - ENOMEM /\ l' = its.*2 /\ exists hp, env_entry E (from_pool h) hp = None).
Proof.
  intros I Hlt Hab. unfold hashmap_put.
  destruct (hash_scan_ok hf cf _ _ _ k I) as (e & -> & [[-> _]|(i1 & kv & i2 & -> & _ & Hk)]).
  2:{ exfalso. apply (Hab e kv); [apply elem_of_app; right; constructor|done]. }
  simpl. destruct (resize_buckets_ok hf cf E w h its I Hlt) as (g & w1 & h1 & -> & I1 & P1 & G1 & F1 & _). simpl.
  assert ((if g then bucket_hash h1 k else bucket_hash h k) = bucket_hash h1 k) as -> by (destruct g; [done|by rewrite G1]).
  assert (frame (w_heap w) its (w_heap w1) its) as Fr1 by by apply frame_within.
  destruct (env_entry E (from_pool h1) (w_heap w1)) as [p|] eqn:Ee.
  2:{ exists (- ENOMEM), w1, h1, its. split_and!; [done|done|done|done|]. right. rewrite P1 in Ee. eauto. }
  destruct (env_entry_fresh _ _ _ Ee) as [Hp0 Hfresh].
  pose proof (hi_entries _ _ _ _ _ I1) as [Ha Hkv _].
  assert (p ∉ its.*1) as Hp.
  { intros Hin. apply address_item in Hin as [kv Hin]. apply Hkv in Hin. unfold view in Hin. by rewrite Hfresh in Hin. }
  set (x := mkEntry k v 0 0 0 0). set (w2 := set_heap w1 (<[p := x]> (w_heap w1))).
  assert (hm_inv (w_heap w2) h1 its) as I2.
  { eapply hm_inv_frame; [|exact I1]. intros a Hin. apply lookup_insert_ne. by intros ->. }
  destruct (link_returns w2 h1 its p x I2) as (hp' & h' & U & I' & P' & F'); [by apply addresses_cons|apply lookup_insert_eq|done|done|].
  simpl in U. rewrite U. exists 1, (set_heap w1 hp'), h', (its ++ [(p, (k, v))]).
  split_and!; [done|done|congruence| |left; by rewrite fmap_app].
  eapply frame_trans; [exact Fr1|]. intros q y Hq Hn.
  assert (q <> p) as Hqp by (intros ->; congruence). split.
  - simpl. rewrite F'; [simpl; by rewrite lookup_insert_ne|]. by apply not_elem_of_cons.
  - rewrite fmap_app. apply not_elem_of_app. split; [done|]. by apply not_elem_of_cons; split; [|apply not_elem_of_nil].
Qed.

Lemma put_found_ok w h i1 p kv i2 k v :
  hm_inv (w_heap w) h (i1 ++ (p, kv) :: i2) -> cf kv.1 k = 0 ->
  hashmap_put E k v w h = Some (if kv.2 =? v then 0 else - EEXIST, w, h).
Proof.
  intros I Hk. unfold hashmap_put.
  destruct (hash_scan_ok hf cf _ _ _ k I) as (e & -> & [[-> Hab]|(j1 & kv' & j2 & Ei & He0 & Hk')]).
  { exfalso. eapply Hab; [apply elem_of_app; right; constructor|done]. }
  simpl. rewrite (proj2 (Z.eqb_neq e 0)) by done. simpl.
  assert (e = p /\ kv' = kv) as [-> ->].
  { assert ((e, kv') ∈ i1 ++ (p, kv) :: i2) as Hin by (rewrite Ei; apply elem_of_app; right; constructor).
    rewrite <- Permutation_middle in Hin. apply elem_of_cons in Hin as [Eq|Hin]; [by injection Eq|].
    exfalso. by eapply (others_absent _ _ _ _ _ _ k I Hk). }
  destruct (entry_at _ _ _ _ _ _ I) as (_ & x & -> & _ & Hv & _). simpl. by rewrite Hv.
Qed.

End Refinement.
