(* ===== verification/HashmapRefines.v ===== *)
(** The refinement theorem of the hash maps, for one operation and for a map from its
    creation on. *)
From S2P Require Import Prelude Memory SipHash Hashmap HashmapLists HashmapInv HashmapSteps HashmapSpec.
From S2P Require Import HashmapProofs.

Section Operations.
Context (hf : Z -> list Z -> Z) (cf : Z -> Z -> Z) `{!HashLaws hf cf} (E : HashEnv) `{!AllocLaws E}.

Abbreviation hm_inv := (hm_inv hf cf).
Abbreviation absent := (absent cf).
Abbreviation spec := (spec cf).
Abbreviation outcome := (outcome cf E).
Abbreviation returns := (returns hf cf).

Inductive scanned (hp : heap) (h : Hashmap) (its : list item) (key : Z) : Prop :=
  | scanned_absent : hash_scan hp h (bucket_hash h key) key = Some 0 -> absent key its -> scanned hp h its key
  | scanned_found i1 p kv i2 x : hash_scan hp h (bucket_hash h key) key = Some p -> its = i1 ++ (p, kv) :: i2 ->
      cf kv.1 key = 0 -> hp !! p = Some x -> key_value x = kv ->
      iterate_next x = hd0 i2.*1 -> (p =? 0) = false -> scanned hp h its key.

Lemma scan_ok hp h its key : hm_inv hp h its -> scanned hp h its key.
Proof.
  intros I. destruct (hash_scan_ok hf cf _ _ _ key I) as (e & He & [[-> Hab]|(i1 & kv & i2 & -> & _ & Hk)]).
  - by apply scanned_absent.
  - destruct (entry_at hf cf _ _ _ _ _ _ I) as (Hp0 & x & Hx & E1 & E2 & E3 & _).
    eapply scanned_found; try done; [|by apply Z.eqb_neq]. destruct kv. unfold key_value. simpl in *. congruence.
Qed.

(** Looks a key up in the code and in the abstract map. *)
Ltac scan I key :=
  let Hs := fresh "Hs" in let Hab := fresh "Hab" in let i1 := fresh "i1" in let p := fresh "p" in
  let k' := fresh "k'" in let i2 := fresh "i2" in let x := fresh "x" in
  let Hk := fresh "Hk" in let Hx := fresh "Hx" in let Ex := fresh "Ex" in let En := fresh "En" in let Hp := fresh "Hp" in
  destruct (scan_ok _ _ _ key I) as [Hs Hab|i1 p k' i2 x Hs -> Hk Hx Ex En Hp]; rewrite Hs; simpl;
  [let A1 := fresh "A1" in let A2 := fresh "A2" in let A3 := fresh "A3" in let A4 := fresh "A4" in
   destruct (absent_assoc cf key _ (fun kv => kv) Hab) as (A1 & A2 & A3 & A4)
  |rewrite ?Hp; simpl; try rewrite Hx; simpl].

Ltac outcome_absent := apply returns_same; [done|]; left; simpl; repeat match goal with H : assoc_find _ _ _ = _ |- _ => rewrite H end;
  repeat match goal with H : assoc_del _ _ _ = _ |- _ => rewrite H end;
  repeat match goal with H : assoc_next _ _ _ = _ |- _ => rewrite H end; done.

Ltac found_as I Hk f :=
  let A1 := fresh "A1" in let A2 := fresh "A2" in let A3 := fresh "A3" in let A4 := fresh "A4" in
  destruct (found_assoc hf cf _ _ _ _ _ _ _ f I Hk) as (A1 & A2 & A3 & A4);
  rewrite ?fmap_app, ?fmap_cons; cbn [fst snd]; simpl; rewrite ?A1, ?A2, ?A3, ?A4.

(** ** An entry under a new key *)

(** Taking an entry out, renaming it and linking it again. *)
Lemma relink_ok w1 h1 i1 p kv i2 new v :
  hm_inv (w_heap w1) h1 (i1 ++ (p, kv) :: i2) -> absent new (i1 ++ i2) ->
  Z.of_nat (length (i1 ++ i2)) < max_entries ->
  returns w1 h1 (i1 ++ (p, kv) :: i2)
    (r ← unlink_entry (w_heap w1) h1 p (bucket_hash h1 kv.1);
     hp ← upd r.1 p (fun x => set_value v (set_key new x));
     r ← link_entry hp r.2 p (bucket_hash h1 new);
     Some (0, set_heap w1 r.1, r.2))
    (fun a l' => a = 0 /\ l' = (i1 ++ i2).*2 ++ [(new, v)]).
Proof.
  intros I Hab Hlt.
  pose proof (he_addr _ _ (hi_entries _ _ _ _ _ I)) as Ha.
  rewrite fmap_app, fmap_cons in Ha. cbn [fst] in Ha. rewrite <- Permutation_middle, <- fmap_app in Ha.
  pose proof Ha as (Hp & Hp0 & _)%addresses_cons.
  destruct (unlink_entry_ok hf cf _ _ _ _ _ _ I) as (hp1 & h2 & U1 & I1 & S1 & V1 & F1).
  destruct (view_Some _ _ _ _ V1) as (y & Hy & Ey). rewrite U1. simpl. rewrite (upd_Some _ _ _ _ Hy). simpl.
  set (z := set_value v (set_key new y)). set (w2 := set_heap w1 (<[p := z]> hp1)).
  assert (hm_inv (w_heap w2) h2 (i1 ++ i2)) as I2.
  { eapply hm_inv_frame; [|exact I1]. intros a Hin. apply lookup_insert_ne. by intros ->. }
  destruct (link_returns hf cf w2 h2 (i1 ++ i2) p z I2 Ha) as (hp' & h' & U2 & I' & P' & F');
    [apply lookup_insert_eq|done|done|].
  simpl in U2. rewrite (bucket_hash_same _ _ _ S1) in U2. rewrite U2.
  exists 0, (set_heap w1 hp'), h', ((i1 ++ i2) ++ [(p, (new, v))]). split_and!; [done|done| | |done|by rewrite fmap_app].
  - rewrite P'. apply S1.
  - apply frame_within.
    + intros a. rewrite fmap_app, <- (Permutation_middle i1 i2). intros [Ha'|Ha']%elem_of_app; [by right|].
      apply list_elem_of_singleton in Ha' as ->. constructor.
    + intros q Hq. rewrite <- Permutation_middle in Hq. simpl in Hq.
      simpl. rewrite F' by done. apply not_elem_of_cons in Hq as [Hqp Hq]. simpl.
      rewrite lookup_insert_ne by (by intros ->). by apply F1.
Qed.

Lemma fewer i1 p kv i2 : Z.of_nat (length (i1 ++ (p, kv) :: i2 : list item)) < max_entries ->
  Z.of_nat (length (i1 ++ i2)) < max_entries.
Proof. rewrite !length_app. simpl. lia. Qed.

(** ** The operations *)

Context (w : World) (h : Hashmap) (its : list item) (I : hm_inv (w_heap w) h its)
  (Hlt : Z.of_nat (length its) < max_entries).

Lemma put_refines k v : returns w h its (run E (OpPut k v) w h) (outcome (from_pool h) (OpPut k v) its.*2).
Proof.
  simpl. destruct (scan_ok _ _ _ k I) as [Hs Hab|i1 p kv i2 x Hs E0 Hk Hx Ex En Hp].
  - destruct (absent_assoc cf k its (fun kv => kv) Hab) as (A1 & _).
    destruct (put_absent_ok hf cf E w h its k v I Hlt Hab) as (a & w' & h' & its' & -> & I' & P & F & HQ).
    exists [a], w', h', its'. split_and!; [done|done|done|done|]. unfold HashmapProofs.outcome. simpl. rewrite A1.
    destruct HQ as [[-> ->]|(-> & -> & Hn)]; [by left|right]. done.
  - subst its. rewrite (put_found_ok hf cf E w h i1 p kv i2 k v I Hk). simpl. apply returns_same; [done|].
    left. simpl. found_as I Hk (fun kv : Z * Z => kv). done.
Qed.

Lemma replace_refines k v : returns w h its (run E (OpReplace k v) w h) (outcome (from_pool h) (OpReplace k v) its.*2).
Proof.
  simpl. unfold hashmap_replace. destruct (scan_ok _ _ _ k I) as [Hs Hab|i1 p kv i2 x Hs E0 Hk Hx Ex En Hp]; rewrite Hs; simpl.
  - destruct (absent_assoc cf k its (fun kv => kv) Hab) as (A1 & _).
    destruct (put_absent_ok hf cf E w h its k v I Hlt Hab) as (a & w' & h' & its' & -> & I' & P & F & HQ).
    exists [a], w', h', its'. split_and!; [done|done|done|done|]. unfold HashmapProofs.outcome. simpl. rewrite A1.
    destruct HQ as [[-> ->]|(-> & -> & Hn)]; [by left|right]. done.
  - subst its. rewrite Hp. simpl. apply (returns_bind hf cf _ _ _ _ (fun a => [a])).
    eapply (set_returns hf cf) with (kv' := (k, v)); [exact I|done|by intros y _|simpl; by apply (cf_sym (hf:=hf))|].
    left. simpl. found_as I Hk (fun _ : Z * Z => (k, v)). done.
Qed.

Lemma update_refines k v : returns w h its (run E (OpUpdate k v) w h) (outcome (from_pool h) (OpUpdate k v) its.*2).
Proof.
  simpl. unfold hashmap_update. scan I k; [outcome_absent|].
  apply (returns_bind hf cf _ _ _ _ (fun a => [a])).
  eapply (set_returns hf cf) with (kv' := (k'.1, v)); [exact I|done| |apply (cf_refl (hf:=hf))|].
  - intros y Hy. unfold key_value in *. simpl. by rewrite <- Hy.
  - left. simpl. found_as I Hk (fun kv : Z * Z => (kv.1, v)). done.
Qed.

Lemma get_refines k : returns w h its (run E (OpGet k) w h) (outcome (from_pool h) (OpGet k) its.*2).
Proof.
  simpl. unfold hashmap_get. scan I k; [outcome_absent|].
  apply returns_same; [done|]. left. simpl. found_as I Hk (fun kv : Z * Z => kv). by subst k'.
Qed.

Lemma get2_refines k : returns w h its (run E (OpGet2 k) w h) (outcome (from_pool h) (OpGet2 k) its.*2).
Proof.
  simpl. unfold hashmap_get2. scan I k; [outcome_absent|].
  apply returns_same; [done|]. left. simpl. found_as I Hk (fun kv : Z * Z => kv). by subst k'.
Qed.

Lemma contains_refines k : returns w h its (run E (OpContains k) w h) (outcome (from_pool h) (OpContains k) its.*2).
Proof.
  simpl. unfold hashmap_contains. scan I k; [outcome_absent|].
  apply returns_same; [done|]. left. simpl. found_as I Hk (fun kv : Z * Z => kv). done.
Qed.

Lemma next_refines k : returns w h its (run E (OpNext k) w h) (outcome (from_pool h) (OpNext k) its.*2).
Proof.
  simpl. unfold hashmap_next. scan I k; [outcome_absent|]. rewrite En.
  assert (forall v, default 0 (snd <$> head i2.*2) = v ->
    returns w h (i1 ++ (p, k') :: i2) (Some ([v], w, h)) (outcome (from_pool h) (OpNext k) (i1 ++ (p, k') :: i2).*2)) as Hret.
  { intros v Hv. apply returns_same; [done|]. left. simpl. found_as I Hk (fun kv : Z * Z => kv). by rewrite Hv. }
  destruct i2 as [|[q kv2] i2]; [by apply Hret|]. simpl in *.
  assert (i1 ++ (p, k') :: (q, kv2) :: i2 = (i1 ++ [(p, k')]) ++ (q, kv2) :: i2) as Eits by by rewrite <- (assoc (++)).
  pose proof I as I2. rewrite Eits in I2. destruct (entry_at hf cf _ _ _ _ _ _ I2) as (Hq0 & y & Hy & _ & Hv & _).
  rewrite (proj2 (Z.eqb_neq q 0)) by done. rewrite Hy. simpl. by apply Hret.
Qed.

Lemma remove2_refines k : returns w h its (run E (OpRemove2 k) w h) (outcome (from_pool h) (OpRemove2 k) its.*2).
Proof.
  simpl. unfold hashmap_remove2. scan I k; [outcome_absent|].
  destruct (remove_returns hf cf w h i1 p k' i2 (he_value x, he_key x)
    (fun a l => outcome (from_pool h) (OpRemove2 k) (i1 ++ (p, k') :: i2).*2 [a.1; a.2] l) I) as (a & w' & h' & its' & U & R).
  { left. simpl. found_as I Hk (fun kv : Z * Z => kv). by subst k'. }
  rewrite U. destruct a as [a b]. exists [a; b], w', h', its'. done.
Qed.

Lemma remove_refines k : returns w h its (run E (OpRemove k) w h) (outcome (from_pool h) (OpRemove k) its.*2).
Proof.
  simpl. unfold hashmap_remove, hashmap_remove2. scan I k; [outcome_absent|].
  destruct (remove_returns hf cf w h i1 p k' i2 (he_value x, he_key x)
    (fun a l => outcome (from_pool h) (OpRemove k) (i1 ++ (p, k') :: i2).*2 [a.1] l) I) as (a & w' & h' & its' & U & R).
  { left. simpl. found_as I Hk (fun kv : Z * Z => kv). by subst k'. }
  rewrite U. destruct a as [a b]. exists [a], w', h', its'. done.
Qed.

Lemma remove_value_refines k v :
  returns w h its (run E (OpRemoveValue k v) w h) (outcome (from_pool h) (OpRemoveValue k v) its.*2).
Proof.
  simpl. unfold hashmap_remove_value. scan I k; [outcome_absent|].
  assert (he_value x = k'.2) as -> by by subst k'. destruct (k'.2 =? v) eqn:Ev; simpl.
  - apply (returns_bind hf cf _ _ _ _ (fun a => [a])). apply remove_returns; [done|].
    left. simpl. found_as I Hk (fun kv : Z * Z => kv). by rewrite Ev.
  - apply returns_same; [done|]. left. simpl. found_as I Hk (fun kv : Z * Z => kv). by rewrite Ev.
Qed.

Lemma remove_and_put_refines old new v :
  returns w h its (run E (OpRemoveAndPut old new v) w h) (outcome (from_pool h) (OpRemoveAndPut old new v) its.*2).
Proof.
  simpl. unfold hashmap_remove_and_put. scan I old; [outcome_absent|].
  destruct (scan_ok _ _ _ new I) as [Hs2 Hab|j1 q k2 j2 y Hs2 Ei Hk2 _ _ _ Hq]; rewrite Hs2; simpl.
  - rewrite (bucket_hash_agree hf cf h old k'.1) by (apply I || by apply (cf_sym (hf:=hf))).
    apply (returns_bind hf cf _ _ _ _ (fun a => [a])).
    destruct (relink_ok w h i1 p k' i2 new v I) as (a & w' & h' & its' & U & I' & P & F & -> & Hl).
    + intros a b Hin. apply (Hab a). rewrite <- Permutation_middle. by right.
    + by eapply fewer.
    + exists 0, w', h', its'. split_and!; [exact U|done|done|done|]. left.
      destruct (absent_assoc cf new _ (fun kv => kv) Hab) as (N1 & _).
      rewrite fmap_app, fmap_cons in N1. cbn [snd] in N1. simpl. found_as I Hk (fun kv : Z * Z => kv).
      rewrite N1, Hl. by rewrite fmap_app.
  - rewrite Hq. simpl. apply returns_same; [done|]. left.
    pose proof I as I2. rewrite Ei in I2.
    destruct (found_assoc hf cf _ _ _ _ _ _ _ (fun kv => kv) I2 Hk2) as (N1 & _).
    assert (assoc_find cf new (i1 ++ (p, k') :: i2).*2 = Some k2) as N1'.
    { rewrite Ei, fmap_app, fmap_cons. exact N1. }
    rewrite fmap_app, fmap_cons in N1'. cbn [snd] in N1'. simpl. found_as I Hk (fun kv : Z * Z => kv). by rewrite N1'.
Qed.

Lemma remove_and_replace_refines old new v :
  returns w h its (run E (OpRemoveAndReplace old new v) w h) (outcome (from_pool h) (OpRemoveAndReplace old new v) its.*2).
Proof.
  simpl. unfold hashmap_remove_and_replace. scan I old; [outcome_absent|].
  apply (returns_bind hf cf _ _ _ _ (fun a => [a])).
  rewrite (bucket_hash_agree hf cf h old k'.1) by (apply I || by apply (cf_sym (hf:=hf))).
  assert (assoc_find cf old (i1 ++ (p, k') :: i2).*2 = Some k') as Hfind.
  { found_as I Hk (fun kv : Z * Z => kv). done. }
  assert (absent new (i1 ++ i2) -> assoc_del cf old (assoc_del cf new (i1 ++ (p, k') :: i2).*2) = (i1 ++ i2).*2 ->
    returns w h (i1 ++ (p, k') :: i2)
      (r ← unlink_entry (w_heap w) h p (bucket_hash h k'.1);
       hp ← upd r.1 p (fun x => set_value v (set_key new x));
       r ← link_entry hp r.2 p (bucket_hash h new); Some (0, set_heap w r.1, r.2))
      (fun a l' => outcome (from_pool h) (OpRemoveAndReplace old new v) (i1 ++ (p, k') :: i2).*2 [a] l')) as Hsame.
  { intros Hab Hd. destruct (relink_ok w h i1 p k' i2 new v I Hab) as (a & w' & h' & its' & U & I' & P & F & -> & Hl);
      [by eapply fewer|]. exists 0, w', h', its'. split_and!; [exact U|done|done|done|]. left. simpl.
    by rewrite Hfind, Hd, Hl. }
  destruct (scan_ok _ _ _ new I) as [Hs2 Hab|j1 q k2 j2 y Hs2 Ei Hk2 _ _ _ Hq]; rewrite Hs2; simpl.
  - apply Hsame.
    + intros a b Hin. apply (Hab a). rewrite <- Permutation_middle. by right.
    + destruct (absent_assoc cf new _ (fun kv => kv) Hab) as (_ & N2 & _). rewrite N2.
      rewrite !fmap_app, fmap_cons. by apply (found_assoc hf cf _ _ _ _ _ _ _ (fun kv => kv) I Hk).
  - rewrite Hq. simpl. destruct (Z.eqb_spec p q) as [->|Hpq]; simpl.
    + assert (k2 = k' /\ j1 ++ j2 ≡ₚ i1 ++ i2) as [-> Hperm].
      { pose proof (ad_nodup _ (he_addr _ _ (hi_entries _ _ _ _ _ I))) as Hn.
        assert (k' = k2) as ->.
        { eapply same_item; [exact Hn| |rewrite Ei]; rewrite <- Permutation_middle; constructor. }
        split; [done|]. apply (Permutation_cons_inv (a := (q, k2))). rewrite !Permutation_middle. by rewrite Ei. }
      apply Hsame; [by eapply (others_absent hf cf)|].
      rewrite !fmap_app, fmap_cons. cbn [snd].
      destruct (found_assoc hf cf _ _ _ _ _ _ _ (fun kv => kv) I Hk2) as (_ & N2 & _). rewrite N2.
      rewrite <- fmap_app. by apply (absent_assoc cf old _ (fun kv => kv)); eapply (others_absent hf cf).
    + pose proof I as I2. rewrite Ei in I2.
      destruct (remove_entry_ok hf cf _ _ _ _ _ _ I2) as (hp1 & h1 & U1 & I1 & S1 & F1). rewrite U1. simpl.
      assert ((p, k') ∈ j1 ++ j2) as Hin.
      { assert ((p, k') ∈ i1 ++ (p, k') :: i2) as Hin by (rewrite <- Permutation_middle; constructor).
        rewrite Ei, <- Permutation_middle in Hin. apply elem_of_cons in Hin as [E0|Hin]; [by injection E0|done]. }
      apply list_elem_of_split in Hin as (m1 & m2 & Em). rewrite Em in I1.
      destruct (relink_ok (set_heap w hp1) h1 m1 p k' m2 new v I1) as (a & w' & h' & its' & U & I' & P & F & -> & Hl).
      * assert (absent new (j1 ++ j2)) as Habs by (by eapply (others_absent hf cf)).
        intros a b Hin. apply (Habs a). rewrite Em, <- Permutation_middle. by right.
      * rewrite Ei in Hlt. apply fewer in Hlt. rewrite Em in Hlt. by eapply fewer.
      * rewrite !(bucket_hash_same _ _ _ S1) in U. simpl in U.
        exists 0, w', h', its'. split_and!; [exact U|done|rewrite P; apply S1| |].
        -- eapply frame_trans; [|exact F]. rewrite Ei, <- Em. by apply frame_remove.
        -- left. simpl. rewrite Hfind, Hl. do 2 f_equal. rewrite Ei, !fmap_app, fmap_cons. cbn [snd].
           destruct (found_assoc hf cf _ _ _ _ _ _ _ (fun kv => kv) I2 Hk2) as (_ & N2 & _). rewrite N2.
           rewrite <- (fmap_app snd j1 j2), Em, fmap_app, fmap_cons.
           symmetry. by apply (found_assoc hf cf _ _ _ _ _ _ _ (fun kv => kv) I1 Hk).
Qed.

(** ** The first and the last entry *)

Lemma head_cases : its = [] /\ iterate_list_head h = 0
  \/ exists p kv its' x, its = (p, kv) :: its' /\ iterate_list_head h = p /\ (p =? 0) = false
       /\ w_heap w !! p = Some x /\ key_value x = kv.
Proof using I HashLaws0.
  rewrite (hi_head _ _ _ _ _ I). clear Hlt. destruct its as [|[p kv] its']; [by left|right].
  destruct (entry_at hf cf _ _ [] _ _ _ I) as (Hp0 & x & Hx & E1 & E2 & _).
  exists p, kv, its', x. split_and!; [done|done|by apply Z.eqb_neq|done|].
  destruct kv. unfold key_value. simpl in *. congruence.
Qed.

Lemma steal_refines (get : hashmap_entry -> Z) (get' : Z * Z -> Z) :
  (forall x, get x = get' (key_value x)) ->
  returns w h its (one (steal get w h))
    (fun r l' => r = [default 0 (get' <$> head its.*2)] /\ l' = tail its.*2).
Proof using I HashLaws0.
  clear Hlt. intros Hg. unfold steal. destruct head_cases as [[-> ->]|(p & kv & its' & x & -> & -> & Hp & Hx & <-)].
  - by apply returns_same.
  - rewrite Hp, Hx. simpl. apply (returns_bind hf cf _ _ _ _ (fun a => [a])).
    apply (remove_returns hf cf w h [] p (key_value x) its'); [done|]. by rewrite Hg.
Qed.

Lemma first_refines (o : op) (get' : Z * Z -> Z) : spec o its.*2 = ([default 0 (get' <$> head its.*2)], its.*2) ->
  forall get : hashmap_entry -> Z, (forall x, get x = get' (key_value x)) ->
  returns w h its
    (query (if iterate_list_head h =? 0 then Some 0 else x ← w_heap w !! iterate_list_head h; Some (get x)) w h)
    (outcome (from_pool h) o its.*2).
Proof using I HashLaws0.
  clear Hlt. intros Ho get Hg. destruct head_cases as [[E0 ->]|(p & kv & its' & x & E0 & -> & Hp & Hx & <-)].
  - apply returns_same; [done|]. left. rewrite Ho. by rewrite E0.
  - rewrite Hp, Hx. apply returns_same; [done|]. left. rewrite Ho, E0, Hg. done.
Qed.

Lemma last_refines : returns w h its (run E OpLast w h) (outcome (from_pool h) OpLast its.*2).
Proof.
  simpl. unfold hashmap_last. rewrite (hi_tail _ _ _ _ _ I).
  assert (forall v, default 0 (snd <$> last its.*2) = v ->
    returns w h its (Some ([v], w, h)) (outcome (from_pool h) OpLast its.*2)) as Hret.
  { intros v <-. apply returns_same; [done|]. by left. }
  clear Hlt. destruct its as [|[p kv] its' _] using rev_ind; [by apply Hret|].
  destruct (entry_at hf cf _ _ _ _ _ _ I) as (Hp0 & x & Hx & _ & E2 & _).
  rewrite fmap_app. simpl. rewrite last_snoc. simpl. rewrite (proj2 (Z.eqb_neq p 0)) by done. rewrite Hx. apply Hret.
  rewrite fmap_app. simpl. by rewrite last_snoc.
Qed.

Lemma size_refines : returns w h its (run E OpSize w h) (outcome (from_pool h) OpSize its.*2).
Proof.
  apply returns_same; [done|]. left. simpl. rewrite length_fmap. unfold hashmap_size. by rewrite (hi_n _ _ _ _ _ I).
Qed.

End Operations.

Section Clearing.
Context (hf : Z -> list Z -> Z) (cf : Z -> Z -> Z) `{!HashLaws hf cf} (E : HashEnv).

Abbreviation hm_inv := (hm_inv hf cf).
Abbreviation returns := (returns hf cf).

(** The head goes. *)
Lemma remove_head_ok hp h p kv its : hm_inv hp h ((p, kv) :: its) ->
  iterate_list_head h = p /\ (p =? 0) = false
  /\ (exists x, hp !! p = Some x /\ key_value x = kv)
  /\ exists hp' h', remove_entry hp h p = Some (hp', h') /\ hm_inv hp' h' its /\ from_pool h' = from_pool h
       /\ frame hp ((p, kv) :: its) hp' its.
Proof.
  intros I. destruct (head_cases hf cf (mkWorld hp None 0) h _ I) as [[? _]|(q & kv' & its' & x & E0 & Hh & Hp & Hx & Ex)]; [done|].
  injection E0 as <- <- <-. split; [done|]. split; [done|]. split; [by exists x|].
  destruct (remove_entry_ok hf cf _ _ [] _ _ _ I) as (hp' & h' & U & I' & S & F).
  exists hp', h'. split_and!; [done|done|apply S|]. by apply (frame_remove _ _ [] p kv its).
Qed.

Lemma clear_loop_ok : forall its n hp h, hm_inv hp h its -> (length its <= n)%nat ->
  exists hp' h', clear_loop n hp h = Some (hp', h') /\ hm_inv hp' h' [] /\ from_pool h' = from_pool h
    /\ frame hp its hp' [].
Proof.
  induction its as [|[p kv] its IH]; intros n hp h I Hn.
  - exists hp, h. pose proof (hi_head _ _ _ _ _ I) as Hh. simpl in Hh.
    split; [by destruct n; simpl; rewrite Hh|]. split_and!; [done|done|apply frame_refl].
  - destruct n as [|n]; [simpl in Hn; lia|]. simpl.
    destruct (remove_head_ok _ _ _ _ _ I) as (-> & -> & _ & hp1 & h1 & -> & I1 & P1 & F1). simpl.
    destruct (IH n hp1 h1 I1) as (hp' & h' & U & I' & P' & F'); [simpl in Hn; lia|].
    exists hp', h'. split_and!; [done|done|congruence|by eapply frame_trans].
Qed.

Lemma clear_free_free_loop_ok : forall its n hp h, hm_inv hp h its -> (length its <= n)%nat ->
  exists hp' h', clear_free_free_loop n hp h = Some (map (fun kv => (kv.2, kv.1)) its.*2, hp', h') /\ hm_inv hp' h' []
    /\ from_pool h' = from_pool h /\ frame hp its hp' [].
Proof.
  induction its as [|[p kv] its IH]; intros n hp h I Hn.
  - exists hp, h. pose proof (hi_head _ _ _ _ _ I) as Hh. simpl in Hh.
    split; [by destruct n; simpl; rewrite Hh|]. split_and!; [done|done|apply frame_refl].
  - destruct n as [|n]; [simpl in Hn; lia|]. simpl.
    destruct (remove_head_ok _ _ _ _ _ I) as (-> & -> & (x & -> & <-) & hp1 & h1 & U1 & I1 & P1 & F1). simpl.
    rewrite U1. simpl. destruct (IH n hp1 h1 I1) as (hp' & h' & -> & I' & P' & F'); [simpl in Hn; lia|].
    exists hp', h'. split_and!; [done|done|congruence|by eapply frame_trans].
Qed.

Lemma clear_free_loop_ok : forall its n w h, hm_inv (w_heap w) h its -> (length its < n)%nat ->
  returns w h its (clear_free_loop n w h) (fun r l' => (r, l') = drain its.*2).
Proof.
  induction its as [|[p kv] its IH]; intros n w h I Hn; (destruct n as [|n]; [lia|]); simpl; unfold hashmap_steal_first, steal.
  - pose proof (hi_head _ _ _ _ _ I) as Hh. simpl in Hh. rewrite Hh. simpl. by apply returns_same.
  - destruct (remove_head_ok _ _ _ _ _ I) as (-> & -> & (x & -> & <-) & hp1 & h1 & -> & I1 & P1 & F1). simpl.
    destruct (he_value x =? 0) eqn:Ev.
    + exists [], (set_heap w hp1), h1, its. done.
    + destruct (IH n (set_heap w hp1) h1 I1) as (r & w' & h' & its' & -> & I' & P' & F' & HQ); [simpl in Hn; lia|].
      exists (he_value x :: r), w', h', its'. split_and!; [done|done|congruence|by eapply frame_trans|].
      exact (f_equal (fun d => (he_value x :: d.1, d.2)) HQ).
Qed.

End Clearing.

Section Refines.
Context (hf : Z -> list Z -> Z) (cf : Z -> Z -> Z) `{!HashLaws hf cf} (E : HashEnv) `{!AllocLaws E}.

Lemma fuel_enough hp h its : hm_inv hf cf hp h its -> (length its < loop_fuel h)%nat.
Proof. intros I. unfold loop_fuel. rewrite (hi_n _ _ _ _ _ I). lia. Qed.

Lemma run_refines o w h its :
  hm_inv hf cf (w_heap w) h its -> Z.of_nat (length its) < max_entries ->
  returns hf cf w h its (run E o w h) (outcome cf E (from_pool h) o its.*2).
Proof.
  intros I Hlt. pose proof (fuel_enough _ _ _ I) as Hf. destruct o.
  - by apply put_refines.
  - by apply replace_refines.
  - by apply update_refines.
  - by apply get_refines.
  - by apply get2_refines.
  - by apply contains_refines.
  - by apply next_refines.
  - by apply remove_refines.
  - by apply remove2_refines.
  - by apply remove_value_refines.
  - by apply remove_and_put_refines.
  - by apply remove_and_replace_refines.
  - destruct (steal_refines hf cf w h its I he_value snd) as (r & w' & h' & its' & U & I' & P & F & -> & Hl); [done|].
    eexists _, w', h', its'. split_and!; [exact U|done|done|done|]. left. by rewrite Hl.
  - destruct (steal_refines hf cf w h its I he_key fst) as (r & w' & h' & its' & U & I' & P & F & -> & Hl); [done|].
    eexists _, w', h', its'. split_and!; [exact U|done|done|done|]. left. by rewrite Hl.
  - by apply (first_refines hf cf E w h its I OpFirst snd).
  - by apply (first_refines hf cf E w h its I OpFirstKey fst).
  - apply last_refines; auto.
  - apply size_refines; auto.
  - destruct (clear_loop_ok hf cf its (loop_fuel h) _ h I) as (hp' & h' & U & I' & P & F); [lia|].
    exists [], (set_heap w hp'), h', []. simpl. unfold hashmap_clear. rewrite U. split_and!; [done|done|done|done|by left].
  - destruct (clear_free_loop_ok hf cf its (S (loop_fuel h)) w h I) as (r & w' & h' & its' & U & I' & P & F & HQ); [lia|].
    exists r, w', h', its'. split_and!; [exact U|done|done|done|by left].
  - destruct (clear_free_free_loop_ok hf cf its (loop_fuel h) _ h I) as (hp' & h' & U & I' & P & F); [lia|].
    eexists _, (set_heap w hp'), h', []. simpl. unfold hashmap_clear_free_free. rewrite U. simpl.
    split_and!; [done|done|done|done|]. left. simpl. by rewrite map_map.
Qed.

End Refines.
