(* ===== verification/HashmapSession.v ===== *)
(** The hash maps as their users see them: a map from its creation on, through any
    sequence of operations, is an association list in the order of insertion; and a
    copy of a map is another map with the same contents. *)
From S2P Require Import Prelude Memory SipHash Hashmap HashmapLists HashmapInv HashmapSteps HashmapSpec.
From S2P Require Import HashmapProofs HashmapRefines.

(** One operation after the other, with their results. *)
Fixpoint run_all (E : HashEnv) (ops : list op) (w : World) (h : Hashmap) : option (list (list Z) * World * Hashmap) :=
  match ops with
  | [] => Some ([], w, h)
  | o :: ops =>
      r ← run E o w h; let '(a, w, h) := r in
      r ← run_all E ops w h; let '(rest, w, h) := r in Some (a :: rest, w, h)
  end.

Section Session.
Context (hf : Z -> list Z -> Z) (cf : Z -> Z -> Z) (E : HashEnv).

(** The results of a sequence of operations on the abstract map. *)
Inductive history (pool : bool) : list op -> list (Z * Z) -> list (list Z) -> list (Z * Z) -> Prop :=
  | history_nil l : history pool [] l [] l
  | history_cons o ops l r l1 rs l' :
      outcome cf E pool o l r l1 -> history pool ops l1 rs l' -> history pool (o :: ops) l (r :: rs) l'.

(** ** The abstract map grows by one entry at most *)

Lemma assoc_del_length k l : (length (assoc_del cf k l) <= length l)%nat.
Proof. apply List.filter_length_le. Qed.

Lemma assoc_set_length k f l : length (assoc_set cf k f l) = length l.
Proof. apply List.length_map. Qed.

Lemma drain_length l : (length (drain l).2 <= length l)%nat.
Proof. induction l as [|kv l IH]; simpl; [lia|]. destruct (kv.2 =? 0); simpl; lia. Qed.

Lemma outcome_length pool o l r l' : outcome cf E pool o l r l' -> (length l' <= S (length l))%nat.
Proof.
  intros [H|(_ & _ & -> & _)]; [|lia]. assert (l' = (spec cf o l).2) as -> by by rewrite <- H. clear H.
  pose proof (fun k => assoc_del_length k l). pose proof (drain_length l).
  assert (length (tail l) <= length l)%nat by (destruct l; simpl; lia).
  destruct o; simpl; repeat case_match; simpl; rewrite ?length_app, ?assoc_set_length; simpl; try lia; auto.
  - pose proof (assoc_del_length old l). lia.
  - pose proof (assoc_del_length old (assoc_del cf new l)). pose proof (assoc_del_length new l). lia.
Qed.

Lemma outcome_pool pool pool' o l r l' : pool = pool' -> outcome cf E pool o l r l' -> outcome cf E pool' o l r l'.
Proof. by intros ->. Qed.

Context `{!HashLaws hf cf} `{!AllocLaws E}.

(** ** From the creation on *)

Lemma hashmap_new_ok w : env_map E = true ->
  exists h w', hashmap_new E (Some hf) (Some cf) w = (Some h, w') /\ w_heap w' = w_heap w
    /\ from_pool h = env_main_thread E /\ hm_inv hf cf (w_heap w') h [].
Proof.
  intros Hm. unfold hashmap_new. rewrite Hm. cbn [negb]. destruct (get_hash_key E true w) as [key w'] eqn:Ek.
  assert (w_heap w' = w_heap w) as Hw by (unfold get_hash_key in Ek; destruct (w_current w); by injection Ek as _ <-).
  eexists _, w'. split; [reflexivity|]. split; [done|]. split; [done|]. split; simpl; try done.
  - split; [split; [constructor|apply not_elem_of_nil]|intros p kv H; by apply elem_of_nil in H|done].
  - exists (fun _ => []). apply (empty_table _ _ 31).
  - intros p kv q kv' H. by apply elem_of_nil in H.
Qed.

Lemma run_all_ok : forall ops w h its, hm_inv hf cf (w_heap w) h its ->
  Z.of_nat (length its + length ops) <= max_entries ->
  returns hf cf w h its (run_all E ops w h) (history (from_pool h) ops its.*2).
Proof.
  induction ops as [|o ops IH]; intros w h its I Hlt; simpl in *.
  - apply returns_same; [done|constructor].
  - destruct (run_refines hf cf E o w h its I) as (r & w1 & h1 & its1 & -> & I1 & P1 & F1 & O1); [lia|]. simpl.
    pose proof (outcome_length _ _ _ _ _ O1) as Hl. rewrite !length_fmap in Hl.
    destruct (IH w1 h1 its1 I1) as (rs & w2 & h2 & its2 & -> & I2 & P2 & F2 & O2); [lia|].
    exists (r :: rs), w2, h2, its2. split_and!; [done|done|congruence|by eapply frame_trans|].
    econstructor; [exact O1|]. by rewrite <- P1.
Qed.

(** ** Copying *)

Lemma other_kept hf' cf' hp its hp' its' other oits :
  hm_inv hf' cf' hp other oits -> frame hp its hp' its' -> (forall a, a ∈ oits.*1 -> a ∉ its.*1) ->
  hm_inv hf' cf' hp' other oits /\ forall a, a ∈ oits.*1 -> a ∉ its'.*1.
Proof.
  intros I F Hd. pose proof (hi_entries _ _ _ _ _ I) as [_ Hkv _].
  assert (forall a, a ∈ oits.*1 -> hp' !! a = hp !! a /\ a ∉ its'.*1) as Ha.
  { intros a Hin. pose proof (Hd a Hin) as Hn. apply address_item in Hin as [kv Hin]. apply Hkv, view_Some in Hin as (x & Hx & _).
    destruct (F a x Hx Hn) as [H1 H2]. by rewrite H1, Hx. }
  split; [|intros a Hin; by apply Ha]. eapply hm_inv_frame; [|exact I]. intros a Hin. by apply Ha.
Qed.

(** What merging entries into a list does. *)
Definition put_all (kvs l : list (Z * Z)) : list (Z * Z) := fold_left (fun l kv => (spec cf (OpPut kv.1 kv.2) l).2) kvs l.

Lemma put_returns w h its k v : hm_inv hf cf (w_heap w) h its -> Z.of_nat (length its) < max_entries ->
  returns hf cf w h its (hashmap_put E k v w h) (fun r l' => outcome cf E (from_pool h) (OpPut k v) its.*2 [r] l').
Proof.
  intros I Hlt. destruct (run_refines hf cf E (OpPut k v) w h its I Hlt) as (r & w' & h' & its' & U & R).
  simpl in U. destruct (hashmap_put E k v w h) as [[[a w1] h1]|]; [|done]. injection U as <- <- <-.
  by exists a, w1, h1, its'.
Qed.

Lemma put_result l k v : let r := (spec cf (OpPut k v) l).1 in r = [0] \/ r = [1] \/ r = [- EEXIST].
Proof. simpl. destruct (assoc_find cf k l) as [kv|]; simpl; [|auto]. destruct (kv.2 =? v); auto. Qed.

Lemma merge_loop_ok hf' cf' other dn : forall rest n w h its,
  hm_inv hf cf (w_heap w) h its -> hm_inv hf' cf' (w_heap w) other (dn ++ rest) ->
  (forall a, a ∈ (dn ++ rest).*1 -> a ∉ its.*1) ->
  Z.of_nat (length its + length rest) <= max_entries -> (length rest <= n)%nat ->
  returns hf cf w h its (merge_loop E n (hd0 rest.*1) w h) (fun r l' =>
    r = 0 /\ l' = put_all rest.*2 its.*2 \/ r = - ENOMEM /\ exists hp, env_entry E (from_pool h) hp = None).
Proof.
  intros rest. revert dn. induction rest as [|[p kv] rest IH]; intros dn n w h its I Io Hd Hlt Hn.
  { destruct n; (apply returns_same; [done|by left]). }
  destruct n as [|n]; [simpl in Hn; lia|].
  remember (put_all ((p, kv) :: rest).*2 its.*2) as L eqn:EL.
  destruct (entry_at _ _ _ _ _ _ _ _ Io) as (Hp0 & x & Hx & Ek & Ev & En & _).
  simpl. rewrite (proj2 (Z.eqb_neq p 0)) by done. rewrite Hx. simpl. rewrite Ek, Ev.
  destruct (put_returns w h its kv.1 kv.2 I) as (r & w1 & h1 & its1 & -> & I1 & P1 & F1 & O1); [simpl in Hlt; lia|]. simpl.
  destruct (other_kept _ _ _ _ _ _ _ _ Io F1 Hd) as [Io1 Hd1].
  pose proof (outcome_length _ _ _ _ _ O1) as Hl. rewrite !length_fmap in Hl.
  destruct O1 as [O1|(_ & [= ->] & _ & Hno)].
  2:{ exists (- ENOMEM), w1, h1, its1. split_and!; [done|done|done|done|]. right. done. }
  assert (((r <? 0) && negb (r =? - EEXIST))%bool = false) as ->.
  { pose proof (put_result its.*2 kv.1 kv.2) as Hr. cbv zeta in Hr. rewrite <- O1 in Hr.
    destruct Hr as [[= ->]|[[= ->]|[= ->]]]; done. }
  destruct (F1 p x Hx (Hd p ltac:(rewrite fmap_app; apply elem_of_app; right; constructor))) as [Hx1 _].
  rewrite Hx1. simpl. rewrite En.
  destruct (IH (dn ++ [(p, kv)]) n w1 h1 its1 I1) as (r2 & w2 & h2 & its2 & U2 & I2 & P2 & F2 & Q2).
  - by rewrite <- (assoc (++)).
  - intros a Ha. apply Hd1. by rewrite <- (assoc (++)) in Ha.
  - simpl in Hlt. lia.
  - simpl in Hn. lia.
  - exists r2, w2, h2, its2. split_and!; [exact U2|done|congruence|by eapply frame_trans|].
    rewrite P1 in Q2. destruct Q2 as [[-> HQ]|HQ]; [left|by right]. split; [done|].
    rewrite HQ, EL. change ((p, kv) :: rest).*2 with (kv :: rest.*2). unfold put_all at 2. cbn [fold_left].
    by rewrite <- O1.
Qed.

(** Entries with keys of their own are put at the end. *)
Lemma put_all_distinct kvs : forall l,
  (forall l1 kv l2, kvs = l1 ++ kv :: l2 -> without cf kv.1 (l ++ l1)) -> put_all kvs l = l ++ kvs.
Proof.
  induction kvs as [|[k v] kvs IH]; intros l Hk; [by rewrite app_nil_r|].
  unfold put_all. cbn [fold_left]. simpl.
  destruct (assoc_absent cf k l (fun kv => kv)) as (-> & _).
  { pose proof (Hk [] (k, v) kvs eq_refl) as H0. by rewrite app_nil_r in H0. }
  change (put_all kvs (l ++ [(k, v)]) = l ++ (k, v) :: kvs). rewrite IH; [by rewrite <- (assoc (++))|].
  intros l1 kv l2 ->. rewrite <- (assoc (++)). simpl. by apply (Hk ((k, v) :: l1) kv l2).
Qed.

Lemma keys_distinct hp h its l1 kv l2 : hm_inv hf cf hp h its -> its.*2 = l1 ++ kv :: l2 -> without cf kv.1 l1.
Proof.
  intros I El. apply fmap_app_inv in El as (i1 & i2' & -> & El & ->). symmetry in El.
  destruct i2' as [|[p kv'] i2]; [done|]. injection El as <- _.
  apply absent_without. pose proof (others_absent hf cf _ _ _ _ _ _ kv'.1 I (cf_refl (hf:=hf) _)) as Hab.
  intros q w Hq. apply (Hab q). apply elem_of_app. by left.
Qed.

End Session.

(** * The theorems *)

(** C16 A hash map is an association list in the order of insertion: whatever operations
    are called on a new map, each returns (no NULL or dangling entry is read, no
    assertion fails, and no loop over a list runs on), with the result of the abstract
    operation - put, replace, update, lookups, removals, renamings, stealing, clearing -
    or, when the allocator fails, with -ENOMEM and an unchanged map. *)
Theorem hashmap_implements_map (hf : Z -> list Z -> Z) (cf : Z -> Z -> Z) (E : HashEnv)
    (HH : HashLaws hf cf) (HA : AllocLaws E) (w : World) (ops : list op) :
  env_map E = true -> Z.of_nat (length ops) <= max_entries ->
  exists h w0 rs w' h' l',
    hashmap_new E (Some hf) (Some cf) w = (Some h, w0)
    /\ run_all E ops w0 h = Some (rs, w', h')
    /\ history cf E (env_main_thread E) ops [] rs l'
    /\ hashmap_size h' = Z.of_nat (length l').
Proof.
  intros Hm Hlt. destruct (hashmap_new_ok hf cf E w Hm) as (h & w0 & Hnew & _ & Hpool & I).
  destruct (run_all_ok hf cf E ops w0 h [] I Hlt) as (rs & w' & h' & its' & Hrun & I' & _ & _ & Hh).
  exists h, w0, rs, w', h', its'.*2. rewrite <- Hpool. split_and!; [done|done|done|].
  unfold hashmap_size. by rewrite (hi_n _ _ _ _ _ I'), length_fmap.
Qed.

(** hashmap_copy makes another map with the same entries in the same order and leaves
    the original as it was; when the allocator fails it returns NULL, and the original is
    as it was as well. *)
Theorem hashmap_copy_correct (hf : Z -> list Z -> Z) (cf : Z -> Z -> Z) (E : HashEnv)
    (HH : HashLaws hf cf) (HA : AllocLaws E) (w : World) (h : Hashmap) (its : list item) :
  env_map E = true -> hm_inv hf cf (w_heap w) h its ->
  exists c w', hashmap_copy E w h = Some (c, w')
    /\ hm_inv hf cf (w_heap w') h its
    /\ match c with
       | Some copy => exists its', hm_inv hf cf (w_heap w') copy its' /\ its'.*2 = its.*2
                        /\ forall a, a ∈ its.*1 -> a ∉ its'.*1
       | None => exists pool hp, env_entry E pool hp = None
       end.
Proof.
  intros Hm I. destruct (hashmap_new_ok hf cf E w Hm) as (copy & w0 & Hnew & Hheap & Hpool & I0).
  assert (hm_inv hf cf (w_heap w0) h its) as Iw by by rewrite Hheap.
  assert (forall a, a ∈ its.*1 -> a ∉ ([] : list item).*1) as Hd by (intros a _; apply not_elem_of_nil).
  unfold hashmap_copy, hashmap_merge. rewrite (hi_hash _ _ _ _ _ I), (hi_compare _ _ _ _ _ I), Hnew, (hi_head _ _ _ _ _ I).
  destruct (merge_loop_ok hf cf E hf cf h [] its (loop_fuel h) w0 copy [] I0 Iw Hd) as (r & w1 & h1 & its1 & -> & I1 & P1 & F1 & Q1).
  { apply (hi_small _ _ _ _ _ I). }
  { pose proof (fuel_enough hf cf _ _ _ I). lia. }
  destruct (other_kept _ _ _ _ _ _ _ _ Iw F1 Hd) as [Iw1 Hd1]. simpl.
  destruct Q1 as [[-> Hl]|[-> Hno]]; simpl.
  - exists (Some h1), w1. split_and!; [done|done|]. exists its1. split_and!; [done| |done].
    rewrite Hl. apply put_all_distinct. intros l1 kv l2 El. simpl. by eapply keys_distinct.
  - destruct (clear_loop_ok hf cf its1 (loop_fuel h1) (w_heap w1) h1 I1) as (hp2 & h2 & U2 & I2 & P2 & F2).
    { pose proof (fuel_enough hf cf _ _ _ I1). lia. }
    unfold hashmap_clear. rewrite U2. simpl. exists None, (set_heap w1 hp2).
    split_and!; [done|by apply (other_kept _ _ _ _ _ _ _ _ Iw1 F2 Hd1)|by exists (from_pool copy)].
Qed.

(** * A map of small integers *)

Definition sample_hash (p : Z) (key : list Z) : Z := p mod 7.
Definition sample_env : HashEnv :=
  mkHashEnv (fun _ hp => Some (Z.max 1 (1 + map_fold (fun p _ acc => Z.max p acc) 0 hp))) (fun _ => true)
    (fun n => [Z.of_nat n]) true true.
Definition sample_world : World := mkWorld ∅ None 0.

#[export] Instance sample_hash_laws : HashLaws sample_hash trivial_compare_func.
Proof.
  assert (forall a b, trivial_compare_func a b = 0 -> a = b) as H.
  { intros a b. unfold trivial_compare_func. destruct (Z.ltb_spec a b); [done|]. destruct (Z.ltb_spec b a); [done|]. lia. }
  split.
  - intros a. unfold trivial_compare_func. by rewrite Z.ltb_irrefl.
  - intros a b E%H. subst b. unfold trivial_compare_func. by rewrite Z.ltb_irrefl.
  - intros a b c E1%H E2%H. subst. unfold trivial_compare_func. by rewrite Z.ltb_irrefl.
  - intros a b key E%H. by subst.
Qed.

Lemma max_address (hp : heap) p x : hp !! p = Some x -> p <= map_fold (fun p _ acc => Z.max p acc) 0 hp.
Proof.
  revert p x. apply (map_fold_weak_ind (fun acc (hp : heap) => forall p x, hp !! p = Some x -> p <= acc)).
  - intros p x H. by rewrite lookup_empty in H.
  - intros i x m r _ IH p y Hp. destruct (decide (p = i)) as [->|Hne]; [lia|].
    rewrite lookup_insert_ne in Hp by done. apply IH in Hp. lia.
Qed.

#[export] Instance sample_alloc_laws : AllocLaws sample_env.
Proof.
  split. intros pool hp p [= <-]. split; [lia|].
  destruct (hp !! _) as [x|] eqn:E; [|done]. apply max_address in E. lia.
Qed.

Definition sample_ops : list op :=
  [OpPut 3 30; OpPut 10 100; OpPut 17 170; OpPut 10 7; OpRemoveAndPut 3 4 40; OpNext 17; OpRemove 10; OpReplace 17 171;
   OpSize; OpClearFreeFree].

Lemma hashmap_implements_map_witness :
  (exists h w0 rs w' h', hashmap_new sample_env (Some sample_hash) (Some trivial_compare_func) sample_world = (Some h, w0)
     /\ run_all sample_env sample_ops w0 h = Some (rs, w', h')
     /\ rs = [[1]; [1]; [1]; [- EEXIST]; [0]; [40]; [100]; [0]; [2]; [171; 17; 40; 4]])
  /\ exists h w0 rs w' h' l',
    hashmap_new sample_env (Some sample_hash) (Some trivial_compare_func) sample_world = (Some h, w0)
    /\ run_all sample_env sample_ops w0 h = Some (rs, w', h')
    /\ history trivial_compare_func sample_env true sample_ops [] rs l'
    /\ hashmap_size h' = Z.of_nat (length l').
Proof.
  split; [|apply (hashmap_implements_map sample_hash trivial_compare_func sample_env _ _ sample_world sample_ops);
           [reflexivity|vm_compute; discriminate]].
  eexists _, _, _, _, _. split; [reflexivity|]. split; [vm_compute; reflexivity|reflexivity].
Defined.

Definition sample_puts : list op := [OpPut 3 30; OpPut 10 100].

Lemma hashmap_copy_correct_witness :
  exists h w0 rs w1 h1 its c w',
    hashmap_new sample_env (Some sample_hash) (Some trivial_compare_func) sample_world = (Some h, w0)
    /\ run_all sample_env sample_puts w0 h = Some (rs, w1, h1)
    /\ hashmap_copy sample_env w1 h1 = Some (c, w')
    /\ hm_inv sample_hash trivial_compare_func (w_heap w') h1 its
    /\ (copy ← c; hashmap_get_strv w' copy) = Some [30; 100].
Proof.
  destruct (hashmap_new_ok sample_hash trivial_compare_func sample_env sample_world eq_refl) as (h & w0 & Hnew & _ & _ & I).
  destruct (run_all_ok sample_hash trivial_compare_func sample_env sample_puts w0 h [] I ltac:(vm_compute; discriminate))
    as (rs & w1 & h1 & its & Hrun & I1 & _).
  destruct (hashmap_copy_correct sample_hash trivial_compare_func sample_env _ _ w1 h1 its eq_refl I1)
    as (c & w' & Hc & I' & _).
  exists h, w0, rs, w1, h1, its, c, w'. split; [exact Hnew|]. split; [exact Hrun|]. split; [exact Hc|]. split; [exact I'|].
  clear - Hnew Hrun Hc. vm_compute in Hnew. injection Hnew as <- <-. vm_compute in Hrun. injection Hrun as _ <- <-.
  vm_compute in Hc. injection Hc as <- <-. vm_compute. reflexivity.
Defined.
