(* ===== verification/RateLimit.v ===== *)
(** src/core/journald-rate-limit.c: the limit on the rate of messages, by pools of
    priorities. *)
From S2P Require Import Prelude.

Definition POOLS_MAX : nat := 5.
Definition DEFAULT_INTERVAL : Z := 30 * 1000000.
Definition DEFAULT_BURST : Z := 1000.

(** By LOG_EMERG (0) to LOG_DEBUG (7) *)
Definition priority_map : list nat := [0; 0; 0; 1; 2; 3; 3; 4]%nat.

Record JournalRateLimitPool := mkPool { pool_begin : Z; pool_num : Z; pool_suppressed : Z }.

Record JournalRateLimit := mkRL {
  rl_interval : Z;
  rl_burst : Z;
  rl_pools : list JournalRateLimitPool }.

Definition pool0 : JournalRateLimitPool := mkPool 0 0 0.

(** [None]: the assertion fails. *)
Definition journal_rate_limit_new (interval burst : Z) : option JournalRateLimit :=
  if (0 <? interval) || (burst =? 0) then
    Some (mkRL (if 0 <? interval then interval else DEFAULT_INTERVAL)
               (if 0 <? burst then burst else DEFAULT_BURST) (replicate POOLS_MAX pool0))
  else None.

Definition u64log2 (n : Z) : Z := if 1 <? n then Z.log2 n else 0.

Definition burst_modulate (burst available : Z) : Z :=
  let k := u64log2 available in
  if k <=? 20 then burst else u32 (burst * u32 (k - 20)) / 4.

(** The conversion of an unsigned to the int that is returned *)
Definition to_int (x : Z) : Z := let x := u32 x in if x <? 2 ^ 31 then x else x - 2 ^ 32.

(** The body of journal_rate_limit_test once the pool is found. *)
Definition pool_test (interval burst ts : Z) (p : JournalRateLimitPool) : Z * JournalRateLimitPool :=
  if pool_begin p <=? 0 then (1, mkPool ts 1 0)
  else if u64 (pool_begin p + interval) <? ts then
    (to_int (1 + pool_suppressed p), mkPool ts 1 0)
  else if pool_num p <=? burst then
    (1, mkPool (pool_begin p) (u32 (pool_num p + 1)) (pool_suppressed p))
  else (0, mkPool (pool_begin p) (pool_num p) (u32 (pool_suppressed p + 1))).

(** [ts]: the monotonic clock; [None]: no rate limiter. *)
Definition journal_rate_limit_test (r : option JournalRateLimit) (priority available ts : Z)
  : Z * option JournalRateLimit :=
  match r with
  | None => (1, None)
  | Some r =>
      if (rl_interval r =? 0) || (rl_burst r =? 0) then (1, Some r) else
      let burst := burst_modulate (rl_burst r) available in
      let k := nth (Z.to_nat priority) priority_map 0%nat in
      let '(v, p) := pool_test (rl_interval r) burst ts (nth k (rl_pools r) pool0) in
      (v, Some (mkRL (rl_interval r) (rl_burst r) (<[k := p]> (rl_pools r))))
  end.

(** * A sequence of messages *)

Record message := mkMsg { msg_priority : Z; msg_available : Z; msg_ts : Z }.

(** The results for a sequence of messages, and the state after it. *)
Fixpoint rate_limit_run (r : option JournalRateLimit) (l : list message) : list Z * option JournalRateLimit :=
  match l with
  | [] => ([], r)
  | m :: l =>
      let '(v, r) := journal_rate_limit_test r (msg_priority m) (msg_available m) (msg_ts m) in
      let '(vs, r) := rate_limit_run r l in (v :: vs, r)
  end.

Definition pool_of (m : message) : nat := nth (Z.to_nat (msg_priority m)) priority_map 0%nat.

(** The messages of pool [k] and what the calls for them returned. *)
Definition in_pool (k : nat) (l : list message) (vs : list Z) : list Z :=
  (filter (fun mv => pool_of mv.1 = k) (zip l vs)).*2.

Fixpoint total (l : list Z) : Z := match l with [] => 0 | v :: l => v + total l end.

Record rl_ok (r : JournalRateLimit) : Prop := mkRlOk {
  rlk_interval : 0 < rl_interval r;
  rlk_burst : 0 < rl_burst r;
  rlk_pools : length (rl_pools r) = POOLS_MAX;
  rlk_fresh : forall k, pool_begin (nth k (rl_pools r) pool0) <= 0 -> pool_suppressed (nth k (rl_pools r) pool0) = 0;
  rlk_suppressed : forall k, 0 <= pool_suppressed (nth k (rl_pools r) pool0) }.

Lemma pool_of_max m : (pool_of m < POOLS_MAX)%nat.
Proof.
  unfold pool_of. set (i := Z.to_nat _). do 8 (destruct i as [|i]; [vm_compute; lia|]).
  rewrite nth_overflow by (simpl; lia). vm_compute; lia.
Qed.

Lemma journal_rate_limit_new_ok interval burst r :
  journal_rate_limit_new interval burst = Some r -> rl_ok r.
Proof.
  unfold journal_rate_limit_new. destruct (_ || _) eqn:E; [|done]. intros [= <-].
  split; cbn [rl_interval rl_burst rl_pools]; unfold DEFAULT_INTERVAL, DEFAULT_BURST.
  - destruct (Z.ltb_spec 0 interval); lia.
  - destruct (Z.ltb_spec 0 burst); lia.
  - done.
  - intros k _. do 6 (destruct k as [|k]; [done|]). done.
  - intros k. do 6 (destruct k as [|k]; [done|]). done.
Qed.

Lemma nth_list_insert (k j : nat) (p : JournalRateLimitPool) l :
  (k < length l)%nat -> nth j (<[k := p]> l) pool0 = if decide (j = k) then p else nth j l pool0.
Proof.
  intros Hk. destruct (decide (j = k)) as [->|Hne].
  - apply nth_lookup_Some. by rewrite list_lookup_insert_eq.
  - rewrite !nth_lookup. by rewrite list_lookup_insert_ne.
Qed.

(** One message: the result and the change of its pool. *)
Lemma pool_test_accounts interval burst ts p :
  (pool_begin p <= 0 -> pool_suppressed p = 0) -> 0 <= pool_suppressed p < 2 ^ 31 - 1 ->
  let '(v, p') := pool_test interval burst ts p in
  v + pool_suppressed p' = 1 + pool_suppressed p /\ 0 <= v /\ 0 <= pool_suppressed p'
  /\ (pool_begin p' <= 0 -> pool_suppressed p' = 0).
Proof.
  intros Hf Hs. unfold pool_test.
  destruct (Z.leb_spec (pool_begin p) 0); [cbn; rewrite Hf by done; lia|].
  destruct (Z.ltb_spec (u64 (pool_begin p + interval)) ts).
  - cbn [pool_suppressed pool_begin]. unfold to_int. rewrite u32_small by (unfold is_u32; lia).
    destruct (Z.ltb_spec (1 + pool_suppressed p) (2 ^ 31)); lia.
  - destruct (Z.leb_spec (pool_num p) burst); cbn [pool_suppressed pool_begin]; [lia|].
    rewrite u32_small by (unfold is_u32; lia). lia.
Qed.

Lemma rate_limit_test_ok r m :
  rl_ok r -> (forall k, pool_suppressed (nth k (rl_pools r) pool0) < 2 ^ 31 - 1) ->
  exists v r', journal_rate_limit_test (Some r) (msg_priority m) (msg_available m) (msg_ts m) = (v, Some r')
    /\ rl_ok r' /\ 0 <= v
    /\ forall k, pool_suppressed (nth k (rl_pools r') pool0) + (if decide (pool_of m = k) then v else 0)
         = pool_suppressed (nth k (rl_pools r) pool0) + (if decide (pool_of m = k) then 1 else 0).
Proof.
  intros [Hi Hb Hp Hf Hs] Hmax. unfold journal_rate_limit_test.
  rewrite (proj2 (Z.eqb_neq (rl_interval r) 0)), (proj2 (Z.eqb_neq (rl_burst r) 0)) by lia. cbn [orb]. cbv zeta.
  fold (pool_of m). set (k0 := pool_of m). pose proof (pool_of_max m) as Hk0. fold k0 in Hk0.
  pose proof (pool_test_accounts (rl_interval r) (burst_modulate (rl_burst r) (msg_available m)) (msg_ts m)
    (nth k0 (rl_pools r) pool0) (Hf k0) (conj (Hs k0) (Hmax k0))) as H.
  destruct (pool_test _ _ _ _) as [v p]. destruct H as (Hv & Hv0 & Hp0 & Hpf).
  eexists _, _. split; [done|]. split; [|split; [done|]].
  - split; cbn [rl_interval rl_burst rl_pools]; [done|done|by rewrite length_insert|..];
      intros k; rewrite nth_list_insert by lia; destruct (decide (k = k0)); auto.
  - intros k. cbn [rl_pools]. rewrite nth_list_insert by lia.
    destruct (decide (k = k0)) as [->|Hne]; [destruct (decide (k0 = k0)); [lia|done]|].
    destruct (decide (k0 = k)); [congruence|lia].
Qed.

(** C26 Every message is accounted for: over any sequence of messages the values
    returned for a pool (1 for a message that passes, plus the number of suppressed
    ones it reports) and the count of the suppressed ones not yet reported add up to
    the number of its messages. *)
Theorem rate_limit_accounts r l k vs r' :
  rl_ok r -> (forall k, pool_suppressed (nth k (rl_pools r) pool0) + Z.of_nat (length l) < 2 ^ 31) ->
  rate_limit_run (Some r) l = (vs, Some r') ->
  total (in_pool k l vs) + pool_suppressed (nth k (rl_pools r') pool0)
  = Z.of_nat (length (filter (fun m => pool_of m = k) l)) + pool_suppressed (nth k (rl_pools r) pool0).
Proof.
  revert r vs. induction l as [|m l IH]; intros r vs Hr Hmax Hrun; cbn [rate_limit_run] in Hrun.
  { injection Hrun as <- <-. done. }
  destruct (rate_limit_test_ok r m Hr) as (v & r1 & Htest & Hr1 & Hv & Hk).
  { intros j. specialize (Hmax j). cbn [length] in Hmax. lia. }
  rewrite Htest in Hrun. destruct (rate_limit_run (Some r1) l) as [vs1 r2] eqn:E. injection Hrun as <- ->.
  assert (forall j, pool_suppressed (nth j (rl_pools r1) pool0) + Z.of_nat (length l) < 2 ^ 31) as Hmax1.
  { intros j. specialize (Hk j). specialize (Hmax j). cbn [length] in Hmax. destruct (decide (pool_of m = j)); lia. }
  specialize (IH r1 vs1 Hr1 Hmax1 E). specialize (Hk k). unfold in_pool in *. cbn [zip zip_with].
  rewrite !filter_cons. destruct (decide (pool_of m = k)) as [Hm|Hm].
  - rewrite (decide_True (P := pool_of (m, v).1 = k)) by done. cbn [fmap list_fmap total snd length]. lia.
  - rewrite (decide_False (P := pool_of (m, v).1 = k)) by done. lia.
Qed.

(** * One interval *)

(** [n] messages to a pool inside its interval: the results, and the pool. *)
Fixpoint pool_run (interval burst : Z) (tss : list Z) (p : JournalRateLimitPool) : list Z * JournalRateLimitPool :=
  match tss with
  | [] => ([], p)
  | ts :: tss =>
      let '(v, p) := pool_test interval burst ts p in
      let '(vs, p) := pool_run interval burst tss p in (v :: vs, p)
  end.

Lemma pool_run_window interval burst tss b num sup :
  0 < b -> b + interval < 2 ^ 64 -> 0 <= interval -> Forall (fun ts => ts <= b + interval) tss ->
  1 <= num -> 0 <= sup -> num + Z.of_nat (length tss) < 2 ^ 32 -> sup + Z.of_nat (length tss) < 2 ^ 32 ->
  pool_run interval burst tss (mkPool b num sup)
  = (let n := Z.to_nat (burst + 1 - num) in
     (replicate (n `min` length tss) 1 ++ replicate (length tss - n) 0,
      mkPool b (num + Z.of_nat (n `min` length tss)) (sup + Z.of_nat (length tss - n)))).
Proof.
  intros Hb Hw Hi Hts. revert num sup. induction Hts as [|ts tss Ht Hts IH]; intros num sup Hn Hs Hln Hls.
  { cbn. rewrite Nat.min_0_r. cbn. f_equal. f_equal; lia. }
  cbn [pool_run]. unfold pool_test. cbn [pool_begin pool_num pool_suppressed length] in *.
  destruct (Z.leb_spec b 0); [lia|]. rewrite u64_small by (unfold is_u64; lia).
  destruct (Z.ltb_spec (b + interval) ts); [lia|].
  destruct (Z.leb_spec num burst).
  - rewrite u32_small by (unfold is_u32; lia). rewrite IH by lia. cbv zeta.
    replace (Z.to_nat (burst + 1 - num)) with (S (Z.to_nat (burst + 1 - (num + 1)))) by lia.
    cbn [Nat.min replicate app Nat.sub]. f_equal. f_equal; lia.
  - rewrite u32_small by (unfold is_u32; lia). rewrite IH by lia. cbv zeta.
    replace (Z.to_nat (burst + 1 - num)) with 0%nat by lia. cbn. rewrite Nat.sub_0_r.
    f_equal. f_equal; lia.
Qed.

Lemma run_one_pool r priority available tss :
  rl_ok r ->
  (rate_limit_run (Some r) (map (mkMsg priority available) tss)).1
  = (pool_run (rl_interval r) (burst_modulate (rl_burst r) available) tss
       (nth (nth (Z.to_nat priority) priority_map 0%nat) (rl_pools r) pool0)).1.
Proof.
  intros [Hi Hb Hp _ _]. destruct r as [interval burst pools]. cbn [rl_interval rl_burst rl_pools] in *.
  set (k := nth _ priority_map _). pose proof (pool_of_max (mkMsg priority available 0)) as Hk. unfold pool_of in Hk. cbn [msg_priority] in Hk. fold k in Hk.
  revert pools Hp. induction tss as [|ts tss IH]; intros pools Hp; [done|].
  cbn [map rate_limit_run pool_run msg_priority msg_available msg_ts journal_rate_limit_test rl_interval rl_burst rl_pools].
  rewrite (proj2 (Z.eqb_neq interval 0)), (proj2 (Z.eqb_neq burst 0)) by lia. cbn [orb]. cbv zeta. fold k.
  destruct (pool_test _ _ _ _) as [v p]. specialize (IH (<[k := p]> pools)).
  rewrite nth_list_insert, decide_True in IH by (done || lia). specialize (IH ltac:(by rewrite length_insert)).
  destruct (rate_limit_run _ _) as [vs r']. destruct (pool_run _ _ tss p) as [vs' p']. cbn [fst] in *. by rewrite IH.
Qed.


(** * Witnesses *)

Definition sample_limit : JournalRateLimit := mkRL 1000 2 (replicate POOLS_MAX pool0).
Definition sample_msgs : list message :=
  [mkMsg 6 0 5; mkMsg 6 0 6; mkMsg 3 0 6; mkMsg 6 0 7; mkMsg 6 0 8; mkMsg 5 0 9; mkMsg 6 0 2000].

Lemma rate_limit_accounts_witness :
  exists vs r', rate_limit_run (Some sample_limit) sample_msgs = (vs, Some r')
    /\ total (in_pool 3 sample_msgs vs) = 6 /\ vs = [1; 1; 1; 1; 0; 0; 3].
Proof.
  eexists _, _. split; [vm_compute; reflexivity|].
  assert (rl_ok sample_limit) as Hok by (by apply (journal_rate_limit_new_ok 1000 2)).
  split; [|reflexivity].
  pose proof (rate_limit_accounts sample_limit sample_msgs 3 _ _ Hok
    ltac:(intros k; do 6 (destruct k as [|k]; [vm_compute; reflexivity|]); vm_compute; reflexivity)
    ltac:(vm_compute; reflexivity)) as H.
  vm_compute in H. exact H.
Defined.

