(* ===== verification/Vacuum.v ===== *)
(** lib/journal-vacuum.c: deleting journal files to stay within the limits.

    The directory, the files in it and the answers of unlink are arguments.  The file
    name an entry keeps is the pointer readdir returned, not a copy: [names] says what
    that pointer reads once the whole directory has been read. *)
From S2P Require Import Prelude CString Memory Uuid.
From Stdlib Require Import Permutation.

Record vacuum_info := mkInfo {
  vi_usage : Z;
  vi_filename : nat;       (* the number of the entry the pointer came from *)
  vi_realtime : Z;
  vi_seqnum_id : list Z;
  vi_seqnum : Z;
  vi_have_seqnum : bool }.

(** What the program learns about a directory entry. *)
Record dirent := mkDirent {
  d_name : list Z;
  d_stat : option (bool * Z * Z);          (* fstatat: regular?, st_blocks, st_mtim in usec *)
  d_journal : option (list Z * Z);         (* journal_file_open on the name: seqnum_id, head_entry_seqnum *)
  d_openat : Z;                            (* openat on it: 0 or errno *)
  d_lseek : Z;                             (* lseek to n_entries: 0 or errno *)
  d_read : list Z;                         (* the bytes read(fd, 8) returns *)
  d_read_errno : Z }.

(** strcmp and memcmp *)
Fixpoint bytes_cmp (a b : list Z) : Z :=
  match a, b with
  | [], [] => 0
  | [], _ => -1
  | _, [] => 1
  | x :: a, y :: b => if x <? y then -1 else if y <? x then 1 else bytes_cmp a b
  end.

Section Vacuum.
Context (names : nat -> list Z).

Definition vacuum_compare (a b : vacuum_info) : Z :=
  if vi_have_seqnum a && vi_have_seqnum b && negb (uuid_equal (vi_seqnum_id a) (vi_seqnum_id b) =? 0) then
    (if vi_seqnum a <? vi_seqnum b then -1
     else if vi_seqnum b <? vi_seqnum a then 1 else 0)
  else if vi_realtime a <? vi_realtime b then -1
  else if vi_realtime b <? vi_realtime a then 1
  else if vi_have_seqnum a && vi_have_seqnum b then bytes_cmp (vi_seqnum_id a) (vi_seqnum_id b)
  else bytes_cmp (names (vi_filename a)) (names (vi_filename b)).

Definition EINVAL : Z := 22.

(** Negative on errors, which the caller does not tell from "empty". *)
Definition journal_file_empty (de : dirent) : Z :=
  if negb (d_openat de =? 0) then - d_openat de
  else if negb (d_lseek de =? 0) then - d_lseek de
  else if negb (length (d_read de) =? 8)%nat then
    (if (length (d_read de) =? 0)%nat then - EINVAL else - d_read_errno de)
  else if le_val (d_read de) =? 0 then 1 else 0.

Definition endswith (s postfix : list Z) : bool :=
  bool_decide (drop (length s - length postfix) s = postfix) && (length postfix <=? length s)%nat.

Definition dot_journal : list Z := [46; 106; 111; 117; 114; 110; 97; 108].
Definition dot_journal_tilde : list Z := dot_journal ++ [126].

(** The loop over the directory.  [unlink]: 0 or an errno for a name. *)
Record scan := mkScan {
  sc_list : list vacuum_info;
  sc_sum : Z;
  sc_freed : Z;
  sc_deleted : list (list Z) }.

Context (unlink : list Z -> Z).

Definition vacuum_entry (i : nat) (de : dirent) (s : scan) : scan :=
  match d_stat de with
  | None => s
  | Some (regular, blocks, mtime) =>
      if negb regular then s else
      let kind :=
        if endswith (d_name de) dot_journal then
          match d_journal de with
          | None => None
          | Some (id, seqnum) => Some (true, id, seqnum)
          end
        else if endswith (d_name de) dot_journal_tilde then Some (false, [], 0)
        else None in
      match kind with
      | None => s
      | Some (have_seqnum, seqnum_id, seqnum) =>
          let usage := u64 (512 * blocks) in
          if negb (journal_file_empty de =? 0) then
            (if unlink (d_name de) =? 0 then
               mkScan (sc_list s) (sc_sum s) (u64 (sc_freed s + usage)) (sc_deleted s ++ [d_name de])
             else s)
          else
            mkScan (sc_list s ++ [mkInfo usage i mtime seqnum_id seqnum have_seqnum])
              (u64 (sc_sum s + usage)) (sc_freed s) (sc_deleted s)
      end
  end.

Fixpoint vacuum_scan (i : nat) (l : list dirent) (s : scan) : scan :=
  match l with [] => s | de :: l => vacuum_scan (S i) l (vacuum_entry i de s) end.

(** [for (i = 0; i < n_list; i++)]: the files deleted, and those left when the loop
    ends. *)
Fixpoint vacuum_loop (max_retention_usec retention_limit max_use : Z) (l : list vacuum_info) (sum freed : Z)
  : list (list Z) * list vacuum_info * Z :=
  match l with
  | [] => ([], [], freed)
  | v :: l' =>
      if ((max_retention_usec <=? 0) || (retention_limit <=? vi_realtime v))
         && ((max_use <=? 0) || (sum <=? max_use))
      then ([], l, freed)
      else
        let name := names (vi_filename v) in
        if unlink name =? 0 then
          let sum := if vi_usage v <? sum then sum - vi_usage v else 0 in
          let '(del, rest, freed) :=
            vacuum_loop max_retention_usec retention_limit max_use l' sum (u64 (freed + vi_usage v)) in
          (name :: del, rest, freed)
        else vacuum_loop max_retention_usec retention_limit max_use l' sum freed
  end.

(** [dir]: the entries up to the end, or an errno of opendir; [readdir_errno]: readdir
    failed after them; [sort]: qsort with vacuum_compare; [oldest_usec] is always
    given.  The result: the return value, the files deleted and [*oldest_usec]. *)
Definition journal_directory_vacuum (now : Z) (dir : list dirent + Z) (readdir_errno : Z)
    (sort : list vacuum_info -> list vacuum_info) (max_use max_retention_usec oldest_usec : Z)
  : Z * list (list Z) * Z :=
  if (max_use <=? 0) && (max_retention_usec <=? 0) then (0, [], oldest_usec) else
  let '(max_retention_usec, retention_limit) :=
    if 0 <? max_retention_usec then
      (if max_retention_usec <? now then (max_retention_usec, now - max_retention_usec) else (0, 0))
    else (max_retention_usec, 0) in
  match dir with
  | inr errno => (- errno, [], oldest_usec)
  | inl l =>
      let s := vacuum_scan 0 l (mkScan [] 0 0 []) in
      if negb (readdir_errno =? 0) then (- readdir_errno, sc_deleted s, oldest_usec) else
      let list := if (0 <? length (sc_list s))%nat then sort (sc_list s) else sc_list s in
      let '(del, rest, _) :=
        vacuum_loop max_retention_usec retention_limit max_use list (sc_sum s) (sc_freed s) in
      (0, sc_deleted s ++ del,
       match rest with
       | v :: _ => if (oldest_usec =? 0) || (vi_realtime v <? oldest_usec) then vi_realtime v else oldest_usec
       | [] => oldest_usec
       end)
  end.
End Vacuum.

(** * What is deleted *)

Fixpoint usage_of (l : list vacuum_info) : Z :=
  match l with [] => 0 | v :: l => vi_usage v + usage_of l end.

Lemma usage_of_perm l l' : Permutation l l' -> usage_of l = usage_of l'.
Proof. induction 1; simpl; lia. Qed.

Lemma usage_of_app l l' : usage_of (l ++ l') = usage_of l + usage_of l'.
Proof. induction l; simpl; lia. Qed.

Definition usages_ok (l : list vacuum_info) : Prop := Forall (fun v => 0 <= vi_usage v) l.

Lemma usage_of_nonneg l : usages_ok l -> 0 <= usage_of l.
Proof. induction 1; simpl; lia. Qed.

Section Deletion.
Context (names : nat -> list Z) (unlink : list Z -> Z).

Lemma vacuum_entry_ok i de s :
  usages_ok (sc_list s) -> sc_sum s = u64 (usage_of (sc_list s)) ->
  usages_ok (sc_list (vacuum_entry unlink i de s))
  /\ sc_sum (vacuum_entry unlink i de s) = u64 (usage_of (sc_list (vacuum_entry unlink i de s))).
Proof.
  intros Hu Hs. unfold vacuum_entry. destruct (d_stat de) as [[[reg blocks] mtime]|]; [|done].
  destruct reg; [|done]. cbn [negb]. destruct (if endswith _ _ then _ else _) as [[[h id] q]|]; [|done].
  destruct (negb _); [by destruct (_ =? 0)|]. cbn [sc_list sc_sum]. split.
  - apply Forall_app. split; [done|]. repeat constructor. cbn. apply u64_range.
  - rewrite usage_of_app, Hs. cbn. unfold u64. by rewrite Zplus_mod_idemp_l, Z.add_0_r, Zplus_mod_idemp_r.
Qed.

Lemma vacuum_scan_ok i l s :
  usages_ok (sc_list s) -> sc_sum s = u64 (usage_of (sc_list s)) ->
  usages_ok (sc_list (vacuum_scan unlink i l s))
  /\ sc_sum (vacuum_scan unlink i l s) = u64 (usage_of (sc_list (vacuum_scan unlink i l s))).
Proof.
  revert i s. induction l as [|de l IH]; intros i s Hu Hs; [done|].
  cbn [vacuum_scan]. destruct (vacuum_entry_ok i de s Hu Hs). by apply IH.
Qed.

(** A file goes when it is too old or too much is used from it on. *)
Definition expendable (max_retention_usec retention_limit max_use : Z) (l : list vacuum_info) : Prop :=
  match l with
  | [] => False
  | v :: _ => (0 < max_retention_usec /\ vi_realtime v < retention_limit)
              \/ (0 < max_use /\ max_use < usage_of l)
  end.

Lemma vacuum_loop_ok ret limit use l freed :
  (forall n, unlink n = 0) -> usages_ok l ->
  exists k freed', (k <= length l)%nat
    /\ vacuum_loop names unlink ret limit use l (usage_of l) freed
       = (map (fun v => names (vi_filename v)) (take k l), drop k l, freed')
    /\ (forall j, (j < k)%nat -> expendable ret limit use (drop j l))
    /\ ~ expendable ret limit use (drop k l).
Proof.
  intros Hun Hu. revert freed. induction Hu as [|v l Hv Hl IH]; intros freed.
  { exists 0%nat, freed. split_and!; [simpl; lia|done|lia|by intros []]. }
  cbn [vacuum_loop]. pose proof (usage_of_nonneg l Hl).
  destruct (_ && _) eqn:E.
  - exists 0%nat, freed. split_and!; [lia|done|lia|]. rewrite drop_0. cbn [expendable].
    apply andb_true_iff in E as [E1 E2]. apply orb_true_iff in E1, E2. rewrite !Z.leb_le in E1, E2. cbn in *. lia.
  - rewrite Hun. cbn [Z.eqb].
    assert ((if vi_usage v <? usage_of (v :: l) then usage_of (v :: l) - vi_usage v else 0) = usage_of l) as ->.
    { cbn [usage_of]. destruct (Z.ltb_spec (vi_usage v) (vi_usage v + usage_of l)); lia. }
    destruct (IH (u64 (freed + vi_usage v))) as (k & freed' & Hk & -> & Hdel & Hstop).
    exists (S k), freed'. split_and!; [simpl; lia|done| |done].
    intros [|j] Hj; [|apply Hdel; lia]. rewrite drop_0. cbn [expendable].
    apply andb_false_iff in E. rewrite !orb_false_iff, !Z.leb_gt in E. cbn in *. lia.
Qed.
End Deletion.

(** A run whose directory can be read, from its scan on. *)
Lemma vacuum_run names unlink sort now l max_use max_retention_usec oldest_usec s files :
  0 < max_use \/ 0 < max_retention_usec -> s = vacuum_scan unlink 0 l (mkScan [] 0 0 []) ->
  (if (0 <? length (sc_list s))%nat then sort (sc_list s) else sc_list s) = files ->
  exists ret limit,
    journal_directory_vacuum names unlink now (inl l) 0 sort max_use max_retention_usec oldest_usec =
      (let '(del, rest, _) := vacuum_loop names unlink ret limit max_use files (sc_sum s) (sc_freed s) in
       (0, sc_deleted s ++ del,
        match rest with
        | v :: _ => if (oldest_usec =? 0) || (vi_realtime v <? oldest_usec) then vi_realtime v else oldest_usec
        | [] => oldest_usec
        end))
    /\ ((ret = max_retention_usec /\ limit = now - max_retention_usec /\ max_retention_usec < now)
        \/ (ret <= 0 /\ (max_retention_usec <= 0 \/ now <= max_retention_usec))).
Proof.
  intros Hany -> Hfiles. unfold journal_directory_vacuum.
  assert ((max_use <=? 0) && (max_retention_usec <=? 0) = false) as ->.
  { apply andb_false_iff. rewrite !Z.leb_gt. lia. }
  destruct (Z.ltb_spec 0 max_retention_usec); [destruct (Z.ltb_spec max_retention_usec now)|]; cbv zeta; cbn [Z.eqb negb];
    rewrite Hfiles; eexists _, _; (split; [reflexivity|]); auto with lia.
Qed.

(** * What the directory says *)

(** A file that vacuuming takes for a journal: a regular one whose name ends in .journal,
    with a header, or in .journal~. *)
Definition is_candidate (de : dirent) : bool :=
  match d_stat de with
  | Some (true, _, _) =>
      if endswith (d_name de) dot_journal then bool_decide (is_Some (d_journal de)) else endswith (d_name de) dot_journal_tilde
  | _ => false
  end.

(** It can be opened and its header counts some entries, or it is too short to have the
    count and errno happens to be 0. *)
Definition holds_entries (de : dirent) : bool :=
  (d_openat de =? 0) && (d_lseek de =? 0)
  && (if (length (d_read de) =? 8)%nat then negb (le_val (d_read de) =? 0)
      else negb (length (d_read de) =? 0)%nat && (d_read_errno de =? 0)).

(** What is known about the [i]-th file of the directory. *)
Definition file_info (i : nat) (de : dirent) : vacuum_info :=
  let '(_, blocks, mtime) := default (false, 0, 0) (d_stat de) in
  if endswith (d_name de) dot_journal
  then let '(id, seqnum) := default ([], 0) (d_journal de) in mkInfo (u64 (512 * blocks)) i mtime id seqnum true
  else mkInfo (u64 (512 * blocks)) i mtime [] 0 false.

(** The files with entries, and the names of the others. *)
Fixpoint full_files (i : nat) (l : list dirent) : list vacuum_info :=
  match l with
  | [] => []
  | de :: l => (if is_candidate de && holds_entries de then [file_info i de] else []) ++ full_files (S i) l
  end.

Definition empty_files (l : list dirent) : list (list Z) :=
  map d_name (List.filter (fun de => is_candidate de && negb (holds_entries de)) l).

Lemma journal_file_empty_spec de : (journal_file_empty de =? 0) = holds_entries de.
Proof.
  unfold journal_file_empty, holds_entries. destruct (Z.eqb_spec (d_openat de) 0) as [E1|]; cbn [negb andb]; [|apply Z.eqb_neq; lia].
  destruct (Z.eqb_spec (d_lseek de) 0) as [E2|]; cbn [negb andb]; [|apply Z.eqb_neq; lia].
  destruct (length (d_read de) =? 8)%nat; cbn [negb]; [by destruct (le_val (d_read de) =? 0)|].
  destruct (length (d_read de) =? 0)%nat; cbn [negb andb]; [done|]. apply Bool.eq_iff_eq_true. rewrite !Z.eqb_eq. lia.
Qed.

Lemma vacuum_entry_spec unlink i de s : (forall n, unlink n = 0) ->
  exists sum freed, vacuum_entry unlink i de s =
    mkScan (sc_list s ++ if is_candidate de && holds_entries de then [file_info i de] else []) sum freed
      (sc_deleted s ++ if is_candidate de && negb (holds_entries de) then [d_name de] else []).
Proof.
  intros Hun. assert (forall b, b = false -> exists sum freed, s =
    mkScan (sc_list s ++ if b && holds_entries de then [file_info i de] else []) sum freed
      (sc_deleted s ++ if b && negb (holds_entries de) then [d_name de] else [])) as Hsame.
  { intros b ->. exists (sc_sum s), (sc_freed s). cbn [andb]. rewrite !app_nil_r. by destruct s. }
  unfold vacuum_entry, is_candidate. destruct (d_stat de) as [[[reg blocks] mtime]|] eqn:Est; [|by apply Hsame].
  destruct reg; cbn [negb]; [|by apply Hsame]. rewrite journal_file_empty_spec, Hun. cbn [Z.eqb].
  destruct (endswith (d_name de) dot_journal) eqn:En.
  - destruct (d_journal de) as [[id seqnum]|] eqn:Ej; [|by apply Hsame]. unfold file_info. rewrite Est, En, Ej.
    destruct (holds_entries de); cbn; eexists _, _; rewrite ?app_nil_r; reflexivity.
  - destruct (endswith (d_name de) dot_journal_tilde); [|by apply Hsame]. unfold file_info. rewrite Est, En.
    destruct (holds_entries de); cbn; eexists _, _; rewrite ?app_nil_r; reflexivity.
Qed.

Lemma vacuum_scan_spec unlink l : (forall n, unlink n = 0) -> forall i s,
  sc_list (vacuum_scan unlink i l s) = sc_list s ++ full_files i l
  /\ sc_deleted (vacuum_scan unlink i l s) = sc_deleted s ++ empty_files l.
Proof.
  intros Hun. unfold empty_files. induction l as [|de l IH]; intros i s; cbn [vacuum_scan full_files List.filter map]; [by rewrite !app_nil_r|].
  destruct (vacuum_entry_spec unlink i de s Hun) as (sum & freed & ->). destruct (IH (S i) (mkScan
    (sc_list s ++ if is_candidate de && holds_entries de then [file_info i de] else []) sum freed
    (sc_deleted s ++ if is_candidate de && negb (holds_entries de) then [d_name de] else []))) as [-> ->].
  cbn [sc_list sc_deleted]. split; rewrite <- app_assoc; [done|]. by destruct (is_candidate de && negb (holds_entries de)).
Qed.

(** * The order of deletion *)

(** vacuum_compare is an order on these files. *)
Definition ordered_files (names : nat -> list Z) (l : list vacuum_info) : Prop :=
  forall a b c, a ∈ l -> b ∈ l -> c ∈ l ->
    vacuum_compare names a b <= 0 -> vacuum_compare names b c <= 0 -> vacuum_compare names a c <= 0.

(** qsort: the same elements, sorted when the comparison is an order. *)
Definition qsorts (names : nat -> list Z) (sort : list vacuum_info -> list vacuum_info) (l : list vacuum_info) : Prop :=
  Permutation l (sort l) /\ (ordered_files names l -> StronglySorted (fun a b => vacuum_compare names a b <= 0) (sort l)).

(** It is one on files of the same origin, by their sequence numbers. *)
Lemma one_origin_ordered names l id :
  Forall (fun v => vi_have_seqnum v = true /\ vi_seqnum_id v = id) l -> uuid_equal id id <> 0 ->
  ordered_files names l /\ forall a b, a ∈ l -> b ∈ l -> vacuum_compare names a b <= 0 <-> vi_seqnum a <= vi_seqnum b.
Proof.
  intros Hl Hid. assert (forall a b, a ∈ l -> b ∈ l -> vacuum_compare names a b <= 0 <-> vi_seqnum a <= vi_seqnum b) as Hcmp.
  { intros a b Ha Hb. destruct (proj1 (Forall_forall _ _) Hl a Ha) as [Ha1 Ha2]. destruct (proj1 (Forall_forall _ _) Hl b Hb) as [Hb1 Hb2].
    unfold vacuum_compare. rewrite Ha1, Hb1, Ha2, Hb2, (proj2 (Z.eqb_neq _ _) Hid). cbn [andb negb]. zcases; lia. }
  split; [|exact Hcmp]. intros a b c Ha Hb Hc. rewrite !Hcmp by done. lia.
Qed.

Lemma ordered_split {A} (R : A -> A -> Prop) k l a b : StronglySorted R l -> a ∈ take k l -> b ∈ drop k l -> R a b.
Proof.
  intros Hs. revert k. induction Hs as [|x l _ IH Hx]; intros k Ha Hb; [by rewrite take_nil in Ha; apply not_elem_of_nil in Ha|].
  destruct k as [|k]; [by apply not_elem_of_nil in Ha|]. cbn [take drop] in *. apply elem_of_cons in Ha as [->|Ha]; [|by eapply IH].
  apply (proj1 (Forall_forall _ _) Hx). rewrite <- (take_drop k l). apply elem_of_app. by right.
Qed.


(** * Witnesses and findings *)

Definition sample_names (i : nat) : list Z := [97 + Z.of_nat i] ++ dot_journal.

(** Three journals of the same origin, of 100, 200 and 300 blocks. *)
Definition sample_dir : list dirent :=
  map (fun i => mkDirent (sample_names i) (Some (true, 100 * Z.of_nat (S i), 1000 + Z.of_nat i))
                  (Some (replicate 16 1, 10 * Z.of_nat (S i))) 0 0 [1; 0; 0; 0; 0; 0; 0; 0] 0) [0; 1; 2]%nat.

(** And an empty one and one that is no journal. *)
Definition sample_more : list dirent :=
  sample_dir ++ [mkDirent (txt "e.journal") (Some (true, 8, 900)) (Some (replicate 16 1, 0)) 0 0 (replicate 8 0) 0;
                 mkDirent (txt "notes") (Some (true, 8, 1)) None 0 0 [] 0].


(** The order qsort is given is no order: files of one origin are compared by their
    sequence numbers and others by time, and three files can be in a cycle. *)
Theorem vacuum_compare_cycle :
  exists a b c, forall names,
    vacuum_compare names a b < 0 /\ vacuum_compare names b c < 0 /\ vacuum_compare names c a < 0.
Proof.
  exists (mkInfo 0 0 30 (replicate 16 1) 1 true), (mkInfo 0 1 10 (replicate 16 1) 2 true),
    (mkInfo 0 2 20 (replicate 16 2) 1 true). intros names. by vm_compute.
Qed.

(** A corrupted file that cannot be opened is deleted as an empty one, whatever the
    limits: the error is taken for "empty". *)
Theorem vacuum_deletes_unreadable names :
  let de := mkDirent ([97] ++ dot_journal_tilde) (Some (true, 8, 1000)) None 13 0 [] 0 in
  (journal_directory_vacuum names (fun _ => 0) 5000 (inl [de]) 0 id (2 ^ 40) 0 0).1.2 = [d_name de].
Proof. by vm_compute. Qed.
