(* ===== verification/JournalDef.v ===== *)
(** lib/journal-def.h and the state of lib/journal-file.h: the layout of a
    journal file, the [JournalFile] handle, and the error and state monad its
    operations run in.

    An [Object *] is the file offset of the object: the windows mmap_cache_get
    hands out show the bytes of the file, so a read through a pointer is a read of
    the file's memory. *)
From S2P Require Import Prelude Memory.

(** * Error codes *)

Definition EPERM := 1.
Definition ENOENT := 2.
Definition EIO := 5.
Definition E2BIG := 7.
Definition ENOMEM := 12.
Definition EFAULT := 14.
Definition EBUSY := 16.
Definition EINVAL := 22.
Definition ENODATA := 61.
Definition EBADMSG := 74.
Definition EPROTONOSUPPORT := 93.
Definition ENOTSUP := 95.
Definition EADDRNOTAVAIL := 99.
Definition ESHUTDOWN := 108.

(** * Object types, flags and states *)

Definition OBJECT_UNUSED := 0.
Definition OBJECT_DATA := 1.
Definition OBJECT_FIELD := 2.
Definition OBJECT_ENTRY := 3.
Definition OBJECT_DATA_HASH_TABLE := 4.
Definition OBJECT_FIELD_HASH_TABLE := 5.
Definition OBJECT_ENTRY_ARRAY := 6.
Definition OBJECT_TYPE_MAX := 7.

Definition OBJECT_COMPRESSED_XZ := 1.
Definition OBJECT_COMPRESSED_LZ4 := 2.
Definition OBJECT_COMPRESSION_MASK := 3.

Definition STATE_OFFLINE := 0.
Definition STATE_ONLINE := 1.
Definition STATE_ARCHIVED := 2.
Definition STATE_MAX := 3.

Definition HEADER_INCOMPATIBLE_COMPRESSED_XZ := 1.
Definition HEADER_INCOMPATIBLE_COMPRESSED_LZ4 := 2.
Definition HEADER_INCOMPATIBLE_ANY := 3.
(** The default build has HAVE_XZ and not HAVE_LZ4. *)
Definition HEADER_INCOMPATIBLE_SUPPORTED := HEADER_INCOMPATIBLE_COMPRESSED_XZ.

(** "LPKSHHRH" *)
Definition HEADER_SIGNATURE : list Z := [76; 80; 75; 83; 72; 72; 82; 72].

(** * Layout: offsets of the packed structs *)

Definition off_signature := 0.
Definition off_compatible_flags := 8.
Definition off_incompatible_flags := 12.
Definition off_state := 16.
Definition off_reserved := 17.
Definition off_file_id := 24.
Definition off_machine_id := 40.
Definition off_boot_id := 56.
Definition off_seqnum_id := 72.
Definition off_header_size := 88.
Definition off_arena_size := 96.
Definition off_data_hash_table_offset := 104.
Definition off_data_hash_table_size := 112.
Definition off_field_hash_table_offset := 120.
Definition off_field_hash_table_size := 128.
Definition off_tail_object_offset := 136.
Definition off_n_objects := 144.
Definition off_n_entries := 152.
Definition off_tail_entry_seqnum := 160.
Definition off_head_entry_seqnum := 168.
Definition off_entry_array_offset := 176.
Definition off_head_entry_realtime := 184.
Definition off_tail_entry_realtime := 192.
Definition off_tail_entry_monotonic := 200.
Definition off_n_data := 208.
Definition off_n_fields := 216.
Definition off_n_tags := 224.
Definition off_n_entry_arrays := 232.
Definition sizeof_Header := 240.

(** struct ObjectHeader *)
Definition obj_type := 0.
Definition obj_flags := 1.
Definition obj_size := 8.
Definition sizeof_ObjectHeader := 16.
(** struct DataObject *)
Definition data_hash := 16.
Definition data_next_hash_offset := 24.
Definition data_next_field_offset := 32.
Definition data_entry_offset := 40.
Definition data_entry_array_offset := 48.
Definition data_n_entries := 56.
Definition data_payload := 64.
(** struct FieldObject *)
Definition field_hash := 16.
Definition field_next_hash_offset := 24.
Definition field_head_data_offset := 32.
Definition field_payload := 40.
(** struct EntryObject *)
Definition entry_seqnum := 16.
Definition entry_realtime := 24.
Definition entry_monotonic := 32.
Definition entry_boot_id := 40.
Definition entry_xor_hash := 56.
Definition entry_items := 64.
(** struct EntryItem, struct HashItem *)
Definition sizeof_EntryItem := 16.
Definition sizeof_HashItem := 16.
(** struct HashTableObject *)
Definition hash_table_items := 16.
(** struct EntryArrayObject *)
Definition entry_array_next := 16.
Definition entry_array_items := 24.

(** ALIGN64, VALID64 and PAGE_ALIGN *)
Definition align_to (l ali : Z) : Z := Z.land (u64 (l + ali - 1)) (u64_max - (ali - 1)).
Definition ALIGN64 (x : Z) : Z := Z.land (u64 (x + 7)) (u64_max - 7).
Definition VALID64 (x : Z) : bool := Z.land x 7 =? 0.

Definition VALID_REALTIME (u : Z) : bool := (0 <? u) && (u <? Z.shiftl 1 55).
Definition VALID_MONOTONIC (u : Z) : bool := u <? Z.shiftl 1 55.

(** * The handle *)

Record JournalMetrics := mkMetrics {
  max_size : Z; min_size : Z; max_use : Z; min_use : Z; keep_free : Z }.

Record ChainCacheItem := mkCCI {
  ci_first : Z;       (* the array at the beginning of the chain *)
  ci_array : Z;       (* the cached array *)
  ci_begin : Z;       (* the first item in the cached array *)
  ci_total : Z;       (* the number of items in all arrays before this one *)
  ci_last_index : Z   (* the last index looked at *) }.

Inductive direction_t := DIRECTION_UP | DIRECTION_DOWN.

#[export] Instance direction_eq_dec : EqDecision direction_t.
Proof. solve_decision. Defined.

(** [jf_mem] and [jf_size] are the file, [jf_last_size] is last_stat.st_size,
    [jf_header] says that the header is mapped, the hash tables are the offsets
    they are mapped from, and the chain cache is the list of the items of the
    hashmap in their insertion order.  [jf_ext_seqnum] is the caller's counter that
    a [uint64_t *seqnum] argument points to. *)
Record JournalFile := mkJF {
  jf_mem : mem;
  jf_size : Z;
  jf_last_size : Z;
  jf_fd : Z;
  jf_header : bool;
  jf_writable : bool;
  jf_compress_xz : bool;
  jf_compress_lz4 : bool;
  jf_tail_entry_monotonic_valid : bool;
  jf_metrics : JournalMetrics;
  jf_chain_cache : list ChainCacheItem;
  jf_data_hash_table : Z;
  jf_field_hash_table : Z;
  jf_ext_seqnum : Z }.

Definition set_mem (f : JournalFile) (m : mem) : JournalFile :=
  mkJF m (jf_size f) (jf_last_size f) (jf_fd f) (jf_header f) (jf_writable f)
    (jf_compress_xz f) (jf_compress_lz4 f) (jf_tail_entry_monotonic_valid f)
    (jf_metrics f) (jf_chain_cache f) (jf_data_hash_table f) (jf_field_hash_table f)
    (jf_ext_seqnum f).
Definition set_sizes (f : JournalFile) (size last : Z) : JournalFile :=
  mkJF (jf_mem f) size last (jf_fd f) (jf_header f) (jf_writable f)
    (jf_compress_xz f) (jf_compress_lz4 f) (jf_tail_entry_monotonic_valid f)
    (jf_metrics f) (jf_chain_cache f) (jf_data_hash_table f) (jf_field_hash_table f)
    (jf_ext_seqnum f).
Definition set_compress (f : JournalFile) (xz lz4 : bool) : JournalFile :=
  mkJF (jf_mem f) (jf_size f) (jf_last_size f) (jf_fd f) (jf_header f) (jf_writable f)
    xz lz4 (jf_tail_entry_monotonic_valid f)
    (jf_metrics f) (jf_chain_cache f) (jf_data_hash_table f) (jf_field_hash_table f)
    (jf_ext_seqnum f).
Definition set_tail_valid (f : JournalFile) (b : bool) : JournalFile :=
  mkJF (jf_mem f) (jf_size f) (jf_last_size f) (jf_fd f) (jf_header f) (jf_writable f)
    (jf_compress_xz f) (jf_compress_lz4 f) b
    (jf_metrics f) (jf_chain_cache f) (jf_data_hash_table f) (jf_field_hash_table f)
    (jf_ext_seqnum f).
Definition set_cache (f : JournalFile) (c : list ChainCacheItem) : JournalFile :=
  mkJF (jf_mem f) (jf_size f) (jf_last_size f) (jf_fd f) (jf_header f) (jf_writable f)
    (jf_compress_xz f) (jf_compress_lz4 f) (jf_tail_entry_monotonic_valid f)
    (jf_metrics f) c (jf_data_hash_table f) (jf_field_hash_table f)
    (jf_ext_seqnum f).
Definition set_tables (f : JournalFile) (d fi : Z) : JournalFile :=
  mkJF (jf_mem f) (jf_size f) (jf_last_size f) (jf_fd f) (jf_header f) (jf_writable f)
    (jf_compress_xz f) (jf_compress_lz4 f) (jf_tail_entry_monotonic_valid f)
    (jf_metrics f) (jf_chain_cache f) d fi
    (jf_ext_seqnum f).

Definition set_ext_seqnum (f : JournalFile) (n : Z) : JournalFile :=
  mkJF (jf_mem f) (jf_size f) (jf_last_size f) (jf_fd f) (jf_header f) (jf_writable f)
    (jf_compress_xz f) (jf_compress_lz4 f) (jf_tail_entry_monotonic_valid f)
    (jf_metrics f) (jf_chain_cache f) (jf_data_hash_table f) (jf_field_hash_table f) n.

(** Header fields *)
Definition hdr (off : Z) (f : JournalFile) : Z := load64 (jf_mem f) off.
Definition hdr_state (f : JournalFile) : Z := byte_at (jf_mem f) off_state.
Definition header_contains (off : Z) (f : JournalFile) : bool :=
  off + 8 <=? hdr off_header_size f.

(** * The environment: what the kernel, liblzma and the configuration answer *)

Record Env := mkEnv {
  env_page_size : Z;
  env_statvfs : option (Z * Z);          (* fstatvfs: f_bfree, f_bsize *)
  env_fallocate : Z -> Z -> Z;           (* posix_fallocate(off, len): 0 or errno *)
  env_fstat : Z;                         (* fstat: 0 or errno *)
  env_mmap : Z -> Z -> Z -> Z;           (* mapping a context at off, size: 0 or errno *)
  env_pwrite : Z -> Z;                   (* pwrite(n): bytes written or -errno *)
  env_compress : list Z -> option (list Z);   (* lzma_stream_buffer_encode *)
  env_decompress : list Z -> option (list Z); (* the lzma decoder *)
  env_now : Z * Z;                       (* dual_timestamp_get: realtime, monotonic *)
  env_garbage : Z                        (* an uninitialised size_t *) }.

(** * The monad *)

(** [Ok]: the call returned; [Err e]: it returned [-e]; [Crash]: an assertion
    fails; [NoFuel]: a loop ran longer than the fuel. *)
Inductive outcome (A : Type) : Type :=
| Ok (a : A)
| Err (e : Z)
| Crash
| NoFuel.
Arguments Ok {A} a.
Arguments Err {A} e.
Arguments Crash {A}.
Arguments NoFuel {A}.

Definition M (A : Type) : Type := JournalFile -> outcome A * JournalFile.

Definition ret {A} (a : A) : M A := fun f => (Ok a, f).
Definition err {A} (e : Z) : M A := fun f => (Err e, f).
Definition crash {A} : M A := fun f => (Crash, f).
Definition nofuel {A} : M A := fun f => (NoFuel, f).
Definition bind {A B} (x : M A) (k : A -> M B) : M B := fun f =>
  match x f with
  | (Ok a, f) => k a f
  | (Err e, f) => (Err e, f)
  | (Crash, f) => (Crash, f)
  | (NoFuel, f) => (NoFuel, f)
  end.
Definition get : M JournalFile := fun f => (Ok f, f).
Definition gets {A} (g : JournalFile -> A) : M A := fun f => (Ok (g f), f).
Definition modify (g : JournalFile -> JournalFile) : M unit := fun f => (Ok tt, g f).

Notation "x <- m ;; k" := (bind m (fun x => k))
  (at level 100, m at next level, right associativity) : journal_scope.
Notation "m ;; k" := (bind m (fun _ => k))
  (at level 100, right associativity) : journal_scope.
Open Scope journal_scope.

(** [assert(c)] *)
Definition assert_ (c : bool) : M unit := if c then ret tt else crash.
(** [if (c) return -e;] *)
Definition fail_if (c : bool) (e : Z) : M unit := if c then err e else ret tt.
Definition when (c : bool) (m : M unit) : M unit := if c then m else ret tt.

(** Reads and writes through pointers *)
Definition rd (a : Z) : M Z := gets (fun f => load64 (jf_mem f) a).
Definition rdb (a : Z) : M Z := gets (fun f => byte_at (jf_mem f) a).
Definition rdbytes (a n : Z) : M (list Z) := gets (fun f => load_bytes (jf_mem f) a (Z.to_nat n)).
Definition wr (a v : Z) : M unit := modify (fun f => set_mem f (store64 (jf_mem f) a v)).
Definition wrb (a v : Z) : M unit := modify (fun f => set_mem f (store8 (jf_mem f) a v)).
Definition wrbytes (a : Z) (l : list Z) : M unit :=
  modify (fun f => set_mem f (store_bytes (jf_mem f) a l)).

(** The monad laws. *)
Lemma bind_ret {A B} (a : A) (k : A -> M B) : bind (ret a) k = k a.
Proof. done. Qed.

Lemma bind_ret_r {A} (m : M A) f : bind m ret f = m f.
Proof. unfold bind. by destruct (m f) as [[] ?]. Qed.

Lemma bind_assoc {A B C} (m : M A) (k : A -> M B) (h : B -> M C) f :
  bind (bind m k) h f = bind m (fun a => bind (k a) h) f.
Proof. unfold bind. by destruct (m f) as [[] ?]. Qed.

(** * Running the monad *)

Lemma run_bind {A B} (m : M A) (k : A -> M B) f a f' :
  m f = (Ok a, f') -> bind m k f = k a f'.
Proof. unfold bind. by intros ->. Qed.

Lemma run_ret {A B} (a : A) (k : A -> M B) f : bind (ret a) k f = k a f.
Proof. done. Qed.
Lemma run_rd {B} a (k : Z -> M B) f : bind (rd a) k f = k (load64 (jf_mem f) a) f.
Proof. done. Qed.
Lemma run_rdb {B} a (k : Z -> M B) f : bind (rdb a) k f = k (byte_at (jf_mem f) a) f.
Proof. done. Qed.
Lemma run_rdbytes {B} a n (k : list Z -> M B) f :
  bind (rdbytes a n) k f = k (load_bytes (jf_mem f) a (Z.to_nat n)) f.
Proof. done. Qed.
Lemma run_gets {A B} (g : JournalFile -> A) (k : A -> M B) f : bind (gets g) k f = k (g f) f.
Proof. done. Qed.
Lemma run_get {B} (k : JournalFile -> M B) f : bind get k f = k f f.
Proof. done. Qed.
Lemma run_modify {B} g (k : unit -> M B) f : bind (modify g) k f = k tt (g f).
Proof. done. Qed.
Lemma run_wr {B} a v (k : unit -> M B) f :
  bind (wr a v) k f = k tt (set_mem f (store64 (jf_mem f) a v)).
Proof. done. Qed.
Lemma run_wrb {B} a v (k : unit -> M B) f :
  bind (wrb a v) k f = k tt (set_mem f (store8 (jf_mem f) a v)).
Proof. done. Qed.
Lemma run_wrbytes {B} a l (k : unit -> M B) f :
  bind (wrbytes a l) k f = k tt (set_mem f (store_bytes (jf_mem f) a l)).
Proof. done. Qed.
Lemma run_assert {B} (c : bool) (k : unit -> M B) f :
  c = true -> bind (assert_ c) k f = k tt f.
Proof. by intros ->. Qed.
Lemma run_fail_if {B} (c : bool) e (k : unit -> M B) f :
  c = false -> bind (fail_if c e) k f = k tt f.
Proof. by intros ->. Qed.
Lemma run_when_false {B} (c : bool) m (k : unit -> M B) f :
  c = false -> bind (when c m) k f = k tt f.
Proof. by intros ->. Qed.

Create Rewrite HintDb run.
#[export] Hint Rewrite @run_ret @run_rd @run_rdb @run_rdbytes @run_get @run_gets @run_modify
  @run_wr @run_wrb @run_wrbytes @bind_assoc : run.

(** One step of a program: a primitive, an assertion that holds or an early
    return that is not taken. *)
Ltac run1 :=
  first
    [ progress autorewrite with run
    | rewrite run_assert by (zdecide; lia)
    | rewrite run_fail_if by (zdecide; lia)
    | rewrite run_when_false by (zdecide; lia) ].
Ltac run := repeat run1.

(** * Valid objects *)

(** The kernel maps what it is asked to. *)
Definition mmap_ok (e : Env) : Prop := forall c o s, env_mmap e c o s = 0.
