(* ===== verification/Numbers.v ===== *)
(** shared/util.c: the parsers of numbers, with the strtoul family of the standard
    library they call with base 0 (decimal, 0x hexadecimal, 0 octal). *)
From S2P Require Import Prelude CString Escape JournalDef.

Definition ERANGE := 34.

(** * The standard library *)

Definition is_space (c : Z) : bool := (c =? 32) || ((9 <=? c) && (c <=? 13)).

Fixpoint skip_spaces (s : list Z) : list Z :=
  match s with
  | c :: s' => if is_space c then skip_spaces s' else s
  | [] => []
  end.

(** The digits of a base up to 16 at the head of a string: their value from [v] on,
    whether there is one, and the rest. *)
Fixpoint scan_base (base : Z) (s : list Z) (v : Z) (some : bool) : Z * bool * list Z :=
  match s with
  | c :: s' =>
      let d := unhexchar c in
      if (0 <=? d) && (d <? base) then scan_base base s' (v * base + d) true else (v, some, s)
  | [] => (v, some, [])
  end.

(** The prefix that chooses the base; "0x" only before a hexadecimal digit. *)
Definition base_of (s : list Z) : Z * list Z :=
  match s with
  | c :: s' =>
      if c =? 48 then
        match s' with
        | x :: d :: _ => if ((x =? 120) || (x =? 88)) && (0 <=? unhexchar d) then (16, drop 1 s') else (8, s)
        | _ => (8, s)
        end
      else (10, s)
  | [] => (10, s)
  end.

(** [None]: no number.  Otherwise the sign, the absolute value, and what follows. *)
Definition strtox (s : list Z) : option (bool * Z * list Z) :=
  let s := skip_spaces (cstring s) in
  let '(negative, s) := match s with
    | c :: s' => if c =? 45 then (true, s') else if c =? 43 then (false, s') else (false, s)
    | [] => (false, s) end in
  let '(base, s) := base_of s in
  match scan_base base s 0 false with
  | (v, true, rest) => Some (negative, v, rest)
  | _ => None
  end.

(** * The parsers: a value or an errno *)

(** strtoull: a value that does not fit is ERANGE, a minus sign negates modulo 2^64. *)
Definition safe_atollu (s : list Z) : Z + Z :=
  match strtox s with
  | Some (negative, v, []) => if u64_max <? v then inr ERANGE else inl (if (negative : bool) then u64 (- v) else v)
  | Some (_, v, _) => inr (if u64_max <? v then ERANGE else EINVAL)
  | None => inr EINVAL
  end.

Definition strtol_range (v : Z) : bool := (v <? - 2 ^ 63) || (2 ^ 63 - 1 <? v).

Definition safe_atolli (s : list Z) : Z + Z :=
  match strtox s with
  | Some (negative, v, rest) =>
      let v := if (negative : bool) then - v else v in
      if strtol_range v then inr ERANGE else match rest with [] => inl v | _ => inr EINVAL end
  | None => inr EINVAL
  end.

(** long and unsigned long have 64 bits *)
Definition safe_atolu := safe_atollu.
Definition safe_atoli := safe_atolli.
Definition safe_atou64 := safe_atollu.
Definition safe_atoi64 := safe_atolli.

Definition safe_atou (s : list Z) : Z + Z :=
  match safe_atollu s with
  | inl l => if negb (u32 l =? l) then inr ERANGE else inl (u32 l)
  | inr e => inr e
  end.

(** [(int) l] *)
Definition int32 (l : Z) : Z := let x := u32 l in if x <? 2 ^ 31 then x else x - 2 ^ 32.

Definition safe_atoi (s : list Z) : Z + Z :=
  match safe_atolli s with
  | inl l => if negb (int32 l =? l) then inr ERANGE else inl (int32 l)
  | inr e => inr e
  end.

Definition safe_atou32 := safe_atou.
Definition safe_atoi32 := safe_atoi.

(** pid_t is a 32-bit int; the comparison extends its sign to unsigned long. *)
Definition parse_pid (s : list Z) : Z + Z :=
  match safe_atolu s with
  | inl ul =>
      let pid := int32 ul in
      if negb (u64 pid =? ul) then inr ERANGE else
      if pid <=? 0 then inr ERANGE else inl pid
  | inr e => inr e
  end.

(** uid_t is unsigned *)
Definition parse_uid (s : list Z) : Z + Z :=
  match safe_atolu s with
  | inl ul => if negb (u32 ul =? ul) then inr ERANGE else inl (u32 ul)
  | inr e => inr e
  end.

(** * Decimal notation is read back *)

Lemma cstring_plain s : Forall (fun c => c <> 0) s -> cstring s = s.
Proof. induction 1 as [|c s Hc _ IH]; [done|]. simpl. rewrite (proj2 (Z.eqb_neq _ _)) by done. by f_equal. Qed.

Lemma unhexchar_digit c : is_digit c = true -> unhexchar c = c - 48.
Proof. intros H. unfold unhexchar. by rewrite H. Qed.

Lemma scan_digits_ok s v b : forallb is_digit s = true -> scan_base 10 s v b = (digits_from v s, b || negb (Nat.eqb (length s) 0), []).
Proof.
  revert v b. induction s as [|c s IH]; intros v b; simpl; [by rewrite orb_false_r|].
  intros [Hc Hs]%andb_true_iff. rewrite unhexchar_digit by done. unfold is_digit in Hc. bprop.
  rewrite (proj2 (Z.leb_le _ _)), (proj2 (Z.ltb_lt _ _)) by lia. simpl. rewrite IH by done. by rewrite orb_true_r.
Qed.

Lemma decimal_head n v : 0 < v < 10 ^ Z.of_nat n -> exists c s, decimal n v = c :: s /\ 49 <= c <= 57.
Proof.
  revert v. induction n as [|n IH]; intros v Hv; [simpl in Hv; lia|]. simpl.
  destruct (Z.ltb_spec v 10); [do 2 eexists; split; [done|lia]|].
  rewrite Nat2Z.inj_succ, Z.pow_succ_r in Hv by lia.
  destruct (IH (v / 10)) as (c & s & -> & Hc); [mlia|]. simpl. by do 2 eexists.
Qed.

(** strtox on the decimal notation of a number. *)
Lemma strtox_decimal n v : 0 <= v < 10 ^ Z.of_nat n -> (0 < n)%nat -> strtox (decimal n v) = Some (false, v, []).
Proof.
  intros Hv Hn. destruct (decide (v = 0)) as [->|H0]; [destruct n; [lia|reflexivity]|].
  destruct (decimal_ok n v Hv) as (Hd & Hval & Hc). destruct (decimal_head n v) as (c & s & E & Hr); [lia|].
  unfold strtox. rewrite Hc. rewrite E in *. cbn [skip_spaces]. unfold is_space.
  replace ((c =? 32) || ((9 <=? c) && (c <=? 13))) with false by (symmetry; zdecide; lia).
  rewrite (proj2 (Z.eqb_neq c 45)), (proj2 (Z.eqb_neq c 43)) by lia. unfold base_of.
  rewrite (proj2 (Z.eqb_neq c 48)) by lia. rewrite scan_digits_ok by done. by rewrite Hval.
Qed.

Lemma int32_small x : - 2 ^ 31 <= x < 2 ^ 31 -> int32 x = x.
Proof. intros H. unfold int32, u32. zcases; mlia. Qed.

Lemma int32_range x : - 2 ^ 31 <= int32 x < 2 ^ 31.
Proof. unfold int32. pose proof (u32_range x) as H. unfold is_u32 in H. zcases; lia. Qed.

(** The parsers of numbers read the decimal notation of every number of their type
    back as that number and refuse, with -ERANGE, the numbers that do not fit: 64 bits
    for safe_atou64, unsigned int for safe_atou and uid_t for parse_uid, int for
    safe_atoi, and positive ints for parse_pid. *)
Theorem parsers_read_decimal (n : Z) :
  0 <= n < 10 ^ 30 ->
  let s := decimal 30 n in
  safe_atou64 s = (if n <? 2 ^ 64 then inl n else inr ERANGE)
  /\ safe_atou s = (if n <? 2 ^ 32 then inl n else inr ERANGE)
  /\ safe_atoi s = (if n <? 2 ^ 31 then inl n else inr ERANGE)
  /\ parse_uid s = (if n <? 2 ^ 32 then inl n else inr ERANGE)
  /\ parse_pid s = (if (0 <? n) && (n <? 2 ^ 31) then inl n else inr ERANGE).
Proof.
  intros Hn s. assert (strtox s = Some (false, n, [])) as Hs by (apply strtox_decimal; lia).
  assert (safe_atollu s = if n <? 2 ^ 64 then inl n else inr ERANGE) as H1.
  { unfold safe_atollu. rewrite Hs. unfold u64_max. zcases; try lia; done. }
  assert (safe_atolli s = if n <? 2 ^ 63 then inl n else inr ERANGE) as H2.
  { unfold safe_atolli, strtol_range. rewrite Hs. zcases; try lia; done. }
  assert (forall x, is_u64 x -> u32 x = x <-> x < 2 ^ 32) as Hu by (unfold is_u64, u32; intros; split; mlia).
  split; [exact H1|]. split; [|split; [|split]].
  - unfold safe_atou. rewrite H1. destruct (Z.ltb_spec n (2 ^ 64)); [|zcases; [lia|done]].
    destruct (Z.eqb_spec (u32 n) n) as [E|E]; simpl; rewrite Hu in E by (unfold is_u64; lia); zcases; try lia; try done.
    f_equal. apply Hu; [unfold is_u64; lia|done].
  - unfold safe_atoi. rewrite H2. destruct (Z.ltb_spec n (2 ^ 63)); [|zcases; [lia|done]].
    destruct (Z.ltb_spec n (2 ^ 31)).
    + by rewrite int32_small, Z.eqb_refl by lia.
    + pose proof (int32_range n). rewrite (proj2 (Z.eqb_neq _ _)) by lia. done.
  - unfold parse_uid, safe_atolu. rewrite H1. destruct (Z.ltb_spec n (2 ^ 64)); [|zcases; [lia|done]].
    destruct (Z.eqb_spec (u32 n) n) as [E|E]; simpl; rewrite Hu in E by (unfold is_u64; lia); zcases; try lia; try done.
    f_equal. apply Hu; [unfold is_u64; lia|done].
  - unfold parse_pid, safe_atolu. rewrite H1. destruct (Z.ltb_spec n (2 ^ 64)); [|rewrite (proj2 (Z.ltb_ge n (2 ^ 31))) by lia; by rewrite andb_false_r].
    destruct (Z.ltb_spec n (2 ^ 31)).
    + rewrite int32_small, u64_small, Z.eqb_refl by (unfold is_u64; lia). simpl. zcases; try lia; done.
    + rewrite andb_false_r. destruct (Z.eqb_spec (u64 (int32 n)) n) as [E|E]; [|done]. simpl.
      pose proof (int32_range n). destruct (Z.leb_spec (int32 n) 0); [done|].
      rewrite u64_small in E by (unfold is_u64; lia). lia.
Qed.

Lemma parsers_read_decimal_witness :
  safe_atou (decimal 30 4294967295) = inl 4294967295 /\ parse_pid (decimal 30 4294967295) = inr ERANGE
  /\ safe_atou [48; 120; 102; 102; 0] = inl 255 /\ safe_atou64 [45; 49] = inl u64_max.
Proof.
  assert (0 <= 4294967295 < 10 ^ 30) as H by lia.
  destruct (parsers_read_decimal 4294967295 H) as (_ & H1 & _ & _ & H2).
  split; [exact H1|]. split; [exact H2|]. split; reflexivity.
Defined.
