(* ===== verification/JournalFile.v ===== *)
(** lib/journal-file.c, the writing half: opening checks, allocation, objects,
    the hash tables of data and field objects, the entry arrays and
    journal_file_append_entry. *)
From S2P Require Import Prelude Lookup3 Memory JournalDef.

Definition JOURNAL_FILE_SIZE_MIN := 4194304.
Definition DEFAULT_DATA_HASH_TABLE_SIZE := 2047 * sizeof_HashItem.
Definition DEFAULT_FIELD_HASH_TABLE_SIZE := 333 * sizeof_HashItem.
Definition COMPRESSION_SIZE_THRESHOLD := 512.
Definition FILE_SIZE_INCREASE := 8388608.
Definition HEADER_SIZE_MIN := ALIGN64 off_n_data.

(** One context for each type, plus one catch-all for the rest. *)
Definition type_to_context (type : Z) : Z :=
  if (0 <? type) && (type <? OBJECT_TYPE_MAX) then type else 0.

Section Ops.
Context (e : Env) (fuel : nat).

Definition PAGE_ALIGN (l : Z) : Z := align_to l (env_page_size e).

(** ** State of the file *)

Definition journal_file_set_online : M unit :=
  f <- get ;;
  fail_if (negb (jf_writable f)) EPERM ;;
  fail_if (negb ((0 <=? jf_fd f) && jf_header f)) EINVAL ;;
  let st := hdr_state f in
  if st =? STATE_ONLINE then ret tt
  else if st =? STATE_OFFLINE then wrb off_state STATE_ONLINE
  else err EINVAL.

Definition journal_file_set_offline : M unit :=
  f <- get ;;
  fail_if (negb (jf_writable f)) EPERM ;;
  fail_if (negb ((0 <=? jf_fd f) && jf_header f)) EINVAL ;;
  if negb (hdr_state f =? STATE_ONLINE) then ret tt
  else wrb off_state STATE_OFFLINE.

(** [file_id] is what uuid_gen_rand produced, [template] the template file. *)
Definition journal_file_init_header (file_id : list Z) (template : option JournalFile)
  : M unit :=
  f <- get ;;
  let m := memzero (jf_mem f) 0 sizeof_Header in
  let m := store_bytes m off_signature HEADER_SIGNATURE in
  let m := store64 m off_header_size (ALIGN64 sizeof_Header) in
  let m := store32 m off_incompatible_flags
    (Z.lor (if jf_compress_xz f then HEADER_INCOMPATIBLE_COMPRESSED_XZ else 0)
           (if jf_compress_lz4 f then HEADER_INCOMPATIBLE_COMPRESSED_LZ4 else 0)) in
  let m := store32 m off_compatible_flags 0 in
  let m := store_bytes m off_file_id file_id in
  let m := match template with
    | Some t =>
        store64 (store_bytes m off_seqnum_id (load_bytes (jf_mem t) off_seqnum_id 16))
          off_tail_entry_seqnum (hdr off_tail_entry_seqnum t)
    | None => store_bytes m off_seqnum_id file_id
    end in
  let k := env_pwrite e sizeof_Header in
  fail_if (k <? 0) (- k) ;;
  modify (fun f => set_sizes
    (set_mem f (store_bytes (jf_mem f) 0 (load_bytes m 0 (Z.to_nat k))))
    (Z.max (jf_size f) k) (jf_last_size f)) ;;
  fail_if (negb (k =? sizeof_Header)) EIO.

(** [boot] is the result of boot_get_id. *)
Definition journal_file_refresh_header (boot : outcome (list Z)) : M unit := fun f =>
  match boot with
  | Ok boot_id =>
      let f := if bool_decide (boot_id = load_bytes (jf_mem f) off_boot_id 16)
               then set_tail_valid f true else f in
      let f := set_mem f (store_bytes (jf_mem f) off_boot_id boot_id) in
      (* the result of set_online is not looked at *)
      (Ok tt, (journal_file_set_online f).2)
  | Err e => (Err e, f)
  | Crash => (Crash, f)
  | NoFuel => (NoFuel, f)
  end.

Definition journal_file_verify_header : M unit :=
  f <- get ;;
  fail_if (negb (bool_decide (load_bytes (jf_mem f) off_signature 8 = HEADER_SIGNATURE))) EBADMSG ;;
  let flags := load32 (jf_mem f) off_incompatible_flags in
  fail_if (negb (Z.land flags (4294967295 - HEADER_INCOMPATIBLE_SUPPORTED) =? 0)) EPROTONOSUPPORT ;;
  fail_if (jf_writable f && negb (load32 (jf_mem f) off_compatible_flags =? 0)) EPROTONOSUPPORT ;;
  let st := hdr_state f in
  fail_if (STATE_MAX <=? st) EBADMSG ;;
  fail_if (hdr off_header_size f <? HEADER_SIZE_MIN) EBADMSG ;;
  fail_if (negb (header_contains off_n_entry_arrays f)) EBADMSG ;;
  let e1 := u64 (hdr off_header_size f + hdr off_arena_size f) in
  fail_if (jf_last_size f <? e1) ENODATA ;;
  fail_if (e1 <? hdr off_tail_object_offset f) ENODATA ;;
  fail_if (negb (VALID64 (hdr off_data_hash_table_offset f))
           || negb (VALID64 (hdr off_field_hash_table_offset f))
           || negb (VALID64 (hdr off_tail_object_offset f))
           || negb (VALID64 (hdr off_entry_array_offset f))) ENODATA ;;
  when (jf_writable f)
    (if st =? STATE_ONLINE then err EBUSY
     else if st =? STATE_ARCHIVED then err ESHUTDOWN
     else if negb (st =? STATE_OFFLINE) then err EBUSY
     else ret tt) ;;
  modify (fun f => set_compress f
    (negb (Z.land flags HEADER_INCOMPATIBLE_COMPRESSED_XZ =? 0))
    (negb (Z.land flags HEADER_INCOMPATIBLE_COMPRESSED_LZ4 =? 0))).

(** ** Allocation and objects *)

Definition journal_file_allocate (offset size : Z) : M unit :=
  f <- get ;;
  let old_size := u64 (hdr off_header_size f + hdr off_arena_size f) in
  let new_size := PAGE_ALIGN (u64 (offset + size)) in
  let new_size := if new_size <? hdr off_header_size f then hdr off_header_size f else new_size in
  if new_size <=? old_size then ret tt else
  let max := max_size (jf_metrics f) in
  fail_if ((0 <? max) && (max <? new_size)) E2BIG ;;
  when ((min_size (jf_metrics f) <? new_size) && (0 <? keep_free (jf_metrics f)))
    match env_statvfs e with
    | None => ret tt
    | Some (bfree, bsize) =>
        let available := u64 (bfree * bsize) in
        let available := if keep_free (jf_metrics f) <=? available
                         then available - keep_free (jf_metrics f) else 0 in
        fail_if (available <? new_size - old_size) E2BIG
    end ;;
  let new_size := u64 (u64 (new_size + FILE_SIZE_INCREASE - 1) / FILE_SIZE_INCREASE
                       * FILE_SIZE_INCREASE) in
  let new_size := if (0 <? max) && (max <? new_size) then max else new_size in
  let r := env_fallocate e old_size (u64 (new_size - old_size)) in
  fail_if (negb (r =? 0)) r ;;
  modify (fun f => set_sizes f (Z.max (jf_size f) (old_size + u64 (new_size - old_size))) (jf_last_size f)) ;;
  fail_if (negb (env_fstat e =? 0)) (env_fstat e) ;;
  modify (fun f => set_sizes f (jf_size f) (jf_size f)) ;;
  wr off_arena_size (u64 (new_size - hdr off_header_size f)).

Definition journal_file_move_to (context offset size : Z) : M Z :=
  fail_if (size <=? 0) EINVAL ;;
  f <- get ;;
  when (jf_last_size f <? u64 (offset + size))
    (fail_if (negb (env_fstat e =? 0)) EADDRNOTAVAIL ;;
     modify (fun f => set_sizes f (jf_size f) (jf_size f)) ;;
     fail_if (jf_size f <? u64 (offset + size)) EADDRNOTAVAIL) ;;
  let r := env_mmap e context offset size in
  fail_if (negb (r =? 0)) r ;;
  ret offset.

Definition minimum_header_size (type : Z) : Z :=
  match type with
  | 1 => data_payload
  | 2 => field_payload
  | 3 => entry_items
  | 4 => hash_table_items
  | 5 => hash_table_items
  | 6 => entry_array_items
  | _ => sizeof_ObjectHeader
  end.

(** [type] is 0 or -1 when any type will do. *)
Definition journal_file_move_to_object (type offset : Z) : M Z :=
  fail_if (negb (VALID64 offset)) EFAULT ;;
  o <- journal_file_move_to (type_to_context type) offset sizeof_ObjectHeader ;;
  s <- rd (o + obj_size) ;;
  t <- rdb (o + obj_type) ;;
  fail_if (s <? sizeof_ObjectHeader) EBADMSG ;;
  fail_if (t <=? OBJECT_UNUSED) EBADMSG ;;
  fail_if (s <? minimum_header_size t) EBADMSG ;;
  fail_if ((0 <? type) && negb (t =? type)) EBADMSG ;;
  if sizeof_ObjectHeader <? s then journal_file_move_to t offset s else ret o.

(** [seqnum]: the caller passed a counter. *)
Definition journal_file_entry_seqnum (seqnum : bool) : M Z :=
  t <- rd off_tail_entry_seqnum ;;
  c <- gets jf_ext_seqnum ;;
  let r := u64 (t + 1) in
  let r := if seqnum && (r <? u64 (c + 1)) then u64 (c + 1) else r in
  when seqnum (modify (fun f => set_ext_seqnum f r)) ;;
  wr off_tail_entry_seqnum r ;;
  h <- rd off_head_entry_seqnum ;;
  when (h =? 0) (wr off_head_entry_seqnum r) ;;
  ret r.

Definition journal_file_append_object (type size : Z) : M Z :=
  assert_ ((0 <? type) && (type <? OBJECT_TYPE_MAX)) ;;
  assert_ (sizeof_ObjectHeader <=? size) ;;
  journal_file_set_online ;;
  t <- rd off_tail_object_offset ;;
  p <- (if t =? 0 then rd off_header_size
        else (o <- journal_file_move_to_object (-1) t ;;
              s <- rd (o + obj_size) ;;
              ret (u64 (t + ALIGN64 s)))) ;;
  journal_file_allocate p size ;;
  o <- journal_file_move_to type p size ;;
  modify (fun f => set_mem f (memzero (jf_mem f) o sizeof_ObjectHeader)) ;;
  wrb (o + obj_type) type ;;
  wr (o + obj_size) size ;;
  wr off_tail_object_offset p ;;
  n <- rd off_n_objects ;;
  wr off_n_objects (u64 (n + 1)) ;;
  ret p.

(** ** Hash tables *)

Definition journal_file_setup_data_hash_table : M unit :=
  f <- get ;;
  let s := u64 (u64 (max_size (jf_metrics f) * 4) / 768 / 3 * sizeof_HashItem) in
  let s := if s <? DEFAULT_DATA_HASH_TABLE_SIZE then DEFAULT_DATA_HASH_TABLE_SIZE else s in
  p <- journal_file_append_object OBJECT_DATA_HASH_TABLE (hash_table_items + s) ;;
  modify (fun f => set_mem f (memzero (jf_mem f) (p + hash_table_items) s)) ;;
  wr off_data_hash_table_offset (p + hash_table_items) ;;
  wr off_data_hash_table_size s.

Definition journal_file_setup_field_hash_table : M unit :=
  let s := DEFAULT_FIELD_HASH_TABLE_SIZE in
  p <- journal_file_append_object OBJECT_FIELD_HASH_TABLE (hash_table_items + s) ;;
  modify (fun f => set_mem f (memzero (jf_mem f) (p + hash_table_items) s)) ;;
  wr off_field_hash_table_offset (p + hash_table_items) ;;
  wr off_field_hash_table_size s.

Definition journal_file_map_data_hash_table : M unit :=
  p <- rd off_data_hash_table_offset ;;
  s <- rd off_data_hash_table_size ;;
  t <- journal_file_move_to OBJECT_DATA_HASH_TABLE p s ;;
  modify (fun f => set_tables f t (jf_field_hash_table f)).

Definition journal_file_map_field_hash_table : M unit :=
  p <- rd off_field_hash_table_offset ;;
  s <- rd off_field_hash_table_size ;;
  t <- journal_file_move_to OBJECT_FIELD_HASH_TABLE p s ;;
  modify (fun f => set_tables f (jf_data_hash_table f) t).

(** [hash % (size / sizeof(HashItem))]; a table smaller than one item divides by
    zero. *)
Definition bucket (hash size : Z) : M Z :=
  assert_ (negb (size / sizeof_HashItem =? 0)) ;;
  ret (hash mod (size / sizeof_HashItem)).

Definition head_hash_offset (table h : Z) : Z := table + sizeof_HashItem * h.
Definition tail_hash_offset (table h : Z) : Z := table + sizeof_HashItem * h + 8.

Definition journal_file_link_field (o offset hash : Z) : M unit :=
  assert_ (0 <? offset) ;;
  t <- rdb (o + obj_type) ;;
  fail_if (negb (t =? OBJECT_FIELD)) EINVAL ;;
  wr (o + field_head_data_offset) 0 ;;
  wr (o + field_next_hash_offset) 0 ;;
  size <- rd off_field_hash_table_size ;;
  h <- bucket hash size ;;
  table <- gets jf_field_hash_table ;;
  p <- rd (tail_hash_offset table h) ;;
  (if p =? 0 then wr (head_hash_offset table h) offset
   else (o <- journal_file_move_to_object OBJECT_FIELD p ;;
         wr (o + field_next_hash_offset) offset)) ;;
  wr (tail_hash_offset table h) offset ;;
  c <- gets (header_contains off_n_fields) ;;
  n <- rd off_n_fields ;;
  when c (wr off_n_fields (u64 (n + 1))).

Definition journal_file_link_data (o offset hash : Z) : M unit :=
  assert_ (0 <? offset) ;;
  t <- rdb (o + obj_type) ;;
  fail_if (negb (t =? OBJECT_DATA)) EINVAL ;;
  wr (o + data_next_field_offset) 0 ;;
  wr (o + data_next_hash_offset) 0 ;;
  wr (o + data_entry_array_offset) 0 ;;
  wr (o + data_entry_offset) 0 ;;
  wr (o + data_n_entries) 0 ;;
  size <- rd off_data_hash_table_size ;;
  h <- bucket hash size ;;
  table <- gets jf_data_hash_table ;;
  p <- rd (tail_hash_offset table h) ;;
  (if p =? 0 then wr (head_hash_offset table h) offset
   else (o <- journal_file_move_to_object OBJECT_DATA p ;;
         wr (o + data_next_hash_offset) offset)) ;;
  wr (tail_hash_offset table h) offset ;;
  c <- gets (header_contains off_n_data) ;;
  n <- rd off_n_data ;;
  when c (wr off_n_data (u64 (n + 1))).

(** ** Finding data and field objects *)

Fixpoint find_field_loop (n : nat) (field : list Z) (osize hash p : Z) : M (option Z) :=
  if p =? 0 then ret None else
  match n with
  | O => nofuel
  | S n =>
      o <- journal_file_move_to_object OBJECT_FIELD p ;;
      h <- rd (o + field_hash) ;;
      s <- rd (o + obj_size) ;;
      payload <- rdbytes (o + field_payload) (zlen field) ;;
      if (h =? hash) && (s =? osize) && bool_decide (payload = field) then ret (Some p)
      else (q <- rd (o + field_next_hash_offset) ;; find_field_loop n field osize hash q)
  end.

Definition journal_file_find_field_object_with_hash (field : list Z) (hash : Z) : M (option Z) :=
  assert_ (0 <? zlen field) ;;
  size <- rd off_field_hash_table_size ;;
  fail_if (size =? 0) EBADMSG ;;
  h <- bucket hash size ;;
  table <- gets jf_field_hash_table ;;
  p <- rd (head_hash_offset table h) ;;
  find_field_loop fuel field (field_payload + zlen field) hash p.

(** The alignment of the caller's buffer does not change the hash. *)
Definition data_hash64 (data : list Z) : Z := hash64 0 data (zlen data).

Definition journal_file_find_field_object (field : list Z) : M (option Z) :=
  journal_file_find_field_object_with_hash field (data_hash64 field).

(** decompress_blob: only the XZ decoder is built. *)
Definition decompress_blob (compression : Z) (src : list Z) : outcome (list Z) :=
  if compression =? OBJECT_COMPRESSED_XZ then
    match env_decompress e src with Some b => Ok b | None => Err ENOMEM end
  else if compression =? OBJECT_COMPRESSED_LZ4 then Err EPROTONOSUPPORT
  else Err EBADMSG.

(** [if (!decompress_blob(...)) if (r < 0) return r;]: after a failure [rsize] is
    uninitialised and is compared with the size all the same. *)
Fixpoint find_data_loop (n : nat) (data : list Z) (osize hash p : Z) : M (option Z) :=
  if p =? 0 then ret None else
  match n with
  | O => nofuel
  | S n =>
      o <- journal_file_move_to_object OBJECT_DATA p ;;
      h <- rd (o + data_hash) ;;
      q <- rd (o + data_next_hash_offset) ;;
      let next := find_data_loop n data osize hash q in
      if negb (h =? hash) then next else
      flags <- rdb (o + obj_flags) ;;
      s <- rd (o + obj_size) ;;
      if negb (Z.land flags OBJECT_COMPRESSION_MASK =? 0) then
        (fail_if (s <=? data_payload) EBADMSG ;;
         src <- rdbytes (o + data_payload) (s - data_payload) ;;
         match decompress_blob (Z.land flags OBJECT_COMPRESSION_MASK) src with
         | Ok b => if bool_decide (b = data) then ret (Some p) else next
         | _ => if env_garbage e =? zlen data then crash else next
         end)
      else
        (payload <- rdbytes (o + data_payload) (zlen data) ;;
         if (s =? osize) && bool_decide (payload = data) then ret (Some p) else next)
  end.

Definition journal_file_find_data_object_with_hash (data : list Z) (hash : Z) : M (option Z) :=
  size <- rd off_data_hash_table_size ;;
  fail_if (size =? 0) EBADMSG ;;
  h <- bucket hash size ;;
  table <- gets jf_data_hash_table ;;
  p <- rd (head_hash_offset table h) ;;
  find_data_loop fuel data (data_payload + zlen data) hash p.

Definition journal_file_find_data_object (data : list Z) : M (option Z) :=
  journal_file_find_data_object_with_hash data (data_hash64 data).

(** ** Appending data and field objects *)

Definition journal_file_append_field (field : list Z) : M Z :=
  assert_ (0 <? zlen field) ;;
  let hash := data_hash64 field in
  r <- journal_file_find_field_object_with_hash field hash ;;
  match r with
  | Some p => ret p
  | None =>
      p <- journal_file_append_object OBJECT_FIELD (field_payload + zlen field) ;;
      wr (p + field_hash) hash ;;
      wrbytes (p + field_payload) field ;;
      journal_file_link_field p p hash ;;
      journal_file_move_to_object OBJECT_FIELD p
  end.

(** compress_blob: the flag on success, a negative errno (ENOBUFS, 105)
    otherwise; blobs below 80 bytes are not tried. *)
Definition compress_blob (src : list Z) : Z * list Z :=
  match (if zlen src <? 80 then None else env_compress e src) with
  | Some b => (OBJECT_COMPRESSED_XZ, b)
  | None => (-105, [])
  end.

(** The compressed branch: the result of compress_blob is only tested for being
    non-zero; when it failed, [rsize] is uninitialised. *)
Definition append_data_payload (o : Z) (data : list Z) : M unit :=
  f <- get ;;
  if jf_compress_xz f && (COMPRESSION_SIZE_THRESHOLD <=? zlen data) then
    let '(compression, blob) := compress_blob data in
    let rsize := if compression =? OBJECT_COMPRESSED_XZ then zlen blob else env_garbage e in
    wrbytes (o + data_payload) blob ;;
    wr (o + obj_size) (u64 (data_payload + rsize)) ;;
    fl <- rdb (o + obj_flags) ;;
    wrb (o + obj_flags) (u8 (Z.lor fl (u8 compression)))
  else wrbytes (o + data_payload) data.

Definition journal_file_append_data (data : list Z) : M Z :=
  let hash := data_hash64 data in
  r <- journal_file_find_data_object_with_hash data hash ;;
  match r with
  | Some p => ret p
  | None =>
      p <- journal_file_append_object OBJECT_DATA (data_payload + zlen data) ;;
      wr (p + data_hash) hash ;;
      append_data_payload p data ;;
      journal_file_link_data p p hash ;;
      o <- journal_file_move_to_object OBJECT_DATA p ;;
      match memchr 61 data with
      | Some (S i) =>
          fo <- journal_file_append_field (take (S i) data) ;;
          hd <- rd (fo + field_head_data_offset) ;;
          wr (o + data_next_field_offset) hd ;;
          wr (fo + field_head_data_offset) p ;;
          ret p
      | _ => ret p
      end
  end.

(** ** Entries and entry arrays *)

Definition journal_file_entry_n_items (o : Z) : M Z :=
  t <- rdb (o + obj_type) ;;
  s <- rd (o + obj_size) ;;
  ret (if negb (t =? OBJECT_ENTRY) then 0 else u64 (s - entry_items) / sizeof_EntryItem).

Definition journal_file_entry_array_n_items (o : Z) : M Z :=
  t <- rdb (o + obj_type) ;;
  s <- rd (o + obj_size) ;;
  ret (if negb (t =? OBJECT_ENTRY_ARRAY) then 0 else u64 (s - entry_array_items) / 8).

Definition journal_file_hash_table_n_items (o : Z) : M Z :=
  t <- rdb (o + obj_type) ;;
  s <- rd (o + obj_size) ;;
  ret (if negb (t =? OBJECT_DATA_HASH_TABLE) && negb (t =? OBJECT_FIELD_HASH_TABLE) then 0
       else u64 (s - hash_table_items) / sizeof_HashItem).

Definition array_item (o i : Z) : Z := o + entry_array_items + 8 * i.

(** The walk of link_entry_into_array: the array with room for index [i] (and
    the index within it), or the end of the chain with the last array and its
    size. *)
Fixpoint link_walk (n_ : nat) (a i ap n : Z) : M (Z * Z + Z * Z * Z) :=
  if a =? 0 then ret (inr (i, ap, n)) else
  match n_ with
  | O => nofuel
  | S n_ =>
      o <- journal_file_move_to_object OBJECT_ENTRY_ARRAY a ;;
      n <- journal_file_entry_array_n_items o ;;
      if i <? n then ret (inl (o, i))
      else (next <- rd (o + entry_array_next) ;; link_walk n_ next (i - n) a n)
  end.

(** [first] is the address of the le64 that points to the chain; the new value of
    [*idx] is returned and stored by the caller. *)
Definition link_entry_into_array (first idx p : Z) : M Z :=
  assert_ (0 <? p) ;;
  a <- rd first ;;
  w <- link_walk fuel a idx 0 0 ;;
  match w with
  | inl (o, i) =>
      wr (array_item o i) p ;;
      ret (u64 (idx + 1))
  | inr (i, ap, n) =>
      let n := if n <? idx then u64 (u64 (idx + 1) * 2) else u64 (n * 2) in
      let n := if n <? 4 then 4 else n in
      q <- journal_file_append_object OBJECT_ENTRY_ARRAY (u64 (entry_array_items + u64 (n * 8))) ;;
      wr (array_item q i) p ;;
      (if ap =? 0 then wr first q
       else (o <- journal_file_move_to_object OBJECT_ENTRY_ARRAY ap ;;
             wr (o + entry_array_next) q)) ;;
      c <- gets (header_contains off_n_entry_arrays) ;;
      na <- rd off_n_entry_arrays ;;
      when c (wr off_n_entry_arrays (u64 (na + 1))) ;;
      ret (u64 (idx + 1))
  end.

Definition link_entry_into_array_plus_one (extra first idx p : Z) : M unit :=
  assert_ (0 <? p) ;;
  i <- rd idx ;;
  (if i =? 0 then wr extra p
   else (_ <- link_entry_into_array first (i - 1) p ;; ret tt)) ;;
  i <- rd idx ;;
  wr idx (u64 (i + 1)).

Definition entry_item (o i : Z) : Z := o + entry_items + sizeof_EntryItem * i.

Definition journal_file_link_entry_item (o offset i : Z) : M unit :=
  assert_ (0 <? offset) ;;
  p <- rd (entry_item o i) ;;
  fail_if (p =? 0) EINVAL ;;
  d <- journal_file_move_to_object OBJECT_DATA p ;;
  link_entry_into_array_plus_one (d + data_entry_offset) (d + data_entry_array_offset)
    (d + data_n_entries) offset.

(** [for (i = 0; i < n; i++) ...]; [k] counts the iterations left. *)
Fixpoint link_items (k : nat) (o offset i : Z) : M unit :=
  match k with
  | O => ret tt
  | S k => journal_file_link_entry_item o offset i ;; link_items k o offset (i + 1)
  end.

Definition journal_file_link_entry (o offset : Z) : M unit :=
  assert_ (0 <? offset) ;;
  t <- rdb (o + obj_type) ;;
  fail_if (negb (t =? OBJECT_ENTRY)) EINVAL ;;
  ne <- rd off_n_entries ;;
  idx <- link_entry_into_array off_entry_array_offset ne offset ;;
  wr off_n_entries idx ;;
  hr <- rd off_head_entry_realtime ;;
  rt <- rd (o + entry_realtime) ;;
  mt <- rd (o + entry_monotonic) ;;
  when (hr =? 0) (wr off_head_entry_realtime rt) ;;
  wr off_tail_entry_realtime rt ;;
  wr off_tail_entry_monotonic mt ;;
  modify (fun f => set_tail_valid f true) ;;
  n <- journal_file_entry_n_items o ;;
  link_items (Z.to_nat n) o offset 0.

Definition item_bytes (it : Z * Z) : list Z := le_bytes 8 it.1 ++ le_bytes 8 it.2.

Definition journal_file_append_entry_internal (ts : Z * Z) (xor_hash : Z)
    (items : list (Z * Z)) (seqnum : bool) : M Z :=
  np <- journal_file_append_object OBJECT_ENTRY (entry_items + zlen items * sizeof_EntryItem) ;;
  s <- journal_file_entry_seqnum seqnum ;;
  wr (np + entry_seqnum) s ;;
  wrbytes (np + entry_items) (flat_map item_bytes items) ;;
  wr (np + entry_realtime) ts.1 ;;
  wr (np + entry_monotonic) ts.2 ;;
  wr (np + entry_xor_hash) xor_hash ;;
  b <- rdbytes off_boot_id 16 ;;
  wrbytes (np + entry_boot_id) b ;;
  journal_file_link_entry np np ;;
  ret np.

(** The loop over the iovec: the items and the xor of their hashes. *)
Fixpoint append_items (iovec : list (list Z)) (xor_hash : Z) : M (list (Z * Z) * Z) :=
  match iovec with
  | [] => ret ([], xor_hash)
  | data :: iovec =>
      p <- journal_file_append_data data ;;
      h <- rd (p + data_hash) ;;
      r <- append_items iovec (Z.lxor xor_hash h) ;;
      ret ((p, h) :: r.1, r.2)
  end.

(** entry_item_cmp: the order qsort sorts by. *)
Definition entry_item_le (a b : Z * Z) : Prop := a.1 <= b.1.

#[global] Instance entry_item_le_dec : RelDecision entry_item_le.
Proof. intros a b. apply Z.le_dec. Defined.

(** ftruncate to the size the file has: no change of the file. *)
Definition journal_file_post_change (f : JournalFile) : JournalFile :=
  set_sizes f (jf_last_size f) (jf_last_size f).

Definition journal_file_append_entry (ts : option (Z * Z)) (iovec : list (list Z))
    (seqnum : bool) : M Z :=
  let ts := default (env_now e) ts in
  f <- get ;;
  fail_if (jf_tail_entry_monotonic_valid f
           && (ts.2 <? hdr off_tail_entry_monotonic f)) EINVAL ;;
  r <- append_items iovec 0 ;;
  let items := merge_sort entry_item_le r.1 in
  fun f =>
    let '(res, f) := journal_file_append_entry_internal ts r.2 items seqnum f in
    (res, journal_file_post_change f).

End Ops.
