(* ===== verification/ObjectLemmas.v ===== *)
(** Valid objects of a journal file, and what journal_file_move_to_object does at
    them and elsewhere. *)
From S2P Require Import Prelude Lookup3 Uuid Memory JournalDef JournalFile.

(** There is an object of type [ty] and size [s] at [p], as
    journal_file_move_to_object wants it: aligned, complete, inside the file. *)
Record is_object (f : JournalFile) (ty p s : Z) : Prop := {
  obj_pos : 0 < p;
  obj_valid : VALID64 p = true;
  obj_type_eq : byte_at (jf_mem f) (p + obj_type) = ty;
  obj_size_eq : load64 (jf_mem f) (p + obj_size) = s;
  obj_type_pos : 0 < ty;
  obj_min : sizeof_ObjectHeader <= minimum_header_size ty <= s;
  obj_end : p + s <= jf_last_size f;
  obj_nowrap : jf_last_size f < 2 ^ 63 }.

Lemma minimum_header_size_ge ty : sizeof_ObjectHeader <= minimum_header_size ty.
Proof.
  unfold minimum_header_size, sizeof_ObjectHeader, data_payload, field_payload, entry_items,
    hash_table_items, entry_array_items.
  repeat match goal with |- context [match ?x with _ => _ end] => destruct x end; lia.
Qed.

Section Objects.
Context (e : Env).

Lemma journal_file_move_to_ok c off size f :
  mmap_ok e -> 0 < size -> 0 <= off -> off + size <= jf_last_size f -> jf_last_size f < 2 ^ 63 ->
  journal_file_move_to e c off size f = (Ok off, f).
Proof.
  intros He Hs Ho Hl Hw. unfold journal_file_move_to. run.
  rewrite run_when_false by (rewrite u64_small by (unfold is_u64; lia); zdecide).
  rewrite He. run. done.
Qed.

Lemma move_to_object_ok ty t p s f :
  mmap_ok e -> is_object f ty p s -> t = ty \/ t <= 0 ->
  journal_file_move_to_object e t p f = (Ok p, f).
Proof.
  intros He [Hpos Hv Ht Hs Hty Hm He1 He2] Hor. unfold journal_file_move_to_object.
  rewrite run_fail_if by (by rewrite Hv).
  assert (16 <= s) by (unfold sizeof_ObjectHeader in Hm; lia).
  rewrite (run_bind _ _ _ p f)
    by (apply journal_file_move_to_ok; unfold sizeof_ObjectHeader; auto; lia).
  run. rewrite Hs, Ht.
  unfold sizeof_ObjectHeader, OBJECT_UNUSED in *. run.
  destruct (Z.ltb_spec 16 s); [|done].
  apply journal_file_move_to_ok; auto; lia.
Qed.

End Objects.

Create HintDb journal.
#[export] Hint Resolve move_to_object_ok : journal.
