(* ===== verification/ArenaProofs.v ===== *)
(** The arena of a journal file: allocation and journal_file_append_object keep the
    file a sequence of aligned objects that the header describes, and touch nothing
    but the new object's header and four fields of the file header. *)
From S2P Require Import Prelude Lookup3 Uuid Memory JournalDef JournalFile ObjectLemmas.

(** * Alignment *)

Lemma VALID64_mod x : VALID64 x = true <-> x mod 8 = 0.
Proof. unfold VALID64. rewrite Z.eqb_eq. change 7 with (Z.ones 3). rewrite Z.land_ones by lia. done. Qed.

(** Masking with [~(2^k - 1)]. *)
Lemma land_mask x k :
  is_u64 x -> 0 <= k <= 64 -> Z.land x (u64_max - (2 ^ k - 1)) = x / 2 ^ k * 2 ^ k.
Proof.
  intros Hx Hk. apply Z.bits_inj'. intros i Hi.
  rewrite Z.land_spec, <- Z.shiftl_mul_pow2, <- Z.shiftr_div_pow2 by lia.
  assert (u64_max - (2 ^ k - 1) = Z.shiftl (Z.ones (64 - k)) k) as ->.
  { rewrite Z.shiftl_mul_pow2, Z.ones_equiv by lia.
    unfold u64_max, Z.pred. rewrite Z.mul_add_distr_r, <- Z.pow_add_r by lia.
    replace (64 - k + k) with 64 by lia. lia. }
  destruct (Z.lt_ge_cases i k).
  - rewrite !Z.shiftl_spec_low by lia. apply andb_false_r.
  - rewrite !Z.shiftl_spec, Z.shiftr_spec by lia. replace (i - k + k) with i by lia.
    destruct (Z.lt_ge_cases i 64).
    + rewrite Z.ones_spec_low by lia. apply andb_true_r.
    + rewrite Z.ones_spec_high by lia. rewrite andb_false_r.
      symmetry. apply (Z.testbit_false x i); [lia|]. rewrite Z.div_small; [done|].
      unfold is_u64 in Hx. split; [lia|]. eapply Z.lt_le_trans; [apply Hx|].
      change 18446744073709551616 with (2 ^ 64). apply Z.pow_le_mono_r; lia.
Qed.

Lemma ALIGN64_eq x : 0 <= x -> x + 7 < 2 ^ 64 -> ALIGN64 x = (x + 7) / 8 * 8.
Proof.
  intros. unfold ALIGN64. rewrite u64_small by (unfold is_u64; lia).
  change 7 with (2 ^ 3 - 1). rewrite land_mask by (unfold is_u64; lia). done.
Qed.

Lemma ALIGN64_spec x :
  0 <= x -> x + 7 < 2 ^ 64 -> x <= ALIGN64 x < x + 8 /\ ALIGN64 x mod 8 = 0.
Proof. intros. rewrite ALIGN64_eq by lia. split; mlia. Qed.

Lemma align_to_spec l k :
  0 <= k <= 62 -> 0 <= l -> l + 2 ^ k < 2 ^ 64 -> l <= align_to l (2 ^ k) < l + 2 ^ k.
Proof.
  intros Hk Hl Hb. pose proof (Z.pow_pos_nonneg 2 k). unfold align_to.
  rewrite u64_small by (unfold is_u64; lia).
  rewrite land_mask by (unfold is_u64; lia).
  pose proof (Z.div_mod (l + 2 ^ k - 1) (2 ^ k)). pose proof (Z.mod_pos_bound (l + 2 ^ k - 1) (2 ^ k)). lia.
Qed.

(** * Frames *)

(** [m'] agrees with [m] at the addresses in [P]. *)
Definition agree (P : Z -> Prop) (m m' : mem) : Prop := forall a, P a -> byte_at m' a = byte_at m a.

Lemma agree_refl P m : agree P m m.
Proof. done. Qed.

Lemma agree_trans P m1 m2 m3 : agree P m1 m2 -> agree P m2 m3 -> agree P m1 m3.
Proof. intros H1 H2 a Ha. rewrite H2, H1; done. Qed.

Lemma agree_mono (P Q : Z -> Prop) m m' : (forall a, Q a -> P a) -> agree P m m' -> agree Q m m'.
Proof. intros HQ H a Ha. apply H; auto. Qed.

Lemma agree_store (P : Z -> Prop) m a l :
  (forall x, P x -> x < a \/ a + Z.of_nat (length l) <= x) -> agree P m (store_bytes m a l).
Proof. intros H x Hx. apply byte_at_store_ne. auto. Qed.

Lemma agree_store64 (P : Z -> Prop) m a v :
  (forall x, P x -> x < a \/ a + 8 <= x) -> agree P m (store64 m a v).
Proof. intros H. apply agree_store. by rewrite le_bytes_length. Qed.

Lemma agree_store8 (P : Z -> Prop) m a v : (forall x, P x -> x <> a) -> agree P m (store8 m a v).
Proof. intros H x Hx. apply byte_at_store8_ne. auto. Qed.

Lemma agree_memzero (P : Z -> Prop) m a n :
  (forall x, P x -> x < a \/ a + n <= x) -> agree P m (memzero m a n).
Proof. intros H x Hx. rewrite byte_at_memzero, decide_False; [done|]. specialize (H x Hx). lia. Qed.

Lemma agree_load64 (P : Z -> Prop) m m' a :
  agree P m m' -> (forall x, a <= x < a + 8 -> P x) -> load64 m' a = load64 m a.
Proof. intros H HP. apply load64_ext. auto. Qed.

Lemma agree_load_bytes (P : Z -> Prop) m m' a n :
  agree P m m' -> (forall x, a <= x < a + Z.of_nat n -> P x) -> load_bytes m' a n = load_bytes m a n.
Proof. intros H HP. apply load_bytes_ext. auto. Qed.

#[export] Hint Resolve agree_refl : journal.

(** What a call does to the handle: only the file and its size change. *)
Record same_handle (f f' : JournalFile) : Prop := {
  sh_fd : jf_fd f' = jf_fd f;
  sh_header : jf_header f' = jf_header f;
  sh_writable : jf_writable f' = jf_writable f;
  sh_xz : jf_compress_xz f' = jf_compress_xz f;
  sh_lz4 : jf_compress_lz4 f' = jf_compress_lz4 f;
  sh_valid : jf_tail_entry_monotonic_valid f' = jf_tail_entry_monotonic_valid f;
  sh_metrics : jf_metrics f' = jf_metrics f;
  sh_cache : jf_chain_cache f' = jf_chain_cache f;
  sh_data : jf_data_hash_table f' = jf_data_hash_table f;
  sh_field : jf_field_hash_table f' = jf_field_hash_table f;
  sh_seqnum : jf_ext_seqnum f' = jf_ext_seqnum f }.

Lemma same_handle_refl f : same_handle f f.
Proof. done. Qed.

Lemma same_handle_trans f1 f2 f3 : same_handle f1 f2 -> same_handle f2 f3 -> same_handle f1 f3.
Proof. intros [] []. split; congruence. Qed.

Lemma same_handle_mem f m : same_handle f (set_mem f m).
Proof. done. Qed.

Lemma same_handle_sizes f a b : same_handle f (set_sizes f a b).
Proof. done. Qed.

#[export] Hint Resolve same_handle_refl same_handle_mem same_handle_sizes : journal.

(** An object is its 16-byte header and the end of the file. *)
Lemma is_object_agree f f' ty p s :
  is_object f ty p s -> agree (fun a => p <= a < p + 16) (jf_mem f) (jf_mem f') ->
  jf_last_size f <= jf_last_size f' < 2 ^ 63 -> is_object f' ty p s.
Proof.
  intros [] Ha Hs. split; try done; try lia.
  - unfold obj_type in *. rewrite Ha by lia. done.
  - unfold obj_size in *. rewrite (agree_load64 _ _ _ _ Ha); [done|]. lia.
Qed.

(** * The arena *)

(** The objects from [p] to [end_], one behind the other. *)
Fixpoint objects_from (f : JournalFile) (p : Z) (objs : list (Z * Z * Z)) (end_ : Z) : Prop :=
  match objs with
  | [] => p = end_
  | (a, ty, s) :: objs => a = p /\ is_object f ty a s /\ objects_from f (p + ALIGN64 s) objs end_
  end.

Definition arena_end (f : JournalFile) : Z := hdr off_header_size f + hdr off_arena_size f.

Definition tail_offset (objs : list (Z * Z * Z)) : Z :=
  match last objs with Some (a, _, _) => a | None => 0 end.

(** The file is an arena of the objects [objs], ending at [end_]. *)
Record arena (f : JournalFile) (objs : list (Z * Z * Z)) (end_ : Z) : Prop := {
  ar_mem : mem_ok (jf_mem f);
  ar_header : 240 <= hdr off_header_size f /\ hdr off_header_size f mod 8 = 0;
  ar_objects : objects_from f (hdr off_header_size f) objs end_;
  ar_tail : hdr off_tail_object_offset f = tail_offset objs;
  ar_n : hdr off_n_objects f = u64 (zlen objs);
  ar_arena : arena_end f <= jf_last_size f <= jf_size f;
  ar_size : jf_size f < 2 ^ 63;
  ar_end : end_ < arena_end f + 8 }.

(** The page size is a power of two. *)
Definition page_ok (e : Env) : Prop := exists k, 0 <= k <= 32 /\ env_page_size e = 2 ^ k.

(** The handle may be written to. *)
Record writable (f : JournalFile) : Prop := {
  w_writable : jf_writable f = true;
  w_fd : 0 <= jf_fd f;
  w_header : jf_header f = true;
  w_state : hdr_state f = STATE_ONLINE \/ hdr_state f = STATE_OFFLINE }.

Lemma objects_from_last f p objs end_ :
  objects_from f p objs end_ ->
  match last objs with
  | None => objs = [] /\ end_ = p
  | Some (a, ty, s) => is_object f ty a s /\ end_ = a + ALIGN64 s
  end.
Proof.
  revert p. induction objs as [|[[a ty] s] objs IH]; intros p; [by intros <-|].
  intros (-> & Ho & Hr). apply IH in Hr. destruct objs as [|[[b ty'] s'] objs].
  - destruct Hr as [_ ->]. done.
  - change (last ((p, ty, s) :: (b, ty', s') :: objs)) with (last ((b, ty', s') :: objs)).
    destruct (last _) as [[[c tc] sc]|]; [exact Hr|]. by destruct Hr.
Qed.

Lemma objects_from_snoc f p objs end_ ty s :
  objects_from f p objs end_ -> is_object f ty end_ s ->
  objects_from f p (objs ++ [(end_, ty, s)]) (end_ + ALIGN64 s).
Proof.
  revert p. induction objs as [|[[a ty'] s'] objs IH]; intros p; simpl.
  - intros ->. done.
  - intros (-> & Ho & Hr) Hnew. auto.
Qed.

(** The size of an object and what it is padded to. *)
Lemma object_ALIGN64 f ty p s : is_object f ty p s -> s <= ALIGN64 s < s + 8 /\ ALIGN64 s mod 8 = 0 /\ 16 <= s.
Proof.
  intros []. unfold sizeof_ObjectHeader in *. pose proof (ALIGN64_spec s). lia.
Qed.

Lemma objects_from_le f p objs end_ : objects_from f p objs end_ -> p <= end_.
Proof.
  revert p. induction objs as [|[[a ty] s] objs IH]; intros p; simpl; [lia|].
  intros (-> & Ho & Hr). apply IH in Hr. apply object_ALIGN64 in Ho. lia.
Qed.

Lemma objects_from_aligned f p objs end_ :
  p mod 8 = 0 -> objects_from f p objs end_ -> end_ mod 8 = 0.
Proof.
  revert p. induction objs as [|[[a ty] s] objs IH]; intros p Hp; simpl; [by intros <-|].
  intros (-> & Ho & Hr). apply (IH (p + ALIGN64 s)); [|done].
  apply object_ALIGN64 in Ho as (_ & Ha & _). mlia.
Qed.

Lemma objects_from_agree f f' p objs end_ :
  objects_from f p objs end_ -> agree (fun a => p <= a < end_) (jf_mem f) (jf_mem f') ->
  jf_last_size f <= jf_last_size f' < 2 ^ 63 -> objects_from f' p objs end_.
Proof.
  revert p. induction objs as [|[[a ty] s] objs IH]; intros p; simpl; [done|].
  intros (-> & Ho & Hr) Ha Hs. pose proof (objects_from_le _ _ _ _ Hr).
  pose proof (object_ALIGN64 _ _ _ _ Ho). split_and!; [done| |].
  - eapply is_object_agree; [done| |done]. eapply agree_mono; [|done]. simpl. lia.
  - apply IH; [done| |done]. eapply agree_mono; [|done]. simpl. lia.
Qed.

Section Arena.
Context (e : Env).
Hypothesis (He : mmap_ok e) (Hpage : page_ok e).

(** journal_file_set_online accepts exactly a writable, opened file that is
    online or offline, leaves it online and changes only the state byte. *)
Theorem journal_file_set_online_correct f :
  journal_file_set_online f
  = if negb (jf_writable f) then (Err EPERM, f)
    else if negb ((0 <=? jf_fd f) && jf_header f) then (Err EINVAL, f)
    else if hdr_state f =? STATE_ONLINE then (Ok tt, f)
    else if hdr_state f =? STATE_OFFLINE then (Ok tt, set_mem f (store8 (jf_mem f) off_state STATE_ONLINE))
    else (Err EINVAL, f).
Proof.
  unfold journal_file_set_online. run. unfold fail_if.
  destruct (negb (jf_writable f)); [done|]. run.
  destruct (negb _); [done|]. run.
  destruct (hdr_state f =? STATE_ONLINE); [done|]. by destruct (hdr_state f =? STATE_OFFLINE).
Qed.

Lemma set_online_ok f :
  writable f ->
  exists m, journal_file_set_online f = (Ok tt, set_mem f m)
    /\ agree (fun a => a <> off_state) (jf_mem f) m
    /\ byte_at m off_state = STATE_ONLINE /\ (mem_ok (jf_mem f) -> mem_ok m).
Proof.
  intros [Hw Hfd Hh Hst]. unfold journal_file_set_online. run.
  rewrite Hw. run. rewrite run_fail_if by (rewrite Hh; zdecide).
  destruct Hst as [Hst|Hst]; rewrite Hst; simpl.
  - exists (jf_mem f). split; [by destruct f|]. split_and!; auto with journal.
  - exists (store8 (jf_mem f) off_state STATE_ONLINE). split; [done|].
    split_and!; [apply agree_store8; auto|by rewrite byte_at_store8_eq|auto with mem].
Qed.

(** What allocation may do: grow the file, and then set the arena size. *)
Definition allocated (f f' : JournalFile) (need : Z) : Prop :=
  same_handle f f'
  /\ agree (fun a => a < off_arena_size \/ off_arena_size + 8 <= a) (jf_mem f) (jf_mem f')
  /\ mem_ok (jf_mem f')
  /\ need <= arena_end f' <= jf_last_size f'
  /\ arena_end f <= arena_end f'
  /\ jf_last_size f <= jf_last_size f' <= jf_size f' /\ jf_size f' < 2 ^ 63
  /\ (arena_end f' = arena_end f \/ max_size (jf_metrics f) <= 0 \/ arena_end f' <= max_size (jf_metrics f)).

Lemma allocate_ok f off size :
  mem_ok (jf_mem f) -> arena_end f <= jf_last_size f <= jf_size f -> jf_size f < 2 ^ 63 ->
  0 <= off -> 0 < size -> off + size < 2 ^ 62 ->
  exists f', (journal_file_allocate e off size f = (Ok tt, f') /\ allocated f f' (off + size))
    \/ (exists er, journal_file_allocate e off size f = (Err er, f')
          /\ exists s, f' = set_sizes f s (jf_last_size f) /\ jf_size f <= s < 2 ^ 63).
Proof.
  intros Hm Hls Hsz Hoff Hsize Hb. destruct Hpage as (k & Hk & Hp).
  pose proof (Z.pow_pos_nonneg 2 k). pose proof (Z.pow_le_mono_r 2 k 32).
  pose proof (load64_range (jf_mem f) off_header_size Hm) as Hh. fold (hdr off_header_size f) in Hh.
  pose proof (load64_range (jf_mem f) off_arena_size Hm) as Ha. fold (hdr off_arena_size f) in Ha.
  unfold is_u64 in Hh, Ha. unfold arena_end in Hls.
  unfold journal_file_allocate. run. unfold PAGE_ALIGN. rewrite Hp.
  rewrite (u64_small (off + size)) by (unfold is_u64; lia).
  pose proof (align_to_spec (off + size) k ltac:(lia) ltac:(lia) ltac:(lia)) as Hal.
  rewrite (u64_small (hdr off_header_size f + _)) by (unfold is_u64; lia).
  set (old := hdr off_header_size f + hdr off_arena_size f) in *.
  set (new := if align_to (off + size) (2 ^ k) <? hdr off_header_size f
              then hdr off_header_size f else align_to (off + size) (2 ^ k)).
  assert (off + size <= new < 2 ^ 62 + 2 ^ 32 \/ new = hdr off_header_size f /\ off + size <= new) as Hnew.
  { unfold new. destruct (Z.ltb_spec (align_to (off + size) (2 ^ k)) (hdr off_header_size f)); lia. }
  destruct (Z.leb_spec new old).
  { exists f. left. split; [done|]. split_and!; auto with journal; unfold arena_end; fold old; lia. }
  assert (old < new < 2 ^ 62 + 2 ^ 33) as Hgrow by (unfold old in *; lia). clearbody new.
  assert (forall A er g (k : A -> M unit), g f = (Err er, f) ->
    exists f', (bind g k f = (Ok tt, f') /\ allocated f f' (off + size))
      \/ (exists er, bind g k f = (Err er, f')
            /\ exists s, f' = set_sizes f s (jf_last_size f) /\ jf_size f <= s < 2 ^ 63)) as Herr.
  { intros A er g k' Hg. exists f. right. exists er. unfold bind. rewrite Hg. split; [done|].
    exists (jf_size f). split; [by destruct f|lia]. }
  unfold fail_if at 1. destruct ((0 <? max_size (jf_metrics f)) && (max_size (jf_metrics f) <? new)) eqn:Emax;
    [by eapply Herr|].
  run. match goal with |- context [bind (when ?c ?g) _ f] =>
    assert ((when c g) f = (Ok tt, f) \/ (when c g) f = (Err E2BIG, f)) as [Eg|Eg] end.
  { unfold when. destruct ((min_size _ <? _) && _); [|by left]. destruct (env_statvfs e) as [[bfree bsize]|]; [|by left].
    unfold fail_if. destruct (_ <? new - old); [by right|by left]. }
  2:{ by eapply Herr. }
  rewrite (run_bind _ _ _ _ _ Eg).
  set (rounded := u64 (u64 (new + FILE_SIZE_INCREASE - 1) / FILE_SIZE_INCREASE * FILE_SIZE_INCREASE)).
  set (new' := if (0 <? max_size (jf_metrics f)) && (max_size (jf_metrics f) <? rounded)
               then max_size (jf_metrics f) else rounded).
  assert (max_size (jf_metrics f) <= 0 \/ new' <= max_size (jf_metrics f)) as Hmax.
  { unfold new'. destruct (Z.ltb_spec 0 (max_size (jf_metrics f))), (Z.ltb_spec (max_size (jf_metrics f)) rounded);
      simpl; lia. }
  assert (new <= new' < 2 ^ 62 + 2 ^ 34) as Hnew'.
  { assert (new <= rounded < 2 ^ 62 + 2 ^ 34) as Hr.
    { unfold rounded, FILE_SIZE_INCREASE. rewrite (u64_small (new + _ - 1)) by (unfold is_u64; lia).
      rewrite u64_small by (unfold is_u64; mlia). mlia. }
    unfold new'. destruct ((0 <? max_size (jf_metrics f)) && (max_size (jf_metrics f) <? rounded)) eqn:Ec; [|lia].
    apply andb_false_iff in Emax. bprop. destruct Emax as [Em|Em]; [rewrite Z.ltb_ge in Em|rewrite Z.ltb_ge in Em]; lia. }
  clearbody new' rounded.
  rewrite (u64_small (new' - old)) by (unfold is_u64; lia).
  unfold fail_if at 1. destruct (negb (env_fallocate e old (new' - old) =? 0)); [by eapply Herr|].
  run. cbn [set_sizes jf_size jf_last_size jf_mem].
  replace (old + (new' - old)) with new' by lia.
  destruct (env_fstat e =? 0); simpl negb; cycle 1.
  { eexists. right. exists (env_fstat e). split; [reflexivity|]. exists (Z.max (jf_size f) new'). split; [done|lia]. }
  run. eexists. left. split; [reflexivity|].
  cbn [set_sizes jf_size jf_last_size jf_mem set_mem].
  assert (u64 (new' - hdr off_header_size f) = new' - hdr off_header_size f) as Hu
    by (apply u64_small; unfold is_u64; lia).
  assert (arena_end (set_mem (set_sizes (set_sizes f (Z.max (jf_size f) new') (jf_last_size f))
            (Z.max (jf_size f) new') (Z.max (jf_size f) new'))
            (store64 (jf_mem f) off_arena_size (u64 (new' - hdr off_header_size f)))) = new') as Hend.
  { rewrite Hu. unfold arena_end.
    change (hdr off_header_size (set_mem ?g ?m)) with (load64 m off_header_size).
    change (hdr off_arena_size (set_mem ?g ?m)) with (load64 m off_arena_size).
    rewrite load64_store64_ne by (unfold off_header_size, off_arena_size; lia).
    rewrite load64_store64_eq by (unfold is_u64; lia). fold (hdr off_header_size f). lia. }
  split_and!.
  - done.
  - apply agree_store64. unfold off_arena_size. lia.
  - cbn. by apply mem_ok_store64.
  - etrans; [|apply Z.eq_le_incl; symmetry; exact Hend]. lia.
  - etrans; [apply Z.eq_le_incl; exact Hend|]. cbn. lia.
  - etrans; [|apply Z.eq_le_incl; symmetry; exact Hend]. unfold arena_end. fold old. lia.
  - cbn. lia.
  - cbn. lia.
  - cbn. lia.
  - right. destruct Hmax; [by left|right]. etrans; [apply Z.eq_le_incl; exact Hend|done].
Qed.
(** What appending an object at [p] leaves alone. *)
Definition append_frame (p a : Z) : Prop :=
  a <> off_state /\ ~ (off_arena_size <= a < off_arena_size + 8)
  /\ ~ (off_tail_object_offset <= a < off_n_objects + 8) /\ ~ (p <= a < p + sizeof_ObjectHeader).

Lemma arena_set_sizes f objs end_ s :
  arena f objs end_ -> jf_size f <= s < 2 ^ 63 -> arena (set_sizes f s (jf_last_size f)) objs end_.
Proof.
  intros [] Hs. split; try done.
  - eapply objects_from_agree; [done|apply agree_refl|]. cbn. lia.
  - change (arena_end (set_sizes f s (jf_last_size f))) with (arena_end f). cbn. lia.
  - cbn. lia.
Qed.

(** The header fields below 240, apart from the state, survive a change elsewhere. *)
Lemma arena_agree f f' objs end_ :
  arena f objs end_ -> agree (fun a => a <> off_state) (jf_mem f) (jf_mem f') -> mem_ok (jf_mem f') ->
  jf_last_size f' = jf_last_size f -> jf_size f' = jf_size f -> arena f' objs end_.
Proof.
  intros [Hm Hh Ho Ht Hn Ha Hs He'] Hag Hm' Hl Hz.
  assert (forall o, 16 < o -> hdr o f' = hdr o f) as Hhdr.
  { intros o Hoff. unfold hdr. apply (agree_load64 _ _ _ _ Hag). unfold off_state. lia. }
  assert (arena_end f' = arena_end f) as Hend by (unfold arena_end; rewrite !Hhdr by (vm_compute; done); done).
  split; rewrite ?Hend, ?Hl, ?Hz, ?Hhdr by (vm_compute; done); try done.
  eapply objects_from_agree; [done| |lia]. eapply agree_mono; [|exact Hag].
  unfold off_state. simpl. lia.
Qed.

(** The offset the next object goes to. *)
Lemma next_offset_ok f objs end_ :
  arena f objs end_ ->
  (if hdr off_tail_object_offset f =? 0 then rd off_header_size
   else (o <- journal_file_move_to_object e (-1) (hdr off_tail_object_offset f) ;;
         s <- rd (o + obj_size) ;;
         ret (u64 (hdr off_tail_object_offset f + ALIGN64 s)))) f = (Ok end_, f).
Proof.
  intros [Hm Hh Ho Ht Hn Ha Hs He']. rewrite Ht. unfold tail_offset.
  pose proof (objects_from_last _ _ _ _ Ho) as Hl.
  destruct (last objs) as [[[a ty] s]|].
  - destruct Hl as [Hob ->]. pose proof (obj_pos _ _ _ _ Hob). destruct (Z.eqb_spec a 0); [lia|].
    rewrite (run_bind _ _ _ _ _ (move_to_object_ok e ty (-1) a s f He Hob ltac:(lia))). run.
    rewrite (obj_size_eq _ _ _ _ Hob). pose proof (object_ALIGN64 _ _ _ _ Hob).
    destruct Hob. rewrite u64_small by (unfold is_u64; lia). done.
  - destruct Hl as [_ ->]. done.
Qed.

(** The writes to the header and the new object. *)
Definition new_object (m : mem) (p ty size n : Z) : mem :=
  let m := memzero m p sizeof_ObjectHeader in
  let m := store8 m (p + obj_type) ty in
  let m := store64 m (p + obj_size) size in
  let m := store64 m off_tail_object_offset p in
  store64 m off_n_objects (u64 (n + 1)).

Lemma new_object_frame m p ty size n :
  240 <= p ->
  agree (fun a => ~ (off_tail_object_offset <= a < off_n_objects + 8)
    /\ ~ (p <= a < p + sizeof_ObjectHeader)) m (new_object m p ty size n).
Proof.
  intros Hp. unfold new_object, off_tail_object_offset, off_n_objects, obj_type, obj_size,
    sizeof_ObjectHeader.
  eapply agree_trans; [|apply agree_store64; lia].
  eapply agree_trans; [|apply agree_store64; lia].
  eapply agree_trans; [|apply agree_store64; lia].
  eapply agree_trans; [|apply agree_store8; lia].
  apply agree_memzero. lia.
Qed.

Lemma new_object_is_object f p ty size n :
  240 <= p -> p mod 8 = 0 -> 0 < ty < 7 -> minimum_header_size ty <= size -> p + size <= jf_last_size f ->
  jf_last_size f < 2 ^ 63 ->
  is_object (set_mem f (new_object (jf_mem f) p ty size n)) ty p size.
Proof.
  intros Hp Hal Hty Hmin Hend Hls.
  unfold new_object, off_tail_object_offset, off_n_objects, obj_type, obj_size, sizeof_ObjectHeader in *.
  pose proof (minimum_header_size_ge ty). unfold sizeof_ObjectHeader in *.
  split; cbn [set_mem jf_mem jf_last_size]; try lia.
  - by apply VALID64_mod.
  - unfold obj_type. rewrite !byte_at_store64_ne by lia. rewrite byte_at_store8_eq, Z.mod_small; lia.
  - unfold obj_size. rewrite !load64_store64_ne by lia. apply load64_store64_eq. unfold is_u64. lia.
  - done.
Qed.

Lemma new_object_flags m p ty size n :
  240 <= p -> byte_at (new_object m p ty size n) (p + obj_flags) = 0.
Proof.
  intros Hp. unfold new_object, off_tail_object_offset, off_n_objects, obj_type, obj_size, obj_flags,
    sizeof_ObjectHeader.
  rewrite !byte_at_store64_ne by lia. rewrite byte_at_store8_ne by lia.
  rewrite byte_at_memzero, decide_True by lia. done.
Qed.

Lemma new_object_ok m p ty size n : mem_ok m -> mem_ok (new_object m p ty size n).
Proof. intros. unfold new_object. auto 10 with mem. Qed.

(** Appending succeeded at [p]. *)
Record appended (f f' : JournalFile) (objs : list (Z * Z * Z)) (p ty size : Z) : Prop := {
  ap_handle : same_handle f f';
  ap_arena : arena f' (objs ++ [(p, ty, size)]) (p + ALIGN64 size);
  ap_object : is_object f' ty p size;
  ap_flags : byte_at (jf_mem f') (p + obj_flags) = 0;
  ap_state : hdr_state f' = STATE_ONLINE;
  ap_pos : 240 <= p;
  ap_last : jf_last_size f <= jf_last_size f' < 2 ^ 63;
  ap_frame : agree (append_frame p) (jf_mem f) (jf_mem f') }.

(** Appending failed: nothing but the state and the size of the file changed. *)
Record not_appended (f f' : JournalFile) (objs : list (Z * Z * Z)) (end_ : Z) : Prop := {
  na_handle : same_handle f f';
  na_arena : arena f' objs end_;
  na_state : hdr_state f' = STATE_ONLINE;
  na_last : jf_last_size f' = jf_last_size f;
  na_frame : agree (fun a => a <> off_state) (jf_mem f) (jf_mem f') }.

Lemma append_object_ok f objs p ty size :
  arena f objs p -> writable f -> 0 < ty < 7 -> minimum_header_size ty <= size -> p + size < 2 ^ 62 ->
  exists f',
    (journal_file_append_object e ty size f = (Ok p, f') /\ appended f f' objs p ty size)
    \/ (exists er, journal_file_append_object e ty size f = (Err er, f') /\ not_appended f f' objs p).
Proof.
  intros Har Hw Hty Hmin Hsz. pose proof (minimum_header_size_ge ty) as Hmh. unfold sizeof_ObjectHeader in Hmh.
  unfold journal_file_append_object. unfold OBJECT_TYPE_MAX, sizeof_ObjectHeader. run.
  destruct (set_online_ok f Hw) as (m & Hon & Hag & Hst & Hmok). rewrite (run_bind _ _ _ _ _ Hon).
  set (f1 := set_mem f m).
  assert (arena f1 objs p) as Har1.
  { eapply arena_agree; [done|done|apply Hmok, Har|done|done]. }
  pose proof (next_offset_ok f1 objs p Har1) as Hnext.
  run. fold (hdr off_tail_object_offset f1). rewrite (run_bind _ _ _ _ _ Hnext).
  pose proof Har1 as [Hm Hh Ho Ht Hn Ha Hs Hend].
  pose proof (objects_from_le _ _ _ _ Ho). pose proof (objects_from_aligned _ _ _ _ (proj2 Hh) Ho) as Hal.
  destruct (allocate_ok f1 p size) as (f2 & [[Hall Hf2]|(er & Hall & s & -> & Hs')]); try done; try lia; cycle 1.
  { eexists. right. exists er. unfold bind at 1. rewrite Hall. split; [reflexivity|].
    split; [done|by apply arena_set_sizes|done|done|done]. }
  rewrite (run_bind _ _ _ _ _ Hall).
  destruct Hf2 as (Hsh & Hag2 & Hm2 & Hneed & Hge & Hls & Hsz2 & _).
  rewrite (run_bind _ _ _ _ _ (journal_file_move_to_ok e ty p size f2 He ltac:(lia) ltac:(lia) ltac:(lia) ltac:(lia))).
  exists (set_mem f2 (new_object (jf_mem f2) p ty size (hdr off_n_objects f2))). left. split.
  { run. cbn [set_mem jf_mem].
    rewrite !load64_store64_ne, load64_store8_ne, load64_memzero_ne
      by (unfold off_n_objects, off_tail_object_offset, obj_type, obj_size; lia). done. }
  assert (240 <= p) as Hp240 by lia.
  pose proof (new_object_frame (jf_mem f2) p ty size (hdr off_n_objects f2) Hp240) as Hag3.
  set (f3 := set_mem f2 _). change (new_object _ _ _ _ _) with (jf_mem f3) in Hag3.
  pose proof (new_object_is_object f2 p ty size (hdr off_n_objects f2)
    ltac:(lia) Hal Hty Hmin ltac:(lia) ltac:(lia)) as Hobj. fold f3 in Hobj.
  assert (forall o, off_data_hash_table_offset <= o /\ o + 8 <= off_tail_object_offset \/ o = off_header_size
    -> hdr o f3 = hdr o f1) as Hhdr.
  { intros o Hoff. unfold hdr. transitivity (load64 (jf_mem f2) o).
    - apply (agree_load64 _ _ _ _ Hag3). unfold off_state, sizeof_ObjectHeader, off_arena_size, off_n_objects,
        off_data_hash_table_offset, off_tail_object_offset, off_header_size in *. lia.
    - apply (agree_load64 _ _ _ _ Hag2).
      unfold off_data_hash_table_offset, off_header_size, off_arena_size in *. lia. }
  assert (hdr off_n_objects f2 = hdr off_n_objects f1) as Hn2.
  { unfold hdr. apply (agree_load64 _ _ _ _ Hag2). unfold off_n_objects, off_arena_size. lia. }
  assert (arena_end f3 = arena_end f2) as Hend3.
  { unfold arena_end, f3. f_equal; apply (agree_load64 _ _ _ _ Hag3);
      unfold sizeof_ObjectHeader, off_state, off_arena_size, off_n_objects, off_tail_object_offset, off_header_size in *; lia. }
  assert (jf_last_size f3 = jf_last_size f2 /\ jf_size f3 = jf_size f2) as [Hl3 Hs3] by done.
  pose proof (ALIGN64_spec size ltac:(lia) ltac:(lia)).
  split.
  - eapply same_handle_trans; [|apply same_handle_mem]. eapply same_handle_trans; [|exact Hsh].
    apply same_handle_mem.
  - split.
    + by apply new_object_ok.
    + rewrite Hhdr by (by right). done.
    + rewrite Hhdr by (by right). apply objects_from_snoc; [|done].
      eapply objects_from_agree; [exact Ho| |lia].
      intros a Hran. rewrite (Hag3 a), (Hag2 a); [done|..];
      unfold sizeof_ObjectHeader, off_state, off_arena_size, off_n_objects, off_tail_object_offset in *; lia.
    + unfold tail_offset. rewrite last_snoc. unfold hdr, f3, new_object. cbn [set_mem jf_mem].
      rewrite load64_store64_ne by (unfold off_n_objects, off_tail_object_offset; lia).
      apply load64_store64_eq. unfold is_u64. lia.
    + unfold hdr at 1, f3, new_object. cbn [set_mem jf_mem].
      rewrite load64_store64_eq by apply u64_range. rewrite Hn2, Hn. unfold zlen. rewrite length_app. simpl.
      unfold u64. rewrite Zplus_mod_idemp_l. f_equal. lia.
    + rewrite Hend3, Hl3, Hs3. lia.
    + rewrite Hs3. lia.
    + rewrite Hend3. lia.
  - done.
  - apply new_object_flags. lia.
  - unfold hdr_state. rewrite (Hag3 off_state), (Hag2 off_state); [done|..];
      unfold sizeof_ObjectHeader, off_state, off_arena_size, off_n_objects, off_tail_object_offset; lia.
  - lia.
  - rewrite Hl3. change (jf_last_size f) with (jf_last_size f1). lia.
  - eapply agree_trans; [|eapply agree_mono; [|exact Hag3]; unfold append_frame; tauto].
    eapply agree_trans; [eapply agree_mono; [|exact Hag]; unfold append_frame; tauto|].
    eapply agree_mono; [|exact Hag2]. unfold append_frame. lia.
Qed.
End Arena.
