(* ===== verification/HeaderProofs.v ===== *)
(** The header of a journal file: creation and verification, the online state, the
    sequence numbers, and allocation. *)
From S2P Require Import Prelude Lookup3 Uuid Memory JournalDef JournalFile ObjectLemmas ArenaProofs.

(** journal_file_set_offline brings a writable file that is online offline, leaves
    every other state as it is, and is undone by set_online: the file ends as it was. *)
Theorem set_offline_set_online f :
  writable f ->
  exists m, journal_file_set_offline f = (Ok tt, set_mem f m) /\ byte_at m off_state = STATE_OFFLINE
    /\ agree (fun a => a <> off_state) (jf_mem f) m
    /\ exists m', journal_file_set_online (set_mem f m) = (Ok tt, set_mem f m')
         /\ byte_at m' off_state = STATE_ONLINE /\ agree (fun a => a <> off_state) (jf_mem f) m'.
Proof.
  intros [Hw Hfd Hh Hst].
  assert (exists m, journal_file_set_offline f = (Ok tt, set_mem f m) /\ byte_at m off_state = STATE_OFFLINE
    /\ agree (fun a => a <> off_state) (jf_mem f) m) as (m & Hrun & Hm & Hag).
  { unfold journal_file_set_offline. run. rewrite Hw. run. rewrite run_fail_if by (rewrite Hh; zdecide).
    destruct Hst as [Hst|Hst]; rewrite Hst; simpl.
    - exists (store8 (jf_mem f) off_state STATE_OFFLINE). split_and!; [done|by rewrite byte_at_store8_eq|].
      apply agree_store8. auto.
    - exists (jf_mem f). split_and!; [by destruct f|done|done]. }
  exists m. split_and!; [done|done|done|].
  destruct (set_online_ok (set_mem f m)) as (m' & Hrun' & Hag' & Hm' & _); [split; try done; by right|].
  exists m'. split_and!; [done|done|]. by eapply agree_trans.
Qed.

(** The header that is written, before it is cut to what pwrite took. *)
Definition header_image (m : mem) (flags : Z) (file_id : list Z) (template : option JournalFile) : mem :=
  let m := memzero m 0 sizeof_Header in
  let m := store_bytes m off_signature HEADER_SIGNATURE in
  let m := store64 m off_header_size (ALIGN64 sizeof_Header) in
  let m := store32 m off_incompatible_flags flags in
  let m := store32 m off_compatible_flags 0 in
  let m := store_bytes m off_file_id file_id in
  match template with
  | Some t =>
      store64 (store_bytes m off_seqnum_id (load_bytes (jf_mem t) off_seqnum_id 16))
        off_tail_entry_seqnum (hdr off_tail_entry_seqnum t)
  | None => store_bytes m off_seqnum_id file_id
  end.

(** The two fields a template decides are apart from the others. *)
Lemma header_image_template m flags file_id template x :
  length file_id = 16%nat -> ~ (72 <= x < 88) -> ~ (160 <= x < 168) ->
  byte_at (header_image m flags file_id template) x
  = byte_at (store_bytes (store32 (store32 (store64 (store_bytes (memzero m 0 sizeof_Header) off_signature
      HEADER_SIGNATURE) off_header_size (ALIGN64 sizeof_Header)) off_incompatible_flags flags)
      off_compatible_flags 0) off_file_id file_id) x.
Proof.
  intros Hid H1 H2. unfold header_image. destruct template as [t|].
  - rewrite byte_at_store64_ne by (unfold off_tail_entry_seqnum; lia).
    apply byte_at_store_ne. rewrite load_bytes_length. unfold off_seqnum_id. lia.
  - apply byte_at_store_ne. unfold off_seqnum_id. lia.
Qed.

(** Walk down the stores of the header. *)
Ltac header_bytes :=
  repeat first
    [ rewrite byte_at_store32_ne by (unfold off_incompatible_flags, off_compatible_flags; lia)
    | rewrite byte_at_store64_ne by (unfold off_header_size; lia)
    | rewrite byte_at_store_ne by (simpl length; unfold off_signature, off_file_id; lia) ].

Lemma header_image_ok m flags file_id template :
  length file_id = 16%nat -> is_u32 flags ->
  let h := header_image m flags file_id template in
  load_bytes h off_signature 8 = HEADER_SIGNATURE
  /\ load32 h off_incompatible_flags = flags
  /\ load_bytes h off_file_id 16 = file_id
  /\ load64 h off_header_size = 240
  /\ forall a, 8 <= a < 12 \/ 16 <= a < 24 \/ 40 <= a < 72 \/ 96 <= a < 160 \/ 168 <= a < 240 -> byte_at h a = 0.
Proof.
  intros Hid Hf h.
  assert (forall x, ~ (72 <= x < 88) -> ~ (160 <= x < 168) -> byte_at h x = _) as Hh
    by (intros; by apply header_image_template).
  split_and!.
  - transitivity (load_bytes (store_bytes (memzero m 0 sizeof_Header) off_signature HEADER_SIGNATURE)
      off_signature (length HEADER_SIGNATURE)); [|apply load_store_bytes_eq].
    change (length HEADER_SIGNATURE) with 8%nat.
    apply load_bytes_ext. unfold off_signature at 1 2. intros x Hx. rewrite Hh by lia.
    rewrite byte_at_store_ne by (rewrite Hid; unfold off_file_id; lia). header_bytes. done.
  - transitivity (load32 (store32 (store64 (store_bytes (memzero m 0 sizeof_Header) off_signature
      HEADER_SIGNATURE) off_header_size (ALIGN64 sizeof_Header)) off_incompatible_flags flags) off_incompatible_flags);
      [|by apply load32_store32_eq].
    apply load32_ext. unfold off_incompatible_flags at 1 2. intros x Hx. rewrite Hh by lia.
    rewrite byte_at_store_ne by (rewrite Hid; unfold off_file_id; lia).
    rewrite byte_at_store32_ne by (unfold off_compatible_flags; lia). done.
  - rewrite <- Hid. rewrite <- (load_store_bytes_eq
      (store32 (store32 (store64 (store_bytes (memzero m 0 sizeof_Header) off_signature
        HEADER_SIGNATURE) off_header_size (ALIGN64 sizeof_Header)) off_incompatible_flags flags)
        off_compatible_flags 0) off_file_id file_id) at 2.
    apply load_bytes_ext. rewrite Hid. unfold off_file_id at 1 2. intros x Hx. apply Hh; lia.
  - transitivity (load64 (store64 (store_bytes (memzero m 0 sizeof_Header) off_signature
      HEADER_SIGNATURE) off_header_size (ALIGN64 sizeof_Header)) off_header_size);
      [|apply load64_store64_eq; vm_compute; split; done].
    apply load64_ext. unfold off_header_size at 1 2. intros x Hx. rewrite Hh by lia.
    rewrite byte_at_store_ne by (rewrite Hid; unfold off_file_id; lia).
    rewrite !byte_at_store32_ne by (unfold off_incompatible_flags, off_compatible_flags; lia). done.
  - intros x Hx. rewrite Hh by lia.
    rewrite byte_at_store_ne by (rewrite Hid; unfold off_file_id; lia).
    destruct (decide (8 <= x < 12)) as [Hc|Hc].
    + (* the compatible flags are the zeros stored there *)
      unfold store32. rewrite byte_at_store, le_bytes_length, decide_True by (unfold off_compatible_flags; lia).
      simpl le_bytes. unfold off_compatible_flags.
      assert (x = 8 \/ x = 9 \/ x = 10 \/ x = 11) as [-> | [-> | [-> | ->]]] by lia; done.
    + header_bytes. rewrite byte_at_memzero, decide_True by (unfold sizeof_Header; lia). done.
Qed.

(** The flags a handle writes into a new header. *)
Definition header_flags (f : JournalFile) : Z :=
  Z.lor (if jf_compress_xz f then HEADER_INCOMPATIBLE_COMPRESSED_XZ else 0)
        (if jf_compress_lz4 f then HEADER_INCOMPATIBLE_COMPRESSED_LZ4 else 0).

Lemma init_header_ok e f file_id template :
  env_pwrite e sizeof_Header = sizeof_Header ->
  exists m,
    journal_file_init_header e file_id template f
    = (Ok tt, set_sizes (set_mem f m) (Z.max (jf_size f) sizeof_Header) (jf_last_size f))
    /\ forall a, byte_at m a = byte_at (if decide (0 <= a < 240) then header_image (jf_mem f) (header_flags f) file_id template
                                       else jf_mem f) a.
Proof.
  intros Hpw. unfold journal_file_init_header. run. cbv zeta. rewrite Hpw.
  set (m0 := match template with Some t => _ | None => _ end).
  exists (store_bytes (jf_mem f) 0 (load_bytes m0 0 (Z.to_nat sizeof_Header))). split.
  { rewrite run_fail_if by done. run. unfold fail_if. rewrite Z.eqb_refl. done. }
  intros a. case_decide as Ha.
  - apply (byte_at_copy (jf_mem f) m0 0 240). lia.
  - apply byte_at_store_ne. rewrite load_bytes_length. change (Z.of_nat (Z.to_nat sizeof_Header)) with 240. lia.
Qed.

(** What journal_file_verify_header asks for. *)
Record header_good (f : JournalFile) : Prop := {
  hg_signature : load_bytes (jf_mem f) off_signature 8 = HEADER_SIGNATURE;
  hg_flags : load32 (jf_mem f) off_incompatible_flags = 0
             \/ load32 (jf_mem f) off_incompatible_flags = HEADER_INCOMPATIBLE_COMPRESSED_XZ;
  hg_compatible : load32 (jf_mem f) off_compatible_flags = 0;
  hg_size : hdr off_header_size f = 240;
  hg_end : 240 + hdr off_arena_size f <= jf_last_size f;
  hg_arena : 0 <= hdr off_arena_size f < 2 ^ 63;
  hg_tail : hdr off_tail_object_offset f <= 240 + hdr off_arena_size f;
  hg_valid : Forall (fun o => VALID64 (hdr o f) = true)
    [off_data_hash_table_offset; off_field_hash_table_offset; off_tail_object_offset; off_entry_array_offset] }.

(** With such a header the state decides. *)
Lemma verify_header_eq f :
  header_good f ->
  journal_file_verify_header f
  = if STATE_MAX <=? hdr_state f then (Err EBADMSG, f)
    else if jf_writable f && (hdr_state f =? STATE_ONLINE) then (Err EBUSY, f)
    else if jf_writable f && (hdr_state f =? STATE_ARCHIVED) then (Err ESHUTDOWN, f)
    else if jf_writable f && negb (hdr_state f =? STATE_OFFLINE) then (Err EBUSY, f)
    else (Ok tt, set_compress f (load32 (jf_mem f) off_incompatible_flags =? HEADER_INCOMPATIBLE_COMPRESSED_XZ) false).
Proof.
  intros [Hsig Hflags Hcomp Hsz Hend Har Htail Hv].
  assert (VALID64 (hdr off_data_hash_table_offset f) = true /\ VALID64 (hdr off_field_hash_table_offset f) = true
    /\ VALID64 (hdr off_tail_object_offset f) = true /\ VALID64 (hdr off_entry_array_offset f) = true) as (V1 & V2 & V3 & V4).
  { rewrite !Forall_cons in Hv. tauto. }
  unfold journal_file_verify_header. run. rewrite Hsig, Hcomp, Hsz, V1, V2, V3, V4. unfold header_contains. rewrite Hsz.
  rewrite (u64_small (240 + _)) by (unfold is_u64; lia). change (bool_decide (HEADER_SIGNATURE = HEADER_SIGNATURE)) with true.
  rewrite run_fail_if by done. rewrite run_fail_if by (by destruct Hflags as [-> | ->]).
  rewrite run_fail_if by (by rewrite andb_false_r). unfold fail_if at 1.
  destruct (STATE_MAX <=? hdr_state f); [done|]. run.
  rewrite !run_fail_if by (done || (apply Z.ltb_ge; lia)). unfold when.
  destruct (jf_writable f); simpl andb; [|by destruct Hflags as [-> | ->]].
  destruct (hdr_state f =? STATE_ONLINE); [done|]. destruct (hdr_state f =? STATE_ARCHIVED); [done|].
  destruct (hdr_state f =? STATE_OFFLINE); [|done]. by destruct Hflags as [-> | ->].
Qed.

Lemma verify_header_ok f :
  header_good f -> hdr_state f < STATE_MAX -> (jf_writable f = true -> hdr_state f = STATE_OFFLINE) ->
  journal_file_verify_header f
  = (Ok tt, set_compress f (load32 (jf_mem f) off_incompatible_flags =? HEADER_INCOMPATIBLE_COMPRESSED_XZ) false).
Proof.
  intros Hg Hst Hw. rewrite verify_header_eq by done. rewrite (proj2 (Z.leb_gt _ _)) by done.
  destruct (jf_writable f); [|done]. by rewrite Hw.
Qed.

(** C23 What journal_file_init_header writes is accepted by journal_file_verify_header
    once the file is mapped, and the compression flags survive. *)
Theorem init_header_verify_header e f file_id template :
  env_pwrite e sizeof_Header = sizeof_Header -> length file_id = 16%nat ->
  jf_compress_lz4 f = false ->
  exists m,
    journal_file_init_header e file_id template f
    = (Ok tt, set_sizes (set_mem f m) (Z.max (jf_size f) sizeof_Header) (jf_last_size f))
    /\ forall size g, g = set_sizes (set_mem f m) size size -> sizeof_Header <= size ->
         hdr_state g = STATE_OFFLINE /\ load_bytes (jf_mem g) off_file_id 16 = file_id
         /\ journal_file_verify_header g = (Ok tt, g).
Proof.
  intros Hpw Hid Hlz4. destruct (init_header_ok e f file_id template Hpw) as (m & Hrun & Hm). exists m. split; [exact Hrun|].
  intros size g -> Hsize. set (h := header_image (jf_mem f) (header_flags f) file_id template) in *.
  assert (forall a, 0 <= a < 240 -> byte_at m a = byte_at h a) as Hmh by (intros a Ha; by rewrite Hm, decide_True).
  assert (header_flags f = if jf_compress_xz f then 1 else 0) as Efl.
  { unfold header_flags. rewrite Hlz4. by destruct (jf_compress_xz f). }
  destruct (header_image_ok (jf_mem f) (header_flags f) file_id template Hid) as (Hsig & Hflags & Hfid & Hsz & Hzero).
  { rewrite Efl. by destruct (jf_compress_xz f). }
  fold h in Hsig, Hflags, Hfid, Hsz, Hzero.
  set (g := set_sizes (set_mem f m) size size).
  assert (forall o, 0 <= o -> o + 8 <= 240 -> hdr o g = load64 h o) as H64.
  { intros o H1 H2. apply load64_ext. intros x Hx. apply Hmh. lia. }
  assert (hdr_state g = STATE_OFFLINE) as Hst.
  { unfold hdr_state. cbn. rewrite Hmh, Hzero by (unfold off_state; lia). done. }
  assert (forall o, 96 <= o <= 152 \/ 176 <= o <= 232 -> hdr o g = 0) as Hg0.
  { intros o Ho. rewrite H64 by lia. apply load64_zero. intros x Hx. apply Hzero. lia. }
  assert (load32 (jf_mem g) off_incompatible_flags = header_flags f) as Hgf.
  { rewrite <- Hflags. apply load32_ext. intros x Hx. apply Hmh. unfold off_incompatible_flags in Hx. lia. }
  split_and!; [done| |].
  { change (jf_mem _) with m. rewrite <- Hfid. apply load_bytes_ext. intros x Hx. apply Hmh. unfold off_file_id in Hx. lia. }
  rewrite verify_header_ok.
  - rewrite Hgf, Efl. unfold g, set_compress. cbn. rewrite <- Hlz4. by destruct f as [? ? ? ? ? ? [] ? ? ? ? ? ? ?].
  - split; rewrite ?Hgf, ?Efl, ?Hst.
    + rewrite <- Hsig. apply load_bytes_ext. intros x Hx. apply Hmh. unfold off_signature in Hx. lia.
    + destruct (jf_compress_xz f); auto.
    + apply load32_zero. intros x Hx. cbn. unfold off_compatible_flags in Hx. rewrite Hmh, Hzero by lia. done.
    + rewrite H64 by (unfold off_header_size; lia). done.
    + rewrite Hg0 by (vm_compute; intuition done). cbn. unfold sizeof_Header in Hsize. lia.
    + rewrite Hg0 by (vm_compute; intuition done). done.
    + rewrite !Hg0 by (vm_compute; intuition done). done.
    + repeat constructor; rewrite Hg0 by (vm_compute; intuition done); done.
  - by rewrite Hst.
  - done.
Qed.

Lemma entry_seqnum_ok f seqnum :
  mem_ok (jf_mem f) -> hdr off_tail_entry_seqnum f < u64_max -> 0 <= jf_ext_seqnum f < u64_max ->
  exists r f', journal_file_entry_seqnum seqnum f = (Ok r, f')
    /\ hdr off_tail_entry_seqnum f < r /\ (seqnum = true -> jf_ext_seqnum f < r /\ jf_ext_seqnum f' = r)
    /\ (seqnum = false -> r = hdr off_tail_entry_seqnum f + 1 /\ jf_ext_seqnum f' = jf_ext_seqnum f)
    /\ hdr off_tail_entry_seqnum f' = r
    /\ hdr off_head_entry_seqnum f'
       = (if hdr off_head_entry_seqnum f =? 0 then r else hdr off_head_entry_seqnum f)
    /\ agree (fun a => a < off_tail_entry_seqnum \/ off_head_entry_seqnum + 8 <= a) (jf_mem f) (jf_mem f')
    /\ mem_ok (jf_mem f') /\ f' = set_mem (if seqnum then set_ext_seqnum f r else f) (jf_mem f').
Proof.
  intros Hm Ht Hc. pose proof (load64_range (jf_mem f) off_tail_entry_seqnum Hm) as Hr.
  fold (hdr off_tail_entry_seqnum f) in Hr. unfold is_u64, u64_max in *.
  unfold journal_file_entry_seqnum. run. fold (hdr off_tail_entry_seqnum f).
  rewrite !(u64_small (_ + 1)) by (unfold is_u64; lia).
  set (t := hdr off_tail_entry_seqnum f) in *. set (c := jf_ext_seqnum f) in *.
  set (r := if seqnum && (t + 1 <? c + 1) then c + 1 else t + 1).
  assert (t < r < 18446744073709551616 /\ (seqnum = true -> c < r) /\ (seqnum = false -> r = t + 1)) as (Hr1 & Hr2 & Hr3).
  { unfold r. destruct seqnum; simpl; zcases; (split_and!; [lia|lia|intros; done || lia..]). }
  set (f0 := if seqnum then set_ext_seqnum f r else f).
  assert (when seqnum (modify (fun f => set_ext_seqnum f r)) f = (Ok tt, f0)) as Hwhen
    by (unfold f0; by destruct seqnum).
  rewrite (run_bind _ _ _ _ _ Hwhen). run. cbn [set_mem jf_mem].
  assert (jf_mem f0 = jf_mem f) as Hf0 by (unfold f0; by destruct seqnum). rewrite Hf0.
  assert (load64 (store64 (jf_mem f) off_tail_entry_seqnum r) off_head_entry_seqnum = hdr off_head_entry_seqnum f) as ->.
  { apply load64_store64_ne. unfold off_tail_entry_seqnum, off_head_entry_seqnum. lia. }
  set (f1 := set_mem f0 (store64 (jf_mem f) off_tail_entry_seqnum r)).
  set (f2 := if hdr off_head_entry_seqnum f =? 0 then set_mem f1 (store64 (jf_mem f1) off_head_entry_seqnum r) else f1).
  assert (when (hdr off_head_entry_seqnum f =? 0) (wr off_head_entry_seqnum r) f1 = (Ok tt, f2)) as Hw2
    by (unfold f2, when; by destruct (_ =? 0)).
  rewrite (run_bind _ _ _ _ _ Hw2).
  assert (jf_ext_seqnum f2 = jf_ext_seqnum f0) as Hext by (unfold f2; by destruct (_ =? 0)).
  assert (hdr off_tail_entry_seqnum f2 = r) as Htail.
  { unfold f2, hdr. destruct (_ =? 0); cbn [set_mem jf_mem f1].
    - rewrite load64_store64_ne by (unfold off_tail_entry_seqnum, off_head_entry_seqnum; lia).
      apply load64_store64_eq. unfold is_u64. lia.
    - apply load64_store64_eq. unfold is_u64. lia. }
  exists r, f2. split_and!.
  - done.
  - lia.
  - intros ->. split; [auto|]. by rewrite Hext.
  - intros ->. split; [auto|]. by rewrite Hext.
  - done.
  - unfold f2, hdr. fold (hdr off_head_entry_seqnum f). destruct (hdr off_head_entry_seqnum f =? 0) eqn:E.
    + cbn [set_mem jf_mem]. apply load64_store64_eq. unfold is_u64. lia.
    + cbn [set_mem jf_mem f1]. apply load64_store64_ne. unfold off_tail_entry_seqnum, off_head_entry_seqnum. lia.
  - unfold f2. destruct (_ =? 0); cbn [set_mem jf_mem f1];
      unfold off_tail_entry_seqnum, off_head_entry_seqnum; [eapply agree_trans; [|apply agree_store64; lia]|];
      apply agree_store64; lia.
  - unfold f2. destruct (_ =? 0); cbn [set_mem jf_mem f1]; auto with mem.
  - unfold f2. destruct (_ =? 0); cbn [set_mem jf_mem f1]; unfold f1, f0; by destruct seqnum.
Qed.

(** C22 A sequence number handed out is greater than every one handed out before by
    this file and, when the caller keeps a counter, than the counter; the header and
    the counter take the new value, and the first one is remembered. *)
Theorem journal_file_entry_seqnum_grows f seqnum :
  mem_ok (jf_mem f) -> hdr off_tail_entry_seqnum f < u64_max -> 0 <= jf_ext_seqnum f < u64_max ->
  exists r f', journal_file_entry_seqnum seqnum f = (Ok r, f')
    /\ hdr off_tail_entry_seqnum f < r /\ (seqnum = true -> jf_ext_seqnum f < r /\ jf_ext_seqnum f' = r)
    /\ (seqnum = false -> r = hdr off_tail_entry_seqnum f + 1 /\ jf_ext_seqnum f' = jf_ext_seqnum f)
    /\ hdr off_tail_entry_seqnum f' = r
    /\ hdr off_head_entry_seqnum f'
       = (if hdr off_head_entry_seqnum f =? 0 then r else hdr off_head_entry_seqnum f)
    /\ agree (fun a => a < off_tail_entry_seqnum \/ off_head_entry_seqnum + 8 <= a) (jf_mem f) (jf_mem f').
Proof.
  intros Hm Ht Hc. destruct (entry_seqnum_ok f seqnum Hm Ht Hc) as (r & f' & H & ? & ? & ? & ? & ? & ? & _).
  exists r, f'. split_and!; done || tauto.
Qed.

(** C21 journal_file_allocate either makes the file cover the range it is asked for,
    never growing the arena beyond a configured maximum and writing nothing but the
    arena size, or fails and leaves the contents alone; it cannot fail an assertion. *)
Theorem journal_file_allocate_covers e f off size :
  page_ok e -> mem_ok (jf_mem f) -> arena_end f <= jf_last_size f <= jf_size f -> jf_size f < 2 ^ 63 ->
  0 <= off -> 0 < size -> off + size < 2 ^ 62 ->
  exists r f', journal_file_allocate e off size f = (r, f')
    /\ match r with
       | Ok _ => off + size <= arena_end f' <= jf_last_size f' /\ arena_end f <= arena_end f'
           /\ (arena_end f' = arena_end f \/ max_size (jf_metrics f) <= 0
               \/ arena_end f' <= max_size (jf_metrics f))
           /\ agree (fun a => a < off_arena_size \/ off_arena_size + 8 <= a) (jf_mem f) (jf_mem f')
       | Err _ => jf_mem f' = jf_mem f
       | _ => False
       end.
Proof.
  intros Hp Hm Hls Hsz Ho Hs Hb.
  destruct (allocate_ok e Hp f off size Hm Hls Hsz Ho Hs Hb) as (f' & [[Hrun Hal]|(er & Hrun & s & -> & _)]).
  - exists (Ok tt), f'. split; [done|]. destruct Hal as (_ & ? & _ & ? & ? & _ & _ & ?). done.
  - by exists (Err er), (set_sizes f s (jf_last_size f)).
Qed.
