(* ===== verification/Metrics.v ===== *)
(** lib/journal-file.c: the limits on the size of
    journal files and when to rotate them. *)
From S2P Require Import Prelude Memory Lookup3 JournalDef JournalFile ObjectLemmas ArenaProofs.

Definition DEFAULT_MAX_USE_LOWER : Z := 1024 * 1024.
Definition DEFAULT_MAX_USE_UPPER : Z := 4 * 1024 * 1024 * 1024.
Definition DEFAULT_MAX_SIZE_UPPER : Z := 128 * 1024 * 1024.
Definition DEFAULT_KEEP_FREE_UPPER : Z := 4 * 1024 * 1024 * 1024.
Definition DEFAULT_KEEP_FREE : Z := 1024 * 1024.

Definition journal_reset_metrics : JournalMetrics := mkMetrics u64_max u64_max u64_max u64_max u64_max.

Section Metrics.
Context (e : Env).

(** [fs]: fstatvfs's f_frsize and f_blocks, when it succeeds.  One definition per
    field, in the order of the code. *)
Definition fs_size (fs : option (Z * Z)) : Z :=
  match fs with Some (frsize, blocks) => u64 (frsize * blocks) | None => 0 end.

Definition default_max_use (fs m : Z) : Z :=
  if m =? u64_max then
    (if 0 <? fs then
       let v := PAGE_ALIGN e (fs / 10) in
       let v := if DEFAULT_MAX_USE_UPPER <? v then DEFAULT_MAX_USE_UPPER else v in
       if v <? DEFAULT_MAX_USE_LOWER then DEFAULT_MAX_USE_LOWER else v
     else DEFAULT_MAX_USE_LOWER)
  else
    let v := PAGE_ALIGN e m in
    if v <? JOURNAL_FILE_SIZE_MIN * 2 then JOURNAL_FILE_SIZE_MIN * 2 else v.

Definition default_max_size (max_use m : Z) : Z :=
  let v :=
    if m =? u64_max then
      let v := PAGE_ALIGN e (max_use / 8) in
      if DEFAULT_MAX_SIZE_UPPER <? v then DEFAULT_MAX_SIZE_UPPER else v
    else PAGE_ALIGN e m in
  if v <? JOURNAL_FILE_SIZE_MIN then JOURNAL_FILE_SIZE_MIN else v.

Definition default_keep_free (fs m : Z) : Z :=
  if m =? u64_max then
    (if 0 <? fs then
       let v := PAGE_ALIGN e (u64 (fs * 3) / 20) in
       if DEFAULT_KEEP_FREE_UPPER <? v then DEFAULT_KEEP_FREE_UPPER else v
     else DEFAULT_KEEP_FREE)
  else m.

Definition journal_default_metrics (m : JournalMetrics) (fs : option (Z * Z)) : JournalMetrics :=
  let fs := fs_size fs in
  let use := default_max_use fs (max_use m) in
  let size := default_max_size use (max_size m) in
  let use := if use <? u64 (size * 2) then u64 (size * 2) else use in
  let '(min, size) :=
    if min_size m =? u64_max then (JOURNAL_FILE_SIZE_MIN, size)
    else
      let min := PAGE_ALIGN e (min_size m) in
      let min := if min <? JOURNAL_FILE_SIZE_MIN then JOURNAL_FILE_SIZE_MIN else min in
      (min, if size <? min then min else size) in
  mkMetrics size min use (min_use m) (default_keep_free fs (keep_free m)).

(** [now]: the realtime clock. *)
Definition journal_file_rotate_suggested (f : JournalFile) (max_file_usec now : Z) : bool :=
  if hdr off_header_size f <? sizeof_Header then true
  else if header_contains off_n_data f
          && ((hdr off_data_hash_table_size f / sizeof_HashItem) * 3 <? u64 (hdr off_n_data f * 4)) then true
  else if header_contains off_n_fields f
          && ((hdr off_field_hash_table_size f / sizeof_HashItem) * 3 <? u64 (hdr off_n_fields f * 4)) then true
  else if header_contains off_n_data f && header_contains off_n_fields f
          && (0 <? hdr off_n_data f) && (hdr off_n_fields f =? 0) then true
  else if (0 <? max_file_usec)
          && (let h := hdr off_head_entry_realtime f in (0 <? h) && (u64 (h + max_file_usec) <? now)) then true
  else false.

(** * Properties *)

Context (Hpage : page_ok e).

Lemma PAGE_ALIGN_spec x : 0 <= x <= 2 ^ 63 -> x <= PAGE_ALIGN e x < x + 2 ^ 32.
Proof.
  intros Hx. destruct Hpage as (k & Hk & E). unfold PAGE_ALIGN. rewrite E.
  assert (2 ^ k <= 2 ^ 32) by (apply Z.pow_le_mono_r; lia).
  pose proof (align_to_spec x k ltac:(lia) ltac:(lia) ltac:(lia)). lia.
Qed.

(** A limit that is to be picked automatically, or one far from overflowing. *)
Definition limit_ok (x : Z) : Prop := x = u64_max \/ 0 <= x < 2 ^ 61.

Lemma default_max_use_spec fs m :
  0 <= fs < 2 ^ 61 -> limit_ok m ->
  DEFAULT_MAX_USE_LOWER <= default_max_use fs m < 2 ^ 62 /\ (m <> u64_max -> m <= default_max_use fs m).
Proof.
  intros Hfs Hm. unfold default_max_use, DEFAULT_MAX_USE_LOWER, DEFAULT_MAX_USE_UPPER, JOURNAL_FILE_SIZE_MIN.
  destruct (Z.eqb_spec m u64_max) as [->|Hne].
  - pose proof (PAGE_ALIGN_spec (fs / 10) ltac:(mlia)). split; [zcases; mlia|done].
  - destruct Hm as [|Hm]; [done|]. pose proof (PAGE_ALIGN_spec m ltac:(lia)). cbv zeta. zcases; lia.
Qed.

Lemma default_max_size_spec use m :
  0 <= use < 2 ^ 62 -> limit_ok m ->
  JOURNAL_FILE_SIZE_MIN <= default_max_size use m < 2 ^ 62 /\ (m <> u64_max -> m <= default_max_size use m).
Proof.
  intros Hu Hm. unfold default_max_size, DEFAULT_MAX_SIZE_UPPER, JOURNAL_FILE_SIZE_MIN.
  destruct (Z.eqb_spec m u64_max) as [->|Hne].
  - pose proof (PAGE_ALIGN_spec (use / 8) ltac:(mlia)). cbv zeta. split; [zcases; lia|done].
  - destruct Hm as [|Hm]; [done|]. pose proof (PAGE_ALIGN_spec m ltac:(lia)). cbv zeta. zcases; lia.
Qed.

(** journal_default_metrics replaces every automatic limit but min_use and rounds
    the others up: files may always grow to the minimum size, min_size is at most
    max_size, no limit set by the user is lowered, keep_free is kept, and two files of
    the maximum size fit into max_use unless min_size was set above max_size. *)
Theorem journal_default_metrics_bounds m fs :
  limit_ok (max_use m) -> limit_ok (max_size m) -> limit_ok (min_size m) -> fs_size fs < 2 ^ 61 ->
  let m' := journal_default_metrics m fs in
  JOURNAL_FILE_SIZE_MIN <= min_size m' <= max_size m'
  /\ 2 * JOURNAL_FILE_SIZE_MIN <= max_use m'
  /\ (max_use m <> u64_max -> max_use m <= max_use m')
  /\ (max_size m <> u64_max -> max_size m <= max_size m')
  /\ (min_size m <> u64_max -> min_size m <= min_size m')
  /\ (min_size m = u64_max -> 2 * max_size m' <= max_use m')
  /\ (keep_free m <> u64_max -> keep_free m' = keep_free m)
  /\ (keep_free m = u64_max -> keep_free m' <= DEFAULT_KEEP_FREE_UPPER)
  /\ min_use m' = min_use m.
Proof.
  intros Huse Hsize Hmin Hfs.
  assert (0 <= fs_size fs) as Hfs0 by (destruct fs as [[a b]|]; simpl; [apply u64_range|lia]).
  destruct (default_max_use_spec (fs_size fs) (max_use m)) as [Hu1 Hu2]; [lia|done|].
  assert (DEFAULT_MAX_USE_LOWER = 1048576) as Hlow by done.
  destruct (default_max_size_spec (default_max_use (fs_size fs) (max_use m)) (max_size m)) as [Hs1 Hs2]; [lia|done|].
  cbv zeta. unfold journal_default_metrics, default_keep_free.
  set (use := default_max_use _ _) in *. set (size := default_max_size _ _) in *.
  unfold DEFAULT_KEEP_FREE, DEFAULT_KEEP_FREE_UPPER, JOURNAL_FILE_SIZE_MIN in *.
  rewrite (u64_small (size * 2)) by (unfold is_u64; lia).
  destruct (Z.eqb_spec (min_size m) u64_max) as [Emin|Emin];
    destruct (Z.eqb_spec (keep_free m) u64_max) as [Ek|Ek]; cbv zeta.
  3, 4: destruct Hmin as [|Hmin]; [done|]; pose proof (PAGE_ALIGN_spec (min_size m) ltac:(lia)).
  all: cbn [max_size min_size max_use min_use keep_free]; split_and!; intros; try done; zcases; lia.
Qed.

(** journal_file_rotate_suggested suggests a rotation exactly when the header is an
    old one, a hash table is filled by more than three quarters, the data objects are
    not indexed by field objects or the first entry is older than the limit. *)
Theorem journal_file_rotate_suggested_correct f max_file_usec now :
  0 <= hdr off_n_data f < 2 ^ 61 -> 0 <= hdr off_n_fields f < 2 ^ 61 ->
  0 <= hdr off_head_entry_realtime f < 2 ^ 63 -> 0 <= max_file_usec < 2 ^ 63 ->
  let load n off_size := 4 * hdr n f > 3 * (hdr off_size f / sizeof_HashItem) in
  journal_file_rotate_suggested f max_file_usec now = true
  <-> hdr off_header_size f < sizeof_Header
      \/ (header_contains off_n_data f = true /\ load off_n_data off_data_hash_table_size)
      \/ (header_contains off_n_fields f = true /\ load off_n_fields off_field_hash_table_size)
      \/ (header_contains off_n_data f = true /\ header_contains off_n_fields f = true
          /\ 0 < hdr off_n_data f /\ hdr off_n_fields f = 0)
      \/ (0 < max_file_usec /\ 0 < hdr off_head_entry_realtime f
          /\ hdr off_head_entry_realtime f + max_file_usec < now).
Proof.
  intros Hd Hf Hh Hm load. unfold journal_file_rotate_suggested, load. clear load.
  rewrite !(u64_small (_ * 4)), u64_small by (unfold is_u64; lia).
  destruct (Z.ltb_spec (hdr off_header_size f) sizeof_Header); [split; [by left|done]|].
  destruct (header_contains off_n_data f), (header_contains off_n_fields f); cbn [andb]; zcases; cbn [andb];
    split; intros; try done; try lia; intuition (try discriminate; lia).
Qed.
End Metrics.

(** * Witnesses *)

Definition metrics_env : Env :=
  mkEnv 4096 None (fun _ _ => 0) 0 (fun _ _ _ => 0) (fun n => n) (fun _ => None) (fun _ => None) (0, 0) 0.

Lemma metrics_page : page_ok metrics_env.
Proof. exists 12. split; [lia|done]. Qed.

(** All automatic on a file system of 10 GiB: 1 GiB in all, 128 MiB a file. *)
Lemma default_metrics_witness :
  let m' := journal_default_metrics metrics_env journal_reset_metrics (Some (4096, 2621440)) in
  max_size m' = 128 * 1024 * 1024 /\ 2 * max_size m' <= max_use m'.
Proof.
  destruct (journal_default_metrics_bounds metrics_env metrics_page journal_reset_metrics (Some (4096, 2621440)))
    as (_ & _ & _ & _ & _ & H & _).
  - by left.
  - by left.
  - by left.
  - vm_compute. reflexivity.
  - split; [vm_compute; reflexivity|]. apply H. reflexivity.
Defined.

(** 1000 data objects in a table of 1024 items *)
Definition full_file : JournalFile :=
  mkJF (store64 (store64 (store64 ∅ off_header_size sizeof_Header) off_n_data 1000) off_data_hash_table_size 16384)
    304 304 3 true true true false false (mkMetrics 0 0 0 0 0) [] 0 0 0.

Lemma rotate_suggested_witness : journal_file_rotate_suggested full_file 0 0 = true.
Proof.
  apply journal_file_rotate_suggested_correct.
  1-4: split; [vm_compute; discriminate|vm_compute; reflexivity].
  right. left. split; vm_compute; reflexivity.
Defined.

(** A min_size above max_size raises max_size when max_use is settled already, so
    that a single file may outgrow the space all of them may use. *)
Theorem min_size_exceeds_max_use :
  let m := journal_default_metrics metrics_env
             (mkMetrics (16 * 1024 * 1024) (64 * 1024 * 1024) (32 * 1024 * 1024) u64_max u64_max) None in
  max_size m = 64 * 1024 * 1024 /\ max_use m = 32 * 1024 * 1024.
Proof. by vm_compute. Qed.
