(* ===== verification/HashTableProofs.v ===== *)
(** The hash tables of a journal file: the chains of data and field objects, how
    journal_file_link_data and journal_file_link_field extend them and how the two
    find functions walk them. *)
From S2P Require Import Prelude Lookup3 Uuid Memory JournalDef JournalFile ObjectLemmas ArenaProofs.

(** * Objects of the arena do not overlap *)

Lemma objects_from_range f p objs end_ a ty s :
  objects_from f p objs end_ -> (a, ty, s) ∈ objs -> p <= a /\ a + s <= end_ /\ is_object f ty a s.
Proof.
  revert p. induction objs as [|[[b t] r] objs IH]; intros p; simpl; [by intros _ ?%not_elem_of_nil|].
  intros (-> & Ho & Hr) [[= -> -> ->]|Hin]%elem_of_cons.
  - apply objects_from_le in Hr. pose proof (object_ALIGN64 _ _ _ _ Ho). split_and!; [lia|lia|done].
  - destruct (IH _ Hr Hin) as (? & ? & ?). pose proof (object_ALIGN64 _ _ _ _ Ho). split_and!; [lia|lia|done].
Qed.

Lemma objects_from_disjoint f p objs end_ a ty s a' ty' s' :
  objects_from f p objs end_ -> (a, ty, s) ∈ objs -> (a', ty', s') ∈ objs ->
  (a, ty, s) = (a', ty', s') \/ a + s <= a' \/ a' + s' <= a.
Proof.
  revert p. induction objs as [|[[b t] r] objs IH]; intros p; simpl; [by intros _ ?%not_elem_of_nil|].
  intros (-> & Ho & Hr). pose proof (object_ALIGN64 _ _ _ _ Ho).
  intros [[= -> -> ->]|H1]%elem_of_cons [[= -> -> ->]|H2]%elem_of_cons.
  - by left.
  - pose proof (objects_from_range _ _ _ _ _ _ _ Hr H2). lia.
  - pose proof (objects_from_range _ _ _ _ _ _ _ Hr H1). lia.
  - by eapply IH.
Qed.

Section ArenaObjects.
Context (f : JournalFile) (objs : list (Z * Z * Z)) (end_ : Z) (Har : arena f objs end_).

Lemma arena_object a ty s : (a, ty, s) ∈ objs -> is_object f ty a s /\ 240 <= a /\ a + s <= end_.
Proof.
  intros Hin. destruct (objects_from_range _ _ _ _ _ _ _ (ar_objects _ _ _ Har) Hin) as (? & ? & ?).
  pose proof (ar_header _ _ _ Har). split_and!; [done|lia|done].
Qed.

Lemma arena_disjoint a ty s a' ty' s' :
  (a, ty, s) ∈ objs -> (a', ty', s') ∈ objs -> a <> a' -> a + s <= a' \/ a' + s' <= a.
Proof.
  intros H1 H2 Hne. destruct (objects_from_disjoint _ _ _ _ _ _ _ _ _ _ (ar_objects _ _ _ Har) H1 H2) as [[=]|?];
    [congruence|done].
Qed.

(** An offset determines its object. *)
Lemma arena_object_unique a ty s ty' s' :
  (a, ty, s) ∈ objs -> (a, ty', s') ∈ objs -> ty = ty' /\ s = s'.
Proof.
  intros H1 H2. destruct (arena_object _ _ _ H1) as [[] _]. destruct (arena_object _ _ _ H2) as [[] _].
  split; congruence.
Qed.

End ArenaObjects.

(** * Chains *)

(** [hash] and [next_hash_offset] are at the same place in data and field objects. *)
Definition obj_hash := 16.
Definition obj_next_hash := 24.

(** [lia] with the offsets evaluated. *)
Ltac olia := unfold obj_hash, obj_next_hash, head_hash_offset, tail_hash_offset, sizeof_HashItem,
  hash_table_items in *; lia.

Fixpoint hchain (f : JournalFile) (objs : list (Z * Z * Z)) (ty p : Z) (l : list Z) : Prop :=
  match l with
  | [] => p = 0
  | a :: l => p = a /\ (exists s, (a, ty, s) ∈ objs) /\ hchain f objs ty (load64 (jf_mem f) (a + obj_next_hash)) l
  end.

(** The table at [tbl] has [n] buckets; bucket [h] holds the chain [chains h] of
    objects of type [ty]; the table is the payload of an object of type [tty]. *)
Record htable (f : JournalFile) (objs : list (Z * Z * Z)) (ty tty tbl n : Z) (chains : Z -> list Z) : Prop := {
  ht_n : 0 < n;
  ht_obj : exists s, (tbl - hash_table_items, tty, s) ∈ objs /\ hash_table_items + 16 * n <= s;
  ht_chain : forall h, 0 <= h < n -> hchain f objs ty (load64 (jf_mem f) (head_hash_offset tbl h)) (chains h);
  ht_tail : forall h, 0 <= h < n -> load64 (jf_mem f) (tail_hash_offset tbl h) = default 0 (last (chains h));
  ht_hash : forall h a, 0 <= h < n -> a ∈ chains h -> load64 (jf_mem f) (a + obj_hash) mod n = h;
  ht_nodup : forall h, 0 <= h < n -> NoDup (chains h) }.

Lemma hchain_objs f objs ty p l a : hchain f objs ty p l -> a ∈ l -> exists s, (a, ty, s) ∈ objs.
Proof.
  revert p. induction l as [|b l IH]; intros p; simpl; [by intros _ ?%not_elem_of_nil|].
  intros (-> & Hs & Hc) [->|Hin]%elem_of_cons; [done|by eapply IH].
Qed.

(** A chain depends on its objects' next_hash_offset only. *)
Lemma hchain_agree f f' objs objs' ty p l :
  hchain f objs ty p l -> (forall x, x ∈ objs -> x ∈ objs') ->
  (forall a, a ∈ l -> load64 (jf_mem f') (a + obj_next_hash) = load64 (jf_mem f) (a + obj_next_hash)) ->
  hchain f' objs' ty p l.
Proof.
  revert p. induction l as [|a l IH]; intros p; simpl; [done|].
  intros (-> & [s Hs] & Hc) Ho Hn. split_and!; [done|eauto|].
  rewrite Hn by constructor. apply IH; [done|done|]. intros. apply Hn. by constructor.
Qed.

(** Appending to a non-empty chain. *)
Lemma hchain_snoc f f' objs ty p l o :
  hchain f objs ty p l -> l <> [] -> NoDup l ->
  (exists s, (o, ty, s) ∈ objs) -> load64 (jf_mem f') (o + obj_next_hash) = 0 ->
  (forall a, a ∈ l -> a <> default 0 (last l) ->
     load64 (jf_mem f') (a + obj_next_hash) = load64 (jf_mem f) (a + obj_next_hash)) ->
  load64 (jf_mem f') (default 0 (last l) + obj_next_hash) = o ->
  hchain f' objs ty p (l ++ [o]).
Proof.
  revert p. induction l as [|a l IH]; intros p; [done|].
  intros (-> & Hs & Hc) _ [Ha Hnd]%NoDup_cons Ho Hz Hsame Hlast. simpl. split_and!; [done|done|].
  destruct l as [|b l].
  - simpl in Hlast. rewrite Hlast. simpl. split_and!; done.
  - change (last (a :: b :: l)) with (last (b :: l)) in *.
    rewrite Hsame; [|by constructor|].
    + apply IH; try done. intros c Hin. apply Hsame. by constructor.
    + destruct (last (b :: l)) as [z|] eqn:El; [|by apply last_None in El].
      simpl. intros ->. apply Ha. apply last_Some in El as [l' El]. rewrite El. apply elem_of_app. right. constructor.
Qed.

(** A change that leaves the table and the objects' links alone. *)
Lemma htable_agree f f' objs objs' ty tty tbl n chains :
  htable f objs ty tty tbl n chains ->
  (forall x, x ∈ objs -> x ∈ objs') ->
  (forall a, tbl <= a < tbl + 16 * n -> byte_at (jf_mem f') a = byte_at (jf_mem f) a) ->
  (forall o s a, (o, ty, s) ∈ objs -> o + obj_hash <= a < o + obj_next_hash + 8 ->
     byte_at (jf_mem f') a = byte_at (jf_mem f) a) ->
  htable f' objs' ty tty tbl n chains.
Proof.
  intros [Hn (s & Hs & Hsz) Hc Ht Hh Hnd] Ho Htbl Hobj.
  assert (forall h a, 0 <= h < n -> a ∈ chains h -> exists s, (a, ty, s) ∈ objs) as Hin.
  { intros h a Hr Ha. eapply hchain_objs; [by apply Hc|done]. }
  split; try done.
  - exists s. auto.
  - intros h Hr. replace (load64 (jf_mem f') (head_hash_offset tbl h)) with (load64 (jf_mem f) (head_hash_offset tbl h)).
    + eapply hchain_agree; [by apply Hc|done|]. intros a Ha. destruct (Hin h a Hr Ha) as [s' Hs'].
      apply load64_ext. intros x Hx. eapply Hobj; [done|]. unfold obj_hash, obj_next_hash in *. lia.
    + symmetry. apply load64_ext. intros x Hx. apply Htbl. unfold head_hash_offset, sizeof_HashItem in *. lia.
  - intros h Hr. rewrite <- Ht by done. apply load64_ext. intros x Hx. apply Htbl.
    unfold tail_hash_offset, sizeof_HashItem in *. lia.
  - intros h a Hr Ha. rewrite <- (Hh h a) by done. destruct (Hin h a Hr Ha) as [s' Hs'].
    f_equal. apply load64_ext. intros x Hx. eapply Hobj; [done|]. unfold obj_hash, obj_next_hash in *. lia.
Qed.

(** * Linking an object *)

Definition link_mem (m : mem) (tbl h o : Z) : mem :=
  let p := load64 m (tail_hash_offset tbl h) in
  let m := if p =? 0 then store64 m (head_hash_offset tbl h) o else store64 m (p + obj_next_hash) o in
  store64 m (tail_hash_offset tbl h) o.

(** The addresses linking does not write: outside the table and outside the
    links of the objects of type [ty]. *)
Definition link_frame (objs : list (Z * Z * Z)) (ty tbl n a : Z) : Prop :=
  ~ (tbl <= a < tbl + 16 * n)
  /\ forall b s, (b, ty, s) ∈ objs -> ~ (b + obj_next_hash <= a < b + obj_next_hash + 8).

Section Link.
Context (f : JournalFile) (objs : list (Z * Z * Z)) (end_ ty tty tbl n : Z) (chains : Z -> list Z).
Hypothesis (Har : arena f objs end_) (Hht : htable f objs ty tty tbl n chains)
  (Hty : ty <> tty) (Hmin : obj_next_hash + 8 <= minimum_header_size ty).

Lemma chain_object h a : 0 <= h < n -> a ∈ chains h -> exists s, (a, ty, s) ∈ objs.
Proof. intros Hr Ha. eapply hchain_objs; [by eapply ht_chain|done]. Qed.

(** Objects of the type and the table do not overlap. *)
Lemma table_disjoint a s :
  (a, ty, s) ∈ objs -> a + s <= tbl \/ tbl + 16 * n <= a.
Proof.
  intros Ha. destruct (ht_obj _ _ _ _ _ _ _ Hht) as (st & Hs & Hsz). unfold hash_table_items in *.
  destruct (arena_disjoint f objs end_ Har _ _ _ _ _ _ Ha Hs); [|lia..].
  intros ->. destruct (arena_object_unique f objs end_ Har _ _ _ _ _ Ha Hs). done.
Qed.

Lemma table_range : 240 + hash_table_items <= tbl /\ tbl + 16 * n <= end_.
Proof.
  destruct (ht_obj _ _ _ _ _ _ _ Hht) as (st & Hs & Hsz).
  destruct (arena_object f objs end_ Har _ _ _ Hs) as (_ & ? & ?). unfold hash_table_items in *. lia.
Qed.

Lemma object_bounds a s :
  (a, ty, s) ∈ objs -> 240 <= a /\ a + s <= end_ /\ obj_next_hash + 8 <= s.
Proof.
  intros Ha. destruct (arena_object f objs end_ Har _ _ _ Ha) as ([] & ? & ?). lia.
Qed.

Lemma tail_object h a : 0 <= h < n -> load64 (jf_mem f) (tail_hash_offset tbl h) = a -> a <> 0 ->
  chains h <> [] /\ default 0 (last (chains h)) = a /\ exists s, (a, ty, s) ∈ objs.
Proof.
  intros Hr Hl Ha. rewrite (ht_tail _ _ _ _ _ _ _ Hht) in Hl by done.
  destruct (last (chains h)) as [b|] eqn:E; simpl in Hl; [|done]. subst b.
  split_and!; [intros E'; by rewrite E' in E|done|]. apply (chain_object h); [done|].
  apply last_Some in E as [l' ->]. apply elem_of_app. right. constructor.
Qed.

Lemma link_mem_frame h o : 0 <= h < n -> agree (link_frame objs ty tbl n) (jf_mem f) (link_mem (jf_mem f) tbl h o).
Proof.
  intros Hr. unfold link_mem. eapply agree_trans.
  2:{ apply agree_store64. unfold link_frame, tail_hash_offset, sizeof_HashItem. intros x [Hx _]. lia. }
  destruct (Z.eqb_spec (load64 (jf_mem f) (tail_hash_offset tbl h)) 0) as [|Hne].
  - apply agree_store64. unfold link_frame, head_hash_offset, sizeof_HashItem. intros x [Hx _]. lia.
  - destruct (tail_object h _ Hr eq_refl Hne) as (_ & _ & s & Hs).
    apply agree_store64. intros x [_ Hx]. specialize (Hx _ _ Hs). lia.
Qed.

Lemma link_mem_ok h o : mem_ok (link_mem (jf_mem f) tbl h o).
Proof.
  pose proof (ar_mem _ _ _ Har). unfold link_mem. destruct (_ =? 0); auto with mem.
Qed.

Definition chains_add (h o : Z) : Z -> list Z := fun h' => if h' =? h then chains h ++ [o] else chains h'.

(** What linking writes to the links: only the link of the chain's last object. *)
Lemma link_next h o a s :
  0 <= h < n -> is_u64 o -> (a, ty, s) ∈ objs ->
  load64 (link_mem (jf_mem f) tbl h o) (a + obj_next_hash)
  = if (a =? default 0 (last (chains h))) && negb (a =? 0) then o
    else load64 (jf_mem f) (a + obj_next_hash).
Proof.
  intros Hr Ho Ha. pose proof (table_disjoint _ _ Ha). pose proof (object_bounds _ _ Ha).
  unfold link_mem. rewrite load64_store64_ne by (olia).
  rewrite (ht_tail _ _ _ _ _ _ _ Hht) by done.
  destruct (Z.eqb_spec (default 0 (last (chains h))) 0) as [E|Hne].
  - rewrite E. rewrite load64_store64_ne by (olia).
    destruct (Z.eqb_spec a 0); [lia|done].
  - destruct (Z.eqb_spec a (default 0 (last (chains h)))) as [<-|Hna]; simpl.
    + rewrite load64_store64_eq by done. destruct (Z.eqb_spec a 0); [lia|done].
    + destruct (tail_object h _ Hr eq_refl) as (_ & E & s' & Hs').
      { by rewrite (ht_tail _ _ _ _ _ _ _ Hht). }
      rewrite (ht_tail _ _ _ _ _ _ _ Hht) in Hs' by done.
      pose proof (object_bounds _ _ Hs').
      destruct (arena_disjoint f objs end_ Har _ _ _ _ _ _ Ha Hs' Hna); rewrite load64_store64_ne by olia; done.
Qed.

Lemma link_table h o h' :
  0 <= h < n -> 0 <= h' < n -> is_u64 o ->
  load64 (link_mem (jf_mem f) tbl h o) (tail_hash_offset tbl h')
    = (if h' =? h then o else load64 (jf_mem f) (tail_hash_offset tbl h'))
  /\ load64 (link_mem (jf_mem f) tbl h o) (head_hash_offset tbl h')
    = (if (h' =? h) && bool_decide (chains h = []) then o else load64 (jf_mem f) (head_hash_offset tbl h')).
Proof.
  intros Hr Hr' Ho. unfold link_mem.
  assert ((load64 (jf_mem f) (tail_hash_offset tbl h) =? 0) = bool_decide (chains h = [])) as ->.
  { destruct (Z.eqb_spec (load64 (jf_mem f) (tail_hash_offset tbl h)) 0) as [E|E].
    - symmetry. apply bool_decide_eq_true. rewrite (ht_tail _ _ _ _ _ _ _ Hht) in E by done.
      destruct (last (chains h)) as [b|] eqn:El; [|by apply last_None].
      simpl in E. subst b. destruct (chain_object h 0 Hr) as [s Hs].
      { apply last_Some in El as [l' ->]. apply elem_of_app. right. constructor. }
      pose proof (object_bounds _ _ Hs). lia.
    - symmetry. apply bool_decide_eq_false. by destruct (tail_object h _ Hr eq_refl E). }
  destruct (bool_decide (chains h = [])) eqn:Eb; rewrite ?andb_true_r, ?andb_false_r.
  - split.
    + destruct (Z.eqb_spec h' h) as [->|]; [by apply load64_store64_eq|].
      rewrite !load64_store64_ne; [done|olia..].
    + rewrite load64_store64_ne by (olia).
      destruct (Z.eqb_spec h' h) as [->|]; [by apply load64_store64_eq|].
      rewrite !load64_store64_ne; [done|olia..].
  - apply bool_decide_eq_false in Eb.
    assert (exists s, (load64 (jf_mem f) (tail_hash_offset tbl h), ty, s) ∈ objs) as [s Hs].
    { rewrite (ht_tail _ _ _ _ _ _ _ Hht) by done. destruct (last (chains h)) as [b|] eqn:El;
        [|by apply last_None in El]. apply (chain_object h); [done|].
      apply last_Some in El as [l' ->]. apply elem_of_app. right. constructor. }
    pose proof (table_disjoint _ _ Hs). pose proof (object_bounds _ _ Hs). split.
    + destruct (Z.eqb_spec h' h) as [->|]; [by apply load64_store64_eq|].
      rewrite !load64_store64_ne; [done|olia..].
    + rewrite !load64_store64_ne; [done|olia..].
Qed.

(** Linking [o] into bucket [h] appends it to the chain [h]. *)
Lemma link_htable f' h o s :
  0 <= h < n -> is_u64 o -> (o, ty, s) ∈ objs -> (forall h', 0 <= h' < n -> o ∉ chains h') ->
  load64 (jf_mem f) (o + obj_next_hash) = 0 -> load64 (jf_mem f) (o + obj_hash) mod n = h ->
  jf_mem f' = link_mem (jf_mem f) tbl h o ->
  htable f' objs ty tty tbl n (chains_add h o).
Proof.
  intros Hr Ho Hs Hnew Hz Hhash Hm. pose proof (object_bounds _ _ Hs).
  assert (forall a s, (a, ty, s) ∈ objs -> load64 (jf_mem f') (a + obj_hash) = load64 (jf_mem f) (a + obj_hash)) as Hkeep.
  { intros a s' Ha. rewrite Hm. apply (agree_load64 _ _ _ _ (link_mem_frame h o Hr)).
    pose proof (table_disjoint _ _ Ha). pose proof (object_bounds _ _ Ha). intros x Hx. split.
    - unfold obj_hash, obj_next_hash in *. lia.
    - intros b sb Hb. pose proof (object_bounds _ _ Hb). destruct (Z.eq_dec a b) as [->|Hne].
      + unfold obj_hash, obj_next_hash in *. lia.
      + destruct (arena_disjoint f objs end_ Har _ _ _ _ _ _ Ha Hb Hne); olia. }
  split.
  - eapply ht_n, Hht.
  - eapply ht_obj, Hht.
  - intros h' Hr'. rewrite Hm, (proj2 (link_table h o h' Hr Hr' Ho)). unfold chains_add.
    pose proof (ht_chain _ _ _ _ _ _ _ Hht h' Hr') as Hc.
    destruct (Z.eqb_spec h' h) as [->|Hne]; simpl.
    + destruct (bool_decide (chains h = [])) eqn:Eb.
      * apply bool_decide_eq_true in Eb. rewrite Eb. simpl. split_and!; [done|by exists s|].
        rewrite Hm, (link_next h o o s) by done. rewrite Eb. simpl.
        destruct (Z.eqb_spec o 0); [lia|done].
      * apply bool_decide_eq_false in Eb.
        assert (default 0 (last (chains h)) ∈ chains h) as Hlast.
        { destruct (last (chains h)) as [b|] eqn:El; [|by apply last_None in El].
          apply last_Some in El as [l' ->]. apply elem_of_app. right. constructor. }
        eapply hchain_snoc; [exact Hc|done|by eapply ht_nodup|by exists s|..].
        -- rewrite Hm, (link_next h o o s) by done.
           destruct (Z.eqb_spec o (default 0 (last (chains h)))) as [E|]; [|done].
           rewrite <- E in Hlast. by destruct (Hnew h Hr).
        -- intros a Ha Hna. destruct (chain_object h a Hr Ha) as [sa Hsa].
           rewrite Hm, (link_next h o a sa) by done. by destruct (Z.eqb_spec a (default 0 (last (chains h)))).
        -- destruct (chain_object h _ Hr Hlast) as [sl Hsl]. pose proof (object_bounds _ _ Hsl).
           rewrite Hm, (link_next h o _ sl) by done. rewrite Z.eqb_refl.
           destruct (Z.eqb_spec (default 0 (last (chains h))) 0); [lia|done].
    + eapply hchain_agree; [exact Hc|done|]. intros a Ha. destruct (chain_object h' a Hr' Ha) as [sa Hsa].
      rewrite Hm, (link_next h o a sa) by done.
      destruct (Z.eqb_spec a (default 0 (last (chains h)))) as [E|]; [|done].
      destruct (Z.eqb_spec a 0); [pose proof (object_bounds _ _ Hsa); lia|]. simpl.
      destruct (last (chains h)) as [b|] eqn:El; [|done]. simpl in E. subst b.
      exfalso. apply Hne. rewrite <- (ht_hash _ _ _ _ _ _ _ Hht h' a) by done. apply (ht_hash _ _ _ _ _ _ _ Hht); [done|].
      apply last_Some in El as [l' ->]. apply elem_of_app. right. constructor.
  - intros h' Hr'. rewrite Hm, (proj1 (link_table h o h' Hr Hr' Ho)). unfold chains_add.
    destruct (Z.eqb_spec h' h) as [->|]; [by rewrite last_snoc|]. by apply (ht_tail _ _ _ _ _ _ _ Hht).
  - intros h' a Hr' Ha. unfold chains_add in Ha. destruct (Z.eqb_spec h' h) as [->|].
    + apply elem_of_app in Ha as [Ha| ->%list_elem_of_singleton].
      * destruct (chain_object h a Hr Ha) as [sa Hsa]. rewrite (Hkeep _ _ Hsa). by apply (ht_hash _ _ _ _ _ _ _ Hht).
      * rewrite (Hkeep _ _ Hs). done.
    + destruct (chain_object h' a Hr' Ha) as [sa Hsa]. rewrite (Hkeep _ _ Hsa). by apply (ht_hash _ _ _ _ _ _ _ Hht).
  - intros h' Hr'. unfold chains_add. destruct (Z.eqb_spec h' h) as [->|]; [|by eapply ht_nodup].
    apply NoDup_app. split_and!; [by eapply ht_nodup| |apply NoDup_singleton].
    intros x Hx ->%list_elem_of_singleton. by apply (Hnew h).
Qed.

End Link.
