(* ===== verification/DataProofs.v ===== *)
(** The data and field objects of a journal file as two maps from contents to
    objects: the find functions look a content up, the append functions add it, and
    neither disturbs the other entries. *)
From S2P Require Import Prelude Lookup3 Uuid Memory JournalDef JournalFile ObjectLemmas ArenaProofs.
From S2P Require Import HashTableProofs.

(** * Contents of objects *)

Section Contents.
Context (e : Env).

Definition data_compressed (f : JournalFile) (a : Z) : bool :=
  negb (Z.land (byte_at (jf_mem f) (a + obj_flags)) OBJECT_COMPRESSION_MASK =? 0).

(** The stored bytes of a data object. *)
Definition data_raw (f : JournalFile) (a : Z) : list Z :=
  load_bytes (jf_mem f) (a + data_payload) (Z.to_nat (load64 (jf_mem f) (a + obj_size) - data_payload)).

(** What a data object holds. *)
Definition data_of (f : JournalFile) (a : Z) : option (list Z) :=
  if data_compressed f a then
    (if Z.land (byte_at (jf_mem f) (a + obj_flags)) OBJECT_COMPRESSION_MASK =? OBJECT_COMPRESSED_XZ
     then env_decompress e (data_raw f a) else None)
  else Some (data_raw f a).

(** What a field object holds. *)
Definition field_of (f : JournalFile) (a : Z) : list Z :=
  load_bytes (jf_mem f) (a + field_payload) (Z.to_nat (load64 (jf_mem f) (a + obj_size) - field_payload)).

(** A data object can be read and its hash is the hash of what it holds. *)
Record data_good (f : JournalFile) (a : Z) : Prop := {
  dg_data : exists d, data_of f a = Some d
    /\ load64 (jf_mem f) (a + data_hash) = data_hash64 d;
  dg_size : data_compressed f a = true -> data_payload < load64 (jf_mem f) (a + obj_size) }.

Definition field_good (f : JournalFile) (a : Z) : Prop :=
  load64 (jf_mem f) (a + field_hash) = data_hash64 (field_of f a).

Definition holds_data (f : JournalFile) (data : list Z) (a : Z) : bool :=
  bool_decide (data_of f a = Some data).
Definition holds_field (f : JournalFile) (field : list Z) (a : Z) : bool :=
  bool_decide (field_of f a = field).

(** * The find loops *)

Hypothesis (He : mmap_ok e).

Lemma find_data_loop_ok f objs end_ data : arena f objs end_ -> forall l n p,
  hchain f objs OBJECT_DATA p l -> (length l <= n)%nat ->
  (forall a, a ∈ l -> data_good f a) ->
  find_data_loop e n data (data_payload + zlen data) (data_hash64 data) p f
  = (Ok (List.find (holds_data f data) l), f).
Proof.
  intros Har. induction l as [|a l IH]; intros n p Hc Hn Hg.
  { cbn in Hc. subst p. by destruct n. }
  destruct Hc as (-> & [s Hs] & Hc). destruct n as [|n]; [simpl in Hn; lia|].
  destruct (arena_object f objs end_ Har _ _ _ Hs) as (Ho & Hpos & _).
  cbn [find_data_loop]. destruct (Z.eqb_spec a 0); [lia|].
  rewrite (run_bind _ _ _ _ _ (move_to_object_ok e _ _ _ _ _ He Ho (or_introl eq_refl))). run.
  specialize (IH n (load64 (jf_mem f) (a + data_next_hash_offset)) Hc ltac:(simpl in Hn; lia)
    ltac:(intros; apply Hg; by constructor)).
  destruct (Hg a ltac:(constructor)) as [(d & Hd & Hh) Hcomp]. cbn [List.find].
  assert (load64 (jf_mem f) (a + data_hash) <> data_hash64 data -> holds_data f data a = false) as Hne.
  { intros Hx. apply bool_decide_eq_false. rewrite Hd. intros [= ->]. done. }
  destruct (Z.eqb_spec (load64 (jf_mem f) (a + data_hash)) (data_hash64 data)) as [Heq|Hx]; cbn [negb];
    [|by rewrite Hne].
  clear Hne. run. unfold holds_data. unfold data_compressed in Hcomp.
  unfold data_of in Hd |- *. unfold data_compressed in *.
  set (flags := Z.land (byte_at (jf_mem f) (a + obj_flags)) OBJECT_COMPRESSION_MASK) in *.
  destruct (negb (flags =? 0)).
  - specialize (Hcomp eq_refl). run. unfold decompress_blob.
    change (load_bytes (jf_mem f) (a + data_payload) _) with (data_raw f a).
    destruct (flags =? OBJECT_COMPRESSED_XZ); [|done]. rewrite Hd.
    rewrite (bool_decide_ext (Some d = Some data) (d = data)) by (split; congruence).
    by destruct (bool_decide (d = data)).
  - run. assert (data_payload <= load64 (jf_mem f) (a + obj_size)) as Hmin.
    { destruct Ho. rewrite obj_size_eq. apply obj_min. }
    set (sz := load64 (jf_mem f) (a + obj_size)) in *.
    assert (((sz =? data_payload + zlen data)
             && bool_decide (load_bytes (jf_mem f) (a + data_payload) (Z.to_nat (zlen data)) = data))
            = bool_decide (Some (data_raw f a) = Some data)) as ->.
    { unfold data_raw. fold sz. destruct (Z.eqb_spec sz (data_payload + zlen data)) as [->|Hsz]; simpl.
      - rewrite Z.add_simpl_l. apply bool_decide_ext. split; congruence.
      - symmetry. apply bool_decide_eq_false. intros [= E]. apply (f_equal length) in E.
        rewrite load_bytes_length in E. unfold zlen in Hsz. lia. }
    by destruct (bool_decide _).
Qed.

Lemma find_field_loop_ok f objs end_ field : arena f objs end_ -> forall l n p,
  hchain f objs OBJECT_FIELD p l -> (length l <= n)%nat ->
  (forall a, a ∈ l -> field_good f a) ->
  find_field_loop e n field (field_payload + zlen field) (data_hash64 field) p f
  = (Ok (List.find (holds_field f field) l), f).
Proof.
  intros Har. induction l as [|a l IH]; intros n p Hc Hn Hg.
  { cbn in Hc. subst p. by destruct n. }
  destruct Hc as (-> & [s Hs] & Hc). destruct n as [|n]; [simpl in Hn; lia|].
  destruct (arena_object f objs end_ Har _ _ _ Hs) as (Ho & Hpos & _).
  cbn [find_field_loop]. destruct (Z.eqb_spec a 0); [lia|].
  rewrite (run_bind _ _ _ _ _ (move_to_object_ok e _ _ _ _ _ He Ho (or_introl eq_refl))). run.
  specialize (IH n (load64 (jf_mem f) (a + field_next_hash_offset)) Hc ltac:(simpl in Hn; lia)
    ltac:(intros; apply Hg; by constructor)).
  pose proof (Hg a ltac:(constructor)) as Hh. unfold field_good in Hh. cbn [List.find].
  assert (field_payload <= load64 (jf_mem f) (a + obj_size)) as Hmin.
  { destruct Ho. rewrite obj_size_eq. apply obj_min. }
  assert (((load64 (jf_mem f) (a + field_hash) =? data_hash64 field)
           && (load64 (jf_mem f) (a + obj_size) =? field_payload + zlen field)
           && bool_decide (load_bytes (jf_mem f) (a + field_payload) (Z.to_nat (zlen field)) = field))
          = holds_field f field a) as ->.
  { rewrite Hh. unfold holds_field, field_of. set (sz := load64 (jf_mem f) (a + obj_size)) in *.
    destruct (Z.eqb_spec sz (field_payload + zlen field)) as [->|Hsz]; simpl.
    - rewrite andb_true_r, Z.add_simpl_l. case_bool_decide as Hb; [|by rewrite andb_false_r].
      rewrite Hb, Z.eqb_refl. done.
    - rewrite andb_false_r. simpl. symmetry. apply bool_decide_eq_false. intros E.
      apply (f_equal length) in E. rewrite load_bytes_length in E. unfold zlen in Hsz. lia. }
  by destruct (holds_field f field a).
Qed.

(** * Writes that keep the arena *)

(** The header fields and object headers the arena is described by. *)
Definition arena_frame (objs : list (Z * Z * Z)) (a : Z) : Prop :=
  off_header_size <= a < off_arena_size + 8
  \/ off_tail_object_offset <= a < off_n_objects + 8
  \/ exists b ty s, (b, ty, s) ∈ objs /\ b <= a < b + sizeof_ObjectHeader.

Lemma objects_from_set_mem f m p objs0 objs end_ :
  objects_from f p objs end_ -> (forall x, x ∈ objs -> x ∈ objs0) ->
  agree (arena_frame objs0) (jf_mem f) m -> objects_from (set_mem f m) p objs end_.
Proof.
  revert p. induction objs as [|[[b ty] s] objs IH]; intros p; simpl; [done|].
  intros (-> & Ho & Hr) Hin Hag. split_and!; [done| |].
  - eapply is_object_agree; [done| |cbn; destruct Ho; lia].
    intros a Ha. apply Hag. right. right. exists p, ty, s. split; [apply Hin; by constructor|].
    unfold sizeof_ObjectHeader. simpl in Ha. lia.
  - apply IH; [done| |done]. intros x Hx. apply Hin. by constructor.
Qed.

Lemma arena_set_mem f m objs end_ :
  arena f objs end_ -> mem_ok m -> agree (arena_frame objs) (jf_mem f) m -> arena (set_mem f m) objs end_.
Proof.
  intros [Hm Hh Ho Ht Hn Ha Hs He'] Hm' Hag.
  assert (forall o, o = off_header_size \/ o = off_arena_size \/ o = off_tail_object_offset \/ o = off_n_objects
    -> hdr o (set_mem f m) = hdr o f) as Hhdr.
  { intros o Hoff. apply (agree_load64 _ _ _ _ Hag). intros x Hx. unfold arena_frame, off_header_size,
      off_arena_size, off_tail_object_offset, off_n_objects in *. lia. }
  assert (arena_end (set_mem f m) = arena_end f) as Hend by (unfold arena_end; rewrite !Hhdr by auto; done).
  split; rewrite ?Hend, ?Hhdr by auto; try done.
  eapply objects_from_set_mem; eauto.
Qed.

Lemma writable_set_mem f m : writable f -> byte_at m off_state = byte_at (jf_mem f) off_state -> writable (set_mem f m).
Proof. intros [Hw Hfd Hh Hs] Hm. split; try done. unfold hdr_state. cbn. by rewrite Hm. Qed.

(** * What contents depend on *)

Lemma data_of_agree f f' a s :
  load64 (jf_mem f) (a + obj_size) = s ->
  (forall x, a <= x < a + 16 \/ a + data_payload <= x < a + s -> byte_at (jf_mem f') x = byte_at (jf_mem f) x) ->
  data_of f' a = data_of f a /\ data_compressed f' a = data_compressed f a
  /\ load64 (jf_mem f') (a + obj_size) = s.
Proof.
  intros Hs Hag.
  assert (load64 (jf_mem f') (a + obj_size) = s) as Hs'.
  { rewrite <- Hs. apply load64_ext. intros x Hx. apply Hag. unfold obj_size in Hx. lia. }
  assert (byte_at (jf_mem f') (a + obj_flags) = byte_at (jf_mem f) (a + obj_flags)) as Hf.
  { apply Hag. unfold obj_flags. lia. }
  assert (data_raw f' a = data_raw f a) as Hr.
  { unfold data_raw. rewrite Hs, Hs'. apply load_bytes_ext. intros x Hx. apply Hag. lia. }
  unfold data_of, data_compressed. rewrite Hf, Hr. done.
Qed.

Lemma data_good_agree f f' a s :
  load64 (jf_mem f) (a + obj_size) = s -> data_good f a ->
  (forall x, a <= x < a + 24 \/ a + data_payload <= x < a + s -> byte_at (jf_mem f') x = byte_at (jf_mem f) x) ->
  data_good f' a.
Proof.
  intros Hs [(d & Hd & Hh) Hc] Hag.
  destruct (data_of_agree f f' a s Hs) as (H1 & H2 & H3); [intros; apply Hag; lia|]. split.
  - exists d. rewrite H1. split; [done|]. rewrite <- Hh. apply load64_ext. intros x Hx. apply Hag.
    unfold data_hash in Hx. lia.
  - rewrite H2, H3, <- Hs. done.
Qed.

Lemma field_of_agree f f' a s :
  load64 (jf_mem f) (a + obj_size) = s ->
  (forall x, a <= x < a + 16 \/ a + field_payload <= x < a + s -> byte_at (jf_mem f') x = byte_at (jf_mem f) x) ->
  field_of f' a = field_of f a.
Proof.
  intros Hs Hag.
  assert (load64 (jf_mem f') (a + obj_size) = s) as Hs'.
  { rewrite <- Hs. apply load64_ext. intros x Hx. apply Hag. unfold obj_size in Hx. lia. }
  unfold field_of. rewrite Hs, Hs'. apply load_bytes_ext. intros x Hx. apply Hag. lia.
Qed.

Lemma field_good_agree f f' a s :
  load64 (jf_mem f) (a + obj_size) = s -> field_good f a ->
  (forall x, a <= x < a + 24 \/ a + field_payload <= x < a + s -> byte_at (jf_mem f') x = byte_at (jf_mem f) x) ->
  field_good f' a.
Proof.
  intros Hs Hg Hag. unfold field_good. rewrite (field_of_agree f f' a s) by (done || (intros; apply Hag; lia)).
  rewrite <- Hg. apply load64_ext. intros x Hx. apply Hag. unfold field_hash in Hx. lia.
Qed.

End Contents.
