(* ===== verification/StoreProofs.v ===== *)
(** Linking data and field objects into their hash tables, once for both kinds:
    [kind] collects what journal_file_link_data and journal_file_link_field differ
    in, [KindLaws] what the proofs need to know about it. *)
From S2P Require Import Prelude Lookup3 Uuid Memory JournalDef JournalFile ObjectLemmas ArenaProofs.
From S2P Require Import HashTableProofs DataProofs.

(** * Kinds of hashed objects *)

Record kind := mkKind {
  k_ty : Z;                               (* the type of the objects *)
  k_tty : Z;                              (* the type of their hash table *)
  k_payload : Z;                          (* where the payload begins *)
  k_count : Z;                            (* the header's counter *)
  k_good : JournalFile -> Z -> Prop;      (* an object that is complete *)
  k_zero : mem -> Z -> mem                (* the zeros linking starts with *) }.

Class KindLaws (K : kind) : Prop := {
  kl_ty : k_ty K <> k_tty K;
  kl_min : minimum_header_size (k_ty K) = k_payload K;
  kl_tmin : minimum_header_size (k_tty K) = hash_table_items;
  kl_payload : 32 <= k_payload K;
  kl_count : 208 <= k_count K <= 232;
  kl_good : forall f f' a s, load64 (jf_mem f) (a + obj_size) = s -> k_good K f a ->
    (forall x, a <= x < a + 24 \/ a + k_payload K <= x < a + s ->
       byte_at (jf_mem f') x = byte_at (jf_mem f) x) -> k_good K f' a;
  kl_zero_frame : forall m o, agree (fun a => a < o + obj_next_hash \/ o + k_payload K <= a) m (k_zero K m o);
  kl_zero : forall m o, load64 (k_zero K m o) (o + obj_next_hash) = 0;
  kl_zero_ok : forall m o, mem_ok m -> mem_ok (k_zero K m o) }.

(** Two kinds that share neither objects nor tables. *)
Record apart (K K' : kind) : Prop := {
  apart_ty : k_ty K <> k_ty K';
  apart_ty_tty : k_ty K <> k_tty K';
  apart_tty_ty : k_tty K <> k_ty K';
  apart_tty : k_tty K <> k_tty K' }.

(** The zeros the link functions start with. *)
Definition zero_data_links (m : mem) (o : Z) : mem :=
  store64 (store64 (store64 (store64 (store64 m (o + data_next_field_offset) 0)
    (o + data_next_hash_offset) 0) (o + data_entry_array_offset) 0) (o + data_entry_offset) 0)
    (o + data_n_entries) 0.

Lemma zero_data_links_frame m o :
  agree (fun a => a < o + data_next_hash_offset \/ o + data_payload <= a) m (zero_data_links m o).
Proof.
  unfold zero_data_links, data_next_field_offset, data_next_hash_offset, data_entry_array_offset,
    data_entry_offset, data_n_entries, data_payload.
  do 4 (eapply agree_trans; [|apply agree_store64; lia]). apply agree_store64. lia.
Qed.

Lemma zero_data_links_zero m o : load64 (zero_data_links m o) (o + obj_next_hash) = 0.
Proof.
  unfold zero_data_links, data_next_field_offset, data_next_hash_offset, data_entry_array_offset,
    data_entry_offset, data_n_entries, obj_next_hash.
  rewrite !load64_store64_ne by lia. rewrite load64_store64_eq by (unfold is_u64; lia). done.
Qed.

Definition zero_field_links (m : mem) (o : Z) : mem :=
  store64 (store64 m (o + field_head_data_offset) 0) (o + field_next_hash_offset) 0.

Lemma zero_field_links_frame m o :
  agree (fun a => a < o + field_next_hash_offset \/ o + field_payload <= a) m (zero_field_links m o).
Proof.
  unfold zero_field_links, field_next_hash_offset, field_head_data_offset, field_payload.
  eapply agree_trans; [|apply agree_store64; lia]. apply agree_store64. lia.
Qed.

Lemma zero_field_links_zero m o : load64 (zero_field_links m o) (o + obj_next_hash) = 0.
Proof.
  unfold zero_field_links, field_next_hash_offset, field_head_data_offset, obj_next_hash.
  by rewrite load64_store64_eq by (unfold is_u64; lia).
Qed.

Definition data_kind (e : Env) : kind :=
  mkKind OBJECT_DATA OBJECT_DATA_HASH_TABLE data_payload off_n_data (data_good e) zero_data_links.

Definition field_kind : kind :=
  mkKind OBJECT_FIELD OBJECT_FIELD_HASH_TABLE field_payload off_n_fields field_good zero_field_links.

#[export] Instance data_kind_laws e : KindLaws (data_kind e).
Proof.
  split; cbn [data_kind k_ty k_tty k_payload k_count k_good k_zero]; try done.
  - apply data_good_agree.
  - apply zero_data_links_frame.
  - apply zero_data_links_zero.
  - intros. unfold zero_data_links. auto 10 with mem.
Qed.

#[export] Instance field_kind_laws : KindLaws field_kind.
Proof.
  split; cbn [field_kind k_ty k_tty k_payload k_count k_good k_zero]; try done.
  - apply field_good_agree.
  - apply zero_field_links_frame.
  - apply zero_field_links_zero.
  - intros. unfold zero_field_links. auto 10 with mem.
Qed.

Lemma data_field_apart e : apart (data_kind e) field_kind.
Proof. split; done. Qed.
Lemma field_data_apart e : apart field_kind (data_kind e).
Proof. split; done. Qed.

(** * The objects of a kind, by bucket *)

Record side (K : kind) (f : JournalFile) (objs : list (Z * Z * Z)) (tbl n : Z) (chains : Z -> list Z)
  : Prop := {
  sd_table : htable f objs (k_ty K) (k_tty K) tbl n chains;
  sd_good : forall h a, 0 <= h < n -> a ∈ chains h -> k_good K f a }.

Lemma table_bytes f objs ty tty tbl n chains a :
  htable f objs ty tty tbl n chains -> tbl <= a < tbl + 16 * n ->
  exists b s, (b, tty, s) ∈ objs /\ b <= a < b + s.
Proof.
  intros Ht Ha. destruct (ht_obj _ _ _ _ _ _ _ Ht) as (s & Hs & Hsz).
  eexists _, s. split; [done|]. unfold hash_table_items in *. lia.
Qed.

(** A side survives whatever does not touch its table, nor its objects' contents,
    hashes and links. *)
Lemma side_agree K `{!KindLaws K} f f' objsA objs objs' end_ tbl n chains :
  arena f objsA end_ -> (forall x, x ∈ objs -> x ∈ objsA) -> side K f objs tbl n chains ->
  (forall x, x ∈ objs -> x ∈ objs') ->
  (forall a, tbl <= a < tbl + 16 * n -> byte_at (jf_mem f') a = byte_at (jf_mem f) a) ->
  (forall b s a, (b, k_ty K, s) ∈ objs -> b <= a < b + 32 \/ b + k_payload K <= a < b + s ->
     byte_at (jf_mem f') a = byte_at (jf_mem f) a) ->
  side K f' objs' tbl n chains.
Proof.
  intros Har HinA [Ht Hg] Hin Htbl Hobj. split.
  - eapply htable_agree; [done|done|done|]. intros o s a Ho Ha. eapply Hobj; [done|].
    unfold obj_hash, obj_next_hash in Ha. lia.
  - intros h a Hr Ha. destruct (chain_object f objs _ _ _ _ _ Ht h a Hr Ha) as [s Hs].
    destruct (arena_object f objsA end_ Har _ _ _ (HinA _ Hs)) as (Ho & _).
    eapply kl_good; [apply (obj_size_eq _ _ _ _ Ho)|by eapply Hg|].
    intros x Hx. eapply Hobj; [done|lia].
Qed.

(** A new object of the store is after all others. *)
Definition above (objs : list (Z * Z * Z)) (o : Z) : Prop :=
  240 <= o /\ forall b ty s, (b, ty, s) ∈ objs -> 240 <= b /\ 16 <= s /\ b + s <= o.

Lemma above_new objs o h n f ty tty tbl chains :
  above objs o -> htable f objs ty tty tbl n chains -> 0 <= h < n -> o ∉ chains h.
Proof.
  intros [_ Ha] Ht Hr Hin. destruct (chain_object f objs _ _ _ _ _ Ht h o Hr Hin) as [s Hs].
  destruct (Ha _ _ _ Hs). lia.
Qed.

Lemma arena_above f objs end_ : arena f objs end_ -> above objs end_.
Proof.
  intros Har. pose proof (objects_from_le _ _ _ _ (ar_objects _ _ _ Har)). pose proof (ar_header _ _ _ Har).
  split; [lia|]. intros b ty s Hb. destruct (arena_object _ _ _ Har _ _ _ Hb) as (Ho & ? & ?).
  pose proof (object_ALIGN64 _ _ _ _ Ho). lia.
Qed.

Lemma object_header_frame f objs end_ b ty s a b' ty' s' :
  arena f objs end_ -> (b, ty, s) ∈ objs -> b <= a < b + 16 -> (b', ty', s') ∈ objs -> ~ (b' + 16 <= a < b' + s').
Proof.
  intros Har Hb Ha Hb' Ha'. destruct (arena_object _ _ _ Har _ _ _ Hb) as (Ho & _).
  pose proof (object_ALIGN64 _ _ _ _ Ho).
  destruct (Z.eq_dec b b') as [->|Hne]; [lia|].
  destruct (arena_disjoint _ _ _ Har _ _ _ _ _ _ Hb Hb' Hne); lia.
Qed.

(** What linking an object of a kind leaves alone. *)
Definition klink_frame (K : kind) (objs : list (Z * Z * Z)) (a : Z) : Prop :=
  ~ (k_count K <= a < k_count K + 8)
  /\ (forall b s, (b, k_tty K, s) ∈ objs -> ~ (b + hash_table_items <= a < b + s))
  /\ (forall b s, (b, k_ty K, s) ∈ objs -> ~ (b + obj_next_hash <= a < b + k_payload K)).

Section Frames.
Context (K : kind) `{!KindLaws K} (f : JournalFile) (objs : list (Z * Z * Z)) (end_ : Z).
Hypothesis (Har : arena f objs end_).

Lemma kind_object b s :
  (b, k_ty K, s) ∈ objs -> 240 <= b /\ k_payload K <= s /\ load64 (jf_mem f) (b + obj_size) = s
    /\ is_u64 b /\ byte_at (jf_mem f) (b + obj_type) = k_ty K.
Proof.
  intros Hb. destruct (arena_object _ _ _ Har _ _ _ Hb) as (Ho & ? & _). destruct Ho.
  rewrite kl_min in *. unfold is_u64, sizeof_ObjectHeader in *. split_and!; try done; lia.
Qed.

(** The frame includes the header below the counters ... *)
Lemma klink_frame_header a : a < 208 -> klink_frame K objs a.
Proof.
  intros Ha. pose proof (kl_count (K := K)). pose proof (kl_payload (K := K)).
  unfold hash_table_items, obj_next_hash. split_and!; [lia|..].
  - intros b s Hb. destruct (arena_object _ _ _ Har _ _ _ Hb) as (_ & ? & _). unfold hash_table_items. lia.
  - intros b s Hb. destruct (kind_object b s Hb). unfold obj_next_hash. lia.
Qed.

(** ... and the objects of other types, and of this one the hashes and payloads. *)
Lemma klink_frame_object b ty sb a :
  (b, ty, sb) ∈ objs -> b <= a < b + sb -> ty <> k_tty K ->
  (ty = k_ty K -> a < b + obj_next_hash \/ b + k_payload K <= a) -> klink_frame K objs a.
Proof.
  intros Hb Ha Hne Hda. destruct (arena_object _ _ _ Har _ _ _ Hb) as (_ & ? & _).
  pose proof (kl_count (K := K)). split_and!; [lia|..]; intros c sc Hc Hac.
  - unfold hash_table_items in Hac. destruct (Z.eq_dec b c) as [->|Hbc].
    + by destruct (arena_object_unique _ _ _ Har _ _ _ _ _ Hb Hc).
    + destruct (arena_disjoint _ _ _ Har _ _ _ _ _ _ Hb Hc Hbc); lia.
  - destruct (kind_object c sc Hc) as (_ & ? & _). unfold obj_next_hash in *.
    destruct (Z.eq_dec b c) as [->|Hbc].
    + destruct (arena_object_unique _ _ _ Har _ _ _ _ _ Hb Hc) as [-> _]. specialize (Hda eq_refl). lia.
    + destruct (arena_disjoint _ _ _ Har _ _ _ _ _ _ Hb Hc Hbc); lia.
Qed.

Lemma klink_frame_arena a : arena_frame objs a -> klink_frame K objs a.
Proof.
  intros [Ha|[Ha|(b & ty & s & Hb & Ha)]].
  - apply klink_frame_header. unfold off_arena_size in Ha. lia.
  - apply klink_frame_header. unfold off_n_objects in Ha. lia.
  - unfold sizeof_ObjectHeader in Ha. destruct (arena_object _ _ _ Har _ _ _ Hb) as (Ho & ? & _).
    pose proof (object_ALIGN64 _ _ _ _ Ho). pose proof (kl_count (K := K)).
    split_and!; [lia|..]; intros c sc Hc; pose proof (object_header_frame _ _ _ _ _ _ _ _ _ _ Har Hb Ha Hc).
    + unfold hash_table_items. lia.
    + destruct (kind_object c sc Hc) as (_ & ? & _). unfold obj_next_hash. lia.
Qed.

(** The other kind is not disturbed. *)
Lemma side_other K' `{!KindLaws K'} m objs0 tbl n chains :
  apart K K' -> (forall x, x ∈ objs0 -> x ∈ objs) -> side K' f objs0 tbl n chains ->
  agree (klink_frame K objs) (jf_mem f) m -> side K' (set_mem f m) objs tbl n chains.
Proof.
  intros [? ? ? ?] Hin Hs Hag. eapply (side_agree K' f _ objs objs0); [done|done|exact Hs|done|..].
  - intros a Ha. destruct (table_bytes _ _ _ _ _ _ _ _ (sd_table _ _ _ _ _ _ Hs) Ha) as (b & s & Hb & Hr).
    apply Hag. eapply klink_frame_object; [by apply Hin|done|congruence|congruence].
  - intros b s a Hb Ha. destruct (arena_object _ _ _ Har _ _ _ (Hin _ Hb)) as (Ho & _).
    pose proof (obj_min _ _ _ _ Ho). rewrite (kl_min (K := K')) in *. pose proof (kl_payload (K := K')).
    apply Hag. eapply klink_frame_object; [by apply Hin|lia|congruence|congruence].
Qed.

End Frames.

(** * The code of linking *)

Section LinkCode.
Context (e : Env).
Hypothesis (He : mmap_ok e).

(** [if (JOURNAL_HEADER_CONTAINS(f->header, field)) field++] *)
Definition count_mem (m : mem) (off : Z) : mem :=
  if off + 8 <=? load64 m off_header_size then store64 m off (u64 (load64 m off + 1)) else m.

Lemma count_mem_frame m off : agree (fun a => a < off \/ off + 8 <= a) m (count_mem m off).
Proof. unfold count_mem. destruct (_ <=? _); [|done]. apply agree_store64. lia. Qed.

Lemma count_mem_ok m off : mem_ok m -> mem_ok (count_mem m off).
Proof. intros. unfold count_mem. destruct (_ <=? _); auto with mem. Qed.

(** The end of both link functions: hook into the chain, set the tail, count. *)
Lemma link_chain_ok f objs end_ ty tty tbl n chains h o cnt :
  arena f objs end_ -> htable f objs ty tty tbl n chains -> 0 <= h < n ->
  (p <- rd (tail_hash_offset tbl h) ;;
   (if p =? 0 then wr (head_hash_offset tbl h) o
    else (x <- journal_file_move_to_object e ty p ;; wr (x + obj_next_hash) o)) ;;
   wr (tail_hash_offset tbl h) o ;;
   c <- gets (header_contains cnt) ;;
   k <- rd cnt ;;
   when c (wr cnt (u64 (k + 1)))) f
  = (Ok tt, set_mem f (count_mem (link_mem (jf_mem f) tbl h o) cnt)).
Proof.
  intros Har Ht Hr. run. unfold link_mem.
  set (p := load64 (jf_mem f) (tail_hash_offset tbl h)).
  assert (forall g m, g f = (Ok tt, set_mem f m) ->
    (g ;; wr (tail_hash_offset tbl h) o ;; c <- gets (header_contains cnt) ;; k <- rd cnt ;;
     when c (wr cnt (u64 (k + 1)))) f
    = (Ok tt, set_mem f (count_mem (store64 m (tail_hash_offset tbl h) o) cnt))) as Hrest.
  { intros g m Hg. rewrite (run_bind _ _ _ _ _ Hg). run. cbn [set_mem jf_mem].
    unfold header_contains, hdr, count_mem, when. cbn [set_mem jf_mem]. by destruct (_ <=? _). }
  destruct (Z.eqb_spec p 0) as [Hp|Hp]; [by apply Hrest|].
  destruct (tail_object f objs ty tty tbl n chains Ht h p Hr eq_refl Hp) as (_ & _ & s & Hs).
  destruct (arena_object f objs end_ Har _ _ _ Hs) as (Ho & _).
  apply Hrest. rewrite (run_bind _ _ _ _ _ (move_to_object_ok e _ _ _ _ _ He Ho (or_introl eq_refl))). done.
Qed.

Lemma bucket_ok hash size f :
  0 < size / sizeof_HashItem -> bucket hash size f = (Ok (hash mod (size / sizeof_HashItem)), f).
Proof. intros. unfold bucket. rewrite run_assert by zdecide. done. Qed.

End LinkCode.

(** * The effect of linking *)

Section Link.
Context (e : Env) (K : kind) `{!KindLaws K} (f : JournalFile) (objs0 : list (Z * Z * Z))
  (o s end_ tbl n : Z) (chains : Z -> list Z).
Let objs := objs0 ++ [(o, k_ty K, s)].
Let hash := load64 (jf_mem f) (o + obj_hash).
Let h := hash mod n.
Hypothesis (He : mmap_ok e) (Har : arena f objs end_) (Habove : above objs0 o)
  (Hside : side K f objs0 tbl n chains) (Hgood : k_good K f o).

Definition linked_mem : mem := count_mem (link_mem (k_zero K (jf_mem f) o) tbl h o) (k_count K).

Lemma lk_in x : x ∈ objs0 -> x ∈ objs.
Proof. intros. apply elem_of_app. by left. Qed.

Lemma lk_o : (o, k_ty K, s) ∈ objs.
Proof. apply elem_of_app. right. constructor. Qed.

Lemma lk_h : 0 <= h < n.
Proof. apply Z.mod_pos_bound. eapply ht_n, sd_table, Hside. Qed.

(** After the zeros. *)
Let f1 := set_mem f (k_zero K (jf_mem f) o).

Lemma lk_zero_frame : agree (klink_frame K objs) (jf_mem f) (jf_mem f1).
Proof.
  eapply agree_mono; [|apply kl_zero_frame]. intros a (_ & _ & Ha). specialize (Ha o s lk_o). simpl. lia.
Qed.

Lemma lk_arena1 : arena f1 objs end_.
Proof.
  apply arena_set_mem; [done|apply kl_zero_ok, Har|].
  eapply agree_mono; [|apply lk_zero_frame]. intros a. by apply (klink_frame_arena K f _ end_).
Qed.

Lemma lk_table1 : htable f1 objs (k_ty K) (k_tty K) tbl n chains.
Proof.
  eapply sd_table, (side_agree K f f1 objs objs0); [done|apply lk_in|exact Hside|apply lk_in|..].
  - intros a Ha. destruct (table_bytes _ _ _ _ _ _ _ _ (sd_table _ _ _ _ _ _ Hside) Ha) as (b & sb & Hb & Hr).
    destruct (proj2 Habove _ _ _ Hb) as (? & ? & ?). apply kl_zero_frame. unfold obj_next_hash. lia.
  - intros b sb a Hb Ha. destruct (proj2 Habove _ _ _ Hb) as (? & ? & ?).
    destruct (kind_object K f objs end_ Har b sb (lk_in _ Hb)) as (_ & ? & _).
    pose proof (kl_payload (K := K)). apply kl_zero_frame. unfold obj_next_hash. lia.
Qed.

(** The chain code runs to [linked_mem]. *)
Lemma lk_run :
  (p <- rd (tail_hash_offset tbl h) ;;
   (if p =? 0 then wr (head_hash_offset tbl h) o
    else (x <- journal_file_move_to_object e (k_ty K) p ;; wr (x + obj_next_hash) o)) ;;
   wr (tail_hash_offset tbl h) o ;;
   c <- gets (header_contains (k_count K)) ;;
   k <- rd (k_count K) ;;
   when c (wr (k_count K) (u64 (k + 1)))) f1
  = (Ok tt, set_mem f linked_mem).
Proof. exact (link_chain_ok e He f1 objs end_ _ _ tbl n chains h o (k_count K) lk_arena1 lk_table1 lk_h). Qed.

(** Of the objects there already were, only the links change. *)
Definition link_fine (a : Z) : Prop :=
  ~ (k_count K <= a < k_count K + 8)
  /\ (forall b s, (b, k_tty K, s) ∈ objs -> ~ (b + hash_table_items <= a < b + s))
  /\ (forall b s, (b, k_ty K, s) ∈ objs0 -> ~ (b + obj_next_hash <= a < b + obj_next_hash + 8))
  /\ ~ (o + obj_next_hash <= a < o + k_payload K).

Lemma lk_frame_fine : agree link_fine (jf_mem f) linked_mem.
Proof.
  unfold linked_mem. eapply agree_trans; [|eapply agree_mono; [|apply count_mem_frame]; intros a (Ha & _); lia].
  eapply agree_trans; [eapply agree_mono; [|apply (kl_zero_frame (K := K) (jf_mem f) o)]; intros a (_ & _ & _ & Ha); cbn beta; lia|].
  eapply agree_mono; [|apply (link_mem_frame f1 objs _ _ _ _ _ lk_table1 h o lk_h)].
  intros a (_ & Ht & Hd & Ho). split.
  - destruct (ht_obj _ _ _ _ _ _ _ lk_table1) as (st & Hst & Hsz). specialize (Ht _ _ Hst).
    unfold hash_table_items in *. lia.
  - pose proof (kl_payload (K := K)). unfold obj_next_hash in *.
    intros b sb [Hb|[= -> ->]%list_elem_of_singleton]%elem_of_app; [by eapply Hd|lia].
Qed.

Lemma lk_frame : agree (klink_frame K objs) (jf_mem f) linked_mem.
Proof.
  eapply agree_mono; [|apply lk_frame_fine]. intros a (Hc & Ht & Hd). split_and!; [done|done| |].
  - intros b sb Hb. specialize (Hd b sb (lk_in _ Hb)). pose proof (kl_payload (K := K)).
    unfold obj_next_hash in *. lia.
  - apply (Hd o s lk_o).
Qed.

Lemma lk_mem_ok : mem_ok linked_mem.
Proof. apply count_mem_ok, (link_mem_ok f1 objs end_), lk_arena1. Qed.

Lemma lk_arena : arena (set_mem f linked_mem) objs end_.
Proof.
  apply arena_set_mem; [done|apply lk_mem_ok|]. eapply agree_mono; [|apply lk_frame].
  intros a. by apply (klink_frame_arena K f _ end_).
Qed.

Lemma lk_good b sb : (b, k_ty K, sb) ∈ objs -> k_good K f b -> k_good K (set_mem f linked_mem) b.
Proof.
  intros Hb Hg. destruct (kind_object K f objs end_ Har b sb Hb) as (_ & ? & Hs & _).
  pose proof (kl_payload (K := K)).
  eapply kl_good; [exact Hs|done|]. intros x Hx. apply lk_frame.
  eapply (klink_frame_object K f objs end_ Har b (k_ty K) sb);
    [done|lia|apply kl_ty|unfold obj_next_hash; lia].
Qed.

Lemma lk_side : side K (set_mem f linked_mem) objs tbl n (chains_add chains h o).
Proof.
  destruct (kind_object K f objs end_ Har o s lk_o) as (? & ? & _ & ? & _).
  pose proof (kl_payload (K := K)). pose proof (kl_count (K := K)).
  assert (htable (set_mem f1 (link_mem (jf_mem f1) tbl h o)) objs (k_ty K) (k_tty K) tbl n
    (chains_add chains h o)) as Hlink.
  { apply (link_htable f1 objs end_ _ _ tbl n chains lk_arena1 lk_table1 kl_ty) with (s := s); try done.
    - rewrite kl_min. unfold obj_next_hash. lia.
    - apply lk_h.
    - apply lk_o.
    - intros h' Hr'. eapply above_new; [done|eapply sd_table, Hside|done].
    - apply kl_zero.
    - unfold h, hash. f_equal. apply (agree_load64 _ _ _ _ (kl_zero_frame (K := K) (jf_mem f) o)).
      unfold obj_hash, obj_next_hash. lia. }
  split.
  - eapply htable_agree; [exact Hlink|done|..].
    + intros a Ha. apply count_mem_frame.
      pose proof (table_range f1 objs end_ _ _ _ _ _ lk_arena1 lk_table1). unfold hash_table_items in *. lia.
    + intros b sb a Hb Ha. apply count_mem_frame. destruct (arena_object _ _ _ Har _ _ _ Hb) as (_ & ? & _).
      unfold obj_hash in *. lia.
  - intros h' a Hr' Ha. unfold chains_add in Ha.
    assert (a ∈ chains h' \/ a = o) as [Hin| ->].
    { destruct (Z.eqb_spec h' h) as [->|]; [|by left].
      apply elem_of_app in Ha as [Ha| ->%list_elem_of_singleton]; [by left|by right]. }
    + destruct (chain_object f objs0 _ _ _ _ _ (sd_table _ _ _ _ _ _ Hside) h' a Hr' Hin) as [sa Hsa].
      eapply lk_good; [by apply lk_in|]. by eapply sd_good; [exact Hside|..].
    + eapply lk_good; [apply lk_o|done].
Qed.

End Link.
