(* ===== verification/StoreOps.v ===== *)
(** The data and field store of a journal file: journal_file_find_data_object and
    journal_file_append_data as the lookup and the insertion of a map from contents
    to objects, journal_file_append_field inside it. *)
From S2P Require Import Prelude Lookup3 Uuid Memory JournalDef JournalFile ObjectLemmas ArenaProofs.
From S2P Require Import HashTableProofs DataProofs StoreProofs.

Definition data_buckets (f : JournalFile) : Z := hdr off_data_hash_table_size f / sizeof_HashItem.
Definition field_buckets (f : JournalFile) : Z := hdr off_field_hash_table_size f / sizeof_HashItem.

(** The whole store: an arena with both hash tables, open for writing. *)
Record store (e : Env) (f : JournalFile) (objs : list (Z * Z * Z)) (end_ : Z) (dch fch : Z -> list Z)
  : Prop := {
  st_arena : arena f objs end_;
  st_writable : writable f;
  st_data : side (data_kind e) f objs (jf_data_hash_table f) (data_buckets f) dch;
  st_field : side field_kind f objs (jf_field_hash_table f) (field_buckets f) fch }.

(** The part of the header that says what file this is: it is written once. *)
Definition ident (a : Z) : Prop := 0 <= a < off_arena_size /\ a <> off_state.

(** [f'] extends [f]: the handle is the same, objects are added at the end, and
    what the existing ones hold is as before; only the links of data and field
    objects and the tables may change. *)
Record extends (f : JournalFile) (objs : list (Z * Z * Z)) (f' : JournalFile) (objs' : list (Z * Z * Z))
  : Prop := {
  ex_handle : same_handle f f';
  ex_objs : exists l, objs' = objs ++ l;
  ex_header : forall a, off_data_hash_table_offset <= a < off_tail_object_offset
    \/ off_n_entries <= a < off_n_data \/ ident a -> byte_at (jf_mem f') a = byte_at (jf_mem f) a;
  ex_object : forall b ty s a, (b, ty, s) ∈ objs -> b <= a < b + s ->
    ty <> OBJECT_DATA_HASH_TABLE -> ty <> OBJECT_FIELD_HASH_TABLE ->
    (ty = OBJECT_DATA \/ ty = OBJECT_FIELD -> a < b + 24 \/ b + 40 <= a) ->
    byte_at (jf_mem f') a = byte_at (jf_mem f) a }.

Lemma extends_refl f objs : extends f objs f objs.
Proof. split; [done|exists []; by rewrite app_nil_r|done..]. Qed.

Lemma extends_in f objs f' objs' x : extends f objs f' objs' -> x ∈ objs -> x ∈ objs'.
Proof. intros [_ [l ->] _ _] Hx. apply elem_of_app. by left. Qed.

Lemma extends_trans f1 o1 f2 o2 f3 o3 : extends f1 o1 f2 o2 -> extends f2 o2 f3 o3 -> extends f1 o1 f3 o3.
Proof.
  intros H12 H23. destruct H12 as [Hh1 [l1 ->] Hd1 Ho1]. destruct H23 as [Hh2 [l2 ->] Hd2 Ho2].
  split.
  - by eapply same_handle_trans.
  - exists (l1 ++ l2). by rewrite (assoc (++)).
  - intros a Ha. rewrite Hd2, Hd1 by done. done.
  - intros b ty s a Hb Ha H1 H2 H3. rewrite (Ho2 b ty s), (Ho1 b ty s); try done.
    apply elem_of_app. by left.
Qed.

Lemma extends_hdr f objs f' objs' o :
  extends f objs f' objs' -> off_data_hash_table_offset <= o -> o + 8 <= off_tail_object_offset -> hdr o f' = hdr o f.
Proof. intros [_ _ H _] H1 H2. apply load64_ext. intros x Hx. apply H. lia. Qed.

(** What existing objects hold is preserved. *)
Lemma extends_data_of e f objs f' objs' end_ b s :
  arena f objs end_ -> extends f objs f' objs' -> (b, OBJECT_DATA, s) ∈ objs -> data_of e f' b = data_of e f b.
Proof.
  intros Har Hex Hb. destruct (arena_object _ _ _ Har _ _ _ Hb) as (Ho & _).
  pose proof (obj_min _ _ _ _ Ho) as Hm. cbn in Hm. unfold sizeof_ObjectHeader, data_payload in Hm.
  apply (data_of_agree e f f' b s); [apply (obj_size_eq _ _ _ _ Ho)|].
  intros x Hx. eapply ex_object; [done|done|..]; unfold data_payload in *; done || lia.
Qed.

Lemma extends_data_hash f objs f' objs' end_ b s :
  arena f objs end_ -> extends f objs f' objs' -> (b, OBJECT_DATA, s) ∈ objs ->
  load64 (jf_mem f') (b + data_hash) = load64 (jf_mem f) (b + data_hash).
Proof.
  intros Har Hex Hb. destruct (arena_object _ _ _ Har _ _ _ Hb) as (Ho & _).
  pose proof (obj_min _ _ _ _ Ho) as Hm. cbn in Hm. unfold sizeof_ObjectHeader, data_payload in Hm.
  apply load64_ext. intros x Hx. unfold data_hash in Hx. eapply ex_object; [done|done|..]; done || lia.
Qed.

Lemma extends_field_of f objs f' objs' end_ b s :
  arena f objs end_ -> extends f objs f' objs' -> (b, OBJECT_FIELD, s) ∈ objs -> field_of f' b = field_of f b.
Proof.
  intros Har Hex Hb. destruct (arena_object _ _ _ Har _ _ _ Hb) as (Ho & _).
  pose proof (obj_min _ _ _ _ Ho) as Hm. cbn in Hm. unfold sizeof_ObjectHeader, field_payload in Hm.
  apply (field_of_agree f f' b s); [apply (obj_size_eq _ _ _ _ Ho)|].
  intros x Hx. eapply ex_object; [done|done|..]; unfold field_payload in *; done || lia.
Qed.

(** A data object no entry is linked to. *)
Definition fresh_links (f : JournalFile) (d : Z) : Prop :=
  load64 (jf_mem f) (d + data_entry_offset) = 0 /\ load64 (jf_mem f) (d + data_entry_array_offset) = 0
  /\ load64 (jf_mem f) (d + data_n_entries) = 0.

(** The arena grew by at most [c] bytes, nothing was written behind it, and new data
    objects have no entries. *)
Record grown (f : JournalFile) (objs : list (Z * Z * Z)) (end_ : Z)
    (f' : JournalFile) (objs' : list (Z * Z * Z)) (end' c : Z) : Prop := {
  gr_end : end_ <= end' <= end_ + c;
  gr_above : forall a, end' <= a -> byte_at (jf_mem f') a = byte_at (jf_mem f) a;
  gr_data : forall d s, (d, OBJECT_DATA, s) ∈ objs' -> (d, OBJECT_DATA, s) ∈ objs \/ fresh_links f' d }.

Lemma grown_refl f objs end_ c : 0 <= c -> grown f objs end_ f objs end_ c.
Proof. split; [lia|done|by left]. Qed.

Lemma grown_weaken f objs end_ f' objs' end' c c' :
  grown f objs end_ f' objs' end' c -> c <= c' -> grown f objs end_ f' objs' end' c'.
Proof. intros [] ?. split; [lia|done|done]. Qed.

Lemma fresh_links_extends f objs f' objs' end_ d s :
  arena f objs end_ -> extends f objs f' objs' -> (d, OBJECT_DATA, s) ∈ objs -> fresh_links f d -> fresh_links f' d.
Proof.
  intros Har Hex Hd (H1 & H2 & H3). destruct (arena_object _ _ _ Har _ _ _ Hd) as (Ho & _).
  pose proof (obj_min _ _ _ _ Ho) as Hm. cbn in Hm. unfold data_payload in Hm.
  unfold fresh_links, data_entry_offset, data_entry_array_offset, data_n_entries in *.
  assert (forall x, d + 40 <= x -> x + 8 <= d + 64 -> load64 (jf_mem f') x = load64 (jf_mem f) x) as Hkeep.
  { intros x Hx1 Hx2. apply load64_ext. intros y Hy. eapply (ex_object _ _ _ _ Hex); [exact Hd|lia|done|done|lia]. }
  rewrite !Hkeep by lia. done.
Qed.

Lemma grown_trans f1 o1 e1 f2 o2 e2 f3 o3 e3 c c' :
  grown f1 o1 e1 f2 o2 e2 c -> grown f2 o2 e2 f3 o3 e3 c' -> arena f2 o2 e2 -> extends f2 o2 f3 o3 ->
  grown f1 o1 e1 f3 o3 e3 (c + c').
Proof.
  intros H12 H23 Har Hex. pose proof (gr_end _ _ _ _ _ _ _ H12). pose proof (gr_end _ _ _ _ _ _ _ H23). split.
  - lia.
  - intros a Ha. rewrite (gr_above _ _ _ _ _ _ _ H23), (gr_above _ _ _ _ _ _ _ H12) by lia. done.
  - intros d s Hd. apply (gr_data _ _ _ _ _ _ _ H23) in Hd as [Hd|Hd]; [|by right].
    destruct (gr_data _ _ _ _ _ _ _ H12 d s Hd) as [?|Hf]; [by left|right].
    by eapply fresh_links_extends.
Qed.

(** Appending an object extends the file. *)
Lemma appended_below f f1 objs o ty size a :
  appended f f1 objs o ty size -> 240 <= a < o -> byte_at (jf_mem f1) a = byte_at (jf_mem f) a.
Proof.
  intros Hap Ha. apply (ap_frame _ _ _ _ _ _ Hap).
  unfold append_frame, off_state, off_arena_size, off_tail_object_offset, off_n_objects. lia.
Qed.

Lemma appended_header f f1 objs o ty size a :
  appended f f1 objs o ty size ->
  off_data_hash_table_offset <= a < off_tail_object_offset \/ off_n_objects + 8 <= a < 240 \/ ident a ->
  byte_at (jf_mem f1) a = byte_at (jf_mem f) a.
Proof.
  intros Hap Ha. pose proof (ap_pos _ _ _ _ _ _ Hap). apply (ap_frame _ _ _ _ _ _ Hap).
  unfold append_frame, ident, off_state, off_arena_size, off_tail_object_offset, off_n_objects,
    off_data_hash_table_offset in *. lia.
Qed.

Lemma appended_objects f f1 objs o ty size :
  arena f objs o -> appended f f1 objs o ty size -> objects_from f1 (hdr off_header_size f1) objs o.
Proof.
  intros Har Hap. pose proof (ap_pos _ _ _ _ _ _ Hap).
  assert (hdr off_header_size f1 = hdr off_header_size f) as ->.
  { apply (agree_load64 _ _ _ _ (ap_frame _ _ _ _ _ _ Hap)). unfold append_frame, off_header_size, off_state,
      off_arena_size, off_tail_object_offset, off_n_objects. lia. }
  eapply objects_from_agree; [apply Har| |apply Hap].
  intros a Ha. cbn beta in Ha. eapply appended_below; [exact Hap|].
  pose proof (ar_header _ _ _ Har). lia.
Qed.

(** Both sides only look below the end of the arena. *)
Lemma side_below K `{!KindLaws K} f f' objs objs' end_ tbl n chains :
  arena f objs end_ -> side K f objs tbl n chains -> (forall x, x ∈ objs -> x ∈ objs') ->
  (forall a, 240 <= a < end_ -> byte_at (jf_mem f') a = byte_at (jf_mem f) a) ->
  side K f' objs' tbl n chains.
Proof.
  intros Har Hs Hin Hag. eapply (side_agree K f f' objs objs); [done|done|exact Hs|done|..].
  - intros a Ha. apply Hag. pose proof (table_range f objs end_ _ _ _ _ _ Har (sd_table _ _ _ _ _ _ Hs)).
    unfold hash_table_items in *. lia.
  - intros b s a Hb Ha. destruct (arena_object _ _ _ Har _ _ _ Hb) as (_ & ? & ?).
    destruct (kind_object K f objs end_ Har b s Hb) as (_ & ? & _). pose proof (kl_payload (K := K)).
    apply Hag. lia.
Qed.

(** * Inserting an object of a kind *)

Section Insert.
Context (K K' : kind) `{!KindLaws K} `{!KindLaws K'} (Hap : apart K K')
  (f f1 : JournalFile) (objs : list (Z * Z * Z)) (o size s end_ tbl n tbl' n' : Z)
  (chains chains' : Z -> list Z) (m : mem).
Let f2 := set_mem f1 m.
Let objs' := objs ++ [(o, k_ty K, s)].
Hypothesis (Har : arena f objs o) (Happ : appended f f1 objs o (k_ty K) size)
  (Hside : side K f objs tbl n chains) (Hside' : side K' f objs tbl' n' chains')
  (Hm : forall a, a < o -> byte_at m a = byte_at (jf_mem f1) a)
  (Har2 : arena f2 objs' end_) (Hgood : k_good K f2 o).

Lemma ins_in x : x ∈ objs -> x ∈ objs'.
Proof. intros. apply elem_of_app. by left. Qed.

Lemma ins_below a : 240 <= a < o -> byte_at (jf_mem f2) a = byte_at (jf_mem f) a.
Proof. intros. cbn. rewrite Hm by lia. by eapply appended_below. Qed.

Lemma ins_side : side K f2 objs tbl n chains.
Proof. eapply (side_below K f); [exact Har|exact Hside|done|apply ins_below]. Qed.

Lemma ins_side' : side K' f2 objs tbl' n' chains'.
Proof. eapply (side_below K' f); [exact Har|exact Hside'|done|apply ins_below]. Qed.

Definition inserted : JournalFile := set_mem f2 (linked_mem K f2 o tbl n).

Lemma ins_arena : arena inserted objs' end_.
Proof. eapply (lk_arena K f2 objs o s end_ tbl n chains); [exact Har2|by eapply arena_above|exact ins_side]. Qed.

Lemma ins_K :
  side K inserted objs' tbl n (chains_add chains (load64 (jf_mem f2) (o + obj_hash) mod n) o).
Proof.
  eapply (lk_side K f2 objs o s end_ tbl n chains); [exact Har2|by eapply arena_above|exact ins_side|exact Hgood].
Qed.

Lemma ins_K' : side K' inserted objs' tbl' n' chains'.
Proof.
  eapply (side_other K f2 objs' end_ Har2 K'); [done|apply ins_in|exact ins_side'|].
  eapply (lk_frame K f2 objs o s end_ tbl n chains); [exact Har2|by eapply arena_above|exact ins_side].
Qed.

Lemma ins_fine a :
  (a < o /\ (~ (k_count K <= a < k_count K + 8))
   /\ (forall b s, (b, k_tty K, s) ∈ objs -> ~ (b + hash_table_items <= a < b + s))
   /\ (forall b s, (b, k_ty K, s) ∈ objs -> ~ (b + obj_next_hash <= a < b + obj_next_hash + 8))) ->
  byte_at (jf_mem inserted) a = byte_at (jf_mem f1) a.
Proof.
  intros (Ha & Hc & Ht & Hd). cbn. rewrite <- Hm by done.
  apply (lk_frame_fine K f2 objs o s end_ tbl n chains); [exact Har2|by eapply arena_above|exact ins_side|].
  split_and!; [done| |done|unfold obj_next_hash; lia].
  intros b sb [Hb|[= _ E _]%list_elem_of_singleton]%elem_of_app; [by apply (Ht b sb)|].
  by destruct (kl_ty (K := K)).
Qed.

Lemma ins_header a :
  off_data_hash_table_offset <= a < off_tail_object_offset \/ off_n_entries <= a < off_n_data
    \/ ident a \/ a = off_state ->
  byte_at (jf_mem inserted) a = byte_at (jf_mem f1) a.
Proof.
  intros Ha. pose proof (ap_pos _ _ _ _ _ _ Happ). pose proof (kl_count (K := K)).
  assert (a < 208) by (unfold ident, off_arena_size, off_tail_object_offset, off_n_data, off_state in Ha; lia).
  pose proof (arena_above _ _ _ Har) as [_ Hab].
  apply ins_fine. unfold hash_table_items, obj_next_hash.
  split_and!; [lia|lia|..]; intros b sb Hb; destruct (Hab _ _ _ Hb); lia.
Qed.

Lemma ins_extends : k_ty K = OBJECT_DATA \/ k_ty K = OBJECT_FIELD ->
  k_tty K = OBJECT_DATA_HASH_TABLE \/ k_tty K = OBJECT_FIELD_HASH_TABLE -> extends f objs inserted objs'.
Proof.
  intros Hk Hkt. pose proof (kl_count (K := K)). split.
  - eapply same_handle_trans; [apply Happ|]. done.
  - by exists [(o, k_ty K, s)].
  - intros a Ha. rewrite ins_header by tauto. eapply appended_header; [exact Happ|].
    unfold ident, off_n_entries, off_n_objects, off_n_data in *. lia.
  - intros b ty sb a Hb Ha H1 H2 H3.
    destruct (arena_object _ _ _ Har _ _ _ Hb) as (_ & ? & ?).
    rewrite ins_fine; [eapply appended_below; [exact Happ|lia]|].
    split_and!; [lia|lia|..]; intros c sc Hc Hac.
    + destruct (Z.eq_dec b c) as [->|Hbc].
      * destruct (arena_object_unique _ _ _ Har _ _ _ _ _ Hb Hc) as [-> _]. destruct Hkt; congruence.
      * unfold hash_table_items in Hac. destruct (arena_disjoint _ _ _ Har _ _ _ _ _ _ Hb Hc Hbc); lia.
    + destruct (kind_object K f objs o Har c sc Hc) as (_ & ? & _). pose proof (kl_payload (K := K)).
      unfold obj_next_hash in Hac. destruct (Z.eq_dec b c) as [->|Hbc].
      * destruct (arena_object_unique _ _ _ Har _ _ _ _ _ Hb Hc) as [-> _]. specialize (H3 Hk). lia.
      * destruct (arena_disjoint _ _ _ Har _ _ _ _ _ _ Hb Hc Hbc); lia.
Qed.

Lemma ins_writable : writable f -> writable inserted.
Proof.
  intros [? ? ? ?]. destruct (ap_handle _ _ _ _ _ _ Happ). split; cbn; try congruence.
  left. unfold hdr_state. rewrite ins_header by auto. apply (ap_state _ _ _ _ _ _ Happ).
Qed.

(** The new object's contents are not touched by the linking. *)
Lemma ins_new a :
  o <= a < o + 24 \/ o + k_payload K <= a < o + s -> byte_at (jf_mem inserted) a = byte_at m a.
Proof.
  intros Ha.
  assert ((o, k_ty K, s) ∈ objs') as Hin by (apply elem_of_app; right; constructor).
  destruct (kind_object K f2 objs' end_ Har2 o s Hin) as (_ & ? & _). pose proof (kl_payload (K := K)).
  apply (lk_frame K f2 objs o s end_ tbl n chains); [exact Har2|by eapply arena_above|exact ins_side|].
  eapply (klink_frame_object K f2 objs' end_ Har2); [exact Hin|lia|apply kl_ty|].
  intros _. unfold obj_next_hash. lia.
Qed.

(** Nothing behind the new object is touched. *)
Lemma ins_above a :
  (forall x, end_ <= x -> byte_at m x = byte_at (jf_mem f1) x) -> end_ <= a ->
  byte_at (jf_mem inserted) a = byte_at (jf_mem f) a.
Proof.
  intros Hma Ha. pose proof (ap_pos _ _ _ _ _ _ Happ). pose proof (kl_count (K := K)).
  assert (forall b ty sb, (b, ty, sb) ∈ objs' -> b + sb <= end_) as Hend.
  { intros b ty sb Hb. by destruct (arena_object _ _ _ Har2 _ _ _ Hb) as (_ & _ & ?). }
  assert ((o, k_ty K, s) ∈ objs') as Hin by (apply elem_of_app; right; constructor).
  destruct (kind_object K f2 objs' end_ Har2 o s Hin) as (_ & ? & _). pose proof (Hend _ _ _ Hin).
  pose proof (kl_payload (K := K)).
  assert (byte_at (jf_mem inserted) a = byte_at m a) as ->.
  { apply (lk_frame K f2 objs o s end_ tbl n chains); [exact Har2|by eapply arena_above|exact ins_side|].
    split_and!; [lia|..]; intros b sb Hb; pose proof (Hend b _ sb Hb); [lia|].
    destruct (kind_object K f2 objs' end_ Har2 b sb Hb) as (_ & ? & _). lia. }
  rewrite Hma by done. apply (ap_frame _ _ _ _ _ _ Happ).
  unfold append_frame, off_state, off_arena_size, off_tail_object_offset, off_n_objects, sizeof_ObjectHeader in *. lia.
Qed.

(** The links the linking starts with are zero afterwards, but for the chain. *)
Lemma ins_zero x :
  o + obj_next_hash + 8 <= x -> x + 8 <= o + k_payload K -> load64 (k_zero K m o) x = 0 ->
  load64 (jf_mem inserted) x = 0.
Proof.
  intros Hx1 Hx2 Hz. pose proof (ap_pos _ _ _ _ _ _ Happ). pose proof (kl_count (K := K)). rewrite <- Hz.
  assert ((o, k_ty K, s) ∈ objs') as Hin by (apply elem_of_app; right; constructor).
  apply load64_ext. intros y Hy. cbn [inserted set_mem jf_mem]. unfold inserted, linked_mem. cbn [set_mem jf_mem].
  destruct (kind_object K f2 objs' end_ Har2 o s Hin) as (_ & ? & _).
  rewrite (count_mem_frame _ (k_count K)) by (unfold obj_next_hash in *; lia).
  pose proof (lk_table1 K f2 objs o s end_ tbl n chains Har2 ltac:(by eapply arena_above) ins_side) as Ht1.
  eapply (link_mem_frame _ _ _ _ _ _ _ Ht1); [eapply (lk_h K f2 objs); exact ins_side|]. split.
  - intros Htb. destruct (table_bytes _ _ _ _ _ _ _ _ Ht1 Htb) as (b & sb & Hb & Hr).
    destruct (Z.eq_dec b o) as [->|Hne].
    + destruct (arena_object_unique _ _ _ Har2 _ _ _ _ _ Hb Hin) as [E _]. by destruct (kl_ty (K := K)).
    + destruct (arena_disjoint _ _ _ Har2 _ _ _ _ _ _ Hb Hin Hne); unfold obj_next_hash in *; lia.
  - intros b sb Hb Hr. pose proof (kl_payload (K := K)).
    destruct (kind_object K f2 objs' end_ Har2 b sb Hb) as (_ & ? & _).
    destruct (Z.eq_dec b o) as [->|Hne]; [unfold obj_next_hash in *; lia|].
    destruct (arena_disjoint _ _ _ Har2 _ _ _ _ _ _ Hb Hin Hne); unfold obj_next_hash in *; lia.
Qed.

End Insert.

(** * The code *)

Section Code.
Context (e : Env) (fuel : nat).
Hypothesis (He : mmap_ok e) (Hpage : page_ok e).

Lemma link_field_run f objs o s end_ n chains :
  let K := field_kind in
  let tbl := jf_field_hash_table f in
  n = field_buckets f ->
  arena f (objs ++ [(o, OBJECT_FIELD, s)]) end_ -> above objs o -> side K f objs tbl n chains ->
  journal_file_link_field e o o (load64 (jf_mem f) (o + field_hash)) f
  = (Ok tt, set_mem f (linked_mem K f o tbl n)).
Proof.
  intros K tbl -> Har Hab Hs.
  assert ((o, OBJECT_FIELD, s) ∈ objs ++ [(o, OBJECT_FIELD, s)]) as Hin by (apply elem_of_app; right; constructor).
  destruct (arena_object _ _ _ Har _ _ _ Hin) as (Ho & Hpos & _).
  unfold journal_file_link_field. rewrite run_assert by zdecide. run.
  rewrite (obj_type_eq _ _ _ _ Ho). run. cbn [set_mem jf_mem].
  change (store64 (store64 _ _ 0) (o + field_next_hash_offset) 0) with (k_zero K (jf_mem f) o).
  assert (load64 (k_zero K (jf_mem f) o) off_field_hash_table_size = hdr off_field_hash_table_size f) as ->.
  { apply (agree_load64 _ _ _ _ (zero_field_links_frame (jf_mem f) o)).
    unfold off_field_hash_table_size, field_next_hash_offset. lia. }
  match goal with |- bind _ _ ?g = _ => change g with (set_mem f (k_zero K (jf_mem f) o)) end.
  assert (0 < field_buckets f) as Hn by (eapply ht_n, sd_table, Hs).
  rewrite (run_bind _ _ _ _ _ (bucket_ok _ _ _ Hn)). rewrite run_gets.
  exact (lk_run e K f objs o s end_ tbl (field_buckets f) chains He Har Hab Hs).
Qed.

Lemma link_data_run f objs o s end_ n chains :
  let K := data_kind e in
  let tbl := jf_data_hash_table f in
  n = data_buckets f ->
  arena f (objs ++ [(o, OBJECT_DATA, s)]) end_ -> above objs o -> side K f objs tbl n chains ->
  journal_file_link_data e o o (load64 (jf_mem f) (o + data_hash)) f
  = (Ok tt, set_mem f (linked_mem K f o tbl n)).
Proof.
  intros K tbl -> Har Hab Hs.
  assert ((o, OBJECT_DATA, s) ∈ objs ++ [(o, OBJECT_DATA, s)]) as Hin by (apply elem_of_app; right; constructor).
  destruct (arena_object _ _ _ Har _ _ _ Hin) as (Ho & Hpos & _).
  unfold journal_file_link_data. rewrite run_assert by zdecide. run.
  rewrite (obj_type_eq _ _ _ _ Ho). run. cbn [set_mem jf_mem].
  change (store64 _ (o + data_n_entries) 0) with (k_zero K (jf_mem f) o).
  assert (load64 (k_zero K (jf_mem f) o) off_data_hash_table_size = hdr off_data_hash_table_size f) as ->.
  { apply (agree_load64 _ _ _ _ (zero_data_links_frame (jf_mem f) o)).
    unfold off_data_hash_table_size, data_next_hash_offset. lia. }
  match goal with |- bind _ _ ?g = _ => change g with (set_mem f (k_zero K (jf_mem f) o)) end.
  assert (0 < data_buckets f) as Hn by (eapply ht_n, sd_table, Hs).
  rewrite (run_bind _ _ _ _ _ (bucket_ok _ _ _ Hn)). rewrite run_gets.
  exact (lk_run e K f objs o s end_ tbl (data_buckets f) chains He Har Hab Hs).
Qed.

(** ** Finding *)

Definition lookup_data (f : JournalFile) (dch : Z -> list Z) (data : list Z) : option Z :=
  List.find (holds_data e f data) (dch (data_hash64 data mod data_buckets f)).

Definition lookup_field (f : JournalFile) (fch : Z -> list Z) (field : list Z) : option Z :=
  List.find (holds_field f field) (fch (data_hash64 field mod field_buckets f)).

(** The loop along a chain ends within the fuel. *)
Definition fuel_for (n : Z) (chains : Z -> list Z) : Prop :=
  forall h, 0 <= h < n -> (length (chains h) <= fuel)%nat.

Lemma buckets_size n : 0 < n / sizeof_HashItem -> n <> 0.
Proof. intros H ->. done. Qed.

Lemma find_data_ok f objs end_ dch fch data :
  store e f objs end_ dch fch -> fuel_for (data_buckets f) dch ->
  journal_file_find_data_object_with_hash e fuel data (data_hash64 data) f = (Ok (lookup_data f dch data), f).
Proof.
  intros [Har Hw Hd Hf] Hfuel. pose proof (sd_table _ _ _ _ _ _ Hd) as Ht.
  pose proof (ht_n _ _ _ _ _ _ _ Ht) as Hn.
  unfold journal_file_find_data_object_with_hash. run. fold (hdr off_data_hash_table_size f).
  rewrite run_fail_if by (apply Z.eqb_neq, buckets_size, Hn).
  rewrite (run_bind _ _ _ _ _ (bucket_ok _ _ _ Hn)). run.
  assert (0 <= data_hash64 data mod data_buckets f < data_buckets f) as Hh by (by apply Z.mod_pos_bound).
  eapply find_data_loop_ok; [done|exact Har|by apply (ht_chain _ _ _ _ _ _ _ Ht)|by apply Hfuel|].
  intros a Ha. by eapply (sd_good _ _ _ _ _ _ Hd).
Qed.

Lemma find_field_ok f objs end_ dch fch field :
  store e f objs end_ dch fch -> fuel_for (field_buckets f) fch -> 0 < zlen field ->
  journal_file_find_field_object_with_hash e fuel field (data_hash64 field) f = (Ok (lookup_field f fch field), f).
Proof.
  intros [Har Hw Hd Hf] Hfuel Hlen. pose proof (sd_table _ _ _ _ _ _ Hf) as Ht.
  pose proof (ht_n _ _ _ _ _ _ _ Ht) as Hn.
  unfold journal_file_find_field_object_with_hash. run. fold (hdr off_field_hash_table_size f).
  rewrite run_fail_if by (apply Z.eqb_neq, buckets_size, Hn).
  rewrite (run_bind _ _ _ _ _ (bucket_ok _ _ _ Hn)). run.
  assert (0 <= data_hash64 field mod field_buckets f < field_buckets f) as Hh by (by apply Z.mod_pos_bound).
  eapply find_field_loop_ok; [done|exact Har|by apply (ht_chain _ _ _ _ _ _ _ Ht)|by apply Hfuel|].
  intros a Ha. by eapply (sd_good _ _ _ _ _ _ Hf).
Qed.

(** A failed append leaves the store as it was. *)
Lemma store_not_appended f f' objs o dch fch :
  store e f objs o dch fch -> not_appended f f' objs o ->
  store e f' objs o dch fch /\ extends f objs f' objs /\ grown f objs o f' objs o 0.
Proof.
  intros [Har Hw Hd Hf] [Hsh Har' Hst _ Hag].
  assert (grown f objs o f' objs o 0) as Hgr.
  { split; [lia| |by left]. intros a Ha. apply Hag. destruct (arena_above _ _ _ Har). unfold off_state. lia. }
  assert (forall a, 240 <= a < o -> byte_at (jf_mem f') a = byte_at (jf_mem f) a) as Hbelow.
  { intros a Ha. apply Hag. unfold off_state. lia. }
  assert (extends f objs f' objs) as Hex.
  { split; [done|exists []; by rewrite app_nil_r|..].
    - intros a Ha. apply Hag. unfold ident, off_data_hash_table_offset, off_n_entries, off_state in *. lia.
    - intros b ty s a Hb Ha _ _ _. apply Hbelow. destruct (arena_object _ _ _ Har _ _ _ Hb) as (_ & ? & ?). lia. }
  split; [|done]. clear Hgr. pose proof (extends_hdr _ _ _ _ off_data_hash_table_size Hex ltac:(done) ltac:(done)) as H1.
  pose proof (extends_hdr _ _ _ _ off_field_hash_table_size Hex ltac:(done) ltac:(done)) as H2.
  split; [done|destruct Hw, Hsh; split; try congruence; by left|..].
  - unfold data_buckets. rewrite H1, (sh_data _ _ Hsh). by eapply (side_below (data_kind e) f).
  - unfold field_buckets. rewrite H2, (sh_field _ _ Hsh). by eapply (side_below field_kind f).
Qed.

(** What is left in a store, from both kinds' insertions. *)
Lemma store_of_inserted f f' objs objs' end_ dch fch :
  extends f objs f' objs' -> arena f' objs' end_ -> writable f' ->
  side (data_kind e) f' objs' (jf_data_hash_table f) (data_buckets f) dch ->
  side field_kind f' objs' (jf_field_hash_table f) (field_buckets f) fch ->
  store e f' objs' end_ dch fch.
Proof.
  intros Hex Har Hw Hd Hf. pose proof (ex_handle _ _ _ _ Hex) as Hsh.
  unfold data_buckets, field_buckets in *.
  rewrite <- (extends_hdr _ _ _ _ off_data_hash_table_size Hex ltac:(done) ltac:(done)), <- (sh_data _ _ Hsh) in Hd.
  rewrite <- (extends_hdr _ _ _ _ off_field_hash_table_size Hex ltac:(done) ltac:(done)), <- (sh_field _ _ Hsh) in Hf.
  by split.
Qed.

(** The arena after writes into the body of its last object. *)
Lemma arena_new_body f objs o ty s end_ m :
  arena f (objs ++ [(o, ty, s)]) end_ -> above objs o -> mem_ok m ->
  agree (fun a => a < o + 16) (jf_mem f) m -> arena (set_mem f m) (objs ++ [(o, ty, s)]) end_.
Proof.
  intros Har [Ho Hab] Hm Hag. apply arena_set_mem; [done|done|]. eapply agree_mono; [|exact Hag].
  intros a [Ha|[Ha|(b & t & r & Hb & Ha)]]; cbn beta.
  - unfold off_arena_size in Ha. lia.
  - unfold off_n_objects in Ha. lia.
  - unfold sizeof_ObjectHeader in Ha.
    apply elem_of_app in Hb as [Hb|[= -> _ _]%list_elem_of_singleton]; [|lia].
    destruct (Hab _ _ _ Hb). lia.
Qed.

(** Linking a new field object that is complete. *)
Lemma insert_field_ok f f1 objs o dch fch size s end_ m :
  store e f objs o dch fch -> appended f f1 objs o OBJECT_FIELD size ->
  (forall a, a < o -> byte_at m a = byte_at (jf_mem f1) a) ->
  (forall a, end_ <= a -> byte_at m a = byte_at (jf_mem f1) a) ->
  arena (set_mem f1 m) (objs ++ [(o, OBJECT_FIELD, s)]) end_ -> field_good (set_mem f1 m) o ->
  exists f', journal_file_link_field e o o (load64 m (o + field_hash)) (set_mem f1 m) = (Ok tt, f')
    /\ store e f' (objs ++ [(o, OBJECT_FIELD, s)]) end_ dch
         (chains_add fch (load64 m (o + field_hash) mod field_buckets f) o)
    /\ extends f objs f' (objs ++ [(o, OBJECT_FIELD, s)])
    /\ grown f objs o f' (objs ++ [(o, OBJECT_FIELD, s)]) end_ (end_ - o)
    /\ field_of f' o = field_of (set_mem f1 m) o.
Proof.
  intros [Har Hw Hd Hf] Hap Hm Hma Har2 Hg.
  set (tbl := jf_field_hash_table f) in *. set (n := field_buckets f) in *.
  pose proof (ap_handle _ _ _ _ _ _ Hap) as Hsh.
  assert (n = field_buckets (set_mem f1 m)) as Hn.
  { unfold n, field_buckets. f_equal. apply load64_ext. intros x Hx. cbn [set_mem jf_mem].
    pose proof (ap_pos _ _ _ _ _ _ Hap). rewrite Hm by (unfold off_field_hash_table_size in Hx; lia).
    symmetry. eapply appended_header; [exact Hap|].
    unfold off_field_hash_table_size, off_data_hash_table_offset, off_tail_object_offset in *. lia. }
  assert (jf_field_hash_table (set_mem f1 m) = tbl) as Ht by (apply (sh_field _ _ Hsh)).
  pose proof (ins_side field_kind f f1 objs o size tbl n fch m Har Hap Hf Hm) as Hs.
  exists (inserted field_kind f1 o tbl n m). split.
  { rewrite <- Ht in Hs |- *. apply (link_field_run (set_mem f1 m) objs o s end_ n fch Hn Har2); [|exact Hs].
    by eapply arena_above. }
  pose proof (ins_extends field_kind f f1 objs o size s end_ tbl n fch m Har Hap Hf Hm Har2
    (or_intror eq_refl) (or_intror eq_refl)) as Hex.
  split_and!; [|exact Hex|..].
  - eapply store_of_inserted; [exact Hex|..].
    + by eapply (ins_arena field_kind f f1 objs o size s end_ tbl n fch).
    + by eapply (ins_writable field_kind f f1 objs o size s end_ tbl n fch).
    + by eapply (ins_K' field_kind (data_kind e) (field_data_apart e) f f1 objs o size s end_ tbl n).
    + by eapply (ins_K field_kind f f1 objs o size s end_ tbl n fch).
  - assert ((o, OBJECT_FIELD, s) ∈ objs ++ [(o, OBJECT_FIELD, s)]) as Hin by (apply elem_of_app; right; constructor).
    destruct (arena_object _ _ _ Har2 _ _ _ Hin) as (Ho2 & _ & ?). pose proof (object_ALIGN64 _ _ _ _ Ho2).
    split; [lia|intros a Ha; by eapply (ins_above field_kind f f1 objs o size s end_ tbl n fch)|].
    intros d sd [Hd'|[= _ E _]%list_elem_of_singleton]%elem_of_app. by left.
  - assert ((o, OBJECT_FIELD, s) ∈ objs ++ [(o, OBJECT_FIELD, s)]) as Hin by (apply elem_of_app; right; constructor).
    destruct (kind_object field_kind _ _ _ Har2 o s Hin) as (_ & ? & Hsize & _).
    apply (field_of_agree (set_mem f1 m) _ o s Hsize). intros x Hx.
    eapply (ins_new field_kind f f1 objs o size s end_ tbl n fch m Har Hap Hf Hm Har2). cbn in *. lia.
Qed.

Lemma append_field_ok f objs o dch fch field :
  store e f objs o dch fch -> fuel_for (field_buckets f) fch -> 0 < zlen field -> bytes_ok field ->
  o + 40 + zlen field < 2 ^ 62 ->
  exists r f', journal_file_append_field e fuel field f = (r, f')
    /\ match r with
       | Ok fo => exists objs' end' fch' s, store e f' objs' end' dch fch' /\ extends f objs f' objs'
           /\ grown f objs o f' objs' end' (48 + zlen field)
           /\ (fo, OBJECT_FIELD, s) ∈ objs' /\ field_of f' fo = field
       | Err _ => store e f' objs o dch fch /\ extends f objs f' objs /\ grown f objs o f' objs o (48 + zlen field)
       | _ => False
       end.
Proof.
  intros Hst Hfuel Hlen Hbytes Hsz. pose proof Hst as [Har Hw Hd Hf].
  unfold journal_file_append_field. rewrite run_assert by zdecide. cbv zeta.
  rewrite (run_bind _ _ _ _ _ (find_field_ok f objs o dch fch field Hst Hfuel Hlen)).
  destruct (lookup_field f fch field) as [fo|] eqn:El.
  { exists (Ok fo), f. split; [done|]. unfold lookup_field in El. apply List.find_some in El as [Hin Hh].
    apply bool_decide_eq_true in Hh. apply list_elem_of_In in Hin.
    assert (0 <= data_hash64 field mod field_buckets f < field_buckets f) as Hr.
    { apply Z.mod_pos_bound. eapply ht_n, sd_table, Hf. }
    destruct (chain_object f objs _ _ _ _ _ (sd_table _ _ _ _ _ _ Hf) _ fo Hr Hin) as [s Hs].
    exists objs, o, fch, s. split_and!; [done|apply extends_refl|apply grown_refl; lia|done|done]. }
  destruct (append_object_ok e He Hpage f objs o OBJECT_FIELD (field_payload + zlen field))
    as (f1 & [[Hrun Hap]|(er & Hrun & Hna)]);
    [done|done|done|cbn; unfold field_payload; lia|unfold field_payload; lia|..].
  2:{ eexists (Err er), f1. unfold bind. rewrite Hrun. split; [done|].
      destruct (store_not_appended _ _ _ _ _ _ Hst Hna) as (? & ? & Hgr). split_and!; [done|done|].
      eapply grown_weaken; [exact Hgr|lia]. }
  rewrite (run_bind _ _ _ _ _ Hrun). run. cbn [set_mem jf_mem].
  pose proof (ap_object _ _ _ _ _ _ Hap) as Ho. pose proof (ap_arena _ _ _ _ _ _ Hap) as Har1.
  set (m := store_bytes (store64 (jf_mem f1) (o + field_hash) (data_hash64 field)) (o + field_payload) field).
  assert (forall a, a < o + 16 -> byte_at m a = byte_at (jf_mem f1) a) as Hm.
  { intros a Ha. unfold m. rewrite byte_at_store_ne, byte_at_store64_ne;
      unfold field_hash, field_payload; done || lia. }
  assert (load64 m (o + field_hash) = data_hash64 field) as Hhash.
  { unfold m. rewrite load64_store_ne by (unfold field_hash, field_payload; lia).
    apply load64_store64_eq, hash64_range; [done|lia]. }
  assert (arena (set_mem f1 m) (objs ++ [(o, OBJECT_FIELD, field_payload + zlen field)])
    (o + ALIGN64 (field_payload + zlen field))) as Har2.
  { apply arena_new_body; [done|by eapply arena_above| |done].
    unfold m. apply mem_ok_store; [|done]. apply mem_ok_store64, Har1. }
  assert (field_of (set_mem f1 m) o = field) as Hfield.
  { assert ((o, OBJECT_FIELD, field_payload + zlen field) ∈ objs ++ [(o, OBJECT_FIELD, field_payload + zlen field)])
      as Hin by (apply elem_of_app; right; constructor).
    destruct (kind_object field_kind _ _ _ Har2 o _ Hin) as (_ & _ & Hsize & _).
    unfold field_of. rewrite Hsize, Z.add_simpl_l. unfold zlen. rewrite Nat2Z.id.
    cbn [set_mem jf_mem]. apply load_store_bytes_eq. }
  pose proof (ALIGN64_spec (field_payload + zlen field) ltac:(unfold field_payload; lia)
    ltac:(pose proof (ap_pos _ _ _ _ _ _ Hap); unfold field_payload; lia)) as Hal.
  assert (forall a, o + ALIGN64 (field_payload + zlen field) <= a -> byte_at m a = byte_at (jf_mem f1) a) as Hma.
  { intros a Ha. unfold m. rewrite byte_at_store_ne, byte_at_store64_ne;
      unfold field_hash, field_payload, zlen in *; done || lia. }
  destruct (insert_field_ok f f1 objs o dch fch _ _ _ m Hst Hap ltac:(intros; apply Hm; lia) Hma Har2)
    as (f' & Hlink & Hst' & Hex & Hgr & Hf').
  { unfold field_good. rewrite Hfield. exact Hhash. }
  rewrite Hhash in Hlink, Hst'. change (set_mem (set_mem f1 _) _) with (set_mem f1 m).
  rewrite (run_bind _ _ _ _ _ Hlink).
  assert ((o, OBJECT_FIELD, field_payload + zlen field) ∈ objs ++ [(o, OBJECT_FIELD, field_payload + zlen field)])
    as Hin by (apply elem_of_app; right; constructor).
  destruct (arena_object _ _ _ (st_arena _ _ _ _ _ _ Hst') _ _ _ Hin) as (Ho' & _).
  rewrite (move_to_object_ok e _ _ _ _ _ He Ho' (or_introl eq_refl)).
  eexists (Ok o), f'. split; [done|]. eexists _, _, _, _.
  split_and!; [exact Hst'|exact Hex| |exact Hin|congruence].
  eapply grown_weaken; [exact Hgr|]. unfold field_payload in Hal. unfold field_payload. lia.
Qed.

(** Linking a new data object that is complete. *)
Lemma insert_data_ok f f1 objs o dch fch size s end_ m :
  store e f objs o dch fch -> appended f f1 objs o OBJECT_DATA size ->
  (forall a, a < o -> byte_at m a = byte_at (jf_mem f1) a) ->
  (forall a, end_ <= a -> byte_at m a = byte_at (jf_mem f1) a) ->
  arena (set_mem f1 m) (objs ++ [(o, OBJECT_DATA, s)]) end_ -> data_good e (set_mem f1 m) o ->
  exists f', journal_file_link_data e o o (load64 m (o + data_hash)) (set_mem f1 m) = (Ok tt, f')
    /\ store e f' (objs ++ [(o, OBJECT_DATA, s)]) end_
         (chains_add dch (load64 m (o + data_hash) mod data_buckets f) o) fch
    /\ extends f objs f' (objs ++ [(o, OBJECT_DATA, s)])
    /\ grown f objs o f' (objs ++ [(o, OBJECT_DATA, s)]) end_ (end_ - o)
    /\ data_of e f' o = data_of e (set_mem f1 m) o
    /\ load64 (jf_mem f') (o + data_hash) = load64 m (o + data_hash).
Proof.
  intros [Har Hw Hd Hf] Hap Hm Hma Har2 Hg.
  set (tbl := jf_data_hash_table f) in *. set (n := data_buckets f) in *.
  pose proof (ap_handle _ _ _ _ _ _ Hap) as Hsh.
  assert (n = data_buckets (set_mem f1 m)) as Hn.
  { unfold n, data_buckets. f_equal. apply load64_ext. intros x Hx. cbn [set_mem jf_mem].
    pose proof (ap_pos _ _ _ _ _ _ Hap). rewrite Hm by (unfold off_data_hash_table_size in Hx; lia).
    symmetry. eapply appended_header; [exact Hap|].
    unfold off_data_hash_table_size, off_data_hash_table_offset, off_tail_object_offset in *. lia. }
  assert (jf_data_hash_table (set_mem f1 m) = tbl) as Ht by (apply (sh_data _ _ Hsh)).
  pose proof (ins_side (data_kind e) f f1 objs o size tbl n dch m Har Hap Hd Hm) as Hs.
  exists (inserted (data_kind e) f1 o tbl n m). split.
  { rewrite <- Ht in Hs |- *. apply (link_data_run (set_mem f1 m) objs o s end_ n dch Hn Har2); [|exact Hs].
    by eapply arena_above. }
  pose proof (ins_extends (data_kind e) f f1 objs o size s end_ tbl n dch m Har Hap Hd Hm Har2
    (or_introl eq_refl) (or_introl eq_refl)) as Hex.
  assert ((o, OBJECT_DATA, s) ∈ objs ++ [(o, OBJECT_DATA, s)]) as Hin by (apply elem_of_app; right; constructor).
  destruct (kind_object (data_kind e) _ _ _ Har2 o s Hin) as (_ & ? & Hsize & _).
  pose proof (ins_new (data_kind e) f f1 objs o size s end_ tbl n dch m Har Hap Hd Hm Har2) as Hnew.
  split_and!; [|exact Hex|..].
  - eapply store_of_inserted; [exact Hex|..].
    + by eapply (ins_arena (data_kind e) f f1 objs o size s end_ tbl n dch).
    + by eapply (ins_writable (data_kind e) f f1 objs o size s end_ tbl n dch).
    + by eapply (ins_K (data_kind e) f f1 objs o size s end_ tbl n dch).
    + by eapply (ins_K' (data_kind e) field_kind (data_field_apart e) f f1 objs o size s end_ tbl n).
  - destruct (arena_object _ _ _ Har2 _ _ _ Hin) as (Ho2 & _ & ?). pose proof (object_ALIGN64 _ _ _ _ Ho2).
    split; [lia|intros a Ha; by eapply (ins_above (data_kind e) f f1 objs o size s end_ tbl n dch)|].
    intros d sd [Hd'|[= -> _]%list_elem_of_singleton]%elem_of_app; [by left|right].
    pose proof (ins_zero (data_kind e) f f1 objs o size s end_ tbl n dch m Har Hap Hd Hm Har2) as Hz.
    cbn [data_kind k_zero k_payload] in Hz. unfold zero_data_links, obj_next_hash, data_next_field_offset,
      data_next_hash_offset, data_entry_array_offset, data_entry_offset, data_n_entries, data_payload in Hz.
    unfold fresh_links, data_entry_offset, data_entry_array_offset, data_n_entries.
    split_and!; apply Hz; try lia; rewrite ?load64_store64_ne by lia;
      apply load64_store64_eq; unfold is_u64; lia.
  - apply (data_of_agree e (set_mem f1 m) _ o s Hsize). intros x Hx. apply Hnew. cbn in *. lia.
  - apply load64_ext. intros x Hx. apply Hnew. unfold data_hash in Hx. lia.
Qed.

(** The last object of the arena may shrink. *)
Lemma arena_resize_last f objs o ty s s' end_ m :
  arena f (objs ++ [(o, ty, s)]) end_ -> objects_from f (hdr off_header_size f) objs o ->
  (forall a, a < o -> byte_at m a = byte_at (jf_mem f) a) -> mem_ok m -> 240 <= o ->
  is_object (set_mem f m) ty o s' -> s' <= s ->
  arena (set_mem f m) (objs ++ [(o, ty, s')]) (o + ALIGN64 s').
Proof.
  intros [Hm Hh Ho Ht Hn Ha Hs He'] Hobjs Hag Hm' Hpos Hob Hle.
  assert (forall x, x + 8 <= 240 -> hdr x (set_mem f m) = hdr x f) as Hhdr.
  { intros x Hx. apply load64_ext. intros y Hy. apply Hag. lia. }
  assert (arena_end (set_mem f m) = arena_end f) as Hend by (unfold arena_end; rewrite !Hhdr by done; done).
  pose proof (objects_from_last _ _ _ _ Ho) as Hlast. rewrite last_snoc in Hlast. destruct Hlast as [Hold Heq].
  pose proof (object_ALIGN64 _ _ _ _ Hob) as (? & ? & ?). pose proof (object_ALIGN64 _ _ _ _ Hold) as (? & ? & ?).
  split; rewrite ?Hend, ?Hhdr by done; try done.
  - apply objects_from_snoc; [|done]. eapply objects_from_agree; [exact Hobjs| |cbn; destruct Hold; lia].
    intros a Hr. cbn beta in Hr. apply Hag. lia.
  - rewrite Ht. unfold tail_offset. by rewrite !last_snoc.
  - rewrite Hn. unfold zlen. by rewrite !length_app.
  - mlia.
Qed.

(** ** Appending data *)

(** What liblzma documents: decoding undoes encoding, and the encoder stays within
    the output buffer, which is one byte smaller than the input. *)
Definition compress_law : Prop :=
  forall src b, env_compress e src = Some b ->
    env_decompress e b = Some src /\ 0 < zlen b < zlen src /\ bytes_ok b.

(** The data is stored as it is, or the encoder manages to shrink it. *)
Definition payload_fits (f : JournalFile) (data : list Z) : Prop :=
  jf_compress_xz f = true -> COMPRESSION_SIZE_THRESHOLD <= zlen data -> env_compress e data <> None.

(** The new object, its payload written. *)
Definition payload_written (f1 : JournalFile) (objs : list (Z * Z * Z)) (o : Z) (data : list Z) (m : mem) : Prop :=
  (forall a, a < o -> byte_at m a = byte_at (jf_mem f1) a)
  /\ (exists s, arena (set_mem f1 m) (objs ++ [(o, OBJECT_DATA, s)]) (o + ALIGN64 s)
        /\ s <= data_payload + zlen data
        /\ forall a, o + ALIGN64 s <= a -> byte_at m a = byte_at (jf_mem f1) a)
  /\ data_good e (set_mem f1 m) o
  /\ data_of e (set_mem f1 m) o = Some data
  /\ load64 m (o + data_hash) = data_hash64 data.

Lemma payload_plain_ok f f1 objs o data :
  arena f objs o -> appended f f1 objs o OBJECT_DATA (data_payload + zlen data) -> bytes_ok data ->
  o + data_payload + zlen data < 2 ^ 62 ->
  payload_written f1 objs o data
    (store_bytes (store64 (jf_mem f1) (o + data_hash) (data_hash64 data)) (o + data_payload) data).
Proof.
  intros Har Hap Hbytes Hsz. pose proof (ap_arena _ _ _ _ _ _ Hap) as Har1.
  pose proof (ap_pos _ _ _ _ _ _ Hap).
  pose proof (ALIGN64_spec (data_payload + zlen data) ltac:(unfold data_payload, zlen; lia)
    ltac:(unfold data_payload in *; lia)) as Hal.
  set (m := store_bytes _ _ _).
  assert (forall a, a < o + 16 -> byte_at m a = byte_at (jf_mem f1) a) as Hm.
  { intros a Ha. unfold m. rewrite byte_at_store_ne, byte_at_store64_ne;
      unfold data_hash, data_payload; done || lia. }
  assert (arena (set_mem f1 m) (objs ++ [(o, OBJECT_DATA, data_payload + zlen data)])
    (o + ALIGN64 (data_payload + zlen data))) as Har2.
  { apply arena_new_body; [done|by eapply arena_above| |done].
    unfold m. apply mem_ok_store; [|done]. apply mem_ok_store64, Har1. }
  assert (load64 m (o + data_hash) = data_hash64 data) as Hhash.
  { unfold m. rewrite load64_store_ne by (unfold data_hash, data_payload; lia).
    apply load64_store64_eq, hash64_range; [done|unfold zlen; lia]. }
  assert (data_compressed (set_mem f1 m) o = false) as Hc.
  { unfold data_compressed. cbn [set_mem jf_mem]. rewrite Hm by (unfold obj_flags; lia).
    by rewrite (ap_flags _ _ _ _ _ _ Hap). }
  assert (data_of e (set_mem f1 m) o = Some data) as Hd.
  { assert ((o, OBJECT_DATA, data_payload + zlen data) ∈ objs ++ [(o, OBJECT_DATA, data_payload + zlen data)])
      as Hin by (apply elem_of_app; right; constructor).
    destruct (kind_object (data_kind e) _ _ _ Har2 o _ Hin) as (_ & _ & Hsize & _).
    unfold data_of. rewrite Hc. unfold data_raw. rewrite Hsize, Z.add_simpl_l. unfold zlen. rewrite Nat2Z.id.
    cbn [set_mem jf_mem]. f_equal. apply load_store_bytes_eq. }
  split_and!; [intros; apply Hm; lia| |split; [by exists data|by rewrite Hc]|done|done].
  eexists. split_and!; [exact Har2|done|]. intros a Ha. unfold m.
  rewrite byte_at_store_ne, byte_at_store64_ne; unfold data_hash, data_payload, zlen in *; done || lia.
Qed.

Lemma payload_compressed_ok f f1 objs o data b :
  compress_law -> arena f objs o -> appended f f1 objs o OBJECT_DATA (data_payload + zlen data) ->
  o + data_payload + zlen data < 2 ^ 62 -> bytes_ok data -> env_compress e data = Some b ->
  payload_written f1 objs o data
    (store8 (store64 (store_bytes (store64 (jf_mem f1) (o + data_hash) (data_hash64 data)) (o + data_payload) b)
       (o + obj_size) (data_payload + zlen b)) (o + obj_flags) OBJECT_COMPRESSED_XZ).
Proof.
  intros Hlaw Har Hap Hsz Hbytes Hb. destruct (Hlaw _ _ Hb) as (Hdec & Hlen & Hbok).
  pose proof (ap_arena _ _ _ _ _ _ Hap) as Har1. pose proof (ap_object _ _ _ _ _ _ Hap) as Hob.
  pose proof (ap_pos _ _ _ _ _ _ Hap) as Hpos.
  set (m := store8 _ _ _).
  assert (forall a, a < o \/ a = o -> byte_at m a = byte_at (jf_mem f1) a) as Hm.
  { intros a Ha. unfold m. rewrite byte_at_store8_ne, byte_at_store64_ne, byte_at_store_ne, byte_at_store64_ne;
      unfold data_hash, data_payload, obj_flags, obj_size; done || lia. }
  assert (load64 m (o + obj_size) = data_payload + zlen b) as Hsize.
  { unfold m. rewrite load64_store8_ne by (unfold obj_size, obj_flags; lia).
    apply load64_store64_eq. unfold is_u64, data_payload, zlen in *. lia. }
  assert (load64 m (o + data_hash) = data_hash64 data) as Hhash.
  { unfold m. rewrite load64_store8_ne, load64_store64_ne, load64_store_ne
      by (unfold data_hash, data_payload, obj_flags, obj_size; lia).
    apply load64_store64_eq, hash64_range; [done|unfold zlen; lia]. }
  assert (is_object (set_mem f1 m) OBJECT_DATA o (data_payload + zlen b)) as Hob2.
  { destruct Hob as [? ? Ht ? ? ? ? ?]. split; cbn [set_mem jf_mem jf_last_size]; try done; try lia.
    - rewrite <- Ht. unfold obj_type. apply Hm. lia.
    - cbn. unfold sizeof_ObjectHeader, data_payload. lia. }
  assert (mem_ok m) as Hmok.
  { unfold m. apply mem_ok_store8, mem_ok_store64, mem_ok_store; [apply mem_ok_store64, Har1|done]. }
  assert (arena (set_mem f1 m) (objs ++ [(o, OBJECT_DATA, data_payload + zlen b)])
    (o + ALIGN64 (data_payload + zlen b))) as Har2.
  { eapply (arena_resize_last f1 objs o OBJECT_DATA); [exact Har1| | |done|done|done|lia].
    - by eapply appended_objects.
    - intros. apply Hm. lia. }
  assert (byte_at m (o + obj_flags) = OBJECT_COMPRESSED_XZ) as Hflags by (unfold m; by rewrite byte_at_store8_eq).
  assert (data_raw (set_mem f1 m) o = b) as Hraw.
  { unfold data_raw. cbn [set_mem jf_mem]. rewrite Hsize, Z.add_simpl_l. unfold zlen. rewrite Nat2Z.id.
    rewrite <- (load_store_bytes_eq (store64 (jf_mem f1) (o + data_hash) (data_hash64 data)) (o + data_payload) b) at 2.
    apply load_bytes_ext. intros x Hx. unfold m.
    rewrite byte_at_store8_ne, byte_at_store64_ne; unfold data_payload, obj_flags, obj_size in *; done || lia. }
  assert (data_of e (set_mem f1 m) o = Some data) as Hd.
  { unfold data_of, data_compressed. cbn [set_mem jf_mem]. rewrite Hflags. simpl. by rewrite Hraw. }
  pose proof (object_ALIGN64 _ _ _ _ Hob2) as (Hal & _).
  split_and!; [intros; apply Hm; lia|eexists; split_and!; [exact Har2|lia|]| |done|done].
  { intros a Ha. unfold m. rewrite byte_at_store8_ne, byte_at_store64_ne, byte_at_store_ne, byte_at_store64_ne;
      unfold data_hash, data_payload, obj_flags, obj_size, zlen in *; done || lia. }
  split; [by exists data|]. intros _. cbn [set_mem jf_mem]. rewrite Hsize. lia.
Qed.

(** The payload code does one or the other. *)
Lemma append_data_payload_ok f f1 objs o data :
  compress_law -> payload_fits f data -> arena f objs o ->
  appended f f1 objs o OBJECT_DATA (data_payload + zlen data) ->
  o + data_payload + zlen data < 2 ^ 62 -> bytes_ok data ->
  exists m,
    append_data_payload e o data (set_mem f1 (store64 (jf_mem f1) (o + data_hash) (data_hash64 data)))
    = (Ok tt, set_mem f1 m) /\ payload_written f1 objs o data m.
Proof.
  intros Hlaw Hfits Har Hap Hsz Hbytes.
  unfold append_data_payload. run. cbn [set_mem jf_compress_xz].
  unfold payload_fits in Hfits. rewrite <- (sh_xz _ _ (ap_handle _ _ _ _ _ _ Hap)) in Hfits.
  destruct (jf_compress_xz f1 && (COMPRESSION_SIZE_THRESHOLD <=? zlen data)) eqn:Ec.
  - bprop. specialize (Hfits ltac:(done) ltac:(done)).
    destruct (env_compress e data) as [b|] eqn:Eb; [|done]. clear Hfits.
    destruct (Hlaw _ _ Eb) as (_ & Hlen & _).
    eexists. split; [|by eapply payload_compressed_ok].
    unfold compress_blob, COMPRESSION_SIZE_THRESHOLD in *. destruct (Z.ltb_spec (zlen data) 80); [lia|].
    rewrite Eb. cbn [fst snd]. change (OBJECT_COMPRESSED_XZ =? OBJECT_COMPRESSED_XZ) with true. cbv iota zeta.
    run. cbn [set_mem jf_mem].
    assert (data_payload + zlen b < 18446744073709551616 /\ 0 <= data_payload + zlen b) as Hr
      by (pose proof (ap_pos _ _ _ _ _ _ Hap); unfold data_payload, zlen in *; lia).
    rewrite u64_small by (unfold is_u64; lia).
    rewrite byte_at_store64_ne by (unfold obj_size, obj_flags; lia).
    rewrite byte_at_store_ne, byte_at_store64_ne by (unfold data_hash, data_payload, obj_flags; lia).
    rewrite (ap_flags _ _ _ _ _ _ Hap). done.
  - eexists. split; [|by eapply payload_plain_ok]. done.
Qed.

(** Writes to the links between data and field objects. *)
Lemma store_field_links f objs end_ dch fch o so fo sf m :
  store e f objs end_ dch fch -> (o, OBJECT_DATA, so) ∈ objs -> (fo, OBJECT_FIELD, sf) ∈ objs -> mem_ok m ->
  agree (fun a => ~ (o + data_next_field_offset <= a < o + data_next_field_offset + 8)
    /\ ~ (fo + field_head_data_offset <= a < fo + field_head_data_offset + 8)) (jf_mem f) m ->
  store e (set_mem f m) objs end_ dch fch /\ extends f objs (set_mem f m) objs.
Proof.
  intros [Har Hw Hd Hf] Ho Hfo Hm Hag. unfold data_next_field_offset, field_head_data_offset in Hag.
  destruct (arena_object _ _ _ Har _ _ _ Ho) as (Hoo & Ho1 & Ho2).
  destruct (arena_object _ _ _ Har _ _ _ Hfo) as (Hfoo & Hf1 & Hf2).
  pose proof (obj_min _ _ _ _ Hoo) as Hmo. pose proof (obj_min _ _ _ _ Hfoo) as Hmf.
  cbn in Hmo, Hmf. unfold data_payload, field_payload in Hmo, Hmf.
  assert (extends f objs (set_mem f m) objs) as Hex.
  { split; [done|exists []; by rewrite app_nil_r|..].
    - intros a Ha. apply Hag. unfold ident, off_state, off_arena_size, off_data_hash_table_offset, off_tail_object_offset, off_n_entries, off_n_data in *. lia.
    - intros b ty s a Hb Ha H1 H2 H3. apply Hag.
      split; intros Hx.
      + destruct (Z.eq_dec b o) as [->|Hne].
        * destruct (arena_object_unique _ _ _ Har _ _ _ _ _ Hb Ho) as [-> _]. specialize (H3 (or_introl eq_refl)). lia.
        * destruct (arena_disjoint _ _ _ Har _ _ _ _ _ _ Hb Ho Hne); lia.
      + destruct (Z.eq_dec b fo) as [->|Hne].
        * destruct (arena_object_unique _ _ _ Har _ _ _ _ _ Hb Hfo) as [-> _]. specialize (H3 (or_intror eq_refl)). lia.
        * destruct (arena_disjoint _ _ _ Har _ _ _ _ _ _ Hb Hfo Hne); lia. }
  split; [|done].
  assert (forall b ty s a, (b, ty, s) ∈ objs -> b <= a < b + s ->
    (ty = OBJECT_DATA \/ ty = OBJECT_FIELD -> a < b + 32 \/ b + 40 <= a) -> byte_at m a = byte_at (jf_mem f) a) as Hkeep.
  { intros b ty s a Hb Ha H3. apply Hag. split; intros Hx.
    - destruct (Z.eq_dec b o) as [->|Hne].
      + destruct (arena_object_unique _ _ _ Har _ _ _ _ _ Hb Ho) as [-> _]. specialize (H3 (or_introl eq_refl)). lia.
      + destruct (arena_disjoint _ _ _ Har _ _ _ _ _ _ Hb Ho Hne); lia.
    - destruct (Z.eq_dec b fo) as [->|Hne].
      + destruct (arena_object_unique _ _ _ Har _ _ _ _ _ Hb Hfo) as [-> _]. specialize (H3 (or_intror eq_refl)). lia.
      + destruct (arena_disjoint _ _ _ Har _ _ _ _ _ _ Hb Hfo Hne); lia. }
  assert (forall K `{!KindLaws K} tbl n chains, side K f objs tbl n chains ->
    (k_tty K <> OBJECT_DATA /\ k_tty K <> OBJECT_FIELD) -> (40 <= k_payload K) ->
    side K (set_mem f m) objs tbl n chains) as Hsides.
  { intros K HK tbl n chains Hs [? ?] Hpay. eapply (side_agree K f _ objs objs); [done|done|exact Hs|done|..].
    - intros a Ha. destruct (table_bytes _ _ _ _ _ _ _ _ (sd_table _ _ _ _ _ _ Hs) Ha) as (b & sb & Hb & Hr).
      eapply Hkeep; [exact Hb|done|]. intros [?|?]; congruence.
    - intros b s a Hb Ha. destruct (kind_object K f objs end_ Har b s Hb) as (_ & ? & _).
      eapply Hkeep; [exact Hb|lia|]. lia. }
  eapply store_of_inserted; [exact Hex|..].
  - apply arena_set_mem; [done|done|]. intros a [Ha|[Ha|(b & ty & s & Hb & Ha)]].
    + apply Hag. unfold off_arena_size in Ha. lia.
    + apply Hag. unfold off_n_objects in Ha. lia.
    + unfold sizeof_ObjectHeader in Ha. destruct (arena_object _ _ _ Har _ _ _ Hb) as (Hob & _ & _).
      pose proof (object_ALIGN64 _ _ _ _ Hob). eapply Hkeep; [exact Hb|lia|lia].
  - apply writable_set_mem; [done|]. apply Hag. unfold off_state. lia.
  - apply (Hsides (data_kind e)); [apply _|done|split; done|done].
  - apply (Hsides field_kind); [apply _|done|split; done|done].
Qed.

Lemma extends_field_buckets f objs f' objs' : extends f objs f' objs' -> field_buckets f' = field_buckets f.
Proof. intros H. unfold field_buckets. by rewrite (extends_hdr _ _ _ _ off_field_hash_table_size H). Qed.

Lemma extends_data_buckets f objs f' objs' : extends f objs f' objs' -> data_buckets f' = data_buckets f.
Proof. intros H. unfold data_buckets. by rewrite (extends_hdr _ _ _ _ off_data_hash_table_size H). Qed.

(** Hooking the data object into its field: the end of journal_file_append_data. *)
Definition link_to_field (data : list Z) (p : Z) : M Z :=
  match memchr 61 data with
  | Some (S i) =>
      fo <- journal_file_append_field e fuel (take (S i) data) ;;
      hd <- rd (fo + field_head_data_offset) ;;
      wr (p + data_next_field_offset) hd ;;
      wr (fo + field_head_data_offset) p ;;
      ret p
  | _ => ret p
  end.

Lemma link_to_field_ok f objs end_ dch fch data p s :
  store e f objs end_ dch fch -> (p, OBJECT_DATA, s) ∈ objs -> fuel_for (field_buckets f) fch -> bytes_ok data ->
  end_ + 40 + zlen data < 2 ^ 62 ->
  exists r f', link_to_field data p f = (r, f')
    /\ (r = Ok p \/ exists er, r = Err er)
    /\ exists objs' end' fch', store e f' objs' end' dch fch' /\ extends f objs f' objs'
         /\ grown f objs end_ f' objs' end' (48 + zlen data).
Proof.
  intros Hst Hp Hfuel Hbytes Hsz. unfold link_to_field.
  assert (forall x : outcome Z * JournalFile, x = (Ok p, f) -> exists r f', x = (r, f')
    /\ (r = Ok p \/ exists er, r = Err er)
    /\ exists objs' end' fch', store e f' objs' end' dch fch' /\ extends f objs f' objs'
         /\ grown f objs end_ f' objs' end' (48 + zlen data)) as Hsame.
  { intros x ->. exists (Ok p), f. split_and!; [done|by left|]. exists objs, end_, fch.
    split_and!; [done|apply extends_refl|apply grown_refl; unfold zlen; lia]. }
  destruct (memchr 61 data) as [[|i]|] eqn:Em; [by apply Hsame| |by apply Hsame].
  assert (0 < zlen (take (S i) data) <= zlen data) as Hlen.
  { unfold zlen. rewrite length_take. destruct data; [done|]. simpl. lia. }
  destruct (append_field_ok f objs end_ dch fch (take (S i) data) Hst Hfuel ltac:(lia)
    ltac:(by apply Forall_take) ltac:(lia)) as (r & f1 & Hrun & Hres).
  destruct r as [fo|er| |]; [|eexists (Err er), f1|done|done].
  2:{ unfold bind. rewrite Hrun. destruct Hres as (? & ? & Hgr). split_and!; [done|right; by eexists|].
      exists objs, end_, fch. split_and!; [done|done|]. eapply grown_weaken; [exact Hgr|lia]. }
  destruct Hres as (objs1 & end1 & fch1 & sf & Hst1 & Hex1 & Hgr1 & Hfo & _).
  rewrite (run_bind _ _ _ _ _ Hrun). run. cbn [set_mem jf_mem].
  eexists (Ok p), _. split_and!; [reflexivity|by left|].
  exists objs1, end1, fch1.
  destruct (store_field_links f1 objs1 end1 dch fch1 p s fo sf
    (store64 (store64 (jf_mem f1) (p + data_next_field_offset)
       (load64 (jf_mem f1) (fo + field_head_data_offset))) (fo + field_head_data_offset) p))
    as [Hst2 Hex2]; [exact Hst1| |exact Hfo|..].
  - by eapply extends_in.
  - apply mem_ok_store64, mem_ok_store64, (st_arena _ _ _ _ _ _ Hst1).
  - eapply agree_trans; [|apply agree_store64; intros x [? ?]; lia]. apply agree_store64. intros x [? ?]. lia.
  - split; [exact Hst2|]. split; [by eapply extends_trans|].
    eapply grown_weaken; [eapply (grown_trans _ _ _ f1 objs1 end1 _ _ _ _ 0); [exact Hgr1| |apply Hst1|exact Hex2]|lia].
    destruct (arena_object _ _ _ (st_arena _ _ _ _ _ _ Hst1) _ _ _ (extends_in _ _ _ _ _ Hex1 Hp)) as (Hpo & ? & ?).
    destruct (arena_object _ _ _ (st_arena _ _ _ _ _ _ Hst1) _ _ _ Hfo) as (Hfoo & ? & ?).
    pose proof (obj_min _ _ _ _ Hpo) as Hm1. pose proof (obj_min _ _ _ _ Hfoo) as Hm2. cbn in Hm1, Hm2.
    unfold data_payload, field_payload in *.
    split; [lia| |by left]. intros a Ha. cbn [set_mem jf_mem].
    rewrite !byte_at_store64_ne by (unfold field_head_data_offset, data_next_field_offset; lia). done.
Qed.

Lemma append_data_ok f objs o dch fch data :
  compress_law -> payload_fits f data -> bytes_ok data ->
  store e f objs o dch fch -> fuel_for (data_buckets f) dch -> fuel_for (field_buckets f) fch ->
  o + 200 + 2 * zlen data < 2 ^ 62 ->
  exists r f', journal_file_append_data e fuel data f = (r, f')
    /\ exists objs' end' dch' fch', store e f' objs' end' dch' fch' /\ extends f objs f' objs'
    /\ grown f objs o f' objs' end' (128 + 2 * zlen data)
    /\ match r with
       | Ok p => (exists s, (p, OBJECT_DATA, s) ∈ objs') /\ data_of e f' p = Some data
           /\ load64 (jf_mem f') (p + data_hash) = data_hash64 data
           /\ (lookup_data f dch data = Some p /\ f' = f /\ dch' = dch
               \/ lookup_data f dch data = None
                  /\ dch' = chains_add dch (data_hash64 data mod data_buckets f) p)
       | Err _ => True
       | _ => False
       end.
Proof.
  intros Hlaw Hfits Hbytes Hst Hfd Hff Hsz. pose proof Hst as [Har Hw Hd Hf].
  unfold journal_file_append_data. cbv zeta.
  rewrite (run_bind _ _ _ _ _ (find_data_ok f objs o dch fch data Hst Hfd)).
  destruct (lookup_data f dch data) as [p|] eqn:El.
  { exists (Ok p), f. split; [done|]. exists objs, o, dch, fch. split; [done|]. split; [apply extends_refl|].
    split; [apply grown_refl; unfold zlen; lia|]. unfold lookup_data in El. apply List.find_some in El as [Hin Hh].
    apply bool_decide_eq_true in Hh. apply list_elem_of_In in Hin.
    assert (0 <= data_hash64 data mod data_buckets f < data_buckets f) as Hr.
    { apply Z.mod_pos_bound. eapply ht_n, sd_table, Hd. }
    destruct (sd_good _ _ _ _ _ _ Hd _ _ Hr Hin) as [(d & Hd1 & Hd2) _].
    assert (d = data) as -> by congruence. split_and!; [|done|exact Hd2|by left].
    by apply (chain_object f objs _ _ _ _ _ (sd_table _ _ _ _ _ _ Hd) _ p Hr Hin). }
  destruct (append_object_ok e He Hpage f objs o OBJECT_DATA (data_payload + zlen data))
    as (f1 & [[Hrun Hap]|(er & Hrun & Hna)]);
    [done|done|done|cbn; unfold data_payload, zlen; lia|unfold data_payload, zlen in *; lia|..].
  2:{ eexists (Err er), f1. unfold bind at 1. rewrite Hrun. split; [done|]. exists objs, o, dch, fch.
      destruct (store_not_appended _ _ _ _ _ _ Hst Hna) as (? & ? & Hgr). split_and!; [done|done| |done].
      eapply grown_weaken; [exact Hgr|unfold zlen; lia]. }
  rewrite (run_bind _ _ _ _ _ Hrun). run.
  assert (o + data_payload + zlen data < 2 ^ 62) as Hsz' by (unfold data_payload, zlen in *; lia).
  destruct (append_data_payload_ok f f1 objs o data Hlaw Hfits Har Hap Hsz' Hbytes)
    as (m & Hpay & Hm & (s & Har2 & Hs & Hma) & Hg & Hdo & Hh).
  rewrite (run_bind _ _ _ _ _ Hpay).
  destruct (insert_data_ok f f1 objs o dch fch _ s _ m Hst Hap Hm Hma Har2 Hg)
    as (f2 & Hlink & Hst2 & Hex2 & Hgr2 & Hdo2 & Hh2).
  rewrite Hh in Hlink, Hst2, Hh2. rewrite (run_bind _ _ _ _ _ Hlink).
  assert ((o, OBJECT_DATA, s) ∈ objs ++ [(o, OBJECT_DATA, s)]) as Hin by (apply elem_of_app; right; constructor).
  destruct (arena_object _ _ _ (st_arena _ _ _ _ _ _ Hst2) _ _ _ Hin) as (Ho2 & _).
  rewrite (run_bind _ _ _ _ _ (move_to_object_ok e _ _ _ _ _ He Ho2 (or_introl eq_refl))).
  destruct (link_to_field_ok f2 _ _ _ _ data o s Hst2 Hin) as (r & f3 & Hrun3 & Hr & objs3 & end3 & fch3 & Hst3 & Hex3 & Hgr3).
  { intros h Hr. rewrite (extends_field_buckets _ _ _ _ Hex2) in Hr. by apply Hff. }
  { done. }
  { pose proof (object_ALIGN64 _ _ _ _ Ho2). unfold data_payload in *. lia. }
  exists r, f3. split; [exact Hrun3|]. eexists objs3, end3, _, fch3. split; [exact Hst3|]. split; [by eapply extends_trans|].
  split.
  { eapply grown_weaken; [eapply grown_trans; [exact Hgr2|exact Hgr3|apply Hst2|exact Hex3]|].
    pose proof (object_ALIGN64 _ _ _ _ Ho2). unfold data_payload in *. lia. }
  destruct Hr as [->|[er ->]]; [|done].
  split_and!.
  - exists s. by eapply extends_in.
  - rewrite (extends_data_of e _ _ _ _ _ _ _ (st_arena _ _ _ _ _ _ Hst2) Hex3 Hin). congruence.
  - rewrite <- Hh2. apply load64_ext. intros x Hx.
    pose proof (obj_min _ _ _ _ Ho2) as Hmin. cbn in Hmin. unfold data_payload, data_hash in *.
    eapply (ex_object _ _ _ _ Hex3); [exact Hin|lia|done|done|lia].
  - by right.
Qed.

End Code.
