(* ===== verification/JournalSeek.v ===== *)
(** lib/journal-file.c, the reading half: the chain cache, the entry array
    chains and their bisection, and the moves to an entry by offset, sequence
    number and time. *)
From S2P Require Import Prelude Lookup3 Memory JournalDef JournalFile Uuid.

Definition CHAIN_CACHE_MAX := 20.

(** hashmap_get on the chain cache *)
Definition chain_cache_get (h : list ChainCacheItem) (first : Z) : option ChainCacheItem :=
  List.find (fun c => ci_first c =? first) h.

Definition chain_cache_put (h : list ChainCacheItem) (ci : option ChainCacheItem)
    (first array begin total last_index : Z) : list ChainCacheItem :=
  let new := mkCCI first array begin total last_index in
  match ci with
  | None =>
      (* nothing worth caching for the first array of a chain *)
      if array =? first then h
      else (if CHAIN_CACHE_MAX <=? zlen h then drop 1 h else h) ++ [new]
  | Some _ => map (fun c => if ci_first c =? first then new else c) h
  end.

Inductive test_result := TEST_FOUND | TEST_LEFT | TEST_RIGHT.

(** [if (r == TEST_FOUND) r = direction == DIRECTION_DOWN ? TEST_RIGHT : TEST_LEFT;] *)
Definition test_adjust (direction : direction_t) (r : test_result) : test_result :=
  match r, direction with
  | TEST_FOUND, DIRECTION_DOWN => TEST_RIGHT
  | TEST_FOUND, DIRECTION_UP => TEST_LEFT
  | r, _ => r
  end.

(** == needle, < needle, > needle *)
Definition test_compare (x needle : Z) : test_result :=
  if x =? needle then TEST_FOUND else if x <? needle then TEST_LEFT else TEST_RIGHT.

Definition is_right (r : test_result) : bool := match r with TEST_RIGHT => true | _ => false end.
Definition is_left (r : test_result) : bool := match r with TEST_LEFT => true | _ => false end.
Definition is_up (d : direction_t) : bool := match d with DIRECTION_UP => true | _ => false end.

Section Seek.
Context (e : Env) (fuel : nat).

(** ** generic_array_get *)

(** The walk along the chain: the array, the index in it, the items before it and
    the item. *)
Fixpoint array_get_loop (n : nat) (a i t : Z) : M (option (Z * Z * Z * Z)) :=
  if a =? 0 then ret None else
  match n with
  | O => nofuel
  | S n =>
      o <- journal_file_move_to_object e OBJECT_ENTRY_ARRAY a ;;
      k <- journal_file_entry_array_n_items o ;;
      if i <? k then (p <- rd (array_item o i) ;; ret (Some (a, i, t, p)))
      else (next <- rd (o + entry_array_next) ;; array_get_loop n next (i - k) (u64 (t + k)))
  end.

Definition generic_array_get (first i : Z) : M (option Z) :=
  cache <- gets jf_chain_cache ;;
  let ci := chain_cache_get cache first in
  let '(a, i, t) :=
    match ci with
    | Some c => if ci_total c <? i then (ci_array c, i - ci_total c, ci_total c) else (first, i, 0)
    | None => (first, i, 0)
    end in
  r <- array_get_loop fuel a i t ;;
  match r with
  | None => ret None
  | Some (a, i, t, p) =>
      begin <- rd (array_item a 0) ;;
      modify (fun f => set_cache f (chain_cache_put (jf_chain_cache f) ci first a begin t i)) ;;
      _ <- journal_file_move_to_object e OBJECT_ENTRY p ;;
      ret (Some p)
  end.

Definition generic_array_get_plus_one (extra first i : Z) : M (option Z) :=
  if i =? 0 then (_ <- journal_file_move_to_object e OBJECT_ENTRY extra ;; ret (Some extra))
  else generic_array_get first (i - 1).

(** ** generic_array_bisect *)

Section Bisect.
Context (test_object : Z -> Z -> M test_result) (direction : direction_t) (needle : Z).

(** The item at [i]: its offset and on which side of it the search goes on. *)
Definition probe (array i : Z) : M (Z * test_result) :=
  p <- rd (array_item array i) ;;
  fail_if (p <=? 0) EBADMSG ;;
  r <- test_object p needle ;;
  ret (p, test_adjust direction r).

(** [for (;;)] *)
Fixpoint bisect_loop (n : nat) (array left right : Z) : M Z :=
  if left =? right then ret left else
  match n with
  | O => nofuel
  | S n =>
      assert_ (left <? right) ;;
      let i := u64 (left + right) / 2 in
      r <- probe array i ;;
      if is_right r.2 then bisect_loop n array left i
      else bisect_loop n array (i + 1) right
  end.

(** The neighbours of the cached last index narrow the range first. *)
Definition bisect_narrow (array last_index right : Z) : M (Z * Z) :=
  if last_index =? u64_max then ret (0, right) else
  assert_ (last_index <=? right) ;;
  lr <- (if 0 <? last_index then
           (let x := last_index - 1 in
            r <- probe array x ;;
            ret (if is_right r.2 then (0, x) else (x + 1, right)))
         else ret (0, right)) ;;
  if last_index <? lr.2 then
    (let y := last_index + 1 in
     r <- probe array y ;;
     ret (if is_right r.2 then (lr.1, y) else (y + 1, lr.2)))
  else ret lr.

(** The result of [goto found]: the array, [i], [subtract_one], [t], [last_p]. *)
Fixpoint bisect_arrays (k_ : nat) (a n t last_index last_p : Z)
  : M (option (Z * Z * bool * Z * Z)) :=
  if a =? 0 then ret None else
  match k_ with
  | O => nofuel
  | S k_ =>
      array <- journal_file_move_to_object e OBJECT_ENTRY_ARRAY a ;;
      k <- journal_file_entry_array_n_items array ;;
      let right := Z.min k n in
      if right <=? 0 then ret None else
      let i := right - 1 in
      r <- probe array i ;;
      let lp := r.1 in
      if is_right r.2 then
        (lr <- bisect_narrow array last_index (right - 1) ;;
         i <- bisect_loop fuel array lr.1 lr.2 ;;
         ret (Some (a, i, is_up direction, t, last_p)))
      else if n <? k then
        ret (if is_up direction then Some (a, n, true, t, last_p) else None)
      else
        (next <- rd (array + entry_array_next) ;;
         bisect_arrays k_ next (n - k) (u64 (t + k)) u64_max lp)
  end.

Definition bisect_found (first : Z) (ci : option ChainCacheItem)
    (a i : Z) (subtract_one : bool) (t last_p : Z) : M (option (Z * Z)) :=
  if subtract_one && (t =? 0) && (i =? 0) then ret None else
  begin <- rd (array_item a 0) ;;
  modify (fun f => set_cache f (chain_cache_put (jf_chain_cache f) ci first a begin t
    (if subtract_one then (if 0 <? i then i - 1 else u64_max) else i))) ;;
  p <- (if subtract_one && (i =? 0) then ret last_p
        else if subtract_one then rd (array_item a (i - 1))
        else rd (array_item a i)) ;;
  _ <- journal_file_move_to_object e OBJECT_ENTRY p ;;
  ret (Some (p, u64 (t + i + (if subtract_one then -1 else 0)))).

Definition generic_array_bisect (first n : Z) : M (option (Z * Z)) :=
  cache <- gets jf_chain_cache ;;
  let ci := chain_cache_get cache first in
  start <- match ci with
    | Some c =>
        if ci_total c <? n then
          (r <- test_object (ci_begin c) needle ;;
           ret (if is_left r then (ci_array c, n - ci_total c, ci_total c, ci_last_index c)
                else (first, n, 0, u64_max)))
        else ret (first, n, 0, u64_max)
    | None => ret (first, n, 0, u64_max)
    end ;;
  let '(a, n, t, last_index) := start in
  r <- bisect_arrays fuel a n t last_index 0 ;;
  match r with
  | None => ret None
  | Some (a, i, subtract_one, t, last_p) => bisect_found first ci a i subtract_one t last_p
  end.

Definition generic_array_bisect_plus_one (extra first n : Z) : M (option (Z * Z)) :=
  if n <=? 0 then ret None else
  r <- test_object extra needle ;;
  let r := test_adjust direction r in
  let step_back := is_left r && is_up direction in
  let found := _ <- journal_file_move_to_object e OBJECT_ENTRY extra ;; ret (Some (extra, 0)) in
  if is_right r then (if is_up direction then ret None else found)
  else
    (x <- generic_array_bisect first (n - 1) ;;
     match x with
     | None => if step_back then found else ret None
     | Some (p, idx) => ret (Some (p, u64 (idx + 1)))
     end).

End Bisect.

(** ** The test functions *)

Definition test_object_offset (p needle : Z) : M test_result :=
  assert_ (0 <? p) ;; ret (test_compare p needle).

Definition test_object_field (field p needle : Z) : M test_result :=
  assert_ (0 <? p) ;;
  o <- journal_file_move_to_object e OBJECT_ENTRY p ;;
  x <- rd (o + field) ;;
  ret (test_compare x needle).

Definition test_object_seqnum := test_object_field entry_seqnum.
Definition test_object_realtime := test_object_field entry_realtime.
Definition test_object_monotonic := test_object_field entry_monotonic.

(** ** Moving to entries *)

Definition journal_file_move_to_entry_by_offset (p : Z) (direction : direction_t) :=
  a <- rd off_entry_array_offset ;; n <- rd off_n_entries ;;
  generic_array_bisect test_object_offset direction p a n.

Definition journal_file_move_to_entry_by_seqnum (seqnum : Z) (direction : direction_t) :=
  a <- rd off_entry_array_offset ;; n <- rd off_n_entries ;;
  generic_array_bisect test_object_seqnum direction seqnum a n.

Definition journal_file_move_to_entry_by_realtime (realtime : Z) (direction : direction_t) :=
  a <- rd off_entry_array_offset ;; n <- rd off_n_entries ;;
  generic_array_bisect test_object_realtime direction realtime a n.

(** "_BOOT_ID=" and the 32 hexadecimal digits *)
Definition boot_id_data (boot_id : list Z) : list Z :=
  [95; 66; 79; 79; 84; 95; 73; 68; 61] ++ uuid_to_str boot_id.

Definition find_data_object_by_boot_id (boot_id : list Z) : M (option Z) :=
  journal_file_find_data_object e fuel (boot_id_data boot_id).

(** generic_array_bisect_plus_one on the entries of the data object at [d] *)
Definition bisect_for_data (test_object : Z -> Z -> M test_result) (direction : direction_t)
    (needle d : Z) : M (option (Z * Z)) :=
  extra <- rd (d + data_entry_offset) ;;
  first <- rd (d + data_entry_array_offset) ;;
  n <- rd (d + data_n_entries) ;;
  generic_array_bisect_plus_one test_object direction needle extra first n.

Definition journal_file_move_to_entry_by_monotonic (boot_id : list Z) (monotonic : Z)
    (direction : direction_t) : M (option (Z * Z)) :=
  r <- find_data_object_by_boot_id boot_id ;;
  match r with
  | None => err ENOENT
  | Some o => bisect_for_data test_object_monotonic direction monotonic o
  end.

(** One step from index [i] of [n]: [None] at the end. *)
Definition step_index (direction : direction_t) (i n : Z) : option Z :=
  match direction with
  | DIRECTION_DOWN => if u64 (n - 1) <=? i then None else Some (i + 1)
  | DIRECTION_UP => if i <=? 0 then None else Some (i - 1)
  end.

Definition journal_file_next_entry (o : option Z) (p : Z) (direction : direction_t)
  : M (option Z) :=
  assert_ ((0 <? p) || bool_decide (o = None)) ;;
  n <- rd off_n_entries ;;
  if n <=? 0 then ret None else
  a <- rd off_entry_array_offset ;;
  i <- match o with
    | None => ret (Some (match direction with DIRECTION_DOWN => 0 | DIRECTION_UP => n - 1 end))
    | Some o =>
        t <- rdb (o + obj_type) ;;
        fail_if (negb (t =? OBJECT_ENTRY)) EINVAL ;;
        r <- generic_array_bisect test_object_offset DIRECTION_DOWN p a n ;;
        ret (match r with None => None | Some (_, i) => step_index direction i n end)
    end ;;
  match i with
  | None => ret None
  | Some i =>
      r <- generic_array_get a i ;;
      match r with
      | None => ret None
      | Some ofs =>
          fail_if ((0 <? p) &&
            match direction with DIRECTION_DOWN => ofs <=? p | DIRECTION_UP => p <=? ofs end)
            EBADMSG ;;
          ret (Some ofs)
      end
  end.

Definition journal_file_skip_entry (o p skip : Z) : M (option Z) :=
  assert_ (0 <? p) ;;
  t <- rdb (o + obj_type) ;;
  fail_if (negb (t =? OBJECT_ENTRY)) EINVAL ;;
  a <- rd off_entry_array_offset ;;
  n <- rd off_n_entries ;;
  r <- generic_array_bisect test_object_offset DIRECTION_DOWN p a n ;;
  match r with
  | None => ret None
  | Some (_, i) =>
      let i := if skip <? 0 then (if i <=? - skip then 0 else i - - skip)
               else u64 (i + skip) in
      fail_if (n <=? 0) EBADMSG ;;
      generic_array_get a (if n <=? i then n - 1 else i)
  end.

Definition journal_file_next_entry_for_data (o : option Z) (p data_offset : Z)
    (direction : direction_t) : M (option Z) :=
  assert_ ((0 <? p) || bool_decide (o = None)) ;;
  d <- journal_file_move_to_object e OBJECT_DATA data_offset ;;
  n <- rd (d + data_n_entries) ;;
  if n <=? 0 then ret None else
  i <- match o with
    | None => ret (Some (match direction with DIRECTION_DOWN => 0 | DIRECTION_UP => n - 1 end))
    | Some o =>
        t <- rdb (o + obj_type) ;;
        fail_if (negb (t =? OBJECT_ENTRY)) EINVAL ;;
        r <- bisect_for_data test_object_offset DIRECTION_DOWN p d ;;
        ret (match r with None => None | Some (_, i) => step_index direction i n end)
    end ;;
  match i with
  | None => ret None
  | Some i =>
      extra <- rd (d + data_entry_offset) ;;
      first <- rd (d + data_entry_array_offset) ;;
      generic_array_get_plus_one extra first i
  end.

Definition move_to_entry_for_data (test_object : Z -> Z -> M test_result)
    (data_offset needle : Z) (direction : direction_t) : M (option (Z * Z)) :=
  d <- journal_file_move_to_object e OBJECT_DATA data_offset ;;
  bisect_for_data test_object direction needle d.

Definition journal_file_move_to_entry_by_offset_for_data (data_offset p : Z)
    (direction : direction_t) : M (option (Z * Z)) :=
  move_to_entry_for_data test_object_offset data_offset p direction.

Definition journal_file_move_to_entry_by_seqnum_for_data (data_offset seqnum : Z)
    (direction : direction_t) : M (option (Z * Z)) :=
  move_to_entry_for_data test_object_seqnum data_offset seqnum direction.

Definition journal_file_move_to_entry_by_realtime_for_data (data_offset realtime : Z)
    (direction : direction_t) : M (option (Z * Z)) :=
  move_to_entry_for_data test_object_realtime data_offset realtime direction.

(** Seek on until an entry is in both arrays. *)
Fixpoint both_arrays_loop (n : nat) (b data_offset z : Z) (direction : direction_t)
  : M (option Z) :=
  match n with
  | O => nofuel
  | S n =>
      d <- journal_file_move_to_object e OBJECT_DATA data_offset ;;
      r <- bisect_for_data test_object_offset direction z d ;;
      match r with
      | None => ret None
      | Some (p, _) =>
          o <- journal_file_move_to_object e OBJECT_DATA b ;;
          r <- bisect_for_data test_object_offset direction p o ;;
          match r with
          | None => ret None
          | Some (q, _) =>
              if p =? q then ret (Some q) else both_arrays_loop n b data_offset q direction
          end
      end
  end.

Definition journal_file_move_to_entry_by_monotonic_for_data (data_offset : Z)
    (boot_id : list Z) (monotonic : Z) (direction : direction_t) : M (option Z) :=
  r <- find_data_object_by_boot_id boot_id ;;
  match r with
  | None => err ENOENT
  | Some b =>
      r <- bisect_for_data test_object_monotonic direction monotonic b ;;
      match r with
      | None => ret None
      | Some (z, _) => both_arrays_loop fuel b data_offset z direction
      end
  end.

(** ** Cutoffs *)

(** [from] or [to] when asked for. *)
Definition journal_file_get_cutoff_realtime_usec (from to : bool) : M (Z * Z) :=
  h <- rd off_head_entry_realtime ;;
  t <- rd off_tail_entry_realtime ;;
  fail_if (from && (h =? 0)) ENOENT ;;
  fail_if (to && (t =? 0)) ENOENT ;;
  ret (h, t).

Definition journal_file_get_cutoff_monotonic_usec (boot_id : list Z) (from to : bool)
  : M (option (option Z * option Z)) :=
  r <- find_data_object_by_boot_id boot_id ;;
  match r with
  | None => ret None
  | Some p =>
      n <- rd (p + data_n_entries) ;;
      if n <=? 0 then ret None else
      extra <- rd (p + data_entry_offset) ;;
      fr <- (if from then
               (o <- journal_file_move_to_object e OBJECT_ENTRY extra ;;
                m <- rd (o + entry_monotonic) ;; ret (Some m))
             else ret None) ;;
      if to then
        (o <- journal_file_move_to_object e OBJECT_DATA p ;;
         extra <- rd (o + data_entry_offset) ;;
         first <- rd (o + data_entry_array_offset) ;;
         n <- rd (o + data_n_entries) ;;
         r <- generic_array_get_plus_one extra first (u64 (n - 1)) ;;
         match r with
         | None => ret None
         | Some en => m <- rd (en + entry_monotonic) ;; ret (Some (fr, Some m))
         end)
      else ret (Some (fr, None))
  end.

End Seek.
