(* ===== verification/BisectProofs.v ===== *)
(** generic_array_bisect and generic_array_get against their specification: the
    chain of entry arrays is one sequence of entry offsets, and bisection returns
    what a linear search of the sequence would.

    [chain f a arrs] describes the chain that starts at [a] as the list of its
    arrays (offset, capacity), and [items f arrs] is the sequence they hold. *)
From S2P Require Import Prelude Lookup3 Uuid Memory JournalDef JournalFile ObjectLemmas JournalSeek.

(** * Chains *)

Definition is_array (f : JournalFile) (a k : Z) : Prop :=
  is_object f OBJECT_ENTRY_ARRAY a (entry_array_items + 8 * k) /\ 0 < k.

Fixpoint chain (f : JournalFile) (a : Z) (arrs : list (Z * Z)) : Prop :=
  match arrs with
  | [] => a = 0
  | (a', k) :: arrs =>
      a = a' /\ is_array f a k /\ chain f (load64 (jf_mem f) (a + entry_array_next)) arrs
  end.

Definition arr_item (f : JournalFile) (a i : Z) : Z := load64 (jf_mem f) (array_item a i).

Definition arr_items (f : JournalFile) (ak : Z * Z) : list Z :=
  map (arr_item f ak.1) (seqZ 0 ak.2).
Definition items (f : JournalFile) (arrs : list (Z * Z)) : list Z := flat_map (arr_items f) arrs.

Lemma items_cons f ak arrs : items f (ak :: arrs) = arr_items f ak ++ items f arrs.
Proof. done. Qed.

(** The number of items of the arrays. *)
Fixpoint caps (arrs : list (Z * Z)) : Z :=
  match arrs with [] => 0 | (_, k) :: arrs => k + caps arrs end.

(** The item at an index. *)
Definition nthz (xs : list Z) (i : Z) : option Z := xs !! Z.to_nat i.

Lemma arr_items_length f a k : 0 <= k -> length (arr_items f (a, k)) = Z.to_nat k.
Proof. intros. unfold arr_items. rewrite length_map, length_seqZ. done. Qed.

Lemma arr_items_nth f a k i :
  0 <= i < k -> nthz (arr_items f (a, k)) i = Some (arr_item f a i).
Proof.
  intros. unfold nthz, arr_items. simpl. rewrite list_lookup_fmap, lookup_seqZ_lt by lia.
  simpl. do 2 f_equal. lia.
Qed.

Lemma chain_pos f a arrs : chain f a arrs -> Forall (fun ak => 0 < ak.2) arrs.
Proof.
  revert a. induction arrs as [|[a' k] arrs IH]; intros a; simpl; [constructor|].
  intros (_ & [_ Hk] & Hc). constructor; [done|]. by eapply IH.
Qed.

Lemma caps_nonneg arrs : Forall (fun ak => 0 < ak.2) arrs -> 0 <= caps arrs.
Proof. induction 1 as [|[a k] arrs Hk Hf IH]; simpl in *; lia. Qed.

Lemma caps_app pre suf : caps (pre ++ suf) = caps pre + caps suf.
Proof. induction pre as [|[a k] pre IH]; simpl; lia. Qed.

Lemma chain_caps f a arrs : chain f a arrs -> 0 <= caps arrs.
Proof.
  revert a. induction arrs as [|[a' k] arrs IH]; intros a; simpl; [lia|].
  intros (_ & [_ Hk] & Hc). apply IH in Hc. lia.
Qed.

Lemma items_length f a arrs : chain f a arrs -> zlen (items f arrs) = caps arrs.
Proof.
  unfold zlen. revert a. induction arrs as [|[a' k] arrs IH]; intros a; [done|].
  intros (_ & [_ Hk] & Hc). rewrite items_cons, length_app, arr_items_length by lia.
  apply IH in Hc. cbn [caps]. lia.
Qed.

Lemma items_nth_l f a k arrs i :
  0 <= i < k -> nthz (items f ((a, k) :: arrs)) i = Some (arr_item f a i).
Proof.
  intros. unfold nthz. rewrite items_cons, lookup_app_l by (rewrite arr_items_length; lia).
  by apply arr_items_nth.
Qed.

Lemma items_nth_r f a k arrs i :
  0 <= k <= i -> nthz (items f ((a, k) :: arrs)) i = nthz (items f arrs) (i - k).
Proof.
  intros. unfold nthz. rewrite items_cons, lookup_app_r by (rewrite arr_items_length; lia).
  rewrite arr_items_length by lia. f_equal. lia.
Qed.

Lemma chain_app f a pre arrs :
  chain f a (pre ++ arrs) -> exists a', chain f a' arrs /\ (arrs <> [] -> a' = (default (0,0) (head arrs)).1).
Proof.
  revert a. induction pre as [|[b k] pre IH]; intros a; simpl.
  - intros H. exists a. split; [done|]. destruct arrs as [|[c k] arrs]; [done|]. by destruct H as [-> _].
  - intros (_ & _ & H). eauto.
Qed.

Lemma n_items_ok f a k :
  is_array f a k -> journal_file_entry_array_n_items a f = (Ok k, f).
Proof.
  intros [[Hpos Hv Ht Hs Hty Hm He1 He2] Hk]. unfold journal_file_entry_array_n_items. run.
  rewrite Ht, Hs. unfold OBJECT_ENTRY_ARRAY, entry_array_items in *. simpl negb. cbv iota.
  rewrite u64_small by (unfold is_u64; lia).
  replace (24 + 8 * k - 24) with (k * 8) by lia. rewrite Z.div_mul by lia. done.
Qed.

Lemma move_to_array e f a k :
  mmap_ok e -> is_array f a k ->
  journal_file_move_to_object e OBJECT_ENTRY_ARRAY a f = (Ok a, f).
Proof. intros He [Ho _]. eapply move_to_object_ok; eauto. Qed.

(** * Bisection *)

Section BisectProofs.
Context (e : Env) (fuel : nat) (test_object : Z -> Z -> M test_result)
  (direction : direction_t) (needle : Z) (f : JournalFile) (tst : Z -> test_result).
Hypothesis He : mmap_ok e.

(** The search goes to the left of an item at [p]. *)
Definition to_right (p : Z) : bool := is_right (test_adjust direction (tst p)).

(** An item the test function can be asked about. *)
Definition testable (p : Z) : Prop :=
  0 < p /\ test_object p needle f = (Ok (tst p), f).

(** The items in [0, m) are on the left, those in [m, n) are not. *)
Record cut (it : Z -> Z) (n m : Z) : Prop := {
  cut_range : 0 <= m <= n;
  cut_left : forall i, 0 <= i < m -> to_right (it i) = false;
  cut_right : forall i, m <= i < n -> to_right (it i) = true }.

Lemma probe_ok a i :
  testable (arr_item f a i) ->
  probe test_object direction needle a i f
  = (Ok (arr_item f a i, test_adjust direction (tst (arr_item f a i))), f).
Proof.
  unfold arr_item. intros [Hp Ht]. unfold probe. run.
  rewrite (run_bind _ _ _ _ _ Ht). done.
Qed.

Lemma bisect_loop_ok n a left right m K :
  (forall i, 0 <= i < K -> testable (arr_item f a i)) ->
  cut (arr_item f a) K m -> K < 2 ^ 62 -> 0 <= left <= m -> m <= right <= K ->
  right - left < 2 ^ Z.of_nat n ->
  bisect_loop test_object direction needle n a left right f = (Ok m, f).
Proof.
  intros Hp [Hr Hl Hg] HK. revert left right.
  induction n as [|n IH]; intros left right Hleft Hright Hn; cbn [bisect_loop];
    destruct (Z.eqb_spec left right) as [->|]; try (unfold ret; do 2 f_equal; lia).
  rewrite Nat2Z.inj_succ, Z.pow_succ_r in Hn by lia.
  rewrite run_assert by (zdecide).
  cbv zeta. rewrite u64_small by (unfold is_u64; lia).
  set (i := (left + right) / 2).
  assert (left <= i < right) by (unfold i; mlia).
  rewrite (run_bind _ _ _ _ _ (probe_ok a i (Hp i ltac:(lia)))). cbn [snd].
  change (is_right (test_adjust direction (tst (arr_item f a i)))) with (to_right (arr_item f a i)).
  assert (2 * i <= left + right < 2 * i + 2) by (unfold i; mlia).
  destruct (Z.lt_ge_cases i m).
  - rewrite Hl by lia. apply IH; lia.
  - rewrite Hg by lia. apply IH; lia.
Qed.

Lemma bisect_narrow_ok a li m K :
  (forall i, 0 <= i < K -> testable (arr_item f a i)) ->
  cut (arr_item f a) K m -> m < K < 2 ^ 62 ->
  li = u64_max \/ 0 <= li < K ->
  exists l r, bisect_narrow test_object direction needle a li (K - 1) f = (Ok (l, r), f)
    /\ 0 <= l <= m /\ m <= r <= K - 1.
Proof.
  intros Hp [Hr Hl Hg] HK Hli. unfold bisect_narrow.
  destruct (Z.eqb_spec li u64_max) as [|Hne].
  { exists 0, (K - 1). split; [done|lia]. }
  destruct Hli as [|Hli]; [done|].
  rewrite run_assert by zdecide.
  assert (exists l r,
    (if 0 <? li then
       (let x := li - 1 in
        r <- probe test_object direction needle a x ;;
        ret (if is_right r.2 then (0, x) else (x + 1, K - 1)))
     else ret (0, K - 1)) f = (Ok (l, r), f) /\ 0 <= l <= m /\ m <= r <= K - 1)
    as (l & r & Hx & Hlm & Hmr).
  { destruct (Z.ltb_spec 0 li).
    - cbv zeta. rewrite (run_bind _ _ _ _ _ (probe_ok a (li - 1) (Hp (li - 1) ltac:(lia)))). cbn [snd].
      change (is_right (test_adjust direction (tst (arr_item f a (li - 1))))) with (to_right (arr_item f a (li - 1))).
      destruct (Z.lt_ge_cases (li - 1) m).
      + rewrite Hl by lia. eexists _, _; split; [done|lia].
      + rewrite Hg by lia. eexists _, _; split; [done|lia].
    - exists 0, (K - 1). split; [done|lia]. }
  rewrite (run_bind _ _ _ _ _ Hx). cbn [fst snd].
  destruct (Z.ltb_spec li r).
  - cbv zeta. rewrite (run_bind _ _ _ _ _ (probe_ok a (li + 1) (Hp (li + 1) ltac:(lia)))). cbn [snd].
    change (is_right (test_adjust direction (tst (arr_item f a (li + 1))))) with (to_right (arr_item f a (li + 1))).
    destruct (Z.lt_ge_cases (li + 1) m).
    + rewrite Hl by lia. eexists _, _; split; [done|lia].
    + rewrite Hg by lia. eexists _, _; split; [done|lia].
  - exists l, r. split; [done|lia].
Qed.

(** *** The walk along the arrays *)

(** [cut] for a sequence. *)
Record lcut (xs : list Z) (n m : Z) : Prop := {
  lcut_range : 0 <= m <= n;
  lcut_left : forall i p, 0 <= i < m -> nthz xs i = Some p -> to_right p = false;
  lcut_right : forall i p, m <= i < n -> nthz xs i = Some p -> to_right p = true }.

(** The item before index [c], [lp] at the beginning. *)
Definition prev_item (lp : Z) (xs : list Z) (c : Z) : Z :=
  if c =? 0 then lp else default 0 (nthz xs (c - 1)).

(** [n] items fill a prefix of the arrays exactly. *)
Definition boundary (arrs : list (Z * Z)) (n : Z) : Prop :=
  exists pre suf, arrs = pre ++ suf /\ caps pre = n.

Definition arrays_result (arrs : list (Z * Z)) (n t lp m : Z)
    (res : option (Z * Z * bool * Z * Z)) : Prop :=
  match res with
  | Some (a', i, sub, t', lp') =>
      exists pre k suf, arrs = pre ++ (a', k) :: suf
        /\ t' = t + caps pre /\ i = m - caps pre
        /\ lp' = prev_item lp (items f arrs) (caps pre) /\ sub = is_up direction
        /\ (m < n /\ caps pre <= m < caps pre + k
            \/ m = n /\ direction = DIRECTION_UP /\ caps pre < n < caps pre + k)
  | None => m = n /\ (direction = DIRECTION_DOWN \/ boundary arrs n)
  end.

(** The first array decides. *)
Lemma lcut_head a k arrs n m :
  0 < k -> lcut (items f ((a, k) :: arrs)) n m -> m <= Z.min k n ->
  cut (arr_item f a) (Z.min k n) m.
Proof.
  intros Hk [Hr Hl Hg] Hm. split; [lia|..]; intros i Hi.
  - apply (Hl i); [lia|]. apply items_nth_l. lia.
  - apply (Hg i); [lia|]. apply items_nth_l. lia.
Qed.

(** ... or the rest of the chain does. *)
Lemma lcut_tail a k arrs n m :
  0 < k <= n -> k <= m -> lcut (items f ((a, k) :: arrs)) n m ->
  lcut (items f arrs) (n - k) (m - k).
Proof.
  intros Hk Hm [Hr Hl Hg]. split; [lia|..]; intros i p Hi Hp.
  - apply (Hl (i + k)); [lia|]. rewrite items_nth_r by lia. by rewrite Z.add_simpl_r.
  - apply (Hg (i + k)); [lia|]. rewrite items_nth_r by lia. by rewrite Z.add_simpl_r.
Qed.

Lemma arrays_result_tail a k arrs n t lp m res :
  0 < k <= n -> k <= m -> Forall (fun ak => 0 < ak.2) arrs ->
  arrays_result arrs (n - k) (t + k) (arr_item f a (k - 1)) (m - k) res ->
  arrays_result ((a, k) :: arrs) n t lp m res.
Proof.
  intros Hk Hm Hpos. destruct res as [[[[[a' i] sub] t'] lp']|]; cbn [arrays_result].
  - intros (pre & k' & suf & -> & -> & -> & -> & -> & Hc).
    apply Forall_app in Hpos as [Hpre%caps_nonneg _].
    exists ((a, k) :: pre), k', suf. cbn [caps app].
    split_and!; try done; try lia;
      [|destruct Hc as [Hc|(? & ? & ?)]; [left; lia|right; split_and!; [lia|done|lia..]]].
    unfold prev_item. destruct (Z.eqb_spec (caps pre) 0) as [E|E].
    + rewrite E, Z.add_0_r. destruct (Z.eqb_spec k 0); [lia|].
      rewrite items_nth_l by lia. done.
    + destruct (Z.eqb_spec (k + caps pre) 0); [lia|].
      rewrite items_nth_r by lia. do 2 f_equal. lia.
  - intros [? [?|(pre & suf & -> & ?)]]; (split; [lia|]); [by left|right].
    exists ((a, k) :: pre), suf. split; [done|]. cbn [caps]. lia.
Qed.

Lemma bisect_arrays_ok arrs : forall k_ a n t li lp m,
  chain f a arrs -> 0 <= n <= caps arrs -> 0 <= t -> t + caps arrs < 2 ^ 62 ->
  (forall i p, 0 <= i < n -> nthz (items f arrs) i = Some p -> testable p) ->
  lcut (items f arrs) n m -> (length arrs <= k_)%nat -> (62 <= fuel)%nat ->
  li = u64_max \/ (0 <= li /\ forall b k, head arrs = Some (b, k) -> li < Z.min k n) ->
  exists res,
    bisect_arrays e fuel test_object direction needle k_ a n t li lp f = (Ok res, f)
    /\ arrays_result arrs n t lp m res.
Proof.
  induction arrs as [|[a' k] arrs IH]; intros k_ a n t li lp m Hc Hn Ht Hsz Htest Hcut Hk Hf Hli.
  { cbn in Hc, Hn. subst a. exists None. destruct k_; (split; [done|]);
      destruct Hcut as [Hr _ _]; (split; [lia|]); right; exists [], []; split; done || (simpl; lia). }
  destruct Hc as (<- & Harr & Hnext). destruct k_ as [|k_]; [simpl in Hk; lia|].
  assert (0 < a) as Ha by apply Harr. assert (0 < k) as Hk0 by apply Harr.
  pose proof (chain_caps _ _ _ Hnext) as Hcaps. cbn [caps] in *.
  cbn [bisect_arrays]. destruct (Z.eqb_spec a 0); [lia|].
  rewrite (run_bind _ _ _ _ _ (move_to_array e f a k He Harr)).
  rewrite (run_bind _ _ _ _ _ (n_items_ok f a k Harr)). cbv zeta.
  destruct (Z.leb_spec (Z.min k n) 0).
  { exists None. split; [done|]. destruct Hcut as [Hr _ _]. split; [lia|].
    right. exists [], ((a, k) :: arrs). split; [done|]. simpl. lia. }
  assert (forall i, 0 <= i < Z.min k n -> testable (arr_item f a i)) as Htl.
  { intros i Hi. apply (Htest i); [lia|]. apply items_nth_l. lia. }
  rewrite (run_bind _ _ _ _ _ (probe_ok a (Z.min k n - 1) (Htl (Z.min k n - 1) ltac:(lia)))).
  cbn [fst snd].
  change (is_right (test_adjust direction (tst (arr_item f a (Z.min k n - 1)))))
    with (to_right (arr_item f a (Z.min k n - 1))).
  destruct (Z.lt_ge_cases m (Z.min k n)) as [Hm|Hm].
  - pose proof (lcut_head a k arrs n m Hk0 Hcut ltac:(lia)) as Hcut'.
    rewrite (cut_right _ _ _ Hcut') by lia.
    destruct (bisect_narrow_ok a li m (Z.min k n)) as (l & r & Hnar & Hl & Hr); try done; [lia|..].
    { destruct Hli as [?|[? Hli]]; [by left|right]. split; [lia|]. by eapply Hli. }
    rewrite (run_bind _ _ _ _ _ Hnar). cbn [fst snd].
    assert (r - l < 2 ^ Z.of_nat fuel).
    { pose proof (Z.pow_le_mono_r 2 62 (Z.of_nat fuel)). lia. }
    rewrite (run_bind _ _ _ _ _ (bisect_loop_ok fuel a l r m (Z.min k n) Htl Hcut'
      ltac:(lia) ltac:(lia) ltac:(lia) ltac:(lia))).
    eexists. split; [done|]. exists [], k, arrs. cbn [caps app].
    destruct Hcut as [Hrg _ _]. split_and!; try done; lia.
  - assert (to_right (arr_item f a (Z.min k n - 1)) = false) as ->.
    { apply (lcut_left _ _ _ Hcut (Z.min k n - 1)); [lia|]. apply items_nth_l. lia. }
    destruct Hcut as [Hrg Hl Hg]. destruct (Z.ltb_spec n k).
    + eexists. split; [done|]. assert (m = n) as -> by lia.
      destruct direction eqn:Hd; simpl; [|by split; [|left]].
      exists [], k, arrs. rewrite Hd. cbn [caps app]. split_and!; try done; try lia.
      right. split_and!; [done|done|lia..].
    + run. rewrite u64_small by (unfold is_u64; lia).
      destruct (IH k_ (load64 (jf_mem f) (a + entry_array_next)) (n - k) (t + k) u64_max
        (arr_item f a (Z.min k n - 1)) (m - k)) as (res & Hrun & Hres); try done; try lia.
      * intros i p Hi Hp. apply (Htest (i + k)); [lia|].
        rewrite items_nth_r by lia. by rewrite Z.add_simpl_r.
      * apply lcut_tail with a; [lia|lia|by split].
      * simpl in Hk. lia.
      * exists res. split; [done|]. apply arrays_result_tail; [lia|lia|by eapply chain_pos|].
        by replace (Z.min k n) with k in Hres by lia.
Qed.

End BisectProofs.

(** * The chain cache *)

(** A cache item describes one array of the chain. *)
Definition cci_ok (f : JournalFile) (arrs : list (Z * Z)) (n : Z) (c : ChainCacheItem) : Prop :=
  exists pre k suf, arrs = pre ++ (ci_array c, k) :: suf
    /\ ci_total c = caps pre
    /\ nthz (items f arrs) (caps pre) = Some (ci_begin c)
    /\ (ci_last_index c = u64_max
        \/ (0 <= ci_last_index c < k /\ caps pre + ci_last_index c < n)).

Definition cache_ok (f : JournalFile) (first : Z) (arrs : list (Z * Z)) (n : Z) : Prop :=
  forall c, chain_cache_get (jf_chain_cache f) first = Some c -> cci_ok f arrs n c.

Lemma cache_get_first h first c : chain_cache_get h first = Some c -> ci_first c = first.
Proof. intros H. apply List.find_some in H as [_ H]. by apply Z.eqb_eq. Qed.

Lemma cache_get_app h1 h2 first :
  chain_cache_get (h1 ++ h2) first
  = match chain_cache_get h1 first with Some c => Some c | None => chain_cache_get h2 first end.
Proof.
  induction h1 as [|c h1 IH]; simpl; [done|]. destruct (ci_first c =? first); [done|apply IH].
Qed.

Lemma cache_get_drop h first :
  chain_cache_get h first = None -> chain_cache_get (drop 1 h) first = None.
Proof. destruct h as [|c h]; simpl; [done|]. by destruct (ci_first c =? first). Qed.

(** What is found after a put for the same chain. *)
Lemma cache_get_put h first a b t l :
  chain_cache_get (chain_cache_put h (chain_cache_get h first) first a b t l) first
  = match chain_cache_get h first with
    | None => if a =? first then None else Some (mkCCI first a b t l)
    | Some _ => Some (mkCCI first a b t l)
    end.
Proof.
  destruct (chain_cache_get h first) as [c|] eqn:E; unfold chain_cache_put.
  - induction h as [|c' h IH]; simpl in *; [done|].
    destruct (Z.eqb_spec (ci_first c') first) as [Hc|Hc]; simpl.
    + by rewrite Z.eqb_refl.
    + destruct (Z.eqb_spec (ci_first c') first); [done|]. by apply IH.
  - destruct (a =? first); [done|].
    assert (chain_cache_get (if CHAIN_CACHE_MAX <=? zlen h then drop 1 h else h) first = None) as Hn.
    { destruct (CHAIN_CACHE_MAX <=? zlen h); [by apply cache_get_drop|done]. }
    rewrite cache_get_app, Hn. simpl. by rewrite Z.eqb_refl.
Qed.

Lemma items_app f pre suf : items f (pre ++ suf) = items f pre ++ items f suf.
Proof. apply flat_map_app. Qed.

Lemma items_caps f arrs : Forall (fun ak => 0 < ak.2) arrs -> length (items f arrs) = Z.to_nat (caps arrs).
Proof.
  induction 1 as [|[a k] arrs Hk Hf IH]; [done|]. simpl in Hk.
  pose proof (caps_nonneg _ Hf).
  rewrite items_cons, length_app, arr_items_length, IH by lia. cbn [caps]. lia.
Qed.

Lemma items_nth_app f pre suf i :
  Forall (fun ak => 0 < ak.2) pre -> 0 <= i ->
  nthz (items f (pre ++ suf)) (caps pre + i) = nthz (items f suf) i.
Proof.
  intros Hp Hi. pose proof (caps_nonneg _ Hp). unfold nthz.
  rewrite items_app, lookup_app_r by (rewrite items_caps by done; lia).
  rewrite items_caps by done. f_equal. lia.
Qed.

Lemma chain_suffix f a pre b k suf :
  chain f a (pre ++ (b, k) :: suf) -> chain f b ((b, k) :: suf).
Proof.
  revert a. induction pre as [|[c j] pre IH]; intros a; simpl.
  - by intros (-> & H).
  - intros (_ & _ & H). by eapply IH.
Qed.

Lemma lcut_suffix f dir tst pre suf n m :
  Forall (fun ak => 0 < ak.2) pre -> caps pre <= m ->
  lcut dir tst (items f (pre ++ suf)) n m ->
  lcut dir tst (items f suf) (n - caps pre) (m - caps pre).
Proof.
  intros Hp Hm [Hr Hl Hg]. split; [lia|..]; intros i p Hi Hn.
  - apply (Hl (caps pre + i)); [pose proof (caps_nonneg _ Hp); lia|].
    by rewrite items_nth_app by (done || lia).
  - apply (Hg (caps pre + i)); [lia|]. by rewrite items_nth_app by (done || lia).
Qed.

(** The sequence does not depend on the cache. *)
Lemma items_set_cache f c arrs : items (set_cache f c) arrs = items f arrs.
Proof. done. Qed.
