(* ===== verification/ArraySearch.v ===== *)
(** What the array functions of lib/journal-file.c promise: generic_array_get reads
    the i-th entry of a chain, generic_array_bisect agrees with a linear search of
    it, whatever the chain cache holds. *)
From S2P Require Import Prelude Lookup3 Uuid Memory JournalDef JournalFile ObjectLemmas JournalSeek.
From S2P Require Import BisectProofs.

(** * The reference: linear search *)

(** Downwards: the first item whose key is at least [needle]; upwards: the last
    one whose key is at most [needle]; with its index. *)
Definition linear_search (direction : direction_t) (key : Z -> Z) (needle : Z) (xs : list Z)
  : option (Z * Z) :=
  match direction with
  | DIRECTION_DOWN =>
      match list_find (fun p => needle <= key p) xs with
      | Some (i, p) => Some (p, Z.of_nat i)
      | None => None
      end
  | DIRECTION_UP =>
      match list_find (fun p => key p <= needle) (reverse xs) with
      | Some (i, p) => Some (p, zlen xs - 1 - Z.of_nat i)
      | None => None
      end
  end.

(** [n] items fill a prefix of the arrays exactly. *)
Fixpoint exact_fill (arrs : list (Z * Z)) (n : Z) : bool :=
  (n =? 0) || match arrs with [] => false | (_, k) :: arrs => (k <=? n) && exact_fill arrs (n - k) end.

(** The search for the end that the code gives up: upwards, all items match and
    the arrays are full. *)
Definition up_past_full (direction : direction_t) (key : Z -> Z) (needle : Z)
    (arrs : list (Z * Z)) (n : Z) (xs : list Z) : bool :=
  is_up direction && exact_fill arrs n && forallb (fun p => key p <=? needle) xs.

(** * From linear search to a cut *)

Section Cuts.
Context (direction : direction_t) (key : Z -> Z) (needle : Z).
Let tst (p : Z) : test_result := test_compare (key p) needle.

Lemma to_right_compare p :
  to_right direction tst p
  = match direction with DIRECTION_DOWN => needle <=? key p | DIRECTION_UP => needle <? key p end.
Proof.
  unfold to_right, tst, test_compare. destruct direction; zcases; simpl; try done; lia.
Qed.

(** The keys of the first [n] items do not decrease. *)
Definition keys_sorted (xs : list Z) (n : Z) : Prop :=
  forall i j p q, 0 <= i <= j -> j < n -> nthz xs i = Some p -> nthz xs j = Some q -> key p <= key q.

Lemma exists_lcut xs n :
  0 <= n <= zlen xs -> keys_sorted xs n -> exists m, lcut direction tst xs n m.
Proof.
  unfold zlen. intros Hn Hs.
  assert (forall k, (Z.of_nat k <= n) -> exists m, lcut direction tst xs (Z.of_nat k) m) as H.
  { induction k as [|k IH]; intros Hk; [exists 0; split; intros; lia|].
    destruct (IH ltac:(lia)) as [m [Hr Hl Hg]].
    destruct (lookup_lt_is_Some_2 xs k) as [q Hq]; [lia|].
    assert (nthz xs (Z.of_nat k) = Some q) as Hq' by (unfold nthz; by rewrite Nat2Z.id).
    destruct (to_right direction tst q) eqn:Eq.
    - exists m. split; [lia|done|]. intros i p Hi Hp.
      destruct (Z.eq_dec i (Z.of_nat k)) as [->|]; [congruence|]. apply (Hg i); [lia|done].
    - exists (Z.of_nat (S k)). split; [lia| |intros; lia]. intros i p Hi Hp.
      pose proof (Hs i (Z.of_nat k) p q ltac:(lia) ltac:(lia) Hp Hq').
      revert Eq. rewrite !to_right_compare. destruct direction; zcases; done || lia. }
  specialize (H (Z.to_nat n)). rewrite Z2Nat.id in H by lia. apply H. lia.
Qed.

Lemma nthz_lookup xs n i p :
  take (Z.to_nat n) xs !! i = Some p -> nthz xs (Z.of_nat i) = Some p /\ Z.of_nat i < n.
Proof.
  intros H. apply lookup_take_Some in H as [H ?]. unfold nthz. rewrite Nat2Z.id. split; [done|lia].
Qed.

Lemma linear_search_down xs n m :
  direction = DIRECTION_DOWN -> n <= zlen xs -> lcut direction tst xs n m ->
  linear_search DIRECTION_DOWN key needle (take (Z.to_nat n) xs)
  = if m =? n then None else (fun p => (p, m)) <$> nthz xs m.
Proof.
  unfold zlen. intros Hd Hn [Hr Hl Hg]. unfold linear_search.
  assert (forall i p, nthz xs i = Some p -> 0 <= i < n -> m <= i <-> needle <= key p) as Hiff.
  { intros i p Hp Hi. destruct (Z.lt_ge_cases i m) as [H|H].
    - pose proof (Hl i p ltac:(lia) Hp) as E. rewrite to_right_compare, Hd in E. zcases_in E; done || lia.
    - pose proof (Hg i p ltac:(lia) Hp) as E. rewrite to_right_compare, Hd in E. zcases_in E; done || lia. }
  destruct (list_find _ _) as [[i p]|] eqn:E.
  - apply list_find_Some in E as (Hp & Hk & Hbefore). apply nthz_lookup in Hp as [Hp Hi].
    pose proof (proj2 (Hiff _ _ Hp ltac:(lia)) Hk). destruct (Z.eqb_spec m n); [lia|].
    destruct (Z.eq_dec m (Z.of_nat i)) as [->|]; [by rewrite Hp|].
    destruct (lookup_lt_is_Some_2 xs (Z.to_nat m)) as [q Hq]; [lia|].
    destruct (Hbefore (Z.to_nat m) q); [rewrite lookup_take_lt by lia; done|lia|].
    apply (Hiff m); [done|lia..].
  - apply list_find_None in E. destruct (Z.eqb_spec m n) as [|Hmn]; [done|].
    destruct (lookup_lt_is_Some_2 xs (Z.to_nat m)) as [q Hq]; [lia|].
    rewrite Forall_lookup in E.
    destruct (E (Z.to_nat m) q); [rewrite lookup_take_lt by lia; done|].
    apply (Hiff m); [done|lia..].
Qed.

Lemma linear_search_up xs n m :
  direction = DIRECTION_UP -> n <= zlen xs -> lcut direction tst xs n m ->
  linear_search DIRECTION_UP key needle (take (Z.to_nat n) xs)
  = if m =? 0 then None else (fun p => (p, m - 1)) <$> nthz xs (m - 1).
Proof.
  unfold zlen. intros Hd Hn [Hr Hl Hg]. unfold linear_search.
  assert (forall i p, nthz xs i = Some p -> 0 <= i < n -> i < m <-> key p <= needle) as Hiff.
  { intros i p Hp Hi. destruct (Z.lt_ge_cases i m) as [H|H].
    - pose proof (Hl i p ltac:(lia) Hp) as E. rewrite to_right_compare, Hd in E. zcases_in E; done || lia.
    - pose proof (Hg i p ltac:(lia) Hp) as E. rewrite to_right_compare, Hd in E. zcases_in E; done || lia. }
  unfold zlen. set (t := take (Z.to_nat n) xs). assert (Z.of_nat (length t) = n) as Hlen.
  { unfold t. rewrite length_take. lia. }
  destruct (list_find _ _) as [[i p]|] eqn:E.
  - apply list_find_Some in E as (Hp & Hk & Hbefore).
    apply reverse_lookup_Some in Hp as [Hp Hi]. apply nthz_lookup in Hp as [Hp Hi'].
    pose proof (proj2 (Hiff _ _ Hp ltac:(lia)) Hk). destruct (Z.eqb_spec m 0); [lia|].
    destruct (Z.eq_dec (m - 1) (Z.of_nat (length t - S i))) as [Em|].
    { rewrite Em, Hp. simpl. do 2 f_equal. lia. }
    destruct (lookup_lt_is_Some_2 xs (Z.to_nat (m - 1))) as [q Hq]; [lia|].
    assert (reverse t !! (length t - S (Z.to_nat (m - 1)))%nat = Some q) as Hq'.
    { apply reverse_lookup_Some. split; [|lia].
      replace (length t - S (length t - S (Z.to_nat (m - 1))))%nat with (Z.to_nat (m - 1)) by lia.
      unfold t. rewrite lookup_take_lt by lia. done. }
    destruct (Hbefore _ q Hq'); [lia|]. apply (Hiff (m - 1)); [done|lia..].
  - apply list_find_None in E. destruct (Z.eqb_spec m 0) as [|Hm]; [done|].
    destruct (lookup_lt_is_Some_2 xs (Z.to_nat (m - 1))) as [q Hq]; [lia|].
    rewrite Forall_reverse, Forall_lookup in E.
    destruct (E (Z.to_nat (m - 1)) q); [unfold t; rewrite lookup_take_lt by lia; done|].
    apply (Hiff (m - 1)); [done|lia..].
Qed.

(** In both directions, as bisect_found reads it off. *)
Lemma linear_search_cut xs n m :
  n <= zlen xs -> lcut direction tst xs n m ->
  linear_search direction key needle (take (Z.to_nat n) xs)
  = if is_up direction then (if m =? 0 then None else (fun p => (p, m - 1)) <$> nthz xs (m - 1))
    else if m =? n then None else (fun p => (p, m)) <$> nthz xs m.
Proof.
  intros Hn Hc. destruct direction eqn:Hd; simpl.
  - eapply linear_search_up; try done; by rewrite Hd.
  - eapply linear_search_down; try done; by rewrite Hd.
Qed.

Lemma forallb_cut xs n m :
  direction = DIRECTION_UP -> n <= zlen xs -> lcut direction tst xs n m ->
  forallb (fun p => key p <=? needle) (take (Z.to_nat n) xs) = (m =? n).
Proof.
  unfold zlen. intros Hd Hn [Hr Hl Hg].
  destruct (Z.eqb_spec m n) as [->|Hne].
  - apply forallb_forall. intros p Hp%list_elem_of_In. apply list_elem_of_lookup_1 in Hp as [i Hp].
    apply nthz_lookup in Hp as [Hp Hi].
    pose proof (Hl (Z.of_nat i) p ltac:(lia) Hp) as E. rewrite to_right_compare, Hd in E.
    zcases_in E; [done|]. apply Z.leb_le. lia.
  - destruct (lookup_lt_is_Some_2 xs (Z.to_nat m)) as [q Hq]; [lia|].
    pose proof (Hg m q ltac:(lia) Hq) as E. rewrite to_right_compare, Hd in E.
    apply not_true_is_false. intros H. rewrite forallb_forall in H.
    assert (take (Z.to_nat n) xs !! Z.to_nat m = Some q) as Hq' by (rewrite lookup_take_lt by lia; done).
    specialize (H q (proj1 (list_elem_of_In _ _) (list_elem_of_lookup_2 _ _ _ Hq'))).
    apply Z.leb_le in H. zcases_in E; [lia|done].
Qed.

End Cuts.

(** * Exact fill *)

Lemma boundary_exact_fill arrs n :
  Forall (fun ak => 0 < ak.2) arrs -> boundary arrs n -> exact_fill arrs n = true.
Proof.
  intros Hp (pre & suf & -> & <-). revert Hp.
  induction pre as [|[a k] pre IH]; intros Hp; simpl.
  - by destruct suf as [|[a k] suf]; simpl.
  - inversion Hp as [|? ? Hk Hp']; subst. simpl in Hk.
    pose proof (proj1 (proj1 (Forall_app _ _ _) Hp')) as Hpre%caps_nonneg.
    replace (k + caps pre - k) with (caps pre) by lia. rewrite IH by done.
    zcases; done || lia.
Qed.

Lemma exact_fill_inside pre a k suf n :
  Forall (fun ak => 0 < ak.2) (pre ++ (a, k) :: suf) -> caps pre < n < caps pre + k ->
  exact_fill (pre ++ (a, k) :: suf) n = false.
Proof.
  revert n. induction pre as [|[b j] pre IH]; intros n Hp Hn; simpl in *.
  - zcases; done || lia.
  - inversion Hp as [|? ? Hk Hp']; subst. simpl in Hk.
    pose proof (proj1 (proj1 (Forall_app _ _ _) Hp')) as Hpre%caps_nonneg.
    rewrite (IH (n - j)) by (done || lia). zcases; done || lia.
Qed.

(** * Locating the result of the walk *)

Definition located (direction : direction_t) (f : JournalFile) (arrs : list (Z * Z)) (n m : Z)
    (res : option (Z * Z * bool * Z * Z)) : Prop :=
  match res with
  | Some (a', i, sub, t', lp') =>
      exists pre k suf, arrs = pre ++ (a', k) :: suf
        /\ t' = caps pre /\ i = m - caps pre /\ 0 <= i /\ 0 < k
        /\ (i = 0 -> 0 < m -> nthz (items f arrs) (m - 1) = Some lp')
        /\ sub = is_up direction
        /\ (m < n /\ i < k \/ m = n /\ direction = DIRECTION_UP /\ 0 < i < k)
  | None => m = n /\ (direction = DIRECTION_DOWN \/ boundary arrs n)
  end.

Lemma located_suffix direction f pre0 suf0 n m res :
  Forall (fun ak => 0 < ak.2) (pre0 ++ suf0) -> n <= caps (pre0 ++ suf0) ->
  pre0 = [] \/ caps pre0 < m ->
  arrays_result direction f suf0 (n - caps pre0) (caps pre0) 0 (m - caps pre0) res ->
  located direction f (pre0 ++ suf0) n m res.
Proof.
  intros Hp Hn Hm. destruct res as [[[[[a' i] sub] t'] lp']|]; simpl.
  - intros (pre & k & suf & -> & -> & -> & -> & -> & Hc).
    exists (pre0 ++ pre), k, suf. rewrite <- (assoc (++)), caps_app.
    apply Forall_app in Hp as [Hp0 Hp]. pose proof Hp as [Hpre Hk]%Forall_app.
    inversion Hk as [|? ? Hk0]; subst. simpl in Hk0.
    pose proof (caps_nonneg _ Hp0). pose proof (caps_nonneg _ Hpre).
    split_and!; try done; try lia;
      [|destruct Hc as [Hc|(? & ? & ?)]; [left; lia|right; split_and!; [lia|done|lia..]]].
    intros Hi0 Hm1. unfold prev_item.
    assert (0 < caps pre) by (destruct Hm as [->|]; simpl in *; lia).
    destruct (Z.eqb_spec (caps pre) 0); [lia|].
    replace (m - 1) with (caps pre0 + (caps pre - 1)) by lia.
    rewrite items_nth_app by (done || lia).
    destruct (lookup_lt_is_Some_2 (items f (pre ++ (a', k) :: suf)) (Z.to_nat (caps pre - 1))) as [q Hq].
    { rewrite items_caps by done. rewrite caps_app. simpl.
      inversion Hk as [|? ? ? Hsuf]; subst. pose proof (caps_nonneg _ Hsuf). lia. }
    unfold nthz. rewrite Hq. done.
  - intros [Em Hb]; split; [lia|]. destruct Hb as [|(pre & suf & -> & Hc)]; [by left|right].
    exists (pre0 ++ pre), suf. rewrite <- (assoc (++)), caps_app. split; [done|lia].
Qed.

(** The cache is no part of the file. *)
Lemma move_set_cache e f ty p s c :
  mmap_ok e -> is_object f ty p s ->
  journal_file_move_to_object e ty p (set_cache f c) = (Ok p, set_cache f c).
Proof. intros He []. eapply move_to_object_ok; [done|by split|by left]. Qed.

(** * Bisection, with the chain cache *)

Section Bisect.
Context (e : Env) (fuel : nat) (test_object : Z -> Z -> M test_result)
  (direction : direction_t) (key : Z -> Z) (needle : Z).

(** An entry whose key the test function compares with the needle. *)
Definition keyed (f : JournalFile) (p : Z) : Prop :=
  (exists s, is_object f OBJECT_ENTRY p s)
  /\ test_object p needle f = (Ok (test_compare (key p) needle), f).

Lemma keyed_testable f p :
  keyed f p -> testable test_object needle f (fun p => test_compare (key p) needle) p.
Proof. intros [[s Ho] Ht]. split; [apply Ho|done]. Qed.

Lemma cache_put_ok f first arrs n a b t l :
  let ci := chain_cache_get (jf_chain_cache f) first in
  cci_ok f arrs n (mkCCI first a b t l) ->
  cache_ok (set_cache f (chain_cache_put (jf_chain_cache f) ci first a b t l)) first arrs n.
Proof.
  intros ci Hok c. cbn [jf_chain_cache set_cache]. unfold ci. rewrite cache_get_put.
  destruct (chain_cache_get _ _); [|destruct (a =? first); [done|]]; intros [= <-]; exact Hok.
Qed.

(** What a search adds to the cache is about its own chain. *)
Definition cache_extends (first : Z) (old new : list ChainCacheItem) : Prop :=
  forall c, c ∈ new -> c ∈ old \/ ci_first c = first /\ chain_cache_get new first = Some c.

Lemma cache_extends_refl first old : cache_extends first old old.
Proof. intros c Hc. by left. Qed.

Lemma cache_put_extends h first a b t l :
  cache_extends first h (chain_cache_put h (chain_cache_get h first) first a b t l).
Proof.
  intros c Hc. pose proof (cache_get_put h first a b t l) as Hget. revert Hc Hget. unfold chain_cache_put.
  destruct (chain_cache_get h first) as [ci|] eqn:E.
  - intros Hc Hget. apply list_elem_of_fmap in Hc as (c0 & -> & Hin).
    destruct (Z.eqb_spec (ci_first c0) first); [right|by left]. rewrite Hget. done.
  - destruct (a =? first); [by left|]. intros Hc Hget. apply elem_of_app in Hc as [Hc|Hc].
    + left. destruct (CHAIN_CACHE_MAX <=? zlen h); [|done]. destruct h; [done|by right].
    + right. apply list_elem_of_singleton in Hc as ->. rewrite Hget. done.
Qed.

(** All that is new in the cache is right for the chain. *)
Definition cache_grows (f : JournalFile) (first : Z) (arrs : list (Z * Z)) (n : Z) (old new : list ChainCacheItem) : Prop :=
  forall c, c ∈ new -> c ∈ old \/ ci_first c = first /\ cci_ok f arrs n c.

Lemma cache_grows_of f first arrs n c :
  cache_ok (set_cache f c) first arrs n -> cache_extends first (jf_chain_cache f) c ->
  cache_grows f first arrs n (jf_chain_cache f) c.
Proof.
  intros Hok Hext ci Hin. destruct (Hext ci Hin) as [Hold|[Hf Hget]]; [by left|right]. split; [done|]. exact (Hok ci Hget).
Qed.

Lemma cache_grows_trans f first arrs n c1 c2 c3 :
  cache_grows f first arrs n c1 c2 -> cache_grows f first arrs n c2 c3 -> cache_grows f first arrs n c1 c3.
Proof. intros H1 H2 ci Hin. destruct (H2 ci Hin) as [Hin2|?]; [by apply H1|by right]. Qed.

Lemma bisect_found_ok f first arrs n m a i sub t lp :
  mmap_ok e -> Forall (fun ak => 0 < ak.2) arrs -> 0 <= m <= n -> n <= caps arrs < 2 ^ 62 ->
  (forall i p, 0 <= i < n -> nthz (items f arrs) i = Some p -> keyed f p) ->
  located direction f arrs n m (Some (a, i, sub, t, lp)) -> cache_ok f first arrs n ->
  exists c,
    bisect_found e first (chain_cache_get (jf_chain_cache f) first) a i sub t lp f
    = (Ok (if is_up direction then
             (if m =? 0 then None else (fun p => (p, m - 1)) <$> nthz (items f arrs) (m - 1))
           else (fun p => (p, m)) <$> nthz (items f arrs) m), set_cache f c)
    /\ cache_ok (set_cache f c) first arrs n /\ cache_extends first (jf_chain_cache f) c.
Proof.
  intros He Hp Hm Hn Hk (pre & k & suf & Ha & -> & -> & Hi & Hk0 & Hlp & -> & Hc) Hcache.
  assert (Forall (fun ak => 0 < ak.2) pre) as Hpre by (rewrite Ha in Hp; by apply Forall_app in Hp as [? _]).
  pose proof (caps_nonneg _ Hpre) as Hcp.
  assert (forall j, 0 <= j < k -> nthz (items f arrs) (caps pre + j) = Some (arr_item f a j)) as Hitem.
  { intros j Hj. rewrite Ha, items_nth_app by (done || lia). by apply items_nth_l. }
  unfold bisect_found.
  destruct (is_up direction && (caps pre =? 0) && (m - caps pre =? 0)) eqn:E0.
  { exists (jf_chain_cache f). bprop. replace (m =? 0) with true by (symmetry; apply Z.eqb_eq; lia).
    split; [destruct direction; simpl; [|done]; by destruct f|]. split; [by destruct f|apply cache_extends_refl]. }
  run. set (last := if is_up direction then if 0 <? m - caps pre then m - caps pre - 1 else u64_max
                    else m - caps pre).
  exists (chain_cache_put (jf_chain_cache f) (chain_cache_get (jf_chain_cache f) first) first a
    (arr_item f a 0) (caps pre) last). split; cycle 1.
  { split; [|apply cache_put_extends]. apply cache_put_ok. exists pre, k, suf.
    cbn [ci_array ci_total ci_begin ci_last_index]. split_and!; [done|done|by rewrite <- (Hitem 0 ltac:(lia)), Z.add_0_r|].
    unfold last. destruct Hc as [?|(? & -> & ?)]; [destruct direction|];
      simpl in *; zcases; try (by left); right; lia. }
  set (c := chain_cache_put _ _ _ _ _ _ _).
  change (load64 (jf_mem f) (array_item a ?x)) with (arr_item f a x) in *.
  assert (forall p j, 0 <= j < n -> nthz (items f arrs) j = Some p ->
    journal_file_move_to_object e OBJECT_ENTRY p (set_cache f c) = (Ok p, set_cache f c)) as Hmove.
  { intros p j Hj Hpj. destruct (Hk _ _ Hj Hpj) as [[s [? ? ? ? ? ? ? ?]] _].
    eapply move_to_object_ok with (ty := OBJECT_ENTRY); [done|by split|by left]. }
  assert (u64 (caps pre + (m - caps pre) + (if is_up direction then -1 else 0))
          = if is_up direction then u64 (m - 1) else m) as ->.
  { destruct (is_up direction); [f_equal; lia|]. rewrite u64_small; [lia|unfold is_u64; lia]. }
  destruct direction; simpl is_up in *; cbv iota beta.
  - destruct (Z.eqb_spec m 0) as [->|Hm0].
    { exfalso. simpl in E0. assert (caps pre = 0) as E by lia. rewrite E in E0. done. }
    rewrite (u64_small (m - 1)) by (unfold is_u64; lia).
    rewrite (run_bind _ _ _ (default 0 (nthz (items f arrs) (m - 1))) (set_cache f c)).
    2:{ simpl. destruct (Z.eqb_spec (m - caps pre) 0) as [E|E].
        - by rewrite (Hlp E) by lia.
        - replace (m - 1) with (caps pre + (m - caps pre - 1)) by lia.
          rewrite Hitem by lia. done. }
    destruct (nthz (items f arrs) (m - 1)) as [p|] eqn:Ep.
    + cbn [default fmap option_fmap option_map id]. by rewrite (run_bind _ _ _ _ _ (Hmove p (m - 1) ltac:(lia) Ep)).
    + exfalso. apply lookup_ge_None in Ep. rewrite items_caps in Ep by done. lia.
  - assert (m < n /\ m - caps pre < k) as [Hmn Hmk] by (destruct Hc as [?|(_ & ? & _)]; [lia|done]).
    pose proof (Hitem (m - caps pre) ltac:(lia)) as Hx.
    replace (caps pre + (m - caps pre)) with m in Hx by lia.
    simpl. run. change (load64 (jf_mem (set_cache f c)) (array_item a (m - caps pre))) with (arr_item f a (m - caps pre)).
    rewrite (run_bind _ _ _ _ _ (Hmove _ m ltac:(lia) Hx)), Hx. done.
Qed.

(** Where the walk starts: at the beginning, or at the cached array when its first
    item is before the needle. *)
Lemma bisect_start_ok f first arrs n m :
  Forall (fun ak => 0 < ak.2) arrs -> 0 <= m <= n -> n <= caps arrs ->
  chain f first arrs -> cache_ok f first arrs n ->
  (forall i p, 0 <= i < n -> nthz (items f arrs) i = Some p -> keyed f p) ->
  lcut direction (fun p => test_compare (key p) needle) (items f arrs) n m ->
  exists pre suf a li,
    (match chain_cache_get (jf_chain_cache f) first with
     | Some c =>
         if ci_total c <? n then
           (r <- test_object (ci_begin c) needle ;;
            ret (if is_left r then (ci_array c, n - ci_total c, ci_total c, ci_last_index c)
                 else (first, n, 0, u64_max)))
         else ret (first, n, 0, u64_max)
     | None => ret (first, n, 0, u64_max)
     end) f = (Ok (a, n - caps pre, caps pre, li), f)
    /\ arrs = pre ++ suf /\ chain f a suf /\ (pre = [] \/ caps pre < m)
    /\ (li = u64_max
        \/ (0 <= li /\ forall b k, head suf = Some (b, k) -> li < Z.min k (n - caps pre))).
Proof.
  intros Hp Hm Hn Hch Hcache Hk Hcut.
  assert (forall x : M (Z * Z * Z * Z), x f = (Ok (first, n, 0, u64_max), f) ->
    exists pre suf a li, x f = (Ok (a, n - caps pre, caps pre, li), f)
      /\ arrs = pre ++ suf /\ chain f a suf /\ (pre = [] \/ caps pre < m)
      /\ (li = u64_max
          \/ (0 <= li /\ forall b k, head suf = Some (b, k) -> li < Z.min k (n - caps pre)))) as Hfresh.
  { intros x Hx. exists [], arrs, first, u64_max. rewrite Z.sub_0_r. auto 7. }
  destruct (chain_cache_get (jf_chain_cache f) first) as [c|] eqn:Ec; [|by apply Hfresh].
  destruct (Hcache _ Ec) as (pre & k & suf & Ha & Ht & Hb & Hli).
  rewrite Ht. destruct (Z.ltb_spec (caps pre) n) as [Hlt|]; [|by apply Hfresh].
  assert (0 <= caps pre) by (apply caps_nonneg; rewrite Ha in Hp; by apply Forall_app in Hp as [? _]).
  pose proof (Hk (caps pre) _ ltac:(lia) Hb) as [_ Htest].
  destruct (is_left (test_compare (key (ci_begin c)) needle)) eqn:El.
  - exists pre, ((ci_array c, k) :: suf), (ci_array c), (ci_last_index c).
    split_and!; [|done|rewrite Ha in Hch; by eapply chain_suffix| |].
    + rewrite (run_bind _ _ _ _ _ Htest), El. done.
    + right. destruct (Z.lt_ge_cases (caps pre) m) as [|Hge]; [done|].
      pose proof (lcut_right _ _ _ _ _ Hcut (caps pre) _ ltac:(lia) Hb) as Hr.
      rewrite to_right_compare in Hr. unfold test_compare in El.
      destruct direction; zcases_in El; simpl in El; try done; zcases_in Hr; try done; lia.
    + destruct Hli as [|[? ?]]; [by left|right]. split; [lia|]. intros b k' [= <- <-]. lia.
  - apply Hfresh. rewrite (run_bind _ _ _ _ _ Htest), El. done.
Qed.

(** generic_array_bisect returns what a linear search of the chain's sequence
    of entries returns, whatever valid array the chain cache points to, keeps the
    cache valid and changes nothing else.  There is one exception, proved to be
    exactly this one: searching upwards when every item is at or before the needle
    and the [n] items fill the arrays exactly, the code finds nothing instead of
    the last item. *)
Theorem generic_array_bisect_correct f first arrs n :
  mmap_ok e -> (62 <= fuel)%nat -> (length arrs <= fuel)%nat ->
  chain f first arrs -> 0 <= n <= caps arrs -> caps arrs < 2 ^ 62 ->
  keys_sorted key (items f arrs) n ->
  (forall i p, 0 <= i < n -> nthz (items f arrs) i = Some p -> keyed f p) ->
  cache_ok f first arrs n ->
  let xs := take (Z.to_nat n) (items f arrs) in
  exists c,
    generic_array_bisect e fuel test_object direction needle first n f
    = (Ok (if up_past_full direction key needle arrs n xs then None
           else linear_search direction key needle xs), set_cache f c)
    /\ cache_ok (set_cache f c) first arrs n /\ cache_extends first (jf_chain_cache f) c.
Proof.
  intros He Hf Hfuel Hch Hn Hsz Hs Hk Hcache xs.
  pose proof (chain_pos _ _ _ Hch) as Hp.
  assert (zlen (items f arrs) = caps arrs) as Hlen by (by eapply items_length).
  destruct (exists_lcut direction key needle (items f arrs) n) as [m Hcut]; [lia|done|].
  pose proof (lcut_range _ _ _ _ _ Hcut) as Hm.
  destruct (bisect_start_ok f first arrs n m) as (pre & suf & a & li & Hst & Ha & Hcs & Hpre & Hli);
    [done|done|lia|done..|].
  assert (Forall (fun ak => 0 < ak.2) pre) as Hpp by (rewrite Ha in Hp; by apply Forall_app in Hp as [? _]).
  assert (caps arrs = caps pre + caps suf) as Hcaps by (by rewrite Ha, caps_app).
  pose proof (caps_nonneg _ Hpp). pose proof (chain_caps _ _ _ Hcs).
  assert (caps pre <= m) by (destruct Hpre as [->|]; simpl in *; lia).
  destruct (bisect_arrays_ok e fuel test_object direction needle f
    (fun p => test_compare (key p) needle) He suf fuel a (n - caps pre) (caps pre) li 0 (m - caps pre))
    as (res & Hrun & Hres); try done; try lia.
  { intros i p Hi Hnth. eapply keyed_testable, (Hk (caps pre + i)); [lia|].
    rewrite Ha, items_nth_app by (done || lia). done. }
  { eapply lcut_suffix; [done|lia|by rewrite <- Ha]. }
  { rewrite Ha, length_app in Hfuel. lia. }
  rewrite Ha in Hp, Hn. apply located_suffix in Hres; [|done|lia|done]. rewrite <- Ha in Hres, Hp, Hn.
  unfold generic_array_bisect. run. rewrite (run_bind _ _ _ _ _ Hst). cbv beta iota zeta.
  rewrite (run_bind _ _ _ _ _ Hrun).
  unfold xs. rewrite (linear_search_cut _ _ _ _ n m) by (done || lia).
  destruct res as [[[[[a' i] sub] t'] lp']|].
  - destruct (bisect_found_ok f first arrs n m a' i sub t' lp') as (c & -> & Hc); try done; [lia|].
    exists c. split; [|done]. do 2 f_equal.
    destruct Hres as (pre' & k & suf' & Ha' & -> & -> & _ & _ & _ & _ & Hc').
    destruct Hc' as [[? _]|(-> & -> & ?)]; cycle 1.
    + unfold up_past_full. rewrite Ha' in *. rewrite exact_fill_inside by (done || lia). done.
    + assert (up_past_full direction key needle arrs n (take (Z.to_nat n) (items f arrs)) = false) as ->.
      { unfold up_past_full. destruct direction; [|done]. simpl.
        rewrite (forallb_cut _ _ _ _ n m) by (done || lia).
        destruct (Z.eqb_spec m n); [lia|]. apply andb_false_r. }
      destruct (is_up direction); [done|]. destruct (Z.eqb_spec m n); [lia|done].
  - exists (jf_chain_cache f). replace (set_cache f (jf_chain_cache f)) with f by (by destruct f).
    split; [|split; [done|apply cache_extends_refl]]. unfold ret. do 2 f_equal. destruct Hres as [-> Hb]. rewrite Z.eqb_refl.
    destruct direction; simpl; [|done]. destruct Hb as [[=]|Hb].
    unfold up_past_full. rewrite boundary_exact_fill by done. simpl.
    rewrite (forallb_cut _ _ _ _ n n) by (done || lia). by rewrite Z.eqb_refl.
Qed.

(** ** The chain with one extra entry *)

Lemma adjust_compare k :
  test_adjust direction (test_compare k needle)
  = match direction with
    | DIRECTION_UP => if k <=? needle then TEST_LEFT else TEST_RIGHT
    | DIRECTION_DOWN => if needle <=? k then TEST_RIGHT else TEST_LEFT
    end.
Proof. unfold test_compare. destruct direction; zcases; done || lia. Qed.

Definition shift1 (r : option (Z * Z)) : option (Z * Z) :=
  match r with Some (p, i) => Some (p, i + 1) | None => None end.

Lemma linear_search_cons x xs :
  linear_search direction key needle (x :: xs)
  = match direction with
    | DIRECTION_DOWN =>
        if needle <=? key x then Some (x, 0) else shift1 (linear_search DIRECTION_DOWN key needle xs)
    | DIRECTION_UP =>
        match linear_search DIRECTION_UP key needle xs with
        | Some (p, i) => Some (p, i + 1)
        | None => if key x <=? needle then Some (x, 0) else None
        end
    end.
Proof.
  unfold linear_search. destruct direction.
  - rewrite reverse_cons.
    destruct (list_find (fun p => key p <= needle) (reverse xs)) as [[i p]|] eqn:E.
    + rewrite (list_find_app_l _ _ _ i p) by done.
      pose proof E as (Hi%lookup_lt_Some & _)%list_find_Some. rewrite length_reverse in Hi.
      unfold zlen. cbn [length]. do 2 f_equal. lia.
    + rewrite list_find_app_r by done. simpl. unfold zlen. rewrite length_reverse. cbn [length].
      destruct (Z.leb_spec (key x) needle); [rewrite decide_True by lia|rewrite decide_False by lia];
        [|done]. simpl. do 2 f_equal. lia.
  - simpl. destruct (Z.leb_spec needle (key x)).
    + rewrite decide_True by lia. done.
    + rewrite decide_False by lia. destruct (list_find _ xs) as [[i p]|]; [|done].
      simpl. do 2 f_equal. lia.
Qed.

Lemma linear_search_range xs p i :
  linear_search direction key needle xs = Some (p, i) -> 0 <= i < zlen xs.
Proof.
  unfold linear_search, zlen. destruct direction;
    destruct (list_find _ _) as [[j q]|] eqn:E; try done; intros [= <- <-];
    apply list_find_Some in E as [Hj%lookup_lt_Some _]; rewrite ?length_reverse in Hj; lia.
Qed.

(** Upwards the last one is found when all match. *)
Lemma linear_search_all x xs : forallb (fun p => key p <=? needle) (x :: xs) = true ->
  linear_search DIRECTION_UP key needle (x :: xs) = Some (List.last xs x, zlen xs).
Proof.
  intros H. unfold linear_search. destruct (@exists_last _ (x :: xs)) as (l & y & E); [done|].
  assert (List.last xs x = y) as ->.
  { transitivity (List.last (x :: xs) x); [by destruct xs|]. by rewrite E, List.last_last. }
  assert (zlen xs = zlen (x :: xs) - 1) as -> by (unfold zlen; simpl length; lia).
  rewrite E in *. rewrite reverse_snoc. simpl. rewrite forallb_app in H. apply andb_true_iff in H as [_ H]. simpl in H.
  rewrite decide_True by (apply Z.leb_le; by rewrite andb_true_r in H). do 2 f_equal. lia.
Qed.

(** What generic_array_bisect_plus_one does: the linear search of [extra :: xs], except
    that where generic_array_bisect gives up, the extra entry is taken. *)
Definition search_plus_one (extra : Z) (arrs : list (Z * Z)) (n : Z) (xs : list Z) : option (Z * Z) :=
  if n =? 0 then None
  else if is_up direction && (key extra <=? needle) && up_past_full direction key needle arrs (n - 1) xs
  then Some (extra, 0)
  else linear_search direction key needle (extra :: xs).

Lemma generic_array_bisect_plus_one_ok f extra first arrs n :
  mmap_ok e -> (62 <= fuel)%nat -> (length arrs <= fuel)%nat ->
  chain f first arrs -> 0 <= n <= caps arrs + 1 -> caps arrs < 2 ^ 62 ->
  keys_sorted key (items f arrs) (n - 1) ->
  (n <> 0 -> keyed f extra) ->
  (forall i p, 0 <= i < n - 1 -> nthz (items f arrs) i = Some p -> keyed f p /\ key extra <= key p) ->
  cache_ok f first arrs (n - 1) ->
  exists c,
    generic_array_bisect_plus_one e fuel test_object direction needle extra first n f
    = (Ok (search_plus_one extra arrs n (take (Z.to_nat (n - 1)) (items f arrs))), set_cache f c)
    /\ cache_ok (set_cache f c) first arrs (n - 1) /\ cache_extends first (jf_chain_cache f) c.
Proof.
  intros He Hf Hfuel Hch Hn Hsz Hs Hex Hk Hcache.
  assert (forall x, x f = (Ok (search_plus_one extra arrs n (take (Z.to_nat (n - 1)) (items f arrs))), f) ->
    exists c, x f = (Ok (search_plus_one extra arrs n (take (Z.to_nat (n - 1)) (items f arrs))), set_cache f c)
      /\ cache_ok (set_cache f c) first arrs (n - 1) /\ cache_extends first (jf_chain_cache f) c) as Hsame.
  { intros x Hx. exists (jf_chain_cache f). rewrite Hx. split; [by destruct f|]. split; [done|apply cache_extends_refl]. }
  unfold generic_array_bisect_plus_one. destruct (Z.leb_spec n 0).
  { apply Hsame. assert (n = 0) as -> by lia. done. }
  destruct (Hex ltac:(lia)) as [[s Ho] Htest]. rewrite (run_bind _ _ _ _ _ Htest).
  set (xs := take (Z.to_nat (n - 1)) (items f arrs)).
  assert (search_plus_one extra arrs n xs
    = if is_up direction && (key extra <=? needle) && up_past_full direction key needle arrs (n - 1) xs
      then Some (extra, 0) else linear_search direction key needle (extra :: xs)) as Hspec.
  { unfold search_plus_one. by destruct (Z.eqb_spec n 0); [lia|]. }
  destruct (generic_array_bisect_correct f first arrs (n - 1)) as (c & Hrun & Hc); try done; [lia| |].
  { intros i p Hi Hp. by apply (Hk i). }
  fold xs in Hrun. rewrite linear_search_cons in Hspec.
  assert (zlen xs < 2 ^ 62) as Hxs.
  { unfold xs, zlen. rewrite length_take, items_caps by (by eapply chain_pos). lia. }
  pose proof (linear_search_range xs) as Hrange.
  assert (journal_file_move_to_object e OBJECT_ENTRY extra f = (Ok extra, f)) as Hmove.
  { eapply move_to_object_ok; [done|done|by left]. }
  rewrite adjust_compare. destruct direction; simpl is_up in *; simpl in Hspec |- *.
  - destruct (Z.leb_spec (key extra) needle) as [Hle|Hgt]; simpl in *.
    + rewrite (run_bind _ _ _ _ _ Hrun). exists c. split; [|done]. rewrite Hspec.
      destruct (up_past_full _ _ _ _ _ xs); [by rewrite (run_bind _ _ _ _ _ (move_set_cache _ _ _ _ _ _ He Ho))|].
      destruct (match list_find _ _ with Some _ => _ | None => _ end) as [[p i]|] eqn:E.
      * rewrite u64_small; [done|]. pose proof (Hrange p i eq_refl). unfold is_u64. lia.
      * by rewrite (run_bind _ _ _ _ _ (move_set_cache _ _ _ _ _ _ He Ho)).
    + apply Hsame. fold xs. rewrite Hspec. replace (list_find _ (reverse xs)) with (@None (nat * Z)); [done|].
      symmetry. apply list_find_None, Forall_reverse, Forall_lookup. intros i p Hp.
      apply nthz_lookup in Hp as [Hp Hi]. pose proof (Hk (Z.of_nat i) p ltac:(lia) Hp). lia.
  - destruct (Z.leb_spec needle (key extra)); simpl in *.
    + apply Hsame. fold xs. by rewrite (run_bind _ _ _ _ _ Hmove), Hspec.
    + rewrite (run_bind _ _ _ _ _ Hrun). exists c. split; [|done]. rewrite Hspec.
      destruct (match list_find _ _ with Some _ => _ | None => _ end) as [[p i]|] eqn:E; [|done].
      simpl. rewrite u64_small; [done|]. pose proof (Hrange p i eq_refl). unfold is_u64. lia.
Qed.

(** C19 Searching the entries of a data object, its inline first entry and then its
    chain of entry arrays, by any sorted key: the answer is that of the linear search of
    the list, the first match downwards, the last one upwards, with its index, but for a
    fault of the code.  Upwards, when all entries are at or before the needle and those
    of the chain fill their arrays exactly, the code answers with the first entry, and
    the right answer is the last one.  Only the chain cache changes, and it stays right
    for the chain. *)
Theorem generic_array_bisect_plus_one_correct f extra first arrs n :
  mmap_ok e -> (62 <= fuel)%nat -> (length arrs <= fuel)%nat ->
  chain f first arrs -> 0 <= n <= caps arrs + 1 -> caps arrs < 2 ^ 62 ->
  keys_sorted key (items f arrs) (n - 1) ->
  (n <> 0 -> keyed f extra) ->
  (forall i p, 0 <= i < n - 1 -> nthz (items f arrs) i = Some p -> keyed f p /\ key extra <= key p) ->
  cache_ok f first arrs (n - 1) ->
  let xs := take (Z.to_nat (n - 1)) (items f arrs) in
  let fault := is_up direction && exact_fill arrs (n - 1) && forallb (fun p => key p <=? needle) (extra :: xs) in
  exists c r,
    generic_array_bisect_plus_one e fuel test_object direction needle extra first n f = (Ok r, set_cache f c)
    /\ cache_ok (set_cache f c) first arrs (n - 1)
    /\ (n = 0 -> r = None)
    /\ (0 < n -> fault = false -> r = linear_search direction key needle (extra :: xs))
    /\ (0 < n -> fault = true ->
        r = Some (extra, 0) /\ linear_search direction key needle (extra :: xs) = Some (List.last xs extra, n - 1)).
Proof.
  intros He Hf Hfuel Hch Hn Hsz Hs Hex Hk Hcache xs fault.
  destruct (generic_array_bisect_plus_one_ok f extra first arrs n) as (c & Hrun & Hc & _); try done.
  fold xs in Hrun. eexists c, _. split; [exact Hrun|]. split; [done|]. unfold search_plus_one.
  assert (fault = is_up direction && (key extra <=? needle) && up_past_full direction key needle arrs (n - 1) xs) as Hfault.
  { unfold fault, up_past_full. cbn [forallb]. destruct (is_up direction); [|done]. cbn [andb].
    destruct (key extra <=? needle), (exact_fill arrs (n - 1)), (forallb _ xs); done. }
  rewrite <- Hfault. split; [by intros ->|]. split; intros Hpos; (destruct (Z.eqb_spec n 0); [lia|]); intros ->; [done|].
  split; [done|]. symmetry in Hfault. apply andb_true_iff in Hfault as [[Hup H1]%andb_true_iff H2].
  unfold up_past_full in H2. apply andb_true_iff in H2 as [_ H2]. destruct direction; [|done].
  rewrite linear_search_all by (cbn [forallb]; by rewrite H1).
  assert (zlen xs = n - 1) as ->; [|done].
  unfold xs, zlen. rewrite length_take, items_caps by (by eapply chain_pos). lia.
Qed.

End Bisect.

(** * Reading the i-th entry *)

Lemma array_get_loop_ok e f : mmap_ok e -> forall arrs n a i t,
  chain f a arrs -> 0 <= i -> 0 <= t -> t + caps arrs < 2 ^ 62 -> (length arrs <= n)%nat ->
  exists res, array_get_loop e n a i t f = (Ok res, f)
    /\ match res with
       | None => nthz (items f arrs) i = None
       | Some (a', i', t', p) =>
           exists pre k suf, arrs = pre ++ (a', k) :: suf
             /\ t' = t + caps pre /\ i' = i - caps pre /\ 0 <= i' < k
             /\ nthz (items f arrs) i = Some p
       end.
Proof.
  intros He. induction arrs as [|[a' k] arrs IH]; intros n a i t Hc Hi Ht Hsz Hn.
  { cbn in Hc. subst a. exists None. by destruct n. }
  destruct Hc as (<- & Harr & Hnext). destruct n as [|n]; [simpl in Hn; lia|].
  assert (0 < a) by apply Harr. assert (0 < k) by apply Harr.
  pose proof (chain_caps _ _ _ Hnext). cbn [caps] in *.
  cbn [array_get_loop]. destruct (Z.eqb_spec a 0); [lia|].
  rewrite (run_bind _ _ _ _ _ (move_to_array e f a k He Harr)).
  rewrite (run_bind _ _ _ _ _ (n_items_ok f a k Harr)).
  destruct (Z.ltb_spec i k).
  - eexists. split; [reflexivity|]. exists [], k, arrs. cbn [caps app].
    split_and!; try done; try lia. rewrite items_nth_l by lia. done.
  - run. rewrite u64_small by (unfold is_u64; lia).
    destruct (IH n (load64 (jf_mem f) (a + entry_array_next)) (i - k) (t + k)) as (res & -> & Hres);
      try done; try lia; [simpl in Hn; lia|].
    exists res. split; [done|]. destruct res as [[[[a'' i'] t'] p]|].
    + destruct Hres as (pre & k' & suf & -> & -> & -> & Hr & Hp).
      exists ((a, k) :: pre), k', suf. cbn [caps app].
      split_and!; try done; try lia. rewrite items_nth_r by lia. done.
    + rewrite items_nth_r by lia. done.
Qed.

(** generic_array_get returns the [i]-th entry of the chain, wherever the chain
    cache makes the walk start; past the capacity of the arrays there is none.  The
    cache stays valid and nothing else changes. *)
Theorem generic_array_get_correct e fuel f first arrs n i :
  mmap_ok e -> (length arrs <= fuel)%nat ->
  chain f first arrs -> n <= caps arrs < 2 ^ 62 -> cache_ok f first arrs n ->
  0 <= i -> i < n \/ caps arrs <= i ->
  (forall p, nthz (items f arrs) i = Some p -> exists s, is_object f OBJECT_ENTRY p s) ->
  exists c,
    generic_array_get e fuel first i f = (Ok (nthz (items f arrs) i), set_cache f c)
    /\ cache_ok (set_cache f c) first arrs n /\ cache_extends first (jf_chain_cache f) c.
Proof.
  intros He Hfuel Hch Hn Hcache Hi Hin Hobj.
  pose proof (chain_pos _ _ _ Hch) as Hp.
  assert (exists pre suf a,
    match chain_cache_get (jf_chain_cache f) first with
    | Some c => if ci_total c <? i then (ci_array c, i - ci_total c, ci_total c) else (first, i, 0)
    | None => (first, i, 0)
    end = (a, i - caps pre, caps pre)
    /\ arrs = pre ++ suf /\ chain f a suf /\ caps pre <= i) as (pre & suf & a & Hst & Ha & Hcs & Hpre).
  { assert (forall x : Z * Z * Z, x = (first, i, 0) -> exists pre suf a,
      x = (a, i - caps pre, caps pre) /\ arrs = pre ++ suf /\ chain f a suf /\ caps pre <= i) as Hfresh.
    { intros x ->. exists [], arrs, first. rewrite Z.sub_0_r. auto. }
    destruct (chain_cache_get (jf_chain_cache f) first) as [c|] eqn:Ec; [|by apply Hfresh].
    destruct (Hcache _ Ec) as (pre & k & suf & Ha & Ht & _). rewrite Ht.
    destruct (Z.ltb_spec (caps pre) i); [|by apply Hfresh].
    exists pre, ((ci_array c, k) :: suf), (ci_array c). rewrite Ha in Hch.
    split_and!; [done|done|by eapply chain_suffix|lia]. }
  assert (Forall (fun ak => 0 < ak.2) pre) as Hpp by (rewrite Ha in Hp; by apply Forall_app in Hp as [? _]).
  assert (caps arrs = caps pre + caps suf) as Hcaps by (by rewrite Ha, caps_app).
  pose proof (caps_nonneg _ Hpp).
  destruct (array_get_loop_ok e f He suf fuel a (i - caps pre) (caps pre)) as (res & Hrun & Hres);
    [done|lia..|rewrite Ha, length_app in Hfuel; lia|].
  assert (nthz (items f suf) (i - caps pre) = nthz (items f arrs) i) as Hnth.
  { rewrite Ha, <- (items_nth_app f pre suf) by (done || lia). f_equal. lia. }
  unfold generic_array_get. run. rewrite Hst. rewrite (run_bind _ _ _ _ _ Hrun).
  rewrite Hnth in Hres. destruct res as [[[[a' i'] t'] p]|].
  - destruct Hres as (pre' & k & suf' & Hs & -> & -> & Hr & Hnp).
    rewrite Hnp. run. eexists. split.
    + destruct (Hobj p Hnp) as [s Ho].
      by rewrite (run_bind _ _ _ _ _ (move_set_cache _ _ _ _ _ _ He Ho)).
    + assert (Forall (fun ak => 0 < ak.2) (pre ++ pre')) as Hpp'.
      { apply Forall_app. split; [done|]. rewrite Ha, Hs in Hp.
        apply Forall_app in Hp as [_ Hp]. by apply Forall_app in Hp as [? _]. }
      split; [|apply cache_put_extends].
      apply cache_put_ok. exists (pre ++ pre'), k, suf'.
      cbn [ci_array ci_total ci_begin ci_last_index]. rewrite caps_app.
      assert (arrs = (pre ++ pre') ++ (a', k) :: suf') as Ha' by (by rewrite <- (assoc (++)), <- Hs).
      split_and!; [done|done| |].
      * pose proof (items_nth_app f (pre ++ pre') ((a', k) :: suf') 0 Hpp' ltac:(lia)) as E.
        rewrite <- Ha', Z.add_0_r, caps_app in E.
        rewrite items_nth_l in E by lia. exact E.
      * right. split; [lia|]. apply lookup_lt_Some in Hnp. rewrite items_caps in Hnp by done. lia.
  - rewrite Hres. exists (jf_chain_cache f). split; [by destruct f|]. split; [done|apply cache_extends_refl].
Qed.
