(* ===== verification/JournalEntries.v ===== *)
(** The moves between the entries of a journal file, on a file whose entry array
    chain is well formed: seeking by sequence number and time is a linear search
    of the entries, next_entry steps along them. *)
From S2P Require Import Prelude Lookup3 Uuid Memory JournalDef JournalFile ObjectLemmas JournalSeek.
From S2P Require Import BisectProofs ArraySearch.

(** The entries a file lists. *)
Definition entries (f : JournalFile) (arrs : list (Z * Z)) : list Z :=
  take (Z.to_nat (hdr off_n_entries f)) (items f arrs).

(** The header's chain of entry arrays is well formed and lists entries. *)
Record entry_list (f : JournalFile) (arrs : list (Z * Z)) : Prop := {
  el_chain : chain f (hdr off_entry_array_offset f) arrs;
  el_n : 0 <= hdr off_n_entries f <= caps arrs;
  el_size : caps arrs < 2 ^ 62;
  el_entry : forall i p, nthz (entries f arrs) i = Some p -> exists s, is_object f OBJECT_ENTRY p s;
  el_cache : cache_ok f (hdr off_entry_array_offset f) arrs (hdr off_n_entries f) }.

Lemma is_object_set_cache f c ty p s : is_object f ty p s -> is_object (set_cache f c) ty p s.
Proof. by intros []. Qed.

Lemma chain_set_cache f c a arrs : chain f a arrs -> chain (set_cache f c) a arrs.
Proof.
  revert a. induction arrs as [|[a' k] arrs IH]; intros a; simpl; [done|].
  intros (-> & [Ho Hk] & Hc). split_and!; [done|split; [by apply is_object_set_cache|done]|by apply IH].
Qed.

Section EntryList.
Context (f : JournalFile) (arrs : list (Z * Z)) (Hel : entry_list f arrs).
Let n := hdr off_n_entries f.

Lemma el_length : zlen (items f arrs) = caps arrs.
Proof. eapply items_length, el_chain, Hel. Qed.

Lemma entries_length : zlen (entries f arrs) = n.
Proof.
  pose proof el_length. pose proof (el_n _ _ Hel). unfold n, zlen, entries in *.
  rewrite length_take. lia.
Qed.

Lemma entries_nth i : 0 <= i < n -> nthz (entries f arrs) i = nthz (items f arrs) i.
Proof. intros. unfold nthz, entries. apply lookup_take_lt. unfold n in *. lia. Qed.

Lemma entries_nth_Some i p : 0 <= i -> nthz (entries f arrs) i = Some p -> i < n.
Proof.
  intros Hi H. pose proof entries_length as Hl. apply lookup_lt_Some in H. unfold zlen in Hl. lia.
Qed.

Lemma entry_list_set_cache c :
  cache_ok (set_cache f c) (hdr off_entry_array_offset f) arrs n -> entry_list (set_cache f c) arrs.
Proof.
  intros Hc. destruct Hel. split; try done.
  - by apply chain_set_cache.
  - intros i p Hp. destruct (el_entry0 i p Hp) as [s Ho]. exists s. by apply is_object_set_cache.
Qed.

End EntryList.

(** The keys of the listed entries do not decrease. *)
Definition entries_sorted (f : JournalFile) (arrs : list (Z * Z)) (key : Z -> Z) : Prop :=
  keys_sorted key (items f arrs) (hdr off_n_entries f).

Section Offsets.
Context (f : JournalFile) (arrs : list (Z * Z)).

(** The entries are in the order they were written. *)
Definition offsets_increasing : Prop :=
  forall i j p q, 0 <= i < j -> j < hdr off_n_entries f ->
    nthz (items f arrs) i = Some p -> nthz (items f arrs) j = Some q -> p < q.

Lemma offsets_sorted : offsets_increasing -> entries_sorted f arrs id.
Proof.
  intros Hs i j p q Hi Hj Hp Hq. destruct (Z.eq_dec i j) as [->|].
  - assert (p = q) as -> by congruence. done.
  - apply Z.lt_le_incl, (Hs i j); done || lia.
Qed.

(** Looking up an entry by its own offset finds its index. *)
Lemma linear_search_offset i p :
  entry_list f arrs -> offsets_increasing -> 0 <= i -> nthz (entries f arrs) i = Some p ->
  linear_search DIRECTION_DOWN id p (entries f arrs) = Some (p, i).
Proof.
  intros Hel Hs Hi Hp. pose proof (entries_nth_Some f arrs Hel i p Hi Hp) as Hn.
  unfold linear_search.
  replace (list_find _ (entries f arrs)) with (Some (Z.to_nat i, p)).
  2:{ symmetry. apply list_find_Some. split_and!; [done|done|]. intros j q Hj Hlt.
    rewrite entries_nth in Hp by done.
    assert (nthz (items f arrs) (Z.of_nat j) = Some q) as Hq.
    { rewrite <- entries_nth by (done || lia). unfold nthz. by rewrite Nat2Z.id. }
    pose proof (Hs (Z.of_nat j) i q p ltac:(lia) Hn Hq Hp). unfold id. lia. }
  simpl. rewrite Z2Nat.id by done. done.
Qed.

(** The index after [i] in a direction. *)
Definition neighbour (direction : direction_t) (i : Z) : Z :=
  match direction with DIRECTION_DOWN => i + 1 | DIRECTION_UP => i - 1 end.

Definition nth_entry (i : Z) : option Z := if i <? 0 then None else nthz (entries f arrs) i.

End Offsets.

(** A search of the file's entries left the cache [c]. *)
Record searched (f : JournalFile) (arrs : list (Z * Z)) (c : list ChainCacheItem) : Prop := {
  sr_list : entry_list (set_cache f c) arrs;
  sr_cache : cache_grows f (hdr off_entry_array_offset f) arrs (hdr off_n_entries f) (jf_chain_cache f) c }.

Lemma searched_same f arrs : entry_list f arrs -> searched f arrs (jf_chain_cache f).
Proof. intros Hel. split; [by destruct f|]. intros c Hc. by left. Qed.

Lemma searched_trans f arrs c c' : searched f arrs c -> searched (set_cache f c) arrs c' -> searched f arrs c'.
Proof. intros [_ H1] [Hel H2]. split; [exact Hel|]. eapply cache_grows_trans; [exact H1|exact H2]. Qed.

Lemma searched_of f arrs c : entry_list f arrs ->
  cache_ok (set_cache f c) (hdr off_entry_array_offset f) arrs (hdr off_n_entries f) ->
  cache_extends (hdr off_entry_array_offset f) (jf_chain_cache f) c -> searched f arrs c.
Proof. intros Hel Hok Hext. split; [by apply entry_list_set_cache|by apply cache_grows_of]. Qed.

Section Moves.
Context (e : Env) (fuel : nat) (f : JournalFile) (arrs : list (Z * Z)).
Hypothesis (He : mmap_ok e) (Hf : (62 <= fuel)%nat) (Hfuel : (length arrs <= fuel)%nat)
  (Hel : entry_list f arrs).

(** The bisection of the file's entries by a key. *)
Lemma bisect_entries test_object direction key needle :
  entries_sorted f arrs key ->
  (forall p s, is_object f OBJECT_ENTRY p s ->
     test_object p needle f = (Ok (test_compare (key p) needle), f)) ->
  exists c,
    generic_array_bisect e fuel test_object direction needle
      (hdr off_entry_array_offset f) (hdr off_n_entries f) f
    = (Ok (if up_past_full direction key needle arrs (hdr off_n_entries f) (entries f arrs) then None
           else linear_search direction key needle (entries f arrs)), set_cache f c)
    /\ searched f arrs c.
Proof.
  intros Hs Ht. pose proof Hel as [Hc Hn Hz Ho Hca].
  destruct (generic_array_bisect_correct e fuel test_object direction key needle f
    (hdr off_entry_array_offset f) arrs (hdr off_n_entries f)) as (c & Hrun & Hc' & Hext); try done.
  - intros i p Hi Hp. rewrite <- entries_nth in Hp by done. destruct (Ho _ _ Hp) as [s Hob].
    split; [by exists s|]. by eapply Ht.
  - exists c. split; [exact Hrun|]. by apply searched_of.
Qed.

Lemma test_object_field_ok field p s needle :
  is_object f OBJECT_ENTRY p s ->
  test_object_field e field p needle f = (Ok (test_compare (load64 (jf_mem f) (p + field)) needle), f).
Proof.
  intros Ho. unfold test_object_field. pose proof (obj_pos _ _ _ _ Ho). run.
  rewrite (run_bind _ _ _ _ _ (move_to_object_ok e _ _ _ _ _ He Ho (or_introl eq_refl))). done.
Qed.

Lemma last_cons_of {A} (x : A) xs : last (x :: xs) = Some (List.last xs x).
Proof.
  destruct (@exists_last _ (x :: xs)) as (l & y & E); [done|]. rewrite E, last_snoc. f_equal.
  transitivity (List.last (x :: xs) x); [by rewrite E, List.last_last|by destruct xs].
Qed.

(** C17 On a file whose entries are in the order of their sequence numbers, seeking to a
    sequence number finds the first entry at or after it downwards and the last entry at
    or before it upwards, and only the chain cache changes, but for a fault of the code:
    upwards, when all entries are at or before the number and fill their arrays exactly,
    it finds nothing, and the right answer is the last entry. *)
Theorem journal_file_move_to_entry_by_seqnum_correct direction needle :
  let seqnum p := load64 (jf_mem f) (p + entry_seqnum) in
  let found := linear_search direction seqnum needle (entries f arrs) in
  let fault := is_up direction && exact_fill arrs (hdr off_n_entries f) && forallb (fun p => seqnum p <=? needle) (entries f arrs) in
  entries_sorted f arrs seqnum ->
  exists c r,
    journal_file_move_to_entry_by_seqnum e fuel needle direction f = (Ok r, set_cache f c)
    /\ entry_list (set_cache f c) arrs
    /\ (fault = false -> r = found)
    /\ (fault = true -> r = None
        /\ forall p, last (entries f arrs) = Some p -> found = Some (p, hdr off_n_entries f - 1)).
Proof.
  intros seqnum found fault Hs. unfold journal_file_move_to_entry_by_seqnum. run.
  destruct (bisect_entries (test_object_field e entry_seqnum) direction seqnum needle Hs) as (c & Hrun & Hc).
  { intros p s. apply test_object_field_ok. }
  eexists c, _. split; [exact Hrun|]. split; [apply Hc|]. change (up_past_full _ _ _ _ _ _) with fault.
  split; intros E; rewrite E; [done|]. split; [done|]. intros p Hp. apply andb_true_iff in E as [[Hup _]%andb_true_iff H].
  unfold found. destruct direction; [|done]. pose proof (entries_length f arrs Hel) as Hlen.
  destruct (entries f arrs) as [|x xs] eqn:Ex; [done|]. rewrite linear_search_all by done. rewrite last_cons_of in Hp.
  injection Hp as ->. unfold zlen in *. simpl length in Hlen. do 2 f_equal. lia.
Qed.

(** The same for the realtime clock. *)
Theorem journal_file_move_to_entry_by_realtime_correct direction needle :
  let realtime p := load64 (jf_mem f) (p + entry_realtime) in
  entries_sorted f arrs realtime ->
  exists c,
    journal_file_move_to_entry_by_realtime e fuel needle direction f
    = (Ok (if up_past_full direction realtime needle arrs (hdr off_n_entries f) (entries f arrs) then None
           else linear_search direction realtime needle (entries f arrs)), set_cache f c)
    /\ entry_list (set_cache f c) arrs.
Proof.
  intros realtime Hs. unfold journal_file_move_to_entry_by_realtime. run.
  destruct (bisect_entries (test_object_field e entry_realtime) direction realtime needle Hs) as (c & Hrun & Hc).
  { intros p s. apply test_object_field_ok. }
  exists c. split; [exact Hrun|apply Hc].
Qed.

(** generic_array_get on the listed entries. *)
Lemma get_entry i :
  0 <= i < hdr off_n_entries f ->
  exists c,
    generic_array_get e fuel (hdr off_entry_array_offset f) i f
    = (Ok (nth_entry f arrs i), set_cache f c)
    /\ searched f arrs c.
Proof.
  intros Hi. pose proof Hel as [Hc Hn Hz Ho Hca].
  destruct (generic_array_get_correct e fuel f (hdr off_entry_array_offset f) arrs
    (hdr off_n_entries f) i) as (c & Hrun & Hc' & Hext); try done; try lia.
  - intros p Hp. apply (Ho i). by rewrite entries_nth.
  - exists c. rewrite Hrun. unfold nth_entry. destruct (Z.ltb_spec i 0); [lia|].
    rewrite entries_nth by done. split; [done|]. by apply searched_of.
Qed.

End Moves.

(** ** next_entry *)

(** The step of next_entry from index [i], once the index is known. *)
Definition next_from (e : Env) (fuel : nat) (p : Z) (direction : direction_t) (a : Z)
    (i : option Z) : M (option Z) :=
  match i with
  | None => ret None
  | Some i =>
      r <- generic_array_get e fuel a i ;;
      match r with
      | None => ret None
      | Some ofs =>
          fail_if ((0 <? p) &&
            match direction with DIRECTION_DOWN => ofs <=? p | DIRECTION_UP => p <=? ofs end)
            EBADMSG ;;
          ret (Some ofs)
      end
  end.

Section Next.
Context (e : Env) (fuel : nat).
Hypothesis (He : mmap_ok e) (Hf : (62 <= fuel)%nat).

Lemma next_from_ok f arrs p direction j :
  (length arrs <= fuel)%nat -> entry_list f arrs -> 0 <= j < hdr off_n_entries f ->
  (forall q, nthz (items f arrs) j = Some q ->
     p <= 0 \/ match direction with DIRECTION_DOWN => p < q | DIRECTION_UP => q < p end) ->
  exists c,
    next_from e fuel p direction (hdr off_entry_array_offset f) (Some j) f
    = (Ok (nth_entry f arrs j), set_cache f c)
    /\ searched f arrs c.
Proof.
  intros Hfuel Hel Hj Hq.
  destruct (get_entry e fuel f arrs He Hf Hfuel Hel j Hj) as (c & Hrun & Hel').
  exists c. split; [|done]. simpl. rewrite (run_bind _ _ _ _ _ Hrun).
  unfold nth_entry. destruct (Z.ltb_spec j 0); [done|]. rewrite entries_nth by done.
  destruct (nthz (items f arrs) j) as [q|] eqn:E; [|done]. specialize (Hq q eq_refl).
  rewrite run_fail_if; [done|].
  destruct direction; destruct Hq; zcases; done || lia.
Qed.

(** next_entry on the list of entries. *)
Lemma journal_file_next_entry_ok f arrs (o : option Z) p i direction :
  (length arrs <= fuel)%nat -> entry_list f arrs ->
  offsets_increasing f arrs -> 0 < hdr off_n_entries f ->
  match o with
  | None => p = 0 /\ i = match direction with DIRECTION_DOWN => -1 | DIRECTION_UP => hdr off_n_entries f end
  | Some o => o = p /\ 0 <= i /\ nthz (entries f arrs) i = Some p
  end ->
  exists c,
    journal_file_next_entry e fuel o p direction f
    = (Ok (nth_entry f arrs (neighbour direction i)), set_cache f c)
    /\ searched f arrs c.
Proof.
  intros Hfuel Hel Hs Hn Ho. pose proof (el_n _ _ Hel) as Hcap. pose proof (el_size _ _ Hel).
  unfold journal_file_next_entry. fold (hdr off_n_entries f).
  destruct o as [o|]; cycle 1.
  { destruct Ho as [-> ->]. rewrite run_assert by done. run. fold (hdr off_n_entries f).
    destruct (Z.leb_spec (hdr off_n_entries f) 0); [lia|]. run. fold (hdr off_entry_array_offset f).
    destruct direction.
    - apply (next_from_ok f arrs 0 DIRECTION_UP (hdr off_n_entries f - 1)); auto; lia.
    - apply (next_from_ok f arrs 0 DIRECTION_DOWN 0); auto; lia. }
  destruct Ho as (-> & Hi & Hp).
  destruct (el_entry _ _ Hel _ _ Hp) as [s Hobj]. pose proof (obj_pos _ _ _ _ Hobj).
  pose proof (entries_nth_Some f arrs Hel i p Hi Hp) as Hin.
  rewrite run_assert by (zcases; done || lia).
  run. fold (hdr off_n_entries f).
    destruct (Z.leb_spec (hdr off_n_entries f) 0); [lia|]. run. fold (hdr off_entry_array_offset f).
  rewrite (obj_type_eq _ _ _ _ Hobj). run.
  destruct (bisect_entries e fuel f arrs He Hf Hfuel Hel test_object_offset DIRECTION_DOWN id p)
    as (c & Hrun & Hel').
  { by apply offsets_sorted. }
  { intros q s' Hq. pose proof (obj_pos _ _ _ _ Hq). unfold test_object_offset. run. done. }
  rewrite (run_bind _ _ _ _ _ Hrun). simpl up_past_full.
  rewrite (linear_search_offset f arrs i p Hel Hs Hi Hp). run.
  change (match step_index direction i (hdr off_n_entries f) with None => _ | Some _ => _ end)
    with (next_from e fuel p direction (hdr off_entry_array_offset f)
            (step_index direction i (hdr off_n_entries f))).
  assert (forall j q, 0 <= j < hdr off_n_entries f -> nthz (items f arrs) j = Some q ->
    (j = i + 1 -> p < q) /\ (j = i - 1 -> q < p)) as Hord.
  { intros j q Hj Hq. rewrite entries_nth in Hp by done.
    split; intros ->; [apply (Hs i (i + 1))|apply (Hs (i - 1) i)]; done || lia. }
  assert (nth_entry f arrs (-1) = None /\ nth_entry f arrs (hdr off_n_entries f) = None) as [Hl Hr].
  { split; [done|]. unfold nth_entry. destruct (Z.ltb_spec (hdr off_n_entries f) 0); [done|].
    apply lookup_ge_None. pose proof (entries_length f arrs Hel). unfold zlen in *. lia. }
  assert (forall j, (direction = DIRECTION_DOWN -> j = i + 1) -> (direction = DIRECTION_UP -> j = i - 1) ->
    0 <= j < hdr off_n_entries f ->
    exists c', next_from e fuel p direction (hdr off_entry_array_offset f) (Some j) (set_cache f c)
      = (Ok (nth_entry f arrs j), set_cache f c') /\ searched f arrs c') as Hgo.
  { intros j Hd Hu Hj. destruct (next_from_ok (set_cache f c) arrs p direction j)
      as (c' & Hrun' & Hel''); try done; [apply Hel'| |exists c'; split; [done|by eapply searched_trans]].
    intros q Hq. right. destruct (Hord j q Hj Hq). destruct direction; auto. }
  unfold step_index, neighbour. destruct direction.
  - destruct (Z.leb_spec i 0).
    + exists c. replace (i - 1) with (-1) by lia. by rewrite Hl.
    + apply Hgo; done || lia.
  - rewrite u64_small by (unfold is_u64; lia). destruct (Z.leb_spec (hdr off_n_entries f - 1) i).
    + exists c. replace (i + 1) with (hdr off_n_entries f) by lia. by rewrite Hr.
    + apply Hgo; done || lia.
Qed.

(** C18 next_entry steps to the neighbour of an entry in the list of entries, in
    both directions, and reports the end of the list; without a current entry it
    starts at the first or last entry.  It never fails on a well-formed file. *)
Theorem journal_file_next_entry_correct f arrs (o : option Z) p i direction :
  (length arrs <= fuel)%nat -> entry_list f arrs ->
  offsets_increasing f arrs -> 0 < hdr off_n_entries f ->
  match o with
  | None => p = 0 /\ i = match direction with DIRECTION_DOWN => -1 | DIRECTION_UP => hdr off_n_entries f end
  | Some o => o = p /\ 0 <= i /\ nthz (entries f arrs) i = Some p
  end ->
  exists c,
    journal_file_next_entry e fuel o p direction f
    = (Ok (nth_entry f arrs (neighbour direction i)), set_cache f c)
    /\ entry_list (set_cache f c) arrs.
Proof.
  intros Hfuel Hel Hs Hn Ho.
  destruct (journal_file_next_entry_ok f arrs o p i direction Hfuel Hel Hs Hn Ho) as (c & Hrun & Hc).
  exists c. split; [exact Hrun|apply Hc].
Qed.

End Next.
