(* ===== verification/JournalSamples.v ===== *)
(** A small journal file on which the theorems about reading are applied: three
    entries in one entry array that is exactly full. *)
From S2P Require Import Prelude Lookup3 Uuid Memory JournalDef JournalFile ObjectLemmas JournalSeek.
From S2P Require Import BisectProofs ArraySearch JournalEntries.

(** A machine where every call succeeds. *)
Definition sample_env : Env :=
  mkEnv 4096 None (fun _ _ => 0) 0 (fun _ _ _ => 0) (fun n => n)
    (fun _ => None) (fun _ => None) (1000, 7) 0.

Lemma sample_mmap : mmap_ok sample_env.
Proof. done. Qed.

Definition sample_metrics : JournalMetrics := mkMetrics 0 0 0 0 0.

Definition stores (l : list (Z * Z)) (m : mem) : mem :=
  fold_left (fun m av => store64 m av.1 av.2) l m.

(** An entry object: type 3 (in the first byte), size 64, sequence number,
    realtime and monotonic time. *)
Definition sample_entry (p n : Z) : list (Z * Z) :=
  [(p, 3); (p + 8, 64); (p + 16, n); (p + 24, 10 * n); (p + 32, n)].

Definition sample_mem : mem :=
  stores ([(off_entry_array_offset, 240); (off_n_entries, 3);
           (240, 6); (248, 48); (256, 0); (264, 288); (272, 352); (280, 416)]
          ++ sample_entry 288 1 ++ sample_entry 352 2 ++ sample_entry 416 3) ∅.

Definition sample_file : JournalFile :=
  mkJF sample_mem 480 480 3 true false false false false sample_metrics [] 0 0 0.

Definition sample_arrs : list (Z * Z) := [(240, 3)].

(** Check an object of the sample file. *)
Ltac sample_object :=
  split; [lia|vm_compute; reflexivity..|vm_compute; done|vm_compute; split; done|vm_compute; done|vm_compute; done].

Lemma sample_items : items sample_file sample_arrs = [288; 352; 416].
Proof. vm_compute. reflexivity. Qed.

Lemma sample_nth i p :
  nthz [288; 352; 416] i = Some p -> p = 288 \/ p = 352 \/ p = 416.
Proof.
  unfold nthz. destruct (Z.to_nat i) as [|[|[|k]]]; simpl; intros [= <-]; auto.
Qed.

Lemma sample_is_entry p : p = 288 \/ p = 352 \/ p = 416 -> is_object sample_file OBJECT_ENTRY p 64.
Proof. intros [->|[->| ->]]; sample_object. Qed.

Lemma sample_entry_list : entry_list sample_file sample_arrs.
Proof.
  split.
  - vm_compute hdr. split; [done|split; [|done]]. split; [|done]. sample_object.
  - vm_compute. split; done.
  - vm_compute. done.
  - intros i p Hp. exists 64. apply sample_is_entry, (sample_nth i). exact Hp.
  - intros c. done.
Qed.

Lemma sample_sorted key :
  key 288 <= key 352 <= key 416 -> entries_sorted sample_file sample_arrs key.
Proof.
  intros Hk i j p q Hi Hj. rewrite sample_items. change (hdr off_n_entries sample_file) with 3 in Hj.
  assert (i = 0 \/ i = 1 \/ i = 2) as [->|[->| ->]] by lia;
  (assert (j = 0 \/ j = 1 \/ j = 2) as [->|[->| ->]] by lia); intros [= <-] [= <-]; lia.
Qed.

Lemma sample_increasing : offsets_increasing sample_file sample_arrs.
Proof.
  intros i j p q Hi Hj. rewrite sample_items. change (hdr off_n_entries sample_file) with 3 in Hj.
  assert (i = 0 \/ i = 1) as [->| ->] by lia;
  (assert (j = 1 \/ j = 2) as [->| ->] by lia); intros [= <-] [= <-]; lia.
Qed.

(** Seeking sequence number 2 downwards gives the second entry. *)
Lemma seqnum_witness :
  exists c, journal_file_move_to_entry_by_seqnum sample_env 62 2 DIRECTION_DOWN sample_file
            = (Ok (Some (352, 1)), set_cache sample_file c).
Proof.
  destruct (journal_file_move_to_entry_by_seqnum_correct sample_env 62 sample_file sample_arrs
    sample_mmap ltac:(lia) ltac:(simpl; lia) sample_entry_list DIRECTION_DOWN 2
    (sample_sorted (fun p => load64 (jf_mem sample_file) (p + entry_seqnum)) ltac:(vm_compute; split; done)))
    as (c & r & H & _ & Hr & _).
  exists c. rewrite H, Hr; reflexivity.
Defined.

Lemma realtime_witness :
  exists c, journal_file_move_to_entry_by_realtime sample_env 62 25 DIRECTION_UP sample_file
            = (Ok (Some (352, 1)), set_cache sample_file c).
Proof.
  destruct (journal_file_move_to_entry_by_realtime_correct sample_env 62 sample_file sample_arrs
    sample_mmap ltac:(lia) ltac:(simpl; lia) sample_entry_list DIRECTION_UP 25
    (sample_sorted (fun p => load64 (jf_mem sample_file) (p + entry_realtime)) ltac:(vm_compute; split; done)))
    as (c & H & _).
  exists c. rewrite H. f_equal.
Defined.

(** The second entry's successor is the third. *)
Lemma next_entry_witness :
  exists c, journal_file_next_entry sample_env 62 (Some 352) 352 DIRECTION_DOWN sample_file
            = (Ok (Some 416), set_cache sample_file c).
Proof.
  destruct (journal_file_next_entry_correct sample_env 62 sample_mmap ltac:(lia) sample_file sample_arrs
    (Some 352) 352 1 DIRECTION_DOWN ltac:(simpl; lia) sample_entry_list sample_increasing
    ltac:(vm_compute; done) ltac:(split; [done|split; [lia|vm_compute; reflexivity]])) as (c & H & _).
  exists c. rewrite H. f_equal.
Defined.

Lemma plus_one_witness :
  exists c, generic_array_bisect_plus_one sample_env 62 test_object_offset DIRECTION_DOWN 360 288 240 4 sample_file
            = (Ok (Some (416, 3)), set_cache sample_file c).
Proof.
  destruct sample_entry_list as [Hc _ Hz _ Hca].
  destruct (generic_array_bisect_plus_one_correct sample_env 62 test_object_offset DIRECTION_DOWN id 360
    sample_file 288 240 sample_arrs 4 sample_mmap) as (c & r & H & _ & _ & Hr & _).
  - lia.
  - simpl. lia.
  - exact Hc.
  - simpl. lia.
  - exact Hz.
  - apply sample_sorted. unfold id. lia.
  - intros _. split; [exists 64; apply sample_is_entry; by left|reflexivity].
  - intros i p _ Hp. rewrite sample_items in Hp. apply sample_nth in Hp.
    split; [|unfold id; lia]. split; [exists 64; by apply sample_is_entry|].
    destruct Hp as [->|[-> | ->]]; reflexivity.
  - exact Hca.
  - exists c. rewrite H, Hr; reflexivity.
Defined.

(** Seeking upwards to a sequence number past the last entry misses it when the
    entry arrays are full: with three entries in an array of three, the last entry at
    or before sequence number 9 is the third one, and the code finds none. *)
Theorem seek_up_past_full_arrays_misses :
  (journal_file_move_to_entry_by_seqnum sample_env 62 9 DIRECTION_UP sample_file).1 = Ok None
  /\ linear_search DIRECTION_UP (fun p => load64 (jf_mem sample_file) (p + entry_seqnum)) 9
       (entries sample_file sample_arrs) = Some (416, 2).
Proof. vm_compute. split; reflexivity. Qed.
