(* ===== verification/StoreSpec.v ===== *)
(** The contract of the data store: finding is exact, appending inserts into a map,
    and what the code does when the compressor gives up. *)
From S2P Require Import Prelude Lookup3 Uuid Memory JournalDef JournalFile ObjectLemmas ArenaProofs.
From S2P Require Import HashTableProofs DataProofs StoreProofs StoreOps JournalSeek BisectProofs.
From S2P Require Import ArraySearch JournalEntries JournalSamples.

(** C20 journal_file_append_object puts the new object right behind the last one,
    aligned, of the type and size asked for, counts it and makes it the tail; no byte
    of an existing object changes.  When it fails the objects are as before. *)
Theorem journal_file_append_object_layout e f objs p ty size :
  mmap_ok e -> page_ok e -> arena f objs p -> writable f -> 0 < ty < OBJECT_TYPE_MAX ->
  minimum_header_size ty <= size -> p + size < 2 ^ 62 ->
  exists r f' objs' end',
    journal_file_append_object e ty size f = (r, f') /\ arena f' objs' end'
    /\ (forall b t s x, (b, t, s) ∈ objs -> b <= x < b + s -> byte_at (jf_mem f') x = byte_at (jf_mem f) x)
    /\ match r with
       | Ok q => q = p /\ objs' = objs ++ [(p, ty, size)] /\ is_object f' ty p size
           /\ hdr off_tail_object_offset f' = p /\ end' = p + ALIGN64 size
       | Err _ => objs' = objs /\ end' = p
       | _ => False
       end.
Proof.
  intros He Hpage Har Hw Hty Hmin Hsz.
  destruct (append_object_ok e He Hpage f objs p ty size Har Hw Hty Hmin Hsz)
    as (f' & [[Hrun Hap]|(er & Hrun & Hna)]).
  - exists (Ok p), f', (objs ++ [(p, ty, size)]), (p + ALIGN64 size).
    pose proof (ap_arena _ _ _ _ _ _ Hap) as Har'. split_and!; try done.
    + intros b t s x Hb Hx. destruct (arena_object _ _ _ Har _ _ _ Hb) as (_ & ? & ?).
      eapply appended_below; [exact Hap|lia].
    + apply (ap_object _ _ _ _ _ _ Hap).
    + rewrite (ar_tail _ _ _ Har'). unfold tail_offset. by rewrite last_snoc.
  - exists (Err er), f', objs, p. split_and!; [done|apply Hna| |done|done].
    intros b t s x Hb Hx. destruct (arena_object _ _ _ Har _ _ _ Hb) as (_ & ? & ?).
    apply (na_frame _ _ _ _ Hna). unfold off_state. lia.
Qed.

Section Spec.
Context (e : Env) (fuel : nat).
Hypothesis (He : mmap_ok e) (Hpage : page_ok e).

(** A file whose hash chains fit the fuel. *)
Definition store_ready (f : JournalFile) (objs : list (Z * Z * Z)) (end_ : Z) (dch fch : Z -> list Z) : Prop :=
  store e f objs end_ dch fch /\ fuel_for fuel (data_buckets f) dch /\ fuel_for fuel (field_buckets f) fch.

(** journal_file_find_data_object finds a data object exactly when one of the
    objects in the hash table holds the data, compressed or not; what it finds holds
    the data; it fails on no well-formed file and changes nothing. *)
Theorem journal_file_find_data_object_correct f objs end_ dch fch data :
  store_ready f objs end_ dch fch ->
  exists r, journal_file_find_data_object e fuel data f = (Ok r, f)
    /\ match r with
       | Some p => (exists h, 0 <= h < data_buckets f /\ p ∈ dch h) /\ data_of e f p = Some data
       | None => forall h a, 0 <= h < data_buckets f -> a ∈ dch h -> data_of e f a <> Some data
       end.
Proof.
  intros (Hst & Hfd & _). exists (lookup_data e f dch data). split; [by eapply find_data_ok|].
  pose proof (st_data _ _ _ _ _ _ Hst) as Hd. pose proof (sd_table _ _ _ _ _ _ Hd) as Ht.
  pose proof (ht_n _ _ _ _ _ _ _ Ht) as Hn.
  assert (0 <= data_hash64 data mod data_buckets f < data_buckets f) as Hr by (by apply Z.mod_pos_bound).
  unfold lookup_data. destruct (List.find _ _) as [p|] eqn:E.
  - apply List.find_some in E as [Hin Hh%bool_decide_eq_true]. apply list_elem_of_In in Hin. eauto.
  - intros h a Hrh Ha Hda. destruct (sd_good _ _ _ _ _ _ Hd h a Hrh Ha) as [(d & Hd1 & Hd2) _].
    assert (d = data) as -> by congruence.
    assert (h = data_hash64 data mod data_buckets f) as ->.
    { rewrite <- Hd2. symmetry. by apply (ht_hash _ _ _ _ _ _ _ Ht). }
    eapply List.find_none in E; [|by apply list_elem_of_In]. by apply bool_decide_eq_false in E.
Qed.

(** Finding the data in a chain a new object was added to. *)
Lemma lookup_data_add f f' objs objs' end_ dch fch p data x :
  store e f objs end_ dch fch -> extends f objs f' objs' -> data_of e f' p = Some data ->
  lookup_data e f dch data = None ->
  lookup_data e f' (chains_add dch (data_hash64 data mod data_buckets f) p) x
  = if decide (x = data) then Some p else lookup_data e f dch x.
Proof.
  intros Hst Hex Hp Hnone. pose proof Hst as [Har _ Hd _]. pose proof (sd_table _ _ _ _ _ _ Hd) as Ht.
  pose proof (ht_n _ _ _ _ _ _ _ Ht) as Hn.
  unfold lookup_data in *. rewrite (extends_data_buckets _ _ _ _ Hex). unfold chains_add.
  assert (forall h y, 0 <= h < data_buckets f ->
    List.find (holds_data e f' y) (dch h) = List.find (holds_data e f y) (dch h)) as Hsame.
  { intros h y Hr. pose proof (chain_object f objs _ _ _ _ _ Ht h) as Hobj. revert Hobj.
    induction (dch h) as [|a l IH]; intros Hobj; [done|]. cbn [List.find].
    destruct (Hobj a Hr ltac:(constructor)) as [s Hs].
    unfold holds_data at 1 3. rewrite (extends_data_of e _ _ _ _ _ _ _ Har Hex Hs).
    rewrite IH; [done|]. intros b Hb Hin. apply Hobj; [done|by constructor]. }
  assert (forall y, 0 <= data_hash64 y mod data_buckets f < data_buckets f) as Hr by (intros; by apply Z.mod_pos_bound).
  assert (forall y (l : list Z), List.find y (l ++ [p]) = match List.find y l with Some a => Some a | None =>
    if y p then Some p else None end) as Hfind.
  { intros y l. induction l as [|a l IH]; simpl; [done|]. by destruct (y a). }
  destruct (Z.eqb_spec (data_hash64 x mod data_buckets f) (data_hash64 data mod data_buckets f)) as [Heq|Hne].
  - rewrite Hfind, Hsame by done. unfold holds_data at 2. rewrite Hp. case_decide as Hx.
    + subst x. rewrite Hnone. by rewrite bool_decide_eq_true_2.
    + rewrite Heq, bool_decide_eq_false_2 by congruence.
      by destruct (List.find (holds_data e f x) _).
  - rewrite Hsame by done. case_decide; [congruence|done].
Qed.

(** C15 journal_file_append_data is the insertion of a map from data to objects: when
    it returns [p], looking up the data gives [p] from then on and every other data
    gives what it gave before; data that is already there is not stored twice.  The
    file stays well formed whether the call succeeds or fails, it never fails an
    assertion, and what the objects hold does not change. *)
Theorem journal_file_append_data_inserts f objs o dch fch data :
  compress_law e -> payload_fits e f data -> bytes_ok data ->
  store_ready f objs o dch fch -> o + 200 + 2 * zlen data < 2 ^ 62 ->
  exists r f' objs' end' dch' fch',
    journal_file_append_data e fuel data f = (r, f')
    /\ store e f' objs' end' dch' fch' /\ extends f objs f' objs'
    /\ match r with
       | Ok p => data_of e f' p = Some data
           /\ (forall x, lookup_data e f' dch' x = if decide (x = data) then Some p else lookup_data e f dch x)
           /\ (lookup_data e f dch data = Some p -> f' = f)
       | Err _ => True
       | _ => False
       end.
Proof.
  intros Hlaw Hfits Hbytes (Hst & Hfd & Hff) Hsz.
  destruct (append_data_ok e fuel He Hpage f objs o dch fch data Hlaw Hfits Hbytes Hst Hfd Hff Hsz)
    as (r & f' & Hrun & objs' & end' & dch' & fch' & Hst' & Hex & _ & Hr).
  exists r, f', objs', end', dch', fch'. split; [done|]. split; [done|]. split; [done|].
  destruct r as [p| | |]; [|done..]. destruct Hr as (_ & Hp & _ & Hcase). split; [done|].
  destruct Hcase as [(Hl & -> & ->)|(Hl & ->)].
  - split; [|done]. intros x. case_decide as Hx; [by subst x|done].
  - split; [|congruence]. intros x. by eapply lookup_data_add.
Qed.

(** When the compressor gives up on a large payload its negative result is taken
    for a compression flag: the payload is not stored, and the object that
    journal_file_append_data goes on to link cannot be read back. *)
Theorem compress_failure_loses_data f o data :
  jf_compress_xz f = true -> COMPRESSION_SIZE_THRESHOLD <= zlen data -> env_compress e data = None ->
  exists f', append_data_payload e o data f = (Ok tt, f')
    /\ data_compressed f' o = true /\ data_of e f' o = None.
Proof.
  intros Hx Hlen Hc. unfold append_data_payload. run. rewrite Hx.
  destruct (Z.leb_spec COMPRESSION_SIZE_THRESHOLD (zlen data)); [|lia]. simpl andb. cbv iota.
  unfold compress_blob. rewrite Hc.
  assert ((if zlen data <? 80 then None else None) = @None (list Z)) as -> by (by destruct (_ <? _)).
  cbv iota beta zeta. run. eexists. split; [reflexivity|].
  unfold data_of, data_compressed. cbn [set_mem jf_mem]. rewrite byte_at_store8_eq.
  set (fl := byte_at _ _).
  assert (Z.land (u8 (Z.lor fl (u8 (-105))) mod 256) OBJECT_COMPRESSION_MASK = 3) as ->; [|done].
  change (u8 (-105)) with 151. change (Z.land (u8 (Z.lor fl 151) mod 256) OBJECT_COMPRESSION_MASK)
    with (Z.land (u8 (Z.lor fl 151) mod 2 ^ 8) (Z.ones 2)). rewrite Z.land_ones by lia. unfold u8.
  change 256 with (2 ^ 8). rewrite Z.mod_mod by lia.
  apply Z.bits_inj'. intros i Hi. destruct (Z.lt_ge_cases i 2).
  - rewrite !Z.mod_pow2_bits_low, Z.lor_spec by lia.
    assert (i = 0 \/ i = 1) as [-> | ->] by lia; simpl; apply orb_true_r.
  - rewrite Z.mod_pow2_bits_high by lia. change 3 with (Z.ones 2). by rewrite Z.ones_spec_high by lia.
Qed.

End Spec.
