(* ===== verification/StoreSamples.v ===== *)
(** A fresh journal file with two hash tables of one bucket each, on which the
    theorems about the store are applied. *)
From S2P Require Import Prelude Lookup3 Uuid Memory JournalDef JournalFile ObjectLemmas ArenaProofs.
From S2P Require Import HeaderProofs HashTableProofs DataProofs StoreProofs StoreOps JournalSeek.
From S2P Require Import BisectProofs ArraySearch JournalEntries JournalSamples StoreSpec.

Definition fresh_mem : mem :=
  stores [(off_header_size, 240); (off_arena_size, 64); (off_data_hash_table_offset, 256);
          (off_data_hash_table_size, 16); (off_field_hash_table_offset, 288); (off_field_hash_table_size, 16);
          (off_tail_object_offset, 272); (off_n_objects, 2); (240, 4); (248, 32); (272, 5); (280, 32)] ∅.

Definition fresh_file : JournalFile :=
  mkJF fresh_mem 304 304 3 true true true false false sample_metrics [] 256 288 0.

Definition fresh_objs : list (Z * Z * Z) := [(240, 4, 32); (272, 5, 32)].

Definition no_chains : Z -> list Z := fun _ => [].

Lemma fresh_mem_ok : mem_ok fresh_mem.
Proof. unfold fresh_mem, stores, fold_left. repeat apply mem_ok_store64. apply mem_ok_empty. Qed.

Lemma fresh_arena : arena fresh_file fresh_objs 304.
Proof.
  split.
  - apply fresh_mem_ok.
  - vm_compute. split; done.
  - vm_compute hdr. simpl. split_and!; try done;
      (split; [lia|vm_compute; reflexivity..|lia|vm_compute; split; done|vm_compute; done|vm_compute; done]).
  - vm_compute. done.
  - vm_compute. done.
  - vm_compute. split; done.
  - vm_compute. done.
  - vm_compute. done.
Qed.

Lemma fresh_side K `{!KindLaws K} tbl s :
  (tbl - hash_table_items, k_tty K, s) ∈ fresh_objs -> 32 <= s ->
  load64 fresh_mem tbl = 0 -> load64 fresh_mem (tbl + 8) = 0 -> side K fresh_file fresh_objs tbl 1 no_chains.
Proof.
  intros Hin Hs H1 H2. split; [split|].
  - lia.
  - exists s. split; [done|unfold hash_table_items; lia].
  - intros h Hh. assert (h = 0) as -> by lia. unfold head_hash_offset. rewrite Z.mul_0_r, Z.add_0_r. exact H1.
  - intros h Hh. assert (h = 0) as -> by lia. unfold tail_hash_offset. rewrite Z.mul_0_r, Z.add_0_r. exact H2.
  - intros h a _ Ha. by apply not_elem_of_nil in Ha.
  - intros h _. constructor.
  - intros h a _ Ha. by apply not_elem_of_nil in Ha.
Qed.

Lemma fresh_ready fuel : store_ready sample_env fuel fresh_file fresh_objs 304 no_chains no_chains.
Proof.
  split_and!; [|intros h _; simpl; lia..]. split.
  - apply fresh_arena.
  - split; [done|done|done|]. right. vm_compute. done.
  - apply (fresh_side (data_kind sample_env) 256 32); [constructor|lia|vm_compute; done..].
  - apply (fresh_side field_kind 288 32); [constructor; constructor|lia|vm_compute; done..].
Qed.

Lemma sample_page : page_ok sample_env.
Proof. exists 12. split; [lia|done]. Qed.

(** "A=B" *)
Definition sample_data : list Z := [65; 61; 66].

Lemma find_data_witness :
  exists r, journal_file_find_data_object sample_env 10 sample_data fresh_file = (Ok r, fresh_file)
    /\ match r with
       | Some p => (exists h, 0 <= h < data_buckets fresh_file /\ p ∈ no_chains h)
                   /\ data_of sample_env fresh_file p = Some sample_data
       | None => forall h a, 0 <= h < data_buckets fresh_file -> a ∈ no_chains h ->
                   data_of sample_env fresh_file a <> Some sample_data
       end.
Proof.
  exact (journal_file_find_data_object_correct sample_env 10 sample_mmap fresh_file fresh_objs 304
    no_chains no_chains sample_data (fresh_ready 10)).
Defined.

(** Appending "A=B" returns the first free offset, which holds it. *)
Lemma append_data_witness :
  exists f', journal_file_append_data sample_env 10 sample_data fresh_file = (Ok 304, f')
    /\ data_of sample_env f' 304 = Some sample_data.
Proof.
  destruct (journal_file_append_data_inserts sample_env 10 sample_mmap sample_page fresh_file fresh_objs 304
    no_chains no_chains sample_data) as (r & f' & objs' & end' & dch' & fch' & Hrun & _ & _ & Hr).
  - intros src b H. discriminate H.
  - intros _ H. vm_compute in H. by destruct H.
  - repeat constructor; unfold is_u8; lia.
  - apply fresh_ready.
  - vm_compute. done.
  - exists f'. assert (r = Ok 304) as ->.
    { change r with (r, f').1. rewrite <- Hrun. vm_compute. reflexivity. }
    split; [exact Hrun|]. apply Hr.
Defined.

Lemma compress_failure_witness :
  exists f', append_data_payload sample_env 304 (replicate 512 65) fresh_file = (Ok tt, f')
    /\ data_compressed f' 304 = true /\ data_of sample_env f' 304 = None.
Proof.
  apply (compress_failure_loses_data sample_env fresh_file 304 (replicate 512 65)).
  - reflexivity.
  - vm_compute. discriminate.
  - reflexivity.
Defined.

Lemma fresh_writable : writable fresh_file.
Proof. split; [done|done|done|]. right. vm_compute. done. Qed.

Lemma set_offline_witness :
  writable fresh_file
  /\ exists m, journal_file_set_offline fresh_file = (Ok tt, set_mem fresh_file m) /\ byte_at m off_state = STATE_OFFLINE
    /\ agree (fun a => a <> off_state) (jf_mem fresh_file) m
    /\ exists m', journal_file_set_online (set_mem fresh_file m) = (Ok tt, set_mem fresh_file m')
         /\ byte_at m' off_state = STATE_ONLINE /\ agree (fun a => a <> off_state) (jf_mem fresh_file) m'.
Proof. split; [apply fresh_writable|exact (set_offline_set_online fresh_file fresh_writable)]. Defined.

Lemma init_header_witness :
  exists m, journal_file_init_header sample_env (replicate 16 7) None fresh_file
            = (Ok tt, set_sizes (set_mem fresh_file m) 304 304).
Proof.
  destruct (init_header_verify_header sample_env fresh_file (replicate 16 7) None eq_refl eq_refl eq_refl)
    as (m & H & _).
  exists m. exact H.
Defined.

Lemma entry_seqnum_witness :
  exists r f', journal_file_entry_seqnum false fresh_file = (Ok r, f') /\ r = 0 + 1.
Proof.
  destruct (journal_file_entry_seqnum_grows fresh_file false fresh_mem_ok ltac:(vm_compute; done)
    ltac:(vm_compute; split; done)) as (r & f' & H & _ & _ & Hr & _).
  exists r, f'. split; [exact H|]. exact (proj1 (Hr eq_refl)).
Defined.

Lemma allocate_witness :
  exists f', journal_file_allocate sample_env 304 64 fresh_file = (Ok tt, f') /\ 304 + 64 <= arena_end f'.
Proof.
  destruct (journal_file_allocate_covers sample_env fresh_file 304 64 sample_page fresh_mem_ok
    ltac:(vm_compute; split; done) ltac:(vm_compute; done) ltac:(lia) ltac:(lia) ltac:(vm_compute; done))
    as (r & f' & H & Hr).
  exists f'. assert (r = Ok tt) as ->.
  { change r with (r, f').1. rewrite <- H. vm_compute. reflexivity. }
  split; [exact H|apply Hr].
Defined.

Lemma append_object_witness :
  exists f', journal_file_append_object sample_env OBJECT_ENTRY 64 fresh_file = (Ok 304, f')
    /\ is_object f' OBJECT_ENTRY 304 64.
Proof.
  destruct (journal_file_append_object_layout sample_env fresh_file fresh_objs 304 OBJECT_ENTRY 64
    sample_mmap sample_page fresh_arena fresh_writable ltac:(done) ltac:(done) ltac:(done))
    as (r & f' & objs' & end' & H & _ & _ & Hr).
  exists f'. assert (r = Ok 304) as ->.
  { change r with (r, f').1. rewrite <- H. vm_compute. reflexivity. }
  split; [exact H|apply Hr].
Defined.
