(* ===== verification/EntryArrayProofs.v ===== *)
(** link_entry_into_array adds an entry at the end of the sequence an entry array
    chain holds: into the last array when there is room, else into a new array that
    is hooked to the end of the chain. *)
From S2P Require Import Prelude Lookup3 Uuid Memory JournalDef JournalFile ObjectLemmas ArenaProofs.
From S2P Require Import HashTableProofs DataProofs StoreProofs StoreOps JournalSeek BisectProofs.
From S2P Require Import JournalSamples StoreSamples.

(** Nothing was ever written at or above [end_]. *)
Definition zero_above (f : JournalFile) (end_ : Z) : Prop :=
  forall a, end_ <= a -> byte_at (jf_mem f) a = 0.

(** A chain of entry arrays of the arena. *)
Record echain (f : JournalFile) (objs : list (Z * Z * Z)) (a : Z) (arrs : list (Z * Z)) : Prop := {
  ec_chain : chain f a arrs;
  ec_objs : forall b k, (b, k) ∈ arrs -> (b, OBJECT_ENTRY_ARRAY, entry_array_items + 8 * k) ∈ objs;
  ec_nodup : NoDup arrs.*1 }.

(** The place the chain's first array is noted at: a field of the file header or of
    a data object, not used for anything else. *)
Definition head_slot (objs : list (Z * Z * Z)) (first : Z) : Prop :=
  (off_n_entries <= first /\ first + 8 <= off_n_entry_arrays)
  \/ exists b s, (b, OBJECT_DATA, s) ∈ objs /\ b + 16 <= first /\ first + 8 <= b + data_payload.

(** The walk finds the array that has index [i], or the end of the chain. *)
Lemma link_walk_ok e f : mmap_ok e -> forall arrs n a i ap k0,
  chain f a arrs -> 0 <= i -> (length arrs <= n)%nat ->
  exists res, link_walk e n a i ap k0 f = (Ok res, f)
    /\ match res with
       | inl (o, j) => exists pre k suf, arrs = pre ++ (o, k) :: suf /\ j = i - caps pre /\ 0 <= j < k
       | inr (j, ap', k') => caps arrs <= i /\ j = i - caps arrs
           /\ (ap', k') = default (ap, k0) (last arrs)
       end.
Proof.
  intros He. induction arrs as [|[b k] arrs IH]; intros n a i ap k0 Hc Hi Hn.
  { cbn in Hc. subst a. exists (inr (i, ap, k0)). split; [by destruct n|]. simpl. split_and!; [lia|lia|done]. }
  destruct Hc as (<- & Harr & Hnext). destruct n as [|n]; [simpl in Hn; lia|].
  assert (0 < a) by apply Harr. assert (0 < k) by apply Harr.
  cbn [link_walk]. destruct (Z.eqb_spec a 0); [lia|].
  rewrite (run_bind _ _ _ _ _ (move_to_array e f a k He Harr)).
  rewrite (run_bind _ _ _ _ _ (n_items_ok f a k Harr)).
  destruct (Z.ltb_spec i k).
  - exists (inl (a, i)). split; [done|]. exists [], k, arrs. simpl. split_and!; [done|lia..].
  - run. destruct (IH n (load64 (jf_mem f) (a + entry_array_next)) (i - k) a k Hnext) as (res & -> & Hres);
      [lia|simpl in Hn; lia|].
    exists res. split; [done|]. destruct res as [[o j]|[[j ap'] k']].
    + destruct Hres as (pre & k' & suf & -> & -> & Hr). exists ((a, k) :: pre), k', suf. simpl.
      split_and!; [done|lia..].
    + destruct Hres as (Hle & -> & Hap). cbn [caps]. split_and!; [lia|lia|].
      destruct arrs as [|x arrs]; [exact Hap|].
      change (last ((a, k) :: x :: arrs)) with (last (x :: arrs)).
      destruct (last (x :: arrs)) eqn:El; [exact Hap|by apply last_None in El].
Qed.

(** What the arrays hold depends on their own bytes. *)
Lemma chain_arrays_agree f f' objs end_ a arrs :
  arena f objs end_ -> chain f a arrs ->
  (forall b k, (b, k) ∈ arrs -> (b, OBJECT_ENTRY_ARRAY, entry_array_items + 8 * k) ∈ objs) ->
  jf_last_size f <= jf_last_size f' < 2 ^ 63 ->
  (forall b k x, (b, k) ∈ arrs -> b <= x < b + entry_array_items -> byte_at (jf_mem f') x = byte_at (jf_mem f) x) ->
  chain f' a arrs.
Proof.
  intros Har. revert a. induction arrs as [|[b k] arrs IH]; intros a; [done|].
  intros (-> & [Ho Hk] & Hc) Hin Hsz Hag. unfold entry_array_items in *.
  split_and!; [done|split; [|done]|].
  - eapply is_object_agree; [done| |done]. intros x Hx. cbn beta in Hx. eapply (Hag b k); [constructor|lia].
  - assert (load64 (jf_mem f') (b + entry_array_next) = load64 (jf_mem f) (b + entry_array_next)) as ->.
    { apply load64_ext. intros x Hx. eapply (Hag b k); [constructor|]. unfold entry_array_next in Hx. lia. }
    apply IH; [done|intros; apply Hin; by constructor|done|]. intros c j x Hcin Hx.
    eapply (Hag c j); [by constructor|done].
Qed.

Lemma items_agree f f' arrs :
  (forall b k x, (b, k) ∈ arrs -> b + entry_array_items <= x < b + entry_array_items + 8 * k ->
     byte_at (jf_mem f') x = byte_at (jf_mem f) x) ->
  items f' arrs = items f arrs.
Proof.
  induction arrs as [|[b k] arrs IH]; intros Hag; [done|]. rewrite !items_cons. f_equal.
  - unfold arr_items. simpl. apply map_ext_in. intros i Hi%list_elem_of_In%elem_of_seqZ.
    apply load64_ext. intros x Hx. eapply (Hag b k); [constructor|]. unfold array_item in Hx. lia.
  - apply IH. intros c j x Hc Hx. eapply (Hag c j); [by constructor|done].
Qed.

(** * There is room *)

Lemma arr_items_store f o k j p :
  0 <= j < k -> is_u64 p ->
  arr_items (set_mem f (store64 (jf_mem f) (array_item o j) p)) (o, k)
  = <[Z.to_nat j := p]> (arr_items f (o, k)).
Proof.
  intros Hj Hp. apply list_eq. intros i. unfold arr_items. simpl.
  destruct (decide (i < Z.to_nat k)%nat) as [Hi|Hi].
  - rewrite list_lookup_fmap, lookup_seqZ_lt by lia. simpl.
    destruct (decide (i = Z.to_nat j)) as [->|Hne].
    + rewrite list_lookup_insert_eq by (rewrite length_map, length_seqZ; lia).
      f_equal. unfold arr_item. cbn [set_mem jf_mem]. replace (0 + Z.of_nat (Z.to_nat j)) with j by lia.
      by apply load64_store64_eq.
    + rewrite list_lookup_insert_ne by done. rewrite list_lookup_fmap, lookup_seqZ_lt by lia. simpl.
      f_equal. unfold arr_item. cbn [set_mem jf_mem]. apply load64_store64_ne. unfold array_item. lia.
  - rewrite !lookup_ge_None_2; [done|rewrite length_insert|]; rewrite length_map, length_seqZ; lia.
Qed.

(** Writing into the slot after the items in use appends to them. *)
Lemma items_store f pre o k suf j p n :
  Forall (fun ak => 0 < ak.2) (pre ++ (o, k) :: suf) -> 0 <= j < k -> n = caps pre + j -> is_u64 p ->
  (forall b k' x, (b, k') ∈ pre ++ suf -> b + entry_array_items <= x < b + entry_array_items + 8 * k' ->
     x < array_item o j \/ array_item o j + 8 <= x) ->
  take (Z.to_nat (n + 1)) (items (set_mem f (store64 (jf_mem f) (array_item o j) p)) (pre ++ (o, k) :: suf))
  = take (Z.to_nat n) (items f (pre ++ (o, k) :: suf)) ++ [p].
Proof.
  intros Hpos Hj -> Hp Hdis. set (f' := set_mem f _).
  assert (items f' (pre ++ (o, k) :: suf)
          = <[Z.to_nat (caps pre + j) := p]> (items f (pre ++ (o, k) :: suf))) as ->.
  { assert (Forall (fun ak => 0 < ak.2) pre) as Hpre by (by apply Forall_app in Hpos as [? _]).
    pose proof (caps_nonneg _ Hpre) as Hc. pose proof (items_caps f _ Hpre) as Hlen.
    rewrite !items_app, !items_cons.
    rewrite insert_app_r_alt by lia. rewrite insert_app_l by (rewrite arr_items_length; lia).
    replace (Z.to_nat (caps pre + j) - length (items f pre))%nat with (Z.to_nat j) by lia.
    unfold f'. rewrite arr_items_store by done. f_equal; [|f_equal]; apply items_agree;
      intros b k' x Hb Hx; apply byte_at_store64_ne.
    - pose proof (Hdis b k' x ltac:(apply elem_of_app; by left) Hx). lia.
    - pose proof (Hdis b k' x ltac:(apply elem_of_app; by right) Hx). lia. }
  assert (0 <= caps pre) by (apply caps_nonneg; by apply Forall_app in Hpos as [? _]).
  pose proof (items_caps f _ Hpos) as Hlen. rewrite caps_app in Hlen. cbn [caps] in Hlen.
  assert (0 <= caps suf).
  { apply caps_nonneg. apply Forall_app in Hpos as [_ Hs]. by inversion Hs. }
  replace (Z.to_nat (caps pre + j + 1)) with (S (Z.to_nat (caps pre + j))) by lia.
  rewrite (take_S_r _ _ p) by (apply list_lookup_insert_eq; lia). by rewrite take_insert_ge by lia.
Qed.

(** Hooking an array to the end of a chain. *)
Lemma chain_snoc f f' a arrs l ap kap q k :
  arrs = l ++ [(ap, kap)] -> chain f a arrs -> NoDup arrs.*1 ->
  (forall b kb, (b, kb) ∈ arrs -> is_array f b kb -> is_array f' b kb) ->
  (forall b kb, (b, kb) ∈ arrs -> b <> ap ->
     load64 (jf_mem f') (b + entry_array_next) = load64 (jf_mem f) (b + entry_array_next)) ->
  load64 (jf_mem f') (ap + entry_array_next) = q ->
  is_array f' q k -> load64 (jf_mem f') (q + entry_array_next) = 0 ->
  chain f' a (arrs ++ [(q, k)]).
Proof.
  intros Hl Hc Hnd Harr Hsame Hap Hq Hz. revert l a Hl Hc Hnd Harr Hsame.
  induction arrs as [|[b kb] arrs IH]; intros l a Hl Hc Hnd Harr Hsame; [by destruct l|].
  destruct Hc as (-> & Hb & Hc). simpl. split; [done|]. split; [apply Harr; [constructor|done]|].
  destruct l as [|x l].
  - injection Hl as -> -> ->. simpl. rewrite Hap. done.
  - injection Hl as <- Hl. rewrite fmap_cons in Hnd. apply NoDup_cons in Hnd as [Hni Hnd].
    rewrite (Hsame b kb); [|constructor|].
    + apply (IH l _ Hl Hc Hnd).
      * intros b' kb' Hb' H. apply Harr; [by constructor|done].
      * intros b' kb' Hb' H. apply (Hsame b' kb'); [by constructor|done].
    + intros ->. apply Hni. rewrite Hl, fmap_app. apply elem_of_app. right. constructor.
Qed.

(** * The chain after a link *)

(** Everything the theorem promises of a successful link. *)
Record linked (f : JournalFile) (arrs : list (Z * Z)) (n p first : Z)
    (f' : JournalFile) (objs' : list (Z * Z * Z)) (end' : Z) (arrs' : list (Z * Z)) : Prop := {
  li_arena : arena f' objs' end';
  li_zero : zero_above f' end';
  li_chain : echain f' objs' (load64 (jf_mem f') first) arrs';
  li_caps : n + 1 <= caps arrs';
  li_items : take (Z.to_nat (n + 1)) (items f' arrs') = take (Z.to_nat n) (items f arrs) ++ [p] }.

(** What else a link does: it may add an array behind the arena, and writes nothing
    but the head slot, the arrays of its chain and the header fields an allocation
    changes. *)
Record link_effect (f : JournalFile) (objs : list (Z * Z * Z)) (end_ : Z) (arrs : list (Z * Z)) (first n : Z)
    (f' : JournalFile) (objs' : list (Z * Z * Z)) (end' : Z) (arrs' : list (Z * Z)) : Prop := {
  le_handle : same_handle f f';
  le_writable : writable f -> writable f';
  le_last : jf_last_size f <= jf_last_size f' < 2 ^ 63;
  le_objs : objs' = objs \/ exists k, objs' = objs ++ [(end_, OBJECT_ENTRY_ARRAY, entry_array_items + 8 * k)];
  le_arrs : forall b k, (b, k) ∈ arrs' -> (b, k) ∈ arrs \/ b = end_;
  le_end : end_ <= end' <= end_ + 64 + 16 * n;
  le_frame : forall x, x <> off_state -> ~ (off_arena_size <= x < off_arena_size + 8) ->
    ~ (off_tail_object_offset <= x < off_n_objects + 8) -> ~ (off_n_entry_arrays <= x < off_n_entry_arrays + 8) ->
    ~ (first <= x < first + 8) -> (forall b k, (b, k) ∈ arrs -> ~ (b + 16 <= x < b + entry_array_items + 8 * k)) ->
    x < end_ \/ end' <= x -> byte_at (jf_mem f') x = byte_at (jf_mem f) x }.

Section Link.
Context (e : Env) (f : JournalFile) (objs : list (Z * Z * Z)) (end_ : Z) (arrs : list (Z * Z))
  (first p n : Z).
Hypothesis (Har : arena f objs end_) (Hz : zero_above f end_)
  (Hc : echain f objs (load64 (jf_mem f) first) arrs) (Hfirst : head_slot objs first)
  (Hp : is_u64 p) (Hn : 0 <= n <= caps arrs).

Lemma arrs_pos : Forall (fun ak => 0 < ak.2) arrs.
Proof. eapply chain_pos, ec_chain, Hc. Qed.

Lemma array_bounds b k : (b, k) ∈ arrs -> 240 <= b /\ b + entry_array_items + 8 * k <= end_ /\ 0 < k.
Proof.
  intros Hb. destruct (arena_object _ _ _ Har _ _ _ (ec_objs _ _ _ _ Hc b k Hb)) as (_ & ? & ?).
  pose proof (proj1 (Forall_forall _ _) arrs_pos _ Hb). simpl in *. lia.
Qed.

Lemma array_disjoint b k b' k' :
  (b, k) ∈ arrs -> (b', k') ∈ arrs -> b <> b' ->
  b + entry_array_items + 8 * k <= b' \/ b' + entry_array_items + 8 * k' <= b.
Proof.
  intros Hb Hb' Hne. pose proof (arena_disjoint _ _ _ Har _ _ _ _ _ _
    (ec_objs _ _ _ _ Hc b k Hb) (ec_objs _ _ _ _ Hc b' k' Hb') Hne). lia.
Qed.

Lemma head_slot_array b k x :
  (b, k) ∈ arrs -> first <= x < first + 8 -> x < b \/ b + entry_array_items + 8 * k <= x.
Proof.
  intros Hb Hx. destruct (array_bounds b k Hb) as (? & ? & ?).
  destruct Hfirst as [[? ?]|(d & s & Hd & ? & ?)].
  - unfold off_n_entry_arrays in *. lia.
  - destruct (arena_object _ _ _ Har _ _ _ Hd) as (Ho & _). pose proof (obj_min _ _ _ _ Ho) as Hm. cbn in Hm.
    pose proof (ec_objs _ _ _ _ Hc b k Hb) as Hbo.
    destruct (Z.eq_dec d b) as [->|Hne].
    + by destruct (arena_object_unique _ _ _ Har _ _ _ _ _ Hd Hbo).
    + destruct (arena_disjoint _ _ _ Har _ _ _ _ _ _ Hd Hbo Hne); unfold data_payload in *; lia.
Qed.

Lemma link_room pre o k suf j :
  arrs = pre ++ (o, k) :: suf -> 0 <= j < k -> n = caps pre + j ->
  linked f arrs n p first (set_mem f (store64 (jf_mem f) (array_item o j) p)) objs end_ arrs.
Proof.
  intros Ha Hj Hnj. set (f' := set_mem f _).
  assert ((o, k) ∈ arrs) as Ho by (rewrite Ha; apply elem_of_app; right; constructor).
  destruct (array_bounds o k Ho) as (Ho1 & Ho2 & Ho3).
  pose proof (ec_objs _ _ _ _ Hc o k Ho) as Hobj. unfold entry_array_items in *.
  assert (forall x, x < array_item o j \/ array_item o j + 8 <= x -> byte_at (jf_mem f') x = byte_at (jf_mem f) x) as Hag.
  { intros x Hx. apply byte_at_store64_ne. lia. }
  assert (forall b k' x, (b, k') ∈ arrs -> b <= x < b + 24 -> x < array_item o j \/ array_item o j + 8 <= x) as Hheads.
  { intros b k' x Hb Hx. destruct (array_bounds b k' Hb) as (? & ? & ?). unfold array_item, entry_array_items in *.
    destruct (Z.eq_dec b o) as [->|Hne]; [lia|].
    destruct (array_disjoint _ _ _ _ Hb Ho Hne); unfold entry_array_items in *; lia. }
  split.
  - apply arena_set_mem; [done|apply mem_ok_store64, Har|]. intros x [Hx|[Hx|(b & ty & s & Hb & Hx)]]; apply Hag;
      unfold array_item, entry_array_items in *.
    + unfold off_arena_size in Hx. lia.
    + unfold off_n_objects in Hx. lia.
    + unfold sizeof_ObjectHeader in Hx.
      pose proof (object_header_frame _ _ _ _ _ _ x _ _ _ Har Hb Hx Hobj).
      destruct (arena_object _ _ _ Har _ _ _ Hb) as (Hbo & _). pose proof (object_ALIGN64 _ _ _ _ Hbo).
      destruct (Z.eq_dec b o) as [->|Hne]; [lia|].
      destruct (arena_disjoint _ _ _ Har _ _ _ _ _ _ Hb Hobj Hne); lia.
  - intros x Hx. rewrite Hag; [by apply Hz|]. unfold array_item, entry_array_items. lia.
  - assert (load64 (jf_mem f') first = load64 (jf_mem f) first) as ->.
    { apply load64_ext. intros x Hx. apply Hag. pose proof (head_slot_array o k x Ho Hx).
      unfold array_item, entry_array_items in *. lia. }
    destruct Hc as [Hch Hin Hnd]. split; [|done|done].
    eapply chain_arrays_agree; [exact Har|exact Hch|exact Hin| |].
    + cbn. pose proof (ar_arena _ _ _ Har). pose proof (ar_size _ _ _ Har). lia.
    + intros b k' x Hb Hx. apply Hag. by eapply Hheads.
  - rewrite Ha, caps_app. cbn [caps]. assert (0 <= caps suf).
    { apply caps_nonneg. pose proof arrs_pos as Hpos. rewrite Ha in Hpos. apply Forall_app in Hpos as [_ Hs]. by inversion Hs. }
    lia.
  - unfold f'. rewrite Ha. apply items_store; [rewrite <- Ha; apply arrs_pos|done|done|done|].
    intros b k' x Hb Hx.
    assert ((b, k') ∈ arrs) as Hb' by (rewrite Ha; apply elem_of_app in Hb as [?|?]; apply elem_of_app; [by left|right; by constructor]).
    assert (b <> o) as Hne.
    { intros ->. pose proof (ec_nodup _ _ _ _ Hc) as Hnd. rewrite Ha, fmap_app, fmap_cons in Hnd.
      apply NoDup_app in Hnd as (_ & Hnd1 & Hnd2). apply NoDup_cons in Hnd2 as [Hnd2 _].
      apply elem_of_app in Hb as [Hb|Hb]; apply (list_elem_of_fmap_2 fst) in Hb; simpl in Hb.
      - apply (Hnd1 _ Hb). constructor.
      - done. }
    unfold array_item, entry_array_items in *.
    destruct (array_disjoint _ _ _ _ Hb' Ho Hne); unfold entry_array_items in *; lia.
Qed.

Lemma link_room_effect pre o k suf j :
  arrs = pre ++ (o, k) :: suf -> 0 <= j < k ->
  link_effect f objs end_ arrs first n (set_mem f (store64 (jf_mem f) (array_item o j) p)) objs end_ arrs.
Proof.
  intros Ha Hj. assert ((o, k) ∈ arrs) as Ho by (rewrite Ha; apply elem_of_app; right; constructor).
  destruct (array_bounds o k Ho) as (? & ? & ?).
  pose proof (ar_arena _ _ _ Har). pose proof (ar_size _ _ _ Har).
  assert (forall x, ~ (o + 16 <= x < o + entry_array_items + 8 * k) ->
    byte_at (store64 (jf_mem f) (array_item o j) p) x = byte_at (jf_mem f) x) as Hag.
  { intros x Hx. apply byte_at_store64_ne. unfold array_item, entry_array_items in *. lia. }
  split; [done| |cbn; lia|by left|by left|lia|intros; apply Hag; eauto].
  intros Hw. apply writable_set_mem; [done|]. apply Hag. unfold off_state, entry_array_items in *. lia.
Qed.

(** ** A new array *)

(** The slot a new array is noted in: the head slot or the last array's link. *)
Definition new_slot : Z :=
  match last arrs with None => first | Some (ap, _) => ap + entry_array_next end.

Definition new_array_mem (m : mem) (q : Z) : mem :=
  count_mem (store64 (store64 m (array_item q 0) p) new_slot q) off_n_entry_arrays.

Lemma new_slot_cases :
  (arrs = [] /\ new_slot = first)
  \/ exists l ap k, arrs = l ++ [(ap, k)] /\ (ap, k) ∈ arrs /\ new_slot = ap + entry_array_next.
Proof.
  unfold new_slot. destruct (last arrs) as [[ap k]|] eqn:E.
  - right. apply last_Some in E as [l E]. exists l, ap, k. split_and!; [done| |done].
    rewrite E. apply elem_of_app. right. constructor.
  - left. by apply last_None in E.
Qed.

Section NewArray.
Context (f1 : JournalFile) (k : Z).
Let q := end_.
Let objs1 := objs ++ [(q, OBJECT_ENTRY_ARRAY, entry_array_items + 8 * k)].
Hypothesis (Hap : appended f f1 objs q OBJECT_ENTRY_ARRAY (entry_array_items + 8 * k)) (Hk : 0 < k).
Let f' := set_mem f1 (new_array_mem (jf_mem f1) q).

(** The slot is below the new array and apart from everything else. *)
Lemma new_slot_range :
  off_n_entries <= new_slot /\ new_slot + 8 <= q /\ (new_slot < 240 -> new_slot + 8 <= off_n_entry_arrays).
Proof.
  assert (q = end_) as Hq by done. pose proof (ap_pos _ _ _ _ _ _ Hap). unfold off_n_entries, off_n_entry_arrays.
  destruct new_slot_cases as [[_ ->]|(l & ap & k' & _ & Hin & ->)].
  - destruct Hfirst as [[? ?]|(d & s & Hd & ? & ?)].
    + unfold off_n_entries, off_n_entry_arrays in *. lia.
    + destruct (arena_object _ _ _ Har _ _ _ Hd) as (Ho & ? & ?). pose proof (obj_min _ _ _ _ Ho) as Hm.
      cbn in Hm. lia.
  - destruct (array_bounds ap k' Hin). unfold entry_array_next, entry_array_items in *. lia.
Qed.

Lemma na_same x :
  x <> off_state -> ~ (off_arena_size <= x < off_arena_size + 8) ->
  ~ (off_tail_object_offset <= x < off_n_objects + 8) -> ~ (q <= x < q + 16) ->
  ~ (off_n_entry_arrays <= x < off_n_entry_arrays + 8) -> ~ (new_slot <= x < new_slot + 8) ->
  ~ (q + 24 <= x < q + 32) -> byte_at (jf_mem f') x = byte_at (jf_mem f) x.
Proof.
  intros H1 H2 H3 H4 H5 H6 H7. cbn. unfold new_array_mem.
  rewrite (count_mem_frame _ off_n_entry_arrays) by lia.
  rewrite byte_at_store64_ne by lia. rewrite byte_at_store64_ne by (unfold array_item, entry_array_items; lia).
  apply (ap_frame _ _ _ _ _ _ Hap). unfold append_frame, sizeof_ObjectHeader. tauto.
Qed.

Lemma na_f1 x :
  ~ (off_n_entry_arrays <= x < off_n_entry_arrays + 8) -> ~ (new_slot <= x < new_slot + 8) ->
  ~ (q + 24 <= x < q + 32) -> byte_at (jf_mem f') x = byte_at (jf_mem f1) x.
Proof.
  intros H5 H6 H7. cbn. unfold new_array_mem. rewrite (count_mem_frame _ off_n_entry_arrays) by lia.
  rewrite byte_at_store64_ne by lia. rewrite byte_at_store64_ne by (unfold array_item, entry_array_items; lia). done.
Qed.

Lemma na_slot : load64 (jf_mem f') new_slot = q.
Proof.
  pose proof new_slot_range as (? & ? & ?). pose proof (ap_last _ _ _ _ _ _ Hap).
  pose proof (ap_object _ _ _ _ _ _ Hap) as Ho. destruct Ho. pose proof (ap_pos _ _ _ _ _ _ Hap).
  cbn [f' set_mem jf_mem]. unfold f', new_array_mem. cbn [set_mem jf_mem].
  transitivity (load64 (store64 (store64 (jf_mem f1) (array_item q 0) p) new_slot q) new_slot).
  - apply (agree_load64 _ _ _ _ (count_mem_frame _ off_n_entry_arrays)). intros x Hx.
    unfold off_n_entries, off_n_entry_arrays in *. lia.
  - apply load64_store64_eq. unfold is_u64. unfold entry_array_items in *. lia.
Qed.

Lemma na_item : load64 (jf_mem f') (array_item q 0) = p.
Proof.
  pose proof new_slot_range as (? & ? & ?). pose proof (ap_pos _ _ _ _ _ _ Hap).
  unfold f', new_array_mem. cbn [set_mem jf_mem].
  transitivity (load64 (store64 (store64 (jf_mem f1) (array_item q 0) p) new_slot q) (array_item q 0)).
  - apply (agree_load64 _ _ _ _ (count_mem_frame _ off_n_entry_arrays)). intros x Hx.
    unfold array_item, entry_array_items, off_n_entry_arrays in *. lia.
  - rewrite load64_store64_ne by (unfold array_item, entry_array_items; lia). by apply load64_store64_eq.
Qed.

Lemma na_next : load64 (jf_mem f') (q + entry_array_next) = 0.
Proof.
  pose proof new_slot_range as (? & ? & ?). pose proof (ap_pos _ _ _ _ _ _ Hap).
  apply load64_zero. intros x Hx. unfold entry_array_next in Hx.
  assert (q = end_) as Hq by done. rewrite na_same; [apply Hz; lia|..];
    unfold off_state, off_arena_size, off_tail_object_offset, off_n_objects, off_n_entry_arrays; lia.
Qed.

(** The old arrays keep everything but the link of the last one. *)
Lemma na_array b kb x :
  (b, kb) ∈ arrs -> b <= x < b + entry_array_items + 8 * kb -> ~ (new_slot <= x < new_slot + 8) ->
  byte_at (jf_mem f') x = byte_at (jf_mem f) x.
Proof.
  intros Hb Hx Hs. assert (q = end_) as Hq by done. destruct (array_bounds b kb Hb) as (? & ? & ?).
  apply na_same; unfold off_state, off_arena_size, off_tail_object_offset, off_n_objects, off_n_entry_arrays; lia.
Qed.

Lemma na_slot_array b kb x :
  (b, kb) ∈ arrs -> b <= x < b + entry_array_items + 8 * kb ->
  x < b + entry_array_next \/ b + entry_array_items <= x \/ (forall l ap k', arrs = l ++ [(ap, k')] -> b <> ap) ->
  ~ (new_slot <= x < new_slot + 8).
Proof.
  intros Hb Hx Hcase Hs. destruct new_slot_cases as [[E _]|(l & ap & k' & E & Hin & Hns)].
  - rewrite E in Hb. by apply not_elem_of_nil in Hb.
  - rewrite Hns in Hs. unfold entry_array_next, entry_array_items in *.
    destruct (Z.eq_dec b ap) as [->|Hne].
    + destruct Hcase as [?|[?|Hd]]; [lia|lia|]. by apply (Hd l ap k').
    + destruct (array_disjoint _ _ _ _ Hb Hin Hne); destruct (array_bounds ap k' Hin);
        unfold entry_array_items in *; lia.
Qed.

Lemma na_is_array b kb : (b, kb) ∈ arrs -> is_array f b kb -> is_array f' b kb.
Proof.
  intros Hb [Ho Hkb]. split; [|done]. pose proof (ap_last _ _ _ _ _ _ Hap).
  eapply is_object_agree; [exact Ho| |done]. intros x Hx. cbn beta in Hx.
  apply (na_array b kb); [done|unfold entry_array_items; lia|].
  apply (na_slot_array b kb); [done|unfold entry_array_items; lia|unfold entry_array_next; lia].
Qed.

Lemma na_new : is_array f' q k.
Proof.
  split; [|done]. pose proof (ap_last _ _ _ _ _ _ Hap). pose proof new_slot_range as (? & ? & ?).
  pose proof (ap_pos _ _ _ _ _ _ Hap).
  eapply is_object_agree; [apply (ap_object _ _ _ _ _ _ Hap)| |cbn; lia].
  intros x Hx. cbn beta in Hx. apply na_f1; unfold off_n_entry_arrays; lia.
Qed.

Lemma na_arena : arena f' objs1 (q + ALIGN64 (entry_array_items + 8 * k)).
Proof.
  pose proof (ap_arena _ _ _ _ _ _ Hap) as Har1. pose proof new_slot_range as (? & ? & ?).
  pose proof (ap_pos _ _ _ _ _ _ Hap). assert (q = end_) as Hq by done.
  apply arena_set_mem; [exact Har1| |].
  { apply count_mem_ok, mem_ok_store64, mem_ok_store64, Har1. }
  intros x Hx. apply (na_f1 x); destruct Hx as [Hx|[Hx|(b & ty & s & Hb & Hx)]];
    unfold off_n_entry_arrays, off_header_size, off_arena_size, off_tail_object_offset, off_n_objects,
      off_n_entries, sizeof_ObjectHeader in *; try lia.
  - destruct (arena_object _ _ _ Har1 _ _ _ Hb) as (_ & ? & _). lia.
  - apply elem_of_app in Hb as [Hb|[= -> _ _]%list_elem_of_singleton]; [|lia].
    destruct (arena_object _ _ _ Har _ _ _ Hb) as (_ & Hb240 & _).
    destruct new_slot_cases as [[_ ->]|(l & ap & k' & _ & Hin & ->)].
    + destruct Hfirst as [[? ?]|(d & s' & Hd & ? & ?)]; [unfold off_n_entry_arrays in *; lia|].
      destruct (arena_object _ _ _ Har _ _ _ Hd) as (Ho & _). pose proof (obj_min _ _ _ _ Ho) as Hm. cbn in Hm.
      pose proof (object_header_frame _ _ _ _ _ _ x _ _ _ Har Hb Hx Hd). lia.
    + pose proof (object_header_frame _ _ _ _ _ _ x _ _ _ Har Hb Hx (ec_objs _ _ _ _ Hc _ _ Hin)).
      destruct (array_bounds ap k' Hin). unfold entry_array_next, entry_array_items in *. lia.
  - apply elem_of_app in Hb as [Hb|[= -> _ _]%list_elem_of_singleton]; [|lia].
    destruct (arena_object _ _ _ Har _ _ _ Hb) as (Hbo & ? & ?). pose proof (object_ALIGN64 _ _ _ _ Hbo). lia.
Qed.

Lemma link_new :
  n = caps arrs ->
  linked f arrs n p first f' objs1 (q + ALIGN64 (entry_array_items + 8 * k)) (arrs ++ [(q, k)]).
Proof.
  intros Hnc. pose proof new_slot_range as (? & ? & ?). pose proof (ap_pos _ _ _ _ _ _ Hap).
  assert (q = end_) as Hq by done. pose proof (ap_object _ _ _ _ _ _ Hap) as Hob.
  pose proof (object_ALIGN64 _ _ _ _ Hob) as (? & _ & _).
  assert (items f' arrs = items f arrs) as Hitems.
  { apply items_agree. intros b kb x Hb Hx. apply (na_array b kb); [done|unfold entry_array_items in *; lia|].
    apply (na_slot_array b kb); [done|unfold entry_array_items in *; lia|by right; left; lia]. }
  split.
  - apply na_arena.
  - intros x Hx. unfold entry_array_items in *. rewrite na_same; [apply Hz; lia|..];
      unfold off_state, off_arena_size, off_tail_object_offset, off_n_objects, off_n_entry_arrays; lia.
  - split.
    + destruct new_slot_cases as [[E Hns]|(l & ap & k' & E & Hin & Hns)].
      * rewrite <- Hns, na_slot, E. simpl. split_and!; [done|apply na_new|apply na_next].
      * assert (load64 (jf_mem f') first = load64 (jf_mem f) first) as ->.
        { apply load64_ext. intros x Hx. pose proof (head_slot_array ap k' x Hin Hx).
          destruct (array_bounds ap k' Hin).
          apply na_same; unfold off_state, off_arena_size, off_tail_object_offset, off_n_objects, off_n_entry_arrays;
          (destruct Hfirst as [[? ?]|(d & s' & Hd & ? & ?)];
            [unfold off_n_entries, off_n_entry_arrays, entry_array_items, entry_array_next in *; lia|];
           destruct (arena_object _ _ _ Har _ _ _ Hd) as (Ho & ? & ?); pose proof (obj_min _ _ _ _ Ho) as Hm; cbn in Hm;
           unfold entry_array_items, entry_array_next in *; lia). }
        eapply (chain_snoc f); [exact E|apply (ec_chain _ _ _ _ Hc)|apply (ec_nodup _ _ _ _ Hc)|apply na_is_array| | |
          apply na_new|apply na_next].
        -- intros b kb Hb Hne. apply load64_ext. intros x Hx. unfold entry_array_next in Hx.
           destruct (array_bounds b kb Hb) as (? & ? & ?).
           apply (na_array b kb); [done|unfold entry_array_items; lia|].
           apply (na_slot_array b kb); [done|unfold entry_array_items; lia|].
           right. right. intros l' ap' k'' E'. rewrite E in E'. apply app_inj_tail in E' as [_ [= <- _]]. done.
        -- rewrite <- Hns. apply na_slot.
    + intros b kb [Hb|[= -> ->]%list_elem_of_singleton]%elem_of_app; apply elem_of_app.
      * left. by apply (ec_objs _ _ _ _ Hc).
      * right. constructor.
    + rewrite fmap_app. apply NoDup_app. split_and!; [apply (ec_nodup _ _ _ _ Hc)| |apply NoDup_singleton].
      intros b Hb ->%list_elem_of_singleton. apply list_elem_of_fmap in Hb as ([b kb] & Eb & Hb). simpl in Eb.
      destruct (array_bounds b kb Hb) as (? & ? & ?). unfold entry_array_items in *. lia.
  - rewrite caps_app. cbn [caps]. lia.
  - rewrite items_app, Hitems, items_cons. pose proof (items_caps f arrs arrs_pos) as Hlen.
    replace (Z.to_nat (n + 1)) with (S (length (items f arrs))) by lia.
    rewrite (take_ge (items f arrs)) by lia. rewrite take_app_ge by lia. f_equal.
    replace (S (length (items f arrs)) - length (items f arrs))%nat with 1%nat by lia.
    unfold arr_items. simpl. rewrite seqZ_cons by lia. simpl. f_equal. unfold arr_item. apply na_item.
Qed.

Lemma link_new_effect :
  k <= 2 * n + 4 -> q + entry_array_items + 8 * k < 2 ^ 62 ->
  link_effect f objs end_ arrs first n f' objs1 (q + ALIGN64 (entry_array_items + 8 * k)) (arrs ++ [(q, k)]).
Proof.
  intros Hcap Hsz. pose proof (ap_pos _ _ _ _ _ _ Hap). assert (q = end_) as Hq by done.
  pose proof (object_ALIGN64 _ _ _ _ (ap_object _ _ _ _ _ _ Hap)) as (? & _ & _).
  split.
  - destruct (ap_handle _ _ _ _ _ _ Hap). by split.
  - intros [Hw Hfd Hh _]. destruct (ap_handle _ _ _ _ _ _ Hap). split; cbn; try congruence.
    left. unfold hdr_state. rewrite na_f1; [apply (ap_state _ _ _ _ _ _ Hap)|..];
      pose proof new_slot_range as (? & ? & ?); unfold off_state, off_n_entries, off_n_entry_arrays in *; lia.
  - apply (ap_last _ _ _ _ _ _ Hap).
  - right. by exists k.
  - intros b kb [Hb|[= -> ->]%list_elem_of_singleton]%elem_of_app; [by left|by right].
  - unfold entry_array_items in *. lia.
  - intros x H1 H2 H3 H4 H5 H6 H7. unfold entry_array_items in *.
    apply na_same; try done; try lia. intros Hs.
    destruct new_slot_cases as [[_ E]|(l & ap & k' & E & Hin & E')].
    + rewrite E in Hs. done.
    + rewrite E' in Hs. specialize (H6 ap k' Hin). destruct (array_bounds ap k' Hin).
      unfold entry_array_next, entry_array_items in *. lia.
Qed.

End NewArray.
End Link.

(** * The function *)

(** The capacity of a new array. *)
Definition new_capacity (idx k0 : Z) : Z :=
  let n := if k0 <? idx then u64 (u64 (idx + 1) * 2) else u64 (k0 * 2) in
  if n <? 4 then 4 else n.

Lemma new_capacity_range idx k0 :
  0 <= k0 <= idx -> idx < 2 ^ 61 -> 4 <= new_capacity idx k0 <= 2 * idx + 4.
Proof.
  intros Hk Hi. unfold new_capacity. rewrite (u64_small (idx + 1)), !u64_small by (unfold is_u64; lia).
  zcases; lia.
Qed.

Lemma last_array_capacity arrs :
  Forall (fun ak => 0 < ak.2) arrs -> 0 <= (default (0, 0) (last arrs)).2 <= caps arrs.
Proof.
  intros Hp. destruct (last arrs) as [[ap k0]|] eqn:E; simpl.
  - apply last_Some in E as [l ->]. rewrite caps_app. cbn [caps].
    apply Forall_app in Hp as [Hl Hk]. apply caps_nonneg in Hl. inversion Hk; subst. simpl in *. lia.
  - pose proof (caps_nonneg _ Hp). lia.
Qed.

Lemma link_entry_ok e fuel f objs end_ arrs first p n :
  mmap_ok e -> page_ok e -> arena f objs end_ -> writable f -> zero_above f end_ ->
  echain f objs (load64 (jf_mem f) first) arrs -> head_slot objs first ->
  0 < p -> is_u64 p -> 0 <= n <= caps arrs -> (length arrs <= fuel)%nat ->
  end_ + 100 + 16 * n < 2 ^ 61 ->
  exists r f', link_entry_into_array e fuel first n p f = (r, f')
    /\ match r with
       | Ok v => v = n + 1 /\ exists objs' end' arrs', linked f arrs n p first f' objs' end' arrs'
           /\ link_effect f objs end_ arrs first n f' objs' end' arrs'
       | Err _ => not_appended f f' objs end_
       | _ => False
       end.
Proof.
  intros He Hpage Har Hw Hz Hc Hfirst Hp0 Hp Hn Hfuel Hsz.
  pose proof (arrs_pos f objs arrs first Hc) as Hpos.
  unfold link_entry_into_array. rewrite run_assert by zdecide. run.
  destruct (link_walk_ok e f He arrs fuel (load64 (jf_mem f) first) n 0 0 (ec_chain _ _ _ _ Hc) ltac:(lia) Hfuel)
    as (res & Hwalk & Hres).
  rewrite (run_bind _ _ _ _ _ Hwalk).
  destruct (arena_above _ _ _ Har) as [Hend _].
  destruct res as [[o j]|[[j ap] k0]].
  { destruct Hres as (pre & k & suf & Ha & -> & Hj). run.
    exists (Ok (u64 (n + 1))), (set_mem f (store64 (jf_mem f) (array_item o (n - caps pre)) p)). split; [done|].
    split; [rewrite u64_small by (unfold is_u64; lia); done|]. exists objs, end_, arrs.
    split; [eapply (link_room f objs end_ arrs first p n Har Hz Hc Hfirst Hp)|
      eapply (link_room_effect f objs end_ arrs first p n Har Hc Hn)]; try exact Ha; lia. }
  destruct Hres as (Hle & Hj & Hlast). assert (n = caps arrs) as Hnc by lia. replace j with 0 in * by lia.
  pose proof (last_array_capacity arrs Hpos) as Hk0. rewrite <- Hlast in Hk0. simpl in Hk0.
  fold (new_capacity n k0). set (k := new_capacity n k0).
  pose proof (new_capacity_range n k0 ltac:(lia) ltac:(lia)) as Hk. fold k in Hk.
  rewrite (u64_small (k * 8)), u64_small by (unfold is_u64, entry_array_items; lia).
  replace (k * 8) with (8 * k) by lia. cbv zeta.
  assert (end_ + entry_array_items + 8 * k < 2 ^ 62) as Hq by (unfold entry_array_items; lia).
  destruct (append_object_ok e He Hpage f objs end_ OBJECT_ENTRY_ARRAY (entry_array_items + 8 * k))
    as (f1 & [[Hrun Hap]|(er & Hrun & Hna)]);
    [done|done|done|cbn; unfold entry_array_items; lia|unfold entry_array_items; lia|..].
  2:{ exists (Err er), f1. split; [unfold bind; by rewrite Hrun|exact Hna]. }
  rewrite (run_bind _ _ _ _ _ Hrun). run.
  pose proof (link_new f objs end_ arrs first p n Har Hz Hc Hfirst Hp ltac:(lia) f1 k Hap ltac:(lia) Hnc) as Hlinked.
  pose proof (link_new_effect f objs end_ arrs first p n Har Hc Hfirst Hn f1 k Hap ltac:(lia) ltac:(lia) Hq) as Heff.
  exists (Ok (u64 (n + 1))), (set_mem f1 (new_array_mem arrs first p (jf_mem f1) end_)). split.
  2:{ split; [rewrite u64_small by (unfold is_u64; lia); done|]. eexists _, _, _. split; [exact Hlinked|exact Heff]. }
  unfold new_array_mem. set (f2 := set_mem f1 (store64 (jf_mem f1) (array_item end_ 0) p)).
  assert ((if ap =? 0 then wr first end_
           else (o <- journal_file_move_to_object e OBJECT_ENTRY_ARRAY ap ;; wr (o + entry_array_next) end_)) f2
          = (Ok tt, set_mem f2 (store64 (jf_mem f2) (new_slot arrs first) end_))) as Hhook.
  { unfold new_slot. destruct (last arrs) as [[b kb]|] eqn:El; simpl in Hlast; injection Hlast as -> ->; [|done].
    assert ((b, kb) ∈ arrs) as Hb.
    { apply last_Some in El as [l ->]. apply elem_of_app. right. constructor. }
    pose proof (ec_objs _ _ _ _ Hc b kb Hb) as Hbo. destruct (arena_object _ _ _ Har _ _ _ Hbo) as (Ho & ? & ?).
    pose proof (object_ALIGN64 _ _ _ _ Ho).
    destruct (Z.eqb_spec b 0); [lia|].
    assert (is_object f2 OBJECT_ENTRY_ARRAY b (entry_array_items + 8 * kb)) as Ho2.
    { eapply is_object_agree; [exact Ho| |apply (ap_last _ _ _ _ _ _ Hap)]. intros x Hx. cbn beta in Hx.
      cbn [f2 set_mem jf_mem]. unfold f2. cbn [set_mem jf_mem].
      rewrite byte_at_store64_ne by (unfold array_item, entry_array_items; lia).
      eapply appended_below; [exact Hap|lia]. }
    by rewrite (run_bind _ _ _ _ _ (move_to_object_ok e _ _ _ _ _ He Ho2 (or_introl eq_refl))). }
  rewrite (run_bind _ _ _ _ _ Hhook). run. unfold header_contains, hdr, when, count_mem. cbn [set_mem jf_mem].
  by destruct (_ <=? _).
Qed.

(** A failed allocation leaves every chain alone. *)
Lemma not_appended_chain f f1 objs end_ arrs first :
  arena f objs end_ -> head_slot objs first -> echain f objs (load64 (jf_mem f) first) arrs ->
  not_appended f f1 objs end_ ->
  arena f1 objs end_ /\ echain f1 objs (load64 (jf_mem f1) first) arrs /\ items f1 arrs = items f arrs.
Proof.
  intros Har Hfirst Hc [Hsh Har1 _ Hls Hag].
  assert (forall x, 240 <= x -> byte_at (jf_mem f1) x = byte_at (jf_mem f) x) as Hag'.
  { intros x Hx. apply Hag. unfold off_state. lia. }
  assert (load64 (jf_mem f1) first = load64 (jf_mem f) first) as Hf1.
  { apply (agree_load64 _ _ _ _ Hag). intros x Hx. unfold off_state.
    destruct Hfirst as [[? ?]|(d & s & Hd & ? & ?)]; [unfold off_n_entries in *; lia|].
    destruct (arena_object _ _ _ Har _ _ _ Hd) as (_ & ? & _). lia. }
  split_and!; [done| |].
  - rewrite Hf1. destruct Hc as [Hch Hin Hnd]. split; [|done|done].
    eapply chain_arrays_agree; [exact Har|exact Hch|exact Hin| |].
    + rewrite Hls. pose proof (ar_arena _ _ _ Har). pose proof (ar_size _ _ _ Har). lia.
    + intros b kb x Hb Hx. apply Hag'. destruct (arena_object _ _ _ Har _ _ _ (Hin b kb Hb)). lia.
  - apply items_agree. intros b kb x Hb Hx. apply Hag'. unfold entry_array_items in *.
    destruct (arena_object _ _ _ Har _ _ _ (ec_objs _ _ _ _ Hc b kb Hb)). lia.
Qed.

(** link_entry_into_array appends the entry to the sequence the chain holds:
    afterwards the first [n + 1] entries are the first [n] ones and then [p], whether
    the last array had room or a new, larger one had to be allocated and hooked in.
    When the allocation fails the chain holds what it held. *)
Theorem link_entry_into_array_correct e fuel f objs end_ arrs first p n :
  mmap_ok e -> page_ok e -> arena f objs end_ -> writable f -> zero_above f end_ ->
  echain f objs (load64 (jf_mem f) first) arrs -> head_slot objs first ->
  0 < p -> is_u64 p -> 0 <= n <= caps arrs -> (length arrs <= fuel)%nat ->
  end_ + 100 + 16 * caps arrs < 2 ^ 61 ->
  exists r f', link_entry_into_array e fuel first n p f = (r, f')
    /\ match r with
       | Ok v => v = n + 1 /\ exists objs' end' arrs', linked f arrs n p first f' objs' end' arrs'
       | Err _ => arena f' objs end_ /\ echain f' objs (load64 (jf_mem f') first) arrs
                  /\ items f' arrs = items f arrs
       | _ => False
       end.
Proof.
  intros He Hpage Har Hw Hz Hc Hfirst Hp0 Hp Hn Hfuel Hsz.
  destruct (link_entry_ok e fuel f objs end_ arrs first p n) as (r & f1 & Hrun & Hr); [done..|lia|].
  exists r, f1. split; [done|]. destruct r; try done.
  { destruct Hr as (-> & objs' & end' & arrs' & Hl & _). eauto 10. }
  by apply (not_appended_chain f f1 objs end_).
Qed.

(** The first entry of a fresh file goes to a new array of four. *)
Lemma link_entry_witness :
  exists f', link_entry_into_array sample_env 10 off_entry_array_offset 0 1000 fresh_file = (Ok 1, f')
    /\ exists objs' end' arrs', linked fresh_file [] 0 1000 off_entry_array_offset f' objs' end' arrs'.
Proof.
  destruct (link_entry_into_array_correct sample_env 10 fresh_file fresh_objs 304 [] off_entry_array_offset 1000 0
    sample_mmap sample_page fresh_arena fresh_writable) as (r & f' & H & Hr).
  - intros a Ha. unfold fresh_file, fresh_mem, stores. cbn [fold_left jf_mem fst snd].
    unfold off_header_size, off_arena_size, off_data_hash_table_offset, off_data_hash_table_size,
      off_field_hash_table_offset, off_field_hash_table_size, off_tail_object_offset, off_n_objects.
    rewrite !byte_at_store64_ne by lia.
    reflexivity.
  - split; [vm_compute; reflexivity|intros b k Hb; by apply not_elem_of_nil in Hb|constructor].
  - left. vm_compute. split; discriminate.
  - lia.
  - unfold is_u64. lia.
  - simpl. lia.
  - simpl. lia.
  - vm_compute. reflexivity.
  - exists f'. assert (r = Ok 1) as ->.
    { change r with (r, f').1. rewrite <- H. vm_compute. reflexivity. }
    split; [exact H|apply Hr].
Defined.
