(* ===== verification/JournalInv.v ===== *)
(** The invariant of a whole journal file: an arena with the data and field store,
    one chain of entries for the file and one for each data object; and the steps
    that keep the store while entries are written. *)
From S2P Require Import Prelude Lookup3 Uuid Memory JournalDef JournalFile ObjectLemmas ArenaProofs.
From S2P Require Import HashTableProofs DataProofs StoreProofs StoreOps JournalSeek BisectProofs.
From S2P Require Import EntryArrayProofs.

(** [lia] with the layout evaluated. *)
Ltac hlia := unfold off_state, off_header_size, off_arena_size, off_data_hash_table_offset,
  off_data_hash_table_size, off_field_hash_table_offset, off_field_hash_table_size,
  off_tail_object_offset, off_n_objects, off_n_entries, off_tail_entry_seqnum, off_head_entry_seqnum,
  off_entry_array_offset, off_head_entry_realtime, off_tail_entry_realtime, off_tail_entry_monotonic,
  off_n_data, off_n_entry_arrays, data_entry_offset, data_entry_array_offset, data_n_entries, data_payload,
  entry_array_items, entry_array_next, sizeof_ObjectHeader, entry_items, entry_seqnum, entry_realtime,
  entry_monotonic, entry_boot_id, entry_xor_hash, obj_type, obj_size, obj_flags, hash_table_items,
  obj_hash, obj_next_hash, sizeof_EntryItem, field_payload in *; lia.

(** * Chains of entries *)

(** Chain 0 is the file's, chain [d] that of the data object at [d]. *)
Definition live (objs : list (Z * Z * Z)) (c : Z) : Prop :=
  c = 0 \/ Exists (fun o => o.1 = (c, OBJECT_DATA)) objs.

#[export] Instance live_dec objs c : Decision (live objs c).
Proof. unfold live. apply _. Defined.

Lemma live_data objs c : c <> 0 -> live objs c -> exists s, (c, OBJECT_DATA, s) ∈ objs.
Proof.
  intros Hc [?|H]; [done|]. apply Exists_exists in H as ([[d ty] s] & Hin & [= -> ->]). by exists s.
Qed.

Lemma live_object objs c s : (c, OBJECT_DATA, s) ∈ objs -> live objs c.
Proof. intros H. right. apply Exists_exists. by exists (c, OBJECT_DATA, s). Qed.

Lemma live_mono objs objs' c : (forall x, x ∈ objs -> x ∈ objs') -> live objs c -> live objs' c.
Proof.
  intros Hin [->|H]; [by left|right]. apply Exists_exists in H as (x & Hx & E). apply Exists_exists. eauto.
Qed.

(** Where a chain notes its first array and counts its entries. *)
Definition slot (c : Z) : Z := if c =? 0 then off_entry_array_offset else c + data_entry_array_offset.
Definition counter (c : Z) : Z := if c =? 0 then off_n_entries else c + data_n_entries.

(** A data object keeps its first entry in itself. *)
Definition inline_entries (c : Z) : Z := if c =? 0 then 0 else 1.

Definition count (f : JournalFile) (c : Z) : Z := load64 (jf_mem f) (counter c).

(** The entries of a chain whose arrays are [arrs]. *)
Definition centries (f : JournalFile) (arrs : list (Z * Z)) (c : Z) : list Z :=
  if c =? 0 then take (Z.to_nat (count f 0)) (items f arrs)
  else if count f c =? 0 then []
  else load64 (jf_mem f) (c + data_entry_offset) :: take (Z.to_nat (count f c - 1)) (items f arrs).

(** The bytes a chain depends on. *)
Definition region (arrs : list (Z * Z)) (c x : Z) : Prop :=
  (c = 0 /\ (off_n_entries <= x < off_n_entries + 8
             \/ off_entry_array_offset <= x < off_entry_array_offset + 8))
  \/ (c <> 0 /\ c + data_entry_offset <= x < c + data_payload)
  \/ exists b k, (b, k) ∈ arrs /\ b + 16 <= x < b + entry_array_items + 8 * k.

Record chain_ok (f : JournalFile) (objs : list (Z * Z * Z)) (N : Z) (arrs : list (Z * Z)) (c : Z) : Prop := {
  co_chain : echain f objs (load64 (jf_mem f) (slot c)) arrs;
  co_count : count f c <= caps arrs + inline_entries c;
  co_bound : count f c <= N }.

(** * The invariant *)

(** [A c] are the arrays of chain [c]; no chain has more than [N] entries. *)
Record journal (e : Env) (f : JournalFile) (objs : list (Z * Z * Z)) (end_ : Z)
    (dch fch : Z -> list Z) (N : Z) (A : Z -> list (Z * Z)) : Prop := {
  j_store : store e f objs end_ dch fch;
  j_zero : zero_above f end_;
  j_ok : forall c, live objs c -> chain_ok f objs N (A c) c;
  j_apart : forall c c' b, c <> c' -> b ∈ (A c).*1 -> b ∈ (A c').*1 -> False;
  j_dead : forall c, ~ live objs c -> A c = [] }.

(** What the file's chain ([c = 0]) or a data object's chain holds. *)
Definition held (f : JournalFile) (objs : list (Z * Z * Z)) (A : Z -> list (Z * Z)) (c : Z) : list Z :=
  if decide (live objs c) then centries f (A c) c else [].

Lemma held_live f objs A c : live objs c -> held f objs A c = centries f (A c) c.
Proof. intros. unfold held. by rewrite decide_True. Qed.

(** * Counting the objects of an arena *)

Lemma objects_from_count f p objs end_ :
  objects_from f p objs end_ -> p + 16 * zlen objs <= end_.
Proof.
  unfold zlen. revert p. induction objs as [|[[a ty] s] objs IH]; intros p; simpl; [lia|].
  intros (-> & Ho & Hr). apply IH in Hr. apply object_ALIGN64 in Ho. lia.
Qed.

(** Different objects of an arena are at most as many as its size allows. *)
Lemma arena_count f objs end_ l :
  arena f objs end_ -> NoDup l -> (forall a, a ∈ l -> exists ty s, (a, ty, s) ∈ objs) ->
  16 * zlen l <= end_ - 240.
Proof.
  intros Har Hnd Hin. pose proof (objects_from_count _ _ _ _ (ar_objects _ _ _ Har)).
  pose proof (ar_header _ _ _ Har). unfold zlen in *.
  assert (length l <= length ((fun o : Z * Z * Z => o.1.1) <$> objs))%nat as Hlen.
  { apply submseteq_length, NoDup_submseteq; [done|]. intros a Ha. destruct (Hin a Ha) as (ty & s & Ho).
    apply list_elem_of_fmap. by exists (a, ty, s). }
  rewrite length_fmap in Hlen. lia.
Qed.

Lemma side_fuel K fuel f objs end_ tbl n chains :
  arena f objs end_ -> side K f objs tbl n chains -> end_ <= 16 * Z.of_nat fuel -> fuel_for fuel n chains.
Proof.
  intros Har [Ht _] Hf h Hh.
  pose proof (arena_count f objs end_ (chains h) Har (ht_nodup _ _ _ _ _ _ _ Ht h Hh)) as Hc.
  unfold zlen in Hc. enough (16 * Z.of_nat (length (chains h)) <= end_ - 240) by lia. apply Hc.
  intros a Ha. destruct (chain_object f objs _ _ _ _ _ Ht h a Hh Ha) as [s Hs]. eauto.
Qed.

Lemma echain_fuel fuel f objs end_ a arrs :
  arena f objs end_ -> echain f objs a arrs -> end_ <= 16 * Z.of_nat fuel -> (length arrs <= fuel)%nat.
Proof.
  intros Har Hc Hf. pose proof (arena_count f objs end_ arrs.*1 Har (ec_nodup _ _ _ _ Hc)) as Hn.
  unfold zlen in Hn. rewrite length_fmap in Hn. enough (16 * Z.of_nat (length arrs) <= end_ - 240) by lia.
  apply Hn. intros b Hb. apply list_elem_of_fmap in Hb as ([b' k] & -> & Hb). eexists _, _.
  by apply (ec_objs _ _ _ _ Hc b' k).
Qed.

(** * Keeping a chain *)

Section Keep.
Context (f f' : JournalFile) (objs objs' : list (Z * Z * Z)) (end_ end' : Z).
Hypothesis (Har : arena f objs end_) (Har' : arena f' objs' end') (Hin : forall x, x ∈ objs -> x ∈ objs').

Lemma echain_keep a arrs :
  echain f objs a arrs ->
  (forall b k x, (b, k) ∈ arrs -> b + 16 <= x < b + entry_array_items -> byte_at (jf_mem f') x = byte_at (jf_mem f) x) ->
  echain f' objs' a arrs.
Proof.
  intros [Hc Ho Hnd] Hag. split; [|auto|done]. clear Hnd. revert a Hc.
  induction arrs as [|[b k] arrs IH]; intros a; [done|]. intros (-> & [_ Hk] & Hc).
  assert ((b, OBJECT_ENTRY_ARRAY, entry_array_items + 8 * k) ∈ objs') as Hb by (apply Hin, Ho; constructor).
  split; [done|]. split; [split; [apply (arena_object _ _ _ Har' _ _ _ Hb)|done]|].
  assert (load64 (jf_mem f') (b + entry_array_next) = load64 (jf_mem f) (b + entry_array_next)) as ->.
  { apply load64_ext. intros x Hx. eapply (Hag b k); [constructor|hlia]. }
  apply IH; [intros; apply Ho; by constructor|intros; eapply Hag; [by constructor|done]|done].
Qed.

Lemma count_keep arrs c :
  (forall x, region arrs c x -> byte_at (jf_mem f') x = byte_at (jf_mem f) x) -> count f' c = count f c.
Proof.
  intros Hag. apply load64_ext. intros x Hx. apply Hag. unfold counter in Hx. unfold region.
  destruct (Z.eqb_spec c 0); [left|right; left]; split; [done|hlia|done|hlia].
Qed.

Lemma centries_keep arrs c :
  (forall x, region arrs c x -> byte_at (jf_mem f') x = byte_at (jf_mem f) x) ->
  centries f' arrs c = centries f arrs c.
Proof.
  intros Hag. unfold centries.
  assert (items f' arrs = items f arrs) as ->.
  { apply items_agree. intros b k x Hb Hx. apply Hag. right. right. exists b, k. split; [done|hlia]. }
  destruct (Z.eqb_spec c 0) as [->|Hc]; [by rewrite (count_keep arrs 0)|].
  rewrite (count_keep arrs c) by done.
  assert (load64 (jf_mem f') (c + data_entry_offset) = load64 (jf_mem f) (c + data_entry_offset)) as ->; [|done].
  apply load64_ext. intros x Hx. apply Hag. right. left. split; [done|hlia].
Qed.

Lemma chain_ok_keep N arrs c :
  chain_ok f objs N arrs c ->
  (forall x, region arrs c x -> byte_at (jf_mem f') x = byte_at (jf_mem f) x) -> chain_ok f' objs' N arrs c.
Proof.
  intros [Hc Hn HN] Hag. split; [|by rewrite (count_keep arrs c)..].
  assert (load64 (jf_mem f') (slot c) = load64 (jf_mem f) (slot c)) as ->.
  { apply load64_ext. intros x Hx. apply Hag. unfold slot in Hx. unfold region.
    destruct (Z.eqb_spec c 0); [left|right; left]; split; [done|hlia|done|hlia]. }
  apply echain_keep; [done|]. intros b k x Hb Hx. apply Hag. right. right. exists b, k. split; [done|].
  pose proof (proj1 (Forall_forall _ _) (arrs_pos f objs arrs (slot c) Hc) _ Hb) as Hk. simpl in Hk. hlia.
Qed.

End Keep.

(** * Steps that keep the store *)

(** Bytes that writing entries may change in the existing file: the counters and
    times of the header, the sizes and the state, the entry fields of data objects
    and the entry arrays. *)
Definition touched (objs : list (Z * Z * Z)) (x : Z) : Prop :=
  x = off_state \/ off_arena_size <= x < off_arena_size + 8
  \/ off_tail_object_offset <= x < off_n_data \/ off_n_entry_arrays <= x < off_n_entry_arrays + 8
  \/ (exists d s, (d, OBJECT_DATA, s) ∈ objs /\ d + data_entry_offset <= x < d + data_payload)
  \/ (exists b s, (b, OBJECT_ENTRY_ARRAY, s) ∈ objs /\ b + 16 <= x < b + s).

Record entry_step (f : JournalFile) (objs : list (Z * Z * Z)) (end_ : Z)
    (f' : JournalFile) (objs' : list (Z * Z * Z)) (end' : Z) : Prop := {
  es_arena : arena f' objs' end';
  es_writable : writable f';
  es_data_table : jf_data_hash_table f' = jf_data_hash_table f;
  es_field_table : jf_field_hash_table f' = jf_field_hash_table f;
  es_objs : exists l, objs' = objs ++ l;
  es_no_data : forall d s, (d, OBJECT_DATA, s) ∈ objs' -> (d, OBJECT_DATA, s) ∈ objs;
  es_end : end_ <= end';
  es_zero : zero_above f end_ -> zero_above f' end';
  es_frame : forall x, x < end_ -> ~ touched objs x -> byte_at (jf_mem f') x = byte_at (jf_mem f) x }.

Lemma es_in f objs end_ f' objs' end' x : entry_step f objs end_ f' objs' end' -> x ∈ objs -> x ∈ objs'.
Proof. intros [_ _ _ _ [l ->] _ _ _ _] Hx. apply elem_of_app. by left. Qed.

Lemma entry_step_refl f objs end_ : arena f objs end_ -> writable f -> entry_step f objs end_ f objs end_.
Proof. split; try done. exists []. by rewrite app_nil_r. Qed.

Lemma touched_mono objs objs' x : (forall o, o ∈ objs -> o ∈ objs') -> touched objs x -> touched objs' x.
Proof.
  intros Hin. unfold touched. intros [?|[?|[?|[?|[(d & s & ? & ?)|(d & s & ? & ?)]]]]]; [tauto..| |].
  - do 4 right. left. eauto.
  - do 5 right. eauto.
Qed.

(** An object a later step may touch below the old end was there before. *)
Lemma touched_old f objs end_ f' objs' end' x :
  arena f objs end_ -> entry_step f objs end_ f' objs' end' -> x < end_ -> touched objs' x -> touched objs x.
Proof.
  intros Har Hs Hx Ht. pose proof (es_arena _ _ _ _ _ _ Hs) as Har'.
  destruct (es_objs _ _ _ _ _ _ Hs) as [l El]. unfold touched in *.
  destruct Ht as [?|[?|[?|[?|[(d & s & Hd & Hr)|(b & s & Hb & Hr)]]]]]; [tauto..| |].
  - do 4 right. left. exists d, s. split; [by apply (es_no_data _ _ _ _ _ _ Hs)|done].
  - do 5 right. exists b, s. split; [|done]. rewrite El in Hb. apply elem_of_app in Hb as [Hb|Hb]; [done|].
    exfalso. pose proof (ar_objects _ _ _ Har') as Ho. rewrite El in Ho.
    assert (hdr off_header_size f' = hdr off_header_size f) as Eh.
    { apply load64_ext. intros y Hy. apply (es_frame _ _ _ _ _ _ Hs); [destruct (arena_above _ _ _ Har); hlia|].
      unfold touched. intros [?|[?|[?|[?|[(d & s' & Hd & ?)|(c & s' & Hd & ?)]]]]]; try hlia;
        destruct (arena_object _ _ _ Har _ _ _ Hd); hlia. }
    rewrite Eh in Ho. pose proof (ar_objects _ _ _ Har) as Ho1.
    assert (forall p l1 l2 e1 e2, objects_from f p l1 e1 -> objects_from f' p (l1 ++ l2) e2 ->
      forall a ty r, (a, ty, r) ∈ l2 -> e1 <= a) as Hafter.
    { intros p l1. revert p. induction l1 as [|[[a ty] r] l1 IH]; intros p l2 e1 e2; simpl.
      - intros <- H a ty r Ha. by destruct (objects_from_range _ _ _ _ _ _ _ H Ha).
      - intros (-> & _ & H1) (_ & _ & H2). by eapply IH. }
    pose proof (Hafter _ _ _ _ _ Ho1 Ho _ _ _ Hb). lia.
Qed.

Lemma entry_step_trans f1 o1 e1 f2 o2 e2 f3 o3 e3 :
  arena f1 o1 e1 -> entry_step f1 o1 e1 f2 o2 e2 -> entry_step f2 o2 e2 f3 o3 e3 -> entry_step f1 o1 e1 f3 o3 e3.
Proof.
  intros Har H12 H23. split.
  - apply H23.
  - apply H23.
  - rewrite (es_data_table _ _ _ _ _ _ H23). apply H12.
  - rewrite (es_field_table _ _ _ _ _ _ H23). apply H12.
  - destruct (es_objs _ _ _ _ _ _ H12) as [l1 ->]. destruct (es_objs _ _ _ _ _ _ H23) as [l2 ->].
    exists (l1 ++ l2). by rewrite (assoc (++)).
  - intros d s Hd. by apply (es_no_data _ _ _ _ _ _ H12), (es_no_data _ _ _ _ _ _ H23).
  - pose proof (es_end _ _ _ _ _ _ H12). pose proof (es_end _ _ _ _ _ _ H23). lia.
  - intros Hz. by apply (es_zero _ _ _ _ _ _ H23), (es_zero _ _ _ _ _ _ H12).
  - intros x Hx Ht. pose proof (es_end _ _ _ _ _ _ H12). rewrite (es_frame _ _ _ _ _ _ H23 x); [|lia|].
    + by apply (es_frame _ _ _ _ _ _ H12).
    + intros H2. by apply Ht, (touched_old f1 o1 e1 f2 o2 e2).
Qed.

(** The bytes of objects and tables the store depends on are not touched. *)
Lemma untouched_object f objs end_ b ty s x :
  arena f objs end_ -> (b, ty, s) ∈ objs -> b <= x < b + s -> ty <> OBJECT_ENTRY_ARRAY ->
  (ty = OBJECT_DATA -> x < b + data_entry_offset \/ b + data_payload <= x) -> ~ touched objs x.
Proof.
  intros Har Hb Hx Hty Hd. destruct (arena_object _ _ _ Har _ _ _ Hb) as (_ & ? & ?).
  intros [?|[?|[?|[?|[(d & s' & Hd' & Hr)|(a & s' & Ha & Hr)]]]]]; [hlia..| |].
  - destruct (Z.eq_dec b d) as [->|Hne].
    + destruct (arena_object_unique _ _ _ Har _ _ _ _ _ Hb Hd') as [-> _]. specialize (Hd eq_refl). hlia.
    + destruct (arena_object _ _ _ Har _ _ _ Hd') as (Ho & _). pose proof (obj_min _ _ _ _ Ho) as Hm. cbn in Hm.
      destruct (arena_disjoint _ _ _ Har _ _ _ _ _ _ Hb Hd' Hne); hlia.
  - destruct (Z.eq_dec b a) as [->|Hne].
    + by destruct (arena_object_unique _ _ _ Har _ _ _ _ _ Hb Ha) as [-> _].
    + destruct (arena_disjoint _ _ _ Har _ _ _ _ _ _ Hb Ha Hne); hlia.
Qed.

(** An object keeps everything but a data object's entry fields and the arrays. *)
Lemma entry_step_object f objs end_ f' objs' end' b ty s x :
  arena f objs end_ -> entry_step f objs end_ f' objs' end' -> (b, ty, s) ∈ objs -> b <= x < b + s ->
  ty <> OBJECT_ENTRY_ARRAY -> (ty = OBJECT_DATA -> x < b + data_entry_offset \/ b + data_payload <= x) ->
  byte_at (jf_mem f') x = byte_at (jf_mem f) x.
Proof.
  intros Har Hs Hb Hx Hty Hd. destruct (arena_object _ _ _ Har _ _ _ Hb) as (_ & ? & ?).
  apply (es_frame _ _ _ _ _ _ Hs); [lia|]. by eapply untouched_object.
Qed.

Lemma entry_step_data_of e f objs end_ f' objs' end' b s :
  arena f objs end_ -> entry_step f objs end_ f' objs' end' -> (b, OBJECT_DATA, s) ∈ objs ->
  data_of e f' b = data_of e f b.
Proof.
  intros Har Hs Hb. destruct (arena_object _ _ _ Har _ _ _ Hb) as (Ho & _).
  pose proof (obj_min _ _ _ _ Ho) as Hm. cbn in Hm.
  apply (data_of_agree e f f' b s); [apply (obj_size_eq _ _ _ _ Ho)|].
  intros x Hx. eapply entry_step_object; [done|done|done|hlia|done|hlia].
Qed.

Lemma entry_step_data_hash f objs end_ f' objs' end' b s :
  arena f objs end_ -> entry_step f objs end_ f' objs' end' -> (b, OBJECT_DATA, s) ∈ objs ->
  load64 (jf_mem f') (b + data_hash) = load64 (jf_mem f) (b + data_hash).
Proof.
  intros Har Hs Hb. destruct (arena_object _ _ _ Har _ _ _ Hb) as (Ho & _).
  pose proof (obj_min _ _ _ _ Ho) as Hm. cbn in Hm.
  apply load64_ext. intros x Hx. unfold data_hash in Hx. eapply entry_step_object; [done|done|done|hlia|done|hlia].
Qed.

Lemma entry_step_hdr f objs end_ f' objs' end' o :
  arena f objs end_ -> entry_step f objs end_ f' objs' end' ->
  off_data_hash_table_offset <= o -> o + 8 <= off_tail_object_offset -> hdr o f' = hdr o f.
Proof.
  intros Har Hs H1 H2. apply load64_ext. intros x Hx. destruct (arena_above _ _ _ Har) as [? _].
  apply (es_frame _ _ _ _ _ _ Hs); [hlia|].
  intros [?|[?|[?|[?|[(d & s & Hd & ?)|(d & s & Hd & ?)]]]]]; try hlia;
    destruct (arena_object _ _ _ Har _ _ _ Hd); hlia.
Qed.

Lemma side_step K `{!KindLaws K} f objs end_ f' objs' end' tbl n chains :
  arena f objs end_ -> entry_step f objs end_ f' objs' end' ->
  k_ty K <> OBJECT_ENTRY_ARRAY -> k_tty K <> OBJECT_ENTRY_ARRAY -> k_tty K <> OBJECT_DATA ->
  (k_ty K = OBJECT_DATA -> data_payload <= k_payload K) ->
  side K f objs tbl n chains -> side K f' objs' tbl n chains.
Proof.
  intros Har Hs H1 H2 H3 H4 Hside.
  eapply (side_agree K f f' objs objs); [exact Har|done|exact Hside| | |].
  - intros x. eapply es_in, Hs.
  - intros a Ha. destruct (table_bytes _ _ _ _ _ _ _ _ (sd_table _ _ _ _ _ _ Hside) Ha) as (b & s & Hb & Hr).
    by eapply entry_step_object.
  - intros b s a Hb Ha. destruct (kind_object K f objs end_ Har b s Hb) as (_ & ? & _).
    pose proof (kl_payload (K := K)).
    eapply entry_step_object; [done|done|exact Hb|lia|done|]. intros E. specialize (H4 E). hlia.
Qed.

Lemma store_step e f objs end_ f' objs' end' dch fch :
  store e f objs end_ dch fch -> entry_step f objs end_ f' objs' end' -> store e f' objs' end' dch fch.
Proof.
  intros [Har Hw Hd Hf] Hs. split; [apply Hs|apply Hs|..].
  - unfold data_buckets. rewrite (entry_step_hdr _ _ _ _ _ _ off_data_hash_table_size Har Hs) by hlia.
    rewrite (es_data_table _ _ _ _ _ _ Hs). by eapply (side_step (data_kind e)).
  - unfold field_buckets. rewrite (entry_step_hdr _ _ _ _ _ _ off_field_hash_table_size Har Hs) by hlia.
    rewrite (es_field_table _ _ _ _ _ _ Hs). by eapply (side_step field_kind).
Qed.
