(* ===== verification/JournalAppend.v ===== *)
(** journal_file_append_entry as a whole: appending the data objects, the entry
    object and linking it into the file's chain and the chain of each of its data
    objects keeps the journal well formed and appends the entry to these chains. *)
From S2P Require Import Prelude Lookup3 Uuid Memory JournalDef JournalFile ObjectLemmas ArenaProofs.
From S2P Require Import HashTableProofs HeaderProofs DataProofs StoreProofs StoreOps JournalSeek BisectProofs.
From S2P Require Import EntryArrayProofs JournalInv.

(** * Regions *)

(** Objects that share a byte are the same. *)
Lemma objects_overlap f objs end_ b ty s b' ty' s' x :
  arena f objs end_ -> (b, ty, s) ∈ objs -> (b', ty', s') ∈ objs -> b <= x < b + s -> b' <= x < b' + s' ->
  b = b' /\ ty = ty'.
Proof.
  intros Har Hb Hb' Hx Hx'. destruct (Z.eq_dec b b') as [->|Hne].
  - split; [done|]. by destruct (arena_object_unique _ _ _ Har _ _ _ _ _ Hb Hb').
  - destruct (arena_disjoint _ _ _ Har _ _ _ _ _ _ Hb Hb' Hne); lia.
Qed.

(** Writes to the header's entry fields and the entry fields of data objects. *)
Definition loose (objs : list (Z * Z * Z)) (x : Z) : Prop :=
  off_n_entries <= x < off_n_data
  \/ exists d s, (d, OBJECT_DATA, s) ∈ objs /\ d + data_entry_offset <= x < d + data_payload.

Lemma loose_step f objs end_ m :
  arena f objs end_ -> writable f -> mem_ok m -> (forall x, ~ loose objs x -> byte_at m x = byte_at (jf_mem f) x) ->
  entry_step f objs end_ (set_mem f m) objs end_.
Proof.
  intros Har Hw Hm Hag.
  assert (forall x d s, (d, OBJECT_DATA, s) ∈ objs -> d + data_entry_offset <= x < d + data_payload ->
    240 <= d /\ x < d + s /\ d + s <= end_) as Hdata.
  { intros x d s Hd Hx. destruct (arena_object _ _ _ Har _ _ _ Hd) as (Ho & ? & ?).
    pose proof (obj_min _ _ _ _ Ho) as Hmin. cbn in Hmin. hlia. }
  split.
  - apply arena_set_mem; [exact Har|done|]. intros x Hx. apply Hag.
    intros [Hl|(d & s & Hd & Hr)].
    + destruct Hx as [Hx|[Hx|(b & ty & s' & Hb & Hx)]]; [hlia|hlia|].
      destruct (arena_object _ _ _ Har _ _ _ Hb). hlia.
    + destruct (Hdata x d s Hd Hr) as (? & ? & ?).
      destruct Hx as [Hx|[Hx|(b & ty & s' & Hb & Hx)]]; [hlia|hlia|].
      eapply (object_header_frame f objs end_ b ty s' x d OBJECT_DATA s); [exact Har|done|hlia|done|hlia].
  - apply writable_set_mem; [done|]. apply Hag. intros [?|(d & s & Hd & Hr)]; [hlia|].
    destruct (Hdata _ d s Hd Hr). hlia.
  - done.
  - done.
  - exists []. by rewrite app_nil_r.
  - done.
  - lia.
  - intros Hz x Hx. cbn. rewrite Hag; [by apply Hz|]. destruct (arena_above _ _ _ Har).
    intros [?|(d & s & Hd & Hr)]; [hlia|]. destruct (Hdata _ d s Hd Hr). hlia.
  - intros x Hx Ht. apply Hag. intros [?|(d & s & Hd & Hr)]; apply Ht.
    + unfold touched. hlia.
    + do 4 right. left. eauto.
Qed.

Section Journal.
Context (e : Env) (dch fch : Z -> list Z) (f : JournalFile) (objs : list (Z * Z * Z)) (end_ N : Z)
  (A : Z -> list (Z * Z)) (Hj : journal e f objs end_ dch fch N A).

Let Har : arena f objs end_ := st_arena _ _ _ _ _ _ (j_store _ _ _ _ _ _ _ _ Hj).

(** A region is a piece of the header or of objects the chain owns. *)
Lemma region_cases c x :
  live objs c -> region (A c) c x ->
  (c = 0 /\ off_n_entries <= x < off_entry_array_offset + 8
     /\ ~ (off_n_entries + 8 <= x < off_entry_array_offset))
  \/ exists b ty s, (b, ty, s) ∈ objs /\ b + 16 <= x < b + s
       /\ (ty = OBJECT_DATA /\ b = c \/ ty = OBJECT_ENTRY_ARRAY /\ b ∈ (A c).*1).
Proof.
  intros Hl [[-> Hx]|[[Hc Hx]|(b & k & Hb & Hx)]].
  - left. hlia.
  - right. destruct (live_data _ _ Hc Hl) as [s Hs]. exists c, OBJECT_DATA, s. split; [done|].
    destruct (arena_object _ _ _ Har _ _ _ Hs) as (Ho & _). pose proof (obj_min _ _ _ _ Ho) as Hm. cbn in Hm.
    split; [hlia|by left].
  - right. exists b, OBJECT_ENTRY_ARRAY, (entry_array_items + 8 * k). split_and!.
    + by apply (ec_objs _ _ _ _ (co_chain _ _ _ _ _ (j_ok _ _ _ _ _ _ _ _ Hj c Hl))).
    + lia.
    + lia.
    + right. split; [done|]. apply list_elem_of_fmap. by exists (b, k).
Qed.

Lemma region_bounds c x : live objs c -> region (A c) c x -> off_n_entries <= x < end_.
Proof.
  intros Hl Hr. destruct (arena_above _ _ _ Har) as [? _].
  destruct (region_cases c x Hl Hr) as [(-> & ? & _)|(b & ty & s & Hb & Hx & _)]; [hlia|].
  destruct (arena_object _ _ _ Har _ _ _ Hb) as (_ & ? & ?). hlia.
Qed.

Lemma region_apart c c' x :
  live objs c -> live objs c' -> c <> c' -> region (A c) c x -> region (A c') c' x -> False.
Proof.
  intros Hl Hl' Hne Hr Hr'.
  destruct (region_cases c x Hl Hr) as [(-> & Hx & _)|(b & ty & s & Hb & Hx & Hcase)];
    destruct (region_cases c' x Hl' Hr') as [(-> & Hx' & _)|(b' & ty' & s' & Hb' & Hx' & Hcase')].
  - done.
  - destruct (arena_object _ _ _ Har _ _ _ Hb') as (_ & ? & ?). hlia.
  - destruct (arena_object _ _ _ Har _ _ _ Hb) as (_ & ? & ?). hlia.
  - destruct (objects_overlap _ _ _ _ _ _ _ _ _ x Har Hb Hb' ltac:(lia) ltac:(lia)) as [-> ->].
    destruct Hcase as [[-> ->]|[-> Ha]], Hcase' as [[? ->]|[? Ha']]; try done.
    by apply (j_apart _ _ _ _ _ _ _ _ Hj c c' b').
Qed.

(** The arrays of a chain are entry arrays of the file. *)
Lemma chain_array_bounds c b : live objs c -> b ∈ (A c).*1 -> 240 <= b < end_.
Proof.
  intros Hl Hb. apply list_elem_of_fmap in Hb as ([b' k] & -> & Hb).
  pose proof (ec_objs _ _ _ _ (co_chain _ _ _ _ _ (j_ok _ _ _ _ _ _ _ _ Hj c Hl)) _ _ Hb) as Ho.
  destruct (arena_object _ _ _ Har _ _ _ Ho) as (Hob & ? & ?).
  pose proof (object_ALIGN64 _ _ _ _ Hob). simpl. lia.
Qed.

(** A step that changes the chain [c] and no other. *)
Lemma journal_update f' objs' end' N' c arrs' :
  entry_step f objs end_ f' objs' end' -> N <= N' -> live objs c ->
  chain_ok f' objs' N' arrs' c -> (forall b, b ∈ arrs'.*1 -> b ∈ (A c).*1 \/ end_ <= b) ->
  (forall c' x, live objs c' -> c' <> c -> region (A c') c' x -> byte_at (jf_mem f') x = byte_at (jf_mem f) x) ->
  journal e f' objs' end' dch fch N' (fun x => if decide (x = c) then arrs' else A x)
  /\ forall c', live objs c' -> c' <> c -> centries f' (A c') c' = centries f (A c') c'.
Proof.
  intros Hs HN Hl Hok Hnew Hag.
  assert (forall c', live objs' c' -> live objs c') as Hlive.
  { intros c' [->|Hc']; [by left|]. apply Exists_exists in Hc' as ([[d ty] s] & Hd & [= -> ->]).
    eapply live_object, es_no_data; [exact Hs|exact Hd]. }
  split; [|intros c' Hl' Hne; apply centries_keep; intros x Hx; by apply (Hag c')].
  split.
  - eapply store_step; [apply Hj|done].
  - apply (es_zero _ _ _ _ _ _ Hs), Hj.
  - intros c' Hl'. case_decide as Hd; [by subst|].
    destruct (j_ok _ _ _ _ _ _ _ _ Hj c' (Hlive _ Hl')) as [Hc Hn HN'].
    eapply (chain_ok_keep f f' objs objs' end'); [apply Hs|intros x; eapply es_in, Hs|split; [done|done|lia]|].
    intros x Hx. apply (Hag c'); auto.
  - assert (forall c' b, c' <> c -> b ∈ arrs'.*1 -> b ∈ (A c').*1 -> False) as Hap.
    { intros c' b Hne Hb Hb'. destruct (Hnew b Hb) as [Hbc|Hbe]; [by apply (j_apart _ _ _ _ _ _ _ _ Hj c' c b)|].
      destruct (decide (live objs c')) as [Hl'|Hd].
      - pose proof (chain_array_bounds c' b Hl' Hb'). lia.
      - rewrite (j_dead _ _ _ _ _ _ _ _ Hj c' Hd) in Hb'. by apply not_elem_of_nil in Hb'. }
    intros c1 c2 b Hne H1 H2. case_decide; case_decide; subst; eauto using j_apart.
  - intros c' Hd. case_decide as E.
    + subst. destruct Hd. eapply live_mono; [intros x; eapply es_in, Hs|done].
    + apply (j_dead _ _ _ _ _ _ _ _ Hj). intros Hl'. apply Hd. eapply live_mono; [intros x; eapply es_in, Hs|done].
Qed.

(** A step that changes no chain. *)
Lemma journal_step f' objs' end' :
  entry_step f objs end_ f' objs' end' ->
  (forall c x, live objs c -> region (A c) c x -> byte_at (jf_mem f') x = byte_at (jf_mem f) x) ->
  journal e f' objs' end' dch fch N A
  /\ forall c, live objs c -> centries f' (A c) c = centries f (A c) c.
Proof.
  intros Hs Hag. assert (live objs 0) as H0 by (by left).
  destruct (journal_update f' objs' end' N 0 (A 0) Hs ltac:(lia) H0) as [[J1 J2 J3 J4 J5] Hc].
  - eapply (chain_ok_keep f f' objs objs' end'); [apply Hs|intros x; eapply es_in, Hs|by apply Hj|].
    intros x. by apply Hag.
  - by left.
  - intros c' x Hl _. by apply Hag.
  - assert (forall c, (if decide (c = 0) then A 0 else A c) = A c) as HA by (intros c; case_decide; congruence).
    split; [split|].
    + done.
    + done.
    + intros c Hl. rewrite <- (HA c). by apply J3.
    + intros c c' b. rewrite <- (HA c), <- (HA c'). by apply J4.
    + intros c Hl. rewrite <- (HA c). by apply J5.
    + intros c Hl. destruct (Z.eq_dec c 0) as [->|Hne]; [|by apply Hc].
      apply centries_keep. intros x. by apply Hag.
Qed.

End Journal.

(** * Linking an entry into a chain *)

(** The outcome of a call that may append entries to chains: the journal stays well
    formed, only entry bytes change, and each chain [c] gains [gain c]. *)
Record gains (e : Env) (dch fch : Z -> list Z) (f : JournalFile) (objs : list (Z * Z * Z)) (end_ N : Z)
    (A : Z -> list (Z * Z)) (f' : JournalFile) (objs' : list (Z * Z * Z)) (end' N' : Z)
    (A' : Z -> list (Z * Z)) (gain : Z -> list Z) : Prop := {
  gn_journal : journal e f' objs' end' dch fch N' A';
  gn_step : entry_step f objs end_ f' objs' end';
  gn_held : forall c, live objs c -> centries f' (A' c) c = centries f (A c) c ++ gain c;
  gn_seqnum : hdr off_tail_entry_seqnum f' = hdr off_tail_entry_seqnum f }.

Lemma gains_trans e dch fch f1 o1 e1 N1 A1 f2 o2 e2 N2 A2 f3 o3 e3 N3 A3 g1 g2 :
  arena f1 o1 e1 -> gains e dch fch f1 o1 e1 N1 A1 f2 o2 e2 N2 A2 g1 ->
  gains e dch fch f2 o2 e2 N2 A2 f3 o3 e3 N3 A3 g2 ->
  gains e dch fch f1 o1 e1 N1 A1 f3 o3 e3 N3 A3 (fun c => g1 c ++ g2 c).
Proof.
  intros Har [J1 S1 H1 Q1] [J2 S2 H2 Q2]. split; [done|by eapply entry_step_trans| |congruence].
  intros c Hl. rewrite H2, H1 by (done || (eapply live_mono; [intros x; eapply es_in, S1|done])).
  by rewrite (assoc (++)).
Qed.

(** A step that changes no chain gains nothing. *)
Lemma gains_step e dch fch f objs end_ N A f' objs' end' :
  journal e f objs end_ dch fch N A -> entry_step f objs end_ f' objs' end' ->
  (forall c x, live objs c -> region (A c) c x -> byte_at (jf_mem f') x = byte_at (jf_mem f) x) ->
  hdr off_tail_entry_seqnum f' = hdr off_tail_entry_seqnum f ->
  gains e dch fch f objs end_ N A f' objs' end' N A (fun _ => []).
Proof.
  intros Hj Hs Hag Hq. destruct (journal_step e dch fch f objs end_ N A Hj f' objs' end' Hs Hag) as [Hj' Hc].
  split; [done|done| |done]. intros c Hl. rewrite app_nil_r. by apply Hc.
Qed.

Lemma gains_ext e dch fch f objs end_ N A f' objs' end' N' A' g g' :
  gains e dch fch f objs end_ N A f' objs' end' N' A' g -> (forall c, g c = g' c) ->
  gains e dch fch f objs end_ N A f' objs' end' N' A' g'.
Proof. intros [J S H Q] Hg. split; [done|done| |done]. intros c Hl. rewrite <- Hg. by apply H. Qed.

Lemma gains_weaken e dch fch f objs end_ N A f' objs' end' N' A' g N'' :
  gains e dch fch f objs end_ N A f' objs' end' N' A' g -> N' <= N'' ->
  gains e dch fch f objs end_ N A f' objs' end' N'' A' g.
Proof.
  intros [[J1 J2 J3 J4 J5] S H Q] Hle. split; [split; try done|done|done|done].
  intros c Hl. destruct (J3 c Hl). split; [done|done|lia].
Qed.

(** [p] for one chain. *)
Definition gain_one (c p : Z) (c' : Z) : list Z := if decide (c' = c) then [p] else [].

(** A failed allocation is a step that changes no chain. *)
Lemma not_appended_step f f' objs end_ :
  arena f objs end_ -> writable f -> not_appended f f' objs end_ -> entry_step f objs end_ f' objs end_.
Proof.
  intros Har [? ? ? _] [Hsh Har' Hst Hls Hag]. destruct Hsh. split; try done.
  - split; try congruence. by left.
  - exists []. by rewrite app_nil_r.
  - intros Hz x Hx. rewrite Hag; [by apply Hz|]. destruct (arena_above _ _ _ Har). hlia.
  - intros x _ Ht. apply Hag. intros ->. apply Ht. by left.
Qed.

Lemma link_effect_step f objs end_ arrs c n p f' objs' end' arrs' :
  arena f objs end_ -> writable f -> live objs c -> echain f objs (load64 (jf_mem f) (slot c)) arrs ->
  linked f arrs n p (slot c) f' objs' end' arrs' -> link_effect f objs end_ arrs (slot c) n f' objs' end' arrs' ->
  entry_step f objs end_ f' objs' end'.
Proof.
  intros Har Hw Hl Hc Hlk Heff. pose proof (le_handle _ _ _ _ _ _ _ _ _ _ Heff) as Hsh.
  split; try apply Hsh.
  - apply Hlk.
  - by apply Heff.
  - destruct (le_objs _ _ _ _ _ _ _ _ _ _ Heff) as [->|[k ->]]; [exists []; by rewrite app_nil_r|by eexists].
  - intros d s Hd. destruct (le_objs _ _ _ _ _ _ _ _ _ _ Heff) as [->|[k ->]]; [done|].
    by apply elem_of_app in Hd as [Hd|Hd%list_elem_of_singleton].
  - apply Heff.
  - intros _. apply Hlk.
  - intros x Hx Ht. apply (le_frame _ _ _ _ _ _ _ _ _ _ Heff); unfold touched in Ht; try tauto.
    + hlia.
    + intros Hs. apply Ht. unfold slot in Hs. destruct (Z.eqb_spec c 0); [hlia|].
      destruct (live_data _ _ ltac:(done) Hl) as [s Hd]. do 4 right. left. exists c, s. split; [done|hlia].
    + intros b k Hb Hr. apply Ht. do 5 right. exists b, (entry_array_items + 8 * k).
      split; [by apply (ec_objs _ _ _ _ Hc)|lia].
Qed.

Lemma live_head_slot f objs end_ c : arena f objs end_ -> live objs c -> head_slot objs (slot c).
Proof.
  intros Har Hl. unfold head_slot, slot. destruct (Z.eqb_spec c 0) as [->|Hc]; [left; hlia|right].
  destruct (live_data _ _ Hc Hl) as [s Hs]. exists c, s. split; [done|hlia].
Qed.

Section Link.
Context (e : Env) (fuel : nat) (He : mmap_ok e) (Hpage : page_ok e) (dch fch : Z -> list Z)
  (f : JournalFile) (objs : list (Z * Z * Z)) (end_ N : Z) (A : Z -> list (Z * Z))
  (Hj : journal e f objs end_ dch fch N A).
Hypothesis (Hsz : end_ + 100 + 16 * N < 2 ^ 61) (Hfuel : end_ <= 16 * Z.of_nat fuel).

(** The counter and the links of a live chain are inside the file. *)
Lemma counter_region c x : counter c <= x < counter c + 8 -> region (A c) c x.
Proof.
  unfold counter, region. destruct (Z.eqb_spec c 0); intros Hx; [left|right; left]; (split; [done|hlia]).
Qed.

Lemma counter_loose c x : live objs c -> counter c <= x < counter c + 8 -> loose objs x.
Proof.
  unfold counter, loose. intros Hl Hx. destruct (Z.eqb_spec c 0); [left; hlia|right].
  destruct (live_data _ _ ltac:(done) Hl) as [s Hs]. exists c, s. split; [done|hlia].
Qed.

Lemma count_range c : live objs c -> 0 <= count f c <= N /\ N < 2 ^ 57.
Proof.
  intros Hl. pose proof (co_bound _ _ _ _ _ (j_ok _ _ _ _ _ _ _ _ Hj c Hl)).
  pose proof (st_arena _ _ _ _ _ _ (j_store _ _ _ _ _ _ _ _ Hj)) as Har. destruct (arena_above _ _ _ Har).
  pose proof (load64_range (jf_mem f) (counter c) (ar_mem _ _ _ Har)) as [? _]. unfold count in *. lia.
Qed.

(** What the linked chain holds, once it is counted. *)
Lemma linked_centries c p f1 objs1 end1 arrs1 :
  live objs c -> inline_entries c <= count f c ->
  linked f (A c) (count f c - inline_entries c) p (slot c) f1 objs1 end1 arrs1 ->
  link_effect f objs end_ (A c) (slot c) (count f c - inline_entries c) f1 objs1 end1 arrs1 ->
  let f2 := set_mem f1 (store64 (jf_mem f1) (counter c) (count f c + 1)) in
  entry_step f objs end_ f1 objs1 end1 ->
  entry_step f1 objs1 end1 f2 objs1 end1 ->
  chain_ok f2 objs1 (N + 1) arrs1 c /\ centries f2 arrs1 c = centries f (A c) c ++ [p].
Proof.
  intros Hl Hin Hlk Heff f2 Hs1 Hs2. pose proof (count_range c Hl) as [? ?].
  pose proof (st_arena _ _ _ _ _ _ (j_store _ _ _ _ _ _ _ _ Hj)) as Har.
  assert (0 <= inline_entries c) by (unfold inline_entries; destruct (c =? 0); lia).
  pose proof (li_chain _ _ _ _ _ _ _ _ _ Hlk) as Hc1. pose proof (li_caps _ _ _ _ _ _ _ _ _ Hlk) as Hcap.
  pose proof (li_items _ _ _ _ _ _ _ _ _ Hlk) as Hit.
  assert (count f2 c = count f c + 1) as Hcnt.
  { unfold count at 1. cbn [f2 set_mem jf_mem]. unfold f2. cbn [set_mem jf_mem].
    apply load64_store64_eq. unfold is_u64. lia. }
  assert (forall b k, (b, k) ∈ arrs1 -> forall x, b <= x < b + entry_array_items + 8 * k ->
    byte_at (jf_mem f2) x = byte_at (jf_mem f1) x) as Harr.
  { intros b k Hb x Hx. apply byte_at_store64_ne. pose proof (ec_objs _ _ _ _ Hc1 b k Hb) as Ho.
    destruct (arena_object _ _ _ (es_arena _ _ _ _ _ _ Hs1) _ _ _ Ho) as (_ & ? & _).
    unfold counter. destruct (Z.eqb_spec c 0); [hlia|].
    destruct (live_data _ _ ltac:(done) Hl) as [s Hs].
    destruct (arena_object _ _ _ Har _ _ _ Hs) as (Hob & _). pose proof (obj_min _ _ _ _ Hob) as Hm. cbn in Hm.
    pose proof (es_in _ _ _ _ _ _ _ Hs1 Hs) as Hs'.
    destruct (Z.eq_dec c b) as [->|Hne].
    { by destruct (arena_object_unique _ _ _ (es_arena _ _ _ _ _ _ Hs1) _ _ _ _ _ Ho Hs'). }
    destruct (arena_disjoint _ _ _ (es_arena _ _ _ _ _ _ Hs1) _ _ _ _ _ _ Hs' Ho Hne); hlia. }
  assert (items f2 arrs1 = items f1 arrs1) as Hitems.
  { apply items_agree. intros b k x Hb Hx. apply (Harr b k Hb). hlia. }
  split; [split|].
  - assert (load64 (jf_mem f2) (slot c) = load64 (jf_mem f1) (slot c)) as ->.
    { apply load64_store64_ne. unfold slot, counter. destruct (c =? 0); hlia. }
    eapply (echain_keep f1 f2 objs1 objs1 end1); [apply Hs2|done|done|].
    intros b k x Hb Hx. apply (Harr b k Hb).
    pose proof (proj1 (Forall_forall _ _) (arrs_pos f1 objs1 arrs1 (slot c) Hc1) _ Hb) as Hk. simpl in Hk. hlia.
  - lia.
  - lia.
  - unfold centries. rewrite Hitems, Hcnt. destruct (Z.eqb_spec c 0) as [->|Hc0].
    + rewrite Hcnt. change (inline_entries 0) with 0 in Hit. rewrite Z.sub_0_r in Hit. done.
    + assert (inline_entries c = 1) as Hi by (unfold inline_entries; destruct (Z.eqb_spec c 0); done).
      rewrite Hi in *. destruct (Z.eqb_spec (count f c) 0); [lia|]. destruct (Z.eqb_spec (count f c + 1) 0); [lia|].
      replace (count f c + 1 - 1) with (count f c - 1 + 1) by lia. rewrite Hit. simpl. f_equal.
      destruct (live_data _ _ Hc0 Hl) as [s Hs].
      destruct (arena_object _ _ _ Har _ _ _ Hs) as (Hob & ? & ?). pose proof (obj_min _ _ _ _ Hob) as Hm. cbn in Hm.
      apply load64_ext. intros x Hx. cbn [f2 set_mem jf_mem]. unfold f2. cbn [set_mem jf_mem].
      assert (slot c = c + data_entry_array_offset /\ counter c = c + data_n_entries) as [Es Ec].
      { unfold slot, counter. destruct (Z.eqb_spec c 0); done. }
      rewrite byte_at_store64_ne by hlia.
      apply (le_frame _ _ _ _ _ _ _ _ _ _ Heff); try hlia.
      intros b k Hb Hbx.
      pose proof (ec_objs _ _ _ _ (co_chain _ _ _ _ _ (j_ok _ _ _ _ _ _ _ _ Hj c Hl)) _ _ Hb) as Ho.
      by destruct (objects_overlap _ _ _ _ _ _ _ _ _ x Har Ho Hs ltac:(lia) ltac:(hlia)).
Qed.

(** link_entry_into_array on a chain, and the count of the chain raised behind it. *)
Lemma link_gaining_chain_ok c p :
  live objs c -> inline_entries c <= count f c -> 0 < p -> is_u64 p ->
  exists r f1, link_entry_into_array e fuel (slot c) (count f c - inline_entries c) p f = (r, f1)
    /\ match r with
       | Ok v => v = count f c - inline_entries c + 1 /\ load64 (jf_mem f1) (counter c) = count f c
           /\ exists objs' end' A',
                gains e dch fch f objs end_ N A (set_mem f1 (store64 (jf_mem f1) (counter c) (count f c + 1)))
                  objs' end' (N + 1) A' (gain_one c p)
                /\ end' <= end_ + 64 + 16 * N
       | Err _ => gains e dch fch f objs end_ N A f1 objs end_ N A (fun _ => [])
       | _ => False
       end.
Proof.
  intros Hl Hin Hp0 Hp. pose proof (count_range c Hl) as [Hcr HN].
  assert (0 <= inline_entries c) by (unfold inline_entries; destruct (c =? 0); lia).
  pose proof (j_store _ _ _ _ _ _ _ _ Hj) as [Har Hw _ _].
  destruct (j_ok _ _ _ _ _ _ _ _ Hj c Hl) as [Hc Hn _].
  destruct (link_entry_ok e fuel f objs end_ (A c) (slot c) p (count f c - inline_entries c) He Hpage Har Hw
    (j_zero _ _ _ _ _ _ _ _ Hj) Hc ltac:(by eapply live_head_slot) Hp0 Hp ltac:(lia)
    ltac:(by eapply echain_fuel) ltac:(lia)) as (r & f1 & Hrun & Hr).
  exists r, f1. split; [done|]. destruct r as [v| | |]; try done.
  2:{ eapply gains_step; [done|by apply not_appended_step| |].
      - intros c' x Hl' Hx. apply (na_frame _ _ _ _ Hr).
        pose proof (region_bounds e dch fch f objs end_ N A Hj c' x Hl' Hx). hlia.
      - apply (agree_load64 _ _ _ _ (na_frame _ _ _ _ Hr)). hlia. }
  destruct Hr as (-> & objs1 & end1 & arrs1 & Hlk & Heff). split; [done|].
  pose proof (link_effect_step f objs end_ (A c) c _ p f1 objs1 end1 arrs1 Har Hw Hl Hc Hlk Heff) as Hs1.
  assert (forall x, off_n_entries <= x < end_ -> ~ (slot c <= x < slot c + 8) ->
    (forall b k, (b, k) ∈ A c -> ~ (b + 16 <= x < b + entry_array_items + 8 * k)) ->
    ~ (off_n_entry_arrays <= x < off_n_entry_arrays + 8) -> byte_at (jf_mem f1) x = byte_at (jf_mem f) x) as Hkeep.
  { intros x Hx H1 H2 H3. apply (le_frame _ _ _ _ _ _ _ _ _ _ Heff); try done; hlia. }
  assert (forall c' x, live objs c' -> c' <> c -> region (A c') c' x -> ~ region (A c) c x) as Hap.
  { intros c' x Hl' Hne Hx Hx'. by eapply (region_apart e dch fch f objs end_ N A Hj c' c). }
  assert (forall x, slot c <= x < slot c + 8 -> region (A c) c x) as Hslot.
  { unfold slot, region. destruct (Z.eqb_spec c 0); intros x Hx; [left|right; left]; (split; [done|hlia]). }
  assert (forall c' x, live objs c' -> region (A c') c' x -> ~ (off_n_entry_arrays <= x < off_n_entry_arrays + 8)) as Hna.
  { intros c' x Hl' Hx Hb.
    destruct (region_cases e dch fch f objs end_ N A Hj c' x Hl' Hx) as [(_ & ? & _)|(b & ty & s & Hbo & ? & _)]; [hlia|].
    destruct (arena_object _ _ _ Har _ _ _ Hbo). hlia. }
  assert (forall x, counter c <= x < counter c + 8 -> byte_at (jf_mem f1) x = byte_at (jf_mem f) x) as Hcnt.
  { intros x Hx. pose proof (counter_region c x Hx) as Hr.
    apply Hkeep; [by eapply (region_bounds e dch fch f objs end_ N A Hj c)| | |by eapply Hna].
    - unfold slot, counter in *. destruct (c =? 0); hlia.
    - intros b k Hb Hbx. pose proof (ec_objs _ _ _ _ Hc _ _ Hb) as Ho.
      destruct (arena_object _ _ _ Har _ _ _ Ho). unfold counter in Hx. destruct (Z.eqb_spec c 0); [hlia|].
      destruct (live_data _ _ ltac:(done) Hl) as [s Hs].
      destruct (arena_object _ _ _ Har _ _ _ Hs) as (Hob & _). pose proof (obj_min _ _ _ _ Hob) as Hm. cbn in Hm.
      by destruct (objects_overlap _ _ _ _ _ _ _ _ _ x Har Ho Hs ltac:(lia) ltac:(hlia)). }
  split; [by apply load64_ext|].
  set (f2 := set_mem f1 (store64 (jf_mem f1) (counter c) (count f c + 1))).
  assert (entry_step f1 objs1 end1 f2 objs1 end1) as Hs2.
  { apply loose_step; [apply Hs1|apply Hs1|apply mem_ok_store64, (es_arena _ _ _ _ _ _ Hs1)|].
    intros x Hx. apply byte_at_store64_ne.
    destruct (decide (counter c <= x < counter c + 8)) as [Hd|?]; [|lia]. destruct Hx.
    apply (counter_loose c x Hl) in Hd as [?|(d & s & Hd & ?)]; [by left|right]. exists d, s.
    split; [by eapply es_in|done]. }
  destruct (linked_centries c p f1 objs1 end1 arrs1 Hl Hin Hlk Heff Hs1 Hs2) as [Hok Hcent].
  assert (entry_step f objs end_ f2 objs1 end1) as Hs by (by eapply entry_step_trans).
  destruct (journal_update e dch fch f objs end_ N A Hj f2 objs1 end1 (N + 1) c arrs1 Hs ltac:(lia) Hl Hok)
    as [Hj2 Hothers].
  - intros b Hb. apply list_elem_of_fmap in Hb as ([b' k] & -> & Hb).
    destruct (le_arrs _ _ _ _ _ _ _ _ _ _ Heff b' k Hb) as [Hin'| ->]; [left|by right].
    apply list_elem_of_fmap. by exists (b', k).
  - intros c' x Hl' Hne Hx. pose proof (Hap c' x Hl' Hne Hx) as Hno. cbn [f2 set_mem jf_mem]. unfold f2.
    cbn [set_mem jf_mem]. rewrite byte_at_store64_ne.
    2:{ destruct (decide (counter c <= x < counter c + 8)) as [Hd|?]; [|lia]. by destruct Hno; apply counter_region. }
    apply Hkeep; [by eapply (region_bounds e dch fch f objs end_ N A Hj c')|auto| |by eapply Hna].
    intros b k Hb Hbx. apply Hno. right. right. by exists b, k.
  - exists objs1, end1, (fun x => if decide (x = c) then arrs1 else A x). split.
    + split; [exact Hj2|exact Hs| |].
      * intros c' Hl'. unfold gain_one. case_decide as Hd; [by subst|]. rewrite app_nil_r. by apply Hothers.
      * apply load64_ext. intros x Hx. unfold f2. cbn [set_mem jf_mem].
        assert (x < counter c \/ counter c + 8 <= x) as Hxc.
        { unfold counter. destruct (Z.eqb_spec c 0); [hlia|]. destruct (live_data _ _ ltac:(done) Hl) as [s Hs'].
          destruct (arena_object _ _ _ Har _ _ _ Hs'). hlia. }
        rewrite byte_at_store64_ne by done. destruct (arena_above _ _ _ Har). apply Hkeep; [hlia| | |hlia].
        -- unfold slot. destruct (Z.eqb_spec c 0); [hlia|]. destruct (live_data _ _ ltac:(done) Hl) as [s Hs'].
           destruct (arena_object _ _ _ Har _ _ _ Hs'). hlia.
        -- intros b k Hb. destruct (arena_object _ _ _ Har _ _ _ (ec_objs _ _ _ _ Hc _ _ Hb)). hlia.
    + pose proof (le_end _ _ _ _ _ _ _ _ _ _ Heff). lia.
Qed.

(** The first entry of a data object is kept in the object. *)
Lemma first_entry_ok c p :
  live objs c -> c <> 0 -> count f c = 0 -> is_u64 p ->
  let f' := set_mem f (store64 (store64 (jf_mem f) (c + data_entry_offset) p) (c + data_n_entries) 1) in
  gains e dch fch f objs end_ N A f' objs end_ (N + 1) A (gain_one c p).
Proof.
  intros Hl Hc0 Hcnt Hp f'. pose proof (count_range c Hl) as [Hcr HN].
  pose proof (j_store _ _ _ _ _ _ _ _ Hj) as [Har Hw _ _].
  destruct (live_data _ _ Hc0 Hl) as [s Hs].
  destruct (arena_object _ _ _ Har _ _ _ Hs) as (Hob & ? & ?). pose proof (obj_min _ _ _ _ Hob) as Hm. cbn in Hm.
  assert (forall x, ~ (c + data_entry_offset <= x < c + data_payload) -> byte_at (jf_mem f') x = byte_at (jf_mem f) x) as Hag.
  { intros x Hx. unfold f'. cbn [set_mem jf_mem]. rewrite !byte_at_store64_ne by hlia. done. }
  assert (entry_step f objs end_ f' objs end_) as Hst.
  { apply loose_step; [done|done|apply mem_ok_store64, mem_ok_store64, Har|]. intros x Hx. apply Hag. intros Hr. apply Hx. right. eauto. }
  destruct (j_ok _ _ _ _ _ _ _ _ Hj c Hl) as [Hch Hn Hbd].
  assert (counter c = c + data_n_entries /\ slot c = c + data_entry_array_offset /\ inline_entries c = 1) as (Ec & Es & Ei).
  { unfold counter, slot, inline_entries. destruct (Z.eqb_spec c 0); done. }
  assert (count f' c = 1) as Hcnt'.
  { unfold count. rewrite Ec. unfold f'. cbn [set_mem jf_mem]. apply load64_store64_eq. unfold is_u64. lia. }
  assert (0 <= caps (A c)) as Hcap by (eapply caps_nonneg, arrs_pos; exact Hch).
  destruct (journal_update e dch fch f objs end_ N A Hj f' objs end_ (N + 1) c (A c) Hst ltac:(lia) Hl)
    as [Hj' Hoth].
  - split; [|lia..].
    assert (load64 (jf_mem f') (slot c) = load64 (jf_mem f) (slot c)) as ->.
    { unfold f'. cbn [set_mem jf_mem]. rewrite !load64_store64_ne by (rewrite Es; hlia). done. }
    eapply (echain_keep f f' objs objs end_); [apply Hst|done|done|].
    intros b k x Hb Hx. apply Hag. intros Hr. pose proof (ec_objs _ _ _ _ Hch _ _ Hb) as Ho.
    pose proof (proj1 (Forall_forall _ _) (arrs_pos f objs (A c) (slot c) Hch) _ Hb) as Hk. simpl in Hk.
    by destruct (objects_overlap _ _ _ _ _ _ _ _ _ x Har Ho Hs ltac:(hlia) ltac:(hlia)).
  - by left.
  - intros c' x Hl' Hne Hx. apply Hag. intros Hr.
    apply (region_apart e dch fch f objs end_ N A Hj c' c x Hl' Hl Hne Hx). right. by left.
  - assert (forall x, (if decide (x = c) then A c else A x) = A x) as HA by (intros x; case_decide; congruence).
    split; [|done| |apply load64_ext; intros x Hx; apply Hag; hlia].
    + destruct Hj' as [J1 J2 J3 J4 J5]. split; try done.
      * intros x Hx. rewrite <- (HA x). by apply J3.
      * intros x y b. rewrite <- (HA x), <- (HA y). by apply J4.
      * intros x Hx. rewrite <- (HA x). by apply J5.
    + intros c' Hl'. unfold gain_one. case_decide as Hd; [subst c'|rewrite app_nil_r; by apply Hoth].
      unfold centries. rewrite Hcnt, Hcnt'. destruct (Z.eqb_spec c 0); [done|]. simpl. f_equal.
      change (load64 (store64 (store64 (jf_mem f) (c + data_entry_offset) p) (c + data_n_entries) 1) (c + data_entry_offset) = p).
      rewrite load64_store64_ne by hlia. by apply load64_store64_eq.
Qed.

(** link_entry_into_array_plus_one on the chain of a data object. *)
Lemma link_plus_one_ok c p :
  live objs c -> c <> 0 -> 0 < p -> is_u64 p ->
  exists r f', link_entry_into_array_plus_one e fuel (c + data_entry_offset) (c + data_entry_array_offset)
                 (c + data_n_entries) p f = (r, f')
    /\ exists objs' end' A' g, gains e dch fch f objs end_ N A f' objs' end' (N + 1) A' g
    /\ end' <= end_ + 64 + 16 * N
    /\ match r with Ok _ => g = gain_one c p | Err _ => g = fun _ => [] | _ => False end.
Proof.
  intros Hl Hc0 Hp0 Hp. pose proof (count_range c Hl) as [Hcr HN].
  assert (counter c = c + data_n_entries /\ slot c = c + data_entry_array_offset /\ inline_entries c = 1) as (Ec & Es & Ei).
  { unfold counter, slot, inline_entries. destruct (Z.eqb_spec c 0); done. }
  unfold link_entry_into_array_plus_one. rewrite run_assert by zdecide. run.
  rewrite <- Ec, <- Es. change (load64 (jf_mem f) (counter c)) with (count f c).
  destruct (Z.eqb_spec (count f c) 0) as [Hz|Hnz].
  - run. cbn [set_mem jf_mem].
    assert (load64 (store64 (jf_mem f) (c + data_entry_offset) p) (counter c) = 0) as ->.
    { rewrite load64_store64_ne by (rewrite Ec; hlia). done. }
    eexists (Ok tt), _. split; [reflexivity|]. exists objs, end_, A, (gain_one c p).
    split; [|split; [lia|done]]. rewrite Ec. by apply first_entry_ok.
  - destruct (link_gaining_chain_ok c p Hl ltac:(lia) Hp0 Hp) as (r & f1 & Hrun & Hr). rewrite Ei in Hrun, Hr.
    destruct r as [v|er| |]; [| |done|done].
    + destruct Hr as (-> & Hcn & objs' & end' & A' & Hg & He'). run. rewrite (run_bind _ _ _ _ _ Hrun). run.
      rewrite Hcn. eexists (Ok tt), _. split; [reflexivity|]. exists objs', end', A', (gain_one c p).
      rewrite u64_small by (unfold is_u64; lia). done.
    + exists (Err er), f1. split; [unfold bind; by rewrite Hrun|]. exists objs, end_, A, (fun _ => []).
      split; [by eapply gains_weaken; [exact Hr|lia]|]. split; [lia|done].
Qed.

End Link.

(** * Linking an entry object *)

(** How often a data object is among the items of an entry. *)
Definition occurrences (c : Z) (its : list (Z * Z)) : nat := length (filter (fun it => it.1 = c) its).

Lemma occurrences_cons c it its (p : Z) :
  replicate (occurrences c (it :: its)) p = gain_one it.1 p c ++ replicate (occurrences c its) p.
Proof.
  unfold occurrences, gain_one. rewrite filter_cons.
  destruct (decide (it.1 = c)); case_decide; done || congruence.
Qed.

(** The [its] are the items of the entry object at [o] from the [i]-th one on. *)
Definition has_items (f : JournalFile) (objs : list (Z * Z * Z)) (o i : Z) (its : list (Z * Z)) : Prop :=
  (exists s, (o, OBJECT_ENTRY, s) ∈ objs /\ entry_items + sizeof_EntryItem * (i + zlen its) <= s /\ 0 <= i)
  /\ forall j d h, its !! j = Some (d, h) ->
       load64 (jf_mem f) (entry_item o (i + Z.of_nat j)) = d /\ d <> 0 /\ live objs d.

Lemma has_items_step f objs end_ f' objs' end' o i its :
  arena f objs end_ -> entry_step f objs end_ f' objs' end' -> has_items f objs o i its -> has_items f' objs' o i its.
Proof.
  intros Har Hs [(s & Ho & Hlen & Hi) Hits]. split.
  - exists s. split; [by eapply es_in|done].
  - intros j d h Hj. destruct (Hits j d h Hj) as (Hl & Hd & Hlive).
    split_and!; [|done|eapply live_mono; [intros x; eapply es_in, Hs|done]].
    rewrite <- Hl. apply load64_ext. intros x Hx. apply lookup_lt_Some in Hj. unfold entry_item, zlen in *.
    eapply entry_step_object; [exact Har|exact Hs|exact Ho|hlia|done|done].
Qed.

Lemma has_items_tail f objs o i it its : has_items f objs o i (it :: its) -> has_items f objs o (i + 1) its.
Proof.
  intros [(s & Ho & Hlen & Hi) Hits]. split.
  - exists s. unfold zlen in *. simpl in Hlen. split_and!; [done|lia|lia].
  - intros j d h Hj. destruct (Hits (S j) d h Hj) as (Hl & ?). split; [|done]. rewrite <- Hl. do 2 f_equal. lia.
Qed.

Lemma journal_bound_nonneg e dch fch f objs end_ N A : journal e f objs end_ dch fch N A -> 0 <= N.
Proof.
  intros Hj. pose proof (co_bound _ _ _ _ _ (j_ok _ _ _ _ _ _ _ _ Hj 0 (or_introl eq_refl))).
  pose proof (load64_range (jf_mem f) (counter 0) (ar_mem _ _ _ (st_arena _ _ _ _ _ _ (j_store _ _ _ _ _ _ _ _ Hj)))) as [? _].
  unfold count in *. lia.
Qed.

Section LinkEntry.
Context (e : Env) (fuel : nat) (He : mmap_ok e) (Hpage : page_ok e) (dch fch : Z -> list Z) (p W : Z)
  (Hp0 : 0 < p) (Hp : is_u64 p).

Lemma link_item_ok f objs end_ N A o i d h its :
  journal e f objs end_ dch fch N A -> has_items f objs o i ((d, h) :: its) ->
  end_ + 100 + 16 * N < 2 ^ 61 -> end_ <= 16 * Z.of_nat fuel ->
  exists r f', journal_file_link_entry_item e fuel o p i f = (r, f')
    /\ exists objs' end' A' g, gains e dch fch f objs end_ N A f' objs' end' (N + 1) A' g
    /\ end' <= end_ + 64 + 16 * N
    /\ match r with Ok _ => g = gain_one d p | Err _ => g = fun _ => [] | _ => False end.
Proof.
  intros Hj [_ Hits] Hsz Hfuel. destruct (Hits 0%nat d h eq_refl) as (Hl & Hd & Hlive).
  rewrite Z.add_0_r in Hl. unfold journal_file_link_entry_item. rewrite run_assert by zdecide. run.
  rewrite Hl.
  destruct (live_data _ _ Hd Hlive) as [s Hs].
  destruct (arena_object _ _ _ (st_arena _ _ _ _ _ _ (j_store _ _ _ _ _ _ _ _ Hj)) _ _ _ Hs) as (Ho & _).
  rewrite (run_bind _ _ _ _ _ (move_to_object_ok e _ _ _ _ _ He Ho (or_introl eq_refl))).
  by apply link_plus_one_ok.
Qed.

Lemma link_items_ok o its : forall i f objs end_ N A,
  journal e f objs end_ dch fch N A -> has_items f objs o i its -> N + zlen its <= W ->
  end_ + zlen its * (64 + 16 * W) + 100 + 16 * W < 2 ^ 61 -> end_ + zlen its * (64 + 16 * W) <= 16 * Z.of_nat fuel ->
  exists r f', link_items e fuel (length its) o p i f = (r, f')
    /\ exists objs' end' A' g, gains e dch fch f objs end_ N A f' objs' end' (N + zlen its) A' g
    /\ end' <= end_ + zlen its * (64 + 16 * W)
    /\ g 0 = []
    /\ match r with Ok _ => forall c, g c = replicate (occurrences c its) p | Err _ => True | _ => False end.
Proof.
  unfold zlen. induction its as [|[d h] its IH]; intros i f objs end_ N A Hj Hits HN Hsz Hfuel; simpl length in *.
  { exists (Ok tt), f. split; [done|]. exists objs, end_, A, (fun _ => []). split_and!; [|lia|done|done].
    replace (N + Z.of_nat 0) with N by lia. eapply gains_step; [done| |done|done].
    apply entry_step_refl; apply Hj. }
  pose proof (journal_bound_nonneg e dch fch f objs end_ N A Hj) as HN0.
  set (X := 64 + 16 * W) in *.
  assert (Z.of_nat (S (length its)) * X = Z.of_nat (length its) * X + X) as EX by lia. rewrite EX in *.
  assert (0 <= Z.of_nat (length its) * X) by (apply Z.mul_nonneg_nonneg; lia).
  cbn [link_items].
  destruct (link_item_ok f objs end_ N A o i d h its Hj Hits ltac:(lia) ltac:(lia))
    as (r & f1 & Hrun & objs1 & end1 & A1 & g1 & Hg1 & He1 & Hr).
  pose proof (st_arena _ _ _ _ _ _ (j_store _ _ _ _ _ _ _ _ Hj)) as Har.
  destruct r as [[]|er| |]; try done.
  2:{ exists (Err er), f1. split; [unfold bind; by rewrite Hrun|]. exists objs1, end1, A1, g1.
      split_and!; [eapply gains_weaken; [exact Hg1|lia]|lia|by rewrite Hr|done]. }
  rewrite (run_bind _ _ _ _ _ Hrun).
  destruct (IH (i + 1) f1 objs1 end1 (N + 1) A1) as (r2 & f2 & Hrun2 & objs2 & end2 & A2 & g2 & Hg2 & He2 & Hz2 & Hr2).
  - apply Hg1.
  - eapply has_items_tail, has_items_step; [exact Har|apply Hg1|exact Hits].
  - lia.
  - lia.
  - lia.
  - exists r2, f2. split; [done|]. exists objs2, end2, A2, (fun c => g1 c ++ g2 c).
    replace (N + Z.of_nat (S (length its))) with (N + 1 + Z.of_nat (length its)) by lia.
    destruct Hits as [_ Hits]. destruct (Hits 0%nat d h eq_refl) as (_ & Hd & _).
    split_and!; [by eapply gains_trans|lia| |].
    { rewrite Hz2, Hr. unfold gain_one. by destruct (decide (0 = d)). }
    destruct r2; try done. intros c. by rewrite occurrences_cons, Hr, Hr2.
Qed.

End LinkEntry.

(** * The fields of the header and of the handle *)

(** The handles that show the same file the same way. *)
Record same_file (f f' : JournalFile) : Prop := {
  sf_mem : jf_mem f' = jf_mem f;
  sf_size : jf_size f' = jf_size f;
  sf_last : jf_last_size f' = jf_last_size f;
  sf_fd : jf_fd f' = jf_fd f;
  sf_header : jf_header f' = jf_header f;
  sf_writable : jf_writable f' = jf_writable f;
  sf_data : jf_data_hash_table f' = jf_data_hash_table f;
  sf_field : jf_field_hash_table f' = jf_field_hash_table f }.

Lemma same_file_step f f' objs end_ : arena f objs end_ -> writable f -> same_file f f' -> entry_step f objs end_ f' objs end_.
Proof.
  intros Har [? ? ? Hst] []. split; try done.
  - eapply arena_agree; try done; rewrite sf_mem0; [apply agree_refl|apply Har].
  - split; try congruence. unfold hdr_state in *. by rewrite sf_mem0.
  - exists []. by rewrite app_nil_r.
  - intros Hz x Hx. rewrite sf_mem0. by apply Hz.
  - intros. by rewrite sf_mem0.
Qed.

Section Header.
Context (e : Env) (dch fch : Z -> list Z) (f : JournalFile) (objs : list (Z * Z * Z)) (end_ N : Z)
  (A : Z -> list (Z * Z)) (Hj : journal e f objs end_ dch fch N A).

Lemma gains_same_file f' : same_file f f' -> gains e dch fch f objs end_ N A f' objs end_ N A (fun _ => []).
Proof.
  intros Hsf. eapply gains_step; [done|apply same_file_step; [apply Hj|apply Hj|done]| |].
  - intros. by rewrite (sf_mem _ _ Hsf).
  - unfold hdr. by rewrite (sf_mem _ _ Hsf).
Qed.

(** The times of the header. *)
Definition header_frame (x : Z) : Prop := ~ (off_head_entry_realtime <= x < off_n_data).

Lemma gains_header m :
  mem_ok m -> agree header_frame (jf_mem f) m ->
  gains e dch fch f objs end_ N A (set_mem f m) objs end_ N A (fun _ => []).
Proof.
  intros Hm Hag. eapply gains_step; [done|apply loose_step; [apply Hj|apply Hj|done|]| |].
  - intros x Hx. apply Hag. unfold header_frame, loose in *. intros ?; apply Hx; left; hlia.
  - intros c x Hl Hx. apply Hag. unfold header_frame.
    destruct (region_cases e dch fch f objs end_ N A Hj c x Hl Hx) as [(_ & ? & ?)|(b & ty & s & Hb & ? & _)]; [hlia|].
    destruct (arena_object _ _ _ (st_arena _ _ _ _ _ _ (j_store _ _ _ _ _ _ _ _ Hj)) _ _ _ Hb). hlia.
  - apply (agree_load64 _ _ _ _ Hag). unfold header_frame. hlia.
Qed.

End Header.

(** * journal_file_link_entry *)

Section LinkFile.
Context (e : Env) (fuel : nat) (He : mmap_ok e) (Hpage : page_ok e) (dch fch : Z -> list Z).

(** The entries' chain of the file. *)
Lemma link_file_ok f objs end_ N A p :
  journal e f objs end_ dch fch N A -> 0 < p -> is_u64 p ->
  end_ + 100 + 16 * N < 2 ^ 61 -> end_ <= 16 * Z.of_nat fuel ->
  exists r f', (ne <- rd off_n_entries ;; idx <- link_entry_into_array e fuel off_entry_array_offset ne p ;;
                wr off_n_entries idx) f = (r, f')
    /\ exists objs' end' A' g, gains e dch fch f objs end_ N A f' objs' end' (N + 1) A' g
    /\ end' <= end_ + 64 + 16 * N
    /\ match r with Ok _ => g = gain_one 0 p | Err _ => g = fun _ => [] | _ => False end.
Proof.
  intros Hj Hp0 Hp Hsz Hfuel.
  pose proof (count_range e fuel dch fch f objs end_ N A Hj Hsz 0 (or_introl eq_refl)) as [Hcr HN].
  destruct (link_gaining_chain_ok e fuel He Hpage dch fch f objs end_ N A Hj Hsz Hfuel 0 p (or_introl eq_refl)
    (proj1 Hcr) Hp0 Hp) as (r & f1 & Hrun & Hr).
  change (inline_entries 0) with 0 in *. rewrite Z.sub_0_r in Hrun, Hr.
  change (slot 0) with off_entry_array_offset in Hrun. run.
  change (load64 (jf_mem f) off_n_entries) with (count f 0).
  destruct r as [v|er| |]; [| |done|done].
  - destruct Hr as (-> & _ & objs' & end' & A' & Hg & He'). rewrite (run_bind _ _ _ _ _ Hrun).
    eexists (Ok tt), _. split; [reflexivity|]. exists objs', end', A', (gain_one 0 p). done.
  - exists (Err er), f1. split; [unfold bind; by rewrite Hrun|]. exists objs, end_, A, (fun _ => []).
    split; [by eapply gains_weaken; [exact Hr|lia]|]. split; [lia|done].
Qed.

(** The times an entry leaves in the header. *)
Definition header_times (m : mem) (o : Z) : mem :=
  let rt := load64 m (o + entry_realtime) in
  let m1 := if load64 m off_head_entry_realtime =? 0 then store64 m off_head_entry_realtime rt else m in
  store64 (store64 m1 off_tail_entry_realtime rt) off_tail_entry_monotonic (load64 m (o + entry_monotonic)).

Lemma header_times_frame m o : agree header_frame m (header_times m o).
Proof.
  unfold header_times. unfold header_frame. cbv zeta.
  eapply agree_trans; [|apply agree_store64; hlia]. eapply agree_trans; [|apply agree_store64; hlia].
  destruct (_ =? 0); [apply agree_store64; hlia|apply agree_refl].
Qed.

Lemma header_times_ok m o : mem_ok m -> mem_ok (header_times m o).
Proof. intros. unfold header_times. destruct (_ =? 0); auto with mem. Qed.

Lemma header_times_run {B} o (k : M B) f :
  (hr <- rd off_head_entry_realtime ;; rt <- rd (o + entry_realtime) ;; mt <- rd (o + entry_monotonic) ;;
   when (hr =? 0) (wr off_head_entry_realtime rt) ;; wr off_tail_entry_realtime rt ;;
   wr off_tail_entry_monotonic mt ;; modify (fun f => set_tail_valid f true) ;; k) f
  = k (set_tail_valid (set_mem f (header_times (jf_mem f) o)) true).
Proof.
  run. unfold header_times, when. cbv zeta. by destruct (load64 (jf_mem f) off_head_entry_realtime =? 0).
Qed.

Definition link_file (p : Z) : M unit :=
  ne <- rd off_n_entries ;; idx <- link_entry_into_array e fuel off_entry_array_offset ne p ;; wr off_n_entries idx.

Lemma link_file_bind {B} p (k : M B) f :
  (idx <- link_entry_into_array e fuel off_entry_array_offset (load64 (jf_mem f) off_n_entries) p ;;
   wr off_n_entries idx ;; k) f = bind (link_file p) (fun _ => k) f.
Proof. unfold link_file. run. unfold bind. by destruct (link_entry_into_array e fuel _ _ _ _) as [[] ?]. Qed.

Lemma entry_n_items_ok f p n :
  is_object f OBJECT_ENTRY p (entry_items + n * sizeof_EntryItem) -> 0 <= n < 2 ^ 59 ->
  journal_file_entry_n_items p f = (Ok n, f).
Proof.
  intros Ho Hn. unfold journal_file_entry_n_items. run. rewrite (obj_type_eq _ _ _ _ Ho), (obj_size_eq _ _ _ _ Ho).
  simpl. rewrite Z.add_simpl_l. rewrite u64_small by (unfold is_u64; hlia). by rewrite Z.div_mul.
Qed.

(** Linking the entry object at [p]: into the chain of the file, then into those of
    its data objects. *)
Lemma link_entry_object_ok f objs end_ N A p its W :
  journal e f objs end_ dch fch N A -> (p, OBJECT_ENTRY, entry_items + zlen its * sizeof_EntryItem) ∈ objs ->
  has_items f objs p 0 its -> N + 1 + zlen its <= W ->
  end_ + (1 + zlen its) * (64 + 16 * W) + 100 + 16 * W < 2 ^ 61 ->
  end_ + (1 + zlen its) * (64 + 16 * W) <= 16 * Z.of_nat fuel ->
  exists r f', journal_file_link_entry e fuel p p f = (r, f')
    /\ exists objs' end' A' g, gains e dch fch f objs end_ N A f' objs' end' (N + 1 + zlen its) A' g
    /\ (g 0 = [] \/ g 0 = [p])
    /\ match r with
       | Ok _ => forall c, g c = gain_one 0 p c ++ replicate (occurrences c its) p
       | Err _ => True
       | _ => False
       end.
Proof.
  intros Hj Hin Hits HN Hsz Hfuel. pose proof (journal_bound_nonneg _ _ _ _ _ _ _ _ Hj) as HN0.
  pose proof (st_arena _ _ _ _ _ _ (j_store _ _ _ _ _ _ _ _ Hj)) as Har.
  destruct (arena_object _ _ _ Har _ _ _ Hin) as (Ho & Hp240 & Hpe).
  assert (0 <= zlen its) as Hlen by (unfold zlen; lia).
  set (X := 64 + 16 * W) in *.
  assert ((1 + zlen its) * X = zlen its * X + X) as EX by lia. rewrite EX in *.
  assert (0 <= zlen its * X) by (apply Z.mul_nonneg_nonneg; lia).
  assert (is_u64 p) as Hp by (unfold is_u64; hlia).
  unfold journal_file_link_entry. rewrite run_assert by zdecide. run. rewrite (obj_type_eq _ _ _ _ Ho). run.
  rewrite link_file_bind.
  destruct (link_file_ok f objs end_ N A p Hj ltac:(lia) Hp ltac:(lia) ltac:(lia))
    as (r & f1 & Hrun & objs1 & end1 & A1 & g1 & Hg1 & He1 & Hr). fold (link_file p) in Hrun.
  destruct r as [[]|er| |]; try done.
  2:{ exists (Err er), f1. split; [unfold bind; by rewrite Hrun|]. exists objs1, end1, A1, g1.
      split; [eapply gains_weaken; [exact Hg1|lia]|]. split; [left; by rewrite Hr|done]. }
  rewrite (run_bind _ _ _ _ _ Hrun). rewrite header_times_run.
  set (f2 := set_mem f1 (header_times (jf_mem f1) p)). set (f3 := set_tail_valid f2 true).
  pose proof (gn_journal _ _ _ _ _ _ _ _ _ _ _ _ _ _ Hg1) as Hj1.
  pose proof (st_arena _ _ _ _ _ _ (j_store _ _ _ _ _ _ _ _ Hj1)) as Har1.
  pose proof (gains_header e dch fch f1 objs1 end1 (N + 1) A1 Hj1 (header_times (jf_mem f1) p)
    ltac:(apply header_times_ok, Har1) (header_times_frame _ _)) as Hg2. fold f2 in Hg2.
  pose proof (gains_same_file e dch fch f2 objs1 end1 (N + 1) A1 (gn_journal _ _ _ _ _ _ _ _ _ _ _ _ _ _ Hg2) f3
    ltac:(by split)) as Hg3.
  pose proof (gains_trans _ _ _ _ _ _ _ _ _ _ _ _ _ _ _ _ _ _ _ _ Har Hg1
    (gains_trans _ _ _ _ _ _ _ _ _ _ _ _ _ _ _ _ _ _ _ _ Har1 Hg2 Hg3)) as Hg13.
  pose proof (gn_journal _ _ _ _ _ _ _ _ _ _ _ _ _ _ Hg13) as Hj3.
  pose proof (gn_step _ _ _ _ _ _ _ _ _ _ _ _ _ _ Hg13) as Hs13.
  destruct (arena_object _ _ _ (st_arena _ _ _ _ _ _ (j_store _ _ _ _ _ _ _ _ Hj3)) _ _ _ (es_in _ _ _ _ _ _ _ Hs13 Hin))
    as (Ho3 & _).
  rewrite (run_bind _ _ _ _ _ (entry_n_items_ok f3 p (zlen its) Ho3 ltac:(hlia))).
  unfold zlen at 1. rewrite Nat2Z.id.
  destruct (link_items_ok e fuel He Hpage dch fch p W ltac:(lia) Hp p its 0 f3 objs1 end1 (N + 1) A1 Hj3
    (has_items_step _ _ _ _ _ _ _ _ _ Har Hs13 Hits) ltac:(lia) ltac:(lia) ltac:(lia))
    as (r2 & f4 & Hrun4 & objs4 & end4 & A4 & g4 & Hg4 & _ & Hz4 & Hr4).
  exists r2, f4. split; [done|].
  exists objs4, end4, A4, (fun c => (g1 c ++ [] ++ []) ++ g4 c).
  split; [eapply gains_trans; [exact Har|exact Hg13|exact Hg4]|].
  split; [right; by rewrite Hr, Hz4, app_nil_r|].
  destruct r2; try done. intros c. by rewrite Hr, Hr4, app_nil_r.
Qed.

End LinkFile.

(** * Appending the data objects *)

(** Storing data adds no entry to any chain. *)
Lemma journal_extends e f objs end_ dch fch N A f' objs' end' dch' fch' cost :
  journal e f objs end_ dch fch N A -> store e f' objs' end' dch' fch' -> extends f objs f' objs' ->
  grown f objs end_ f' objs' end' cost ->
  journal e f' objs' end' dch' fch' N A
  /\ forall c, live objs' c -> centries f' (A c) c = held f objs A c.
Proof.
  intros Hj Hst Hex Hgr. pose proof (st_arena _ _ _ _ _ _ (j_store _ _ _ _ _ _ _ _ Hj)) as Har.
  pose proof (journal_bound_nonneg _ _ _ _ _ _ _ _ Hj) as HN0.
  assert (forall x, x ∈ objs -> x ∈ objs') as Hin by (intros x; by eapply extends_in).
  assert (forall c x, live objs c -> region (A c) c x -> byte_at (jf_mem f') x = byte_at (jf_mem f) x) as Hag.
  { intros c x Hl Hx.
    destruct (region_cases e dch fch f objs end_ N A Hj c x Hl Hx) as [(_ & ? & ?)|(b & ty & s & Hb & ? & Hty)].
    - apply (ex_header _ _ _ _ Hex). hlia.
    - destruct Hx as [[-> Hx]|[[Hc Hx]|(b' & k & Hb' & Hx)]].
      + destruct (arena_object _ _ _ Har _ _ _ Hb). hlia.
      + destruct (live_data _ _ Hc Hl) as [s' Hs']. destruct (arena_object _ _ _ Har _ _ _ Hs') as (Ho & _).
        pose proof (obj_min _ _ _ _ Ho) as Hm. cbn in Hm.
        eapply (ex_object _ _ _ _ Hex); [exact Hs'|hlia|done|done|hlia].
      + pose proof (ec_objs _ _ _ _ (co_chain _ _ _ _ _ (j_ok _ _ _ _ _ _ _ _ Hj c Hl)) _ _ Hb') as Ho.
        eapply (ex_object _ _ _ _ Hex); [exact Ho|lia|done|done|by intros [?|?]]. }
  assert (forall c, live objs' c -> ~ live objs c -> A c = [] /\ c <> 0 /\ fresh_links f' c) as Hfresh.
  { intros c Hl Hd. split; [by apply (j_dead _ _ _ _ _ _ _ _ Hj)|].
    assert (c <> 0) as Hc by (intros ->; apply Hd; by left). split; [done|].
    destruct (live_data _ _ Hc Hl) as [s Hs]. destruct (gr_data _ _ _ _ _ _ _ Hgr c s Hs) as [Ho|?]; [|done].
    by destruct Hd; eapply live_object. }
  split; [split|].
  - done.
  - intros x Hx. pose proof (gr_end _ _ _ _ _ _ _ Hgr). rewrite (gr_above _ _ _ _ _ _ _ Hgr) by done.
    apply (j_zero _ _ _ _ _ _ _ _ Hj). lia.
  - intros c Hl. destruct (decide (live objs c)) as [Ho|Hd].
    + eapply (chain_ok_keep f f' objs objs' end'); [apply Hst|done|by apply Hj|]. intros x. by apply Hag.
    + destruct (Hfresh c Hl Hd) as (-> & Hc & H1 & H2 & H3).
      assert (count f' c = 0) as Hz.
      { unfold count, counter. by destruct (Z.eqb_spec c 0). }
      split; [|rewrite Hz; unfold inline_entries; destruct (c =? 0); simpl; lia|lia].
      unfold slot. destruct (Z.eqb_spec c 0); [done|]. rewrite H2.
      split; [done|by intros b k ?%not_elem_of_nil|constructor].
  - apply (j_apart _ _ _ _ _ _ _ _ Hj).
  - intros c Hd. apply (j_dead _ _ _ _ _ _ _ _ Hj). intros Hl. apply Hd. by eapply live_mono.
  - intros c Hl. unfold held. case_decide as Ho; [apply centries_keep; intros x; by apply Hag|].
    destruct (Hfresh c Hl Ho) as (-> & Hc & _ & _ & H3). unfold centries, count, counter.
    destruct (Z.eqb_spec c 0); [done|]. by rewrite H3.
Qed.

Lemma held_trans f objs A f1 objs1 f2 c :
  (forall x, x ∈ objs -> x ∈ objs1) -> (forall c, live objs1 c -> centries f1 (A c) c = held f objs A c) ->
  centries f2 (A c) c = held f1 objs1 A c -> centries f2 (A c) c = held f objs A c.
Proof.
  intros Hin H1 ->. unfold held at 1. case_decide as Hl; [by apply H1|].
  unfold held. case_decide as Ho; [|done]. destruct Hl. by eapply live_mono.
Qed.

(** An entry item that stands for [data]. *)
Definition item_for (e : Env) (f : JournalFile) (objs : list (Z * Z * Z)) (data : list Z) (it : Z * Z) : Prop :=
  (exists s, (it.1, OBJECT_DATA, s) ∈ objs) /\ data_of e f it.1 = Some data /\ it.2 = data_hash64 data
  /\ load64 (jf_mem f) (it.1 + data_hash) = it.2.

(** The space the data objects of an entry need, field objects included. *)
Definition data_cost (iovec : list (list Z)) : Z := foldr (fun data n => 128 + 2 * zlen data + n) 0 iovec.

Lemma data_cost_perm l l' : l ≡ₚ l' -> data_cost l = data_cost l'.
Proof. induction 1; simpl; unfold data_cost in *; lia. Qed.

Lemma data_cost_nonneg iovec : 0 <= data_cost iovec.
Proof. induction iovec as [|d l IH]; simpl; unfold zlen; lia. Qed.

Lemma append_items_ok e fuel iovec : mmap_ok e -> page_ok e -> compress_law e -> forall x f objs end_ dch fch N A,
  journal e f objs end_ dch fch N A -> Forall (fun data => payload_fits e f data /\ bytes_ok data) iovec ->
  end_ + data_cost iovec + 200 < 2 ^ 61 -> end_ + data_cost iovec <= 16 * Z.of_nat fuel ->
  exists r f', append_items e fuel iovec x f = (r, f')
    /\ exists objs' end' dch' fch', journal e f' objs' end' dch' fch' N A /\ extends f objs f' objs'
    /\ end_ <= end' <= end_ + data_cost iovec
    /\ (forall c, live objs' c -> centries f' (A c) c = held f objs A c)
    /\ match r with
       | Ok (its, x') => Forall2 (item_for e f' objs') iovec its /\ x' = foldl Z.lxor x its.*2
       | Err _ => True
       | _ => False
       end.
Proof.
  intros He Hpage Hlaw. induction iovec as [|data iovec IH]; intros x f objs end_ dch fch N A Hj Hfit Hsz Hfuel.
  { exists (Ok ([], x)), f. split; [done|]. exists objs, end_, dch, fch. split_and!; try done; try (simpl; lia).
    - apply extends_refl.
    - intros c Hl. by rewrite held_live. }
  cbn [data_cost foldr] in Hsz, Hfuel. fold (data_cost iovec) in Hsz, Hfuel.
  pose proof (data_cost_nonneg iovec) as Hcost. apply Forall_cons in Hfit as [[Hf1 Hb1] Hfit].
  pose proof (j_store _ _ _ _ _ _ _ _ Hj) as Hst. assert (0 <= zlen data) by (unfold zlen; lia).
  cbn [append_items].
  destruct (append_data_ok e fuel He Hpage f objs end_ dch fch data Hlaw Hf1 Hb1 Hst) as (r & f1 & Hrun & Hr).
  { eapply (side_fuel (data_kind e)); [apply Hst|apply Hst|lia]. }
  { eapply (side_fuel field_kind); [apply Hst|apply Hst|lia]. }
  { lia. }
  destruct Hr as (objs1 & end1 & dch1 & fch1 & Hst1 & Hex1 & Hgr1 & Hr).
  pose proof (gr_end _ _ _ _ _ _ _ Hgr1) as He1.
  destruct (journal_extends _ _ _ _ _ _ _ _ _ _ _ _ _ _ Hj Hst1 Hex1 Hgr1) as [Hj1 Hheld1].
  assert (forall c, live objs1 c -> centries f1 (A c) c = held f objs A c) as Hh1 by done.
  destruct r as [p|er| |]; try done.
  2:{ exists (Err er), f1. split; [unfold bind; by rewrite Hrun|]. exists objs1, end1, dch1, fch1.
      split_and!; try done; simpl; lia. }
  destruct Hr as ([s Hin] & Hdata & Hhash & _). rewrite (run_bind _ _ _ _ _ Hrun). run. rewrite Hhash.
  destruct (IH (Z.lxor x (data_hash64 data)) f1 objs1 end1 dch1 fch1 N A Hj1) as (r2 & f2 & Hrun2 & Hr2).
  { eapply Forall_impl; [exact Hfit|]. intros d [Hd1 Hd2]. split; [|done]. unfold payload_fits in *.
    by rewrite (sh_xz _ _ (ex_handle _ _ _ _ Hex1)). }
  { lia. }
  { lia. }
  destruct Hr2 as (objs2 & end2 & dch2 & fch2 & Hj2 & Hex2 & He2 & Hheld2 & Hr2).
  assert (forall c, live objs2 c -> centries f2 (A c) c = held f objs A c) as Hheld.
  { intros c Hl. eapply held_trans; [intros y; by eapply extends_in|exact Hheld1|by apply Hheld2]. }
  destruct r2 as [[its x']|er| |]; try done.
  - rewrite (run_bind _ _ _ _ _ Hrun2). exists (Ok ((p, data_hash64 data) :: its, x')), f2. split; [done|].
    destruct Hr2 as [Hits ->].
    exists objs2, end2, dch2, fch2. split_and!; try done; try (simpl; lia); [by eapply extends_trans|].
    constructor; [|done]. split_and!; [|simpl|done|simpl].
    + exists s. by eapply extends_in.
    + erewrite (extends_data_of e f1 objs1 f2 objs2 end1); [done|apply Hst1|done|done].
    + erewrite (extends_data_hash f1 objs1 f2 objs2 end1); [exact Hhash|apply Hst1|done|done].
  - exists (Err er), f2. split; [unfold bind; by rewrite Hrun2|]. exists objs2, end2, dch2, fch2.
    split_and!; try done; try (simpl; lia). by eapply extends_trans.
Qed.

(** * The entry object *)

Lemma load_bytes_app m a n k : load_bytes m a (n + k) = load_bytes m a n ++ load_bytes m (a + Z.of_nat n) k.
Proof.
  revert a. induction n as [|n IH]; intros a; [by rewrite Z.add_0_r|].
  simpl. rewrite IH. do 3 f_equal. lia.
Qed.

Lemma item_bytes_length it : length (item_bytes it) = 16%nat.
Proof. unfold item_bytes. by rewrite length_app, !le_bytes_length. Qed.

Lemma items_bytes_length its : length (flat_map item_bytes its) = (16 * length its)%nat.
Proof.
  induction its as [|it its IH]; [done|]. cbn [flat_map length]. rewrite length_app, item_bytes_length, IH. lia.
Qed.

(** The offsets of the items read back. *)
Lemma items_loads m its : forall a j d h,
  load_bytes m a (16 * length its) = flat_map item_bytes its -> its !! j = Some (d, h) -> is_u64 d ->
  load64 m (a + 16 * Z.of_nat j) = d.
Proof.
  induction its as [|it its IH]; intros a j d h Hm Hj Hd; [done|].
  replace (16 * length (it :: its))%nat with (16 + 16 * length its)%nat in Hm by (simpl; lia).
  rewrite load_bytes_app in Hm. cbn [flat_map] in Hm.
  apply app_inj_1 in Hm as [H1 H2]; [|by rewrite load_bytes_length, item_bytes_length].
  destruct j as [|j].
  - injection Hj as ->. rewrite Z.mul_0_r, Z.add_0_r.
    replace 16%nat with (8 + 8)%nat in H1 by lia. rewrite load_bytes_app in H1. unfold item_bytes in H1. cbn [fst snd] in H1.
    apply app_inj_1 in H1 as [H1 _]; [|by rewrite load_bytes_length, le_bytes_length].
    unfold load64. rewrite H1, le_val_bytes. by apply Z.mod_small.
  - rewrite <- (IH (a + 16) j d h H2 Hj Hd). f_equal. lia.
Qed.

(** A complete entry object. *)
Record entry_at (f : JournalFile) (p seqnum : Z) (ts : Z * Z) (xor : Z) (its : list (Z * Z)) : Prop := {
  ea_seqnum : load64 (jf_mem f) (p + entry_seqnum) = seqnum;
  ea_realtime : load64 (jf_mem f) (p + entry_realtime) = ts.1;
  ea_monotonic : load64 (jf_mem f) (p + entry_monotonic) = ts.2;
  ea_boot_id : load_bytes (jf_mem f) (p + entry_boot_id) 16 = load_bytes (jf_mem f) off_boot_id 16;
  ea_xor : load64 (jf_mem f) (p + entry_xor_hash) = xor;
  ea_items : load_bytes (jf_mem f) (p + entry_items) (16 * length its) = flat_map item_bytes its }.

(** The boot id of the header is not touched. *)
Lemma boot_id_step f objs end_ f' objs' end' :
  arena f objs end_ -> entry_step f objs end_ f' objs' end' ->
  load_bytes (jf_mem f') off_boot_id 16 = load_bytes (jf_mem f) off_boot_id 16.
Proof.
  intros Har Hs. apply load_bytes_ext. intros x Hx. unfold off_boot_id in Hx. destruct (arena_above _ _ _ Har) as [? _].
  apply (es_frame _ _ _ _ _ _ Hs); [lia|].
  intros [?|[?|[?|[?|[(d & s & Hd & ?)|(d & s & Hd & ?)]]]]]; try hlia;
    destruct (arena_object _ _ _ Har _ _ _ Hd); hlia.
Qed.

Lemma entry_at_step f objs end_ f' objs' end' p seqnum ts xor its :
  arena f objs end_ -> entry_step f objs end_ f' objs' end' ->
  (p, OBJECT_ENTRY, entry_items + zlen its * sizeof_EntryItem) ∈ objs ->
  entry_at f p seqnum ts xor its -> entry_at f' p seqnum ts xor its.
Proof.
  intros Har Hs Hp [H1 H2 H3 H4 H5 H6].
  assert (forall x, p <= x < p + entry_items + zlen its * sizeof_EntryItem -> byte_at (jf_mem f') x = byte_at (jf_mem f) x) as Hag.
  { intros x Hx. eapply entry_step_object; [done|done|exact Hp|lia|done|done]. }
  assert (0 <= zlen its) by (unfold zlen; lia).
  assert (forall o, 0 <= o -> o + 8 <= entry_items -> load64 (jf_mem f') (p + o) = load64 (jf_mem f) (p + o)) as Hl.
  { intros o Ho1 Ho2. apply load64_ext. intros x Hx. apply Hag. hlia. }
  split; rewrite ?Hl by hlia; try done.
  - rewrite (boot_id_step _ _ _ _ _ _ Har Hs), <- H4. apply load_bytes_ext. intros x Hx. apply Hag. hlia.
  - rewrite <- H6. apply load_bytes_ext. intros x Hx. apply Hag. unfold zlen in *. hlia.
Qed.

(** The bytes journal_file_append_entry_internal writes into the new object. *)
Definition entry_body (m : mem) (p s : Z) (ts : Z * Z) (xor : Z) (its : list (Z * Z)) : mem :=
  let m := store64 m (p + entry_seqnum) s in
  let m := store_bytes m (p + entry_items) (flat_map item_bytes its) in
  let m := store64 m (p + entry_realtime) ts.1 in
  let m := store64 m (p + entry_monotonic) ts.2 in
  let m := store64 m (p + entry_xor_hash) xor in
  store_bytes m (p + entry_boot_id) (load_bytes m off_boot_id 16).

Lemma entry_body_frame m p s ts xor its :
  agree (fun x => x < p + 16 \/ p + entry_items + 16 * zlen its <= x) m (entry_body m p s ts xor its).
Proof.
  unfold entry_body. cbv zeta. unfold zlen.
  eapply agree_trans; [|apply agree_store; rewrite load_bytes_length; hlia].
  do 3 (eapply agree_trans; [|apply agree_store64; hlia]).
  eapply agree_trans; [|apply agree_store; rewrite items_bytes_length; hlia]. apply agree_store64. hlia.
Qed.

Lemma items_bytes_ok its : bytes_ok (flat_map item_bytes its).
Proof.
  induction its as [|it its IH]; [constructor|]. cbn [flat_map]. unfold item_bytes.
  repeat apply Forall_app_2; try apply le_bytes_ok; done.
Qed.

Lemma entry_body_ok m p s ts xor its : mem_ok m -> mem_ok (entry_body m p s ts xor its).
Proof.
  intros Hm. unfold entry_body. cbv zeta. apply mem_ok_store; [|apply load_bytes_ok];
  repeat apply mem_ok_store64; (apply mem_ok_store; [|apply items_bytes_ok]); by apply mem_ok_store64.
Qed.

Lemma entry_body_at f p s ts xor its m :
  240 <= p -> is_u64 s -> is_u64 ts.1 -> is_u64 ts.2 -> is_u64 xor ->
  entry_at (set_mem f (entry_body m p s ts xor its)) p s ts xor its.
Proof.
  intros Hp Hs H1 H2 Hx.
  split; cbn [set_mem jf_mem]; unfold entry_body; cbv zeta.
  all: rewrite ?load64_store_ne by (rewrite load_bytes_length; hlia).
  - rewrite !load64_store64_ne by hlia. rewrite load64_store_ne by hlia. by apply load64_store64_eq.
  - rewrite !load64_store64_ne by hlia. by apply load64_store64_eq.
  - rewrite !load64_store64_ne by hlia. by apply load64_store64_eq.
  - set (m1 := store64 _ (p + entry_xor_hash) xor).
    rewrite <- (load_bytes_length m1 off_boot_id 16) at 2. rewrite load_store_bytes_eq.
    symmetry. apply load_store_bytes_ne. rewrite load_bytes_length. unfold off_boot_id. hlia.
  - by apply load64_store64_eq.
  - transitivity (load_bytes (store_bytes (store64 m (p + entry_seqnum) s) (p + entry_items) (flat_map item_bytes its))
      (p + entry_items) (length (flat_map item_bytes its))); [|apply load_store_bytes_eq].
    rewrite items_bytes_length. apply load_bytes_ext. intros x Hx'.
    rewrite byte_at_store_ne by (rewrite load_bytes_length; hlia). rewrite !byte_at_store64_ne by hlia. done.
Qed.

(** * journal_file_append_entry_internal *)

(** Appending an object is a step. *)
Lemma appended_region f f1 objs q ty size x :
  appended f f1 objs q ty size -> off_n_entries <= x < q -> byte_at (jf_mem f1) x = byte_at (jf_mem f) x.
Proof.
  intros Hap Hx. apply (ap_frame _ _ _ _ _ _ Hap). unfold append_frame. hlia.
Qed.

Section EntryObject.
Context (e : Env) (dch fch : Z -> list Z) (f : JournalFile) (objs : list (Z * Z * Z)) (q N : Z)
  (A : Z -> list (Z * Z)) (Hj : journal e f objs q dch fch N A) (seqnum : bool).

(** The handle and the memory once the sequence number is taken. *)
Definition numbered (s : Z) (m : mem) : JournalFile :=
  set_mem (if seqnum then set_ext_seqnum f s else f)
    (store_bytes (jf_mem f) off_tail_entry_seqnum (load_bytes m off_tail_entry_seqnum 16)).

Lemma numbered_journal s m :
  mem_ok m ->
  entry_step f objs q (numbered s m) objs q /\ journal e (numbered s m) objs q dch fch N A
  /\ (forall c, live objs c -> centries (numbered s m) (A c) c = centries f (A c) c)
  /\ hdr off_tail_entry_seqnum (numbered s m) = load64 m off_tail_entry_seqnum.
Proof.
  intros Hm. pose proof (j_store _ _ _ _ _ _ _ _ Hj) as [Har Hw _ _].
  set (g := if seqnum then set_ext_seqnum f s else f).
  assert (same_file f g) as Hg by (unfold g; by destruct seqnum).
  pose proof (same_file_step f g objs q Har Hw Hg) as Hs1.
  set (mv := store_bytes (jf_mem f) off_tail_entry_seqnum (load_bytes m off_tail_entry_seqnum 16)).
  assert (forall x, ~ (off_tail_entry_seqnum <= x < off_entry_array_offset) -> byte_at mv x = byte_at (jf_mem f) x) as Hmv.
  { intros x Hx. apply byte_at_store_ne. rewrite load_bytes_length. hlia. }
  assert (entry_step g objs q (set_mem g mv) objs q) as Hs2.
  { apply loose_step; [apply Hs1|apply Hs1| |].
    - apply mem_ok_store; [apply Har|by apply load_bytes_ok].
    - intros x Hx. rewrite (sf_mem _ _ Hg). apply Hmv. intros Hr. apply Hx. left. hlia. }
  assert (entry_step f objs q (numbered s m) objs q) as Hs by (by eapply entry_step_trans).
  split; [done|]. destruct (journal_step e dch fch f objs q N A Hj _ _ _ Hs) as [Hj' Hc].
  - intros c x Hl Hx. apply Hmv.
    destruct (region_cases e dch fch f objs q N A Hj c x Hl Hx) as [(_ & ? & ?)|(b & ty & r & Hb & ? & _)]; [hlia|].
    destruct (arena_object _ _ _ Har _ _ _ Hb). hlia.
  - split_and!; [done|done|]. apply load64_ext. intros x Hx.
    change (byte_at mv x = byte_at m x). apply byte_at_copy. hlia.
Qed.

Context (its : list (Z * Z)).
Let size := entry_items + zlen its * sizeof_EntryItem.
Context (f1 : JournalFile) (Hap : appended f f1 objs q OBJECT_ENTRY size).

(** The complete entry object, written behind the end. *)
Lemma entry_object_gains s m2 ts xor :
  mem_ok m2 -> (forall x, x < off_tail_entry_seqnum \/ off_head_entry_seqnum + 8 <= x ->
    byte_at m2 x = byte_at (jf_mem f1) x) ->
  let f3 := set_mem (if seqnum then set_ext_seqnum f1 s else f1) (entry_body m2 q s ts xor its) in
  let objs' := objs ++ [(q, OBJECT_ENTRY, size)] in
  gains e dch fch (numbered s m2) objs q N A f3 objs' (q + ALIGN64 size) N A (fun _ => []).
Proof.
  intros Hm2 Hag f3 objs'. destruct (numbered_journal s m2 Hm2) as (Hs0 & Hj0 & _ & Hq0).
  pose proof (j_store _ _ _ _ _ _ _ _ Hj) as [Har Hw _ _].
  assert (240 <= q) as Hq by apply (ap_pos _ _ _ _ _ _ Hap).
  pose proof (object_ALIGN64 _ _ _ _ (ap_object _ _ _ _ _ _ Hap)) as Hsize.
  assert (0 <= zlen its) as Hlen by (unfold zlen; lia).
  pose proof (entry_body_frame m2 q s ts xor its) as Hbody.
  assert (forall x, off_tail_entry_seqnum <= x < off_entry_array_offset -> byte_at (jf_mem (numbered s m2)) x = byte_at m2 x) as Hnum.
  { intros x Hx. apply byte_at_copy. hlia. }
  assert (forall x, ~ (off_tail_entry_seqnum <= x < off_entry_array_offset) ->
    byte_at (jf_mem (numbered s m2)) x = byte_at (jf_mem f) x) as Hnum'.
  { intros x Hx. apply byte_at_store_ne. rewrite load_bytes_length. hlia. }
  assert (forall x, append_frame q x -> x < q \/ q + size <= x -> byte_at (jf_mem f3) x = byte_at (jf_mem (numbered s m2)) x) as Hkeep.
  { intros x Hx Hb. change (jf_mem f3) with (entry_body m2 q s ts xor its).
    rewrite Hbody by (unfold size in *; hlia).
    destruct (decide (off_tail_entry_seqnum <= x < off_entry_array_offset)) as [Hr|Hr]; [by rewrite Hnum|].
    rewrite Hnum', Hag by hlia. by apply (ap_frame _ _ _ _ _ _ Hap). }
  assert (same_file f1 (if seqnum then set_ext_seqnum f1 s else f1)) as Hsf by (by destruct seqnum).
  assert (arena f3 objs' (q + ALIGN64 size)) as Har3.
  { apply arena_set_mem.
    - eapply arena_agree; [apply (ap_arena _ _ _ _ _ _ Hap)| | |apply Hsf|apply Hsf];
        rewrite (sf_mem _ _ Hsf); [apply agree_refl|apply (ap_arena _ _ _ _ _ _ Hap)].
    - by apply entry_body_ok.
    - intros x Hx. rewrite (sf_mem _ _ Hsf). rewrite Hbody; [apply Hag|].
      + destruct Hx as [?|[?|(b & ty & r & Hb & ?)]]; [hlia|hlia|].
        destruct (arena_object _ _ _ (ap_arena _ _ _ _ _ _ Hap) _ _ _ Hb). hlia.
      + left. destruct Hx as [?|[?|(b & ty & r & Hb & Hx)]]; [hlia|hlia|].
        apply elem_of_app in Hb as [Hb|[= -> _ _]%list_elem_of_singleton]; [|hlia].
        destruct (arena_object _ _ _ Har _ _ _ Hb) as (Ho & ? & ?). pose proof (object_ALIGN64 _ _ _ _ Ho). hlia. }
  assert (entry_step (numbered s m2) objs q f3 objs' (q + ALIGN64 size)) as Hs.
  { destruct (ap_handle _ _ _ _ _ _ Hap). split.
    - done.
    - destruct Hw as [? ? ? _]. split; unfold f3; cbn; destruct seqnum; cbn; try congruence; left;
        unfold hdr_state; cbn [set_mem set_ext_seqnum jf_mem]; rewrite Hbody by hlia; rewrite Hag by hlia;
        apply (ap_state _ _ _ _ _ _ Hap).
    - unfold f3, numbered. by destruct seqnum.
    - unfold f3, numbered. by destruct seqnum.
    - by eexists.
    - intros d r Hd. by apply elem_of_app in Hd as [Hd|Hd%list_elem_of_singleton].
    - lia.
    - intros Hz x Hx. rewrite Hkeep; [apply Hz; lia| |lia]. unfold append_frame. hlia.
    - intros x Hx Ht. apply Hkeep; [|lia]. unfold append_frame, touched in *. hlia. }
  eapply gains_step; [done|done| |].
  - intros c x Hl Hx. pose proof (region_bounds e dch fch _ _ _ _ _ Hj0 c x Hl Hx).
    apply Hkeep; [unfold append_frame; hlia|lia].
  - apply load64_ext. intros x Hx. apply Hkeep; [unfold append_frame; hlia|hlia].
Qed.

End EntryObject.

Lemma gains_seq_step e dch fch f objs end_ N A g objs' f' end' N' A' gain :
  arena f objs end_ -> entry_step f objs end_ g objs end_ ->
  (forall c, live objs c -> centries g (A c) c = centries f (A c) c) ->
  gains e dch fch g objs end_ N A f' objs' end' N' A' gain ->
  entry_step f objs end_ f' objs' end'
  /\ forall c, live objs c -> centries f' (A' c) c = centries f (A c) c ++ gain c.
Proof.
  intros Har Hs Hc [_ S H _]. split; [by eapply entry_step_trans|]. intros c Hl. by rewrite H, Hc.
Qed.

(** The room an entry takes behind the data objects, and the fuel and the addresses
    it needs. *)
Definition entry_cost (N n : Z) : Z := 72 + 16 * n + (1 + n) * (64 + 16 * (N + 1 + n)).

(** The entry object at [q], with a sequence number above the others. *)
Definition new_entry (f f' : JournalFile) (objs' : list (Z * Z * Z)) (q : Z) (ts : Z * Z) (xor : Z)
    (its : list (Z * Z)) (seqnum : bool) : Prop :=
  exists s, (q, OBJECT_ENTRY, entry_items + zlen its * sizeof_EntryItem) ∈ objs'
    /\ entry_at f' q s ts xor its
    /\ hdr off_tail_entry_seqnum f < s /\ hdr off_tail_entry_seqnum f' = s
    /\ (seqnum = true -> jf_ext_seqnum f < s).

Lemma append_entry_internal_ok e fuel f objs q dch fch N A ts xor its seqnum :
  mmap_ok e -> page_ok e -> journal e f objs q dch fch N A ->
  (forall it, it ∈ its -> is_u64 it.1 /\ it.1 <> 0 /\ live objs it.1) ->
  is_u64 ts.1 -> is_u64 ts.2 -> is_u64 xor ->
  hdr off_tail_entry_seqnum f < u64_max -> 0 <= jf_ext_seqnum f < u64_max ->
  q + entry_cost N (zlen its) + 100 + 16 * (N + 1 + zlen its) < 2 ^ 61 ->
  q + entry_cost N (zlen its) <= 16 * Z.of_nat fuel ->
  exists r f', journal_file_append_entry_internal e fuel ts xor its seqnum f = (r, f')
    /\ exists objs' end' A' gain, journal e f' objs' end' dch fch (N + 1 + zlen its) A'
    /\ entry_step f objs q f' objs' end'
    /\ (forall c, live objs c -> centries f' (A' c) c = centries f (A c) c ++ gain c)
    /\ (gain 0 = [] /\ hdr off_tail_entry_seqnum f <= hdr off_tail_entry_seqnum f'
        \/ gain 0 = [q] /\ new_entry f f' objs' q ts xor its seqnum)
    /\ match r with
       | Ok p => p = q /\ new_entry f f' objs' q ts xor its seqnum
           /\ forall c, gain c = gain_one 0 q c ++ replicate (occurrences c its) q
       | Err _ => True
       | _ => False
       end.
Proof.
  intros He Hpage Hj Hits Ht1 Ht2 Hx Hseq Hext Hsz Hfuel. unfold entry_cost in *.
  pose proof (journal_bound_nonneg _ _ _ _ _ _ _ _ Hj) as HN0.
  pose proof (j_store _ _ _ _ _ _ _ _ Hj) as [Har Hw _ _]. destruct (arena_above _ _ _ Har) as [Hq240 _].
  assert (0 <= zlen its) as Hlen by (unfold zlen; lia).
  assert (0 <= (1 + zlen its) * (64 + 16 * (N + 1 + zlen its))) by (apply Z.mul_nonneg_nonneg; lia).
  unfold journal_file_append_entry_internal.
  destruct (append_object_ok e He Hpage f objs q OBJECT_ENTRY (entry_items + zlen its * sizeof_EntryItem))
    as (f1 & [[Hrun Hap]|(er & Hrun & Hna)]); [done|done|done|cbn; hlia|hlia|..].
  2:{ exists (Err er), f1. split; [unfold bind; by rewrite Hrun|].
      pose proof (not_appended_step _ _ _ _ Har Hw Hna) as Hs.
      destruct (journal_step e dch fch f objs q N A Hj _ _ _ Hs) as [Hj' Hc].
      { intros c x Hl Hr. apply (na_frame _ _ _ _ Hna).
        pose proof (region_bounds e dch fch f objs q N A Hj c x Hl Hr). hlia. }
      exists objs, q, A, (fun _ => []). split_and!; [|done| | |done].
      3:{ left. split; [done|]. apply Z.eq_le_incl. symmetry. apply (agree_load64 _ _ _ _ (na_frame _ _ _ _ Hna)). hlia. }
      - destruct Hj' as [J1 J2 J3 J4 J5]. split; try done. intros c Hl. destruct (J3 c Hl). split; [done..|lia].
      - intros c Hl. rewrite app_nil_r. by apply Hc. }
  rewrite (run_bind _ _ _ _ _ Hrun).
  assert (hdr off_tail_entry_seqnum f1 = hdr off_tail_entry_seqnum f) as Eseq.
  { apply load64_ext. intros x Hxr. eapply appended_region; [exact Hap|hlia]. }
  assert (jf_ext_seqnum f1 = jf_ext_seqnum f) as Eext by apply (sh_seqnum _ _ (ap_handle _ _ _ _ _ _ Hap)).
  destruct (entry_seqnum_ok f1 seqnum) as (s & f2 & Hrun2 & Hs1 & Hs2 & Hs3 & Hs4 & _ & Hag2 & Hm2 & Ef2).
  { apply (ap_arena _ _ _ _ _ _ Hap). }
  { lia. }
  { lia. }
  rewrite (run_bind _ _ _ _ _ Hrun2). run. cbn [set_mem jf_mem].
  set (f3 := set_mem (if seqnum then set_ext_seqnum f1 s else f1) (entry_body (jf_mem f2) q s ts xor its)).
  assert (set_mem f2 (entry_body (jf_mem f2) q s ts xor its) = f3) as Ef3.
  { rewrite Ef2. unfold f3. by destruct seqnum. }
  change (set_mem (set_mem (set_mem (set_mem (set_mem (set_mem f2 _) _) _) _) _) _)
    with (set_mem f2 (entry_body (jf_mem f2) q s ts xor its)). rewrite Ef3.
  set (objs' := objs ++ [(q, OBJECT_ENTRY, entry_items + zlen its * sizeof_EntryItem)]).
  destruct (numbered_journal e dch fch f objs q N A Hj seqnum s (jf_mem f2) Hm2) as (Hs0 & Hj0 & Hc0 & Hq0).
  pose proof (entry_object_gains e dch fch f objs q N A Hj seqnum its f1 Hap s (jf_mem f2) ts xor Hm2
    ltac:(intros x Hxr; apply Hag2; done)) as Hg3. fold f3 objs' in Hg3.
  pose proof (gn_journal _ _ _ _ _ _ _ _ _ _ _ _ _ _ Hg3) as Hj3.
  assert (is_u64 s) as Hsu by (rewrite <- Hs4; by apply load64_range).
  assert (entry_at f3 q s ts xor its) as Hat3 by (by apply entry_body_at).
  assert ((q, OBJECT_ENTRY, entry_items + zlen its * sizeof_EntryItem) ∈ objs') as Hqin.
  { apply elem_of_app. right. constructor. }
  pose proof (object_ALIGN64 _ _ _ _ (ap_object _ _ _ _ _ _ Hap)) as Hsize.
  destruct (link_entry_object_ok e fuel He Hpage dch fch f3 objs' _ N A q its (N + 1 + zlen its) Hj3 Hqin)
    as (r & f4 & Hrun4 & objs4 & end4 & A4 & g4 & Hg4 & Hz4 & Hr4).
  { split; [eexists; split; [exact Hqin|hlia]|]. intros j d h Hjd.
    destruct (Hits (d, h)) as (Hd1 & Hd2 & Hd3); [by eapply list_elem_of_lookup_2|]. simpl in *.
    split_and!; [|done|eapply live_mono; [|exact Hd3]; intros y Hy; apply elem_of_app; by left].
    rewrite <- (items_loads (jf_mem f3) its (q + entry_items) j d h (ea_items _ _ _ _ _ _ Hat3) Hjd Hd1).
    done. }
  { lia. }
  { hlia. }
  { hlia. }
  pose proof (gains_trans _ _ _ _ _ _ _ _ _ _ _ _ _ _ _ _ _ _ _ _
    (st_arena _ _ _ _ _ _ (j_store _ _ _ _ _ _ _ _ Hj0)) Hg3 Hg4) as Hg.
  destruct (gains_seq_step _ _ _ _ _ _ _ _ _ _ _ _ _ _ _ Har Hs0 Hc0 Hg) as [Hstep Hheld].
  pose proof (gn_journal _ _ _ _ _ _ _ _ _ _ _ _ _ _ Hg4) as Hj4.
  assert (hdr off_tail_entry_seqnum f4 = s) as Hs4t.
  { rewrite (gn_seqnum _ _ _ _ _ _ _ _ _ _ _ _ _ _ Hg), Hq0. exact Hs4. }
  pose proof (gn_step _ _ _ _ _ _ _ _ _ _ _ _ _ _ Hg4) as Hs4'.
  assert (new_entry f f4 objs4 q ts xor its seqnum) as Hnew.
  { exists s. split_and!.
    - by eapply es_in.
    - eapply entry_at_step; [apply Hj3|exact Hs4'|exact Hqin|exact Hat3].
    - lia.
    - done.
    - intros Hb. destruct (Hs2 Hb). lia. }
  assert (([] ++ g4 0 = [] /\ hdr off_tail_entry_seqnum f <= hdr off_tail_entry_seqnum f4)
          \/ [] ++ g4 0 = [q] /\ new_entry f f4 objs4 q ts xor its seqnum) as Hz.
  { destruct Hz4 as [Hz|Hz]; [left; split; [done|lia]|by right]. }
  destruct r as [[]|er| |]; try done.
  - exists (Ok q), f4. split; [by rewrite (run_bind _ _ _ _ _ Hrun4)|].
    by exists objs4, end4, A4, (fun c => [] ++ g4 c).
  - exists (Err er), f4. split; [unfold bind; by rewrite Hrun4|]. by exists objs4, end4, A4, (fun c => [] ++ g4 c).
Qed.
