(* ===== verification/JournalSpec.v ===== *)
(** The contract of journal_file_append_entry, with the file and the data objects as
    one structure: sequences of entries that only ever grow at their ends.  The order of
    the entries is kept, and an entry that was appended is found again by its sequence
    number. *)
From S2P Require Import Prelude Lookup3 Uuid Memory JournalDef JournalFile ObjectLemmas ArenaProofs HashTableProofs.
From S2P Require Import HeaderProofs DataProofs StoreProofs StoreOps JournalSeek BisectProofs JournalSamples StoreSpec.
From S2P Require Import StoreSamples EntryArrayProofs JournalInv JournalAppend ArraySearch JournalEntries.

#[export] Instance entry_item_le_total : Total entry_item_le.
Proof. intros a b. unfold entry_item_le. lia. Qed.

#[export] Instance entry_item_le_trans : Transitive entry_item_le.
Proof. intros a b c. unfold entry_item_le. lia. Qed.

Lemma foldl_lxor_range l x : is_u64 x -> Forall is_u64 l -> is_u64 (foldl Z.lxor x l).
Proof.
  intros Hx Hl. revert x Hx. induction Hl as [|y l Hy Hl IH]; intros x Hx; [done|].
  simpl. apply IH. apply (lxor_range x y 64); unfold is_u64 in *; lia.
Qed.

(** What old objects hold is kept: entries as they are, data objects their data. *)
Record contents_kept (e : Env) (f : JournalFile) (objs : list (Z * Z * Z)) (f' : JournalFile)
    (objs' : list (Z * Z * Z)) : Prop := {
  ck_in : forall x, x ∈ objs -> x ∈ objs';
  ck_data : forall d s, (d, OBJECT_DATA, s) ∈ objs -> data_of e f' d = data_of e f d;
  ck_hash : forall d s, (d, OBJECT_DATA, s) ∈ objs -> load64 (jf_mem f') (d + data_hash) = load64 (jf_mem f) (d + data_hash);
  ck_entry : forall p s x, (p, OBJECT_ENTRY, s) ∈ objs -> p <= x < p + s ->
    byte_at (jf_mem f') x = byte_at (jf_mem f) x;
  ck_header : forall x, ident x \/ off_data_hash_table_offset <= x < off_tail_object_offset ->
    byte_at (jf_mem f') x = byte_at (jf_mem f) x;
  ck_tables : jf_data_hash_table f' = jf_data_hash_table f /\ jf_field_hash_table f' = jf_field_hash_table f }.

Lemma contents_kept_refl e f objs : contents_kept e f objs f objs.
Proof. done. Qed.

(** The header's part that is written once is not touched. *)
Lemma entry_step_ident f objs end_ f' objs' end' x :
  arena f objs end_ -> entry_step f objs end_ f' objs' end' ->
  ident x \/ off_data_hash_table_offset <= x < off_tail_object_offset ->
  byte_at (jf_mem f') x = byte_at (jf_mem f) x.
Proof.
  intros Har Hs Hx. destruct (arena_above _ _ _ Har) as [? _]. unfold ident in Hx.
  apply (es_frame _ _ _ _ _ _ Hs); [hlia|].
  intros [?|[?|[?|[?|[(d & s & Hd & ?)|(d & s & Hd & ?)]]]]]; try hlia;
    destruct (arena_object _ _ _ Har _ _ _ Hd); hlia.
Qed.

Lemma contents_kept_trans e f1 o1 f2 o2 f3 o3 :
  contents_kept e f1 o1 f2 o2 -> contents_kept e f2 o2 f3 o3 -> contents_kept e f1 o1 f3 o3.
Proof.
  intros [I1 D1 H1 E1 X1 [T1 U1]] [I2 D2 H2 E2 X2 [T2 U2]]. split; [auto|..].
  - intros d s Hd. rewrite (D2 d s), (D1 d s) by auto. done.
  - intros d s Hd. rewrite (H2 d s), (H1 d s) by auto. done.
  - intros p s x Hp Hx. rewrite (E2 p s x), (E1 p s x) by auto. done.
  - intros x Hx. rewrite X2, X1 by done. done.
  - split; congruence.
Qed.

Lemma contents_kept_extends e f objs end_ f' objs' :
  arena f objs end_ -> extends f objs f' objs' -> contents_kept e f objs f' objs'.
Proof.
  intros Har Hex. split.
  - intros x. by eapply extends_in.
  - intros d s Hd. by eapply extends_data_of.
  - intros d s Hd. by eapply extends_data_hash.
  - intros p s x Hp Hx. eapply (ex_object _ _ _ _ Hex); [exact Hp|done|done|done|by intros [?|?]].
  - intros x Hx. apply (ex_header _ _ _ _ Hex). tauto.
  - split; [apply (sh_data _ _ (ex_handle _ _ _ _ Hex))|apply (sh_field _ _ (ex_handle _ _ _ _ Hex))].
Qed.

Lemma contents_kept_step e f objs end_ f' objs' end' :
  arena f objs end_ -> entry_step f objs end_ f' objs' end' -> contents_kept e f objs f' objs'.
Proof.
  intros Har Hs. split.
  - intros x. eapply es_in, Hs.
  - intros d s Hd. by eapply entry_step_data_of.
  - intros d s Hd. by eapply entry_step_data_hash.
  - intros p s x Hp Hx. by eapply entry_step_object.
  - intros x Hx. by eapply entry_step_ident.
  - split; [apply (es_data_table _ _ _ _ _ _ Hs)|apply (es_field_table _ _ _ _ _ _ Hs)].
Qed.

(** The items of an entry: one for each of the data, sorted by offset. *)
Definition items_for (e : Env) (f : JournalFile) (objs : list (Z * Z * Z)) (iovec : list (list Z))
    (its : list (Z * Z)) (xor : Z) : Prop :=
  Sorted entry_item_le its
  /\ exists its0, its ≡ₚ its0 /\ Forall2 (item_for e f objs) iovec its0 /\ xor = foldl Z.lxor 0 its0.*2.

(** The room and the fuel appending an entry needs. *)
Definition entry_fits (fuel : nat) (end_ N : Z) (iovec : list (list Z)) : Prop :=
  let n := zlen iovec in
  let need := end_ + data_cost iovec + entry_cost N n in
  need + 300 + 16 * (N + 1 + n) < 2 ^ 61 /\ need <= 16 * Z.of_nat fuel.

(** A handle whose size fields catch up with the file. *)
Lemma post_change_step f objs end_ :
  arena f objs end_ -> writable f -> entry_step f objs end_ (journal_file_post_change f) objs end_.
Proof.
  intros [Hm Hh Ho Ht Hn Ha Hs He] [? ? ? ?]. split; try done.
  - split; [exact Hm|exact Hh| |exact Ht|exact Hn| | |exact He].
    + eapply objects_from_agree; [exact Ho|apply agree_refl|cbn; lia].
    + change (arena_end f <= jf_last_size f <= jf_last_size f). lia.
    + cbn. lia.
  - exists []. by rewrite app_nil_r.
Qed.

Lemma post_change_journal e f objs end_ dch fch N A :
  journal e f objs end_ dch fch N A ->
  journal e (journal_file_post_change f) objs end_ dch fch N A
  /\ entry_step f objs end_ (journal_file_post_change f) objs end_
  /\ forall c, live objs c -> centries (journal_file_post_change f) (A c) c = centries f (A c) c.
Proof.
  intros Hj. assert (entry_step f objs end_ (journal_file_post_change f) objs end_) as Hs
    by (apply post_change_step; apply Hj).
  destruct (journal_step e dch fch f objs end_ N A Hj _ _ _ Hs) as [Hj' Hc]; [done|]. done.
Qed.

Lemma journal_weaken e f objs end_ dch fch N A N' :
  journal e f objs end_ dch fch N A -> N <= N' -> journal e f objs end_ dch fch N' A.
Proof.
  intros [J1 J2 J3 J4 J5] Hle. split; try done. intros c Hl. destruct (J3 c Hl). split; [done|done|lia].
Qed.

Lemma items_for_u64 e f objs end_ iovec its :
  arena f objs end_ -> end_ < 2 ^ 62 -> Forall bytes_ok iovec -> Forall2 (item_for e f objs) iovec its ->
  (forall it, it ∈ its -> is_u64 it.1 /\ it.1 <> 0 /\ live objs it.1) /\ Forall is_u64 its.*2.
Proof.
  intros Har Hsz Hb Hits. split.
  - intros it Hit. apply list_elem_of_lookup_1 in Hit as [i Hi].
    destruct (Forall2_lookup_r _ _ _ _ _ Hits Hi) as (data & _ & [s Hs] & _).
    destruct (arena_object _ _ _ Har _ _ _ Hs) as (Ho & ? & ?). pose proof (object_ALIGN64 _ _ _ _ Ho).
    split_and!; [unfold is_u64; lia|lia|by eapply live_object].
  - induction Hits as [|data it iovec its (_ & _ & Hh & _) Hits IH]; [constructor|].
    apply Forall_cons in Hb as [Hb1 Hb]. rewrite fmap_cons. constructor; [|auto]. rewrite Hh.
    apply hash64_range; [done|unfold zlen; lia].
Qed.

Lemma occurrences_perm c its its' : its ≡ₚ its' -> occurrences c its = occurrences c its'.
Proof. intros Hp. unfold occurrences. by rewrite Hp. Qed.

(** The items of an entry in the order the writer puts them in. *)
Definition items_in (order : list (Z * Z) -> list (Z * Z)) (e : Env) (f : JournalFile) (objs : list (Z * Z * Z))
    (iovec : list (list Z)) (its : list (Z * Z)) (xor : Z) : Prop :=
  exists its0, its = order its0 /\ its ≡ₚ its0 /\ Forall2 (item_for e f objs) iovec its0 /\ xor = foldl Z.lxor 0 its0.*2.

Lemma items_in_kept order e f objs f' objs' iovec its xor :
  contents_kept e f objs f' objs' -> items_in order e f objs iovec its xor -> items_in order e f' objs' iovec its xor.
Proof.
  intros Hck (its0 & Ho & Hp & Hits & Hx). exists its0. split_and!; try done.
  eapply Forall2_impl; [exact Hits|]. intros data it ([so Hso] & Hd & Hh' & Hh'').
  split; [exists so; by apply (ck_in _ _ _ _ _ Hck)|].
  by rewrite (ck_data _ _ _ _ _ Hck _ _ Hso), (ck_hash _ _ _ _ _ Hck _ _ Hso).
Qed.

(** The chains grow by [gain], the file's chain by the new entry at most. *)
Definition entry_gained (order : list (Z * Z) -> list (Z * Z)) (e : Env) (f : JournalFile) (objs : list (Z * Z * Z)) (end_ : Z)
    (A : Z -> list (Z * Z)) (ts : Z * Z) (iovec : list (list Z)) (seqnum : bool)
    (r : outcome Z) (f' : JournalFile) (objs' : list (Z * Z * Z)) (A' : Z -> list (Z * Z)) (gain : Z -> list Z) : Prop :=
  (forall c, live objs' c -> held f' objs' A' c = held f objs A c ++ gain c)
  /\ (gain 0 = [] /\ hdr off_tail_entry_seqnum f <= hdr off_tail_entry_seqnum f'
      \/ exists q its xor, end_ <= q /\ gain 0 = [q] /\ new_entry f f' objs' q ts xor its seqnum
           /\ items_in order e f' objs' iovec its xor)
  /\ match r with
     | Ok p => exists its xor, new_entry f f' objs' p ts xor its seqnum /\ items_in order e f' objs' iovec its xor
         /\ forall c, gain c = gain_one 0 p c ++ replicate (occurrences c its) p
     | Err _ => True
     | _ => False
     end.

(** Writing the data of an entry and then the entry, as journal_file_append_entry and
    journal_file_copy_entry both do. *)
Lemma append_listed_ok order e fuel f objs end_ dch fch N A ts iovec seqnum :
  mmap_ok e -> page_ok e -> compress_law e -> (forall l, order l ≡ₚ l) ->
  journal e f objs end_ dch fch N A ->
  Forall (fun data => payload_fits e f data /\ bytes_ok data) iovec -> is_u64 ts.1 -> is_u64 ts.2 ->
  hdr off_tail_entry_seqnum f < u64_max -> 0 <= jf_ext_seqnum f < u64_max ->
  entry_fits fuel end_ N iovec ->
  exists r f' objs' end' dch' fch' A' gain,
    (r <- append_items e fuel iovec 0 ;; journal_file_append_entry_internal e fuel ts r.2 (order r.1) seqnum) f = (r, f')
    /\ journal e f' objs' end' dch' fch' (N + 1 + zlen iovec) A' /\ contents_kept e f objs f' objs'
    /\ entry_gained order e f objs end_ A ts iovec seqnum r f' objs' A' gain.
Proof.
  intros He Hpage Hlaw Horder Hj Hfit Ht1 Ht2 Hseq Hext [Hsz Hfuel]. unfold entry_cost in *.
  pose proof (journal_bound_nonneg _ _ _ _ _ _ _ _ Hj) as HN0. pose proof (data_cost_nonneg iovec) as Hdc.
  pose proof (j_store _ _ _ _ _ _ _ _ Hj) as [Har Hw _ _].
  assert (0 <= zlen iovec) as Hn0 by (unfold zlen; lia).
  assert (0 <= (1 + zlen iovec) * (64 + 16 * (N + 1 + zlen iovec))) by (apply Z.mul_nonneg_nonneg; lia).
  destruct (append_items_ok e fuel iovec He Hpage Hlaw 0 f objs end_ dch fch N A Hj Hfit ltac:(lia) ltac:(lia))
    as (r1 & f1 & Hrun1 & objs1 & end1 & dch1 & fch1 & Hj1 & Hex1 & He1 & Hheld1 & Hr1).
  pose proof (contents_kept_extends e f objs end_ f1 objs1 Har Hex1) as Hck1.
  assert (hdr off_tail_entry_seqnum f1 = hdr off_tail_entry_seqnum f) as Eseq.
  { apply load64_ext. intros y Hy. apply (ex_header _ _ _ _ Hex1). hlia. }
  destruct r1 as [[its0 x]|er| |]; try done.
  2:{ exists (Err er), f1, objs1, end1, dch1, fch1, A, (fun _ => []). split; [unfold bind; by rewrite Hrun1|].
      split; [eapply journal_weaken; [done|lia]|]. split; [done|].
      split; [intros c Hl; rewrite (held_live f1), Hheld1, app_nil_r by done; done|]. split; [left; split; [done|lia]|done]. }
  destruct Hr1 as [Hits0 ->]. rewrite (run_bind _ _ _ _ _ Hrun1). cbn [fst snd].
  pose proof (st_arena _ _ _ _ _ _ (j_store _ _ _ _ _ _ _ _ Hj1)) as Har1.
  assert (Forall bytes_ok iovec) as Hbytes by (eapply Forall_impl; [exact Hfit|]; by intros ? [_ ?]).
  destruct (items_for_u64 e f1 objs1 end1 iovec its0 Har1 ltac:(lia) Hbytes Hits0) as [Hu Hh].
  pose proof (Horder its0) as Hperm. set (its := order its0) in *. set (xor := foldl Z.lxor 0 its0.*2).
  assert (zlen its = zlen iovec) as Hlen.
  { unfold zlen. rewrite Hperm. f_equal. symmetry. by eapply Forall2_length. }
  assert (jf_ext_seqnum f1 = jf_ext_seqnum f) as Eext by apply (sh_seqnum _ _ (ex_handle _ _ _ _ Hex1)).
  destruct (append_entry_internal_ok e fuel f1 objs1 end1 dch1 fch1 N A ts xor its seqnum) as (r & f2 & Hrun2 & Hr2);
    [done|done|done| |done|done| |lia|by rewrite Eext| | |].
  { intros it Hit. apply Hu. by rewrite <- Hperm. }
  { apply foldl_lxor_range; [unfold is_u64; lia|done]. }
  { rewrite Hlen. unfold entry_cost. lia. }
  { rewrite Hlen. unfold entry_cost. lia. }
  destruct Hr2 as (objs2 & end2 & A2 & gain & Hj2 & Hs2 & Hheld2 & Hg0 & Hr2). rewrite Hlen in Hj2.
  assert (new_entry f1 f2 objs2 end1 ts xor its seqnum -> new_entry f f2 objs2 end1 ts xor its seqnum) as Hnew.
  { intros (s & Hin & Hat & Hs & Hs' & Hs''). exists s. rewrite <- Eseq, <- Eext. by split_and!. }
  exists r, f2, objs2, end2, dch1, fch1, A2, gain. split; [exact Hrun2|]. split; [done|].
  pose proof (contents_kept_step e _ _ _ _ _ _ Har1 Hs2) as Hck2.
  assert (items_in order e f2 objs2 iovec its xor) as Hitems.
  { eapply items_in_kept; [exact Hck2|]. by exists its0. }
  split; [by eapply contents_kept_trans|]. split; [|split].
  - intros c Hl. assert (live objs1 c) as Hl1.
    { destruct (decide (c = 0)) as [->|Hc]; [by left|]. destruct (live_data _ _ Hc Hl) as [s Hs].
      eapply live_object, es_no_data; [exact Hs2|exact Hs]. }
    rewrite held_live, Hheld2, Hheld1 by done. done.
  - destruct Hg0 as [[Hg0 Hle]|[Hg0 Hne]]; [left; split; [done|lia]|right].
    exists end1, its, xor. split; [lia|]. split; [done|]. split; [by apply Hnew|done].
  - destruct r as [p|er| |]; try done. destruct Hr2 as (-> & Hne & Hgain). exists its, xor.
    split; [by apply Hnew|]. by split.
Qed.

(** Everything a call of journal_file_append_entry does, however it ends. *)
Lemma append_entry_ok e fuel f objs end_ dch fch N A ts iovec seqnum :
  mmap_ok e -> page_ok e -> compress_law e ->
  journal e f objs end_ dch fch N A ->
  Forall (fun data => payload_fits e f data /\ bytes_ok data) iovec ->
  let ts' := default (env_now e) ts in
  is_u64 ts'.1 -> is_u64 ts'.2 ->
  hdr off_tail_entry_seqnum f < u64_max -> 0 <= jf_ext_seqnum f < u64_max ->
  entry_fits fuel end_ N iovec ->
  exists r f' objs' end' dch' fch' A' gain,
    journal_file_append_entry e fuel ts iovec seqnum f = (r, f')
    /\ journal e f' objs' end' dch' fch' (N + 1 + zlen iovec) A' /\ contents_kept e f objs f' objs'
    /\ entry_gained (merge_sort entry_item_le) e f objs end_ A ts' iovec seqnum r f' objs' A' gain.
Proof.
  intros He Hpage Hlaw Hj Hfit ts' Ht1 Ht2 Hseq Hext Hroom.
  pose proof (journal_bound_nonneg _ _ _ _ _ _ _ _ Hj) as HN0. assert (0 <= zlen iovec) as Hn0 by (unfold zlen; lia).
  unfold journal_file_append_entry. fold ts'. run.
  destruct (jf_tail_entry_monotonic_valid f && (ts'.2 <? hdr off_tail_entry_monotonic f)) eqn:Eold.
  { exists (Err EINVAL), f, objs, end_, dch, fch, A, (fun _ => []). split; [done|].
    split; [eapply journal_weaken; [done|lia]|]. split; [done|].
    split; [intros c _; by rewrite app_nil_r|]. split; [by left|done]. }
  rewrite run_fail_if by done.
  destruct (append_listed_ok (merge_sort entry_item_le) e fuel f objs end_ dch fch N A ts' iovec seqnum He Hpage Hlaw
    (merge_sort_Permutation _) Hj Hfit Ht1 Ht2 Hseq Hext Hroom)
    as (r & f2 & objs2 & end2 & dch2 & fch2 & A2 & gain & Hrun & Hj2 & Hck & Hheld & Hg & Hr).
  destruct (post_change_journal _ _ _ _ _ _ _ _ Hj2) as (Hj3 & Hs3 & Hc3).
  pose proof (st_arena _ _ _ _ _ _ (j_store _ _ _ _ _ _ _ _ Hj2)) as Har2.
  pose proof (contents_kept_step e _ _ _ _ _ _ Har2 Hs3) as Hck3.
  assert (forall q its xor, new_entry f f2 objs2 q ts' xor its seqnum ->
    new_entry f (journal_file_post_change f2) objs2 q ts' xor its seqnum) as Hnew.
  { intros q its xor (s & Hin & Hat & Hs & Hs' & Hs''). exists s. split_and!; try done. by eapply entry_at_step. }
  revert Hrun. unfold bind at 1 2. destruct (append_items e fuel iovec 0 f) as [[[its0 x]|er| |] f1]; intros Hrun.
  3-4: by injection Hrun as <- <-.
  - rewrite Hrun. exists r, (journal_file_post_change f2), objs2, end2, dch2, fch2, A2, gain.
    split; [done|]. split; [done|]. split; [by eapply contents_kept_trans|]. split; [|split].
    + intros c Hl. rewrite held_live, Hc3, <- (held_live f2 objs2 A2 c), Hheld by done. done.
    + destruct Hg as [[Hg Hle]|(q & its & xor & Hq & Hg & Hn & Hi)]; [left; by split|right].
      exists q, its, xor. split; [done|]. split; [done|]. split; [by apply Hnew|by eapply items_in_kept].
    + destruct r as [p|er| |]; try done. destruct Hr as (its & xor & Hn & Hi & Hgain). exists its, xor.
      split; [by apply Hnew|]. split; [by eapply items_in_kept|done].
  - injection Hrun as <- <-. exists (Err er), f1, objs2, end2, dch2, fch2, A2, gain.
    split; [done|]. split; [done|]. split; [done|]. by split.
Qed.

Lemma items_in_for e f objs iovec its xor :
  items_in (merge_sort entry_item_le) e f objs iovec its xor -> items_for e f objs iovec its xor.
Proof. intros (its0 & -> & Hp & Hits & Hx). split; [apply Sorted_merge_sort; apply _|]. by exists its0. Qed.

(** C2 journal_file_append_entry writes the entry it is asked to: on success the new
    entry object has the given times, a sequence number above every earlier one, the
    boot id of the header, and one item for each of the data, sorted by offset, with
    their hashes; the file's sequence of entries is the old one and then the entry,
    and so is that of each of its data objects, once for each time the data occurs;
    the others are unchanged.  When a call fails half-way the journal is still well
    formed and no entry is lost; old entries and data keep their contents either way,
    and the call always returns. *)
Theorem journal_file_append_entry_correct e fuel f objs end_ dch fch N A ts iovec seqnum :
  mmap_ok e -> page_ok e -> compress_law e ->
  journal e f objs end_ dch fch N A ->
  Forall (fun data => payload_fits e f data /\ bytes_ok data) iovec ->
  let ts' := default (env_now e) ts in
  is_u64 ts'.1 -> is_u64 ts'.2 ->
  hdr off_tail_entry_seqnum f < u64_max -> 0 <= jf_ext_seqnum f < u64_max ->
  entry_fits fuel end_ N iovec ->
  exists r f' objs' end' dch' fch' A',
    journal_file_append_entry e fuel ts iovec seqnum f = (r, f')
    /\ journal e f' objs' end' dch' fch' (N + 1 + zlen iovec) A' /\ contents_kept e f objs f' objs'
    /\ match r with
       | Ok p => exists its xor,
           new_entry f f' objs' p ts' xor its seqnum /\ items_for e f' objs' iovec its xor
           /\ forall c, live objs' c ->
                held f' objs' A' c = held f objs A c ++ gain_one 0 p c ++ replicate (occurrences c its) p
       | Err _ => forall c, live objs' c -> held f objs A c `prefix_of` held f' objs' A' c
       | _ => False
       end.
Proof.
  intros He Hpage Hlaw Hj Hfit ts' Ht1 Ht2 Hseq Hext Hroom.
  destruct (append_entry_ok e fuel f objs end_ dch fch N A ts iovec seqnum He Hpage Hlaw Hj Hfit Ht1 Ht2 Hseq Hext Hroom)
    as (r & f' & objs' & end' & dch' & fch' & A' & gain & Hrun & Hj' & Hck & Hheld & _ & Hr).
  exists r, f', objs', end', dch', fch', A'. split; [done|]. split; [done|]. split; [done|].
  destruct r as [p|er| |]; try done.
  - destruct Hr as (its & xor & Hnew & Hits & Hgain). exists its, xor. split; [done|]. split; [by apply items_in_for|].
    intros c Hl. by rewrite Hheld, Hgain.
  - intros c Hl. rewrite Hheld by done. by exists (gain c).
Qed.

(** * A fresh journal *)

Definition no_arrays : Z -> list (Z * Z) := fun _ => [].

Lemma fresh_zero : zero_above fresh_file 304.
Proof.
  intros a Ha. unfold fresh_file, fresh_mem, stores. cbn [fold_left jf_mem fst snd].
  rewrite !byte_at_store64_ne by hlia. reflexivity.
Qed.

Lemma fresh_journal : journal sample_env fresh_file fresh_objs 304 no_chains no_chains 0 no_arrays.
Proof.
  split.
  - apply (fresh_ready 0).
  - apply fresh_zero.
  - intros c [->|H].
    + split; [|vm_compute; discriminate..].
      split; [vm_compute; reflexivity|by intros b k ?%not_elem_of_nil|constructor].
    + apply Exists_exists in H as (o & Ho & E). unfold fresh_objs in Ho.
      apply elem_of_cons in Ho as [->|Ho]; [discriminate E|].
      apply list_elem_of_singleton in Ho as ->. discriminate E.
  - intros c c' b _ Hb. by apply not_elem_of_nil in Hb.
  - done.
Qed.

(** "C" *)
Definition sample_data2 : list Z := [67].

Definition sample_iovec : list (list Z) := [sample_data2; sample_data; sample_data2].

Lemma sample_iovec_fits : Forall (fun data => payload_fits sample_env fresh_file data /\ bytes_ok data) sample_iovec.
Proof.
  repeat (apply Forall_cons_2; [split; [intros _ H; vm_compute in H; by destruct H|repeat constructor; unfold is_u8; lia]|]).
  constructor.
Qed.

Lemma sample_entry_fits : entry_fits 100 304 0 sample_iovec.
Proof. vm_compute. split; [reflexivity|discriminate]. Qed.

(** Two data, one of them twice. *)
Lemma append_entry_witness :
  exists f' objs' end' dch' fch' A',
    journal_file_append_entry sample_env 100 (Some (50, 5)) sample_iovec false fresh_file
    = (Ok 496, f')
    /\ journal sample_env f' objs' end' dch' fch' 4 A'
    /\ exists its xor, new_entry fresh_file f' objs' 496 (50, 5) xor its false
       /\ items_for sample_env f' objs' sample_iovec its xor
       /\ forall c, live objs' c ->
            held f' objs' A' c
            = held fresh_file fresh_objs no_arrays c ++ gain_one 0 496 c ++ replicate (occurrences c its) 496.
Proof.
  destruct (journal_file_append_entry_correct sample_env 100 fresh_file fresh_objs 304 no_chains no_chains 0 no_arrays
    (Some (50, 5)) sample_iovec false sample_mmap sample_page)
    as (r & f' & objs' & end' & dch' & fch' & A' & Hrun & Hj & _ & Hr).
  - intros src b H. discriminate H.
  - apply fresh_journal.
  - apply sample_iovec_fits.
  - unfold is_u64. simpl. lia.
  - unfold is_u64. simpl. lia.
  - vm_compute. reflexivity.
  - vm_compute. split; [discriminate|reflexivity].
  - apply sample_entry_fits.
  - exists f', objs', end', dch', fch', A'.
    assert (r = Ok 496) as ->.
    { change r with (r, f').1. rewrite <- Hrun. vm_compute. reflexivity. }
    split; [exact Hrun|]. split; [exact Hj|].
    destruct Hr as (its & xor & Hnew & Hits & Hheld). exists its, xor.
    split; [exact Hnew|]. split; [exact Hits|exact Hheld].
Defined.


(** The sequence number of an entry. *)
Definition seqnum_of (f : JournalFile) (p : Z) : Z := load64 (jf_mem f) (p + entry_seqnum).

(** The entries of the file are entry objects, in the order of their offsets and of
    their sequence numbers, the header's being the last one handed out. *)
Record ordered (f : JournalFile) (objs : list (Z * Z * Z)) (A : Z -> list (Z * Z)) : Prop := {
  or_entry : forall p, p ∈ held f objs A 0 -> exists s, (p, OBJECT_ENTRY, s) ∈ objs;
  or_offset : StronglySorted Z.lt (held f objs A 0);
  or_seqnum : StronglySorted (fun p q => seqnum_of f p < seqnum_of f q) (held f objs A 0);
  or_tail : forall p, p ∈ held f objs A 0 -> seqnum_of f p <= hdr off_tail_entry_seqnum f }.

Lemma live_file objs : live objs 0.
Proof. by left. Qed.

Lemma held_file f objs A : held f objs A 0 = entries f (A 0).
Proof. rewrite held_live by apply live_file. done. Qed.

Section Order.
Context (e : Env) (f f' : JournalFile) (objs objs' : list (Z * Z * Z)) (end_ : Z) (A A' : Z -> list (Z * Z)).
Hypothesis (Har : arena f objs end_) (Ho : ordered f objs A) (Hck : contents_kept e f objs f' objs').

Lemma seqnum_kept p : p ∈ held f objs A 0 -> seqnum_of f' p = seqnum_of f p.
Proof.
  intros Hp. destruct (or_entry _ _ _ Ho p Hp) as [s Hs]. destruct (arena_object _ _ _ Har _ _ _ Hs) as (Hob & _).
  pose proof (obj_min _ _ _ _ Hob) as Hm. cbn in Hm. apply load64_ext. intros x Hx.
  apply (ck_entry _ _ _ _ _ Hck p s); [done|hlia].
Qed.

Lemma sorted_kept l :
  (forall p, p ∈ l -> p ∈ held f objs A 0) -> StronglySorted (fun p q => seqnum_of f p < seqnum_of f q) l ->
  StronglySorted (fun p q => seqnum_of f' p < seqnum_of f' q) l.
Proof.
  intros Hin Hs. induction Hs as [|p l Hs IH Hf]; constructor.
  - apply IH. intros q Hq. apply Hin. by constructor.
  - apply Forall_forall. intros q Hq. rewrite !seqnum_kept by (apply Hin; by constructor).
    by apply (proj1 (Forall_forall _ _) Hf).
Qed.

(** Nothing new. *)
Lemma ordered_same :
  held f' objs' A' 0 = held f objs A 0 -> hdr off_tail_entry_seqnum f <= hdr off_tail_entry_seqnum f' ->
  ordered f' objs' A'.
Proof.
  intros Eh Ht. split; rewrite Eh.
  - intros p Hp. destruct (or_entry _ _ _ Ho p Hp) as [s Hs]. exists s. by apply (ck_in _ _ _ _ _ Hck).
  - apply Ho.
  - by apply sorted_kept, Ho.
  - intros p Hp. rewrite seqnum_kept by done. pose proof (or_tail _ _ _ Ho p Hp). lia.
Qed.

(** A new entry at the end. *)
Lemma ordered_snoc q ts xor its seqnum :
  held f' objs' A' 0 = held f objs A 0 ++ [q] -> end_ <= q -> new_entry f f' objs' q ts xor its seqnum ->
  ordered f' objs' A'.
Proof.
  intros Eh Hq (s & Hin & Hat & Hs & Hs' & _). pose proof (ea_seqnum _ _ _ _ _ _ Hat) as Hqs.
  split; rewrite Eh.
  - intros p [Hp| ->%list_elem_of_singleton]%elem_of_app; [|by eexists].
    destruct (or_entry _ _ _ Ho p Hp) as [r Hr]. exists r. by apply (ck_in _ _ _ _ _ Hck).
  - apply StronglySorted_app_2; [|apply Ho|by repeat constructor].
    intros p q' Hp ->%list_elem_of_singleton. destruct (or_entry _ _ _ Ho p Hp) as [r Hr].
    destruct (arena_object _ _ _ Har _ _ _ Hr) as (Hob & _ & ?). pose proof (object_ALIGN64 _ _ _ _ Hob). lia.
  - apply StronglySorted_app_2; [|by apply sorted_kept, Ho|by repeat constructor].
    intros p q' Hp ->%list_elem_of_singleton. rewrite seqnum_kept by done.
    pose proof (or_tail _ _ _ Ho p Hp). unfold seqnum_of at 2. lia.
  - intros p [Hp| ->%list_elem_of_singleton]%elem_of_app.
    + rewrite seqnum_kept by done. pose proof (or_tail _ _ _ Ho p Hp). lia.
    + unfold seqnum_of. lia.
Qed.

End Order.

(** C14 journal_file_append_entry keeps the entries of a file in order: whether it
    succeeds or fails half-way, the file's entries are entry objects whose offsets and
    sequence numbers strictly increase, none above the header's tail_entry_seqnum. *)
Theorem journal_file_append_entry_keeps_order e fuel f objs end_ dch fch N A ts iovec seqnum :
  mmap_ok e -> page_ok e -> compress_law e ->
  journal e f objs end_ dch fch N A -> ordered f objs A ->
  Forall (fun data => payload_fits e f data /\ bytes_ok data) iovec ->
  let ts' := default (env_now e) ts in
  is_u64 ts'.1 -> is_u64 ts'.2 ->
  hdr off_tail_entry_seqnum f < u64_max -> 0 <= jf_ext_seqnum f < u64_max ->
  entry_fits fuel end_ N iovec ->
  exists r f' objs' end' dch' fch' A',
    journal_file_append_entry e fuel ts iovec seqnum f = (r, f')
    /\ journal e f' objs' end' dch' fch' (N + 1 + zlen iovec) A' /\ ordered f' objs' A'.
Proof.
  intros He Hpage Hlaw Hj Ho Hfit ts' Ht1 Ht2 Hseq Hext Hroom.
  destruct (append_entry_ok e fuel f objs end_ dch fch N A ts iovec seqnum He Hpage Hlaw Hj Hfit Ht1 Ht2 Hseq Hext Hroom)
    as (r & f' & objs' & end' & dch' & fch' & A' & gain & Hrun & Hj' & Hck & Hheld & Hg & _).
  exists r, f', objs', end', dch', fch', A'. split; [done|]. split; [done|].
  pose proof (st_arena _ _ _ _ _ _ (j_store _ _ _ _ _ _ _ _ Hj)) as Har.
  pose proof (Hheld 0 (live_file _)) as Hh. destruct Hg as [[Hg Hle]|(q & its & xor & Hq & Hg & Hnew & _)].
  - rewrite Hg, app_nil_r in Hh. by eapply ordered_same.
  - rewrite Hg in Hh. by eapply ordered_snoc.
Qed.

(** * Readers *)

(** Another handle that shows the same file, maybe after it grew and in another state. *)
Record shows (f g : JournalFile) : Prop := {
  sw_mem : agree (fun a => a <> off_state) (jf_mem f) (jf_mem g);
  sw_ok : mem_ok (jf_mem g);
  sw_last : jf_last_size f <= jf_last_size g < 2 ^ 63 }.

Lemma shows_load64 f g a : shows f g -> 17 <= a \/ a + 8 <= 16 -> load64 (jf_mem g) a = load64 (jf_mem f) a.
Proof. intros Hs Ha. apply (agree_load64 _ _ _ _ (sw_mem _ _ Hs)). unfold off_state. lia. Qed.

Lemma shows_byte f g a : shows f g -> 17 <= a -> byte_at (jf_mem g) a = byte_at (jf_mem f) a.
Proof. intros Hs Ha. apply (sw_mem _ _ Hs). unfold off_state. lia. Qed.

Lemma shows_bytes f g a n : shows f g -> 17 <= a -> load_bytes (jf_mem g) a n = load_bytes (jf_mem f) a n.
Proof. intros Hs Ha. apply load_bytes_ext. intros x Hx. apply (shows_byte _ _ _ Hs). lia. Qed.

Lemma shows_data_of e f g a : shows f g -> 17 <= a -> data_of e g a = data_of e f a.
Proof.
  intros Hs Ha. unfold data_of, data_compressed, data_raw.
  rewrite (shows_byte _ _ _ Hs), (shows_load64 _ _ _ Hs), (shows_bytes _ _ _ _ Hs) by hlia. done.
Qed.

Lemma is_object_shows f g ty p s : shows f g -> 17 <= p -> is_object f ty p s -> is_object g ty p s.
Proof.
  intros Hs Hp Ho. eapply is_object_agree; [exact Ho| |apply Hs]. eapply agree_mono; [|apply Hs].
  intros a Ha. cbn beta in *. unfold off_state. lia.
Qed.

Lemma chain_shows f g a arrs :
  shows f g -> Forall (fun bk => 17 <= bk.1) arrs -> chain f a arrs -> chain g a arrs.
Proof.
  intros Hs Hp. revert a. induction Hp as [|[b k] arrs Hb Hp IH]; intros a; simpl; [done|]. simpl in Hb.
  intros (-> & [Ho Hk] & Hc). split_and!; [done|split; [by eapply is_object_shows|done]|].
  rewrite (shows_load64 _ _ _ Hs) by hlia. auto.
Qed.

Lemma echain_above f objs end_ a arrs : arena f objs end_ -> echain f objs a arrs -> Forall (fun bk => 17 <= bk.1) arrs.
Proof.
  intros Har Hc. apply Forall_forall. intros [b k] Hb. destruct (arena_object _ _ _ Har _ _ _ (ec_objs _ _ _ _ Hc b k Hb)). simpl. lia.
Qed.

Lemma items_shows f g arrs : shows f g -> Forall (fun bk => 17 <= bk.1) arrs -> items g arrs = items f arrs.
Proof.
  intros Hs Hp. apply items_agree. intros b k x Hb Hx. apply (shows_byte _ _ _ Hs).
  pose proof (proj1 (Forall_forall _ _) Hp _ Hb) as H. simpl in H. hlia.
Qed.

Lemma entries_shows f g arrs : shows f g -> Forall (fun bk => 17 <= bk.1) arrs -> entries g arrs = entries f arrs.
Proof.
  intros Hs Hp. unfold entries, hdr. rewrite (shows_load64 _ _ _ Hs) by hlia. f_equal. by apply items_shows.
Qed.

Lemma shows_self e f objs end_ dch fch N A : journal e f objs end_ dch fch N A -> shows f f.
Proof.
  intros Hj. pose proof (st_arena _ _ _ _ _ _ (j_store _ _ _ _ _ _ _ _ Hj)) as [Hm _ _ _ _ Ha Hs _].
  split; [done|done|lia].
Qed.

Definition total_size (objs : list (Z * Z * Z)) : Z := foldr (fun o n => o.2 + n) 0 objs.

Lemma objects_from_total f p objs end_ : objects_from f p objs end_ -> p + total_size objs <= end_.
Proof.
  revert p. induction objs as [|[[a ty] s] objs IH]; intros p; simpl; [lia|].
  intros (-> & Ho & Hr). apply IH in Hr. apply object_ALIGN64 in Ho. lia.
Qed.

Lemma total_size_submseteq l k :
  Forall (fun o => 0 <= o.2) k -> l ⊆+ k -> total_size l <= total_size k.
Proof.
  intros Hp Hs. apply submseteq_Permutation in Hs as [k' Hk].
  assert (forall a b, total_size (a ++ b) = total_size a + total_size b) as Happ.
  { intros a b. induction a; simpl; lia. }
  assert (total_size k = total_size (l ++ k')) as ->.
  { clear Hp. induction Hk; simpl; lia. }
  rewrite Happ. rewrite Hk in Hp. apply Forall_app in Hp as [_ Hp].
  assert (0 <= total_size k'); [|lia]. clear Hk. induction Hp; simpl; lia.
Qed.

(** The arrays of a chain fit in the file together. *)
Lemma echain_caps f objs end_ a arrs :
  arena f objs end_ -> echain f objs a arrs -> 8 * caps arrs <= end_.
Proof.
  intros Har [Hc Hin Hnd].
  set (os := (fun bk : Z * Z => (bk.1, OBJECT_ENTRY_ARRAY, entry_array_items + 8 * bk.2)) <$> arrs).
  assert (os ⊆+ objs) as Hsub.
  { apply NoDup_submseteq.
    - apply (NoDup_fmap_1 (fun o : Z * Z * Z => o.1.1)). unfold os. rewrite <- list_fmap_compose. exact Hnd.
    - intros x Hx. apply list_elem_of_fmap in Hx as ([b k] & -> & Hb). by apply Hin. }
  apply total_size_submseteq in Hsub.
  2:{ apply Forall_forall. intros [[b ty] s] Hb. destruct (arena_object _ _ _ Har _ _ _ Hb) as (Ho & _).
      apply object_ALIGN64 in Ho. simpl. lia. }
  pose proof (objects_from_total _ _ _ _ (ar_objects _ _ _ Har)). pose proof (ar_header _ _ _ Har).
  assert (8 * caps arrs <= total_size os); [|lia]. unfold os. clear.
  induction arrs as [|[b k] arrs IH]; [done|]. rewrite fmap_cons. cbn [caps total_size foldr fst snd].
  fold (total_size ((fun bk : Z * Z => (bk.1, OBJECT_ENTRY_ARRAY, entry_array_items + 8 * bk.2)) <$> arrs)). hlia.
Qed.

Section Reader.
Context (e : Env) (f : JournalFile) (objs : list (Z * Z * Z)) (end_ : Z) (dch fch : Z -> list Z) (N : Z)
  (A : Z -> list (Z * Z)) (g : JournalFile).
Hypothesis (Hj : journal e f objs end_ dch fch N A) (Ho : ordered f objs A) (Hg : shows f g)
  (Hcache : chain_cache_get (jf_chain_cache g) (hdr off_entry_array_offset g) = None).

Lemma journal_arrays_above : Forall (fun bk => 17 <= bk.1) (A 0).
Proof.
  eapply echain_above; [apply (st_arena _ _ _ _ _ _ (j_store _ _ _ _ _ _ _ _ Hj))|].
  apply (j_ok _ _ _ _ _ _ _ _ Hj 0 (live_file _)).
Qed.

Lemma journal_entry_list : entry_list g (A 0).
Proof.
  pose proof (j_store _ _ _ _ _ _ _ _ Hj) as [Har _ _ _].
  destruct (j_ok _ _ _ _ _ _ _ _ Hj 0 (live_file _)) as [Hc Hn _].
  change (inline_entries 0) with 0 in Hn. change (count f 0) with (hdr off_n_entries f) in Hn.
  assert (hdr off_n_entries g = hdr off_n_entries f) as En by (apply (shows_load64 _ _ _ Hg); hlia).
  pose proof (load64_range (jf_mem f) off_n_entries (ar_mem _ _ _ Har)) as [? _].
  split.
  - unfold hdr. rewrite (shows_load64 _ _ _ Hg) by hlia. eapply chain_shows; [done|apply journal_arrays_above|apply Hc].
  - rewrite En. unfold hdr in *. lia.
  - pose proof (echain_caps _ _ _ _ _ Har Hc). pose proof (objects_from_le _ _ _ _ (ar_objects _ _ _ Har)).
    pose proof (ar_end _ _ _ Har). pose proof (ar_arena _ _ _ Har). pose proof (ar_size _ _ _ Har). lia.
  - intros i p Hp. rewrite (entries_shows f g _ Hg journal_arrays_above) in Hp. apply list_elem_of_lookup_2 in Hp.
    rewrite <- held_file with (objs := objs) in Hp. destruct (or_entry _ _ _ Ho p Hp) as [s Hs]. exists s.
    destruct (arena_object _ _ _ Har _ _ _ Hs) as (Hob & ? & _). eapply is_object_shows; [done|lia|done].
  - intros c Hget. unfold hdr in *. congruence.
Qed.

Lemma held_above p : p ∈ held f objs A 0 -> 240 <= p.
Proof.
  intros Hp. destruct (or_entry _ _ _ Ho p Hp) as [s Hs].
  apply (arena_object _ _ _ (st_arena _ _ _ _ _ _ (j_store _ _ _ _ _ _ _ _ Hj)) _ _ _ Hs).
Qed.

Lemma held_seqnum p : p ∈ held f objs A 0 -> seqnum_of g p = seqnum_of f p.
Proof. intros Hp%held_above. apply (shows_load64 _ _ _ Hg). hlia. Qed.

Lemma journal_entries_sorted : entries_sorted g (A 0) (seqnum_of g).
Proof.
  pose proof (or_seqnum _ _ _ Ho) as Hs. rewrite held_file in Hs.
  pose proof journal_entry_list as Hel.
  intros i j p q Hi Hjn Hp Hq. destruct (Z.eq_dec i j) as [->|Hne]; [assert (p = q) as -> by congruence; lia|].
  rewrite <- (entries_nth g (A 0)) in Hp, Hq by lia. rewrite (entries_shows f g _ Hg journal_arrays_above) in Hp, Hq.
  rewrite !held_seqnum by (rewrite held_file; by eapply list_elem_of_lookup_2).
  apply Z.lt_le_incl. unfold nthz in *.
  rewrite <- (take_drop (Z.to_nat j) (entries f (A 0))) in Hs.
  eapply (StronglySorted_app_1_elem_of _ _ _ _ _ Hs).
  - eapply (list_elem_of_lookup_2 _ (Z.to_nat i)). rewrite lookup_take_lt by lia. exact Hp.
  - eapply (list_elem_of_lookup_2 _ 0). rewrite lookup_drop, Nat.add_0_r. exact Hq.
Qed.

End Reader.

Lemma linear_search_last key s l p :
  (forall q, q ∈ l -> key q < s) -> key p = s ->
  linear_search DIRECTION_DOWN key s (l ++ [p]) = Some (p, zlen l).
Proof.
  intros Hl Hp. unfold linear_search.
  replace (list_find (fun p => s <= key p) (l ++ [p])) with (Some (length l, p)); [done|].
  symmetry. apply list_find_Some. split_and!.
  - by rewrite lookup_app_r, Nat.sub_diag by lia.
  - lia.
  - intros j y Hy Hj. rewrite lookup_app_l in Hy by lia. apply list_elem_of_lookup_2, Hl in Hy. lia.
Qed.

(** C13 What was written is found: after journal_file_append_entry returned the entry
    [p], any reader of the file that seeks its sequence number (with no chain cached
    yet) is given [p], at the index that was the number of entries before. *)
Theorem appended_entry_is_found e fuel f objs end_ dch fch N A ts iovec seqnum p f' :
  mmap_ok e -> page_ok e -> compress_law e ->
  journal e f objs end_ dch fch N A -> ordered f objs A ->
  Forall (fun data => payload_fits e f data /\ bytes_ok data) iovec ->
  let ts' := default (env_now e) ts in
  is_u64 ts'.1 -> is_u64 ts'.2 ->
  hdr off_tail_entry_seqnum f < u64_max -> 0 <= jf_ext_seqnum f < u64_max ->
  entry_fits fuel end_ N iovec ->
  journal_file_append_entry e fuel ts iovec seqnum f = (Ok p, f') ->
  exists enough, forall n g, (enough <= n)%nat -> shows f' g ->
    chain_cache_get (jf_chain_cache g) (hdr off_entry_array_offset g) = None ->
    exists c, journal_file_move_to_entry_by_seqnum e n (seqnum_of f' p) DIRECTION_DOWN g
              = (Ok (Some (p, hdr off_n_entries f)), set_cache g c).
Proof.
  intros He Hpage Hlaw Hj Ho Hfit ts' Ht1 Ht2 Hseq Hext Hroom Hrun.
  destruct (append_entry_ok e fuel f objs end_ dch fch N A ts iovec seqnum He Hpage Hlaw Hj Hfit Ht1 Ht2 Hseq Hext Hroom)
    as (r & f2 & objs' & end' & dch' & fch' & A' & gain & Hrun' & Hj' & Hck & Hheld & Hgain & Hr).
  rewrite Hrun in Hrun'. injection Hrun' as <- <-. destruct Hr as (its & xor & Hnew & Hits & Hg).
  pose proof (st_arena _ _ _ _ _ _ (j_store _ _ _ _ _ _ _ _ Hj)) as Har.
  pose proof (Hheld 0 (live_file _)) as Hh.
  assert (end_ <= p /\ gain 0 = [p]) as [Hp Hg0].
  { destruct Hgain as [[Hg0 _]|(q & its' & xor' & Hq & Hg0 & _)]; rewrite Hg in Hg0; unfold gain_one in Hg0;
      rewrite decide_True in Hg0 by done; [discriminate Hg0|]. injection Hg0 as -> Hrest.
    split; [done|]. rewrite Hg. unfold gain_one. rewrite decide_True by done. simpl. by rewrite Hrest. }
  rewrite Hg0 in Hh. pose proof (ordered_snoc e f f' objs objs' end_ A A' Har Ho Hck p ts' xor its seqnum Hh Hp Hnew) as Ho'.
  exists (62 + length (A' 0%Z))%nat. intros n g Hn Hshow Hcache.
  pose proof (journal_entry_list e f' objs' end' dch' fch' _ A' g Hj' Ho' Hshow Hcache) as Hel.
  pose proof (journal_entries_sorted e f' objs' end' dch' fch' _ A' g Hj' Ho' Hshow Hcache) as Hsort.
  unfold journal_file_move_to_entry_by_seqnum. rewrite run_rd, run_rd.
  destruct (bisect_entries e n g (A' 0) He ltac:(lia) ltac:(lia) Hel (test_object_field e entry_seqnum) DIRECTION_DOWN
    (seqnum_of g) (seqnum_of f' p) Hsort) as (c & Hseek & _).
  { intros p' s. apply (test_object_field_ok e n g (A' 0) He); lia. }
  exists c. unfold hdr in Hseek at 1 2. etrans; [exact Hseek|]. unfold up_past_full. simpl andb. cbv iota.
  rewrite (entries_shows f' g _ Hshow (journal_arrays_above _ _ _ _ _ _ _ _ Hj')), <- (held_file f' objs' A'), Hh.
  assert (zlen (held f objs A 0) = hdr off_n_entries f) as <-.
  { rewrite held_file. change (zlen (entries (set_cache f []) (A 0)) = hdr off_n_entries (set_cache f [])).
    apply entries_length, (journal_entry_list e f objs end_ dch fch N A (set_cache f []) Hj Ho); [|done].
    pose proof (ar_arena _ _ _ Har). pose proof (ar_size _ _ _ Har). split; [done|apply Har|cbn; lia]. }
  destruct Hnew as (s & Hin & Hat & Hs & _). pose proof (ea_seqnum _ _ _ _ _ _ Hat) as Hps.
  assert (forall q, q ∈ held f' objs' A' 0 -> seqnum_of g q = seqnum_of f' q) as Hk by (intros; by eapply held_seqnum).
  rewrite Hh in Hk. rewrite linear_search_last; [done| |apply Hk; rewrite elem_of_app, list_elem_of_singleton; auto].
  intros q Hq. rewrite Hk by (rewrite elem_of_app; auto).
  rewrite (seqnum_kept e f f' objs objs' end_ A Har Ho Hck q Hq).
  pose proof (or_tail _ _ _ Ho q Hq). unfold seqnum_of at 2. lia.
Qed.

(** * The fresh journal *)

Lemma fresh_ordered : ordered fresh_file fresh_objs no_arrays.
Proof.
  assert (held fresh_file fresh_objs no_arrays 0 = []) as E by (vm_compute; reflexivity).
  split; rewrite E; [by intros p ?%not_elem_of_nil|constructor|constructor|by intros p ?%not_elem_of_nil].
Qed.

(** A handle that was written to shows its own file. *)
Lemma sample_shows r f' :
  journal_file_append_entry sample_env 100 (Some (50, 5)) sample_iovec false fresh_file = (r, f') -> shows f' f'.
Proof.
  intros Hrun.
  destruct (append_entry_ok sample_env 100 fresh_file fresh_objs 304 no_chains no_chains 0 no_arrays
    (Some (50, 5)) sample_iovec false sample_mmap sample_page ltac:(intros src b H; discriminate H) fresh_journal
    sample_iovec_fits) as (r' & f2 & objs' & end' & dch' & fch' & A' & gain & Hrun' & Hj' & _).
  - unfold is_u64. simpl. lia.
  - unfold is_u64. simpl. lia.
  - vm_compute. reflexivity.
  - vm_compute. split; [discriminate|reflexivity].
  - apply sample_entry_fits.
  - rewrite Hrun in Hrun'. injection Hrun' as _ <-. by eapply shows_self.
Qed.

Lemma keeps_order_witness :
  exists f' objs' end' dch' fch' A',
    journal_file_append_entry sample_env 100 (Some (50, 5)) sample_iovec false fresh_file = (Ok 496, f')
    /\ journal sample_env f' objs' end' dch' fch' 4 A' /\ ordered f' objs' A'.
Proof.
  destruct (journal_file_append_entry_keeps_order sample_env 100 fresh_file fresh_objs 304 no_chains no_chains 0 no_arrays
    (Some (50, 5)) sample_iovec false sample_mmap sample_page ltac:(intros src b H; discriminate H) fresh_journal
    fresh_ordered sample_iovec_fits)
    as (r & f' & objs' & end' & dch' & fch' & A' & Hrun & Hj & Ho).
  - unfold is_u64. simpl. lia.
  - unfold is_u64. simpl. lia.
  - vm_compute. reflexivity.
  - vm_compute. split; [discriminate|reflexivity].
  - apply sample_entry_fits.
  - exists f', objs', end', dch', fch', A'.
    assert (r = Ok 496) as ->.
    { change r with (r, f').1. rewrite <- Hrun. vm_compute. reflexivity. }
    split; [exact Hrun|]. split; [exact Hj|exact Ho].
Defined.

(** The first entry of the fresh journal is found at index 0. *)
Lemma appended_entry_witness :
  exists f', journal_file_append_entry sample_env 100 (Some (50, 5)) sample_iovec false fresh_file = (Ok 496, f')
  /\ exists enough, forall n g, (enough <= n)%nat -> shows f' g ->
    chain_cache_get (jf_chain_cache g) (hdr off_entry_array_offset g) = None ->
    exists c, journal_file_move_to_entry_by_seqnum sample_env n (seqnum_of f' 496) DIRECTION_DOWN g
              = (Ok (Some (496, hdr off_n_entries fresh_file)), set_cache g c).
Proof.
  destruct (journal_file_append_entry sample_env 100 (Some (50, 5)) sample_iovec false fresh_file) as [r f'] eqn:Hrun.
  assert (r = Ok 496) as ->.
  { change r with (r, f').1. rewrite <- Hrun. vm_compute. reflexivity. }
  exists f'. split; [reflexivity|].
  apply (appended_entry_is_found sample_env 100 fresh_file fresh_objs 304 no_chains no_chains 0 no_arrays
    (Some (50, 5)) sample_iovec false 496 f' sample_mmap sample_page ltac:(intros src b H; discriminate H) fresh_journal
    fresh_ordered sample_iovec_fits).
  - unfold is_u64. simpl. lia.
  - unfold is_u64. simpl. lia.
  - vm_compute. reflexivity.
  - vm_compute. split; [discriminate|reflexivity].
  - apply sample_entry_fits.
  - exact Hrun.
Defined.
