(* ===== verification/JournalOpen.v ===== *)
(** lib/journal-file.c and lib/utils/boot: opening, closing, replacing and copying
    journal files. *)
From S2P Require Import Prelude CString Uuid Vacuum Memory JournalDef JournalFile Metrics.

Definition O_RDONLY := 0.
Definition O_RDWR := 2.
Definition O_ACCMODE := 3.
Definition O_CREAT := 64.
Definition EHOSTDOWN := 112.

(** The files by their paths: content and size.  The file behind a handle is the
    handle's until it is closed. *)
Abbreviation Disk := (gmap (list Z) (mem * Z)).

(** What is answered while a file is opened: the errno of open, of each fstat and of
    mmap or 0, the descriptor, the random uuid, what boot_get_id could read, and the
    f_frsize and f_blocks of fstatvfs. *)
Record OpenEnv := mkOpenEnv {
  oe_open : Z;
  oe_fd : Z;
  oe_fstat : Z;
  oe_fstat_new : Z;
  oe_mmap : Z;
  oe_file_id : list Z;
  oe_boot : option (list Z);
  oe_fs : option (Z * Z) }.

(** A handle with the arguments it was opened with. *)
Record OpenFile := mkOpenFile {
  of_file : JournalFile;
  of_path : list Z;
  of_flags : Z;
  of_mode : Z }.

(** boot_get_id: what was read from the kernel's file, [None] if it could not be
    opened; every failure is -1. *)
Definition boot_get_id (line : option (list Z)) : outcome (list Z) :=
  match line with
  | None => Err 1
  | Some buf =>
      if negb (length buf =? 36)%nat then Err 1 else
      match uuid_parse (buf ++ [0]) (replicate 16 0) with
      | Some (r, id) => if negb (r =? 0) then Err 1 else Ok id
      | None => NoFuel
      end
  end.

Definition zero_metrics : JournalMetrics := mkMetrics 0 0 0 0 0.

(** new0(JournalFile) with what is set before the file is opened; [ext] is the
    caller's counter. *)
Definition new_handle (writable compress : bool) (ext : Z) : JournalFile :=
  mkJF ∅ 0 0 (-1) false writable compress false false zero_metrics [] 0 0 ext.

Definition set_fd (f : JournalFile) (fd : Z) (file : mem * Z) : JournalFile :=
  mkJF file.1 file.2 (jf_last_size f) fd (jf_header f) (jf_writable f)
    (jf_compress_xz f) (jf_compress_lz4 f) (jf_tail_entry_monotonic_valid f)
    (jf_metrics f) (jf_chain_cache f) (jf_data_hash_table f) (jf_field_hash_table f) (jf_ext_seqnum f).
Definition set_header (f : JournalFile) : JournalFile :=
  mkJF (jf_mem f) (jf_size f) (jf_last_size f) (jf_fd f) true (jf_writable f)
    (jf_compress_xz f) (jf_compress_lz4 f) (jf_tail_entry_monotonic_valid f)
    (jf_metrics f) (jf_chain_cache f) (jf_data_hash_table f) (jf_field_hash_table f) (jf_ext_seqnum f).
Definition set_metrics (f : JournalFile) (m : JournalMetrics) : JournalFile :=
  mkJF (jf_mem f) (jf_size f) (jf_last_size f) (jf_fd f) (jf_header f) (jf_writable f)
    (jf_compress_xz f) (jf_compress_lz4 f) (jf_tail_entry_monotonic_valid f)
    m (jf_chain_cache f) (jf_data_hash_table f) (jf_field_hash_table f) (jf_ext_seqnum f).

(** open: the file at a path, created empty if O_CREAT says so. *)
Definition sys_open (o : OpenEnv) (fname : list Z) (flags : Z) (d : Disk) : outcome (mem * Z) * Disk :=
  if negb (oe_open o =? 0) then (Err (oe_open o), d) else
  match d !! fname with
  | Some file => (Ok file, d)
  | None => if Z.land flags O_CREAT =? 0 then (Err ENOENT, d) else (Ok (∅, 0), <[fname := (∅, 0)]> d)
  end.

Definition sys_rename (old new : list Z) (d : Disk) : Disk :=
  match d !! old with
  | Some file => <[new := file]> (delete old d)
  | None => d
  end.

(** What journal_file_close leaves of the file: set_offline's result is not looked at. *)
Definition journal_file_close (f : JournalFile) : mem * Z :=
  let f := (journal_file_set_offline f).2 in (jf_mem f, jf_size f).

Section Open.
Context (e : Env).

(** journal_file_open from the first fstat to the check of the header; [true] for a
    file that is newly created. *)
Definition open_header (o : OpenEnv) (template : option JournalFile) : M bool :=
  fail_if (negb (oe_fstat o =? 0)) (oe_fstat o) ;;
  modify (fun f => set_sizes f (jf_size f) (jf_size f)) ;;
  f <- get ;;
  newly_created <-
    (if (jf_last_size f =? 0) && jf_writable f
     then (journal_file_init_header e (oe_file_id o) template ;;
           fail_if (negb (oe_fstat_new o =? 0)) (oe_fstat_new o) ;;
           modify (fun f => set_sizes f (jf_size f) (jf_size f)) ;;
           ret true)
     else ret false) ;;
  f <- get ;;
  fail_if (jf_last_size f <? HEADER_SIZE_MIN) EIO ;;
  fail_if (negb (oe_mmap o =? 0)) (oe_mmap o) ;;
  modify set_header ;;
  when (negb newly_created) journal_file_verify_header ;;
  ret newly_created.

(** The rest of it; [metrics] are those of the file. *)
Definition open_tables (o : OpenEnv) (newly_created : bool) (metrics : option JournalMetrics) : M unit :=
  f <- get ;;
  when (jf_writable f)
    (match metrics with Some m => modify (fun f => set_metrics f m) | None => ret tt end ;;
     journal_file_refresh_header (boot_get_id (oe_boot o))) ;;
  when newly_created
    (journal_file_setup_field_hash_table e ;; journal_file_setup_data_hash_table e) ;;
  journal_file_map_field_hash_table e ;;
  journal_file_map_data_hash_table e.

(** The limits a file that may be written to gets: the caller's, completed by
    journal_default_metrics, or else the template's. *)
Definition open_metrics (o : OpenEnv) (metrics : option JournalMetrics) (template : option JournalFile)
  : option JournalMetrics :=
  match metrics with
  | Some m => Some (journal_default_metrics e m (oe_fs o))
  | None => jf_metrics <$> template
  end.

(** A result that is not [Ok], at another type. *)
Definition failed_as {A B} (r : outcome A) : outcome B :=
  match r with Err er => Err er | NoFuel => NoFuel | _ => Crash end.

(** The result, the caller's metrics, and the files. *)
Definition journal_file_open (o : OpenEnv) (fname : list Z) (flags mode : Z) (compress : bool)
    (metrics : option JournalMetrics) (template : option JournalFile) (ext : Z) (d : Disk)
  : outcome OpenFile * option JournalMetrics * Disk :=
  if negb (Z.land flags O_ACCMODE =? O_RDONLY) && negb (Z.land flags O_ACCMODE =? O_RDWR)
  then (Err EINVAL, metrics, d) else
  if negb (endswith fname dot_journal) && negb (endswith fname dot_journal_tilde)
  then (Err EINVAL, metrics, d) else
  let f := new_handle (negb (Z.land flags O_ACCMODE =? O_RDONLY)) compress ext in
  match sys_open o fname flags d with
  | (Ok file, d) =>
      match open_header o template (set_fd f (oe_fd o) file) with
      | (Ok newly_created, f) =>
          let given := match metrics with
            | Some _ => if jf_writable f then open_metrics o metrics template else metrics
            | None => None end in
          match open_tables o newly_created (open_metrics o metrics template) f with
          | (Ok _, f) => (Ok (mkOpenFile f fname flags mode), given, d)
          | (r, f) => (failed_as r, given, <[fname := journal_file_close f]> d)
          end
      | (r, f) => (failed_as r, metrics, <[fname := journal_file_close f]> d)
      end
  | (r, d) => (failed_as r, metrics, d)
  end.

Context (strftime : Z -> list Z).

(** [strftime]: what localtime_r and strftime make of a number of seconds. *)
Definition format_timestamp_short (t : Z) : list Z := strftime (t / 1000000).

(** [%.*s-%s.journal] with the path but for its last eight characters. *)
Definition replaced_name (path : list Z) (usec : Z) (suffix : list Z) : list Z :=
  take (length path - 8) path ++ 45 :: format_timestamp_short usec ++ suffix.

(** [rename]: 0 or the errno.  The handle afterwards, none if the new file could not be
    opened. *)
Definition journal_file_rotate (o : OpenEnv) (rename : Z) (old : OpenFile) (compress : bool) (d : Disk)
  : outcome unit * option OpenFile * Disk :=
  let f := of_file old in
  if negb (jf_writable f) then (Err EINVAL, Some old, d) else
  if negb (endswith (of_path old) dot_journal) then (Err EINVAL, Some old, d) else
  let p := replaced_name (of_path old) (hdr off_head_entry_realtime f) dot_journal in
  if negb (rename =? 0) then (Err rename, Some old, d) else
  let d := sys_rename (of_path old) p d in
  let f := set_mem f (store8 (jf_mem f) off_state STATE_ARCHIVED) in
  match journal_file_open o (of_path old) (of_flags old) (of_mode old) compress None (Some f) (jf_ext_seqnum f) d with
  | (r, _, d) =>
      let d := <[p := journal_file_close f]> d in
      match r with
      | Ok new_file => (Ok tt, Some new_file, d)
      | r => (failed_as r, None, d)
      end
  end.

(** [o2], [rename] and [now] are answered when the file is opened again. *)
Definition journal_file_open_reliably (o o2 : OpenEnv) (rename now : Z) (fname : list Z) (flags mode : Z)
    (compress : bool) (metrics : option JournalMetrics) (template : option JournalFile) (ext : Z) (d : Disk)
  : outcome OpenFile * option JournalMetrics * Disk :=
  let '(r, metrics, d) := journal_file_open o fname flags mode compress metrics template ext d in
  match r with
  | Err er =>
      if negb (er =? EBADMSG) && negb (er =? ENODATA) && negb (er =? EHOSTDOWN)
         && negb (er =? EPROTONOSUPPORT) && negb (er =? EBUSY) && negb (er =? ESHUTDOWN)
      then (r, metrics, d) else
      if Z.land flags O_ACCMODE =? O_RDONLY then (r, metrics, d) else
      if Z.land flags O_CREAT =? 0 then (r, metrics, d) else
      if negb (endswith fname dot_journal) then (r, metrics, d) else
      if negb (rename =? 0) then (Err rename, metrics, d) else
      journal_file_open o2 fname flags mode compress metrics template ext
        (sys_rename fname (replaced_name fname now dot_journal_tilde) d)
  | r => (r, metrics, d)
  end.

End Open.

(** * Copying entries *)

Section Copy.
Context (e : Env) (fuel : nat).

(** The data an entry's item points to, read from the file it is copied from: [p] is
    the entry and [i] the item. *)
Definition copied_data (p i : Z) : M (list Z) :=
  q <- rd (entry_item p i) ;;
  le_hash <- rd (entry_item p i + 8) ;;
  o <- journal_file_move_to_object e OBJECT_DATA q ;;
  h <- rd (o + data_hash) ;;
  fail_if (negb (le_hash =? h)) EBADMSG ;;
  s <- rd (o + obj_size) ;;
  let l := s - data_payload in
  flags <- rdb (o + obj_flags) ;;
  payload <- rdbytes (o + data_payload) l ;;
  let c := Z.land flags OBJECT_COMPRESSION_MASK in
  if negb (c =? 0)
  then match decompress_blob e c payload with
       | Ok data => ret data
       | Err er => err er
       | Crash => crash
       | NoFuel => nofuel
       end
  else ret payload.

(** The two files of the copy: the first is read, the second written. *)
Definition copy_item (p i : Z) (from to : JournalFile) : outcome (Z * Z) * JournalFile * JournalFile :=
  match copied_data p i from with
  | (Ok data, from) =>
      match (h <- journal_file_append_data e fuel data ;;
             hash <- rd (h + data_hash) ;;
             ret (h, hash)) to with
      | (Ok it, to) =>
          match journal_file_move_to_object e OBJECT_ENTRY p from with
          | (Ok _, from) => (Ok it, from, to)
          | (r, from) => (failed_as r, from, to)
          end
      | (r, to) => (failed_as r, from, to)
      end
  | (r, from) => (failed_as r, from, to)
  end.

Fixpoint copy_items (n : nat) (p i : Z) (from to : JournalFile) (xor_hash : Z)
  : outcome (list (Z * Z) * Z) * JournalFile * JournalFile :=
  match n with
  | O => (Ok ([], xor_hash), from, to)
  | S n =>
      match copy_item p i from to with
      | (Ok it, from, to) =>
          match copy_items n p (i + 1) from to (Z.lxor xor_hash it.2) with
          | (Ok (its, x), from, to) => (Ok (it :: its, x), from, to)
          | r => r
          end
      | (r, from, to) => (failed_as r, from, to)
      end
  end.

(** [p]: the entry in [from], whose object is mapped. *)
Definition journal_file_copy_entry (p : Z) (seqnum : bool) (from to : JournalFile)
  : outcome Z * JournalFile * JournalFile :=
  if negb (jf_writable to) then (Err EPERM, from, to) else
  match (n <- journal_file_entry_n_items p ;;
         monotonic <- rd (p + entry_monotonic) ;;
         realtime <- rd (p + entry_realtime) ;;
         ret (n, (realtime, monotonic))) from with
  | (Ok (n, ts), from) =>
      match copy_items (Z.to_nat n) p 0 from to 0 with
      | (Ok (items, xor_hash), from, to) =>
          let '(r, to) := journal_file_append_entry_internal e fuel ts xor_hash items seqnum to in (r, from, to)
      | (r, from, to) => (failed_as r, from, to)
      end
  | (r, from) => (failed_as r, from, to)
  end.

End Copy.
