(* ===== verification/JournalOpenProofs.v ===== *)
(** Opening journal files: a file that is newly created is an empty journal, and a
    journal that was closed is the same when it is opened again. *)
From S2P Require Import Prelude Lookup3 CString Uuid Vacuum Memory JournalDef JournalFile Metrics ObjectLemmas ArenaProofs.
From S2P Require Import HeaderProofs HashTableProofs DataProofs StoreProofs StoreOps JournalSeek BisectProofs ArraySearch.
From S2P Require Import JournalEntries JournalSamples StoreSpec StoreSamples EntryArrayProofs JournalInv.
From S2P Require Import JournalAppend JournalSpec JournalOpen.

(** * The header of a new file *)

(** The fields a template passes on. *)
Definition template_seqnum_id (file_id : list Z) (template : option JournalFile) : list Z :=
  match template with Some t => load_bytes (jf_mem t) off_seqnum_id 16 | None => file_id end.
Definition template_seqnum (template : option JournalFile) : Z :=
  match template with Some t => hdr off_tail_entry_seqnum t | None => 0 end.
Definition template_ok (template : option JournalFile) : Prop :=
  match template with Some t => mem_ok (jf_mem t) | None => True end.

Lemma header_image_seqnum m flags file_id template :
  length file_id = 16%nat -> template_ok template ->
  let h := header_image m flags file_id template in
  load_bytes h off_seqnum_id 16 = template_seqnum_id file_id template
  /\ load64 h off_tail_entry_seqnum = template_seqnum template.
Proof.
  intros Hid Ht. unfold header_image. destruct template as [t|]; cbn [template_seqnum_id template_seqnum].
  - split.
    + transitivity (load_bytes (store_bytes (store_bytes (store32 (store32 (store64 (store_bytes (memzero m 0 sizeof_Header)
        off_signature HEADER_SIGNATURE) off_header_size (ALIGN64 sizeof_Header)) off_incompatible_flags flags)
        off_compatible_flags 0) off_file_id file_id) off_seqnum_id (load_bytes (jf_mem t) off_seqnum_id 16))
        off_seqnum_id (length (load_bytes (jf_mem t) off_seqnum_id 16))); [|apply load_store_bytes_eq].
      rewrite load_bytes_length. apply load_bytes_ext. intros x Hx. apply byte_at_store64_ne.
      unfold off_seqnum_id, off_tail_entry_seqnum in *. lia.
    + apply load64_store64_eq. by apply load64_range.
  - split.
    + rewrite <- Hid. apply load_store_bytes_eq.
    + rewrite load64_store_ne by (rewrite Hid; unfold off_seqnum_id, off_tail_entry_seqnum; lia).
      apply load64_zero. intros x Hx. unfold off_tail_entry_seqnum in Hx.
      rewrite byte_at_store_ne by (rewrite Hid; unfold off_file_id; lia). header_bytes.
      rewrite byte_at_memzero, decide_True by (unfold sizeof_Header; lia). done.
Qed.

Lemma header_image_mem_ok m flags file_id template :
  mem_ok m -> bytes_ok file_id -> template_ok template -> mem_ok (header_image m flags file_id template).
Proof.
  intros Hm Hb Ht. unfold header_image.
  assert (mem_ok (store_bytes (store32 (store32 (store64 (store_bytes (memzero m 0 sizeof_Header) off_signature
      HEADER_SIGNATURE) off_header_size (ALIGN64 sizeof_Header)) off_incompatible_flags flags)
      off_compatible_flags 0) off_file_id file_id)) as H.
  { apply mem_ok_store; [|done]. do 2 (apply mem_ok_store; [|apply le_bytes_ok]). apply mem_ok_store64.
    apply mem_ok_store; [by apply mem_ok_memzero|]. repeat constructor; unfold is_u8; lia. }
  destruct template as [t|]; [|by apply mem_ok_store]. apply mem_ok_store64, mem_ok_store; [done|].
  by apply load_bytes_ok.
Qed.

(** * The new file, its header written and refreshed *)

(** A handle of an empty file that may be written to. *)
Record blank (f : JournalFile) : Prop := {
  bl_mem : forall a, byte_at (jf_mem f) a = 0;
  bl_size : jf_size f = 0;
  bl_writable : jf_writable f = true;
  bl_fd : 0 <= jf_fd f;
  bl_lz4 : jf_compress_lz4 f = false }.

(** What is in a header that has just been written. *)
Record new_header (f : JournalFile) (file_id : list Z) (template : option JournalFile) : Prop := {
  nh_mem : mem_ok (jf_mem f);
  nh_signature : load_bytes (jf_mem f) off_signature 8 = HEADER_SIGNATURE;
  nh_flags : load32 (jf_mem f) off_incompatible_flags = if jf_compress_xz f then HEADER_INCOMPATIBLE_COMPRESSED_XZ else 0;
  nh_compatible : load32 (jf_mem f) off_compatible_flags = 0;
  nh_size : hdr off_header_size f = 240;
  nh_file_id : load_bytes (jf_mem f) off_file_id 16 = file_id;
  nh_seqnum_id : load_bytes (jf_mem f) off_seqnum_id 16 = template_seqnum_id file_id template;
  nh_seqnum : hdr off_tail_entry_seqnum f = template_seqnum template;
  nh_zero : forall a, 96 <= a < 160 \/ 168 <= a -> byte_at (jf_mem f) a = 0 }.

Section New.
Context (e : Env).
Hypothesis (He : mmap_ok e) (Hpage : page_ok e).

Definition header_handle (f f' : JournalFile) : Prop :=
  f' = set_header (set_sizes (set_mem f (jf_mem f')) 240 240).

(** The new file's header is written, or the call fails. *)
Lemma open_header_new o template f :
  blank f -> (env_pwrite e sizeof_Header < 0 \/ env_pwrite e sizeof_Header = sizeof_Header) ->
  length (oe_file_id o) = 16%nat -> bytes_ok (oe_file_id o) -> template_ok template ->
  exists f', (open_header e o template f = (Ok true, f') /\ header_handle f f' /\ new_header f' (oe_file_id o) template
              /\ hdr_state f' = STATE_OFFLINE)
    \/ exists er, open_header e o template f = (Err er, f').
Proof.
  intros [Hz Hsz Hw Hfd Hlz] Hpw Hid Hb Ht. unfold open_header, fail_if at 1.
  destruct (negb (oe_fstat o =? 0)); [eexists; right; eexists; reflexivity|]. run.
  cbn [jf_last_size jf_writable set_sizes]. rewrite Hsz, Hw. cbn [Z.eqb andb].
  set (f1 := set_sizes f 0 0).
  destruct Hpw as [Hneg|Hpw].
  { destruct (journal_file_init_header e (oe_file_id o) template f1) as [r f2] eqn:E.
    assert (exists er, r = Err er) as [er ->].
    { unfold journal_file_init_header in E. revert E. run. cbv zeta.
      unfold fail_if at 1. rewrite (proj2 (Z.ltb_lt _ _)) by done. intros [= <- _]. eauto. }
    exists f2. right. exists er. unfold bind at 1. unfold bind at 1. by rewrite E. }
  destruct (init_header_ok e f1 (oe_file_id o) template Hpw) as (m & Hrun & Hm).
  rewrite bind_assoc. rewrite (run_bind _ _ _ _ _ Hrun). cbn [jf_size jf_last_size f1 set_sizes set_mem].
  rewrite bind_assoc. unfold fail_if at 1.
  destruct (negb (oe_fstat_new o =? 0)); [eexists; right; eexists; reflexivity|]. run.
  cbn [jf_size jf_last_size set_sizes]. change (Z.max 0 sizeof_Header) with 240.
  rewrite run_fail_if by done. unfold fail_if at 1.
  destruct (negb (oe_mmap o =? 0)); [eexists; right; eexists; reflexivity|]. run.
  eexists. left. split; [reflexivity|]. split; [by unfold header_handle|].
  set (h := header_image (jf_mem f1) (header_flags f1) (oe_file_id o) template) in *.
  assert (forall a, 0 <= a < 240 -> byte_at m a = byte_at h a) as Hmh by (intros a Ha; by rewrite Hm, decide_True).
  assert (header_flags f1 = if jf_compress_xz f then 1 else 0) as Efl.
  { unfold header_flags. cbn. rewrite Hlz. by destruct (jf_compress_xz f). }
  destruct (header_image_ok (jf_mem f1) (header_flags f1) (oe_file_id o) template Hid) as (Hsig & Hflags & Hfid & Hhs & Hzero).
  { rewrite Efl. by destruct (jf_compress_xz f). }
  destruct (header_image_seqnum (jf_mem f1) (header_flags f1) (oe_file_id o) template Hid Ht) as [Hsid Hseq].
  fold h in Hsig, Hflags, Hfid, Hhs, Hzero, Hsid, Hseq.
  assert (forall a n, 0 <= a -> a + Z.of_nat n <= 240 -> load_bytes m a n = load_bytes h a n) as Hlb.
  { intros a n H1 H2. apply load_bytes_ext. intros x Hx. apply Hmh. lia. }
  split; [split|]; cbn [jf_mem set_header set_sizes set_mem jf_compress_xz f1].
  - intros a. rewrite Hm. case_decide; [|cbn; rewrite Hz; unfold is_u8; lia].
    apply header_image_mem_ok; [|done|done]. intros x. cbn. rewrite Hz. unfold is_u8. lia.
  - rewrite Hlb by (unfold off_signature; lia). done.
  - unfold load32. rewrite Hlb by (unfold off_incompatible_flags; lia). unfold load32 in Hflags. by rewrite Hflags, Efl.
  - apply load32_zero. intros x Hx. unfold off_compatible_flags in Hx. rewrite Hmh, Hzero by lia. done.
  - transitivity (load64 h off_header_size); [|done].
    refine (f_equal le_val (Hlb _ 8%nat _ _)); unfold off_header_size; lia.
  - rewrite Hlb by (unfold off_file_id; lia). done.
  - rewrite Hlb by (unfold off_seqnum_id; lia). done.
  - transitivity (load64 h off_tail_entry_seqnum); [|done].
    refine (f_equal le_val (Hlb _ 8%nat _ _)); unfold off_tail_entry_seqnum; lia.
  - intros a Ha. rewrite Hm. case_decide; [|apply Hz]. apply Hzero. lia.
  - unfold hdr_state. cbn. rewrite Hmh, Hzero by (unfold off_state; lia). done.
Qed.

End New.

(** * The boot id *)

Lemma insert_bytes (id : list Z) n b : bytes_ok id -> is_u8 b -> bytes_ok (<[n := b]> id).
Proof. intros H1 H2. by apply Forall_insert. Qed.

Lemma uuid_parse_bytes fuel inp i n id r id' :
  bytes_ok id -> uuid_parse_loop fuel inp i n id = Some (r, id') -> bytes_ok id'.
Proof.
  revert i n id. induction fuel as [|fuel IH]; intros i n id Hid; cbn [uuid_parse_loop];
    destruct (Z.leb_spec 16 n); try (by intros [= _ <-]); try done.
  destruct (_ && _) eqn:Edash.
  - apply IH. exact Hid.
  - pose proof (hex_char_range (nth (Z.to_nat i) inp 0)). destruct (Z.ltb_spec (hex_char (nth (Z.to_nat i) inp 0)) 0); [lia|].
    apply IH. apply insert_bytes; [exact Hid|apply u8_range].
Qed.

Lemma uuid_parse_keeps inp id r id' : bytes_ok id -> uuid_parse inp id = Some (r, id') -> bytes_ok id'.
Proof. apply uuid_parse_bytes. Qed.

Lemma uuid_parse_ok inp : exists id, uuid_parse inp (replicate 16 0) = Some (0, id) /\ length id = 16%nat /\ bytes_ok id.
Proof.
  assert (length (replicate 16 0) = 16%nat) as H0 by apply length_replicate.
  assert (bytes_ok (replicate 16 0)) as Hb by (apply Forall_replicate; unfold is_u8; lia).
  revert H0 Hb. generalize (replicate 16 0). intros id0 H0 Hb.
  destruct (uuid_parse_accepts_everything inp id0 H0) as (id & E & Hl). exists id. split_and!; [exact E|exact Hl|].
  exact (uuid_parse_keeps _ _ _ _ Hb E).
Qed.

Lemma boot_get_id_result line :
  match boot_get_id line with Ok id => length id = 16%nat /\ bytes_ok id | Err er => er = 1 | _ => False end.
Proof.
  unfold boot_get_id. destruct line as [buf|]; [|done]. destruct (negb _); [done|].
  destruct (uuid_parse_ok (buf ++ [0])) as (id & E & Hid). rewrite E. exact Hid.
Qed.

(** What refreshing a header that may be written to does. *)
Lemma refresh_header_ok boot f id :
  boot_get_id boot = Ok id -> writable f ->
  exists f', journal_file_refresh_header (boot_get_id boot) f = (Ok tt, f')
    /\ f' = set_mem (set_tail_valid f (jf_tail_entry_monotonic_valid f')) (jf_mem f')
    /\ agree (fun a => a <> off_state /\ ~ (off_boot_id <= a < off_boot_id + 16)) (jf_mem f) (jf_mem f')
    /\ load_bytes (jf_mem f') off_boot_id 16 = id
    /\ (mem_ok (jf_mem f) -> mem_ok (jf_mem f')) /\ hdr_state f' = STATE_ONLINE.
Proof.
  intros Hb Hw. pose proof (boot_get_id_result boot) as Hid. rewrite Hb in Hid. destruct Hid as [Hlen Hbytes].
  unfold journal_file_refresh_header. rewrite Hb.
  set (f1 := if bool_decide (id = load_bytes (jf_mem f) off_boot_id 16) then set_tail_valid f true else f).
  assert (f1 = set_tail_valid f (jf_tail_entry_monotonic_valid f1)) as E1 by (unfold f1; case_bool_decide; by destruct f).
  assert (jf_mem f1 = jf_mem f) as Em by (by rewrite E1). rewrite Em.
  set (f2 := set_mem f1 (store_bytes (jf_mem f) off_boot_id id)).
  assert (writable f2) as Hw2.
  { destruct Hw as [? ? ? Hs]. unfold f2. rewrite E1. split; [done|done|done|].
    unfold hdr_state. cbn. rewrite byte_at_store_ne by (rewrite Hlen; unfold off_state, off_boot_id; lia). exact Hs. }
  destruct (set_online_ok f2 Hw2) as (m & Hrun & Hag & Hst & Hok). rewrite Hrun. cbn [snd].
  exists (set_mem f2 m). split; [done|]. cbn [jf_mem set_mem]. split_and!.
  - unfold f2. rewrite E1. done.
  - intros a [Ha1 Ha2]. rewrite (Hag a Ha1). cbn. apply byte_at_store_ne. rewrite Hlen. lia.
  - transitivity (load_bytes (store_bytes (jf_mem f) off_boot_id id) off_boot_id (length id)); [|apply load_store_bytes_eq].
    rewrite Hlen. apply load_bytes_ext. intros x Hx. apply Hag. unfold off_boot_id, off_state in *. lia.
  - intros Hm. apply Hok. cbn. by apply mem_ok_store.
  - done.
Qed.

(** * The hash tables of a new file *)

(** What both functions that set a table up do once its size is known. *)
Definition setup_table (e : Env) (ty s off : Z) : M unit :=
  p <- journal_file_append_object e ty (hash_table_items + s) ;;
  modify (fun f => set_mem f (memzero (jf_mem f) (p + hash_table_items) s)) ;;
  wr off (p + hash_table_items) ;;
  wr (off + 8) s.

Definition data_table_size (f : JournalFile) : Z :=
  let s := u64 (u64 (max_size (jf_metrics f) * 4) / 768 / 3 * sizeof_HashItem) in
  if s <? DEFAULT_DATA_HASH_TABLE_SIZE then DEFAULT_DATA_HASH_TABLE_SIZE else s.

Lemma setup_field_eq e : journal_file_setup_field_hash_table e
  = setup_table e OBJECT_FIELD_HASH_TABLE DEFAULT_FIELD_HASH_TABLE_SIZE off_field_hash_table_offset.
Proof. done. Qed.

Lemma setup_data_eq e f : journal_file_setup_data_hash_table e f
  = setup_table e OBJECT_DATA_HASH_TABLE (data_table_size f) off_data_hash_table_offset f.
Proof. done. Qed.

Lemma data_table_size_range f : DEFAULT_DATA_HASH_TABLE_SIZE <= data_table_size f < 2 ^ 60.
Proof.
  unfold data_table_size, sizeof_HashItem, DEFAULT_DATA_HASH_TABLE_SIZE. cbv zeta. unfold sizeof_HashItem.
  pose proof (u64_range (max_size (jf_metrics f) * 4)) as Hr. unfold is_u64 in Hr.
  set (x := u64 (max_size (jf_metrics f) * 4)) in *. rewrite u64_small by (unfold is_u64; mlia). zcases; mlia.
Qed.

Section Setup.
Context (e : Env).
Hypothesis (He : mmap_ok e) (Hpage : page_ok e).

(** An empty table is appended to the arena. *)
Record table_added (f f' : JournalFile) (objs : list (Z * Z * Z)) (p ty s off : Z) : Prop := {
  ta_handle : same_handle f f';
  ta_arena : arena f' (objs ++ [(p, ty, hash_table_items + s)]) (p + ALIGN64 (hash_table_items + s));
  ta_writable : writable f';
  ta_zero : zero_above f' (p + ALIGN64 (hash_table_items + s));
  ta_body : forall a, p + hash_table_items <= a -> byte_at (jf_mem f') a = 0;
  ta_offset : hdr off f' = p + hash_table_items;
  ta_size : hdr (off + 8) f' = s;
  ta_state : hdr_state f' = STATE_ONLINE;
  ta_frame : agree (fun a => append_frame p a /\ ~ (off <= a < off + 16)) (jf_mem f) (jf_mem f') }.

Lemma setup_table_ok f objs p ty s off :
  arena f objs p -> writable f -> zero_above f p -> ty = OBJECT_DATA_HASH_TABLE \/ ty = OBJECT_FIELD_HASH_TABLE ->
  off = off_data_hash_table_offset \/ off = off_field_hash_table_offset -> 0 <= s -> p + s < 2 ^ 61 ->
  exists f', (setup_table e ty s off f = (Ok tt, f') /\ table_added f f' objs p ty s off)
    \/ exists er, setup_table e ty s off f = (Err er, f').
Proof.
  intros Har Hw Hz Hty Hoff Hs Hsz.
  assert (minimum_header_size ty = 16 /\ 0 < ty < 7) as [Hmin Hty7] by (by destruct Hty as [-> | ->]).
  unfold setup_table. destruct (append_object_ok e He Hpage f objs p ty (hash_table_items + s) Har Hw Hty7)
    as (f1 & [[Hrun Hap]|(er & Hrun & _)]); [unfold hash_table_items in *; lia..| |].
  2:{ exists f1. right. exists er. unfold bind at 1. by rewrite Hrun. }
  rewrite (run_bind _ _ _ _ _ Hrun). run. eexists. left. split; [reflexivity|].
  pose proof (ap_pos _ _ _ _ _ _ Hap) as Hp. pose proof (ap_arena _ _ _ _ _ _ Hap) as Har1.
  set (m := store64 (store64 (memzero (jf_mem f1) (p + hash_table_items) s) off (p + hash_table_items)) (off + 8) s).
  change (set_mem _ _) with (set_mem f1 m).
  assert (agree (fun a => (a < p + hash_table_items \/ p + hash_table_items + s <= a) /\ ~ (off <= a < off + 16))
    (jf_mem f1) m) as Hag.
  { unfold m. eapply agree_trans; [|apply agree_store64; lia]. eapply agree_trans; [|apply agree_store64; lia].
    apply agree_memzero. lia. }
  assert (forall a, p + hash_table_items <= a -> byte_at m a = 0) as Hbody.
  { intros a Ha. unfold m. assert (off + 16 <= p) by (destruct Hoff as [-> | ->]; hlia).
    rewrite !byte_at_store64_ne by hlia. rewrite byte_at_memzero. case_decide; [done|].
    rewrite (ap_frame _ _ _ _ _ _ Hap); [apply Hz; hlia|]. unfold append_frame. destruct Hoff as [-> | ->]; hlia. }
  pose proof (arena_above _ _ _ Har) as [_ Hab].
  split.
  - eapply same_handle_trans; [apply Hap|]. done.
  - apply arena_set_mem; [done|unfold m; do 2 apply mem_ok_store64; apply mem_ok_memzero, Har1|].
    eapply agree_mono; [|exact Hag].
    intros a [Ha|[Ha|(b & t & r & Hb & Ha)]]; cbn beta.
    + destruct Hoff as [-> | ->]; hlia.
    + destruct Hoff as [-> | ->]; hlia.
    + destruct (arena_object _ _ _ Har1 _ _ _ Hb) as (_ & ? & _).
      apply elem_of_app in Hb as [Hb|[= -> _ _]%list_elem_of_singleton]; [destruct (Hab _ _ _ Hb)|];
        destruct Hoff as [-> | ->]; hlia.
  - destruct Hw as [Hw1 Hw2 Hw3 _]. destruct (ap_handle _ _ _ _ _ _ Hap).
    split; cbn; try congruence. left. unfold hdr_state. cbn. rewrite Hag; [apply Hap|].
    destruct Hoff as [-> | ->]; hlia.
  - intros a Ha. cbn. apply Hbody. pose proof (ALIGN64_spec (hash_table_items + s)). hlia.
  - done.
  - unfold hdr, m. cbn [jf_mem set_mem]. rewrite load64_store64_ne by lia. apply load64_store64_eq. unfold is_u64. hlia.
  - unfold hdr, m. cbn [jf_mem set_mem]. apply load64_store64_eq. unfold is_u64. lia.
  - unfold hdr_state. cbn. rewrite Hag; [apply Hap|]. destruct Hoff as [-> | ->]; hlia.
  - intros a [Ha1 Ha2]. cbn. rewrite <- (ap_frame _ _ _ _ _ _ Hap a Ha1).
    destruct (decide (p + hash_table_items <= a)) as [Hge|Hlt]; [|apply Hag; lia].
    rewrite Hbody by done. symmetry. rewrite (ap_frame _ _ _ _ _ _ Hap a Ha1). apply Hz. unfold hash_table_items in *. lia.
Qed.

End Setup.

(** * A new journal *)

(** What says which file this is, and that both tables are mapped. *)
Record identified (f : JournalFile) : Prop := {
  id_signature : load_bytes (jf_mem f) off_signature 8 = HEADER_SIGNATURE;
  id_flags : load32 (jf_mem f) off_incompatible_flags = 0
             \/ load32 (jf_mem f) off_incompatible_flags = HEADER_INCOMPATIBLE_COMPRESSED_XZ;
  id_compatible : load32 (jf_mem f) off_compatible_flags = 0;
  id_size : hdr off_header_size f = 240;
  id_data : jf_data_hash_table f = hdr off_data_hash_table_offset f;
  id_field : jf_field_hash_table f = hdr off_field_hash_table_offset f;
  id_data_size : hdr off_data_hash_table_size f mod 16 = 0;
  id_field_size : hdr off_field_hash_table_size f mod 16 = 0 }.

Lemma empty_side K `{!KindLaws K} f objs tbl n s :
  0 < n -> (tbl - hash_table_items, k_tty K, s) ∈ objs -> hash_table_items + 16 * n <= s ->
  (forall a, tbl <= a < tbl + 16 * n -> byte_at (jf_mem f) a = 0) -> side K f objs tbl n no_chains.
Proof.
  intros Hn Hin Hs Hz.
  split; [split|]; unfold no_chains.
  - done.
  - by exists s.
  - intros h Hh. simpl. apply load64_zero. intros x Hx. apply Hz. unfold head_hash_offset, sizeof_HashItem in Hx. lia.
  - intros h Hh. simpl. apply load64_zero. intros x Hx. apply Hz. unfold tail_hash_offset, sizeof_HashItem in Hx. lia.
  - by intros h a _ ?%not_elem_of_nil.
  - intros h _. constructor.
  - by intros h a _ ?%not_elem_of_nil.
Qed.

(** A file with nothing but its tables. *)
Record new_journal (e : Env) (f : JournalFile) (file_id boot_id : list Z) (template : option JournalFile) : Prop := {
  nj_journal : exists objs end_, journal e f objs end_ no_chains no_chains 0 no_arrays
                 /\ held f objs no_arrays 0 = [];
  nj_identified : identified f;
  nj_online : hdr_state f = STATE_ONLINE;
  nj_flags : load32 (jf_mem f) off_incompatible_flags = if jf_compress_xz f then HEADER_INCOMPATIBLE_COMPRESSED_XZ else 0;
  nj_file_id : load_bytes (jf_mem f) off_file_id 16 = file_id;
  nj_seqnum_id : load_bytes (jf_mem f) off_seqnum_id 16 = template_seqnum_id file_id template;
  nj_boot_id : load_bytes (jf_mem f) off_boot_id 16 = boot_id;
  nj_seqnum : hdr off_tail_entry_seqnum f = template_seqnum template;
  nj_entries : hdr off_n_entries f = 0 /\ hdr off_head_entry_seqnum f = 0 /\ hdr off_head_entry_realtime f = 0 }.

(** The header fields that are not touched once they are written. *)
Definition header_kept (a : Z) : Prop :=
  0 <= a < 240 /\ a <> off_state /\ ~ (off_boot_id <= a < off_boot_id + 16)
  /\ ~ (off_arena_size <= a < off_arena_size + 8)
  /\ ~ (off_data_hash_table_offset <= a < off_n_objects + 8).

Ltac kept := unfold header_kept, off_boot_id, off_signature, off_incompatible_flags, off_compatible_flags,
  off_file_id, off_seqnum_id in *; hlia.

Section NewJournal.
Context (e : Env).
Hypothesis (He : mmap_ok e) (Hpage : page_ok e).

(** The two tables behind the header. *)
Lemma setup_tables_ok f :
  arena f [] 240 -> writable f -> zero_above f 240 ->
  exists f' s, ((journal_file_setup_field_hash_table e ;; journal_file_setup_data_hash_table e) f = (Ok tt, f')
      /\ let objs := [(240, OBJECT_FIELD_HASH_TABLE, 5344); (5584, OBJECT_DATA_HASH_TABLE, hash_table_items + s)] in
         let end_ := 5584 + ALIGN64 (hash_table_items + s) in
         same_handle f f' /\ arena f' objs end_ /\ writable f' /\ zero_above f' end_
         /\ (forall a, 256 <= a < 5584 \/ 5600 <= a -> byte_at (jf_mem f') a = 0)
         /\ hdr off_field_hash_table_offset f' = 256 /\ hdr off_field_hash_table_size f' = 5328
         /\ hdr off_data_hash_table_offset f' = 5600 /\ hdr off_data_hash_table_size f' = s
         /\ 32752 <= s < 2 ^ 60 /\ s mod 16 = 0 /\ hdr_state f' = STATE_ONLINE
         /\ agree header_kept (jf_mem f) (jf_mem f')
         /\ agree (fun a => off_boot_id <= a < off_boot_id + 16) (jf_mem f) (jf_mem f'))
    \/ exists er, (journal_file_setup_field_hash_table e ;; journal_file_setup_data_hash_table e) f = (Err er, f').
Proof.
  intros Har Hw Hz. rewrite setup_field_eq.
  destruct (setup_table_ok e He Hpage f [] 240 OBJECT_FIELD_HASH_TABLE DEFAULT_FIELD_HASH_TABLE_SIZE
    off_field_hash_table_offset Har Hw Hz ltac:(by right) ltac:(by right) ltac:(vm_compute; done) ltac:(vm_compute; done))
    as (f1 & [[Hrun1 Ht1]|(er & Hrun1)]).
  2:{ exists f1, 0. right. exists er. unfold bind. by rewrite Hrun1. }
  rewrite (run_bind _ _ _ _ _ Hrun1), setup_data_eq. pose proof (data_table_size_range f1) as Hs.
  set (s := data_table_size f1) in *. change DEFAULT_DATA_HASH_TABLE_SIZE with 32752 in Hs.
  destruct Ht1 as [H1h H1a H1w H1z H1b H1o H1s H1st H1f].
  change (240 + ALIGN64 (hash_table_items + DEFAULT_FIELD_HASH_TABLE_SIZE)) with 5584 in H1a, H1z.
  destruct (setup_table_ok e He Hpage f1 _ 5584 OBJECT_DATA_HASH_TABLE s off_data_hash_table_offset H1a H1w H1z
    ltac:(by left) ltac:(by left) ltac:(lia) ltac:(lia)) as (f2 & [[Hrun2 Ht2]|(er & Hrun2)]).
  2:{ exists f2, 0. right. by exists er. }
  destruct Ht2 as [H2h H2a H2w H2z H2b H2o H2s H2st H2f].
  exists f2, s. left. split; [exact Hrun2|]. cbv zeta.
  assert (forall a, off_field_hash_table_offset <= a < off_field_hash_table_offset + 16 \/ 240 <= a < 5584 ->
    byte_at (jf_mem f2) a = byte_at (jf_mem f1) a) as Hkeep.
  { intros a Ha. apply H2f. unfold append_frame. hlia. }
  split_and!.
  - by eapply same_handle_trans.
  - exact H2a.
  - done.
  - done.
  - intros a [Ha|Ha]; [|apply H2b; hlia]. rewrite Hkeep by lia. apply H1b. hlia.
  - transitivity (hdr off_field_hash_table_offset f1); [|exact H1o]. apply load64_ext. intros x Hx. apply Hkeep. lia.
  - transitivity (hdr (off_field_hash_table_offset + 8) f1); [|exact H1s]. apply load64_ext. intros x Hx. apply Hkeep. hlia.
  - exact H2o.
  - exact H2s.
  - lia.
  - lia.
  - unfold s, data_table_size. cbv zeta. unfold sizeof_HashItem, DEFAULT_DATA_HASH_TABLE_SIZE. unfold sizeof_HashItem.
    pose proof (u64_range (max_size (jf_metrics f1) * 4)) as Hr. unfold is_u64 in Hr.
    set (x := u64 (max_size (jf_metrics f1) * 4)) in *. rewrite (u64_small (_ * 16)) by (unfold is_u64; mlia). zcases; mlia.
  - done.
  - intros a Ha. unfold header_kept in Ha. rewrite H2f, H1f; [done|unfold append_frame; hlia..].
  - intros a Ha. cbn beta in Ha. unfold off_boot_id in Ha. rewrite H2f, H1f; [done|unfold append_frame; hlia..].
Qed.

Lemma map_tables_ok f :
  0 < hdr off_field_hash_table_size f -> 0 <= hdr off_field_hash_table_offset f ->
  hdr off_field_hash_table_offset f + hdr off_field_hash_table_size f <= jf_last_size f ->
  0 < hdr off_data_hash_table_size f -> 0 <= hdr off_data_hash_table_offset f ->
  hdr off_data_hash_table_offset f + hdr off_data_hash_table_size f <= jf_last_size f ->
  jf_last_size f < 2 ^ 63 ->
  (journal_file_map_field_hash_table e ;; journal_file_map_data_hash_table e) f
  = (Ok tt, set_tables f (hdr off_data_hash_table_offset f) (hdr off_field_hash_table_offset f)).
Proof.
  intros F1 F2 F3 D1 D2 D3 Hl. unfold journal_file_map_field_hash_table. run.
  change (load64 (jf_mem f) ?o) with (hdr o f).
  rewrite (run_bind _ _ _ _ _ (journal_file_move_to_ok e OBJECT_FIELD_HASH_TABLE _ _ f He F1 F2 F3 Hl)). run.
  unfold journal_file_map_data_hash_table. run. cbn [set_tables jf_mem]. change (load64 (jf_mem f) ?o) with (hdr o f).
  set (f1 := set_tables f (jf_data_hash_table f) (hdr off_field_hash_table_offset f)).
  rewrite (run_bind _ _ _ _ _ (journal_file_move_to_ok e OBJECT_DATA_HASH_TABLE _ _ f1 He D1 D2 D3 Hl)). done.
Qed.

(** Tables without objects, and no entries. *)
Lemma empty_journal f objs end_ s :
  objs = [(240, OBJECT_FIELD_HASH_TABLE, 5344); (5584, OBJECT_DATA_HASH_TABLE, hash_table_items + s)] ->
  arena f objs end_ -> writable f -> zero_above f end_ ->
  (forall a, 256 <= a < 5584 \/ 5600 <= a -> byte_at (jf_mem f) a = 0) ->
  hdr off_field_hash_table_size f = 5328 -> hdr off_data_hash_table_size f = s -> 32752 <= s -> s mod 16 = 0 ->
  hdr off_n_entries f = 0 -> hdr off_entry_array_offset f = 0 ->
  let f' := set_tables f 5600 256 in
  journal e f' objs end_ no_chains no_chains 0 no_arrays /\ held f' objs no_arrays 0 = [].
Proof.
  intros -> Har Hw Hz Hbody Hfs Hds Hs Hsm Hn Ha f'.
  assert (forall c, live [(240, OBJECT_FIELD_HASH_TABLE, 5344); (5584, OBJECT_DATA_HASH_TABLE, hash_table_items + s)] c -> c = 0) as Hlive.
  { intros c [?|H]; [done|]. rewrite !Exists_cons in H. destruct H as [H|[H|H]]; [discriminate H|discriminate H|by apply Exists_nil in H]. }
  split; [split|].
  - split.
    + destruct Har as [A1 A2 A3 A4 A5 A6 A7 A8]. split; try done.
      eapply objects_from_agree; [exact A3|apply agree_refl|cbn; lia].
    + destruct Hw. by split.
    + unfold data_buckets. change (hdr off_data_hash_table_size f') with (hdr off_data_hash_table_size f). rewrite Hds.
      unfold sizeof_HashItem. apply (empty_side (data_kind e) f' _ 5600 _ (hash_table_items + s)).
      * mlia.
      * do 2 constructor.
      * mlia.
      * intros a Hra. apply Hbody. lia.
    + unfold field_buckets. change (hdr off_field_hash_table_size f') with (hdr off_field_hash_table_size f). rewrite Hfs.
      apply (empty_side field_kind f' _ 256 _ 5344); [done|constructor|done|].
      intros a Hra. apply Hbody. change (256 <= a < 256 + 5328) in Hra. lia.
  - exact Hz.
  - intros c ->%Hlive. split.
    + split; [exact Ha|by intros ? ? ?%not_elem_of_nil|constructor].
    + change (count f' 0) with (hdr off_n_entries f). rewrite Hn. done.
    + change (count f' 0) with (hdr off_n_entries f). by rewrite Hn.
  - by intros c c' b _ ?%not_elem_of_nil.
  - done.
  - rewrite held_live by (by left). unfold centries. change (count f' 0) with (hdr off_n_entries f). by rewrite Hn.
Qed.

(** The tables of a new file: an empty journal, or an error. *)
Lemma open_tables_new o metrics template f id :
  new_header f (oe_file_id o) template -> writable f -> jf_size f = 240 -> jf_last_size f = 240 ->
  boot_get_id (oe_boot o) = Ok id ->
  exists r f', open_tables e o true metrics f = (r, f')
    /\ match r with
       | Ok _ => new_journal e f' (oe_file_id o) id template
                 /\ jf_compress_xz f' = jf_compress_xz f /\ jf_metrics f' = default (jf_metrics f) metrics
                 /\ jf_chain_cache f' = jf_chain_cache f /\ jf_ext_seqnum f' = jf_ext_seqnum f
       | Err _ => True
       | _ => False
       end.
Proof.
  intros [N1 N2 N3 N4 N5 N6 N7 N8 N9] Hw Hsz Hls Hboot. unfold open_tables. run.
  rewrite (w_writable _ Hw). unfold when at 1.
  set (f0 := match metrics with Some m => set_metrics f m | None => f end).
  assert (match metrics with Some m => modify (fun f => set_metrics f m) | None => ret tt end f = (Ok tt, f0)) as H0
    by (unfold f0; by destruct metrics).
  assert (f0 = set_metrics f (default (jf_metrics f) metrics)) as E0 by (unfold f0; destruct metrics; [done|by destruct f]).
  clearbody f0. rewrite bind_assoc. rewrite (run_bind _ _ _ _ _ H0).
  assert (writable f0) as Hw0 by (rewrite E0; by destruct Hw).
  destruct (refresh_header_ok (oe_boot o) f0 id Hboot Hw0) as (f1 & Hrun1 & E1 & Hag1 & Hid1 & Hm1 & Hst1).
  rewrite (run_bind _ _ _ _ _ Hrun1). unfold when at 1.
  assert (jf_mem f0 = jf_mem f) as Em0 by (by rewrite E0). rewrite Em0 in Hag1, Hm1.
  assert (jf_size f1 = 240 /\ jf_last_size f1 = 240) as [Hsz1 Hls1] by (rewrite E1, E0; done).
  assert (forall o, o + 8 <= off_state \/ off_boot_id + 16 <= o -> hdr o f1 = hdr o f) as Hh1.
  { intros x Hx. apply (agree_load64 _ _ _ _ Hag1). unfold off_state, off_boot_id in *. lia. }
  assert (forall x, 96 <= x < 160 \/ 168 <= x -> byte_at (jf_mem f1) x = 0) as Hz1.
  { intros x Hx. rewrite Hag1 by (unfold off_state, off_boot_id; lia). by apply N9. }
  assert (writable f1) as Hw1 by (rewrite E1, E0; destruct Hw; split; try done; left; rewrite <- Hst1; by rewrite E1, E0).
  assert (arena f1 [] 240) as Har1.
  { assert (hdr off_arena_size f1 = 0) as Ea by (apply load64_zero; intros x Hx; apply Hz1; unfold off_arena_size in Hx; lia).
    assert (hdr off_header_size f1 = 240) as Eh by (rewrite Hh1 by (unfold off_header_size, off_boot_id; lia); exact N5).
    split; unfold arena_end; rewrite ?Ea, ?Eh, ?Hls1, ?Hsz1; try done; try lia.
    - by apply Hm1.
    - apply load64_zero. intros x Hx. apply Hz1. unfold off_tail_object_offset in Hx. lia.
    - apply load64_zero. intros x Hx. apply Hz1. unfold off_n_objects in Hx. lia. }
  destruct (setup_tables_ok f1 Har1 Hw1) as (f2 & s & [[Hrun2 H2]|(er & Hrun2)]).
  { intros x Hx. apply Hz1. lia. }
  2:{ exists (Err er), f2. split; [|done]. unfold bind at 1. by rewrite Hrun2. }
  rewrite (run_bind _ _ _ _ _ Hrun2).
  destruct H2 as (Hsh & Har2 & Hw2 & Hz2 & Hbody & Hfo & Hfs & Hdo & Hds & Hs & Hsm & Hst2 & Hag2 & Hbid).
  set (objs := [_; _]) in *. set (end_ := 5584 + ALIGN64 (hash_table_items + s)) in *.
  assert (forall a ty r, (a, ty, r) ∈ objs -> a + r <= jf_last_size f2) as Hin.
  { intros a ty r Ha. destruct (arena_object _ _ _ Har2 _ _ _ Ha) as (Ho & _). apply Ho. }
  pose proof (Hin 240 OBJECT_FIELD_HASH_TABLE 5344 ltac:(constructor)) as Hi1.
  pose proof (Hin 5584 OBJECT_DATA_HASH_TABLE (hash_table_items + s) ltac:(do 2 constructor)) as Hi2.
  pose proof (ar_arena _ _ _ Har2) as Hsizes. pose proof (ar_size _ _ _ Har2) as Hmax.
  unfold hash_table_items in Hi2.
  rewrite map_tables_ok by (rewrite ?Hfo, ?Hfs, ?Hdo, ?Hds; lia). rewrite Hfo, Hdo.
  set (f3 := set_tables f2 5600 256). exists (Ok tt), f3. split; [done|].
  assert (jf_compress_xz f3 = jf_compress_xz f) as Exz.
  { change (jf_compress_xz f2 = jf_compress_xz f). rewrite (sh_xz _ _ Hsh), E1, E0. done. }
  split.
  2:{ destruct Hsh as [_ _ _ _ _ _ S1 S2 _ _ S3]. unfold f3. cbn. rewrite S1, S2, S3, E1, E0. done. }
  assert (forall a, header_kept a -> byte_at (jf_mem f3) a = byte_at (jf_mem f) a) as Hk.
  { intros a Ha. transitivity (byte_at (jf_mem f1) a); [exact (Hag2 a Ha)|]. apply Hag1. unfold header_kept in Ha. tauto. }
  assert (forall a n, (forall x, a <= x < a + Z.of_nat n -> header_kept x) -> load_bytes (jf_mem f3) a n = load_bytes (jf_mem f) a n) as Hlb.
  { intros a n Hx. apply load_bytes_ext. auto. }
  assert (load32 (jf_mem f3) off_incompatible_flags = load32 (jf_mem f) off_incompatible_flags) as Hf32.
  { unfold load32. rewrite Hlb; [done|]. intros x Hx. kept. }
  split.
  - exists objs, end_. apply (empty_journal f2 objs end_ s); try done; try lia;
      apply load64_zero; intros x Hx; change (byte_at (jf_mem f3) x = 0); rewrite Hk by kept; apply N9; hlia.
  - split.
    + rewrite Hlb; [done|]. intros x Hx. kept.
    + rewrite Hf32, N3. destruct (jf_compress_xz f); auto.
    + rewrite <- N4. unfold load32. rewrite Hlb; [done|]. intros x Hx. kept.
    + rewrite <- N5. refine (f_equal le_val (Hlb _ 8%nat _)). intros x Hx. kept.
    + done.
    + done.
    + change (hdr off_data_hash_table_size f2 mod 16 = 0). by rewrite Hds.
    + change (hdr off_field_hash_table_size f2 mod 16 = 0). by rewrite Hfs.
  - done.
  - by rewrite Hf32, Exz.
  - rewrite Hlb; [done|]. intros x Hx. kept.
  - rewrite Hlb; [done|]. intros x Hx. kept.
  - rewrite <- Hid1. apply load_bytes_ext. intros x Hx. apply Hbid. lia.
  - rewrite <- N8. refine (f_equal le_val (Hlb _ 8%nat _)). intros x Hx. kept.
  - split_and!; apply load64_zero; intros x Hx; rewrite Hk by kept; apply N9; hlia.
Qed.

End NewJournal.

(** * journal_file_open on a path without a file, or with an empty one *)

(** What the kernel and libc document of the calls: a descriptor is not negative,
    pwrite of a header takes all of it or fails, and a random uuid is 16 bytes. *)
Record answers_ok (e : Env) (o : OpenEnv) : Prop := {
  ao_fd : 0 <= oe_fd o;
  ao_pwrite : env_pwrite e sizeof_Header < 0 \/ env_pwrite e sizeof_Header = sizeof_Header;
  ao_uuid : length (oe_file_id o) = 16%nat /\ bytes_ok (oe_file_id o) }.

Definition no_content (fname : list Z) (flags : Z) (d : Disk) : Prop :=
  match d !! fname with
  | Some (m, size) => size = 0 /\ forall a, byte_at m a = 0
  | None => Z.land flags O_CREAT <> 0
  end.

Definition is_journal_name (fname : list Z) : bool := endswith fname dot_journal || endswith fname dot_journal_tilde.

Lemma sys_open_result o fname flags d :
  match sys_open o fname flags d with
  | (Ok file, d') => d' !! fname = Some file /\ forall p, p <> fname -> d' !! p = d !! p
  | (Err _, d') => d' = d
  | _ => False
  end.
Proof.
  unfold sys_open. destruct (negb _); [done|]. destruct (d !! fname) as [file|] eqn:E; [done|].
  destruct (_ =? 0); [done|]. split; [apply lookup_insert_eq|]. intros p Hp. by apply lookup_insert_ne.
Qed.

Lemma open_creates_ok e o fname flags mode compress metrics template ext d :
  mmap_ok e -> page_ok e -> answers_ok e o -> template_ok template ->
  Z.land flags O_ACCMODE = O_RDWR -> is_journal_name fname = true -> no_content fname flags d ->
  exists r metrics' d', journal_file_open e o fname flags mode compress metrics template ext d = (r, metrics', d')
    /\ (forall p, p <> fname -> d' !! p = d !! p)
    /\ match r with
       | Ok new => exists f id, new = mkOpenFile f fname flags mode /\ boot_get_id (oe_boot o) = Ok id
                     /\ new_journal e f (oe_file_id o) id template
                     /\ jf_compress_xz f = compress /\ jf_metrics f = default zero_metrics (open_metrics e o metrics template)
                     /\ jf_chain_cache f = [] /\ jf_ext_seqnum f = ext
       | Err _ => True
       | _ => False
       end.
Proof.
  intros He Hpage [Hfd Hpw [Hid Hb]] Ht Hfl Hname Hno. unfold journal_file_open. rewrite Hfl. simpl negb. cbv iota.
  unfold is_journal_name in Hname. rewrite <- negb_orb, Hname. simpl negb. cbv iota.
  change (O_RDWR =? O_RDONLY) with false. simpl andb. cbv iota.
  pose proof (sys_open_result o fname flags d) as Hso.
  destruct (sys_open o fname flags d) as [[file|er| |] d1] eqn:Es; try done.
  2:{ exists (Err er), metrics, d1. split; [done|]. by rewrite Hso. }
  destruct Hso as [Hd1 Hother].
  assert (file.2 = 0 /\ forall a, byte_at file.1 a = 0) as [Hf1 Hf2].
  { unfold sys_open in Es. unfold no_content in Hno. destruct (negb _); [done|]. destruct (d !! fname) as [[m size]|].
    - by injection Es as <- _.
    - destruct (Z.land flags O_CREAT =? 0); [done|]. by injection Es as <- _. }
  assert (forall f p, p <> fname -> <[fname := journal_file_close f]> d1 !! p = d !! p) as Hins.
  { intros f p Hp. rewrite lookup_insert_ne by done. by apply Hother. }
  match goal with |- context [open_header e o template ?f] => set (f0 := f) end.
  assert (blank f0) as Hblank by (by split).
  destruct (open_header_new e o template f0 Hblank Hpw Hid Hb Ht) as (f1 & [(Hrun1 & E1 & Hnew & Hst)|[er Hrun1]]); rewrite Hrun1.
  2:{ exists (Err er), metrics, (<[fname := journal_file_close f1]> d1). split; [done|]. split; [apply Hins|done]. }
  pose proof (boot_get_id_result (oe_boot o)) as Hboot.
  destruct (boot_get_id (oe_boot o)) as [id|eb| |] eqn:Eb; try done.
  - destruct (open_tables_new e He Hpage o (open_metrics e o metrics template) template f1 id) as (r & f2 & Hrun2 & Hr); try done.
    { split; rewrite E1; try done. right. rewrite <- E1. exact Hst. }
    { by rewrite E1. }
    { by rewrite E1. }
    rewrite Hrun2. destruct r as [[]|er| |]; try done.
    + eexists _, _, d1. split; [reflexivity|]. split; [exact Hother|]. exists f2, id.
      split; [done|]. split; [done|]. destruct Hr as (Hj & Hx & Hm & Hc & Hs). split; [exact Hj|].
      rewrite Hx, Hm, Hc, Hs. by rewrite E1.
    + eexists _, _, _. split; [reflexivity|]. split; [apply Hins|done].
  - assert (exists f2, open_tables e o true (open_metrics e o metrics template) f1 = (Err eb, f2)) as [f2 Hrun2].
    { unfold open_tables. run. assert (jf_writable f1 = true) as -> by (by rewrite E1). unfold when at 1. rewrite bind_assoc, Eb.
      destruct (open_metrics e o metrics template); eexists; reflexivity. }
    rewrite Hrun2. eexists _, _, _. split; [reflexivity|]. split; [apply Hins|done].
Qed.
