(* ===== verification/JournalLog.v ===== *)
(** A journal file as a log: the sequence of the entries it holds, each with its
    numbers and data.  Creating, appending, closing, opening, rotating and copying are
    operations on that sequence. *)
From S2P Require Import Prelude Lookup3 CString Vacuum Memory JournalDef JournalFile Metrics ObjectLemmas ArenaProofs.
From S2P Require Import HeaderProofs HashTableProofs DataProofs StoreProofs StoreOps JournalSeek BisectProofs ArraySearch.
From S2P Require Import JournalEntries JournalSamples StoreSpec StoreSamples EntryArrayProofs JournalInv.
From S2P Require Import JournalAppend JournalSpec JournalOpen JournalOpenProofs.

(** * Logs *)

Record logged := mkLogged {
  lg_seqnum : Z;
  lg_realtime : Z;
  lg_monotonic : Z;
  lg_boot_id : list Z;
  lg_data : list (list Z) }.

(** The entry object at [p] is the logged entry, its data in any order. *)
Definition entry_shows (e : Env) (f : JournalFile) (objs : list (Z * Z * Z)) (p : Z) (x : logged) : Prop :=
  exists its datas,
    (p, OBJECT_ENTRY, entry_items + zlen its * sizeof_EntryItem) ∈ objs
    /\ load64 (jf_mem f) (p + entry_seqnum) = lg_seqnum x
    /\ load64 (jf_mem f) (p + entry_realtime) = lg_realtime x
    /\ load64 (jf_mem f) (p + entry_monotonic) = lg_monotonic x
    /\ load_bytes (jf_mem f) (p + entry_boot_id) 16 = lg_boot_id x
    /\ load_bytes (jf_mem f) (p + entry_items) (16 * length its) = flat_map item_bytes its
    /\ Forall2 (item_for e f objs) datas its /\ lg_data x ≡ₚ datas.

Record log_at (e : Env) (f : JournalFile) (objs : list (Z * Z * Z)) (end_ : Z) (dch fch : Z -> list Z) (N : Z)
    (A : Z -> list (Z * Z)) (l : list logged) : Prop := {
  la_journal : journal e f objs end_ dch fch N A;
  la_ordered : ordered f objs A;
  la_identified : identified f;
  la_entries : Forall2 (entry_shows e f objs) (held f objs A 0) l }.

(** The file of the handle [f], open for writing, is the log [l]; no object is listed
    more than [N] times. *)
Definition logs (e : Env) (f : JournalFile) (N : Z) (l : list logged) : Prop :=
  exists objs end_ dch fch A, log_at e f objs end_ dch fch N A l.

(** A file without a handle, and a handle that only reads. *)
Definition file_view (file : mem * Z) : JournalFile := set_sizes (set_fd (new_handle false false 0) 0 file) file.2 file.2.
Definition file_logs (e : Env) (file : mem * Z) (N : Z) (l : list logged) : Prop :=
  exists f, logs e f N l /\ shows f (file_view file).
Definition reads_log (e : Env) (g : JournalFile) (N : Z) (l : list logged) : Prop :=
  exists f, logs e f N l /\ shows f g.

(** * What keeps an entry *)

(** The objects of [f] are objects of [g], entries and data with the same contents. *)
Record objects_kept (e : Env) (f : JournalFile) (objs : list (Z * Z * Z)) (g : JournalFile) (objs' : list (Z * Z * Z)) : Prop := {
  ok_in : forall x, x ∈ objs -> x ∈ objs';
  ok_data : forall d s, (d, OBJECT_DATA, s) ∈ objs ->
    data_of e g d = data_of e f d /\ load64 (jf_mem g) (d + data_hash) = load64 (jf_mem f) (d + data_hash);
  ok_entry : forall p s x, (p, OBJECT_ENTRY, s) ∈ objs -> p <= x < p + s -> byte_at (jf_mem g) x = byte_at (jf_mem f) x }.

Lemma contents_objects e f objs g objs' : contents_kept e f objs g objs' -> objects_kept e f objs g objs'.
Proof. intros []. split; eauto. Qed.

Lemma objects_agree e f objs end_ g :
  arena f objs end_ -> (forall a, 240 <= a -> byte_at (jf_mem g) a = byte_at (jf_mem f) a) -> objects_kept e f objs g objs.
Proof.
  intros Har Hag. split; [done|..].
  - intros d s Hd. destruct (arena_object _ _ _ Har _ _ _ Hd) as (Ho & ? & _).
    split; [|apply load64_ext; intros x Hx; apply Hag; unfold data_hash in Hx; lia].
    eapply data_of_agree; [apply (obj_size_eq _ _ _ _ Ho)|]. intros x Hx. apply Hag. hlia.
  - intros p s x Hp Hx. destruct (arena_object _ _ _ Har _ _ _ Hp) as (_ & ? & _). apply Hag. lia.
Qed.

Lemma entry_shows_kept e f objs g objs' p x :
  objects_kept e f objs g objs' -> entry_shows e f objs p x -> entry_shows e g objs' p x.
Proof.
  intros [Hin Hd He] (its & datas & Hp & H1 & H2 & H3 & H4 & H5 & H6 & H7).
  assert (0 <= zlen its) by (unfold zlen; lia).
  assert (forall a, p + 16 <= a -> a + 8 <= p + entry_items -> load64 (jf_mem g) a = load64 (jf_mem f) a) as H64.
  { intros a Ha Hb. apply load64_ext. intros y Hy. eapply He; [exact Hp|hlia]. }
  exists its, datas. split; [by apply Hin|]. rewrite !H64 by hlia. do 3 (split; [done|]). split; [|split].
  - rewrite <- H4. apply load_bytes_ext. intros y Hy. eapply He; [exact Hp|hlia].
  - rewrite <- H5. apply load_bytes_ext. intros y Hy. eapply He; [exact Hp|]. unfold zlen in *. hlia.
  - split; [|done]. eapply Forall2_impl; [exact H6|]. intros data it ((s & Hs) & Hdata & Hh & Hst).
    destruct (Hd _ _ Hs) as [E1 E2]. split; [by exists s; apply Hin|]. by rewrite E1, E2.
Qed.

(** * Handles of the same file *)

(** Outside the state and the boot id nothing differs. *)
Definition but_state (a : Z) : Prop := a <> off_state /\ ~ (off_boot_id <= a < off_boot_id + 16).

Record same_file (f g : JournalFile) : Prop := {
  sf_mem : agree but_state (jf_mem f) (jf_mem g);
  sf_ok : mem_ok (jf_mem g);
  sf_data : jf_data_hash_table g = jf_data_hash_table f;
  sf_field : jf_field_hash_table g = jf_field_hash_table f;
  sf_size : jf_last_size f <= jf_last_size g <= jf_size g;
  sf_max : jf_size g < 2 ^ 63 }.

Section Moved.
Context (e : Env) (f g : JournalFile) (objs : list (Z * Z * Z)) (end_ : Z) (dch fch : Z -> list Z) (N : Z)
  (A : Z -> list (Z * Z)).
Hypothesis (Hs : same_file f g) (Hw : writable g).

Lemma same_above a : 72 <= a -> byte_at (jf_mem g) a = byte_at (jf_mem f) a.
Proof. intros Ha. apply (sf_mem _ _ Hs). unfold but_state, off_state, off_boot_id. lia. Qed.

Lemma same_hdr o : 72 <= o -> hdr o g = hdr o f.
Proof. intros Ho. apply load64_ext. intros x Hx. apply same_above. lia. Qed.

Lemma arena_moved : arena f objs end_ -> arena g objs end_.
Proof.
  intros [A1 A2 A3 A4 A5 A6 A7 A8]. pose proof (sf_size _ _ Hs). pose proof (sf_max _ _ Hs).
  assert (arena_end g = arena_end f) as Ee by (unfold arena_end; rewrite !same_hdr by hlia; done).
  split; rewrite ?Ee, ?same_hdr by hlia; try done; try lia.
  - apply Hs.
  - eapply objects_from_agree; [exact A3| |lia]. intros a Ha. cbn beta in Ha. apply same_above. lia.
Qed.

Lemma side_moved K `{!KindLaws K} tbl n chains : arena f objs end_ -> side K f objs tbl n chains -> side K g objs tbl n chains.
Proof.
  intros Har Hd. eapply (side_agree K f g objs objs); [exact Har|done|exact Hd|done|..].
  - intros a Ha. apply same_above. pose proof (table_range f objs end_ _ _ _ _ _ Har (sd_table _ _ _ _ _ _ Hd)).
    unfold hash_table_items in *. lia.
  - intros b s a Hb Ha. destruct (arena_object _ _ _ Har _ _ _ Hb). pose proof (kl_payload (K := K)). apply same_above. lia.
Qed.

Lemma region_above c x : journal e f objs end_ dch fch N A -> live objs c -> region (A c) c x -> 72 <= x.
Proof.
  intros Hj Hl. pose proof (st_arena _ _ _ _ _ _ (j_store _ _ _ _ _ _ _ _ Hj)) as Har.
  destruct (j_ok _ _ _ _ _ _ _ _ Hj c Hl) as [Hc _ _].
  intros [[_ ?]|[[Hc0 ?]|(b & k & Hb & ?)]].
  - hlia.
  - destruct (live_data _ _ Hc0 Hl) as [s Hd]. destruct (arena_object _ _ _ Har _ _ _ Hd). hlia.
  - destruct (arena_object _ _ _ Har _ _ _ (ec_objs _ _ _ _ Hc b k Hb)). hlia.
Qed.

Lemma journal_moved :
  journal e f objs end_ dch fch N A ->
  journal e g objs end_ dch fch N A /\ forall c, held g objs A c = held f objs A c.
Proof.
  intros Hj. pose proof Hj as [[Har _ Hd Hf] Hz Hok Hap Hdead]. pose proof (arena_moved Har) as Har'.
  assert (forall c, live objs c -> forall x, region (A c) c x -> byte_at (jf_mem g) x = byte_at (jf_mem f) x) as Hreg.
  { intros c Hl x Hx. apply same_above. by eapply region_above. }
  split; [split|].
  - split; [done|done|..].
    + unfold data_buckets. rewrite (sf_data _ _ Hs), same_hdr by hlia. by apply (side_moved (data_kind e)).
    + unfold field_buckets. rewrite (sf_field _ _ Hs), same_hdr by hlia. by apply (side_moved field_kind).
  - intros a Ha. pose proof (ar_header _ _ _ Har). pose proof (objects_from_le _ _ _ _ (ar_objects _ _ _ Har)).
    rewrite same_above by lia. by apply Hz.
  - intros c Hl. eapply (chain_ok_keep f g objs objs end_ Har'); [done|by apply Hok|by apply Hreg].
  - done.
  - done.
  - intros c. unfold held. destruct (decide (live objs c)) as [Hl|]; [|done].
    eapply (centries_keep f g). by apply Hreg.
Qed.

Lemma seqnum_moved p s : arena f objs end_ -> (p, OBJECT_ENTRY, s) ∈ objs -> seqnum_of g p = seqnum_of f p.
Proof.
  intros Har Hp. destruct (arena_object _ _ _ Har _ _ _ Hp) as (_ & ? & _). apply load64_ext. intros x Hx.
  apply same_above. hlia.
Qed.

Lemma identified_moved : identified f -> identified g.
Proof.
  intros [I1 I2 I3 I4 I5 I6 I7 I8].
  assert (forall a n, a + Z.of_nat n <= 16 -> load_bytes (jf_mem g) a n = load_bytes (jf_mem f) a n) as Hlb.
  { intros a n Ha. apply load_bytes_ext. intros x Hx. apply (sf_mem _ _ Hs). unfold but_state, off_state, off_boot_id. lia. }
  split; rewrite ?(sf_data _ _ Hs), ?(sf_field _ _ Hs), ?same_hdr by hlia; try done.
  - by rewrite Hlb by (unfold off_signature; lia).
  - unfold load32. by rewrite Hlb by (unfold off_incompatible_flags; lia).
  - unfold load32. by rewrite Hlb by (unfold off_compatible_flags; lia).
Qed.

End Moved.

Lemma ordered_moved e f g objs end_ dch fch N A :
  same_file f g -> writable g -> journal e f objs end_ dch fch N A -> ordered f objs A -> ordered g objs A.
Proof.
  intros Hs Hw Hj [O1 O2 O3 O4]. destruct (journal_moved e f g objs end_ dch fch N A Hs Hw Hj) as [_ Hh].
  pose proof (st_arena _ _ _ _ _ _ (j_store _ _ _ _ _ _ _ _ Hj)) as Har.
  assert (forall p, p ∈ held f objs A 0 -> seqnum_of g p = seqnum_of f p) as Eq.
  { intros p Hp. destruct (O1 p Hp) as [s Hs']. by eapply seqnum_moved. }
  split; rewrite Hh; [done|done| |].
  - clear O2 O4. induction O3 as [|p l Hl IH Hp]; [constructor|]. constructor.
    + apply IH; [|intros q Hq; apply Eq; by constructor]. intros q Hq. apply O1. by constructor.
    + apply Forall_forall. intros q Hq. rewrite !Eq by (by constructor). by apply (proj1 (Forall_forall _ _) Hp).
  - intros p Hp. rewrite Eq, (same_hdr f g Hs) by (done || hlia). by apply O4.
Qed.

Lemma logs_moved e f g N l : same_file f g -> writable g -> logs e f N l -> logs e g N l.
Proof.
  intros Hs Hw (objs & end_ & dch & fch & A & [L1 L2 L3 L4]). exists objs, end_, dch, fch, A.
  destruct (journal_moved e f g objs end_ dch fch N A Hs Hw L1) as [Hj Hh].
  split; [done|by eapply ordered_moved|by eapply identified_moved|]. rewrite Hh.
  eapply Forall2_impl; [exact L4|]. intros p x. apply entry_shows_kept. eapply objects_agree.
  - apply (st_arena _ _ _ _ _ _ (j_store _ _ _ _ _ _ _ _ L1)).
  - intros a Ha. apply (same_above _ _ Hs). lia.
Qed.

Lemma logs_arena e f N l : logs e f N l -> exists objs end_, arena f objs end_ /\ writable f.
Proof. intros (objs & end_ & dch & fch & A & [[[Har Hw _ _] _ _ _ _] _ _ _]). eauto. Qed.

Lemma logs_weaken e f N N' l : logs e f N l -> N <= N' -> logs e f N' l.
Proof.
  intros (objs & end_ & dch & fch & A & []) Hle. exists objs, end_, dch, fch, A. split; try done. by eapply journal_weaken.
Qed.

(** A reader of a handle's file sees its log. *)
Lemma logs_reads e f N l : logs e f N l -> reads_log e f N l.
Proof. intros H. exists f. split; [done|]. destruct H as (objs & end_ & dch & fch & A & []). by eapply shows_self. Qed.

(** * Appending *)

(** What an appended entry is logged as. *)
Definition log_entry (f' : JournalFile) (ts : Z * Z) (boot_id : list Z) (iovec : list (list Z)) : logged :=
  mkLogged (hdr off_tail_entry_seqnum f') ts.1 ts.2 boot_id iovec.

Lemma new_entry_shows order e f f' objs' p ts xor its seqnum iovec iovec' :
  new_entry f f' objs' p ts xor its seqnum -> items_in order e f' objs' iovec its xor -> iovec' ≡ₚ iovec ->
  entry_shows e f' objs' p (log_entry f' ts (load_bytes (jf_mem f') off_boot_id 16) iovec').
Proof.
  intros (s & Hin & [H1 H2 H3 H4 H5 H6] & Hlt & Htail & _) (its0 & _ & Hperm & Hits & _) Hio.
  apply Forall2_flip in Hits. destruct (Permutation_Forall2 (symmetry Hperm) Hits) as (datas & Hdperm & Hd).
  apply Forall2_flip in Hd. exists its, datas. unfold log_entry. simpl. rewrite Htail, Hio. split_and!; done.
Qed.

(** The room and fuel for an entry, by the size of the file. *)
Definition log_room (fuel : nat) (f : JournalFile) (N : Z) (iovec : list (list Z)) : Prop :=
  entry_fits fuel (jf_last_size f + 8) N iovec.

Lemma log_room_fits fuel f N iovec objs end_ : arena f objs end_ -> log_room fuel f N iovec -> entry_fits fuel end_ N iovec.
Proof.
  intros Har. unfold log_room, entry_fits. pose proof (ar_end _ _ _ Har). pose proof (ar_arena _ _ _ Har). lia.
Qed.

Lemma header_bytes_kept e f objs f' objs' a n :
  contents_kept e f objs f' objs' -> (forall x, a <= x < a + Z.of_nat n -> ident x) ->
  load_bytes (jf_mem f') a n = load_bytes (jf_mem f) a n.
Proof. intros Hck Hx. apply load_bytes_ext. intros x Hr. apply (ck_header _ _ _ _ _ Hck). left. auto. Qed.

Lemma identified_kept e f objs f' objs' : contents_kept e f objs f' objs' -> identified f -> identified f'.
Proof.
  intros Hck [I1 I2 I3 I4 I5 I6 I7 I8].
  assert (forall o, ident o -> ident (o + 7) -> off_state < o \/ o + 8 <= off_state -> hdr o f' = hdr o f) as Hi.
  { intros o [? ?] [? ?] Ho. refine (f_equal le_val (header_bytes_kept _ _ _ _ _ _ 8 Hck _)). intros x Hx. unfold ident in *. lia. }
  assert (forall o, off_data_hash_table_offset <= o -> o + 8 <= off_tail_object_offset -> hdr o f' = hdr o f) as Ht.
  { intros o H1 H2. apply load64_ext. intros x Hx. apply (ck_header _ _ _ _ _ Hck). right. lia. }
  destruct (ck_tables _ _ _ _ _ Hck) as [T1 T2].
  split; rewrite ?T1, ?T2, ?Ht by hlia; try done.
  - rewrite (header_bytes_kept _ _ _ _ _ _ _ Hck); [done|]. intros x Hx. unfold ident, off_signature in *. hlia.
  - unfold load32. rewrite (header_bytes_kept _ _ _ _ _ _ _ Hck); [done|]. intros x Hx. unfold ident, off_incompatible_flags in *. hlia.
  - unfold load32. rewrite (header_bytes_kept _ _ _ _ _ _ _ Hck); [done|]. intros x Hx. unfold ident, off_compatible_flags in *. hlia.
  - rewrite Hi; [done|unfold ident; hlia..].
Qed.

Definition header_id (f : JournalFile) : list Z := load_bytes (jf_mem f) off_boot_id 16.

(** Once an entry is written, by either of the two ways. *)
Lemma gained_logs order e f objs end_ dch fch N A l ts iovec iovec' seqnum r f' objs' end' dch' fch' N' A' gain :
  log_at e f objs end_ dch fch N A l -> journal e f' objs' end' dch' fch' N' A' -> contents_kept e f objs f' objs' ->
  entry_gained order e f objs end_ A ts iovec seqnum r f' objs' A' gain -> iovec' ≡ₚ iovec ->
  header_id f' = header_id f
  /\ let l' := l ++ [log_entry f' ts (header_id f) iovec'] in
     match r with
     | Ok _ => logs e f' N' l'
     | Err _ => logs e f' N' l \/ logs e f' N' l'
     | _ => False
     end.
Proof.
  intros [L1 L2 L3 L4] Hj' Hck (Hheld & Hgain & Hr) Hio.
  pose proof (st_arena _ _ _ _ _ _ (j_store _ _ _ _ _ _ _ _ L1)) as Har.
  assert (header_id f' = header_id f) as Hid.
  { apply (header_bytes_kept _ _ _ _ _ _ _ Hck). intros x Hx. unfold ident, off_boot_id in *. hlia. }
  split; [exact Hid|]. cbv zeta.
  pose proof (Hheld 0 (live_file _)) as Hh. pose proof (identified_kept _ _ _ _ _ Hck L3) as Hi'.
  assert (Forall2 (entry_shows e f' objs') (held f objs A 0) l) as Hold.
  { eapply Forall2_impl; [exact L4|]. intros p x. by apply entry_shows_kept, contents_objects. }
  assert (gain 0 = [] -> hdr off_tail_entry_seqnum f <= hdr off_tail_entry_seqnum f' -> logs e f' N' l) as Hsame.
  { intros Hg Hle. rewrite Hg, app_nil_r in Hh. exists objs', end', dch', fch', A'.
    split; [done|by eapply ordered_same|done|by rewrite Hh]. }
  assert (forall q its xor, end_ <= q -> gain 0 = [q] -> new_entry f f' objs' q ts xor its seqnum ->
    items_in order e f' objs' iovec its xor ->
    logs e f' N' (l ++ [log_entry f' ts (header_id f) iovec'])) as Hnew.
  { intros q its xor Hq Hg Hn Hi. rewrite Hg in Hh. exists objs', end', dch', fch', A'.
    split; [done|by eapply ordered_snoc|done|]. rewrite Hh. apply Forall2_app; [done|]. constructor; [|constructor].
    rewrite <- Hid. by eapply new_entry_shows. }
  destruct r as [p|er| |]; try done.
  - destruct Hr as (its & xor & Hn & Hits & Hgi). destruct Hgain as [[Hg _]|(q & its' & xor' & Hq & Hg & Hn' & Hit)].
    + exfalso. rewrite Hgi in Hg. unfold gain_one in Hg. by rewrite decide_True in Hg.
    + by eapply Hnew.
  - destruct Hgain as [[Hg Hle]|(q & its' & xor' & Hq & Hg & Hn' & Hit)]; [left; by apply Hsame|right; by eapply Hnew].
Qed.

Lemma append_logs e fuel f N l ts iovec seqnum :
  mmap_ok e -> page_ok e -> compress_law e -> logs e f N l ->
  Forall (fun data => payload_fits e f data /\ bytes_ok data) iovec ->
  let ts' := default (env_now e) ts in
  is_u64 ts'.1 -> is_u64 ts'.2 ->
  hdr off_tail_entry_seqnum f < u64_max -> 0 <= jf_ext_seqnum f < u64_max -> log_room fuel f N iovec ->
  exists r f', journal_file_append_entry e fuel ts iovec seqnum f = (r, f')
    /\ header_id f' = header_id f
    /\ let l' := l ++ [log_entry f' ts' (header_id f) iovec] in
       match r with
       | Ok _ => logs e f' (N + 1 + zlen iovec) l'
       | Err _ => logs e f' (N + 1 + zlen iovec) l \/ logs e f' (N + 1 + zlen iovec) l'
       | _ => False
       end.
Proof.
  intros He Hpage Hlaw (objs & end_ & dch & fch & A & HL) Hfit ts' Ht1 Ht2 Hseq Hext Hroom.
  pose proof (st_arena _ _ _ _ _ _ (j_store _ _ _ _ _ _ _ _ (la_journal _ _ _ _ _ _ _ _ _ HL))) as Har.
  destruct (append_entry_ok e fuel f objs end_ dch fch N A ts iovec seqnum He Hpage Hlaw (la_journal _ _ _ _ _ _ _ _ _ HL)
    Hfit Ht1 Ht2 Hseq Hext (log_room_fits _ _ _ _ _ _ Har Hroom))
    as (r & f' & objs' & end' & dch' & fch' & A' & gain & Hrun & Hj' & Hck & Hgained).
  exists r, f'. split; [exact Hrun|]. by eapply gained_logs.
Qed.

(** A log's sequence numbers grow, and the header knows the last one. *)
Lemma logs_sorted e f N l : logs e f N l ->
  StronglySorted (fun x y => lg_seqnum x < lg_seqnum y) l /\ Forall (fun x => lg_seqnum x <= hdr off_tail_entry_seqnum f) l.
Proof.
  intros (objs & end_ & dch & fch & A & [L1 [_ _ O3 O4] L3 L4]). revert O3 O4. clear L1 L3.
  induction L4 as [|p x ps l Hp L4 IH]; intros O3 O4; [split; constructor|].
  assert (forall q y, entry_shows e f objs q y -> seqnum_of f q = lg_seqnum y) as Eq.
  { intros q y (its & datas & _ & E & _). exact E. }
  apply StronglySorted_inv in O3 as [O3 Op]. destruct IH as [I1 I2]; [done|intros q Hq; apply O4; by constructor|].
  split; constructor; try done.
  - apply Forall_forall. intros y Hy. apply list_elem_of_lookup_1 in Hy as [i Hi].
    destruct (Forall2_lookup_r _ _ _ _ _ L4 Hi) as (q & Hq & Hs).
    rewrite <- (Eq p x Hp), <- (Eq q y Hs). apply (proj1 (Forall_forall _ _) Op). by eapply list_elem_of_lookup_2.
  - rewrite <- (Eq p x Hp). apply O4. constructor.
Qed.

(** * Creating and closing *)

Lemma new_logs e f file_id boot_id template : new_journal e f file_id boot_id template -> logs e f 0 [].
Proof.
  intros [(objs & end_ & Hj & Hh) Hid _ _ _ _ _ _ _]. exists objs, end_, no_chains, no_chains, no_arrays.
  split; [done| |done|rewrite Hh; constructor].
  split; rewrite Hh; [by intros p ?%not_elem_of_nil|constructor|constructor|by intros p ?%not_elem_of_nil].
Qed.

Lemma close_writable f : writable f ->
  exists m, journal_file_close f = (m, jf_size f) /\ agree (fun a => a <> off_state) (jf_mem f) m
    /\ byte_at m off_state = STATE_OFFLINE /\ (mem_ok (jf_mem f) -> mem_ok m).
Proof.
  intros [Hw Hfd Hh Hst]. unfold journal_file_close, journal_file_set_offline. run. rewrite Hw. run.
  rewrite run_fail_if by (rewrite Hh; zdecide). destruct Hst as [Hst|Hst]; rewrite Hst; simpl.
  - exists (store8 (jf_mem f) off_state STATE_OFFLINE). split; [done|]. split; [apply agree_store8; auto|].
    split; [by rewrite byte_at_store8_eq|apply mem_ok_store8].
  - exists (jf_mem f). split_and!; try done.
Qed.

Lemma close_reader f : jf_writable f = false -> journal_file_close f = (jf_mem f, jf_size f).
Proof. intros Hw. unfold journal_file_close, journal_file_set_offline. run. by rewrite Hw. Qed.

Lemma close_stores e f N l : logs e f N l ->
  file_logs e (journal_file_close f) N l /\ hdr_state (file_view (journal_file_close f)) = STATE_OFFLINE.
Proof.
  intros Hl. destruct (logs_arena _ _ _ _ Hl) as (objs & end_ & [Hm _ _ _ _ Ha Hs _] & Hw).
  destruct (close_writable f Hw) as (m & -> & Hag & Hst & Hok). split; [|done].
  exists f. split; [done|]. split; [done|by apply Hok|]. cbn. lia.
Qed.

(** * Opening a file that exists *)

Section Existing.
Context (e : Env).
Hypothesis (He : mmap_ok e).

(** What the header and the tables of a file_logs log are like. *)
Lemma file_logs_header file N l : file_logs e file N l -> header_good (file_view file).
Proof.
  intros (f & (objs & end_ & dch & fch & A & [L1 _ [I1 I2 I3 I4 I5 I6 I7 I8] _]) & Hsh).
  pose proof (j_store _ _ _ _ _ _ _ _ L1) as [Har _ Hd Hf]. pose proof Har as [A1 A2 A3 A4 A5 A6 A7 A8].
  set (g := file_view file) in *.
  assert (forall o, 17 <= o -> hdr o g = hdr o f) as Hh by (intros; apply (shows_load64 _ _ _ Hsh); lia).
  assert (forall a n, a + Z.of_nat n <= 16 -> load_bytes (jf_mem g) a n = load_bytes (jf_mem f) a n) as Hlb.
  { intros a n Ha. apply load_bytes_ext. intros x Hx. apply (sw_mem _ _ Hsh). unfold off_state. lia. }
  unfold arena_end in A6, A8. rewrite I4 in A6, A8.
  pose proof (load64_range (jf_mem f) off_arena_size A1) as Hr. fold (hdr off_arena_size f) in Hr. unfold is_u64 in Hr.
  assert (forall K `{!KindLaws K} tbl n chains, side K f objs tbl n chains -> VALID64 tbl = true) as Htbl.
  { intros K HK tbl n chains Hs. destruct (ht_obj _ _ _ _ _ _ _ (sd_table _ _ _ _ _ _ Hs)) as (s & Hin & _).
    destruct (arena_object _ _ _ Har _ _ _ Hin) as (Ho & _). pose proof (obj_valid _ _ _ _ Ho) as Hv.
    apply VALID64_mod in Hv. apply VALID64_mod. unfold hash_table_items in Hv. mlia. }
  pose proof (objects_from_last _ _ _ _ A3) as Hlast. pose proof (sw_last _ _ Hsh) as Hsz.
  split.
  - rewrite Hlb by (unfold off_signature; lia). done.
  - unfold load32. rewrite Hlb by (unfold off_incompatible_flags; lia). done.
  - unfold load32. rewrite Hlb by (unfold off_compatible_flags; lia). done.
  - rewrite Hh by hlia. done.
  - rewrite Hh by hlia. lia.
  - rewrite Hh by hlia. lia.
  - rewrite !Hh, A4 by hlia. unfold tail_offset. destruct (last objs) as [[[a ty] s]|]; [|lia].
    destruct Hlast as [Ho ->]. pose proof (object_ALIGN64 _ _ _ _ Ho). lia.
  - repeat constructor; rewrite Hh by hlia.
    + rewrite <- I5. exact (Htbl (data_kind e) _ _ _ _ Hd).
    + rewrite <- I6. exact (Htbl field_kind _ _ _ _ Hf).
    + rewrite A4. unfold tail_offset. destruct (last objs) as [[[a ty] s]|]; [|done]. apply Hlast.
    + destruct (j_ok _ _ _ _ _ _ _ _ L1 0 (live_file _)) as [[Hc _ _] _ _].
      change (load64 (jf_mem f) (slot 0)) with (hdr off_entry_array_offset f) in Hc.
      destruct (A 0) as [|[b k] arrs]; simpl in Hc; [by rewrite Hc|]. destruct Hc as (-> & [Ho _] & _). apply Ho.
Qed.

(** The tables are where the header says, and inside the file. *)
Lemma logs_tables f N l g : logs e f N l -> (forall o, 72 <= o -> hdr o g = hdr o f) -> jf_last_size f <= jf_last_size g < 2 ^ 63 ->
  (journal_file_map_field_hash_table e ;; journal_file_map_data_hash_table e) g
  = (Ok tt, set_tables g (jf_data_hash_table f) (jf_field_hash_table f)).
Proof.
  intros (objs & end_ & dch & fch & A & [L1 _ [I1 I2 I3 I4 I5 I6 I7 I8] _]) Hh Hsz.
  pose proof (j_store _ _ _ _ _ _ _ _ L1) as [Har _ Hd Hf].
  assert (forall K `{!KindLaws K} tbl n size chains, side K f objs tbl n chains -> n = size / sizeof_HashItem -> size mod 16 = 0 ->
    0 <= tbl /\ 0 < size /\ tbl + size <= jf_last_size f) as Htbl.
  { intros K HK tbl n size chains Hs -> Hm. pose proof (ht_n _ _ _ _ _ _ _ (sd_table _ _ _ _ _ _ Hs)) as Hn.
    destruct (ht_obj _ _ _ _ _ _ _ (sd_table _ _ _ _ _ _ Hs)) as (s & Hin & Hb).
    destruct (arena_object _ _ _ Har _ _ _ Hin) as (Ho & ? & _). pose proof (obj_end _ _ _ _ Ho).
    unfold sizeof_HashItem, hash_table_items in *. pose proof (Z.div_mod size 16 ltac:(lia)). lia. }
  destruct (Htbl (data_kind e) _ _ _ _ _ Hd eq_refl I7) as (D1 & D2 & D3).
  destruct (Htbl field_kind _ _ _ _ _ Hf eq_refl I8) as (F1 & F2 & F3).
  rewrite I5, I6 in *. rewrite map_tables_ok; rewrite ?Hh by hlia; try done; lia.
Qed.

(** Closing any handle changes the state at most. *)
Lemma close_agree f : exists m, journal_file_close f = (m, jf_size f) /\ agree (fun a => a <> off_state) (jf_mem f) m
  /\ (mem_ok (jf_mem f) -> mem_ok m).
Proof.
  unfold journal_file_close, journal_file_set_offline. run. unfold fail_if.
  destruct (negb (jf_writable f)); [by exists (jf_mem f)|]. run. destruct (negb _); [by exists (jf_mem f)|]. run.
  destruct (negb _); [by exists (jf_mem f)|]. exists (store8 (jf_mem f) off_state STATE_OFFLINE). split; [done|].
  split; [apply agree_store8; auto|apply mem_ok_store8].
Qed.

(** A file that differs from a log's in the state and the boot id holds the same log. *)
Lemma file_logs_same f m size N l :
  logs e f N l -> agree but_state (jf_mem f) m -> mem_ok m -> jf_last_size f <= size < 2 ^ 63 -> file_logs e (m, size) N l.
Proof.
  intros Hl Hag Hm Hsz. destruct (logs_arena _ _ _ _ Hl) as (objs & end_ & Har & Hw).
  set (f' := set_sizes (set_mem f (store8 m off_state (hdr_state f))) size size).
  assert (0 <= hdr_state f < 256) as Hst by apply (ar_mem _ _ _ Har).
  exists f'. split.
  - apply (logs_moved e f).
    + split; cbn [f' set_sizes set_mem jf_mem jf_last_size jf_size jf_data_hash_table jf_field_hash_table];
        try done; [|by apply mem_ok_store8|lia|lia]. intros a Ha. rewrite byte_at_store8_ne by apply Ha. by apply Hag.
    + destruct Hw as [? ? ? Hs]. split; try done. change (hdr_state f') with (byte_at (store8 m off_state (hdr_state f)) off_state).
      by rewrite byte_at_store8_eq, Z.mod_small.
    + done.
  - split; cbn [f' file_view set_fd set_sizes set_mem jf_mem jf_last_size jf_size fst snd]; [|done|lia].
    intros a Ha. symmetry. by apply byte_at_store8_ne.
Qed.

Lemma file_logs_size file N l : file_logs e file N l -> 240 <= file.2 < 2 ^ 63 /\ mem_ok file.1.
Proof.
  intros (f & Hl & [_ Hok Hsz]). destruct (logs_arena _ _ _ _ Hl) as (objs & end_ & Har & _).
  cbn in Hsz, Hok. pose proof (ar_header _ _ _ Har). pose proof (ar_arena _ _ _ Har). unfold arena_end in *.
  pose proof (load64_range (jf_mem f) off_arena_size (ar_mem _ _ _ Har)) as Hr. fold (hdr off_arena_size f) in Hr. unfold is_u64 in Hr.
  split; [lia|done].
Qed.

(** Every call made while a file is opened succeeds. *)
Definition calls_succeed (o : OpenEnv) : Prop :=
  oe_open o = 0 /\ oe_fstat o = 0 /\ oe_mmap o = 0 /\ exists id, boot_get_id (oe_boot o) = Ok id.

(** The error for a file in state [st], for writing or for reading. *)
Definition refused (w : bool) (st : Z) : option Z :=
  if STATE_MAX <=? st then Some EBADMSG
  else if w && (st =? STATE_ONLINE) then Some EBUSY
  else if w && (st =? STATE_ARCHIVED) then Some ESHUTDOWN
  else None.

Lemma file_state file N l : file_logs e file N l -> 0 <= hdr_state (file_view file) < 256.
Proof. intros Hst. destruct (file_logs_size _ _ _ Hst) as [_ Hok]. apply Hok. Qed.

(** The first half of journal_file_open on a file that holds a log. *)
Lemma open_header_existing o template w compress ext file N l :
  file_logs e file N l ->
  exists r h, open_header e o template (set_fd (new_handle w compress ext) (oe_fd o) file) = (r, h)
    /\ jf_mem h = file.1 /\ jf_size h = file.2
    /\ match r with
       | Ok new => new = false /\ (w = true -> hdr_state (file_view file) = STATE_OFFLINE)
                   /\ exists xz, h = set_compress (set_header (set_sizes (set_fd (new_handle w compress ext) (oe_fd o) file) file.2 file.2)) xz false
       | Err er => calls_succeed o -> refused w (hdr_state (file_view file)) = Some er
                   /\ jf_fd h = oe_fd o /\ jf_header h = true /\ jf_writable h = w
       | _ => False
       end.
Proof.
  intros Hst. destruct (file_logs_size _ _ _ Hst) as [Hsz _]. pose proof (file_logs_header _ _ _ Hst) as Hg.
  pose proof (file_state _ _ _ Hst) as Hs8.
  set (f0 := set_fd _ _ _). unfold open_header. unfold fail_if at 1.
  destruct (Z.eqb_spec (oe_fstat o) 0) as [_|Hbad]; cycle 1.
  { eexists _, _. split; [reflexivity|]. do 2 (split; [done|]). by intros (_ & ? & _). }
  simpl negb. cbv iota. run. cbn [jf_last_size jf_size set_sizes f0 set_fd].
  rewrite (proj2 (Z.eqb_neq file.2 0)) by lia. simpl andb. cbv iota. rewrite run_ret. run.
  cbn [jf_last_size set_sizes]. rewrite run_fail_if by (apply Z.ltb_ge; change HEADER_SIZE_MIN with 208; lia).
  unfold fail_if at 1.
  destruct (Z.eqb_spec (oe_mmap o) 0) as [_|Hbad]; cycle 1.
  { eexists _, _. split; [reflexivity|]. do 2 (split; [done|]). by intros (_ & _ & ? & _). }
  simpl negb. cbv iota. run. set (f1 := set_header (set_sizes f0 file.2 file.2)). unfold when. simpl negb. cbv iota.
  assert (header_good f1) as Hg1 by (by destruct Hg).
  unfold bind. rewrite (verify_header_eq f1 Hg1). change (jf_writable f1) with w. change (hdr_state f1) with (hdr_state (file_view file)).
  unfold refused. destruct (Z.leb_spec STATE_MAX (hdr_state (file_view file))); [by eexists _, _|].
  destruct w; simpl andb; cbv iota.
  - destruct (Z.eqb_spec (hdr_state (file_view file)) STATE_ONLINE); [by eexists _, _|].
    destruct (Z.eqb_spec (hdr_state (file_view file)) STATE_ARCHIVED); [by eexists _, _|].
    assert (hdr_state (file_view file) = STATE_OFFLINE) as E by (unfold STATE_MAX, STATE_ONLINE, STATE_ARCHIVED, STATE_OFFLINE in *; lia).
    rewrite E. simpl. eexists _, _. split; [reflexivity|]. do 4 (split; [done|]). by eexists.
  - eexists _, _. split; [reflexivity|]. do 4 (split; [done|]). by eexists.
Qed.

Lemma open_tables_existing o metrics w compress ext file xz N l :
  file_logs e file N l -> 0 <= oe_fd o -> (w = true -> hdr_state (file_view file) = STATE_OFFLINE) ->
  let h := set_compress (set_header (set_sizes (set_fd (new_handle w compress ext) (oe_fd o) file) file.2 file.2)) xz false in
  exists r f', open_tables e o false metrics h = (r, f')
    /\ jf_size f' = file.2 /\ agree but_state file.1 (jf_mem f') /\ mem_ok (jf_mem f')
    /\ jf_writable f' = w /\ jf_chain_cache f' = [] /\ jf_ext_seqnum f' = ext
    /\ match r with
       | Ok _ => if w then logs e f' N l /\ boot_get_id (oe_boot o) = Ok (header_id f')
                 else jf_mem f' = file.1 /\ reads_log e f' N l
       | Err _ => ~ calls_succeed o
       | _ => False
       end.
Proof.
  intros Hst Hfd Hstate h. destruct (file_logs_size _ _ _ Hst) as [Hsz Hok]. destruct Hst as (f & Hl & Hsh).
  pose proof (sw_last _ _ Hsh) as Hls. cbn in Hls.
  assert (agree (fun a => a <> off_state) (jf_mem f) file.1) as Hag by apply Hsh.
  unfold open_tables. run. change (jf_writable h) with w. unfold when at 1. destruct w.
  2:{ change (when false ?m) with (ret tt). rewrite !run_ret.
    rewrite (logs_tables f N l h Hl); [|intros k Hk; apply (shows_load64 f (file_view file) _ Hsh); lia|cbn; lia].
    eexists _, _. split; [reflexivity|]. do 6 (split; [done|]). split; [done|].
    exists f. split; [done|]. split; [exact Hag|done|cbn; lia]. }
  set (h0 := match metrics with Some m => set_metrics h m | None => h end).
  assert (match metrics with Some m => modify (fun f => set_metrics f m) | None => ret tt end h = (Ok tt, h0)) as H0
    by (unfold h0; by destruct metrics).
  assert (h0 = set_metrics h (default (jf_metrics h) metrics)) as E0 by (unfold h0; destruct metrics; [done|by destruct h]).
  clearbody h0. rewrite bind_assoc. rewrite (run_bind _ _ _ _ _ H0).
  pose proof (boot_get_id_result (oe_boot o)) as Hboot.
  destruct (boot_get_id (oe_boot o)) as [id|eb| |] eqn:Eb; try done.
  2:{ eexists _, _. split; [reflexivity|]. rewrite E0. cbn. do 6 (split; [done|]). intros (_ & _ & _ & id & ?). congruence. }
  assert (writable h0) as Hw0 by (rewrite E0; split; try done; right; by apply Hstate).
  destruct (refresh_header_ok (oe_boot o) h0 id Eb Hw0) as (h1 & Hrun1 & E1 & Hag1 & Hid1 & Hm1 & Hst1).
  rewrite Eb in Hrun1. rewrite (run_bind _ _ _ _ _ Hrun1). change (when false ?m) with (ret tt). rewrite run_ret.
  assert (jf_mem h0 = file.1) as Em0 by (by rewrite E0). rewrite Em0 in Hag1, Hm1.
  assert (jf_last_size h1 = file.2 /\ jf_size h1 = file.2) as [El Es] by (rewrite E1, E0; done).
  assert (agree but_state (jf_mem f) (jf_mem h1)) as Hag2.
  { intros a [Ha1 Ha2]. rewrite Hag1 by done. by apply Hag. }
  rewrite (logs_tables f N l h1 Hl); [|intros k Hk; apply (agree_load64 _ _ _ _ Hag2); unfold but_state, off_state, off_boot_id; lia|lia].
  eexists _, _. split; [reflexivity|]. cbn [set_tables jf_size jf_mem jf_writable jf_chain_cache jf_ext_seqnum].
  split; [exact Es|]. split; [exact Hag1|]. split; [by apply Hm1|]. do 3 (split; [by rewrite E1, E0|]).
  split; [|by rewrite <- Hid1].
  apply (logs_moved e f); [|destruct Hw0 as [? ? ? _]; split; [by rewrite E1, E0..|by left]|exact Hl].
  split; cbn [set_tables jf_mem jf_last_size jf_size jf_data_hash_table jf_field_hash_table]; try done; [by apply Hm1|lia|lia].
Qed.

(** journal_file_open on a file that holds a log, in whatever state: the handle holds
    it or shows it; and if the call fails, the file holds it as before. *)
Lemma open_existing_ok o fname flags mode compress metrics template ext d file N l :
  d !! fname = Some file -> file_logs e file N l -> 0 <= oe_fd o -> is_journal_name fname = true ->
  Z.land flags O_ACCMODE = O_RDWR \/ Z.land flags O_ACCMODE = O_RDONLY ->
  exists r metrics' d', journal_file_open e o fname flags mode compress metrics template ext d = (r, metrics', d')
    /\ (forall p, p <> fname -> d' !! p = d !! p)
    /\ match r with
       | Ok new => exists f, new = mkOpenFile f fname flags mode /\ jf_chain_cache f = [] /\ jf_ext_seqnum f = ext /\ d' = d
                     /\ if Z.land flags O_ACCMODE =? O_RDWR
                        then hdr_state (file_view file) = STATE_OFFLINE /\ logs e f N l /\ boot_get_id (oe_boot o) = Ok (header_id f)
                        else jf_mem f = file.1 /\ jf_writable f = false /\ reads_log e f N l
       | Err er => (exists file', d' !! fname = Some file' /\ file_logs e file' N l)
                   /\ (calls_succeed o -> refused (Z.land flags O_ACCMODE =? O_RDWR) (hdr_state (file_view file)) = Some er)
       | _ => False
       end.
Proof.
  intros Hd Hst Hfd Hname Hfl. unfold journal_file_open.
  replace (negb (Z.land flags O_ACCMODE =? O_RDONLY) && negb (Z.land flags O_ACCMODE =? O_RDWR)) with false
    by (by destruct Hfl as [-> | ->]).
  unfold is_journal_name in Hname. rewrite <- negb_orb, Hname. simpl negb. cbv iota.
  set (w := negb (Z.land flags O_ACCMODE =? O_RDONLY)).
  assert ((Z.land flags O_ACCMODE =? O_RDWR) = w) as -> by (unfold w; by destruct Hfl as [-> | ->]).
  unfold sys_open. destruct (Z.eqb_spec (oe_open o) 0) as [_|Hbad]; simpl negb; cbv iota.
  2:{ eexists _, _, _. split; [reflexivity|]. split; [done|]. split; [by exists file|by intros [? _]]. }
  rewrite Hd. destruct (file_logs_size _ _ _ Hst) as [Hsz Hok].
  assert (forall h, jf_size h = file.2 -> agree but_state file.1 (jf_mem h) -> mem_ok (jf_mem h) ->
    exists file', (<[fname := journal_file_close h]> d) !! fname = Some file' /\ file_logs e file' N l) as Hclosed.
  { intros h Hs Hag Hm. eexists. split; [apply lookup_insert_eq|].
    destruct (close_agree h) as (m & -> & Hag' & Hm'). destruct Hst as (f & Hl & Hsh). rewrite Hs.
    apply (file_logs_same f); [exact Hl| |by apply Hm'|split; [apply Hsh|lia]].
    intros a Ha. rewrite Hag' by apply Ha. rewrite Hag by done. apply Hsh. apply Ha. }
  destruct (open_header_existing o template w compress ext file N l Hst) as (r & h & Hrun & Hm & Hs & Hr). rewrite Hrun.
  destruct r as [new|er| |]; try done.
  2:{ eexists _, _, _. split; [reflexivity|]. split; [intros p Hp; by apply lookup_insert_ne|].
      split; [apply Hclosed; [done|by rewrite Hm|by rewrite Hm]|apply Hr]. }
  destruct Hr as (-> & Hoff & xz & ->).
  destruct (open_tables_existing o (open_metrics e o metrics template) w compress ext file xz N l Hst Hfd Hoff)
    as (r & f' & Hrun' & Hs' & Hag' & Hm' & Hw' & Hc' & He' & Hr).
  rewrite Hrun'. destruct r as [[]|er| |]; try done.
  - eexists _, _, _. split; [reflexivity|]. split; [done|]. exists f'. do 4 (split; [done|]).
    destruct w; [split; [by apply Hoff|exact Hr]|]. split; [apply Hr|]. split; [done|apply Hr].
  - eexists _, _, _. split; [reflexivity|]. split; [intros p Hp; by apply lookup_insert_ne|].
    split; [by apply Hclosed|]. intros Hc. by destruct Hr.
Qed.

(** Opening a file that was not closed fails, and closes the file properly. *)
Lemma open_unclosed o fname flags mode compress metrics template ext d file N l :
  d !! fname = Some file -> file_logs e file N l -> hdr_state (file_view file) = STATE_ONLINE -> calls_succeed o ->
  0 <= oe_fd o -> is_journal_name fname = true -> Z.land flags O_ACCMODE = O_RDWR ->
  journal_file_open e o fname flags mode compress metrics template ext d
  = (Err EBUSY, metrics, <[fname := (store8 file.1 off_state STATE_OFFLINE, file.2)]> d).
Proof.
  intros Hd Hst Hon Hc Hfd Hname Hfl. unfold journal_file_open. rewrite Hfl.
  change (negb (O_RDWR =? O_RDONLY) && negb (O_RDWR =? O_RDWR)) with false. cbv iota.
  unfold is_journal_name in Hname. rewrite <- negb_orb, Hname. simpl negb. cbv iota.
  unfold sys_open. rewrite (proj1 Hc), Hd. change (negb (0 =? 0)) with false. cbv iota. change (negb (O_RDWR =? O_RDONLY)) with true.
  destruct (open_header_existing o template true compress ext file N l Hst) as (r & h & -> & Hm & Hs & Hr).
  destruct r as [new|er| |]; try done.
  { destruct Hr as (_ & Hoff & _). rewrite (Hoff eq_refl) in Hon. discriminate. }
  destruct (Hr Hc) as (Her & Hf1 & Hf2 & Hf3). rewrite Hon in Her. injection Her as <-. cbn [failed_as].
  do 2 f_equal. unfold journal_file_close, journal_file_set_offline. run. rewrite Hf3. run.
  rewrite run_fail_if by (rewrite Hf1, Hf2; zdecide). unfold hdr_state. rewrite Hm.
  change (byte_at file.1 off_state = STATE_ONLINE) in Hon. rewrite Hon. change (negb (STATE_ONLINE =? STATE_ONLINE)) with false. cbv iota.
  cbn. by rewrite Hm, Hs.
Qed.

End Existing.
