(* ===== verification/JournalLogSpec.v ===== *)
(** What journal_file_open, journal_file_rotate and journal_file_open_reliably do to
    the logs under the paths of a disk: none of them loses an entry. *)
From S2P Require Import Prelude Lookup3 CString Vacuum Memory JournalDef JournalFile Metrics ObjectLemmas ArenaProofs.
From S2P Require Import HeaderProofs HashTableProofs DataProofs StoreProofs StoreOps JournalSeek BisectProofs ArraySearch.
From S2P Require Import JournalEntries JournalSamples StoreSpec StoreSamples EntryArrayProofs JournalInv.
From S2P Require Import JournalAppend JournalSpec JournalOpen JournalOpenProofs JournalLog.

(** The log a path stands for: that of its file, or the empty one where O_CREAT makes a
    new file or the file is empty. *)
Definition path_logs (e : Env) (fname : list Z) (flags : Z) (d : Disk) (N : Z) (l : list logged) : Prop :=
  (exists file, d !! fname = Some file /\ file_logs e file N l) \/ (no_content fname flags d /\ N = 0 /\ l = []).

(** Opening for writing, for all cases. *)
Lemma open_logs e o fname flags mode compress metrics template ext d N l :
  mmap_ok e -> page_ok e -> answers_ok e o -> template_ok template -> is_journal_name fname = true ->
  Z.land flags O_ACCMODE = O_RDWR -> path_logs e fname flags d N l ->
  exists r metrics' d', journal_file_open e o fname flags mode compress metrics template ext d = (r, metrics', d')
    /\ (forall p, p <> fname -> d' !! p = d !! p)
    /\ match r with
       | Ok new => exists f, new = mkOpenFile f fname flags mode /\ logs e f N l /\ jf_chain_cache f = [] /\ jf_ext_seqnum f = ext
                     /\ boot_get_id (oe_boot o) = Ok (header_id f)
                     /\ (no_content fname flags d -> new_journal e f (oe_file_id o) (header_id f) template
                           /\ jf_metrics f = default zero_metrics (open_metrics e o metrics template))
       | Err er => l = [] \/ exists file', d' !! fname = Some file' /\ file_logs e file' N l
       | _ => False
       end.
Proof.
  intros He Hpage Ho Ht Hname Hfl [(file & Hd & Hlog)|(Hno & -> & ->)].
  - destruct (open_existing_ok e He o fname flags mode compress metrics template ext d file N l Hd Hlog (ao_fd _ _ Ho) Hname
      (or_introl Hfl)) as (r & m' & d' & Hrun & Hother & Hr).
    exists r, m', d'. split; [exact Hrun|]. split; [exact Hother|]. destruct r as [new|er| |]; try done.
    + destruct Hr as (f & -> & Hc & Hx & _ & Hr). rewrite Hfl in Hr. destruct Hr as (_ & Hl & Hb). exists f.
      do 5 (split; [done|]). intros Hno. exfalso. unfold no_content in Hno. rewrite Hd in Hno. destruct file as [m size].
      destruct (file_logs_size _ _ _ _ Hlog) as [? _]. simpl in *. lia.
    + right. apply Hr.
  - destruct (open_creates_ok e o fname flags mode compress metrics template ext d He Hpage Ho Ht Hfl Hname Hno)
      as (r & m' & d' & Hrun & Hother & Hr).
    exists r, m', d'. split; [exact Hrun|]. split; [exact Hother|]. destruct r as [new|er| |]; try done; [|by left].
    destruct Hr as (f & id & -> & Hb & Hj & Hx & Hm & Hc & Hext). exists f. rewrite Hb.
    assert (header_id f = id) as -> by apply (nj_boot_id _ _ _ _ _ Hj).
    split; [done|]. split; [by eapply new_logs|]. done.
Qed.

(** C7 journal_file_open for writing gives a handle of the log that the path stands for:
    the entries of the file that is there, in whatever state it was left, or none for a
    new file, which is well formed from the start.  When it fails, the entries of the
    file are kept; when all calls to the kernel succeed, it fails only for the state:
    EBUSY for a file that was not closed, ESHUTDOWN for an archived one and EBADMSG for
    an unknown state.  Other files are not touched. *)
Theorem journal_file_open_correct e o fname flags mode compress metrics template ext d N l :
  mmap_ok e -> page_ok e -> answers_ok e o -> template_ok template -> is_journal_name fname = true ->
  Z.land flags O_ACCMODE = O_RDWR -> path_logs e fname flags d N l ->
  exists r metrics' d', journal_file_open e o fname flags mode compress metrics template ext d = (r, metrics', d')
    /\ (forall p, p <> fname -> d' !! p = d !! p)
    /\ match r with
       | Ok new => of_path new = fname /\ of_flags new = flags /\ of_mode new = mode /\ logs e (of_file new) N l
       | Err er => (l = [] \/ exists file', d' !! fname = Some file' /\ file_logs e file' N l)
           /\ forall file, d !! fname = Some file -> file_logs e file N l -> calls_succeed o ->
                refused true (hdr_state (file_view file)) = Some er
       | _ => False
       end.
Proof.
  intros He Hpage Ho Ht Hname Hfl Hlog.
  destruct (open_logs e o fname flags mode compress metrics template ext d N l He Hpage Ho Ht Hname Hfl Hlog)
    as (r & m' & d' & Hrun & Hother & Hr).
  exists r, m', d'. split; [exact Hrun|]. split; [exact Hother|]. destruct r as [new|er| |]; try done.
  - destruct Hr as (f & -> & Hl & _). done.
  - split; [exact Hr|]. intros file Hd Hfile Hc.
    destruct (open_existing_ok e He o fname flags mode compress metrics template ext d file N l Hd Hfile (ao_fd _ _ Ho) Hname
      (or_introl Hfl)) as (r & m2 & d2 & Hrun2 & _ & Hr2).
    rewrite Hrun in Hrun2. injection Hrun2 as <- <- <-. rewrite Hfl in Hr2. by apply Hr2.
Qed.

(** * Replacing a file *)

Lemma endswith_length s p : endswith s p = true -> (length p <= length s)%nat.
Proof. unfold endswith. intros [_ H]%andb_true_iff. by apply Nat.leb_le. Qed.

Lemma replaced_name_other stamp path usec suffix :
  (8 <= length path)%nat -> (8 <= length suffix)%nat -> replaced_name stamp path usec suffix <> path.
Proof.
  intros H1 H2 E. apply (f_equal length) in E. unfold replaced_name in E.
  rewrite length_app, length_take, length_cons, length_app in E. lia.
Qed.

Lemma rename_lookup old new d file : d !! old = Some file -> new <> old ->
  sys_rename old new d !! new = Some file /\ sys_rename old new d !! old = None
  /\ forall p, p <> old -> p <> new -> sys_rename old new d !! p = d !! p.
Proof.
  intros Hd Hne. unfold sys_rename. rewrite Hd. split; [apply lookup_insert_eq|]. split.
  - rewrite lookup_insert_ne by done. apply lookup_delete_eq.
  - intros p H1 H2. rewrite lookup_insert_ne, lookup_delete_ne by done. done.
Qed.

(** A name that is free, and may be created. *)
Lemma free_logs e fname flags d : d !! fname = None -> Z.land flags O_CREAT <> 0 -> path_logs e fname flags d 0 [].
Proof. intros Hd Hf. right. unfold no_content. by rewrite Hd. Qed.

(** The file that journal_file_rotate leaves behind. *)
Lemma archived_logs e f N l : logs e f N l ->
  let f' := set_mem f (store8 (jf_mem f) off_state STATE_ARCHIVED) in
  file_logs e (journal_file_close f') N l /\ hdr_state (file_view (journal_file_close f')) = STATE_ARCHIVED
  /\ mem_ok (jf_mem f').
Proof.
  intros Hl f'. destruct (logs_arena _ _ _ _ Hl) as (objs & end_ & [Hm _ _ _ _ Ha Hs _] & [Hw Hfd Hh _]).
  assert (hdr_state f' = STATE_ARCHIVED) as Hst by (unfold f'; apply byte_at_store8_eq).
  assert (journal_file_close f' = (jf_mem f', jf_size f)) as ->.
  { unfold journal_file_close, journal_file_set_offline. run. change (jf_writable f') with (jf_writable f). rewrite Hw. run.
    rewrite run_fail_if by (change (jf_header f') with (jf_header f); change (jf_fd f') with (jf_fd f); rewrite Hh; zdecide). by rewrite Hst. }
  assert (mem_ok (jf_mem f')) as Hm' by (by apply mem_ok_store8).
  split; [|by split]. apply (file_logs_same _ f); [exact Hl| |exact Hm'|lia].
  intros a [Ha1 _]. by apply byte_at_store8_ne.
Qed.

(** Nothing is opened where there is no file and none may be created. *)
Lemma open_nothing e o fname flags mode compress template ext d :
  d !! fname = None -> Z.land flags O_CREAT = 0 -> Z.land flags O_ACCMODE = O_RDWR -> is_journal_name fname = true ->
  exists er, journal_file_open e o fname flags mode compress None template ext d = (Err er, None, d).
Proof.
  intros Hd Hc Hacc Hname. unfold journal_file_open. rewrite Hacc.
  change (negb (O_RDWR =? O_RDONLY) && negb (O_RDWR =? O_RDWR)) with false. cbv iota.
  unfold is_journal_name in Hname. rewrite <- negb_orb, Hname. simpl negb. cbv iota.
  unfold sys_open. destruct (negb (oe_open o =? 0)); [by eexists|]. rewrite Hd, Hc. simpl. by eexists.
Qed.

(** A file that was opened is on the disk. *)
Lemma open_some e o fname flags mode compress metrics template ext d new metrics' d' :
  journal_file_open e o fname flags mode compress metrics template ext d = (Ok new, metrics', d') -> is_Some (d' !! fname).
Proof.
  unfold journal_file_open. destruct (_ && _); [by intros [=]|]. destruct (_ && _); [by intros [=]|].
  unfold sys_open. destruct (negb (oe_open o =? 0)); [by intros [=]|].
  assert (forall file d1, is_Some (d1 !! fname) ->
    (let f := new_handle (negb (Z.land flags O_ACCMODE =? O_RDONLY)) compress ext in
     match open_header e o template (set_fd f (oe_fd o) file) with
     | (Ok newly_created, f) =>
         let given := match metrics with
           | Some _ => if jf_writable f then open_metrics e o metrics template else metrics
           | None => None end in
         match open_tables e o newly_created (open_metrics e o metrics template) f with
         | (Ok _, f) => (Ok (mkOpenFile f fname flags mode), given, d1)
         | (r, f) => (failed_as r, given, <[fname := journal_file_close f]> d1)
         end
     | (r, f) => (failed_as r, metrics, <[fname := journal_file_close f]> d1)
     end) = (Ok new, metrics', d') -> is_Some (d' !! fname)) as H.
  { intros file d1 Hd1. cbv zeta. destruct (open_header _ _ _ _) as [[nc|er| |] f]; try (by intros [=]).
    destruct (open_tables _ _ _ _ _) as [[[]|er| |] f']; try (by intros [=]). intros [= _ _ <-]. exact Hd1. }
  destruct (d !! fname) as [file|] eqn:E; [apply (H file d); by rewrite E|].
  destruct (_ =? 0); [by intros [=]|]. apply (H (∅, 0)). by rewrite lookup_insert_eq.
Qed.

(** Rotating a file that is open for writing.  Without O_CREAT in its flags there is no
    new file. *)
Lemma rotate_logs e stamp o old compress d N l file :
  mmap_ok e -> page_ok e -> answers_ok e o -> endswith (of_path old) dot_journal = true ->
  Z.land (of_flags old) O_ACCMODE = O_RDWR ->
  d !! of_path old = Some file -> logs e (of_file old) N l ->
  let p := replaced_name stamp (of_path old) (hdr off_head_entry_realtime (of_file old)) dot_journal in
  exists r new d', journal_file_rotate e stamp o 0 old compress d = (r, new, d')
    /\ (exists archive, d' !! p = Some archive /\ file_logs e archive N l /\ hdr_state (file_view archive) = STATE_ARCHIVED)
    /\ (forall q, q <> p -> q <> of_path old -> d' !! q = d !! q)
    /\ match r with
       | Ok _ => Z.land (of_flags old) O_CREAT <> 0
           /\ exists f, new = Some (mkOpenFile f (of_path old) (of_flags old) (of_mode old)) /\ logs e f 0 []
                   /\ load_bytes (jf_mem f) off_seqnum_id 16 = load_bytes (jf_mem (of_file old)) off_seqnum_id 16
                   /\ Forall (fun x => lg_seqnum x <= hdr off_tail_entry_seqnum f) l
                   /\ jf_metrics f = jf_metrics (of_file old) /\ jf_ext_seqnum f = jf_ext_seqnum (of_file old)
                   /\ is_Some (d' !! of_path old)
       | Err _ => new = None
       | _ => False
       end.
Proof.
  intros He Hpage Ho Hend Hacc Hd Hl p. pose proof (endswith_length _ _ Hend) as Hlen. change (length dot_journal) with 8%nat in Hlen.
  assert (p <> of_path old) as Hp by (apply replaced_name_other; [exact Hlen|simpl; lia]).
  destruct (archived_logs e (of_file old) N l Hl) as (Harch & Hst & Hm).
  set (f' := set_mem (of_file old) (store8 (jf_mem (of_file old)) off_state STATE_ARCHIVED)) in *.
  destruct (logs_arena _ _ _ _ Hl) as (objs & end_ & _ & Hw).
  unfold journal_file_rotate. rewrite (w_writable _ Hw), Hend. simpl negb. cbv iota. fold p. fold f'.
  destruct (rename_lookup (of_path old) p d file Hd Hp) as (Hr1 & Hr2 & Hr3).
  set (d1 := sys_rename (of_path old) p d) in *.
  assert (is_journal_name (of_path old) = true) as Hname by (unfold is_journal_name; by rewrite Hend).
  assert (forall d2 : Disk, (forall q, q <> of_path old -> d2 !! q = d1 !! q) ->
    (exists archive, <[p := journal_file_close f']> d2 !! p = Some archive /\ file_logs e archive N l
      /\ hdr_state (file_view archive) = STATE_ARCHIVED)
    /\ forall q, q <> p -> q <> of_path old -> <[p := journal_file_close f']> d2 !! q = d !! q) as Hd2.
  { intros d2 Hother. split; [eexists; split; [apply lookup_insert_eq|done]|].
    intros q H1 H2. rewrite lookup_insert_ne by done. rewrite Hother by done. by apply Hr3. }
  destruct (Z.eq_dec (Z.land (of_flags old) O_CREAT) 0) as [Hcreat|Hcreat].
  { destruct (open_nothing e o (of_path old) (of_flags old) (of_mode old) compress (Some f') (jf_ext_seqnum f') d1 Hr2 Hcreat Hacc Hname)
      as (er & ->). destruct (Hd2 d1 ltac:(done)) as [Hpa Hq].
    eexists _, _, _. split; [reflexivity|]. split; [exact Hpa|]. by split. }
  destruct (open_logs e o (of_path old) (of_flags old) (of_mode old) compress None (Some f') (jf_ext_seqnum f') d1 0 []
    He Hpage Ho Hm Hname Hacc (free_logs e _ _ _ Hr2 Hcreat)) as (r & m & d2 & Hrun & Hother & Hr).
  assert (no_content (of_path old) (of_flags old) d1) as Hno by (unfold no_content; by rewrite Hr2).
  rewrite Hrun. destruct (Hd2 d2 Hother) as [Hpa Hq].
  destruct r as [new|er| |]; try done.
  - destruct Hr as (f & -> & Hlf & _ & Hext & _ & Hn). destruct (Hn Hno) as [Hj Hmet].
    eexists _, _, _. split; [reflexivity|]. split; [exact Hpa|]. split; [exact Hq|]. split; [exact Hcreat|]. exists f.
    split; [done|]. split; [exact Hlf|]. split; [|split; [|split; [exact Hmet|split; [exact Hext|]]]].
    + rewrite (nj_seqnum_id _ _ _ _ _ Hj). apply load_bytes_ext. intros x Hx.
      apply byte_at_store8_ne. unfold off_seqnum_id, off_state in *. lia.
    + rewrite (nj_seqnum _ _ _ _ _ Hj). cbn [template_seqnum].
      assert (hdr off_tail_entry_seqnum f' = hdr off_tail_entry_seqnum (of_file old)) as ->; [|by apply (logs_sorted e _ N)].
      apply load64_ext. intros x Hx. apply byte_at_store8_ne. hlia.
    + rewrite lookup_insert_ne by done. by eapply open_some.
  - eexists _, _, _. split; [reflexivity|]. split; [exact Hpa|]. by split.
Qed.

(** C8 journal_file_rotate keeps every entry and goes on counting: the file with the log
    is found under its new name, archived and with all its entries, and the new one
    under the old name is an empty log whose sequence numbers are those of the same
    series, so that every entry it will get has a greater number than all the old ones.
    When the new file cannot be opened, the caller is left without a handle but no
    entry is lost.  Only the two names are touched; a file that has the new name
    already is replaced. *)
Theorem journal_file_rotate_correct e stamp o old compress d N l file :
  mmap_ok e -> page_ok e -> answers_ok e o -> endswith (of_path old) dot_journal = true ->
  Z.land (of_flags old) O_ACCMODE = O_RDWR -> Z.land (of_flags old) O_CREAT <> 0 ->
  d !! of_path old = Some file -> logs e (of_file old) N l ->
  let p := replaced_name stamp (of_path old) (hdr off_head_entry_realtime (of_file old)) dot_journal in
  exists r new d', journal_file_rotate e stamp o 0 old compress d = (r, new, d')
    /\ (exists archive, d' !! p = Some archive /\ file_logs e archive N l /\ hdr_state (file_view archive) = STATE_ARCHIVED)
    /\ (forall q, q <> p -> q <> of_path old -> d' !! q = d !! q)
    /\ match r with
       | Ok _ => exists f, new = Some (mkOpenFile f (of_path old) (of_flags old) (of_mode old)) /\ logs e f 0 []
                   /\ load_bytes (jf_mem f) off_seqnum_id 16 = load_bytes (jf_mem (of_file old)) off_seqnum_id 16
                   /\ Forall (fun x => lg_seqnum x <= hdr off_tail_entry_seqnum f) l
                   /\ jf_metrics f = jf_metrics (of_file old) /\ jf_ext_seqnum f = jf_ext_seqnum (of_file old)
       | Err _ => new = None
       | _ => False
       end.
Proof.
  intros He Hpage Ho Hend Hacc Hcreat Hd Hl p.
  destruct (rotate_logs e stamp o old compress d N l file He Hpage Ho Hend Hacc Hd Hl) as (r & new & d' & Hrun & Ha & Hq & Hr).
  exists r, new, d'. split; [exact Hrun|]. split; [exact Ha|]. split; [exact Hq|]. destruct r as [[]|er| |]; try done.
  destruct Hr as (_ & f & H1 & H2 & H3 & H4 & H5 & H6 & _). exists f. by split_and!.
Qed.

(** C9 journal_file_open_reliably loses nothing either: what it returns is the log of the
    path or, when that file was refused, an empty log after the file was moved away with
    all its entries; and when it fails, the entries are under one of the two names. *)
Theorem journal_file_open_reliably_correct e stamp o o2 rename now fname flags mode compress metrics template ext d N l file :
  mmap_ok e -> page_ok e -> answers_ok e o -> answers_ok e o2 -> template_ok template ->
  endswith fname dot_journal = true -> Z.land flags O_ACCMODE = O_RDWR -> Z.land flags O_CREAT <> 0 ->
  d !! fname = Some file -> file_logs e file N l ->
  let p := replaced_name stamp fname now dot_journal_tilde in
  let kept d' := exists q file', (q = fname \/ q = p) /\ d' !! q = Some file' /\ file_logs e file' N l in
  exists r metrics' d',
    journal_file_open_reliably e stamp o o2 rename now fname flags mode compress metrics template ext d = (r, metrics', d')
    /\ (forall q, q <> p -> q <> fname -> d' !! q = d !! q)
    /\ match r with
       | Ok new => logs e (of_file new) N l
           \/ (logs e (of_file new) 0 [] /\ exists file', d' !! p = Some file' /\ file_logs e file' N l)
       | Err _ => kept d'
       | _ => False
       end.
Proof.
  intros He Hpage Ho Ho2 Ht Hend Hacc Hcreat Hd Hl p kept. pose proof (endswith_length _ _ Hend) as Hlen.
  change (length dot_journal) with 8%nat in Hlen.
  assert (p <> fname) as Hp by (apply replaced_name_other; [exact Hlen|simpl; lia]).
  assert (is_journal_name fname = true) as Hname by (unfold is_journal_name; by rewrite Hend).
  unfold journal_file_open_reliably.
  destruct (open_existing_ok e He o fname flags mode compress metrics template ext d file N l Hd Hl (ao_fd _ _ Ho) Hname
    (or_introl Hacc)) as (r & m1 & d1 & -> & Hother & Hr).
  destruct r as [new|er| |]; try done.
  { eexists _, _, _. split; [reflexivity|]. split; [intros q _ Hq; by apply Hother|]. left.
    destruct Hr as (f & -> & _ & _ & _ & Hr). rewrite Hacc in Hr. by apply Hr. }
  destruct Hr as ((file' & Hd1 & Hl1) & _).
  assert (kept d1) as Hk by (exists fname, file'; auto).
  destruct (negb (er =? EBADMSG) && _ && _ && _ && _ && _); [by eexists _, _, _; split; [reflexivity|]; split; [intros q _ Hq; by apply Hother|]|].
  rewrite Hacc. change (O_RDWR =? O_RDONLY) with false. cbv iota. rewrite (proj2 (Z.eqb_neq _ _) Hcreat), Hend. simpl negb. cbv iota.
  destruct (negb (rename =? 0)); [by eexists _, _, _; split; [reflexivity|]; split; [intros q _ Hq; by apply Hother|]|].
  fold p. destruct (rename_lookup fname p d1 file' Hd1 Hp) as (Hr1 & Hr2 & Hr3).
  destruct (open_logs e o2 fname flags mode compress m1 template ext (sys_rename fname p d1) 0 []
    He Hpage Ho2 Ht Hname Hacc (free_logs e _ _ _ Hr2 Hcreat)) as (r & m2 & d2 & -> & Hother2 & Hr).
  eexists _, _, _. split; [reflexivity|]. split.
  { intros q H1 H2. rewrite Hother2, Hr3, Hother by done. done. }
  assert (d2 !! p = Some file') as Hp2 by (by rewrite Hother2).
  destruct r as [new|er2| |]; try done.
  - right. destruct Hr as (f & -> & Hlf & _). split; [exact Hlf|by exists file'].
  - exists p, file'. auto.
Qed.

(** The archives of two files that begin in the same second get the same name. *)
Lemma replaced_name_same stamp path t t' suffix :
  t / 1000000 = t' / 1000000 -> replaced_name stamp path t suffix = replaced_name stamp path t' suffix.
Proof. unfold replaced_name, format_timestamp_short. by intros ->. Qed.

(** C35 A file that was not closed is refused once only: the call that fails with EBUSY
    closes it like a file of its own and writes STATE_OFFLINE, so that the next one takes
    it as it is, entries of an interrupted write included. *)
Theorem unclosed_file_accepted_later e o o2 fname flags mode compress metrics template ext d N l file :
  mmap_ok e -> calls_succeed o -> calls_succeed o2 -> 0 <= oe_fd o -> 0 <= oe_fd o2 -> is_journal_name fname = true ->
  Z.land flags O_ACCMODE = O_RDWR -> d !! fname = Some file -> file_logs e file N l ->
  hdr_state (file_view file) = STATE_ONLINE ->
  exists d1, journal_file_open e o fname flags mode compress metrics template ext d = (Err EBUSY, metrics, d1)
    /\ exists new metrics', journal_file_open e o2 fname flags mode compress metrics template ext d1 = (Ok new, metrics', d1)
    /\ logs e (of_file new) N l.
Proof.
  intros He Hc1 Hc2 Hf1 Hf2 Hname Hfl Hd Hl Hon. eexists. split; [by eapply open_unclosed|].
  destruct (open_existing_ok e He o fname flags mode compress metrics template ext d file N l Hd Hl Hf1 Hname (or_introl Hfl))
    as (r & m & d' & Hrun & _ & Hr).
  rewrite (open_unclosed e o fname flags mode compress metrics template ext d file N l Hd Hl Hon Hc1 Hf1 Hname Hfl) in Hrun.
  injection Hrun as <- <- Ed. destruct Hr as [(file1 & Hd1 & Hl1) _]. rewrite <- Ed, lookup_insert_eq in Hd1. injection Hd1 as <-.
  destruct (open_existing_ok e He o2 fname flags mode compress metrics template ext d' _ N l
    ltac:(rewrite <- Ed; apply lookup_insert_eq) Hl1 Hf2 Hname (or_introl Hfl)) as (r & m2 & d2 & Hrun2 & _ & Hr).
  rewrite Hfl in Hr. destruct r as [new|er| |]; try done.
  - destruct Hr as (f & -> & _ & _ & -> & _ & Hlf & _). rewrite Ed. by eexists _, _.
  - destruct Hr as [_ Hr]. specialize (Hr Hc2). change (hdr_state _) with (byte_at (store8 file.1 off_state STATE_OFFLINE) off_state) in Hr.
    rewrite byte_at_store8_eq in Hr. discriminate.
Qed.

(** * A new file, computed *)

Definition sample_open : OpenEnv :=
  mkOpenEnv 0 3 0 0 0 (replicate 16 7) (Some (replicate 36 48)) None.

Definition sample_path : list Z := txt "system.journal".

Lemma sample_answers : answers_ok sample_env sample_open.
Proof.
  split; [simpl; lia|right; reflexivity|]. split; [reflexivity|]. apply Forall_replicate. unfold is_u8. lia.
Qed.

Definition sample_flags : Z := Z.lor O_RDWR O_CREAT.

(** system.journal, created on an empty disk. *)
Definition sample_opened : outcome OpenFile * option JournalMetrics * Disk :=
  journal_file_open sample_env sample_open sample_path sample_flags 416 false None None 0 ∅.

Lemma sample_free : path_logs sample_env sample_path sample_flags ∅ 0 [].
Proof. right. split; [unfold no_content; rewrite lookup_empty; discriminate|split; reflexivity]. Qed.

Definition opened_at (p : list Z) (x : outcome OpenFile * option JournalMetrics * Disk) : bool :=
  match x with (Ok _, _, d) => bool_decide (is_Some (d !! p)) | _ => false end.

Lemma sample_opened_logs : exists old m d file,
  sample_opened = (Ok old, m, d) /\ d !! sample_path = Some file /\ of_path old = sample_path /\ of_flags old = sample_flags
  /\ logs sample_env (of_file old) 0 [].
Proof.
  destruct (open_logs sample_env sample_open sample_path sample_flags 416 false None None 0 ∅ 0 []
    sample_mmap sample_page sample_answers I eq_refl eq_refl sample_free) as (r & m & d & Hrun & _ & Hr).
  assert (opened_at sample_path (r, m, d) = true) as Ho by (rewrite <- Hrun; vm_compute; reflexivity).
  unfold opened_at in Ho. destruct r as [old| | |]; [|discriminate Ho..]. apply bool_decide_eq_true in Ho as [file Hf].
  destruct Hr as (f & -> & Hl & _).
  exists (mkOpenFile f sample_path sample_flags 416), m, d, file.
  split; [exact Hrun|]. split; [exact Hf|]. split; [reflexivity|]. split; [reflexivity|exact Hl].
Qed.

Lemma journal_file_open_witness :
  exists new metrics' d', sample_opened = (Ok new, metrics', d') /\ logs sample_env (of_file new) 0 [].
Proof.
  destruct (journal_file_open_correct sample_env sample_open sample_path sample_flags 416 false None None 0 ∅ 0 []
    sample_mmap sample_page sample_answers I eq_refl eq_refl sample_free) as (r & m & d' & Hrun & _ & Hr).
  assert (opened_at sample_path (r, m, d') = true) as Ho by (rewrite <- Hrun; vm_compute; reflexivity).
  destruct r as [new| | |]; [|discriminate Ho..].
  exists new, m, d'. split; [exact Hrun|]. apply Hr.
Defined.

Definition sample_stamp (_ : Z) : list Z := txt "20140102030405".

Lemma journal_file_rotate_witness : exists old m d r new d' archive,
  sample_opened = (Ok old, m, d)
  /\ journal_file_rotate sample_env sample_stamp sample_open 0 old false d = (r, new, d')
  /\ d' !! txt "system-20140102030405.journal" = Some archive /\ file_logs sample_env archive 0 [].
Proof.
  destruct sample_opened_logs as (old & m & d & file & Hopen & Hd & Hp & Hf & Hl).
  rewrite <- Hp in Hd.
  destruct (journal_file_rotate_correct sample_env sample_stamp sample_open old false d 0 [] file
    sample_mmap sample_page sample_answers) as (r & new & d' & Hrun & (archive & Ha & Hal & _) & _).
  - rewrite Hp. reflexivity.
  - rewrite Hf. reflexivity.
  - rewrite Hf. vm_compute. discriminate.
  - exact Hd.
  - exact Hl.
  - exists old, m, d, r, new, d', archive. split; [exact Hopen|]. split; [exact Hrun|]. split; [|exact Hal].
    rewrite Hp in Ha. exact Ha.
Defined.

(** The file of a handle that was not closed. *)
Lemma unclosed_logs e f N l : logs e f N l -> file_logs e (jf_mem f, jf_size f) N l.
Proof.
  intros Hl. destruct (logs_arena _ _ _ _ Hl) as (objs & end_ & [Hm _ _ _ _ Ha Hs _] & _).
  apply (file_logs_same _ f); [exact Hl|done|exact Hm|lia].
Qed.

Lemma journal_file_open_reliably_witness : exists old m d r m' d',
  sample_opened = (Ok old, m, d)
  /\ journal_file_open_reliably sample_env sample_stamp sample_open sample_open 0 1 sample_path sample_flags 416 false
       None None 0 (<[sample_path := (jf_mem (of_file old), jf_size (of_file old))]> d) = (r, m', d')
  /\ (forall new, r = Ok new -> logs sample_env (of_file new) 0 []).
Proof.
  destruct sample_opened_logs as (old & m & d & file & Hopen & Hd & Hp & Hf & Hl).
  destruct (journal_file_open_reliably_correct sample_env sample_stamp sample_open sample_open 0 1 sample_path sample_flags 416 false
    None None 0 (<[sample_path := (jf_mem (of_file old), jf_size (of_file old))]> d) 0 [] (jf_mem (of_file old), jf_size (of_file old))
    sample_mmap sample_page sample_answers sample_answers I eq_refl eq_refl) as (r & m' & d' & Hrun & _ & Hr).
  - vm_compute. discriminate.
  - apply lookup_insert_eq.
  - apply unclosed_logs, Hl.
  - exists old, m, d, r, m', d'. split; [exact Hopen|]. split; [exact Hrun|]. intros new ->. destruct Hr as [Hr|[Hr _]]; exact Hr.
Defined.

Definition online (x : outcome OpenFile * option JournalMetrics * Disk) : bool :=
  match x with (Ok new, _, _) => hdr_state (of_file new) =? STATE_ONLINE | _ => false end.

Lemma sample_succeed : calls_succeed sample_open.
Proof. repeat split. eexists. vm_compute. reflexivity. Qed.

Lemma unclosed_file_witness : exists old m d d1,
  sample_opened = (Ok old, m, d)
  /\ let d := <[sample_path := (jf_mem (of_file old), jf_size (of_file old))]> d in
     journal_file_open sample_env sample_open sample_path O_RDWR 416 false None None 0 d = (Err EBUSY, None, d1)
     /\ exists new m, journal_file_open sample_env sample_open sample_path O_RDWR 416 false None None 0 d1 = (Ok new, m, d1).
Proof.
  destruct sample_opened_logs as (old & m & d & file & Hopen & Hd & Hp & Hf & Hl).
  destruct (unclosed_file_accepted_later sample_env sample_open sample_open sample_path O_RDWR 416 false None None 0
    (<[sample_path := (jf_mem (of_file old), jf_size (of_file old))]> d) 0 [] (jf_mem (of_file old), jf_size (of_file old))
    sample_mmap sample_succeed sample_succeed) as (d1 & H1 & new & m' & H2 & _).
  1-2: vm_compute; discriminate. 1-2: reflexivity. 1: apply lookup_insert_eq. 1: apply unclosed_logs, Hl.
  - assert (online (sample_opened) = true) as Ho by (vm_compute; reflexivity). rewrite Hopen in Ho.
    apply Z.eqb_eq in Ho. exact Ho.
  - exists old, m, d, d1. split; [exact Hopen|]. split; [exact H1|]. exists new, m'. exact H2.
Defined.
