(* ===== verification/Match.v ===== *)
(** lib/sd-journal.c, the matches: the tree of terms that sd_journal_add_match,
    sd_journal_add_conjunction and sd_journal_add_disjunction build, and the search of
    one file for the entries that match it. *)
From S2P Require Import Prelude Lookup3 Uuid Memory CString JournalDef JournalFile JournalSeek.

(** * The tree of matches *)

(** A concrete match. *)
Record discrete := mkDiscrete { m_le_hash : Z; m_data : list Z }.

#[warnings="-register-all"]
Inductive Match :=
  | MATCH_DISCRETE (d : discrete)
  | MATCH_OR_TERM (matches : list Match)
  | MATCH_AND_TERM (matches : list Match).

(** The levels of the tree as sd_journal_add_match builds it: an AND term of OR terms of
    AND terms of OR terms of concrete matches, the latest of each list at its front
    (match_new puts it there).  [level1] and [level2] say whether the pointers of that
    name are set; then they are the first term of level 0 and the first of that. *)
Record Levels := mkLevels {
  level0 : option (list (list (list (list discrete))));
  level1 : bool;
  level2 : bool }.

Definition no_matches : Levels := mkLevels None false false.

Definition or_of (l3 : list discrete) : Match := MATCH_OR_TERM (map MATCH_DISCRETE l3).
Definition group_of (l2 : list (list discrete)) : Match := MATCH_AND_TERM (map or_of l2).
Definition alternatives_of (l1 : list (list (list discrete))) : Match := MATCH_OR_TERM (map group_of l1).
Definition tree_of (l0 : list (list (list (list discrete)))) : Match := MATCH_AND_TERM (map alternatives_of l0).

Definition is_upper (c : Z) : bool := (65 <=? c) && (c <=? 90).

(** The loop of match_is_valid; [first] while [p == b]. *)
Fixpoint valid_name (first : bool) (p : list Z) : bool :=
  match p with
  | [] => false
  | c :: p =>
      if c =? 61 then negb first
      else if c =? 95 then valid_name false p
      else if is_upper c then valid_name false p
      else if is_digit c then valid_name false p
      else false
  end.

Definition match_is_valid (data : list Z) : bool :=
  if zlen data <? 2 then false
  else if bool_decide (take 2 data = [95; 95]) then false
  else valid_name true data.

(** [None]: the assertion that there is an "=" fails. *)
Fixpoint same_field (a b : list Z) : option bool :=
  match a, b with
  | c :: a, d :: b => if negb (c =? d) then Some false else if c =? 61 then Some true else same_field a b
  | _, _ => None
  end.

Inductive scan_result := SCAN_SAME_MATCH | SCAN_SAME_FIELD | SCAN_OTHER | SCAN_ASSERT.

(** The loop over the concrete matches of an OR term. *)
Fixpoint scan_matches (d : discrete) (l3 : list discrete) : scan_result :=
  match l3 with
  | [] => SCAN_OTHER
  | l4 :: l3 =>
      if (m_le_hash l4 =? m_le_hash d) && bool_decide (m_data l4 = m_data d) then SCAN_SAME_MATCH
      else match same_field (m_data d) (m_data l4) with
           | None => SCAN_ASSERT
           | Some true => SCAN_SAME_FIELD
           | Some false => scan_matches d l3
           end
  end.

(** The loop over the OR terms of level 2; what it has passed is in [pre], reversed.
    The new match goes to the term of its field, or to a new one at the front. *)
Fixpoint add_to_terms (d : discrete) (all pre l2 : list (list discrete)) : outcome (option (list (list discrete))) :=
  match l2 with
  | [] => Ok (Some ([d] :: all))
  | l3 :: l2 =>
      match scan_matches d l3 with
      | SCAN_SAME_MATCH => Ok None
      | SCAN_SAME_FIELD => Ok (Some (rev_append pre ((d :: l3) :: l2)))
      | SCAN_OTHER => add_to_terms d all (l3 :: pre) l2
      | SCAN_ASSERT => Crash
      end
  end.

(** The levels made when their pointers are NULL. *)
Definition make_levels (j : Levels) : list (list (list (list discrete))) :=
  let l0 := default [] (level0 j) in
  let l0 := if level1 j then l0 else [] :: l0 in
  if level2 j then l0 else match l0 with [] => [] | l1 :: l0 => ([] :: l1) :: l0 end.

(** sd_journal_add_match: the new levels, and whether detach_location is called.  [data] is what the pointer
    points to; memory is always available. *)
Definition levels_add_match (j : Levels) (data : list Z) (size : Z) : outcome (Levels * bool) :=
  let data := if size =? 0 then cstring data else take (Z.to_nat size) data in
  if negb (match_is_valid data) then Err EINVAL else
  let d := mkDiscrete (data_hash64 data) data in
  match make_levels j with
  | (l2 :: l1) :: l0 =>
      match add_to_terms d l2 [] l2 with
      | Ok None => Ok (mkLevels (Some ((l2 :: l1) :: l0)) true true, false)
      | Ok (Some l2) => Ok (mkLevels (Some ((l2 :: l1) :: l0)) true true, true)
      | Err x => Err x
      | Crash => Crash
      | NoFuel => NoFuel
      end
  | _ => Crash
  end.

Definition levels_add_conjunction (j : Levels) : Levels :=
  match level0 j with
  | None => j
  | Some l0 =>
      if negb (level1 j) then j else
      match l0 with
      | [] :: _ | [] => j
      | _ => mkLevels (Some l0) false false
      end
  end.

Definition levels_add_disjunction (j : Levels) : Levels :=
  match level0 j with
  | None => j
  | Some l0 =>
      if negb (level1 j) then j else
      if negb (level2 j) then j else
      match l0 with
      | ([] :: _) :: _ | [] :: _ | [] => j
      | _ => mkLevels (Some l0) true false
      end
  end.

Definition levels_flush_matches (j : Levels) : Levels := no_matches.

Definition str_none := [110; 111; 110; 101].
Definition str_OR := [32; 79; 82; 32].
Definition str_AND := [32; 65; 78; 68; 32].

(** The strings of the matches of a term, joined. *)
Fixpoint join_matches (op : list Z) (ts : list (option (list Z))) (p : option (list Z)) (enclose : bool)
  : option (list Z * bool) :=
  match ts with
  | [] => (fun p => (p, enclose)) <$> p
  | t :: ts =>
      t ← t;
      match p with
      | Some p => join_matches op ts (Some (p ++ op ++ t)) true
      | None => join_matches op ts (Some t) enclose
      end
  end.

Definition enclose_in (r : option (list Z * bool)) : option (list Z) :=
  '(p, enclose) ← r; Some (if (enclose : bool) then [40] ++ p ++ [41] else p).

(** [None] is NULL, for a term without matches. *)
Fixpoint match_make_string (m : Match) : option (list Z) :=
  match m with
  | MATCH_DISCRETE d => Some (cstring (m_data d))
  | MATCH_OR_TERM ms => enclose_in (join_matches str_OR (map match_make_string ms) None false)
  | MATCH_AND_TERM ms => enclose_in (join_matches str_AND (map match_make_string ms) None false)
  end.

Definition journal_make_match_string (j : Levels) : option (list Z) :=
  match level0 j with None => Some str_none | Some l0 => match_make_string (tree_of l0) end.

(** * Locations *)

Inductive LocationType := LOCATION_HEAD | LOCATION_TAIL | LOCATION_DISCRETE | LOCATION_SEEK.

#[export] Instance LocationType_eq_dec : EqDecision LocationType.
Proof. solve_decision. Defined.

Record Location := mkLocation {
  l_type : LocationType;
  l_seqnum_set : bool; l_realtime_set : bool; l_monotonic_set : bool; l_xor_hash_set : bool;
  l_seqnum : Z; l_seqnum_id : list Z;
  l_realtime : Z;
  l_monotonic : Z; l_boot_id : list Z;
  l_xor_hash : Z }.

(** zero(j->current_location) *)
Definition zero_location : Location :=
  mkLocation LOCATION_HEAD false false false false 0 (replicate 16 0) 0 0 (replicate 16 0) 0.

(** * Searching a file *)

(** uuid_equal as a condition *)
Definition same_uuid (a b : list Z) : bool := negb (uuid_equal a b =? 0).

(** [x] comes before [y] in the direction. *)
Definition before (direction : direction_t) (x y : Z) : bool :=
  match direction with DIRECTION_DOWN => x <? y | DIRECTION_UP => y <? x end.

(** [assert(direction == DIRECTION_DOWN ? np >= after_offset : np <= after_offset)] *)
Definition not_before (direction : direction_t) (x y : Z) : bool := negb (before direction x y).

Section Search.
Context (e : Env) (fuel : nat) (direction : direction_t).

(** The earliest of the offsets found; 0 when there is none yet. *)
Definition earlier (np cp : Z) : Z := if (np =? 0) || before direction cp np then cp else np.

Fixpoint or_loop (fs : list (M (option Z))) (np : Z) : M Z :=
  match fs with
  | [] => ret np
  | f :: fs => r <- f ;; or_loop fs (match r with None => np | Some cp => earlier np cp end)
  end.

(** [i->matches_next ? i->matches_next : m->matches], as an index. *)
Definition next_match (k i : nat) : nat := if (S i <? k)%nat then S i else O.

Fixpoint and_loop (n : nat) (fs : list (Z -> M (option Z))) (np : Z) (last_moved i : nat) : M (option Z) :=
  if (i =? last_moved)%nat then ret (Some np) else
  match n with
  | O => nofuel
  | S n =>
      r <- nth i fs (fun _ => crash) np ;;
      match r with
      | None => ret None
      | Some cp =>
          assert_ (not_before direction cp np) ;;
          if before direction np cp then and_loop n fs cp i (next_match (length fs) i)
          else and_loop n fs np last_moved (next_match (length fs) i)
      end
  end.

Definition and_term (fs : list (Z -> M (option Z))) (after_offset : Z) : M (option Z) :=
  match fs with
  | [] => ret None
  | f :: _ =>
      r <- f after_offset ;;
      match r with
      | None => ret None
      | Some np =>
          assert_ (not_before direction np after_offset) ;;
          and_loop fuel fs np O (next_match (length fs) O)
      end
  end.

(** The end of next_for_match: the entry is looked at. *)
Definition matched (np : Z) : M (option Z) :=
  assert_ (0 <? np) ;; _ <- journal_file_move_to_object e OBJECT_ENTRY np ;; ret (Some np).

Fixpoint next_for_match (m : Match) (after_offset : Z) : M (option Z) :=
  match m with
  | MATCH_DISCRETE d =>
      r <- journal_file_find_data_object_with_hash e fuel (m_data d) (m_le_hash d) ;;
      match r with
      | None => ret None
      | Some dp =>
          x <- journal_file_move_to_entry_by_offset_for_data e fuel dp after_offset direction ;; ret (fst <$> x)
      end
  | MATCH_OR_TERM ms =>
      np <- or_loop (map (fun i => next_for_match i after_offset) ms) 0 ;;
      if np =? 0 then ret None else matched np
  | MATCH_AND_TERM ms =>
      r <- and_term (map next_for_match ms) after_offset ;;
      match r with None => ret None | Some np => matched np end
  end.

(** [if (r != -ENOENT) return r;] *)
Definition unless_ENOENT (x k : M (option Z)) : M (option Z) := fun f =>
  match x f with
  | (Err n, f') => if n =? ENOENT then k f' else (Err n, f')
  | r => r
  end.

Definition offset_of (x : M (option (Z * Z))) : M (option Z) := r <- x ;; ret (fst <$> r).

(** The farthest of the offsets found. *)
Definition farther (np cp : Z) : Z := if (np =? 0) || before direction np cp then cp else np.

Fixpoint all_loop (fs : list (M (option Z))) (np : Z) : M (option Z) :=
  match fs with
  | [] => ret (Some np)
  | f :: fs =>
      r <- f ;;
      match r with None => ret None | Some cp => all_loop fs (farther np cp) end
  end.

Definition file_seqnum_id : M (list Z) := rdbytes off_seqnum_id 16.

Section Location.
Context (l : Location).

Definition find_location_for_data (dp : Z) : M (option Z) :=
  match l_type l with
  | LOCATION_HEAD => journal_file_next_entry_for_data e fuel None 0 dp DIRECTION_DOWN
  | LOCATION_TAIL => journal_file_next_entry_for_data e fuel None 0 dp DIRECTION_UP
  | _ =>
      id <- file_seqnum_id ;;
      if l_seqnum_set l && same_uuid (l_seqnum_id l) id then
        offset_of (journal_file_move_to_entry_by_seqnum_for_data e fuel dp (l_seqnum l) direction)
      else
        let by_realtime :=
          if l_realtime_set l then
            offset_of (journal_file_move_to_entry_by_realtime_for_data e fuel dp (l_realtime l) direction)
          else journal_file_next_entry_for_data e fuel None 0 dp direction in
        if l_monotonic_set l then
          unless_ENOENT
            (journal_file_move_to_entry_by_monotonic_for_data e fuel dp (l_boot_id l) (l_monotonic l) direction)
            by_realtime
        else by_realtime
  end.

Fixpoint find_location_for_match (m : Match) : M (option Z) :=
  match m with
  | MATCH_DISCRETE d =>
      r <- journal_file_find_data_object_with_hash e fuel (m_data d) (m_le_hash d) ;;
      match r with None => ret None | Some dp => find_location_for_data dp end
  | MATCH_OR_TERM ms =>
      np <- or_loop (map find_location_for_match ms) 0 ;;
      if np =? 0 then ret None
      else (_ <- journal_file_move_to_object e OBJECT_ENTRY np ;; ret (Some np))
  | MATCH_AND_TERM ms =>
      match ms with
      | [] => ret None
      | _ =>
          r <- all_loop (map find_location_for_match ms) 0 ;;
          match r with None => ret None | Some np => next_for_match m np end
      end
  end.

Definition find_location_without_matches : M (option Z) :=
  match l_type l with
  | LOCATION_HEAD => journal_file_next_entry e fuel None 0 DIRECTION_DOWN
  | LOCATION_TAIL => journal_file_next_entry e fuel None 0 DIRECTION_UP
  | _ =>
      id <- file_seqnum_id ;;
      if l_seqnum_set l && same_uuid (l_seqnum_id l) id then
        offset_of (journal_file_move_to_entry_by_seqnum e fuel (l_seqnum l) direction)
      else
        let by_realtime :=
          if l_realtime_set l then offset_of (journal_file_move_to_entry_by_realtime e fuel (l_realtime l) direction)
          else journal_file_next_entry e fuel None 0 direction in
        if l_monotonic_set l then
          unless_ENOENT (offset_of (journal_file_move_to_entry_by_monotonic e fuel (l_boot_id l) (l_monotonic l) direction))
            by_realtime
        else by_realtime
  end.

Definition find_location_with_matches (j : Levels) : M (option Z) :=
  match level0 j with
  | None => find_location_without_matches
  | Some l0 => find_location_for_match (tree_of l0)
  end.

End Location.

(** [c], [cp]: the current entry. *)
Definition next_with_matches (j : Levels) (c cp : Z) : M (option Z) :=
  match level0 j with
  | None => journal_file_next_entry e fuel (Some c) cp direction
  | Some l0 =>
      next_for_match (tree_of l0) (match direction with DIRECTION_DOWN => u64 (cp + 1) | DIRECTION_UP => u64 (cp - 1) end)
  end.

End Search.
