(* ===== verification/MatchProofs.v ===== *)
(** The search of next_for_match: given files whose data objects can be searched, it
    finds the first entry at or after an offset that matches the tree of terms, and the
    jumping of the AND terms comes to an end. *)
From S2P Require Import Prelude Lookup3 Uuid Memory CString JournalDef JournalFile JournalSeek Match.

(** Induction on the trees. *)
Lemma Match_nested_ind (P : Match -> Prop) :
  (forall d, P (MATCH_DISCRETE d)) ->
  (forall ms, Forall P ms -> P (MATCH_OR_TERM ms)) ->
  (forall ms, Forall P ms -> P (MATCH_AND_TERM ms)) ->
  forall m, P m.
Proof.
  intros Hd Ho Ha. fix IH 1. intros [d|ms|ms]; [apply Hd|apply Ho|apply Ha];
    (induction ms as [|m ms IHms]; constructor; [apply IH|exact IHms]).
Qed.

(** Whether an entry matches, when [has d p] says that the entry [p] has the data [d]. *)
Fixpoint sat (has : discrete -> Z -> bool) (m : Match) (p : Z) : bool :=
  match m with
  | MATCH_DISCRETE d => has d p
  | MATCH_OR_TERM ms => existsb (fun m => sat has m p) ms
  | MATCH_AND_TERM ms => negb (bool_decide (ms = [])) && forallb (fun m => sat has m p) ms
  end.

(** The concrete matches of a tree; sd_journal_add_match stores their hashes. *)
Fixpoint discretes (m : Match) : list discrete :=
  match m with
  | MATCH_DISCRETE d => [d]
  | MATCH_OR_TERM ms | MATCH_AND_TERM ms => concat (map discretes ms)
  end.

Definition hashed (d : discrete) : Prop := m_le_hash d = data_hash64 (m_data d).

Lemma discretes_in (Q : discrete -> Prop) ms m :
  Forall Q (concat (map discretes ms)) -> m ∈ ms -> Forall Q (discretes m).
Proof.
  intros H Hm. apply list_elem_of_split in Hm as (l1 & l2 & ->). rewrite map_app, concat_app in H. simpl in H.
  by apply Forall_app in H as [_ [H _]%Forall_app].
Qed.

(** The first element at or after [after] in the direction. *)
Definition is_first (direction : direction_t) (S : Z -> Prop) (after : Z) (r : option Z) : Prop :=
  match r with
  | Some p => S p /\ before direction p after = false
              /\ forall q, S q -> before direction q after = false -> before direction q p = false
  | None => forall q, S q -> before direction q after = true
  end.

Lemma before_irrefl d x : before d x x = false.
Proof. destruct d; apply Z.ltb_irrefl. Qed.

Lemma before_trans d x y z : before d y x = false -> before d z y = false -> before d z x = false.
Proof. destruct d; simpl; rewrite !Z.ltb_ge; lia. Qed.

Lemma before_total d x y : before d x y = true -> before d y x = false.
Proof. destruct d; simpl; rewrite Z.ltb_lt, Z.ltb_ge; lia. Qed.

Lemma before_antisym d x y : before d x y = false -> before d y x = false -> x = y.
Proof. destruct d; simpl; rewrite !Z.ltb_ge; lia. Qed.

Lemma before_lt_le d x y z : before d x y = true -> before d z y = false -> before d x z = true.
Proof. destruct d; simpl; rewrite !Z.ltb_lt, Z.ltb_ge; lia. Qed.

(** What a file promises to the search by matches: [has] are the entries of the data,
    [U] all entries; [P] holds of the file and is kept. *)
Class Searchable (e : Env) (fuel : nat) (direction : direction_t) (P : JournalFile -> Prop)
    (has : discrete -> Z -> bool) (U : list Z) : Prop := {
  se_discrete : forall f d after, P f -> hashed d -> 0 <= after ->
    exists r f', next_for_match e fuel direction (MATCH_DISCRETE d) after f = (Ok r, f') /\ P f'
      /\ is_first direction (fun p => has d p = true) after r;
  se_entry : forall f p, P f -> p ∈ U -> journal_file_move_to_object e OBJECT_ENTRY p f = (Ok p, f);
  se_all : forall d p, has d p = true -> p ∈ U;
  se_pos : forall p, p ∈ U -> 0 < p }.

Section Search.
Context (e : Env) (fuel : nat) (direction : direction_t) (P : JournalFile -> Prop)
  (has : discrete -> Z -> bool) (U : list Z) `{!Searchable e fuel direction P has U}.

Abbreviation is_first := (is_first direction).
Abbreviation before := (before direction).
Abbreviation sat := (sat has).

Lemma sat_or ms p : sat (MATCH_OR_TERM ms) p = true <-> exists m, m ∈ ms /\ sat m p = true.
Proof. simpl. rewrite existsb_exists. by setoid_rewrite list_elem_of_In. Qed.

Lemma sat_and ms p : sat (MATCH_AND_TERM ms) p = true <-> ms <> [] /\ forall m, m ∈ ms -> sat m p = true.
Proof.
  simpl. rewrite andb_true_iff, negb_true_iff, bool_decide_eq_false, forallb_forall. by setoid_rewrite list_elem_of_In.
Qed.

Lemma sat_all m p : sat m p = true -> p ∈ U.
Proof.
  revert p. induction m as [d|ms IH|ms IH] using Match_nested_ind; intros p; simpl.
  - apply se_all.
  - intros (m & Hm & Hs)%existsb_exists. rewrite Forall_forall in IH. apply (IH m); [|done]. by apply list_elem_of_In.
  - intros [Hne Hs]%andb_true_iff. destruct ms as [|m ms]; [done|]. simpl in Hs. apply andb_true_iff in Hs as [Hs _].
    apply Forall_cons in IH as [IH _]. by apply IH.
Qed.

(** A search that finds the first entry of a set. *)
Definition finds (g : Z -> M (option Z)) (S : Z -> Prop) : Prop :=
  forall f after, P f -> 0 <= after -> exists r f', g after f = (Ok r, f') /\ P f' /\ is_first S after r.

(** ** OR terms *)

(** The offset found so far, 0 when there is none. *)
Definition found_offset (np : Z) : option Z := if np =? 0 then None else Some np.

Lemma is_first_ext (S T : Z -> Prop) after r : (forall p, S p <-> T p) -> is_first S after r -> is_first T after r.
Proof. intros H. destruct r as [p|]; simpl; [|by setoid_rewrite H]. setoid_rewrite H. done. Qed.

Lemma earlier_first (S T : Z -> Prop) after np r :
  (forall p, T p -> 0 < p) -> is_first S after (found_offset np) -> is_first T after r ->
  is_first (fun p => S p \/ T p) after
    (found_offset (match r with None => np | Some cp => earlier direction np cp end)).
Proof.
  intros Hpos Hs Ht. destruct r as [cp|]; simpl in Ht.
  2:{ unfold found_offset in *. destruct (np =? 0); simpl in *.
      - intros q [Hq|Hq]; auto.
      - destruct Hs as (H1 & H2 & H3). split_and!; [by left|done|]. intros q [Hq|Hq] Hb; [by apply H3|].
        rewrite (Ht q Hq) in Hb. done. }
  destruct Ht as (T1 & T2 & T3). pose proof (Hpos cp T1) as Hcp.
  unfold found_offset, earlier in *. destruct (Z.eqb_spec np 0) as [->|Hnp]; simpl in *.
  - destruct (Z.eqb_spec cp 0); [lia|]. simpl. split_and!; [by right|done|]. intros q [Hq|Hq] Hb; [|by apply T3].
    rewrite (Hs q Hq) in Hb. done.
  - destruct Hs as (S1 & S2 & S3). destruct (before cp np) eqn:E.
    + destruct (Z.eqb_spec cp 0); [lia|]. simpl. split_and!; [by right|done|]. intros q [Hq|Hq] Hb; [|by apply T3].
      apply (before_trans _ _ np); [by apply before_total|by apply S3].
    + destruct (Z.eqb_spec np 0); [lia|]. simpl. split_and!; [by left|done|]. intros q [Hq|Hq] Hb; [by apply S3|].
      apply (before_trans _ _ cp); [done|by apply T3].
Qed.

Lemma or_loop_first {I} (run : I -> M (option Z)) (T : I -> Z -> Prop) after ixs :
  (forall i p, T i p -> 0 < p) ->
  (forall i f, i ∈ ixs -> P f -> exists r f', run i f = (Ok r, f') /\ P f' /\ is_first (T i) after r) ->
  forall f np (S : Z -> Prop), P f -> is_first S after (found_offset np) ->
  exists np' f', or_loop direction (map run ixs) np f = (Ok np', f') /\ P f'
    /\ is_first (fun p => S p \/ exists i, i ∈ ixs /\ T i p) after (found_offset np').
Proof.
  intros Hpos Hrun. induction ixs as [|i ixs IH]; intros f np S Hf Hs; simpl.
  - exists np, f. split; [done|]. split; [done|]. eapply is_first_ext; [|exact Hs]. intros p.
    split; [by left|intros [?|(i & ?%not_elem_of_nil & _)]; done].
  - destruct (Hrun i f (list_elem_of_here _ _) Hf) as (r & f1 & Hr & Hf1 & Hfirst). rewrite (run_bind _ _ _ _ _ Hr).
    destruct (IH (fun i' f' Hi => Hrun i' f' (list_elem_of_further _ _ _ Hi)) f1 _ (fun p => S p \/ T i p) Hf1
      (earlier_first S (T i) after np r (Hpos i) Hs Hfirst)) as (np' & f' & Hrun' & Hf' & Hr').
    exists np', f'. split; [exact Hrun'|]. split; [done|]. eapply is_first_ext; [|exact Hr'].
    intros p. setoid_rewrite elem_of_cons. split.
    + intros [[Hp|Hp]|(i' & Hi & Hp)]; [by left|right; exists i; auto|right; exists i'; auto].
    + intros [Hp|(i' & [->|Hi] & Hp)]; [by left; left|by left; right|right; by exists i'].
Qed.

(** ** AND terms *)

(** The entries after an offset. *)
Definition ahead (np : Z) : nat := length (filter (fun q => before np q = true) U).

Lemma ahead_lt np cp : before np cp = true -> cp ∈ U -> (ahead cp < ahead np)%nat.
Proof.
  intros Hb Hc. unfold ahead. clear -Hb Hc. induction U as [|q l IH]; [by apply elem_of_nil in Hc|].
  assert (length (filter (fun q => before cp q = true) l) <= length (filter (fun q => before np q = true) l))%nat as Hle.
  { clear -Hb. induction l as [|q l IH]; [done|]. rewrite !filter_cons.
    destruct (decide (before cp q = true)) as [H|H].
    - rewrite decide_True; [simpl; lia|]. eapply before_lt_le; [exact Hb|]. by apply before_total.
    - destruct (decide _); simpl; lia. }
  rewrite !filter_cons. apply elem_of_cons in Hc as [->|Hc].
  - rewrite (decide_True (P := before np q = true)) by done. rewrite decide_False; [simpl; lia|].
    by rewrite before_irrefl.
  - specialize (IH Hc). destruct (decide (before cp q = true)) as [H|H].
    + rewrite decide_True; [simpl; lia|]. eapply before_lt_le; [exact Hb|]. by apply before_total.
    + destruct (decide _); simpl; lia.
Qed.

Lemma ahead_lt_all np : np ∈ U -> (ahead np < length U)%nat.
Proof.
  intros Hin. unfold ahead. clear -Hin. induction U as [|q l IH]; [by apply elem_of_nil in Hin|].
  pose proof (length_filter (fun q => before np q = true) l). rewrite filter_cons. simpl.
  apply elem_of_cons in Hin as [->|Hin].
  - rewrite decide_False; [lia|]. by rewrite before_irrefl.
  - specialize (IH Hin). destruct (decide _); simpl; lia.
Qed.

Lemma next_match_mod k i : (i < k)%nat -> next_match k i = (S i mod k)%nat.
Proof.
  intros H. unfold next_match. destruct (Nat.ltb_spec (S i) k).
  - by rewrite Nat.mod_small.
  - assert (S i = k) as -> by lia. by rewrite Nat.Div0.mod_same.
Qed.

Lemma next_match_step k last d : (0 < k)%nat -> next_match k ((last + d) mod k) = ((last + S d) mod k)%nat.
Proof.
  intros Hk. rewrite next_match_mod by (apply Nat.mod_upper_bound; lia).
  replace (last + S d)%nat with (S (last + d)) by lia.
  rewrite <- (Nat.add_1_l (_ mod _)), Nat.Div0.add_mod_idemp_r. done.
Qed.

(** Once around the circle. *)
Lemma around k last d : (last < k)%nat -> (1 <= d <= k)%nat -> ((last + d) mod k)%nat = last -> d = k.
Proof.
  intros Hl Hd E. destruct (Nat.lt_ge_cases (last + d) k).
  - rewrite Nat.mod_small in E by done. lia.
  - replace (last + d)%nat with (last + d - k + 1 * k)%nat in E by lia.
    rewrite Nat.Div0.mod_add in E. destruct (Nat.eq_dec d k); [done|].
    rewrite Nat.mod_small in E by lia. lia.
Qed.

Lemma around_all k last j : (last < k)%nat -> (j < k)%nat -> exists t, (t < k)%nat /\ ((last + t) mod k)%nat = j.
Proof.
  intros Hl Hj. destruct (Nat.le_gt_cases last j).
  - exists (j - last)%nat. split; [lia|]. rewrite Nat.mod_small; lia.
  - exists (j + k - last)%nat. split; [lia|]. replace (last + (j + k - last))%nat with (j + 1 * k)%nat by lia.
    rewrite Nat.Div0.mod_add. by apply Nat.mod_small.
Qed.

Section And.
Context (ms : list Match) (after : Z).
Hypothesis (Hms : Forall (fun m => finds (next_for_match e fuel direction m) (fun p => sat m p = true)) ms) (Ha : 0 <= after).

Definition all_sat (p : Z) : Prop := forall m, m ∈ ms -> sat m p = true.

(** [d] terms from [last] on are known to match at [np]. *)
Lemma and_loop_ok : forall n f np last d,
  P f -> np ∈ U -> (last < length ms)%nat -> (1 <= d <= length ms)%nat ->
  before np after = false ->
  (forall q, all_sat q -> before q after = false -> before q np = false) ->
  (forall t m, (t < d)%nat -> ms !! ((last + t) mod length ms)%nat = Some m -> sat m np = true) ->
  (length ms * ahead np + (length ms - d) <= n)%nat ->
  exists r f', and_loop direction n (map (next_for_match e fuel direction) ms) np last ((last + d) mod length ms)%nat f
               = (Ok r, f') /\ P f' /\ is_first all_sat after r.
Proof.
  induction n as [|n IH]; intros f np last d Hf Hnp Hlast Hd Hafter Hleast Hsat Hn; simpl;
    destruct (Nat.eqb_spec ((last + d) mod length ms) last) as [E|E].
  1, 3: apply around in E as ->; [|done..]; exists (Some np), f; split; [done|]; split; [done|]; split_and!; [|done|done];
    intros m (j & Hj)%list_elem_of_lookup_1; destruct (around_all (length ms) last j) as (t & Ht & Ej);
    [done|by eapply lookup_lt_Some|]; eapply Hsat; [exact Ht|by rewrite Ej].
  { exfalso. apply E. assert (d = length ms) as -> by nia.
    rewrite <- (Nat.mul_1_l (length ms)) at 1. rewrite Nat.Div0.mod_add. by apply Nat.mod_small. }
  assert (((last + d) mod length ms < length ms)%nat) as Hi by (apply Nat.mod_upper_bound; lia).
  set (i := ((last + d) mod length ms)%nat) in *.
  destruct (lookup_lt_is_Some_2 ms i Hi) as [m Hm].
  assert (nth i (map (next_for_match e fuel direction) ms) (fun _ => crash) = next_for_match e fuel direction m) as ->.
  { apply nth_lookup_Some. rewrite list_lookup_fmap. by rewrite Hm. }
  assert (m ∈ ms) as Hin by (by eapply list_elem_of_lookup_2).
  assert (0 <= np) as Hnp0 by (pose proof (se_pos np Hnp); lia).
  destruct (proj1 (Forall_forall _ _) Hms m Hin f np Hf Hnp0) as (r & f1 & Hrun & Hf1 & Hr). rewrite (run_bind _ _ _ _ _ Hrun).
  destruct r as [cp|]; simpl in Hr.
  2:{ exists None, f1. split; [done|]. split; [done|]. intros q Hq. destruct (before q after) eqn:Eq; [done|].
      rewrite <- (Hr q (Hq m Hin)). symmetry. by apply Hleast. }
  destruct Hr as (Hcp & Hcn & Hcl). rewrite run_assert by (unfold not_before; by rewrite Hcn).
  rewrite length_map. destruct (before np cp) eqn:Emove.
  - unfold i at 2. rewrite next_match_mod by done. fold i. replace (S i) with (i + 1)%nat by lia.
    apply (IH f1 cp i 1%nat); try done.
    + by eapply sat_all.
    + lia.
    + eapply before_trans; [exact Hafter|done].
    + intros q Hq Hb. apply Hcl; [by apply Hq|by apply Hleast].
    + intros t m' Ht Hm'. assert (t = 0)%nat as -> by lia. rewrite Nat.add_0_r, Nat.mod_small in Hm' by done. congruence.
    + pose proof (ahead_lt np cp Emove (sat_all m cp Hcp)). nia.
  - unfold i. rewrite next_match_step by lia.
    assert (cp = np) as -> by (by eapply before_antisym).
    assert (d <> length ms) as Hdne.
    { intros ->. apply E. unfold i. rewrite <- (Nat.mul_1_l (length ms)) at 1. rewrite Nat.Div0.mod_add. by apply Nat.mod_small. }
    apply (IH f1 np last (S d)); try done; [lia| |lia].
    intros t m' Ht Hm'. destruct (Nat.eq_dec t d) as [->|]; [|eapply Hsat; [|exact Hm']; lia].
    fold i in Hm'. congruence.
Qed.

Lemma and_term_ok f : P f -> (length ms * length U <= fuel)%nat ->
  exists r f', and_term fuel direction (map (next_for_match e fuel direction) ms) after f = (Ok r, f') /\ P f'
    /\ is_first (fun p => sat (MATCH_AND_TERM ms) p = true) after r.
Proof.
  intros Hf Hfuel. 
  assert (forall r, ms <> [] -> is_first all_sat after r -> is_first (fun p => sat (MATCH_AND_TERM ms) p = true) after r) as Hext.
  { intros r Hne. apply is_first_ext. intros p. simpl. rewrite bool_decide_eq_false_2 by done. simpl.
    rewrite forallb_forall. unfold all_sat. by setoid_rewrite list_elem_of_In. }
  assert (ms = [] \/ exists m ms', ms = m :: ms') as [Ems|(m & ms' & Ems)] by (destruct ms; eauto).
  { exists None, f. unfold and_term. rewrite Ems. done. }
  assert (map (next_for_match e fuel direction) ms
    = next_for_match e fuel direction m :: map (next_for_match e fuel direction) ms') as Emap by (by rewrite Ems).
  unfold and_term. rewrite Emap. assert (m ∈ ms) as Hin by (rewrite Ems; constructor).
  assert (ms <> []) as Hne by (by rewrite Ems).
  assert (1 <= length ms)%nat as Hlen by (rewrite Ems; simpl; lia).
  destruct (proj1 (Forall_forall _ _) Hms m Hin f after Hf Ha) as (r & f1 & Hrun & Hf1 & Hr). rewrite (run_bind _ _ _ _ _ Hrun).
  destruct r as [np|]; simpl in Hr.
  2:{ exists None, f1. split; [done|]. split; [done|]. apply (Hext None Hne). intros q Hq. by apply Hr, Hq. }
  destruct Hr as (Hnp & Hna & Hnl). rewrite run_assert by (unfold not_before; by rewrite Hna).
  rewrite <- Emap, length_map.
  pose proof (sat_all m np Hnp) as Hu. pose proof (ahead_lt_all np Hu).
  destruct (and_loop_ok fuel f1 np 0%nat 1%nat) as (r & f' & Hrun' & Hf' & Hr'); try done.
  - intros q Hq Hb. apply Hnl; [by apply Hq|done].
  - intros t m' Ht Hm'. assert (t = 0)%nat as -> by lia. rewrite Nat.add_0_l, Nat.mod_small in Hm' by lia.
    rewrite Ems in Hm'. simpl in Hm'. by injection Hm' as <-.
  - nia.
  - exists r, f'. rewrite next_match_mod by lia. split; [exact Hrun'|]. split; [done|]. by apply Hext.
Qed.

End And.

Lemma matched_ok f np : P f -> np ∈ U -> matched e np f = (Ok (Some np), f).
Proof.
  intros Hf Hu. unfold matched. rewrite run_assert by (apply Z.ltb_lt, (se_pos np Hu)).
  by rewrite (run_bind _ _ _ _ _ (se_entry f np Hf Hu)).
Qed.

(** The fuel the AND terms need. *)
Fixpoint and_fuel (m : Match) : nat :=
  match m with
  | MATCH_DISCRETE _ => 0
  | MATCH_OR_TERM ms => list_max (map and_fuel ms)
  | MATCH_AND_TERM ms => Nat.max (length ms * length U) (list_max (map and_fuel ms))
  end.

Lemma and_fuel_in ms n m : (list_max (map and_fuel ms) <= n)%nat -> m ∈ ms -> (and_fuel m <= n)%nat.
Proof.
  intros H Hm. apply list_max_le in H. rewrite Forall_forall in H. apply H. apply list_elem_of_fmap. by exists m.
Qed.

Lemma next_for_match_ok m : Forall hashed (discretes m) -> (and_fuel m <= fuel)%nat -> finds (next_for_match e fuel direction m) (fun p => sat m p = true).
Proof.
  induction m as [d|ms IH|ms IH] using Match_nested_ind; intros Hh Hfuel.
  - intros f after Hf Ha. apply Forall_cons in Hh as [Hh _]. exact (se_discrete (P := P) (has := has) (U := U) f d after Hf Hh Ha).
  - assert (Forall (fun m => finds (next_for_match e fuel direction m) (fun p => sat m p = true)) ms) as Hms.
    { rewrite Forall_forall in IH |- *. intros m Hm. apply IH; [done|by eapply discretes_in|by eapply and_fuel_in]. }
    intros f after Hf Ha.
    destruct (or_loop_first (fun m => next_for_match e fuel direction m after) (fun m p => sat m p = true) after ms
      (fun m p Hp => se_pos p (sat_all m p Hp)) (fun m f' Hm Hf' => proj1 (Forall_forall _ _) Hms m Hm f' after Hf' Ha)
      f 0 (fun _ => False) Hf) as (np & f' & Hrun & Hf' & Hr); [by intros q|].
    cbn [next_for_match]. rewrite (run_bind _ _ _ _ _ Hrun).
    apply (is_first_ext _ (fun p => sat (MATCH_OR_TERM ms) p = true)) in Hr; [|intros p; rewrite sat_or; tauto].
    unfold found_offset in Hr. destruct (np =? 0); [by exists None, f'|].
    exists (Some np), f'. split; [|done]. apply matched_ok; [done|]. eapply sat_all, Hr.
  - assert (Forall (fun m => finds (next_for_match e fuel direction m) (fun p => sat m p = true)) ms) as Hms.
    { rewrite Forall_forall in IH |- *. intros m Hm. apply IH; [done|by eapply discretes_in|]. eapply and_fuel_in; [|done]. simpl in Hfuel. lia. }
    intros f after Hf Ha. simpl in Hfuel.
    destruct (and_term_ok ms after Hms Ha f Hf) as (r & f' & Hrun & Hf' & Hr); [lia|].
    cbn [next_for_match]. rewrite (run_bind _ _ _ _ _ Hrun). destruct r as [np|]; [|by exists None, f'].
    exists (Some np), f'. split; [|done]. apply matched_ok; [done|]. eapply sat_all, Hr.
Qed.

End Search.
