(* ===== verification/MatchSpec.v ===== *)
(** Searching a journal file by matches: on a well-formed file, whoever reads it,
    next_for_match finds downwards the first entry that matches the tree of terms.
    This is the instance of [Searchable] for journal files. *)
From S2P Require Import Prelude Lookup3 Uuid Memory CString JournalDef JournalFile ObjectLemmas ArenaProofs.
From S2P Require Import HashTableProofs HeaderProofs DataProofs StoreProofs StoreOps JournalSeek BisectProofs.
From S2P Require Import ArraySearch JournalEntries JournalSamples StoreSpec StoreSamples EntryArrayProofs.
From S2P Require Import JournalInv JournalAppend JournalSpec Match MatchProofs.

Lemma find_ext_in {A} (P Q : A -> bool) l : (forall a, a ∈ l -> P a = Q a) -> List.find P l = List.find Q l.
Proof.
  induction l as [|a l IH]; intros H; simpl; [done|]. rewrite (H a) by constructor. rewrite IH; [done|].
  intros b Hb. apply H. by constructor.
Qed.

(** * A handle that reads the file of another one *)

Record reads (f g : JournalFile) : Prop := mkReads {
  re_shows : shows f g;
  re_size : jf_last_size g <= jf_size g < 2 ^ 63;
  re_table : jf_data_hash_table g = jf_data_hash_table f }.

Lemma reads_set_cache f g c : reads f g -> reads f (set_cache g c).
Proof. intros [[Hm Hok Hl] Hs Ht]. split; [by split|done|done]. Qed.

Section Reads.
Context (f g : JournalFile) (Hr : reads f g).

Lemma reads_load64 a : 17 <= a -> load64 (jf_mem g) a = load64 (jf_mem f) a.
Proof. intros Ha. apply (shows_load64 _ _ _ (re_shows _ _ Hr)). lia. Qed.

Lemma reads_hdr o : 17 <= o -> hdr o g = hdr o f.
Proof. apply reads_load64. Qed.

Lemma arena_reads objs end_ : arena f objs end_ -> arena g objs end_.
Proof.
  destruct Hr as [Hs Hz _]. pose proof Hs as [Hm Hok Hl]. intros [A1 A2 A3 A4 A5 A6 A7 A8].
  assert (arena_end g = arena_end f) as Ee by (unfold arena_end; rewrite !reads_hdr by hlia; done).
  split; rewrite ?Ee, ?reads_hdr by hlia; try done.
  - eapply objects_from_agree; [exact A3| |lia]. eapply agree_mono; [|exact Hm]. intros a Ha. unfold off_state. cbn beta in Ha. lia.
  - lia.
  - lia.
Qed.

Lemma find_data_reads e fuel objs end_ dch fch data :
  mmap_ok e -> store e f objs end_ dch fch -> fuel_for fuel (data_buckets f) dch ->
  journal_file_find_data_object_with_hash e fuel data (data_hash64 data) g = (Ok (lookup_data e f dch data), g).
Proof.
  intros He [Har _ Hd _] Hfuel. pose proof (sd_table _ _ _ _ _ _ Hd) as Ht.
  pose proof (ht_n _ _ _ _ _ _ _ Ht) as Hn.
  assert (data_buckets g = data_buckets f) as Eb by (unfold data_buckets; by rewrite reads_hdr by hlia).
  assert (side (data_kind e) g objs (jf_data_hash_table g) (data_buckets g) dch) as Hd'.
  { rewrite Eb, (re_table _ _ Hr). eapply (side_agree (data_kind e) f g objs objs); [exact Har|done|exact Hd|done|..].
    - intros a Ha. apply (shows_byte _ _ _ (re_shows _ _ Hr)).
      pose proof (table_range f objs end_ _ _ _ _ _ Har Ht). unfold hash_table_items in *. lia.
    - intros b s a Hb Ha. apply (shows_byte _ _ _ (re_shows _ _ Hr)). destruct (arena_object _ _ _ Har _ _ _ Hb). cbn in Ha. hlia. }
  assert (lookup_data e f dch data = lookup_data e g dch data) as ->.
  { unfold lookup_data. rewrite Eb. apply find_ext_in. intros a Ha.
    destruct (chain_object f objs _ _ _ _ _ Ht _ a ltac:(by apply Z.mod_pos_bound) Ha) as [s Hs].
    destruct (arena_object _ _ _ Har _ _ _ Hs) as (_ & ? & _).
    unfold holds_data. by rewrite (shows_data_of e f g a (re_shows _ _ Hr)) by lia. }
  rewrite <- Eb in Hfuel, Hn. apply arena_reads in Har. pose proof (sd_table _ _ _ _ _ _ Hd') as Ht'.
  unfold journal_file_find_data_object_with_hash. run. fold (hdr off_data_hash_table_size g).
  rewrite run_fail_if by (apply Z.eqb_neq, buckets_size, Hn).
  rewrite (run_bind _ _ _ _ _ (bucket_ok _ _ _ Hn)). run.
  assert (0 <= data_hash64 data mod data_buckets g < data_buckets g) as Hh by (by apply Z.mod_pos_bound).
  eapply find_data_loop_ok; [done|exact Har|by apply (ht_chain _ _ _ _ _ _ _ Ht')|by apply Hfuel|].
  intros a Ha. by eapply (sd_good _ _ _ _ _ _ Hd').
Qed.

End Reads.

(** * The order of what the data objects list *)

(** The entries that the file or a data object lists are entries of the file, in the
    order of their offsets (more than once when the data occurs more than once). *)
Record data_ordered (f : JournalFile) (objs : list (Z * Z * Z)) (A : Z -> list (Z * Z)) : Prop := {
  do_entry : forall p, p ∈ held f objs A 0 -> exists s, (p, OBJECT_ENTRY, s) ∈ objs;
  do_file : forall c p, live objs c -> p ∈ held f objs A c -> p ∈ held f objs A 0;
  do_sorted : forall c, live objs c -> StronglySorted Z.le (held f objs A c) }.

(** All that the chain cache holds is about the chains of the file. *)
Definition caches_ok (g : JournalFile) (objs : list (Z * Z * Z)) (A : Z -> list (Z * Z)) : Prop :=
  forall ci, ci ∈ jf_chain_cache g -> forall c, live objs c -> load64 (jf_mem g) (slot c) = ci_first ci ->
    cci_ok g (A c) (count g c - inline_entries c) ci.

Lemma sorted_nth (key : Z -> Z) (l : list Z) i j p q :
  StronglySorted (fun p q => key p <= key q) l -> (i <= j)%nat -> l !! i = Some p -> l !! j = Some q -> key p <= key q.
Proof.
  intros Hs. revert i j. induction Hs as [|a l Hs IH Hf]; intros i j Hij Hp Hq; [done|].
  destruct i as [|i], j as [|j]; simpl in *; try lia.
  - assert (p = q) as -> by congruence. lia.
  - injection Hp as <-. apply list_elem_of_lookup_2 in Hq. by apply (proj1 (Forall_forall _ _) Hf).
  - apply (IH i j); [lia|done|done].
Qed.

(** The linear search finds the first one. *)
Lemma linear_search_first l after :
  StronglySorted Z.le l -> is_first DIRECTION_DOWN (fun p => p ∈ l) after (fst <$> linear_search DIRECTION_DOWN id after l).
Proof.
  intros Hs. unfold linear_search. destruct (list_find _ l) as [[i p]|] eqn:E.
  - apply list_find_Some in E as (Hp & Hle & Hbefore). unfold id in *. simpl. split_and!.
    + by eapply list_elem_of_lookup_2.
    + apply Z.ltb_ge. lia.
    + intros q Hq Hb. apply Z.ltb_ge in Hb. apply Z.ltb_ge. apply list_elem_of_lookup_1 in Hq as [j Hj].
      destruct (Nat.lt_ge_cases j i) as [Hlt|Hge]; [|by eapply (sorted_nth id)].
      exfalso. by apply (Hbefore j q Hj Hlt).
  - apply list_find_None in E. rewrite Forall_forall in E. intros q Hq. apply Z.ltb_lt. specialize (E q Hq). unfold id in E. lia.
Qed.

Section Instance.
Context (e : Env) (fuel : nat) (f : JournalFile) (objs : list (Z * Z * Z)) (end_ : Z) (dch fch : Z -> list Z) (N : Z)
  (A : Z -> list (Z * Z)).
Hypothesis (He : mmap_ok e) (Hj : journal e f objs end_ dch fch N A) (Hdo : data_ordered f objs A)
  (H62 : (62 <= fuel)%nat) (Hfuel : end_ <= 16 * Z.of_nat fuel).

(** The entry [p] has the data of [d]: the data object that holds it lists [p]. *)
Definition entry_has (d : discrete) (p : Z) : bool :=
  match lookup_data e f dch (m_data d) with
  | Some c => bool_decide (p ∈ held f objs A c)
  | None => false
  end.

(** The handles that read the file. *)
Definition reading (g : JournalFile) : Prop := reads f g /\ caches_ok g objs A.

Let Har : arena f objs end_ := st_arena _ _ _ _ _ _ (j_store _ _ _ _ _ _ _ _ Hj).

Lemma lookup_live data c : lookup_data e f dch data = Some c -> c <> 0 /\ live objs c /\ exists s, (c, OBJECT_DATA, s) ∈ objs.
Proof.
  pose proof (j_store _ _ _ _ _ _ _ _ Hj) as Hst. pose proof (sd_table _ _ _ _ _ _ (st_data _ _ _ _ _ _ Hst)) as Ht.
  pose proof (ht_n _ _ _ _ _ _ _ Ht) as Hn. unfold lookup_data. intros H%List.find_some. destruct H as [Hin _].
  apply list_elem_of_In in Hin.
  destruct (chain_object f objs _ _ _ _ _ Ht _ _ ltac:(by apply Z.mod_pos_bound) Hin) as [s Hs].
  destruct (arena_object _ _ _ Har _ _ _ Hs) as (Ho & _). pose proof (obj_pos _ _ _ _ Ho).
  split; [lia|]. split; [by eapply live_object|by exists s].
Qed.

Lemma live_above c : c <> 0 -> live objs c -> 240 <= c.
Proof.
  intros Hc Hl. destruct (live_data _ _ Hc Hl) as [s Hs].
  apply (arena_object _ _ _ (st_arena _ _ _ _ _ _ (j_store _ _ _ _ _ _ _ _ Hj)) _ _ _ Hs).
Qed.

Lemma slot_above c : live objs c -> 17 <= slot c.
Proof. intros Hl. unfold slot. destruct (Z.eqb_spec c 0) as [|Hc]; [hlia|]. pose proof (live_above c Hc Hl). hlia. Qed.

Lemma counter_above c : live objs c -> 17 <= counter c.
Proof. intros Hl. unfold counter. destruct (Z.eqb_spec c 0) as [|Hc]; [hlia|]. pose proof (live_above c Hc Hl). hlia. Qed.

(** What the searches of a chain leave in the cache is right for all chains. *)
Lemma caches_kept g c cache :
  reading g -> live objs c ->
  cache_grows g (load64 (jf_mem g) (slot c)) (A c) (count g c - inline_entries c) (jf_chain_cache g) cache ->
  reading (set_cache g cache).
Proof.
  intros [Hr Hc] Hl Hgrow. split; [by apply reads_set_cache|]. intros ci Hin c' Hl' Hs.
  destruct (Hgrow ci Hin) as [Hold|[Hf Hci]].
  { exact (Hc ci Hold c' Hl' Hs). }
  change (load64 (jf_mem g) (slot c') = ci_first ci) in Hs. rewrite Hf in Hs.
  assert (load64 (jf_mem f) (slot c) = load64 (jf_mem f) (slot c')) as Eslot by (rewrite <- !(reads_load64 f g Hr) by (by apply slot_above); congruence).
  destruct (decide (c' = c)) as [->|Hne]; [exact Hci|exfalso].
  destruct Hci as (pre & k & suf & Ea & _).
  destruct (co_chain _ _ _ _ _ (j_ok _ _ _ _ _ _ _ _ Hj c Hl)) as [Hch _ _].
  destruct (co_chain _ _ _ _ _ (j_ok _ _ _ _ _ _ _ _ Hj c' Hl')) as [Hch' _ _].
  rewrite Eslot in Hch.
  destruct (A c) as [|[b kb] l] eqn:EA; [by destruct pre|]. destruct Hch as (Eb & Hca & _).
  pose proof (obj_pos _ _ _ _ (proj1 Hca)) as Hpos.
  destruct (A c') as [|[b' kb'] l'] eqn:EA'; [simpl in Hch'; lia|]. destruct Hch' as (Eb' & _).
  apply (j_apart _ _ _ _ _ _ _ _ Hj c c' b).
  - done.
  - rewrite EA. simpl. constructor.
  - rewrite EA'. assert (b = b') as -> by congruence. simpl. constructor.
Qed.

Lemma slot_data c : c <> 0 -> slot c = c + data_entry_array_offset /\ inline_entries c = 1 /\ counter c = c + data_n_entries.
Proof. intros H. unfold slot, inline_entries, counter. by rewrite (proj2 (Z.eqb_neq c 0)). Qed.

Lemma held_data c : c <> 0 -> live objs c ->
  held f objs A c = if count f c =? 0 then [] else load64 (jf_mem f) (c + data_entry_offset) :: take (Z.to_nat (count f c - 1)) (items f (A c)).
Proof. intros Hc Hl. rewrite held_live by done. unfold centries. by rewrite (proj2 (Z.eqb_neq c 0)). Qed.

(** The bisection of what a data object lists, downwards by any sorted key. *)
Lemma bisect_data_key_ok test_object key g c after : reading g -> c <> 0 -> live objs c ->
  StronglySorted (fun p q => key p <= key q) (held f objs A c) ->
  (forall p, p ∈ held f objs A c -> test_object p after g = (Ok (test_compare (key p) after), g)) ->
  exists cache, bisect_for_data e fuel test_object DIRECTION_DOWN after c g
    = (Ok (linear_search DIRECTION_DOWN key after (held f objs A c)), set_cache g cache) /\ reading (set_cache g cache).
Proof.
  intros Hg Hc Hl Hsorted Htest. pose proof Hg as [Hr Hcaches]. destruct (slot_data c Hc) as (Es & Ei & Ec). pose proof (live_above c Hc Hl).
  destruct (j_ok _ _ _ _ _ _ _ _ Hj c Hl) as [Hch Hcnt _]. rewrite Ei in Hcnt.
  assert (count g c = count f c) as Ecount by (unfold count; by rewrite (reads_load64 f g Hr) by (by apply counter_above)).
  pose proof (load64_range (jf_mem f) (counter c) (ar_mem _ _ _ Har)) as [Hc0 _]. fold (count f c) in Hc0.
  pose proof (echain_caps _ _ _ _ _ Har Hch) as Hcaps.
  assert (end_ < 2 ^ 63 + 8) as Hend.
  { pose proof (ar_end _ _ _ Har). pose proof (ar_arena _ _ _ Har). pose proof (ar_size _ _ _ Har).
    pose proof (objects_from_le _ _ _ _ (ar_objects _ _ _ Har)). lia. }
  assert (items g (A c) = items f (A c)) as Eitems by (eapply items_shows; [apply Hr|by eapply echain_above]).
  assert (forall p, p ∈ held f objs A c -> keyed test_object key after g p) as Hkeyed.
  { intros p Hp. destruct (do_entry _ _ _ Hdo p (do_file _ _ _ Hdo c p Hl Hp)) as [s Hs].
    destruct (arena_object _ _ _ Har _ _ _ Hs) as (Ho & ? & _). split.
    - exists s. eapply is_object_shows; [apply Hr|lia|exact Ho].
    - by apply Htest. }
  pose proof (held_data c Hc Hl) as Hh. set (xs := take (Z.to_nat (count f c - 1)) (items f (A c))) in *.
  assert (count f c <> 0 -> zlen (items f (A c)) = caps (A c)) as Hlen.
  { intros _. eapply items_length, (ec_chain _ _ _ _ Hch). }
  destruct (generic_array_bisect_plus_one_ok e fuel test_object DIRECTION_DOWN key after g
    (load64 (jf_mem g) (c + data_entry_offset)) (load64 (jf_mem g) (c + data_entry_array_offset)) (A c) (count f c))
    as (cache & Hrun & Hok & Hext).
  - done.
  - done.
  - eapply echain_fuel; [exact Har|exact Hch|done].
  - rewrite <- Es, (reads_load64 f g Hr) by (by apply slot_above). eapply chain_shows; [apply Hr|by eapply echain_above|apply Hch].
  - lia.
  - lia.
  - intros i j p q Hij Hjn Hp Hq. rewrite Eitems in Hp, Hq. unfold nthz in *.
    rewrite (proj2 (Z.eqb_neq (count f c) 0)) in Hh by lia. rewrite Hh in Hsorted.
    eapply (sorted_nth key _ (S (Z.to_nat i)) (S (Z.to_nat j))); [exact Hsorted|lia|simpl; unfold xs; rewrite lookup_take_lt by lia; exact Hp|].
    simpl. unfold xs. rewrite lookup_take_lt by lia. exact Hq.
  - intros Hn. apply Hkeyed. rewrite Hh, (proj2 (Z.eqb_neq (count f c) 0)) by done. rewrite (reads_load64 f g Hr) by hlia. constructor.
  - intros i p Hi Hp. rewrite Eitems in Hp. rewrite (proj2 (Z.eqb_neq (count f c) 0)) in Hh by lia.
    assert (xs !! Z.to_nat i = Some p) as Hx by (unfold xs; rewrite lookup_take_lt by lia; exact Hp).
    split.
    + apply Hkeyed. rewrite Hh. right. by eapply list_elem_of_lookup_2.
    + rewrite (reads_load64 f g Hr) by hlia. rewrite Hh in Hsorted.
      eapply (sorted_nth key _ 0 (S (Z.to_nat i))); [exact Hsorted|lia|done|exact Hx].
  - intros ci Hget. rewrite <- Es in Hget. pose proof (cache_get_first _ _ _ Hget) as Hfirst.
    apply List.find_some in Hget as [Hin _]. apply list_elem_of_In in Hin.
    pose proof (Hcaches ci Hin c Hl (eq_sym Hfirst)) as Hci. rewrite Ecount, Ei in Hci. exact Hci.
  - exists cache. split.
    + unfold bisect_for_data. run. fold (counter c). rewrite <- Ec. change (load64 (jf_mem g) (counter c)) with (count g c).
      rewrite Ecount, Hrun. do 2 f_equal. unfold search_plus_one. rewrite Hh, Eitems. simpl.
      destruct (Z.eqb_spec (count f c) 0); [done|]. by rewrite (reads_load64 f g Hr) by hlia.
    + eapply caches_kept; [exact Hg|exact Hl|]. rewrite Ecount, Ei, Es. apply cache_grows_of; [exact Hok|exact Hext].
Qed.

(** By offset. *)
Lemma bisect_data_ok g c after : reading g -> c <> 0 -> live objs c ->
  exists cache, bisect_for_data e fuel test_object_offset DIRECTION_DOWN after c g
    = (Ok (linear_search DIRECTION_DOWN id after (held f objs A c)), set_cache g cache) /\ reading (set_cache g cache).
Proof.
  intros Hg Hc Hl. apply bisect_data_key_ok; [done|done|done|by apply (do_sorted _ _ _ Hdo)|].
  intros p Hp. destruct (do_entry _ _ _ Hdo p (do_file _ _ _ Hdo c p Hl Hp)) as [s Hs].
  destruct (arena_object _ _ _ Har _ _ _ Hs) as (Ho & _). pose proof (obj_pos _ _ _ _ Ho). unfold test_object_offset. run. done.
Qed.

#[export] Instance journal_searchable :
  Searchable e fuel DIRECTION_DOWN reading entry_has (held f objs A 0).
Proof.
  split.
  - intros g d after Hg Hd Ha. cbn [next_for_match]. rewrite Hd.
    pose proof (j_store _ _ _ _ _ _ _ _ Hj) as Hst.
    assert (fuel_for fuel (data_buckets f) dch) as Hff.
    { eapply side_fuel; [exact Har|apply (st_data _ _ _ _ _ _ Hst)|done]. }
    rewrite (run_bind _ _ _ _ _ (find_data_reads f g (proj1 Hg) e fuel objs end_ dch fch (m_data d) He Hst Hff)).
    unfold entry_has. destruct (lookup_data e f dch (m_data d)) as [c|] eqn:El; [|by exists None, g].
    destruct (lookup_live _ _ El) as (Hc & Hl & s & Hs).
    destruct (arena_object _ _ _ (arena_reads f g (proj1 Hg) _ _ Har) _ _ _ Hs) as (Ho & _).
    destruct (bisect_data_ok g c after Hg Hc Hl) as (cache & Hrun & Hg').
    exists (fst <$> linear_search DIRECTION_DOWN id after (held f objs A c)), (set_cache g cache).
    split; [|split; [exact Hg'|]].
    + unfold journal_file_move_to_entry_by_offset_for_data, move_to_entry_for_data.
      rewrite bind_assoc. rewrite (run_bind _ _ _ _ _ (move_to_object_ok e _ _ _ _ _ He Ho (or_introl eq_refl))).
      by rewrite (run_bind _ _ _ _ _ Hrun).
    + eapply is_first_ext; [|apply linear_search_first, (do_sorted _ _ _ Hdo c Hl)].
      intros p. by rewrite bool_decide_eq_true.
  - intros g p [Hr _] Hp. destruct (do_entry _ _ _ Hdo p Hp) as [s Hs].
    destruct (arena_object _ _ _ (arena_reads f g Hr _ _ Har) _ _ _ Hs) as (Ho & _).
    by apply (move_to_object_ok e _ _ _ _ _ He Ho (or_introl eq_refl)).
  - intros d p. unfold entry_has. destruct (lookup_data e f dch (m_data d)) as [c|] eqn:El; [|done].
    intros Hp%bool_decide_eq_true. destruct (lookup_live _ _ El) as (_ & Hl & _). by apply (do_file _ _ _ Hdo c).
  - intros p Hp. destruct (do_entry _ _ _ Hdo p Hp) as [s Hs]. destruct (arena_object _ _ _ Har _ _ _ Hs) as (Ho & _).
    apply (obj_pos _ _ _ _ Ho).
Qed.

End Instance.

(** C10 next_for_match answers for the whole tree: on a well-formed journal file, in any
    handle that reads it, the downward search returns the first entry at or after an
    offset that matches, or none when no entry does.  A discrete term matches the
    entries that the data object of its data lists, an OR term the entries of one of its
    terms, an AND term those of all of them (and one without terms nothing).  The jumping
    of the AND terms ends within their number times the number of entries. *)
Theorem next_for_match_correct e fuel f objs end_ dch fch N A g m after :
  mmap_ok e -> journal e f objs end_ dch fch N A -> data_ordered f objs A ->
  (62 <= fuel)%nat -> end_ <= 16 * Z.of_nat fuel ->
  reading f objs A g -> Forall hashed (discretes m) -> (and_fuel (held f objs A 0) m <= fuel)%nat -> 0 <= after ->
  exists r g', next_for_match e fuel DIRECTION_DOWN m after g = (Ok r, g') /\ reading f objs A g'
    /\ is_first DIRECTION_DOWN (fun p => sat (entry_has e f objs dch A) m p = true) after r.
Proof.
  intros He Hj Hdo H62 Hfuel Hg Hh Haf Ha.
  pose proof (journal_searchable e fuel f objs end_ dch fch N A He Hj Hdo H62 Hfuel) as HS.
  by apply (next_for_match_ok e fuel DIRECTION_DOWN (reading f objs A) (entry_has e f objs dch A) (held f objs A 0)).
Qed.

(** * The order is kept *)

(** A successful journal_file_append_entry keeps [data_ordered]. *)
Lemma data_ordered_append e f f' objs objs' end_ A A' ts its its' xor p seqnum :
  arena f objs end_ -> data_ordered f objs A -> contents_kept e f objs f' objs' -> end_ <= p ->
  new_entry f f' objs' p ts xor its' seqnum ->
  (forall c, live objs' c -> held f' objs' A' c = held f objs A c ++ gain_one 0 p c ++ replicate (occurrences c its) p) ->
  data_ordered f' objs' A'.
Proof.
  intros Har Hdo Hck Hp (s & Hin & _) Hheld.
  assert (forall c q, live objs' c -> q ∈ held f' objs' A' c -> q ∈ held f objs A c \/ q = p) as Hcase.
  { intros c q Hl. rewrite Hheld by done. unfold gain_one. intros [Hq|[Hq|Hq]%elem_of_app]%elem_of_app; [by left|right..].
    - case_decide; [by apply list_elem_of_singleton in Hq|by apply not_elem_of_nil in Hq].
    - by apply elem_of_replicate in Hq as [-> _]. }
  assert (forall c q, q ∈ held f objs A c -> live objs c) as Hlive.
  { intros c q. unfold held. case_decide; [done|]. by intros ?%not_elem_of_nil. }
  assert (forall c q, q ∈ held f objs A c -> q ∈ held f objs A 0) as Hfile.
  { intros c q Hq. eapply (do_file _ _ _ Hdo c); [by eapply Hlive|done]. }
  assert (held f' objs' A' 0 = held f objs A 0 ++ [p] ++ replicate (occurrences 0 its) p) as E0.
  { rewrite (Hheld 0 (live_file _)). unfold gain_one. by rewrite decide_True. }
  split.
  - intros q [Hq| ->]%(Hcase 0 q (live_file _)); [|eexists; exact Hin].
    destruct (do_entry _ _ _ Hdo q Hq) as [r Hr]. exists r. by apply (ck_in _ _ _ _ _ Hck).
  - intros c q Hl Hq. rewrite E0. apply elem_of_app. destruct (Hcase c q Hl Hq) as [Ho| ->]; [left; by eapply Hfile|].
    right. constructor.
  - intros c Hl. rewrite Hheld by done. apply StronglySorted_app_2.
    + intros a b Ha Hb. assert (b = p) as ->.
      { unfold gain_one in Hb. apply elem_of_app in Hb as [Hb|Hb].
        - case_decide; [by apply list_elem_of_singleton in Hb|by apply not_elem_of_nil in Hb].
        - by apply elem_of_replicate in Hb as [-> _]. }
      destruct (do_entry _ _ _ Hdo a (Hfile _ _ Ha)) as [r Hr].
      destruct (arena_object _ _ _ Har _ _ _ Hr) as (Hob & _ & ?). pose proof (object_ALIGN64 _ _ _ _ Hob). lia.
    + destruct (decide (live objs c)) as [Hlc|Hlc]; [by apply Hdo|]. unfold held. rewrite decide_False by done. constructor.
    + unfold gain_one. generalize (occurrences c its) as k. intros k.
      assert (forall x, x ∈ (if decide (c = 0) then [p] else []) ++ replicate k p -> x = p) as Hall.
      { intros x [Hx|Hx]%elem_of_app; [|by apply elem_of_replicate in Hx as [-> _]].
        case_decide; [by apply list_elem_of_singleton in Hx|by apply not_elem_of_nil in Hx]. }
      revert Hall. generalize ((if decide (c = 0) then [p] else []) ++ replicate k p). clear. intros l Hall.
      induction l as [|x l IH]; constructor; [apply IH; intros y Hy; apply Hall; by right|].
      apply Forall_forall. intros y Hy. rewrite (Hall x (list_elem_of_here _ _)), (Hall y (list_elem_of_further _ _ _ Hy)). lia.
Qed.

Lemma fresh_data_ordered : data_ordered fresh_file fresh_objs no_arrays.
Proof.
  assert (forall c, held fresh_file fresh_objs no_arrays c = []) as E.
  { intros c. unfold held. case_decide as Hl; [|done]. destruct (decide (c = 0)) as [->|Hc]; [vm_compute; reflexivity|].
    destruct (live_data _ _ Hc Hl) as [s Hs]. unfold fresh_objs in Hs.
    apply elem_of_cons in Hs as [Hs|Hs]; [discriminate Hs|]. apply list_elem_of_singleton in Hs. discriminate Hs. }
  split; intros; rewrite ?E in *; try constructor; by (exfalso; eapply not_elem_of_nil).
Qed.

(** Both data of the entry appended to the fresh journal, one of them or another one. *)
Definition sample_match : Match :=
  let d data := MATCH_DISCRETE (mkDiscrete (data_hash64 data) data) in
  MATCH_AND_TERM [MATCH_OR_TERM [d [68]; d sample_data2]; MATCH_OR_TERM [d sample_data]].

(** The file itself, with an empty cache. *)
Lemma reading_self e f objs end_ dch fch N A : journal e f objs end_ dch fch N A -> reading f objs A (set_cache f []).
Proof.
  intros Hj. pose proof (st_arena _ _ _ _ _ _ (j_store _ _ _ _ _ _ _ _ Hj)) as Har.
  pose proof (ar_arena _ _ _ Har). pose proof (ar_size _ _ _ Har).
  split; [split; [by destruct (shows_self _ _ _ _ _ _ _ _ Hj)|cbn; lia|done]|]. intros ci Hci. by apply not_elem_of_nil in Hci.
Qed.

Lemma sample_match_hashed : Forall hashed (discretes sample_match).
Proof. repeat constructor. Qed.

Lemma enough_fuel end_ k : exists n, (62 <= n)%nat /\ end_ <= 16 * Z.of_nat n /\ (k <= n)%nat.
Proof. exists (62 + Z.to_nat end_ + k)%nat. lia. Qed.

(** The fresh journal with an entry of two data. *)
Lemma sample_appended :
  exists f' objs' end' dch' fch' A',
    journal_file_append_entry sample_env 100 (Some (50, 5)) sample_iovec false fresh_file = (Ok 496, f')
    /\ journal sample_env f' objs' end' dch' fch' 4 A' /\ ordered f' objs' A' /\ data_ordered f' objs' A'
    /\ held f' objs' A' 0 = [496].
Proof.
  destruct (append_entry_ok sample_env 100 fresh_file fresh_objs 304 no_chains no_chains 0 no_arrays
    (Some (50, 5)) sample_iovec false sample_mmap sample_page ltac:(intros src b H; discriminate H) fresh_journal
    sample_iovec_fits)
    as (r & f' & objs' & end' & dch' & fch' & A' & gain & Hrun & Hj & Hck & Hheld & Hg & Hr).
  - unfold is_u64. simpl. lia.
  - unfold is_u64. simpl. lia.
  - vm_compute. reflexivity.
  - vm_compute. split; [discriminate|reflexivity].
  - apply sample_entry_fits.
  - assert (r = Ok 496) as ->.
    { change r with (r, f').1. rewrite <- Hrun. vm_compute. reflexivity. }
    destruct Hr as (its & xor & Hnew & _ & Hgain).
    pose proof (st_arena _ _ _ _ _ _ (j_store _ _ _ _ _ _ _ _ fresh_journal)) as Har.
    assert (held fresh_file fresh_objs no_arrays 0 = []) as E by (vm_compute; reflexivity).
    assert (gain 0 = [496]) as Eg.
    { destruct Hg as [[Hg _]|(q & its' & xor' & _ & Hg & _)]; rewrite Hg; rewrite Hgain in Hg; unfold gain_one in Hg;
        rewrite decide_True in Hg by reflexivity; [discriminate Hg|]. by injection Hg as ->. }
    assert (held f' objs' A' 0 = [496]) as E' by (rewrite (Hheld 0 (live_file _)), E, Eg; reflexivity).
    exists f', objs', end', dch', fch', A'. split; [exact Hrun|]. split; [exact Hj|]. split; [|split; [|exact E']].
    + apply (ordered_snoc sample_env fresh_file f' fresh_objs objs' 304 no_arrays A' Har fresh_ordered Hck 496 (50, 5) xor its false);
        [by rewrite E', E|lia|exact Hnew].
    + apply (data_ordered_append sample_env fresh_file f' fresh_objs objs' 304 no_arrays A' (50, 5) its its xor 496 false
        Har fresh_data_ordered Hck ltac:(lia) Hnew).
      intros c Hl. by rewrite Hheld, Hgain.
Qed.

Lemma next_for_match_witness :
  exists n f' objs' dch' A' r g',
    journal_file_append_entry sample_env 100 (Some (50, 5)) sample_iovec false fresh_file = (Ok 496, f')
    /\ next_for_match sample_env n DIRECTION_DOWN sample_match 0 (set_cache f' []) = (Ok r, g')
    /\ is_first DIRECTION_DOWN (fun p => sat (entry_has sample_env f' objs' dch' A') sample_match p = true) 0 r.
Proof.
  destruct sample_appended as (f' & objs' & end' & dch' & fch' & A' & Hrun & Hj & _ & Hdo & _).
  destruct (enough_fuel end' (and_fuel (held f' objs' A' 0) sample_match)) as (n & H62 & Hend & Hn).
  destruct (next_for_match_correct sample_env n f' objs' end' dch' fch' _ A' (set_cache f' []) sample_match 0
    sample_mmap Hj Hdo H62 Hend (reading_self _ _ _ _ _ _ _ _ Hj) sample_match_hashed Hn (Z.le_refl 0)) as (r & g' & Hrun' & _ & Hfirst).
  exists n, f', objs', dch', A', r, g'. split; [exact Hrun|]. split; [exact Hrun'|exact Hfirst].
Defined.
