(* ===== verification/SdJournal.v ===== *)
(** lib/sd-journal.c, the handle: the location, the order of entries of different
    files, sd_journal_next and sd_journal_previous over all files, seeking, and the times
    of the current entry. *)
From S2P Require Import Prelude Lookup3 Uuid Memory CString Split JournalDef JournalFile JournalSeek Match.

Definition ECHILD := 10.
Definition EADDRNOTAVAIL := 99.
Definition ESTALE := 116.
Definition DEFAULT_DATA_THRESHOLD := 64 * 1024.

(** A file of the handle. *)
Record FileState := mkFileState {
  fs_path : list Z;
  fs_file : JournalFile;
  fs_current_offset : Z;
  fs_last_direction : direction_t }.

(** [j_files] is the hash map by path, in its order; [j_current_file] and
    [j_unique_file] are the paths of the files pointed to. *)
Record sd_journal := mkSdJournal {
  j_files : list FileState;
  j_current_location : Location;
  j_current_file : option (list Z);
  j_current_field : Z;
  j_levels : Levels;
  j_original_pid : Z;
  j_current_invalidate_counter : Z;
  j_last_invalidate_counter : Z;
  j_unique_field : option (list Z);
  j_unique_file : option (list Z);
  j_unique_offset : Z;
  j_data_threshold : Z }.

Definition set_files (j : sd_journal) (fs : list FileState) : sd_journal :=
  mkSdJournal fs (j_current_location j) (j_current_file j) (j_current_field j) (j_levels j) (j_original_pid j)
    (j_current_invalidate_counter j) (j_last_invalidate_counter j) (j_unique_field j) (j_unique_file j)
    (j_unique_offset j) (j_data_threshold j).
Definition set_current (j : sd_journal) (f : option (list Z)) (field : Z) : sd_journal :=
  mkSdJournal (j_files j) (j_current_location j) f field (j_levels j) (j_original_pid j)
    (j_current_invalidate_counter j) (j_last_invalidate_counter j) (j_unique_field j) (j_unique_file j)
    (j_unique_offset j) (j_data_threshold j).
Definition set_current_location (j : sd_journal) (l : Location) : sd_journal :=
  mkSdJournal (j_files j) l (j_current_file j) (j_current_field j) (j_levels j) (j_original_pid j)
    (j_current_invalidate_counter j) (j_last_invalidate_counter j) (j_unique_field j) (j_unique_file j)
    (j_unique_offset j) (j_data_threshold j).
Definition set_levels (j : sd_journal) (l : Levels) : sd_journal :=
  mkSdJournal (j_files j) (j_current_location j) (j_current_file j) (j_current_field j) l (j_original_pid j)
    (j_current_invalidate_counter j) (j_last_invalidate_counter j) (j_unique_field j) (j_unique_file j)
    (j_unique_offset j) (j_data_threshold j).
Definition set_invalidate (j : sd_journal) (current last : Z) : sd_journal :=
  mkSdJournal (j_files j) (j_current_location j) (j_current_file j) (j_current_field j) (j_levels j) (j_original_pid j)
    current last (j_unique_field j) (j_unique_file j) (j_unique_offset j) (j_data_threshold j).
Definition set_unique (j : sd_journal) (field file : option (list Z)) (offset : Z) : sd_journal :=
  mkSdJournal (j_files j) (j_current_location j) (j_current_file j) (j_current_field j) (j_levels j) (j_original_pid j)
    (j_current_invalidate_counter j) (j_last_invalidate_counter j) field file offset (j_data_threshold j).
Definition set_threshold (j : sd_journal) (sz : Z) : sd_journal :=
  mkSdJournal (j_files j) (j_current_location j) (j_current_file j) (j_current_field j) (j_levels j) (j_original_pid j)
    (j_current_invalidate_counter j) (j_last_invalidate_counter j) (j_unique_field j) (j_unique_file j)
    (j_unique_offset j) sz.

Definition set_position (fs : FileState) (offset : Z) (d : direction_t) : FileState :=
  mkFileState (fs_path fs) (fs_file fs) offset d.
Definition set_handle (fs : FileState) (f : JournalFile) : FileState :=
  mkFileState (fs_path fs) f (fs_current_offset fs) (fs_last_direction fs).

Definition journal_new (getpid : Z) : sd_journal :=
  mkSdJournal [] zero_location None 0 no_matches getpid 0 0 None None 0 DEFAULT_DATA_THRESHOLD.

(** * The monad of the handle *)

Definition J (A : Type) : Type := sd_journal -> outcome A * sd_journal.

Definition jret {A} (a : A) : J A := fun j => (Ok a, j).
Definition jbind {A B} (x : J A) (k : A -> J B) : J B := fun j =>
  match x j with
  | (Ok a, j) => k a j
  | (Err e, j) => (Err e, j)
  | (Crash, j) => (Crash, j)
  | (NoFuel, j) => (NoFuel, j)
  end.
Definition jget : J sd_journal := fun j => (Ok j, j).
Definition jmodify (g : sd_journal -> sd_journal) : J unit := fun j => (Ok tt, g j).
Definition jfail_if (c : bool) (e : Z) : J unit := fun j => if c then (Err e, j) else (Ok tt, j).

Notation "x <~ m ;; k" := (jbind m (fun x => k))
  (at level 100, m at next level, right associativity) : journal_scope.
Notation "m ~;; k" := (jbind m (fun _ => k))
  (at level 100, right associativity) : journal_scope.

Definition find_file (p : list Z) (fs : list FileState) : option FileState :=
  List.find (fun f => bool_decide (fs_path f = p)) fs.
Definition update_file (p : list Z) (g : FileState -> FileState) (fs : list FileState) : list FileState :=
  map (fun f => if bool_decide (fs_path f = p) then g f else f) fs.

(** A call on the file at a path: the error it returns is a result. *)
Definition on_file {A} (p : list Z) (x : M A) : J (A + Z) := fun j =>
  match find_file p (j_files j) with
  | None => (Crash, j)
  | Some fs =>
      let '(r, f) := x (fs_file fs) in
      let j := set_files j (update_file p (fun fs => set_handle fs f) (j_files j)) in
      match r with
      | Ok a => (Ok (inl a), j)
      | Err e => (Ok (inr e), j)
      | Crash => (Crash, j)
      | NoFuel => (NoFuel, j)
      end
  end.

(** [if (r < 0) return r;] *)
Definition on_file_ {A} (p : list Z) (x : M A) : J A :=
  r <~ on_file p x ;; match r with inl a => jret a | inr e => fun j => (Err e, j) end.

(** * Entries *)

(** The fixed part of an entry object. *)
Record EntryHead := mkEntryHead {
  eh_seqnum : Z; eh_realtime : Z; eh_monotonic : Z; eh_boot_id : list Z; eh_xor_hash : Z }.

Definition entry_head (o : Z) : M EntryHead :=
  seqnum <- rd (o + entry_seqnum) ;;
  realtime <- rd (o + entry_realtime) ;;
  monotonic <- rd (o + entry_monotonic) ;;
  boot_id <- rdbytes (o + entry_boot_id) 16 ;;
  xor_hash <- rd (o + entry_xor_hash) ;;
  ret (mkEntryHead seqnum realtime monotonic boot_id xor_hash).

(** The two comparisons [if (a < b) return -1; if (a > b) return 1;] and what follows. *)
Definition compare_or (a b k : Z) : Z := if a <? b then -1 else if b <? a then 1 else k.

(** compare_entry_order when both entries can be read; [same]: the files have the same
    seqnum_id. *)
Definition compare_entries (same : bool) (ao bo : EntryHead) : Z :=
  if same_uuid (eh_boot_id ao) (eh_boot_id bo) && (eh_monotonic ao =? eh_monotonic bo)
     && (eh_realtime ao =? eh_realtime bo) && (eh_xor_hash ao =? eh_xor_hash bo) then 0
  else
    let by_time :=
      let by_realtime :=
        compare_or (eh_realtime ao) (eh_realtime bo) (compare_or (eh_xor_hash ao) (eh_xor_hash bo) 0) in
      if same_uuid (eh_boot_id ao) (eh_boot_id bo) then compare_or (eh_monotonic ao) (eh_monotonic bo) by_realtime
      else by_realtime in
    if same then compare_or (eh_seqnum ao) (eh_seqnum bo) by_time else by_time.

Definition compare_with_location (seqnum_id : list Z) (ao : EntryHead) (l : Location) : Z :=
  if l_monotonic_set l && same_uuid (eh_boot_id ao) (l_boot_id l) && l_realtime_set l
     && (eh_realtime ao =? l_realtime l) && l_xor_hash_set l && (eh_xor_hash ao =? l_xor_hash l) then 0
  else
    let by_xor_hash := if l_xor_hash_set l then compare_or (eh_xor_hash ao) (l_xor_hash l) 0 else 0 in
    let by_realtime := if l_realtime_set l then compare_or (eh_realtime ao) (l_realtime l) by_xor_hash else by_xor_hash in
    let by_monotonic :=
      if l_monotonic_set l && same_uuid (eh_boot_id ao) (l_boot_id l)
      then compare_or (eh_monotonic ao) (l_monotonic l) by_realtime else by_realtime in
    if l_seqnum_set l && same_uuid seqnum_id (l_seqnum_id l)
    then compare_or (eh_seqnum ao) (l_seqnum l) by_monotonic else by_monotonic.

(** strcmp, its sign *)
Fixpoint strcmp (a b : list Z) : Z :=
  match a, b with
  | [], [] => 0
  | [], _ => -1
  | _, [] => 1
  | c :: a, d :: b => if c <? d then -1 else if d <? c then 1 else strcmp a b
  end.

(** * Location *)

Definition detach_location (j : sd_journal) : sd_journal :=
  set_files (set_current j None 0)
    (map (fun f => mkFileState (fs_path f) (fs_file f) 0 (fs_last_direction f)) (j_files j)).

Definition reset_location (j : sd_journal) : sd_journal := set_current_location (detach_location j) zero_location.

Definition init_location (type : LocationType) (o : EntryHead) (seqnum_id : list Z) : Location :=
  mkLocation type true true true true (eh_seqnum o) seqnum_id (eh_realtime o) (eh_monotonic o) (eh_boot_id o) (eh_xor_hash o).

Definition set_location (j : sd_journal) (type : LocationType) (f seqnum_id : list Z) (o : EntryHead)
    (direction : direction_t) (offset : Z) : sd_journal :=
  let j := set_current (set_current_location j (init_location type o seqnum_id)) (Some f) 0 in
  set_files j (update_file f (fun fs => set_position fs offset direction) (j_files j)).

Definition remove_file_real (f : list Z) (j : sd_journal) : sd_journal :=
  let j := set_files j (List.filter (fun fs => negb (bool_decide (fs_path fs = f))) (j_files j)) in
  let j := if bool_decide (j_current_file j = Some f) then set_current j None 0 else j in
  let j := if bool_decide (j_unique_file j = Some f) then set_unique j (j_unique_field j) None 0 else j in
  set_invalidate j (u32 (j_current_invalidate_counter j + 1)) (j_last_invalidate_counter j).

Section Next.
Context (e : Env) (fuel : nat) (getpid : Z).

(** assert_return(!journal_pid_changed(j), -ECHILD) *)
Definition check_pid : J unit := fun j => jfail_if (negb (j_original_pid j =? getpid)) ECHILD j.

(** The loop of next_beyond_location from the entry at [cp] on. *)
Fixpoint beyond_loop (n : nat) (direction : direction_t) (levels : Levels) (l : Location) (cp : Z) : M (option Z) :=
  found <- (if bool_decide (l_type l = LOCATION_DISCRETE) then
              (o <- entry_head cp ;;
               id <- file_seqnum_id ;;
               let k := compare_with_location id o l in
               ret (match direction with DIRECTION_DOWN => 0 <? k | DIRECTION_UP => k <? 0 end))
            else ret true) ;;
  if (found : bool) then ret (Some cp) else
  match n with
  | O => nofuel
  | S n =>
      r <- next_with_matches e fuel direction levels cp cp ;;
      match r with None => ret None | Some cp => beyond_loop n direction levels l cp end
  end.

Definition next_beyond_location (direction : direction_t) (levels : Levels) (l : Location)
    (current_offset : Z) (last_direction : direction_t) : M (option Z) :=
  r <- (if bool_decide (last_direction = direction) && (0 <? current_offset) then
          (c <- journal_file_move_to_object e OBJECT_ENTRY current_offset ;;
           next_with_matches e fuel direction levels c current_offset)
        else find_location_with_matches e fuel direction l levels) ;;
  match r with
  | None => ret None
  | Some cp => beyond_loop fuel direction levels l cp
  end.

(** [ao]: the entry of the file [a], with the seqnum_id of the file. *)
Definition compare_entry_order (a ida : list Z) (ao : EntryHead) (b : list Z) (bp : Z) : J Z :=
  r <~ on_file b (o <- journal_file_move_to_object e OBJECT_ENTRY bp ;;
                  bo <- entry_head o ;; idb <- file_seqnum_id ;; ret (bo, idb)) ;;
  match r with
  | inr _ => jret (strcmp a b)
  | inl (bo, idb) => jret (compare_entries (same_uuid ida idb) ao bo)
  end.

(** The loop over the files: the file and offset of the earliest entry so far. *)
Fixpoint next_file_loop (direction : direction_t) (files : list (list Z)) (new : option (list Z * Z))
  : J (option (list Z * Z)) :=
  match files with
  | [] => jret new
  | f :: files =>
      j <~ jget ;;
      match find_file f (j_files j) with
      | None => fun j => (Crash, j)
      | Some fs =>
          r <~ on_file f (next_beyond_location direction (j_levels j) (j_current_location j)
                            (fs_current_offset fs) (fs_last_direction fs)) ;;
          match r with
          | inr _ => jmodify (remove_file_real f) ~;; next_file_loop direction files new
          | inl None => next_file_loop direction files new
          | inl (Some p) =>
              found <~ match new with
                       | None => jret true
                       | Some (nf, no) =>
                           x <~ on_file_ f (o <- entry_head p ;; id <- file_seqnum_id ;; ret (o, id)) ;;
                           k <~ compare_entry_order f x.2 x.1 nf no ;;
                           jret (match direction with DIRECTION_DOWN => k <? 0 | DIRECTION_UP => 0 <? k end)
                       end ;;
              next_file_loop direction files (if (found : bool) then Some (f, p) else new)
          end
      end
  end.

(** 1 when there is an entry, 0 at the end. *)
Definition real_journal_next (direction : direction_t) : J Z :=
  check_pid ~;;
  j <~ jget ;;
  new <~ next_file_loop direction (map fs_path (j_files j)) None ;;
  match new with
  | None => jret 0
  | Some (f, p) =>
      x <~ on_file_ f (o <- journal_file_move_to_object e OBJECT_ENTRY p ;;
                       h <- entry_head o ;; id <- file_seqnum_id ;; ret (h, id)) ;;
      jmodify (fun j => set_location j LOCATION_DISCRETE f x.2 x.1 direction p) ~;; jret 1
  end.

Definition sd_journal_next : J Z := real_journal_next DIRECTION_DOWN.
Definition sd_journal_previous : J Z := real_journal_next DIRECTION_UP.

(** The do loop; [n] is the number of steps still to make. *)
Fixpoint skip_loop (direction : direction_t) (n : nat) (c : Z) : J Z :=
  match n with
  | O => jret c
  | S n =>
      r <~ real_journal_next direction ;;
      if r =? 0 then jret c else skip_loop direction n (c + 1)
  end.

Definition real_journal_next_skip (direction : direction_t) (skip : Z) : J Z :=
  check_pid ~;;
  if skip =? 0 then
    (j <~ jget ;;
     if negb (bool_decide (l_type (j_current_location j) = LOCATION_DISCRETE)) then real_journal_next direction
     else jret 0)
  else skip_loop direction (Z.to_nat skip) 0.

Definition sd_journal_next_skip (skip : Z) : J Z := real_journal_next_skip DIRECTION_DOWN skip.
Definition sd_journal_previous_skip (skip : Z) : J Z := real_journal_next_skip DIRECTION_UP skip.

(** ** Matches on the handle *)

Definition sd_journal_add_match (data : list Z) (size : Z) : J Z :=
  check_pid ~;;
  fun j => match levels_add_match (j_levels j) data size with
           | Ok (l, detach) =>
               let j := set_levels j l in (Ok 0, if (detach : bool) then detach_location j else j)
           | Err x => (Err x, j)
           | Crash => (Crash, j)
           | NoFuel => (NoFuel, j)
           end.

Definition sd_journal_add_conjunction : J Z :=
  check_pid ~;; jmodify (fun j => set_levels j (levels_add_conjunction (j_levels j))) ~;; jret 0.
Definition sd_journal_add_disjunction : J Z :=
  check_pid ~;; jmodify (fun j => set_levels j (levels_add_disjunction (j_levels j))) ~;; jret 0.
Definition sd_journal_flush_matches : J unit :=
  jmodify (fun j => detach_location (set_levels j (levels_flush_matches (j_levels j)))).

(** ** Seeking *)

Definition sd_journal_seek_monotonic_usec (boot_id : list Z) (usec : Z) : J Z :=
  check_pid ~;;
  jmodify (fun j => set_current_location (reset_location j)
    (mkLocation LOCATION_SEEK false false true false 0 (replicate 16 0) 0 usec boot_id 0)) ~;; jret 0.

Definition sd_journal_seek_realtime_usec (usec : Z) : J Z :=
  check_pid ~;;
  jmodify (fun j => set_current_location (reset_location j)
    (mkLocation LOCATION_SEEK false true false false 0 (replicate 16 0) usec 0 (replicate 16 0) 0)) ~;; jret 0.

Definition with_type (type : LocationType) (l : Location) : Location :=
  mkLocation type (l_seqnum_set l) (l_realtime_set l) (l_monotonic_set l) (l_xor_hash_set l) (l_seqnum l)
    (l_seqnum_id l) (l_realtime l) (l_monotonic l) (l_boot_id l) (l_xor_hash l).

Definition sd_journal_seek_head : J Z :=
  check_pid ~;; jmodify (fun j => set_current_location (reset_location j) (with_type LOCATION_HEAD zero_location)) ~;; jret 0.
Definition sd_journal_seek_tail : J Z :=
  check_pid ~;; jmodify (fun j => set_current_location (reset_location j) (with_type LOCATION_TAIL zero_location)) ~;; jret 0.

(** The int that a call returns. *)
Definition returned (x : J Z) : J Z := fun j =>
  match x j with (Err e, j) => (Ok (- e), j) | r => r end.

(** The loop of SD_JOURNAL_FOREACH, with the files and offsets of the entries it visits; [n] bounds
    the number of turns. *)
Fixpoint foreach_next (n : nat) (direction : direction_t) : J (list (list Z * Z)) :=
  match n with
  | O => fun j => (NoFuel, j)
  | S n =>
      r <~ returned (real_journal_next direction) ;;
      if r <=? 0 then jret [] else
      j <~ jget ;;
      match j_current_file j with
      | None => fun j => (Crash, j)
      | Some f =>
          match find_file f (j_files j) with
          | None => fun j => (Crash, j)
          | Some fs => rest <~ foreach_next n direction ;; jret ((f, fs_current_offset fs) :: rest)
          end
      end
  end.

Definition SD_JOURNAL_FOREACH (n : nat) : J (list (list Z * Z)) :=
  r <~ returned sd_journal_seek_head ;; if 0 <=? r then foreach_next n DIRECTION_DOWN else jret [].
Definition SD_JOURNAL_FOREACH_BACKWARDS (n : nat) : J (list (list Z * Z)) :=
  r <~ returned sd_journal_seek_tail ;; if 0 <=? r then foreach_next n DIRECTION_UP else jret [].

(** ** The current entry *)

(** The file and the offset of the current entry. *)
Definition current_entry : J (list Z * Z) :=
  j <~ jget ;;
  match j_current_file j with
  | None => fun j => (Err EADDRNOTAVAIL, j)
  | Some f =>
      match find_file f (j_files j) with
      | None => fun j => (Crash, j)
      | Some fs =>
          jfail_if (fs_current_offset fs <=? 0) EADDRNOTAVAIL ~;; jret (f, fs_current_offset fs)
      end
  end.

Definition current_head : J (EntryHead * list Z) :=
  c <~ current_entry ;;
  on_file_ c.1 (o <- journal_file_move_to_object e OBJECT_ENTRY c.2 ;;
                h <- entry_head o ;; id <- file_seqnum_id ;; ret (h, id)).

Definition sd_journal_get_realtime_usec : J Z :=
  check_pid ~;; x <~ current_head ;; jret (eh_realtime x.1).

(** [want_boot_id]: ret_boot_id is not NULL; [boot]: what boot_get_id yields, or errno. *)
Definition sd_journal_get_monotonic_usec (want_boot_id : bool) (boot : list Z + Z) : J (Z * list Z) :=
  check_pid ~;; x <~ current_head ;;
  (if want_boot_id then jret tt
   else match boot with
        | inr errno => fun j => (Err errno, j)
        | inl id => jfail_if (negb (same_uuid id (eh_boot_id x.1))) ESTALE
        end) ~;;
  jret (eh_monotonic x.1, eh_boot_id x.1).

Definition sd_journal_set_data_threshold (sz : Z) : J Z :=
  check_pid ~;; jmodify (fun j => set_threshold j sz) ~;; jret 0.
Definition sd_journal_get_data_threshold : J Z :=
  check_pid ~;; j <~ jget ;; jret (j_data_threshold j).

Definition sd_journal_restart_data : J unit := jmodify (fun j => set_current j (j_current_file j) 0).

(** SD_JOURNAL_INVALIDATE or SD_JOURNAL_APPEND *)
Definition SD_JOURNAL_NOP := 0.
Definition SD_JOURNAL_APPEND := 1.
Definition SD_JOURNAL_INVALIDATE := 2.
Definition determine_change : J Z := fun j =>
  (Ok (if negb (j_current_invalidate_counter j =? j_last_invalidate_counter j) then SD_JOURNAL_INVALIDATE
       else SD_JOURNAL_APPEND),
   set_invalidate j (j_current_invalidate_counter j) (j_current_invalidate_counter j)).

End Next.
