(* ===== verification/MatchTree.v ===== *)
(** The meaning of the matches of a handle: calls of sd_journal_add_match,
    sd_journal_add_disjunction and sd_journal_add_conjunction build a tree that is
    satisfied by the entries the documentation promises. *)
From S2P Require Import Prelude Lookup3 Uuid Memory CString Split JournalDef JournalFile JournalSeek Match MatchProofs SdJournal.

(** * What is promised *)

Inductive match_op := Add (data : list Z) | Disjunction | Conjunction.

(** The calls read as a conjunction of disjunctions of groups of matches, the latest
    first; the first group of the first disjunction is the one that grows. *)
Definition clauses_step (cs : list (list (list (list Z)))) (op : match_op) : list (list (list (list Z))) :=
  match op, cs with
  | Add d, (g :: c) :: cs => ((d :: g) :: c) :: cs
  | Disjunction, c :: cs => ([] :: c) :: cs
  | Conjunction, cs => [[]] :: cs
  | _, cs => cs
  end.

Definition clauses (ops : list match_op) : list (list (list (list Z))) := fold_left clauses_step ops [[[]]].

(** What is before the "=". *)
Fixpoint field_of (data : list Z) : list Z :=
  match data with [] => [] | c :: data => if c =? 61 then [] else c :: field_of data end.

Definition empty_group (g : list (list Z)) : bool := match g with [] => true | _ => false end.

(** Matches of the same field are alternatives, those of different fields all apply. *)
Definition group_sat (has : list Z -> bool) (g : list (list Z)) : bool :=
  forallb (fun d => existsb (fun d' => bool_decide (field_of d' = field_of d) && has d') g) g.

(** Groups without matches do not count, nor do disjunctions of none but those. *)
Definition clauses_sat (has : list Z -> bool) (cs : list (list (list (list Z)))) : bool :=
  forallb (fun c => forallb empty_group c || existsb (fun g => negb (empty_group g) && group_sat has g) c) cs.

(** * The calls on a handle *)

Definition run_op (getpid : Z) (op : match_op) : J Z :=
  match op with
  | Add data => sd_journal_add_match getpid data (zlen data)
  | Disjunction => sd_journal_add_disjunction getpid
  | Conjunction => sd_journal_add_conjunction getpid
  end.

Fixpoint run_ops (getpid : Z) (ops : list match_op) : J Z :=
  match ops with
  | [] => jret 0
  | op :: ops => jbind (run_op getpid op) (fun _ => run_ops getpid ops)
  end.

Definition valid_op (op : match_op) : Prop :=
  match op with Add data => match_is_valid data = true | _ => True end.

(** * Fields *)

Lemma valid_name_eq first data : valid_name first data = true -> 61 ∈ data.
Proof.
  revert first. induction data as [|c data IH]; intros first H; simpl in H; [done|].
  destruct (Z.eqb_spec c 61) as [->|]; [constructor|]. apply elem_of_cons. right.
  destruct (c =? 95); [eauto|]. destruct (is_upper c); [eauto|]. destruct (is_digit c); [eauto|done].
Qed.

Lemma valid_eq data : match_is_valid data = true -> 61 ∈ data.
Proof.
  unfold match_is_valid. destruct (zlen data <? 2); [done|]. destruct (bool_decide _); [done|]. apply valid_name_eq.
Qed.

Lemma valid_size data : match_is_valid data = true -> zlen data <> 0.
Proof. unfold match_is_valid. destruct (Z.ltb_spec (zlen data) 2); [done|lia]. Qed.

Lemma same_field_ok a b : 61 ∈ a -> 61 ∈ b -> same_field a b = Some (bool_decide (field_of a = field_of b)).
Proof.
  revert b. induction a as [|c a IH]; intros [|d b] Ha Hb; try by apply not_elem_of_nil in Ha.
  { by apply not_elem_of_nil in Hb. }
  simpl. destruct (Z.eqb_spec c d) as [<-|Hcd]; simpl.
  - destruct (Z.eqb_spec c 61) as [->|Hc]; [done|].
    apply elem_of_cons in Ha as [?|Ha]; [congruence|]. apply elem_of_cons in Hb as [?|Hb]; [congruence|].
    rewrite IH by done.
    f_equal. apply bool_decide_ext. split; congruence.
  - f_equal. symmetry. apply bool_decide_eq_false.
    destruct (Z.eqb_spec c 61), (Z.eqb_spec d 61); congruence.
Qed.

(** * Groups *)

Definition term_field (t : list discrete) : list Z := match t with d :: _ => field_of (m_data d) | [] => [] end.

Record term_ok (t : list discrete) : Prop := {
  to_some : t <> [];
  to_field : forall d, d ∈ t -> field_of (m_data d) = term_field t;
  to_valid : forall d, d ∈ t -> hashed d /\ match_is_valid (m_data d) = true }.

(** The terms of level 2 represent a group. *)
Record group_rep (g : list (list Z)) (l2 : list (list discrete)) : Prop := {
  gr_terms : forall t, t ∈ l2 -> term_ok t;
  gr_fields : NoDup (map term_field l2);
  gr_data : forall x, x ∈ g <-> exists t d, t ∈ l2 /\ d ∈ t /\ m_data d = x }.

Lemma hashed_eq d d' : hashed d -> hashed d' -> m_data d = m_data d' -> d = d'.
Proof. destruct d, d'. unfold hashed. simpl. congruence. Qed.

Lemma scan_matches_ok d t : term_ok t -> hashed d -> match_is_valid (m_data d) = true ->
  match scan_matches d t with
  | SCAN_SAME_MATCH => d ∈ t
  | SCAN_SAME_FIELD => term_field t = field_of (m_data d)
  | SCAN_OTHER => term_field t <> field_of (m_data d)
  | SCAN_ASSERT => False
  end.
Proof.
  intros [Hne Hf Hv] Hd Hvd.
  assert (forall u, (forall x, x ∈ u -> x ∈ t) -> match scan_matches d u with
    | SCAN_SAME_MATCH => d ∈ t | SCAN_SAME_FIELD => term_field t = field_of (m_data d)
    | SCAN_OTHER => u = [] \/ term_field t <> field_of (m_data d) | SCAN_ASSERT => False end) as H.
  { induction u as [|x u IH]; intros Hin; simpl; [by left|].
    pose proof (Hin x (list_elem_of_here _ _)) as Hx. destruct (Hv x Hx) as [Hhx Hvx].
    destruct (_ && _) eqn:E.
    { apply andb_true_iff in E as [_ E%bool_decide_eq_true]. by rewrite (hashed_eq d x Hd Hhx (eq_sym E)). }
    rewrite same_field_ok by (by apply valid_eq). destruct (decide (field_of (m_data d) = field_of (m_data x))) as [Hs|Hs];
      [rewrite bool_decide_eq_true_2 by done; by rewrite Hs, (Hf x Hx)|rewrite bool_decide_eq_false_2 by done].
    assert (forall y, y ∈ u -> y ∈ t) as Hu by (intros y Hy; apply Hin; by constructor).
    specialize (IH Hu). destruct (scan_matches d u); try done. right. rewrite <- (Hf x Hx). congruence. }
  specialize (H t (fun x Hx => Hx)). destruct (scan_matches d t); try done. destruct H as [->|H]; done.
Qed.

Lemma add_to_terms_ok d all l2 pre :
  (forall t, t ∈ l2 -> term_ok t) -> hashed d -> match_is_valid (m_data d) = true ->
  match add_to_terms d all pre l2 with
  | Ok None => exists t, t ∈ l2 /\ d ∈ t
  | Ok (Some l) =>
      l = [d] :: all /\ (forall t, t ∈ l2 -> term_field t <> field_of (m_data d))
      \/ exists l2a t l2b, l2 = l2a ++ t :: l2b /\ term_field t = field_of (m_data d) /\ l = rev pre ++ l2a ++ (d :: t) :: l2b
  | _ => False
  end.
Proof.
  intros Hok Hd Hv. revert pre. induction l2 as [|t l2 IH]; intros pre; simpl.
  { left. split; [done|]. by intros t ?%not_elem_of_nil. }
  pose proof (scan_matches_ok d t (Hok t (list_elem_of_here _ _)) Hd Hv) as Hs. destruct (scan_matches d t).
  - exists t. split; [constructor|done].
  - right. exists [], t, l2. split; [done|]. split; [done|]. by rewrite rev_append_rev.
  - specialize (IH (fun u Hu => Hok u (list_elem_of_further _ _ _ Hu)) (t :: pre)).
    destruct (add_to_terms d all (t :: pre) l2) as [[l|]| | |]; try done.
    + destruct IH as [[-> Hno]|(l2a & u & l2b & -> & Hu & ->)].
      * left. split; [done|]. intros u [->|Hin]%elem_of_cons; [done|by apply Hno].
      * right. exists (t :: l2a), u, l2b. split; [done|]. split; [done|]. simpl. by rewrite <- app_assoc.
    + destruct IH as (u & Hu & Hin). exists u. split; [by constructor|done].
  - done.
Qed.

Lemma group_add g l2 d : group_rep g l2 -> hashed d -> match_is_valid (m_data d) = true ->
  match add_to_terms d l2 [] l2 with
  | Ok None => group_rep (m_data d :: g) l2
  | Ok (Some l) => group_rep (m_data d :: g) l
  | _ => False
  end.
Proof.
  intros [Ht Hf Hg] Hd Hv. pose proof (add_to_terms_ok d l2 l2 [] Ht Hd Hv) as H.
  destruct (add_to_terms d l2 [] l2) as [[l|]| | |]; try done.
  - destruct H as [[-> Hno]|(l2a & t & l2b & -> & Hft & ->)].
    + split.
      * intros t [->|Hin]%elem_of_cons; [|by apply Ht].
        split; [done|..]; intros x ->%list_elem_of_singleton; done.
      * simpl. constructor; [|done]. intros Hin. apply list_elem_of_fmap in Hin as (t & E & Hin). by apply (Hno t Hin).
      * intros x. rewrite elem_of_cons, Hg. split.
        -- intros [->|(t & y & Hin & Hy & <-)]; [exists [d], d; split_and!; [constructor|constructor|done]|].
           exists t, y. split_and!; [by constructor|done|done].
        -- intros (t & y & [->|Hin]%elem_of_cons & Hy & <-).
           ++ left. by apply list_elem_of_singleton in Hy as ->.
           ++ right. by exists t, y.
    + cbn [rev app]. split.
      * intros u Hu. rewrite elem_of_app, elem_of_cons in Hu.
        destruct Hu as [Hu|[->|Hu]]; [by apply Ht, elem_of_app; left| |by apply Ht, elem_of_app; right; constructor].
        destruct (Ht t ltac:(apply elem_of_app; right; constructor)) as [_ Htf Htv].
        split; [done|..]; intros x [->|Hx]%elem_of_cons; [done| |done|by apply Htv].
        simpl. by rewrite Htf, Hft.
      * rewrite map_app in *. simpl in *. by rewrite <- Hft.
      * intros x. rewrite elem_of_cons, Hg. clear -Hft. setoid_rewrite elem_of_app. setoid_rewrite elem_of_cons.
        split.
        -- intros [->|(u & y & [Hu|[->|Hu]] & Hy & <-)].
           ++ exists (d :: t), d. split_and!; [by right; left|constructor|done].
           ++ exists u, y. split_and!; [by left|done|done].
           ++ exists (d :: t), y. split_and!; [by right; left|by constructor|done].
           ++ exists u, y. split_and!; [by right; right|done|done].
        -- intros (u & y & [Hu|[->|Hu]] & Hy & <-).
           ++ right. exists u, y. split_and!; [by left|done|done].
           ++ apply elem_of_cons in Hy as [->|Hy]; [by left|]. right. exists t, y. split_and!; [by right; left|done|done].
           ++ right. exists u, y. split_and!; [by right; right|done|done].
  - destruct H as (t & Hin & Hd'). split; [done|done|]. intros x. rewrite elem_of_cons, Hg.
    split; [|by right]. intros [->|?]; [|done]. by exists t, d.
Qed.

Lemma group_rep_nil : group_rep [] [].
Proof.
  split; [by intros t ?%not_elem_of_nil|constructor|]. intros x. split; [by intros ?%not_elem_of_nil|].
  by intros (t & d & ?%not_elem_of_nil & _).
Qed.

Lemma group_rep_empty g l2 : group_rep g l2 -> empty_group g = bool_decide (l2 = []).
Proof.
  intros [Ht _ Hg]. destruct l2 as [|t l2].
  - destruct g as [|x g]; [done|]. destruct (proj1 (Hg x) (list_elem_of_here _ _)) as (t & d & ?%not_elem_of_nil & _). done.
  - rewrite bool_decide_eq_false_2 by done. destruct g; [|done].
    destruct (Ht t (list_elem_of_here _ _)) as [Hne _ _]. destruct t as [|d t]; [done|].
    exfalso. apply (not_elem_of_nil (m_data d)), Hg.
    exists (d :: t), d. split_and!; [constructor|constructor|done].
Qed.

Lemma group_sat_ok has g l2 p : group_rep g l2 -> l2 <> [] ->
  sat has (group_of l2) p = group_sat (fun x => has (mkDiscrete (data_hash64 x) x) p) g.
Proof.
  intros [Ht Hf Hg] Hne.
  assert (forall t d, t ∈ l2 -> d ∈ t -> mkDiscrete (data_hash64 (m_data d)) (m_data d) = d) as Eh.
  { intros t d Hin Hd. destruct (to_valid _ (Ht t Hin) d Hd) as [Hh _]. by apply hashed_eq. }
  apply eq_true_iff_eq. unfold group_of, group_sat, or_of. simpl. rewrite andb_true_iff, !forallb_forall.
  setoid_rewrite existsb_exists. setoid_rewrite <- list_elem_of_In. setoid_rewrite list_elem_of_fmap. split.
  - intros [_ H] x Hx. apply Hg in Hx as (t & d & Hin & Hd & <-).
    pose proof (H _ (ex_intro _ t (conj eq_refl Hin))) as Hs. simpl in Hs.
    apply existsb_exists in Hs as (m & Hm & Hs). apply list_elem_of_In, list_elem_of_fmap in Hm as (d' & -> & Hd').
    exists (m_data d'). split; [apply Hg; by exists t, d'|]. simpl in Hs. rewrite (Eh t d'), Hs by done.
    pose proof (to_field _ (Ht t Hin)) as Hfl. by rewrite bool_decide_eq_true_2 by (by rewrite !Hfl).
  - intros H. split; [by destruct l2|]. intros m (t & -> & Hin). simpl.
    destruct (Ht t Hin) as [Htne Htf Htv]. destruct t as [|d t]; [done|]. set (u := d :: t) in *.
    assert (d ∈ u) as Hd by constructor.
    destruct (H (m_data d)) as (x & Hx & E); [apply Hg; by exists u, d|].
    apply andb_true_iff in E as [E%bool_decide_eq_true Hhas]. apply Hg in Hx as (t' & d' & Hin' & Hd' & <-).
    rewrite (Eh t' d') in Hhas by done.
    assert (t' = u) as ->.
    { assert (term_field t' = term_field u) as Ef.
      { rewrite <- (to_field _ (Ht t' Hin') d' Hd'), E. by apply Htf. }
      apply list_elem_of_lookup_1 in Hin as [i Hi], Hin' as [j Hj].
      assert (i = j) as ->; [|congruence].
      apply (proj1 (NoDup_alt _) Hf i j (term_field u)).
      - by rewrite list_lookup_fmap, Hi.
      - rewrite list_lookup_fmap, Hj. simpl. by rewrite Ef. }
    apply existsb_exists. exists (MATCH_DISCRETE d'). split; [|done]. apply list_elem_of_In, list_elem_of_fmap. by exists d'.
Qed.

(** * The tree *)

Definition empty_clause (c : list (list (list Z))) : bool := forallb empty_group c.

Definition clause_rep (c : list (list (list Z))) (l1 : list (list (list discrete))) : Prop :=
  Forall2 group_rep (List.filter (fun g => negb (empty_group g)) c) l1.

Definition tree_rep (cs : list (list (list (list Z)))) (l0 : list (list (list (list discrete)))) : Prop :=
  Forall2 clause_rep (List.filter (fun c => negb (empty_clause c)) cs) l0.

(** The pointers of the handle point at what is being extended. *)
Record levels_rep (cs : list (list (list (list Z)))) (j : Levels) : Prop := {
  lr_tree : tree_rep cs (default [] (level0 j));
  lr_none : level0 j = None -> level1 j = false;
  lr_some : level0 j <> Some [];
  lr_level1 : level1 j = negb (empty_clause (default [] (head cs)));
  lr_level2 : level2 j = negb (empty_group (default [] (head (default [] (head cs)))));
  lr_shape : exists g c cs', cs = (g :: c) :: cs' }.

Lemma clause_sat_ok has c l1 p : clause_rep c l1 ->
  sat has (alternatives_of l1) p
  = existsb (fun g => negb (empty_group g) && group_sat (fun x => has (mkDiscrete (data_hash64 x) x) p) g) c.
Proof.
  unfold clause_rep, alternatives_of. revert l1. induction c as [|g c IH]; intros l1 H; simpl in H.
  - apply Forall2_nil_inv_l in H as ->. done.
  - simpl. destruct (empty_group g) eqn:E; simpl in *; [by apply IH|].
    apply Forall2_cons_inv_l in H as (l2 & l1' & Hg & H & ->). simpl. fold (group_of l2).
    rewrite <- (IH l1' H). f_equal. apply group_sat_ok; [done|].
    intros ->. rewrite (group_rep_empty _ _ Hg) in E. done.
Qed.

Lemma tree_sat_ok has cs l0 p : tree_rep cs l0 -> l0 <> [] ->
  sat has (tree_of l0) p = clauses_sat (fun x => has (mkDiscrete (data_hash64 x) x) p) cs.
Proof.
  intros H Hne. unfold tree_of. simpl. rewrite bool_decide_eq_false_2 by (by destruct l0). simpl. clear Hne.
  unfold clauses_sat, tree_rep in *. revert l0 H. induction cs as [|c cs IH]; intros l0 H; simpl in H.
  - by apply Forall2_nil_inv_l in H as ->.
  - simpl. fold (empty_clause c). destruct (empty_clause c) eqn:E; simpl in *; [by apply IH|].
    apply Forall2_cons_inv_l in H as (l1 & l0' & Hc & H & ->). simpl. rewrite <- (IH l0' H). f_equal.
    by apply (clause_sat_ok has c l1 p).
Qed.

Lemma clause_rep_empty c l1 : clause_rep c l1 -> empty_clause c = bool_decide (l1 = []).
Proof.
  unfold clause_rep, empty_clause. revert l1. induction c as [|g c IH]; intros l1 H; simpl in *.
  - by apply Forall2_nil_inv_l in H as ->.
  - destruct (empty_group g); simpl in *; [by apply IH|].
    apply Forall2_cons_inv_l in H as (l2 & l1' & _ & _ & ->). by rewrite bool_decide_eq_false_2.
Qed.

Lemma tree_hashed cs l0 : tree_rep cs l0 -> Forall hashed (discretes (tree_of l0)).
Proof.
  intros H. apply Forall_forall. intros d Hd. simpl in Hd.
  assert (forall A B (g : A -> B) (k : B -> list discrete) (l : list A), d ∈ concat (map k (map g l)) -> exists a, a ∈ l /\ d ∈ k (g a)) as Hin.
  { clear. intros A B g k l. induction l as [|a l IH]; simpl; [by intros ?%not_elem_of_nil|].
    intros [Hd|Hd]%elem_of_app; [exists a; split; [constructor|done]|]. destruct (IH Hd) as (b & Hb & Hd').
    exists b. split; [by constructor|done]. }
  apply Hin in Hd as (l1 & H1 & Hd). simpl in Hd. apply Hin in Hd as (l2 & H2 & Hd). simpl in Hd.
  apply Hin in Hd as (t & H3 & Hd). simpl in Hd. apply Hin in Hd as (d' & H4 & ->%list_elem_of_singleton).
  apply list_elem_of_lookup_1 in H1 as [i Hi]. destruct (Forall2_lookup_r _ _ _ _ _ H Hi) as (c & _ & Hc).
  apply list_elem_of_lookup_1 in H2 as [k Hk]. destruct (Forall2_lookup_r _ _ _ _ _ Hc Hk) as (g & _ & Hg).
  by apply (to_valid _ (gr_terms _ _ Hg t H3)).
Qed.

(** * The calls keep the representation *)

Lemma no_matches_rep : levels_rep [[[]]] no_matches.
Proof. split; simpl; try done; [constructor|by exists [], [], []]. Qed.

(** What the pointers point at. *)
Lemma levels_rep_head g c cs j : levels_rep ((g :: c) :: cs) j ->
  if level1 j then
    exists l1 l0, level0 j = Some (l1 :: l0) /\ l1 <> [] /\ clause_rep (g :: c) l1 /\ tree_rep cs l0
      /\ if level2 j then exists l2 l1', l1 = l2 :: l1' /\ l2 <> [] /\ group_rep g l2 /\ clause_rep c l1'
         else empty_group g = true /\ clause_rep c l1
  else empty_group g = true /\ empty_clause c = true /\ level2 j = false /\ tree_rep cs (default [] (level0 j)).
Proof.
  intros [Ht Hn Hs H1 H2 _]. simpl in H1, H2. unfold empty_clause in H1. simpl in H1. fold (empty_clause c) in H1.
  unfold tree_rep in Ht. simpl in Ht. unfold empty_clause at 1 in Ht. simpl in Ht. fold (empty_clause c) in Ht.
  rewrite <- H1 in Ht. destruct (level1 j) eqn:E1.
  - apply Forall2_cons_inv_l in Ht as (l1 & l0 & Hc & Ht & E). exists l1, l0.
    split; [destruct (level0 j); simpl in E; congruence|].
    split. { intros ->. apply clause_rep_empty in Hc. unfold empty_clause in Hc. simpl in Hc. fold (empty_clause c) in Hc.
      rewrite Hc in H1. done. }
    split; [done|]. split; [done|]. unfold clause_rep in Hc. simpl in Hc. rewrite <- H2 in Hc. destruct (level2 j).
    + apply Forall2_cons_inv_l in Hc as (l2 & l1' & Hg & Hc & ->). exists l2, l1'. split; [done|].
      split; [|done]. intros ->. apply group_rep_empty in Hg. rewrite Hg in H2. done.
    + split; [by destruct (empty_group g)|done].
  - destruct (empty_group g) eqn:Eg; [|done]. destruct (empty_clause c); [|done]. done.
Qed.

Lemma disjunction_rep cs j : levels_rep cs j -> levels_rep (clauses_step cs Disjunction) (levels_add_disjunction j).
Proof.
  intros H. destruct (lr_shape _ _ H) as (g & c & cs' & ->). pose proof (levels_rep_head _ _ _ _ H) as Hh.
  assert (levels_add_disjunction j = mkLevels (level0 j) (level1 j) false) as ->.
  { unfold levels_add_disjunction. destruct j as [l0 l1 l2]; simpl in *. destruct l1.
    - destruct Hh as (l1 & l0' & -> & _ & _ & _ & Hh). destruct l2; [|done].
      destruct Hh as (l2 & l1' & -> & Hne & _). by destruct l2.
    - destruct Hh as (_ & _ & -> & _). by destruct l0. }
  destruct H as [Ht Hn Hs H1 H2 _]. split; [|exact Hn|exact Hs|exact H1|done|by eexists _, _, _].
  revert Ht. unfold tree_rep. cbn [clauses_step level0 default List.filter].
  change (empty_clause ([] :: g :: c)) with (empty_clause (g :: c)).
  destruct (empty_clause (g :: c)); cbn [negb]; [done|]. intros (l1 & l0 & Hc & Ht & ->)%Forall2_cons_inv_l. by constructor.
Qed.

Lemma conjunction_rep cs j : levels_rep cs j -> levels_rep (clauses_step cs Conjunction) (levels_add_conjunction j).
Proof.
  intros H. destruct (lr_shape _ _ H) as (g & c & cs' & ->). pose proof (levels_rep_head _ _ _ _ H) as Hh.
  assert (levels_add_conjunction j = mkLevels (level0 j) false false) as ->.
  { unfold levels_add_conjunction. destruct j as [l0 l1 l2]; simpl in *. destruct l1.
    - destruct Hh as (l1 & l0' & -> & Hne & _). by destruct l1.
    - destruct Hh as (_ & _ & -> & _). by destruct l0. }
  destruct H as [Ht Hn Hs H1 H2 _]. split; [exact Ht|done|exact Hs|done|done|by eexists _, _, _].
Qed.

Lemma add_match_rep cs j data : levels_rep cs j -> match_is_valid data = true ->
  exists j' detach, levels_add_match j data (zlen data) = Ok (j', detach) /\ levels_rep (clauses_step cs (Add data)) j'.
Proof.
  intros H Hv. destruct (lr_shape _ _ H) as (g & c & cs' & ->). pose proof (levels_rep_head _ _ _ _ H) as Hh.
  unfold levels_add_match. rewrite (proj2 (Z.eqb_neq _ 0)) by (by apply valid_size).
  assert (take (Z.to_nat (zlen data)) data = data) as Et by (unfold zlen; rewrite Nat2Z.id; apply firstn_all).
  cbv zeta. rewrite Et, Hv. simpl.
  assert (exists l2 l1 l0, make_levels j = (l2 :: l1) :: l0 /\ group_rep g l2 /\ clause_rep c l1 /\ tree_rep cs' l0)
    as (l2 & l1 & l0 & -> & Hg & Hc & Ht).
  { unfold make_levels. destruct (level1 j).
    - destruct Hh as (l1 & l0 & -> & _ & Hc & Ht & Hh). simpl. destruct (level2 j).
      + destruct Hh as (l2 & l1' & -> & _ & Hg & Hc'). by exists l2, l1', l0.
      + destruct Hh as [Eg Hc']. exists [], l1, l0. destruct g; [|done]. split_and!; [done|apply group_rep_nil|done|done].
    - destruct Hh as (Eg & Ec & -> & Ht). exists [], [], (default [] (level0 j)). destruct g; [|done].
      split_and!; [done|apply group_rep_nil| |done]. unfold clause_rep.
      assert (List.filter (fun g => negb (empty_group g)) c = []) as ->; [|constructor].
      clear -Ec. induction c as [|g c IH]; [done|]. simpl in *. apply andb_true_iff in Ec as [-> Ec]. by apply IH. }
  pose proof (group_add g l2 (mkDiscrete (data_hash64 data) data) Hg eq_refl Hv) as Ha. simpl in Ha.
  assert (forall l, group_rep (data :: g) l -> levels_rep (((data :: g) :: c) :: cs') (mkLevels (Some ((l :: l1) :: l0)) true true)) as Hrep.
  { intros l Hl. split; simpl; try done; [|by eexists _, _, _].
    constructor; [|done]. by constructor. }
  destruct (add_to_terms _ l2 [] l2) as [[l|]| | |]; try done; eexists _, _; (split; [reflexivity|]); by apply Hrep.
Qed.

(** * The handle *)

Lemma run_op_ok getpid op cs j :
  j_original_pid j = getpid -> valid_op op -> levels_rep cs (j_levels j) ->
  exists j', run_op getpid op j = (Ok 0, j') /\ levels_rep (clauses_step cs op) (j_levels j') /\ j_original_pid j' = getpid.
Proof.
  intros Hpid Hv H. destruct op as [data| |]; simpl; unfold sd_journal_add_match, sd_journal_add_disjunction,
    sd_journal_add_conjunction, jbind, check_pid, jfail_if; rewrite Hpid, Z.eqb_refl; simpl.
  - destruct (add_match_rep _ _ data H Hv) as (l & detach & -> & Hl). eexists. split; [done|].
    destruct detach; done.
  - eexists. split; [done|]. split; [by apply disjunction_rep|done].
  - eexists. split; [done|]. split; [by apply conjunction_rep|done].
Qed.

Lemma run_ops_ok getpid ops cs j :
  j_original_pid j = getpid -> Forall valid_op ops -> levels_rep cs (j_levels j) ->
  exists j', run_ops getpid ops j = (Ok 0, j') /\ levels_rep (fold_left clauses_step ops cs) (j_levels j').
Proof.
  intros Hpid Hv. revert cs j Hpid. induction Hv as [|op ops Hop Hv IH]; intros cs j Hpid H; simpl; [by exists j|].
  destruct (run_op_ok getpid op cs j Hpid Hop H) as (j1 & Hrun & H1 & Hpid1).
  destruct (IH _ _ Hpid1 H1) as (j' & Hrun' & H'). exists j'. split; [|done]. unfold jbind. by rewrite Hrun.
Qed.

Lemma no_tree_empty cs : tree_rep cs [] -> forall has, clauses_sat has cs = true.
Proof.
  unfold tree_rep, clauses_sat. intros H has. induction cs as [|c cs IH]; simpl in *; [done|].
  fold (empty_clause c). destruct (empty_clause c); simpl in *; [by apply IH|]. by apply Forall2_nil_inv_r in H.
Qed.

(** C12 The matches mean what the documentation says: after any calls of
    sd_journal_add_match with valid matches, sd_journal_add_disjunction and
    sd_journal_add_conjunction on a handle without matches, an entry satisfies the tree
    that next_for_match searches exactly when it satisfies the calls read as clauses:
    within a group, matches of the same field are alternatives and different fields all
    apply, a disjunction separates groups and a conjunction separates disjunctions.
    With no match there is no tree and every entry is wanted, and all matches of the
    tree carry the hash of their data, as the search needs. *)
Theorem sd_journal_add_match_correct getpid ops j has p :
  j_original_pid j = getpid -> j_levels j = no_matches -> Forall valid_op ops ->
  exists j', run_ops getpid ops j = (Ok 0, j')
    /\ match level0 (j_levels j') with
       | Some l0 => sat has (tree_of l0) p = clauses_sat (fun x => has (mkDiscrete (data_hash64 x) x) p) (clauses ops)
           /\ Forall hashed (discretes (tree_of l0))
       | None => clauses_sat (fun x => has (mkDiscrete (data_hash64 x) x) p) (clauses ops) = true
       end.
Proof.
  intros Hpid Hl Hv. destruct (run_ops_ok getpid ops [[[]]] j Hpid Hv) as (j' & Hrun & H);
    [rewrite Hl; apply no_matches_rep|]. exists j'. split; [done|]. pose proof (lr_tree _ _ H) as Ht.
  destruct (level0 (j_levels j')) as [l0|] eqn:E; simpl in Ht.
  - split; [|by eapply tree_hashed]. apply tree_sat_ok; [done|]. intros ->. by destruct (lr_some _ _ H).
  - by apply no_tree_empty.
Qed.

(** "A=1", "B=1", "A=2", then a disjunction and "B=2": the tree holds of an entry with
    A=2 and B=1. *)
Definition sample_ops : list match_op :=
  [Add [65; 61; 49]; Add [66; 61; 49]; Conjunction; Disjunction; Add [65; 61; 50]; Disjunction; Add [66; 61; 50]; Add [65; 61; 50]].

Definition sample_has (d : discrete) (p : Z) : bool :=
  bool_decide (m_data d = [65; 61; 50]) || bool_decide (m_data d = [66; 61; 49]).

Lemma add_match_witness :
  exists j', run_ops 1 sample_ops (journal_new 1) = (Ok 0, j')
    /\ match level0 (j_levels j') with
       | Some l0 => sat sample_has (tree_of l0) 7
                    = clauses_sat (fun x => sample_has (mkDiscrete (data_hash64 x) x) 7) (clauses sample_ops)
           /\ Forall hashed (discretes (tree_of l0))
       | None => clauses_sat (fun x => sample_has (mkDiscrete (data_hash64 x) x) 7) (clauses sample_ops) = true
       end.
Proof.
  apply (sd_journal_add_match_correct 1 sample_ops (journal_new 1) sample_has 7); [reflexivity|reflexivity|].
  repeat constructor.
Defined.
