(* ===== verification/SdNext.v ===== *)
(** Reading several files at once: given what a file promises to the iteration, looping
    with sd_journal_next visits every matching entry, in whatever file it or a copy of it
    is, once and in the order of the sequence numbers. *)
From S2P Require Import Prelude Lookup3 Uuid Memory CString Split JournalDef JournalFile JournalSeek Match SdJournal.

(** Where an iteration is: at the head, before the entries from a sequence number on, or
    behind one. *)
Inductive position := Head | From (n : Z) | Behind (n : Z).

(** The sequence number is still to come. *)
Definition after (s : position) (n : Z) : bool :=
  match s with Head => true | From m => m <=? n | Behind m => m <? n end.

Lemma after_mono s n m : n <= m -> after s n = true -> after s m = true.
Proof. destruct s; simpl; rewrite ?Z.leb_le, ?Z.ltb_lt; lia. Qed.

(** A file as the iteration sees it: the property its handles keep, the entries that
    match in their order, its seqnum_id and the heads of its entries. *)
Record view := mkView {
  v_keeps : JournalFile -> Prop;
  v_entries : list Z;
  v_id : list Z;
  v_head : Z -> EntryHead }.

Definition v_seqnum (v : view) (p : Z) : Z := eh_seqnum (v_head v p).

(** What the searches of one file promise, downwards. *)
Class Enumerable (e : Env) (fuel : nat) (levels : Levels) (v : view) : Prop := {
  en_pos : forall p, p ∈ v_entries v -> 0 < p;
  en_sorted : StronglySorted Z.lt (v_entries v);
  en_seqnum : StronglySorted (fun p q => v_seqnum v p < v_seqnum v q) (v_entries v);
  en_entry : forall f p, v_keeps v f -> p ∈ v_entries v ->
    journal_file_move_to_object e OBJECT_ENTRY p f = (Ok p, f) /\ entry_head p f = (Ok (v_head v p), f);
  en_id : forall f, v_keeps v f -> file_seqnum_id f = (Ok (v_id v), f);
  en_head : forall f l, v_keeps v f -> l_type l = LOCATION_HEAD ->
    exists f', find_location_with_matches e fuel DIRECTION_DOWN l levels f = (Ok (head (v_entries v)), f') /\ v_keeps v f';
  en_location : forall f l, v_keeps v f -> l_type l = LOCATION_DISCRETE \/ l_type l = LOCATION_SEEK ->
    l_seqnum_set l = true -> l_seqnum_id l = v_id v ->
    exists f', find_location_with_matches e fuel DIRECTION_DOWN l levels f
      = (Ok (List.find (fun p => l_seqnum l <=? v_seqnum v p) (v_entries v)), f') /\ v_keeps v f';
  en_next : forall f p, v_keeps v f -> p ∈ v_entries v ->
    exists f', next_with_matches e fuel DIRECTION_DOWN levels p p f
      = (Ok (List.find (fun q => p <? q) (v_entries v)), f') /\ v_keeps v f' }.

(** * Finding in sorted lists *)

Lemma find_skip {A} (p : A -> bool) l1 l2 : (forall a, a ∈ l1 -> p a = false) -> List.find p (l1 ++ l2) = List.find p l2.
Proof.
  induction l1 as [|a l1 IH]; intros H; [done|]. simpl. rewrite H by constructor. apply IH. intros b Hb. apply H. by right.
Qed.

Lemma find_all_false {A} (p : A -> bool) l : (forall a, a ∈ l -> p a = false) -> List.find p l = None.
Proof. intros H. rewrite <- (app_nil_r l). by rewrite find_skip. Qed.

Lemma find_first {A} (p : A -> bool) l a : List.find p l = Some a ->
  exists l1 l2, l = l1 ++ a :: l2 /\ p a = true /\ forall b, b ∈ l1 -> p b = false.
Proof.
  induction l as [|b l IH]; simpl; [done|]. destruct (p b) eqn:E.
  - intros [= <-]. exists [], l. split; [done|]. split; [done|]. by intros b' ?%not_elem_of_nil.
  - intros H. destruct (IH H) as (l1 & l2 & -> & Ha & Hl). exists (b :: l1), l2. split; [done|]. split; [done|].
    intros c [->|Hc]%elem_of_cons; [done|by apply Hl].
Qed.

Lemma find_head {A} (p : A -> bool) l : (forall a, a ∈ l -> p a = true) -> List.find p l = head l.
Proof. destruct l as [|a l]; [done|]. intros H. simpl. by rewrite H by constructor. Qed.

Lemma sorted_split {A} (R : A -> A -> Prop) l1 a l2 :
  StronglySorted R (l1 ++ a :: l2) -> (forall b, b ∈ l1 -> R b a) /\ forall b, b ∈ l2 -> R a b.
Proof.
  induction l1 as [|b l1 IH]; simpl; intros H; apply StronglySorted_inv in H as [H Hf].
  - split; [intros b Hb; by apply elem_of_nil in Hb|]. intros b Hb. by apply (proj1 (Forall_forall _ _) Hf).
  - destruct (IH H) as [H1 H2]. split; [|done]. intros c [->|Hc]%elem_of_cons; [|by apply H1].
    apply (proj1 (Forall_forall _ _) Hf). apply elem_of_app. right. constructor.
Qed.

(** * One file *)

Section OneFile.
Context (e : Env) (fuel : nat) (levels : Levels) (v : view) `{!Enumerable e fuel levels v}.

Lemma same_uuid_refl id : same_uuid id id = true.
Proof. unfold same_uuid, uuid_equal. by rewrite !Z.eqb_refl. Qed.

Lemma next_entry_ok f pre p suf : v_keeps v f -> v_entries v = pre ++ p :: suf ->
  exists f', next_with_matches e fuel DIRECTION_DOWN levels p p f = (Ok (head suf), f') /\ v_keeps v f'.
Proof.
  intros Hf El. destruct (en_next f p Hf) as (f' & Hrun & Hf'); [rewrite El; apply elem_of_app; right; constructor|].
  exists f'. split; [|done]. rewrite Hrun. do 2 f_equal. pose proof en_sorted as Hs. rewrite El in Hs |- *.
  apply sorted_split in Hs as [H1 H2]. rewrite find_skip; [|intros a Ha; apply Z.ltb_ge; specialize (H1 a Ha); lia].
  simpl. rewrite Z.ltb_irrefl. apply find_head. intros a Ha. by apply Z.ltb_lt, H2.
Qed.

(** Entries that compare as one: they agree in their boot id, realtime and xor hash. *)
Definition same_entry (a b : EntryHead) : bool :=
  same_uuid (eh_boot_id a) (eh_boot_id b) && (eh_realtime a =? eh_realtime b) && (eh_xor_hash a =? eh_xor_hash b).

(** Only copies of an entry compare as one, and copies have one sequence number. *)
Definition copies (a b : EntryHead) : Prop :=
  (same_entry a b = true -> eh_seqnum a = eh_seqnum b)
  /\ (eh_seqnum a = eh_seqnum b -> same_entry a b = true /\ eh_monotonic a = eh_monotonic b).

Lemma compare_or_neq a b k : a <> b -> compare_or a b k = if a <? b then -1 else 1.
Proof. intros H. unfold compare_or. destruct (Z.ltb_spec a b); [done|]. by rewrite (proj2 (Z.ltb_lt b a)) by lia. Qed.

Lemma compare_location_ok id a o : copies a o ->
  (0 <? compare_with_location id a (init_location LOCATION_DISCRETE o id)) = (eh_seqnum o <? eh_seqnum a).
Proof.
  intros [H1 H2]. unfold compare_with_location. simpl. rewrite !andb_true_r.
  destruct (Z.eqb_spec (eh_seqnum a) (eh_seqnum o)) as [E|E].
  - destruct (H2 E) as [Hs _]. unfold same_entry in Hs. rewrite Hs, E. symmetry. apply Z.ltb_irrefl.
  - destruct (same_entry a o) eqn:Es; unfold same_entry in Es; rewrite Es; [by rewrite H1 in E|].
    rewrite same_uuid_refl, compare_or_neq by done. destruct (Z.ltb_spec (eh_seqnum a) (eh_seqnum o)); symmetry.
    + apply Z.ltb_ge. lia.
    + apply Z.ltb_lt. lia.
Qed.

Lemma compare_entries_ok a b : copies a b -> (compare_entries true a b <? 0) = (eh_seqnum a <? eh_seqnum b).
Proof.
  intros [H1 H2]. unfold compare_entries. destruct (Z.eqb_spec (eh_seqnum a) (eh_seqnum b)) as [E|E].
  - destruct (H2 E) as [Hs ->]. unfold same_entry in Hs. apply andb_true_iff in Hs as [[-> ->]%andb_true_iff ->].
    rewrite Z.eqb_refl, E. symmetry. apply Z.ltb_irrefl.
  - assert (same_uuid (eh_boot_id a) (eh_boot_id b) && (eh_monotonic a =? eh_monotonic b)
      && (eh_realtime a =? eh_realtime b) && (eh_xor_hash a =? eh_xor_hash b) = false) as ->.
    { apply not_true_iff_false. intros Ht. apply E, H1. unfold same_entry.
      apply andb_true_iff in Ht as [[[-> _]%andb_true_iff ->]%andb_true_iff ->]. done. }
    rewrite compare_or_neq by done. by destruct (eh_seqnum a <? eh_seqnum b).
Qed.

(** Where the location [l] is. *)
Definition located_at (l : Location) (s : position) : Prop :=
  match s with
  | Head => l_type l = LOCATION_HEAD
  | From n => l_type l = LOCATION_SEEK /\ l_seqnum_set l = true /\ l_seqnum_id l = v_id v /\ l_seqnum l = n
  | Behind n => exists o, l = init_location LOCATION_DISCRETE o (v_id v) /\ eh_seqnum o = n
                /\ forall p, p ∈ v_entries v -> copies (v_head v p) o
  end.

(** The entry is after it. *)
Definition behind (s : position) (p : Z) : bool := after s (v_seqnum v p).

(** The next entry of the file. *)
Definition next_of (s : position) : option Z := List.find (behind s) (v_entries v).

(** The test of the loop of next_beyond_location. *)
Lemma beyond_test_ok l s f p : located_at l s -> (exists n, s = Behind n) \/ behind s p = true ->
  v_keeps v f -> p ∈ v_entries v ->
  (if bool_decide (l_type l = LOCATION_DISCRETE) then
     (o <- entry_head p ;;
      id <- file_seqnum_id ;;
      let k := compare_with_location id o l in
      ret (match DIRECTION_DOWN with DIRECTION_DOWN => 0 <? k | DIRECTION_UP => k <? 0 end))
   else ret true) f = (Ok (behind s p), f).
Proof.
  intros Hl Hs Hf Hp. destruct (en_entry f p Hf Hp) as [_ Hhead]. pose proof (en_id f Hf) as Hid.
  destruct s as [|n|n]; simpl in Hl.
  - by rewrite Hl.
  - destruct Hl as [-> _]. destruct Hs as [[m Hs]|Hs]; [done|]. by rewrite Hs.
  - destruct Hl as (o & -> & Ho & Hc). simpl. rewrite (run_bind _ _ _ _ _ Hhead), (run_bind _ _ _ _ _ Hid).
    by rewrite compare_location_ok, Ho by auto.
Qed.

Lemma beyond_loop_ok l s : located_at l s ->
  forall suf n f pre p, v_keeps v f -> v_entries v = pre ++ p :: suf ->
  (forall q, q ∈ pre -> behind s q = false) -> (exists n, s = Behind n) \/ behind s p = true -> (length suf < n)%nat ->
  exists f', beyond_loop e fuel n DIRECTION_DOWN levels l p f = (Ok (next_of s), f') /\ v_keeps v f'.
Proof.
  intros Hl. induction suf as [|q suf IH]; intros n f pre p Hf El Hpre Hs Hn;
    (assert (p ∈ v_entries v) as Hp by (rewrite El; apply elem_of_app; right; constructor));
    pose proof (beyond_test_ok l s f p Hl Hs Hf Hp) as Ht;
    (destruct n as [|n]; [lia|]); cbn [beyond_loop]; rewrite (run_bind _ _ _ _ _ Ht);
    destruct (next_entry_ok f pre p _ Hf El) as (f' & Hnext & Hf').
  - unfold next_of. rewrite El, find_skip by done. simpl. destruct (behind s p); [by exists f|].
    exists f'. by rewrite (run_bind _ _ _ _ _ Hnext).
  - destruct (behind s p) eqn:Eb.
    { exists f. split; [|done]. unfold next_of. rewrite El, find_skip by done. simpl. by rewrite Eb. }
    rewrite (run_bind _ _ _ _ _ Hnext). simpl in Hn.
    apply (IH n f' (pre ++ [p]) q Hf'); [by rewrite El, <- app_assoc| | |lia]; [|left; destruct Hs as [?|Hs]; [done|congruence]].
    intros x [Hx| ->%list_elem_of_singleton]%elem_of_app; [by apply Hpre|done].
Qed.

(** Where the handle of the file is. *)
Definition placed (s : position) (offset : Z) (d : direction_t) : Prop :=
  offset = 0 \/ (exists n, s = Behind n) /\ d = DIRECTION_DOWN /\ offset ∈ v_entries v /\ behind s offset = false.

Lemma behind_mono s p q : v_seqnum v p <= v_seqnum v q -> behind s q = false -> behind s p = false.
Proof.
  intros Hle Hq. apply not_true_iff_false. intros Hp. apply not_true_iff_false in Hq. apply Hq. by eapply after_mono.
Qed.

Lemma next_beyond_location_ok l s offset d f : located_at l s -> placed s offset d -> v_keeps v f ->
  (length (v_entries v) < fuel)%nat ->
  exists f', next_beyond_location e fuel DIRECTION_DOWN levels l offset d f = (Ok (next_of s), f') /\ v_keeps v f'.
Proof.
  intros Hl Hpl Hf Hfuel. unfold next_beyond_location.
  assert (exists r f1, (if bool_decide (d = DIRECTION_DOWN) && (0 <? offset) then
          (c <- journal_file_move_to_object e OBJECT_ENTRY offset ;;
           next_with_matches e fuel DIRECTION_DOWN levels c offset)
        else find_location_with_matches e fuel DIRECTION_DOWN l levels) f = (Ok r, f1) /\ v_keeps v f1
     /\ match r with
        | None => forall p, p ∈ v_entries v -> behind s p = false
        | Some p => exists pre suf, v_entries v = pre ++ p :: suf /\ (forall q, q ∈ pre -> behind s q = false)
            /\ ((exists n, s = Behind n) \/ behind s p = true)
        end) as (r & f1 & Hrun & Hf1 & Hr).
  { destruct Hpl as [->|(Hbn & -> & Hin & Hb)].
    - rewrite andb_false_r.
      assert (forall n, l_type l = LOCATION_DISCRETE \/ l_type l = LOCATION_SEEK -> l_seqnum_set l = true -> l_seqnum_id l = v_id v ->
        l_seqnum l = n -> (forall p, (n <=? v_seqnum v p) = false -> behind s p = false) ->
        (forall p, (n <=? v_seqnum v p) = true -> (exists n, s = Behind n) \/ behind s p = true) ->
        exists r f1, find_location_with_matches e fuel DIRECTION_DOWN l levels f = (Ok r, f1) /\ v_keeps v f1
          /\ match r with
             | None => forall p, p ∈ v_entries v -> behind s p = false
             | Some p => exists pre suf, v_entries v = pre ++ p :: suf /\ (forall q, q ∈ pre -> behind s q = false)
                 /\ ((exists n, s = Behind n) \/ behind s p = true)
             end) as Hseek.
      { intros n Ht Hset Hi Hn Hlow Hup. destruct (en_location f l Hf Ht Hset Hi) as (f1 & Hrun & Hf1). rewrite Hn in Hrun.
        exists (List.find (fun p => n <=? v_seqnum v p) (v_entries v)), f1.
        split; [done|]. split; [done|]. destruct (List.find _ _) as [p|] eqn:E.
        - apply find_first in E as (pre & suf & El & Hp & Hpre). exists pre, suf. split; [done|]. split; [|by apply Hup].
          intros q Hq. by apply Hlow, Hpre.
        - intros p Hp. apply list_elem_of_In in Hp. by apply Hlow, (find_none _ _ E). }
      destruct s as [|n|n].
      + destruct (en_head f l Hf Hl) as (f1 & Hrun & Hf1). exists (head (v_entries v)), f1. split; [done|]. split; [done|].
        destruct (v_entries v) as [|p suf]; [by intros p ?%not_elem_of_nil|]. exists [], suf. split; [done|].
        split; [by intros q ?%not_elem_of_nil|by right].
      + destruct Hl as (Ht & Hset & Hi & Hn). apply (Hseek n); [by right|done|done|done|done|]. intros p Hp. by right.
      + destruct Hl as (o & -> & Hn & Hc). apply (Hseek n); [by left|done|done|done| |by intros p Hp; left; exists n].
        intros p Hp. unfold behind. simpl. apply Z.leb_gt in Hp. apply Z.ltb_ge. lia.
    - rewrite bool_decide_eq_true_2, (proj2 (Z.ltb_lt 0 offset)) by (done || by apply en_pos). simpl.
      destruct (en_entry f offset Hf Hin) as [Hmove _]. rewrite (run_bind _ _ _ _ _ Hmove).
      apply list_elem_of_split in Hin as (pre & suf & El). destruct (next_entry_ok f pre offset suf Hf El) as (f1 & Hrun & Hf1).
      exists (head suf), f1. split; [done|]. split; [done|].
      assert (forall q, q ∈ pre ++ [offset] -> behind s q = false) as Hpre.
      { intros q [Hq| ->%list_elem_of_singleton]%elem_of_app; [|done]. eapply behind_mono; [|exact Hb].
        pose proof en_seqnum as Hs. rewrite El in Hs. apply sorted_split in Hs as [H1 _]. specialize (H1 q Hq). lia. }
      destruct suf as [|q suf]; simpl.
      + intros q Hq. apply Hpre. by rewrite El in Hq.
      + exists (pre ++ [offset]), suf. split; [by rewrite El, <- app_assoc|]. split; [done|by left]. }
  rewrite (run_bind _ _ _ _ _ Hrun). destruct r as [p|].
  - destruct Hr as (pre & suf & El & Hpre & Hs). eapply beyond_loop_ok; [done|done|exact El|done|done|].
    rewrite El, length_app in Hfuel. simpl in Hfuel. lia.
  - exists f1. split; [|done]. unfold next_of. by rewrite find_all_false.
Qed.

End OneFile.

(** * All files *)

Section Files.
Context (e : Env) (fuel : nat) (getpid : Z) (levels : Levels) (views : list Z -> view) (paths : list (list Z)) (id : list Z).
Hypothesis (Hviews : forall p, p ∈ paths -> Enumerable e fuel levels (views p))
  (Hid : forall p, p ∈ paths -> v_id (views p) = id)
  (Hcopies : forall p q a b, p ∈ paths -> q ∈ paths -> a ∈ v_entries (views p) -> b ∈ v_entries (views q) ->
     copies (v_head (views p) a) (v_head (views q) b))
  (Hfuel : forall p, p ∈ paths -> (length (v_entries (views p)) < fuel)%nat).

(** An entry of a file, and its sequence number. *)
Definition is_entry (x : list Z * Z) : Prop := x.1 ∈ paths /\ x.2 ∈ v_entries (views x.1).
Definition seqnum_at (x : list Z * Z) : Z := v_seqnum (views x.1) x.2.
Definition is_behind (s : position) (x : list Z * Z) : Prop := behind (views x.1) s x.2 = true.

Record state_ok (s : position) (j : sd_journal) : Prop := {
  so_paths : map fs_path (j_files j) = paths;
  so_levels : j_levels j = levels;
  so_pid : j_original_pid j = getpid;
  so_files : forall fs, fs ∈ j_files j -> v_keeps (views (fs_path fs)) (fs_file fs)
    /\ placed (views (fs_path fs)) s (fs_current_offset fs) (fs_last_direction fs);
  so_location : match s with
    | Head => l_type (j_current_location j) = LOCATION_HEAD
    | From n => let l := j_current_location j in
        l_type l = LOCATION_SEEK /\ l_seqnum_set l = true /\ l_seqnum_id l = id /\ l_seqnum l = n
    | Behind s => exists x o, is_entry x /\ o = v_head (views x.1) x.2
                  /\ j_current_location j = init_location LOCATION_DISCRETE o id /\ eh_seqnum o = s
    end }.

Lemma state_located s j p : state_ok s j -> p ∈ paths -> located_at (views p) (j_current_location j) s.
Proof.
  intros H Hp. pose proof (so_location _ _ H) as Hl. destruct s as [|n|s]; [done|by rewrite <- (Hid p Hp) in Hl|].
  destruct Hl as ([q b] & o & [Hq Hb] & -> & Hl & Hs). exists (v_head (views q) b). rewrite Hid by done.
  split; [done|]. split; [done|]. intros a Ha. by apply Hcopies.
Qed.

Lemma find_file_ok s j p : state_ok s j -> p ∈ paths ->
  exists fs, find_file p (j_files j) = Some fs /\ fs ∈ j_files j /\ fs_path fs = p.
Proof.
  intros H Hp. rewrite <- (so_paths _ _ H) in Hp. apply list_elem_of_fmap in Hp as (fs & -> & Hin).
  unfold find_file. destruct (List.find _ _) as [fs'|] eqn:E.
  - apply List.find_some in E as [Hin' E%bool_decide_eq_true]. exists fs'. split_and!; [done|by apply list_elem_of_In|done].
  - apply list_elem_of_In in Hin. apply (find_none _ _ E) in Hin. by apply bool_decide_eq_false in Hin.
Qed.

Lemma update_file_in p g fs files : fs ∈ update_file p g files ->
  exists fs0, fs0 ∈ files /\ (fs_path fs0 = p /\ fs = g fs0 \/ fs_path fs0 <> p /\ fs = fs0).
Proof.
  unfold update_file. intros (fs0 & -> & Hin)%list_elem_of_fmap. exists fs0. split; [done|].
  case_bool_decide; [by left|by right].
Qed.

Lemma update_file_paths p g files : (forall fs, fs_path (g fs) = fs_path fs) ->
  map fs_path (update_file p g files) = map fs_path files.
Proof.
  intros Hg. unfold update_file. rewrite map_map. apply map_ext. intros fs. case_bool_decide; [apply Hg|done].
Qed.

Lemma find_update p g files fs : (forall fs, fs_path (g fs) = fs_path fs) -> find_file p files = Some fs ->
  find_file p (update_file p g files) = Some (g fs).
Proof.
  intros Hg Hfs. unfold find_file, update_file in *. induction files as [|f l IH]; simpl in *; [done|].
  destruct (decide (fs_path f = p)) as [Ep|Hne].
  - rewrite (bool_decide_eq_true_2 _ Ep) in Hfs |- *. injection Hfs as ->. by rewrite Hg, (bool_decide_eq_true_2 _ Ep).
  - rewrite (bool_decide_eq_false_2 _ Hne) in Hfs |- *. rewrite (bool_decide_eq_false_2 _ Hne). by apply IH.
Qed.

(** A call on a file that keeps it. *)
Lemma on_file_ok {B} s j p fs (x : M B) r f' :
  state_ok s j -> find_file p (j_files j) = Some fs -> fs_path fs = p ->
  x (fs_file fs) = (Ok r, f') -> v_keeps (views p) f' ->
  exists j', on_file p x j = (Ok (inl r), j') /\ state_ok s j'.
Proof.
  intros H Hfs Hp Hx Hf'. eexists. split; [unfold on_file; rewrite Hfs, Hx; reflexivity|].
  destruct H as [H1 H2 H3 H4 H5]. split; try done.
  - cbn [j_files set_files]. by rewrite update_file_paths.
  - intros fs1 Hin. cbn [j_files set_files] in Hin. apply update_file_in in Hin as (fs0 & Hin & [[E ->]|[E ->]]); [|by apply H4].
    simpl. rewrite E. split; [done|]. rewrite <- E. by apply H4.
Qed.

(** The same for a call that only reads an entry. *)
Lemma read_head_ok s j p q : state_ok s j -> p ∈ paths -> q ∈ v_entries (views p) ->
  exists j', on_file p (o <- entry_head q ;; id <- file_seqnum_id ;; ret (o, id)) j
    = (Ok (inl (v_head (views p) q, id)), j') /\ state_ok s j'.
Proof.
  intros H Hp Hq. destruct (find_file_ok s j p H Hp) as (fs & Hfs & Hin & E).
  pose proof (Hviews p Hp). destruct (so_files _ _ H fs Hin) as [Hk _]. rewrite E in Hk.
  destruct (en_entry _ q Hk Hq) as [_ Hh]. eapply on_file_ok; [done|done|done| |exact Hk].
  rewrite (run_bind _ _ _ _ _ Hh), (run_bind _ _ _ _ _ (en_id _ Hk)), Hid by done. done.
Qed.

Lemma move_head_ok s j p q : state_ok s j -> p ∈ paths -> q ∈ v_entries (views p) ->
  exists j', on_file p (o <- journal_file_move_to_object e OBJECT_ENTRY q ;;
                        h <- entry_head o ;; id <- file_seqnum_id ;; ret (h, id)) j
    = (Ok (inl (v_head (views p) q, id)), j') /\ state_ok s j'.
Proof.
  intros H Hp Hq. destruct (find_file_ok s j p H Hp) as (fs & Hfs & Hin & E).
  pose proof (Hviews p Hp). destruct (so_files _ _ H fs Hin) as [Hk _]. rewrite E in Hk.
  destruct (en_entry _ q Hk Hq) as [Hm Hh]. eapply on_file_ok; [done|done|done| |exact Hk].
  rewrite (run_bind _ _ _ _ _ Hm), (run_bind _ _ _ _ _ Hh), (run_bind _ _ _ _ _ (en_id _ Hk)), Hid by done. done.
Qed.

Lemma compare_entry_order_ok s j p a q b : state_ok s j -> p ∈ paths -> a ∈ v_entries (views p) ->
  q ∈ paths -> b ∈ v_entries (views q) ->
  exists k j', compare_entry_order e p id (v_head (views p) a) q b j = (Ok k, j') /\ state_ok s j'
    /\ (k <? 0) = (seqnum_at (p, a) <? seqnum_at (q, b)).
Proof.
  intros H Hp Ha Hq Hb. destruct (move_head_ok s j q b H Hq Hb) as (j' & Hrun & H').
  eexists _, j'. split; [unfold compare_entry_order, jbind; by rewrite Hrun|]. split; [done|].
  rewrite same_uuid_refl. by apply compare_entries_ok, Hcopies.
Qed.

(** What the loop over the files has found in the files it has seen. *)
Definition earliest (s : position) (seen : list (list Z)) (new : option (list Z * Z)) : Prop :=
  match new with
  | None => forall p, p ∈ seen -> next_of (views p) s = None
  | Some (p, a) => p ∈ seen /\ next_of (views p) s = Some a
      /\ forall q b, q ∈ seen -> next_of (views q) s = Some b -> seqnum_at (p, a) <= seqnum_at (q, b)
  end.

Lemma next_of_entry p s a : next_of (views p) s = Some a -> a ∈ v_entries (views p) /\ behind (views p) s a = true.
Proof. intros [H1 H2]%List.find_some. split; [by apply list_elem_of_In|done]. Qed.

Lemma next_file_loop_ok s ps : forall seen new j,
  (forall p, p ∈ ps -> p ∈ paths) -> (forall p, p ∈ seen -> p ∈ paths) -> state_ok s j -> earliest s seen new ->
  exists new' j', next_file_loop e fuel DIRECTION_DOWN ps new j = (Ok new', j') /\ state_ok s j' /\ earliest s (seen ++ ps) new'.
Proof.
  induction ps as [|p ps IH]; intros seen new j Hps Hseen H Hnew.
  { exists new, j. rewrite app_nil_r. done. }
  cbn [next_file_loop]. unfold jbind at 1, jget. assert (p ∈ paths) as Hp by (apply Hps; constructor).
  destruct (find_file_ok s j p H Hp) as (fs & Hfs & Hin & E). rewrite Hfs.
  pose proof (Hviews p Hp) as HE. destruct (so_files _ _ H fs Hin) as [Hk Hpl]. rewrite E in Hk, Hpl.
  rewrite (so_levels _ _ H).
  destruct (next_beyond_location_ok e fuel levels (views p) _ s _ _ _ (state_located s j p H Hp) Hpl Hk (Hfuel p Hp))
    as (f' & Hrun & Hf').
  destruct (on_file_ok s j p fs _ _ f' H Hfs E Hrun Hf') as (j1 & Hon & H1).
  unfold jbind at 1. rewrite Hon.
  replace (seen ++ p :: ps) with ((seen ++ [p]) ++ ps) by (by rewrite <- app_assoc).
  assert (forall q, q ∈ ps -> q ∈ paths) as Hps' by (intros q Hq; apply Hps; by constructor).
  assert (forall q, q ∈ seen ++ [p] -> q ∈ paths) as Hseen'.
  { intros q [Hq| ->%list_elem_of_singleton]%elem_of_app; [by apply Hseen|done]. }
  destruct (next_of (views p) s) as [a|] eqn:En.
  2:{ apply IH; [done|done|done|]. destruct new as [[q b]|]; simpl in *.
      - destruct Hnew as (Hq & Hb & Hle). split_and!; [by apply elem_of_app; left|done|].
        intros q' b' [Hq'| ->%list_elem_of_singleton]%elem_of_app; [by apply Hle|]. by rewrite En.
      - intros q [Hq| ->%list_elem_of_singleton]%elem_of_app; [by apply Hnew|done]. }
  destruct (next_of_entry p s a En) as [Ha Hba]. destruct new as [[q b]|].
  - destruct Hnew as (Hq & Hb & Hle). destruct (next_of_entry q s b Hb) as [Hbin _].
    destruct (read_head_ok s j1 p a H1 Hp Ha) as (j2 & Hread & H2).
    destruct (compare_entry_order_ok s j2 p a q b H2 Hp Ha (Hseen q Hq) Hbin) as (k & j3 & Hcmp & H3 & Hk3).
    unfold jbind at 1. unfold on_file_ at 1, jbind at 1. unfold jbind at 1. rewrite Hread. unfold jret at 1. cbn [fst snd].
    unfold jbind at 1. rewrite Hcmp. unfold jret at 1. rewrite Hk3.
    destruct (seqnum_at (p, a) <? seqnum_at (q, b)) eqn:Elt; (apply IH; [done|done|done|]).
    + apply Z.ltb_lt in Elt. split_and!; [apply elem_of_app; right; constructor|done|].
      intros q' b' [Hq'| ->%list_elem_of_singleton]%elem_of_app Hb'; [|rewrite En in Hb'; injection Hb' as ->; lia].
      specialize (Hle q' b' Hq' Hb'). lia.
    + apply Z.ltb_ge in Elt. split_and!; [by apply elem_of_app; left|done|].
      intros q' b' [Hq'| ->%list_elem_of_singleton]%elem_of_app Hb'; [by apply Hle|]. rewrite En in Hb'. by injection Hb' as ->.
  - unfold jbind at 1, jret at 1. apply IH; [done|done|done|]. split_and!; [apply elem_of_app; right; constructor|done|].
    intros q' b' [Hq'| ->%list_elem_of_singleton]%elem_of_app Hb'; [by rewrite (Hnew q' Hq') in Hb'|].
    rewrite En in Hb'. injection Hb' as ->. lia.
Qed.

(** One step of the iteration. *)
Lemma real_journal_next_ok s j : state_ok s j ->
  exists j', (real_journal_next e fuel getpid DIRECTION_DOWN j = (Ok 0, j') /\ state_ok s j'
      /\ forall x, is_entry x -> ~ is_behind s x)
    \/ exists p a fs, real_journal_next e fuel getpid DIRECTION_DOWN j = (Ok 1, j')
      /\ state_ok (Behind (seqnum_at (p, a))) j' /\ is_entry (p, a) /\ is_behind s (p, a)
      /\ (forall x, is_entry x -> is_behind s x -> seqnum_at (p, a) <= seqnum_at x)
      /\ j_current_file j' = Some p /\ find_file p (j_files j') = Some fs /\ fs_current_offset fs = a.
Proof.
  intros H.
  destruct (next_file_loop_ok s paths [] None j) as (new & j1 & Hrun & H1 & Hnew); [done|by intros q ?%not_elem_of_nil|done|by intros q ?%not_elem_of_nil|].
  assert (forall k, real_journal_next e fuel getpid DIRECTION_DOWN j = k <->
    match new with
    | None => (Ok 0, j1)
    | Some (f, p) =>
        jbind (on_file_ f (o <- journal_file_move_to_object e OBJECT_ENTRY p ;;
                       h <- entry_head o ;; id <- file_seqnum_id ;; ret (h, id)))
          (fun x => jmodify (fun j => set_location j LOCATION_DISCRETE f x.2 x.1 DIRECTION_DOWN p) ~;; jret 1) j1
    end = k) as Hreal.
  { intros k. unfold real_journal_next. unfold jbind at 1, check_pid, jfail_if. rewrite (so_pid _ _ H), Z.eqb_refl. simpl negb.
    cbv iota. unfold jbind at 1, jget. rewrite (so_paths _ _ H). unfold jbind at 1. rewrite Hrun. by destruct new as [[p a]|]. }
  destruct new as [[p a]|]; cbn [app] in Hnew.
  - destruct Hnew as (Hp & Ha & Hle). destruct (next_of_entry p s a Ha) as [Hin Hb].
    destruct (move_head_ok s j1 p a H1 Hp Hin) as (j2 & Hread & H2).
    destruct (find_file_ok s j2 p H2 Hp) as (fs & Hfs & Hfin & E).
    set (j' := set_location j2 LOCATION_DISCRETE p id (v_head (views p) a) DIRECTION_DOWN a).
    assert (find_file p (j_files j') = Some (set_position fs a DIRECTION_DOWN)) as Hfs'.
    { by apply (find_update p (fun fs => set_position fs a DIRECTION_DOWN)). }
    exists j'. right. exists p, a, (set_position fs a DIRECTION_DOWN). split.
    { apply Hreal. unfold on_file_, jbind, jmodify, jret. by rewrite Hread. }
    split_and!; try done.
    + destruct H2 as [P1 P2 P3 P4 P5]. split; try done.
      * unfold j', set_location. cbn [j_files set_files set_current set_current_location]. by rewrite update_file_paths.
      * intros fs1 Hin1. unfold j', set_location in Hin1. cbn [j_files set_files set_current set_current_location] in Hin1.
        apply update_file_in in Hin1 as (fs0 & Hin0 & [[E0 ->]|[E0 ->]]).
        -- simpl. rewrite E0. split; [rewrite <- E0; by apply P4|]. right. split; [by eexists|]. split; [done|]. split; [done|].
           apply Z.ltb_irrefl.
        -- destruct (P4 fs0 Hin0) as [Hk Hpl]. split; [done|].
           destruct Hpl as [Hz|([n ->] & Hd & Hi & Hbh)]; [by left|right]. split; [by eexists|]. split; [done|]. split; [done|].
           unfold behind in *. simpl in *. apply Z.ltb_ge in Hbh. apply Z.ltb_ge. apply Z.ltb_lt in Hb. unfold seqnum_at. simpl. lia.
      * exists (p, a), (v_head (views p) a). split; [done|]. split; [done|]. split; [done|]. done.
    + intros [q b] [Hq Hbin] Hbb. simpl in *.
      destruct (next_of (views q) s) as [b'|] eqn:Eq.
      * etrans; [by apply (Hle q b')|]. unfold next_of in Eq. apply find_first in Eq as (pre & suf & El & Hb' & Hpre).
        unfold seqnum_at. simpl. rewrite El in Hbin. apply elem_of_app in Hbin as [Hbin|[->|Hbin]%elem_of_cons].
        -- apply Hpre in Hbin. unfold is_behind in Hbb. simpl in Hbb. congruence.
        -- lia.
        -- pose proof (Hviews q Hq). pose proof (en_seqnum (v := views q)) as Hs. rewrite El in Hs.
           apply sorted_split in Hs as [_ Hs]. specialize (Hs b Hbin). lia.
      * exfalso. unfold next_of in Eq. apply list_elem_of_In in Hbin. apply (find_none _ _ Eq) in Hbin.
        unfold is_behind in Hbb. simpl in Hbb. congruence.
  - exists j1. left. split; [by apply Hreal|]. split; [done|]. intros [q b] [Hq Hbin] Hbb. simpl in *.
    specialize (Hnew q Hq). unfold next_of in Hnew. apply list_elem_of_In in Hbin. apply (find_none _ _ Hnew) in Hbin.
    unfold is_behind in Hbb. simpl in Hbb. congruence.
Qed.

(** The entries behind [s], in order, one for every sequence number. *)
Definition enumerates (s : position) (its : list (list Z * Z)) : Prop :=
  Forall (fun x => is_entry x /\ is_behind s x) its
  /\ StronglySorted (fun x y => seqnum_at x < seqnum_at y) its
  /\ forall x, is_entry x -> is_behind s x -> exists y, y ∈ its /\ seqnum_at y = seqnum_at x.

(** The sequence numbers still to come. *)
Definition all_seqnums : list Z :=
  concat (map (fun p => map (v_seqnum (views p)) (v_entries (views p))) paths).
Definition to_come (s : position) : list Z :=
  List.filter (after s) all_seqnums.

Lemma all_seqnums_in x : is_entry x -> seqnum_at x ∈ all_seqnums.
Proof.
  destruct x as [p a]. intros [Hp Ha]. unfold all_seqnums, seqnum_at. simpl in *. apply list_elem_of_split in Hp as (l1 & l2 & ->).
  rewrite map_app, concat_app. apply elem_of_app. right. simpl. apply elem_of_app. left. apply list_elem_of_fmap. by exists a.
Qed.

Lemma to_come_shrinks s x : is_entry x -> is_behind s x -> (length (to_come (Behind (seqnum_at x))) < length (to_come s))%nat.
Proof.
  intros Hx Hb. pose proof (all_seqnums_in x Hx) as Hin. unfold to_come. unfold is_behind, behind in Hb.
  change (after s (seqnum_at x) = true) in Hb.
  revert Hb Hin. generalize (seqnum_at x) as n. generalize all_seqnums as l. clear. intros l n Hs Hin.
  assert (forall l, (length (List.filter (after (Behind n)) l) <= length (List.filter (after s) l))%nat) as Hle.
  { clear -Hs. induction l as [|m l IH]; simpl; [done|]. destruct (Z.ltb_spec n m).
    - rewrite (after_mono s n m) by (done || lia). simpl. lia.
    - destruct (after s m); simpl; lia. }
  induction l as [|m l IH]; [by apply not_elem_of_nil in Hin|]. apply elem_of_cons in Hin as [->|Hin]; simpl.
  - rewrite Hs, Z.ltb_irrefl. simpl. specialize (Hle l). lia.
  - specialize (IH Hin). destruct (Z.ltb_spec n m).
    + rewrite (after_mono s n m) by (done || lia). simpl. lia.
    + destruct (after s m); simpl; lia.
Qed.

Lemma foreach_next_ok n : forall s j, state_ok s j -> (length (to_come s) < n)%nat ->
  exists its j', foreach_next e fuel getpid n DIRECTION_DOWN j = (Ok its, j') /\ enumerates s its.
Proof.
  induction n as [|n IH]; intros s j H Hn; [lia|]. cbn [foreach_next]. unfold jbind at 1, returned at 1.
  destruct (real_journal_next_ok s j H) as (j1 & [(Hrun & H1 & Hnone)|(p & a & fs & Hrun & H1 & Hin & Hb & Hle & Hcur & Hfs & Hoff)]);
    rewrite Hrun; simpl.
  - exists [], j1. split; [done|]. split; [done|]. split; [constructor|]. intros x Hx Hbx. by destruct (Hnone x Hx).
  - unfold jbind at 1, jget. rewrite Hcur, Hfs. unfold jbind.
    destruct (IH _ _ H1) as (its & j2 & Hrest & Hall & Hsort & Hcomplete).
    { pose proof (to_come_shrinks s (p, a) Hin Hb). lia. }
    exists ((p, a) :: its), j2. rewrite Hrest, Hoff. split; [done|].
    assert (forall y, is_behind (Behind (seqnum_at (p, a))) y -> seqnum_at (p, a) < seqnum_at y) as Hbl
      by (intros y Hy; by apply Z.ltb_lt in Hy).
    split; [|split].
    + constructor; [done|]. eapply Forall_impl; [exact Hall|]. intros y [Hy Hby]. split; [done|].
      specialize (Hbl y Hby). unfold is_behind, behind in *. eapply after_mono; [|exact Hb]. unfold seqnum_at in Hbl. lia.
    + constructor; [done|]. eapply Forall_impl; [exact Hall|]. intros y [Hy Hby]. by apply Hbl.
    + intros x Hx Hbx. specialize (Hle x Hx Hbx). destruct (Z.eq_dec (seqnum_at (p, a)) (seqnum_at x)) as [E|E].
      * exists (p, a). split; [constructor|done].
      * destruct (Hcomplete x Hx) as (y & Hy & Ey); [|exists y; split; [by constructor|done]].
        unfold is_behind. simpl. apply Z.ltb_lt. unfold seqnum_at in *. simpl in *. lia.
Qed.

Lemma foreach_ok n j : (length all_seqnums < n)%nat ->
  map fs_path (j_files j) = paths -> j_levels j = levels -> j_original_pid j = getpid ->
  (forall fs, fs ∈ j_files j -> v_keeps (views (fs_path fs)) (fs_file fs)) ->
  exists its j', SD_JOURNAL_FOREACH e fuel getpid n j = (Ok its, j') /\ enumerates Head its.
Proof.
  intros Hn Hp Hl Hpid Hk. unfold SD_JOURNAL_FOREACH, returned, sd_journal_seek_head, check_pid, jfail_if, jbind, jmodify, jret.
  rewrite Hpid, Z.eqb_refl. simpl negb. cbv iota. simpl Z.leb. cbv iota.
  apply foreach_next_ok.
  - split; try done.
    + cbn. by rewrite map_map.
    + intros fs Hin. cbn in Hin. apply list_elem_of_fmap in Hin as (fs0 & -> & Hin). simpl. split; [by apply Hk|by left].
  - unfold to_come. simpl. assert (forall l : list Z, List.filter (fun _ => true) l = l) as -> by (clear; induction l as [|x l IH]; simpl; congruence).
    done.
Qed.

(** ** The current entry *)

(** The handle reads the files, wherever it is. *)
Record handle_ok (j : sd_journal) : Prop := {
  hk_paths : map fs_path (j_files j) = paths;
  hk_levels : j_levels j = levels;
  hk_pid : j_original_pid j = getpid;
  hk_files : forall fs, fs ∈ j_files j -> v_keeps (views (fs_path fs)) (fs_file fs) }.

Lemma state_handle s j : state_ok s j -> handle_ok j.
Proof. intros [H1 H2 H3 H4 _]. split; try done. intros fs Hfs. by apply H4. Qed.

(** The current entry is [x]. *)
Definition at_entry (j : sd_journal) (x : list Z * Z) : Prop :=
  j_current_file j = Some x.1 /\ exists fs, find_file x.1 (j_files j) = Some fs /\ fs_current_offset fs = x.2.

Lemma current_head_ok j x : handle_ok j -> is_entry x -> at_entry j x ->
  exists j', current_head e j = (Ok (v_head (views x.1) x.2, id), j') /\ handle_ok j' /\ at_entry j' x.
Proof.
  intros [H1 H2 H3 H4] [Hp Ha] (Hcur & fs & Hfs & Hoff). destruct x as [p a]. simpl in *.
  pose proof (Hviews p Hp) as HE. pose proof (List.find_some _ _ Hfs) as [Hin Hpath%bool_decide_eq_true].
  apply list_elem_of_In in Hin. pose proof (H4 fs Hin) as Hk. rewrite Hpath in Hk.
  destruct (en_entry _ a Hk Ha) as [Hm Hh].
  assert ((o <- journal_file_move_to_object e OBJECT_ENTRY a ;; h <- entry_head o ;; id <- file_seqnum_id ;; ret (h, id)) (fs_file fs)
    = (Ok (v_head (views p) a, id), fs_file fs)) as Hrun.
  { rewrite (run_bind _ _ _ _ _ Hm), (run_bind _ _ _ _ _ Hh), (run_bind _ _ _ _ _ (en_id _ Hk)), Hid by done. done. }
  set (g := fun fs0 => set_handle fs0 (fs_file fs)).
  exists (set_files j (update_file p g (j_files j))). split; [|split].
  - pose proof (en_pos a Ha). unfold current_head, current_entry, jbind, jget. rewrite Hcur, Hfs, Hoff.
    unfold jfail_if. destruct (Z.leb_spec a 0); [lia|]. cbn [jret fst snd]. unfold on_file_, jbind, on_file. rewrite Hfs.
    rewrite Hrun. reflexivity.
  - split; [cbn [j_files set_files]; by rewrite update_file_paths|done|done|].
    intros fs1 Hin1. cbn [j_files set_files] in Hin1. apply update_file_in in Hin1 as (fs0 & Hin0 & [[E ->]|[E ->]]); [|by apply H4].
    simpl. by rewrite E.
  - split; [done|]. exists (g fs). split; [by apply find_update|done].
Qed.

(** Seeking to a sequence number and stepping gives the first entry from there on. *)
Lemma seek_next_ok j l n x : handle_ok j ->
  l_type l = LOCATION_SEEK -> l_seqnum_set l = true -> l_seqnum_id l = id -> l_seqnum l = n ->
  is_entry x -> n <= seqnum_at x ->
  exists y j', real_journal_next e fuel getpid DIRECTION_DOWN (set_current_location (reset_location j) l) = (Ok 1, j')
    /\ is_entry y /\ n <= seqnum_at y /\ (forall z, is_entry z -> n <= seqnum_at z -> seqnum_at y <= seqnum_at z)
    /\ handle_ok j' /\ at_entry j' y.
Proof.
  intros [H1 H2 H3 H4] Ht Hset Hi Hn Hx Hle.
  assert (state_ok (From n) (set_current_location (reset_location j) l)) as Hst.
  { split; try done.
    - cbn. by rewrite map_map.
    - intros fs Hin. cbn in Hin. apply list_elem_of_fmap in Hin as (fs0 & -> & Hin). simpl. split; [by apply H4|by left]. }
  destruct (real_journal_next_ok _ _ Hst) as (j' & [(_ & _ & Hnone)|(p & a & fs & Hrun & H' & Hin & Hb & Hmin & Hcur & Hfs & Hoff)]).
  - destruct (Hnone x Hx). by apply Z.leb_le.
  - exists (p, a), j'. split; [done|]. split; [done|]. split; [by apply Z.leb_le|].
    split; [intros z Hz Hzn; apply Hmin; [done|by apply Z.leb_le]|]. split; [by eapply state_handle|].
    split; [done|]. by exists fs.
Qed.

End Files.
