(* ===== verification/MatchFind.v ===== *)
(** The search of find_location_for_match: given files whose data objects can be
    searched from a location, it finds the first entry there that matches the tree. *)
From S2P Require Import Prelude Lookup3 Uuid Memory CString JournalDef JournalFile JournalSeek Match MatchProofs.

(** What a file promises to the search from a location, downwards: [low] holds of the
    entries that are not before the location. *)
Class Locatable (e : Env) (fuel : nat) (l : Location) (P : JournalFile -> Prop)
    (has : discrete -> Z -> bool) (U : list Z) (low : Z -> Prop) : Prop := {
  lo_discrete : forall f d, P f -> hashed d ->
    exists r f', find_location_for_match e fuel DIRECTION_DOWN l (MATCH_DISCRETE d) f = (Ok r, f') /\ P f'
      /\ is_first DIRECTION_DOWN (fun p => has d p = true /\ low p) 0 r;
  lo_up : forall p q, p ∈ U -> q ∈ U -> p <= q -> low p -> low q }.

Section Find.
Context (e : Env) (fuel : nat) (l : Location) (P : JournalFile -> Prop) (has : discrete -> Z -> bool) (U : list Z)
  (low : Z -> Prop) `{!Searchable e fuel DIRECTION_DOWN P has U} `{!Locatable e fuel l P has U low}.

Abbreviation is_first := (is_first DIRECTION_DOWN).
Abbreviation sat := (sat has).
Abbreviation find m := (find_location_for_match e fuel DIRECTION_DOWN l m).

(** The search of the term finds its first entry. *)
Definition locates (m : Match) : Prop :=
  forall f, P f -> exists r f', find m f = (Ok r, f') /\ P f' /\ is_first (fun p => sat m p = true /\ low p) 0 r.

Lemma sat_in m p : sat m p = true -> p ∈ U.
Proof. exact (sat_all e fuel DIRECTION_DOWN P has U m p). Qed.

Lemma sat_pos m p : sat m p = true -> 0 < p.
Proof. intros H. by eapply (se_pos (Searchable := Searchable0)), sat_in. Qed.

(** Nothing that all the terms have is before the farthest of their first entries. *)
Lemma all_loop_ok ms : Forall locates ms -> forall f np, P f -> 0 <= np ->
  exists r f', all_loop DIRECTION_DOWN (map (fun m => find m) ms) np f = (Ok r, f') /\ P f'
    /\ match r with
       | None => forall q, ~ (forall m, m ∈ ms -> sat m q = true /\ low q)
       | Some np' => np <= np' /\ (ms <> [] -> 0 < np') /\ (np' = np \/ np' ∈ U /\ low np')
           /\ forall q, (forall m, m ∈ ms -> sat m q = true /\ low q) -> np <= q -> np' <= q
       end.
Proof.
  intros Hms. induction Hms as [|m ms Hm Hms IH]; intros f np Hf Hnp; cbn [map all_loop].
  { exists (Some np), f. split; [done|]. split; [done|]. split; [lia|]. split; [done|]. split; [by left|done]. }
  destruct (Hm f Hf) as (r & f1 & Hrun & Hf1 & Hr). rewrite (run_bind _ _ _ _ _ Hrun).
  destruct r as [cp|].
  2:{ exists None, f1. split; [done|]. split; [done|]. intros q Hq.
      destruct (Hq m (list_elem_of_here _ _)) as [Hs Hl]. specialize (Hr q (conj Hs Hl)). simpl in Hr.
      apply Z.ltb_lt in Hr. pose proof (sat_pos m q Hs). lia. }
  destruct Hr as ([Hs Hl] & _ & Hmin). pose proof (sat_pos m cp Hs) as Hcp.
  set (np1 := farther DIRECTION_DOWN np cp).
  assert (np <= np1 /\ 0 < np1 /\ (np1 = np \/ np1 = cp) /\ cp <= np1) as (H1 & H2 & H3 & H4).
  { unfold np1, farther. destruct (Z.eqb_spec np 0); simpl; [lia|]. destruct (Z.ltb_spec np cp); lia. }
  destruct (IH f1 np1 Hf1 ltac:(lia)) as (r & f' & Hrun' & Hf' & Hr). exists r, f'. split; [exact Hrun'|]. split; [done|].
  destruct r as [np'|].
  - destruct Hr as (R1 & R2 & R3 & R4). split; [lia|]. split; [lia|]. split.
    + destruct R3 as [->|R3]; [|by right]. destruct H3 as [->|E3]; [by left|]. right. rewrite E3. split; [by eapply sat_in|done].
    + intros q Hq Hle. apply R4; [intros m' Hm'; apply Hq; by constructor|].
      destruct (Hq m (list_elem_of_here _ _)) as [Hsq Hlq].
      specialize (Hmin q (conj Hsq Hlq)). simpl in Hmin. rewrite !Z.ltb_ge in Hmin. pose proof (sat_pos m q Hsq).
      destruct H3 as [->| ->]; [done|]. apply Hmin. lia.
  - intros q Hq. apply (Hr q). intros m' Hm'. apply Hq. by constructor.
Qed.

Lemma find_location_for_match_ok m : Forall hashed (discretes m) -> (and_fuel U m <= fuel)%nat -> locates m.
Proof.
  induction m as [d|ms IH|ms IH] using Match_nested_ind; intros Hh Hfuel f Hf.
  - apply Forall_cons in Hh as [Hh _]. exact (lo_discrete (Locatable := Locatable0) f d Hf Hh).
  - assert (forall m, m ∈ ms -> locates m) as Hms.
    { intros m Hm. rewrite Forall_forall in IH. apply IH; [done|by eapply discretes_in|by eapply and_fuel_in]. }
    destruct (or_loop_first DIRECTION_DOWN P (fun m => find m) (fun m p => sat m p = true /\ low p) 0 ms
      (fun m p Hp => sat_pos m p (proj1 Hp)) (fun m f' Hm Hf' => Hms m Hm f' Hf') f 0 (fun _ => False) Hf)
      as (np & f' & Hrun & Hf' & Hr); [by intros q|].
    cbn [find_location_for_match]. rewrite (run_bind _ _ _ _ _ Hrun).
    apply (is_first_ext _ _ (fun p => sat (MATCH_OR_TERM ms) p = true /\ low p)) in Hr.
    2:{ intros p. rewrite sat_or. split; [intros [[]|(m & Hm & Hs & Hl)]; split; [by exists m|done]|].
        intros [(m & Hm & Hs) Hl]. right. by exists m. }
    unfold found_offset in Hr. destruct (np =? 0); [by exists None, f'|].
    exists (Some np), f'. split; [|done]. destruct Hr as ([Hs _] & _).
    by rewrite (run_bind _ _ _ _ _ (se_entry (Searchable := Searchable0) f' np Hf' (sat_in _ _ Hs))).
  - cbn [find_location_for_match]. destruct ms as [|m0 ms0] eqn:Ems.
    { exists None, f. split; [done|]. split; [done|]. by intros q [Hs _]. }
    rewrite <- Ems in *.
    assert (Forall locates ms) as Hms.
    { rewrite Forall_forall in IH |- *. intros m Hm. apply IH; [done|by eapply discretes_in|]. eapply and_fuel_in; [|done]. simpl in Hfuel. lia. }
    destruct (all_loop_ok ms Hms f 0 Hf ltac:(lia)) as (r & f1 & Hrun & Hf1 & Hr).
    replace (map (find_location_for_match e fuel DIRECTION_DOWN l) ms) with (map (fun m => find m) ms) by done.
    rewrite (run_bind _ _ _ _ _ Hrun). destruct r as [np|].
    + destruct Hr as (_ & Hpos & Hin & Hle). assert (0 < np) as Hnp by (apply Hpos; by rewrite Ems).
      destruct Hin as [->|[Hin Hlow]]; [lia|].
      destruct (next_for_match_ok e fuel DIRECTION_DOWN P has U (MATCH_AND_TERM ms) Hh Hfuel f1 np Hf1 ltac:(lia))
        as (r & f' & Hrun' & Hf' & Hr). exists r, f'. split; [exact Hrun'|]. split; [done|].
      destruct r as [p|].
      * destruct Hr as (Hs & Hb & Hmin). simpl in Hb, Hmin. rewrite Z.ltb_ge in Hb. split.
        { split; [done|]. eapply (lo_up np p); [done|by eapply sat_in|lia|done]. }
        split; [apply Z.ltb_ge; lia|]. intros q [Hsq Hlq] _. apply Hmin; [done|]. apply Z.ltb_ge. apply Hle.
        { intros m Hm. split; [|done]. apply sat_and in Hsq as [_ Hsq]. by apply Hsq. }
        pose proof (sat_pos _ _ Hsq). lia.
      * intros q [Hsq Hlq]. exfalso. specialize (Hr q Hsq). simpl in Hr. apply Z.ltb_lt in Hr.
        assert (np <= q); [|lia]. pose proof (sat_pos _ _ Hsq). apply sat_and in Hsq as [_ Hsq]. apply Hle; [|lia].
        intros m Hm. split; [by apply Hsq|done].
    + exists None, f1. split; [done|]. split; [done|]. intros q [Hsq Hlq]. exfalso. apply (Hr q). intros m Hm.
      apply sat_and in Hsq as [_ Hsq]. split; [by apply Hsq|done].
Qed.

End Find.
