(* ===== verification/SdFiles.v ===== *)
(** sd-journal.c over journal files: what the iteration needs of a file is true of every
    well-formed journal file and any tree of matches. *)
From S2P Require Import Prelude Lookup3 Uuid Memory CString Split JournalDef JournalFile ObjectLemmas ArenaProofs.
From S2P Require Import HashTableProofs HeaderProofs DataProofs StoreProofs StoreOps JournalSeek BisectProofs.
From S2P Require Import ArraySearch JournalEntries JournalSamples StoreSpec StoreSamples EntryArrayProofs.
From S2P Require Import JournalInv JournalAppend JournalSpec Match MatchProofs MatchSpec MatchFind SdJournal SdNext.

(** * First elements of sorted lists *)

Lemma find_filter {A} (p : A -> bool) l : List.find p l = head (List.filter p l).
Proof. induction l as [|a l IH]; simpl; [done|]. by destruct (p a). Qed.

Lemma filter_in (p : Z -> bool) l x : x ∈ List.filter p l <-> x ∈ l /\ p x = true.
Proof. by rewrite list_elem_of_In, filter_In, <- list_elem_of_In. Qed.

Lemma filter_sorted {A} (R : A -> A -> Prop) p l : StronglySorted R l -> StronglySorted R (List.filter p l).
Proof.
  induction 1 as [|a l Hs IH Hf]; simpl; [constructor|]. destruct (p a); [|done]. constructor; [done|].
  apply Forall_forall. intros x Hx. rewrite list_elem_of_In, filter_In, <- list_elem_of_In in Hx. destruct Hx as [Hx _].
  by apply (proj1 (Forall_forall _ _) Hf).
Qed.

(** The first one is the head. *)
Lemma is_first_head l after r : StronglySorted Z.lt l -> (forall p, p ∈ l -> after <= p) ->
  is_first DIRECTION_DOWN (fun p => p ∈ l) after r -> r = head l.
Proof.
  intros Hs Ha Hr. destruct r as [p|]; simpl in Hr.
  - destruct Hr as (Hp & _ & Hmin). destruct l as [|q l]; [by apply not_elem_of_nil in Hp|]. simpl. f_equal.
    apply elem_of_cons in Hp as [->|Hp]; [done|]. apply StronglySorted_inv in Hs as [_ Hf].
    pose proof (proj1 (Forall_forall _ _) Hf p Hp). simpl in *.
    assert (q ∈ q :: l) as Hq by constructor. pose proof (Hmin q Hq) as Hm. pose proof (Ha q Hq).
    rewrite !Z.ltb_ge in Hm. specialize (Hm ltac:(lia)). lia.
  - destruct l as [|q l]; [done|]. assert (q ∈ q :: l) as Hq by constructor. specialize (Hr q Hq). pose proof (Ha q Hq).
    apply Z.ltb_lt in Hr. lia.
Qed.

Lemma is_first_find (S : Z -> Prop) (b : Z -> bool) l after r : StronglySorted Z.lt l -> 
  (forall p, p ∈ l -> b p = true -> after <= p) -> (forall p, S p /\ before DIRECTION_DOWN p after = false <-> p ∈ l /\ b p = true) ->
  is_first DIRECTION_DOWN S after r -> r = List.find b l.
Proof.
  intros Hs Ha HS Hr. rewrite find_filter. apply (is_first_head _ after); [by apply filter_sorted|by intros p [H1 H2]%filter_in; apply Ha|].
  destruct r as [p|]; simpl in Hr.
  - destruct Hr as (Hp & Hb & Hmin). split; [apply filter_in, HS; done|]. split; [done|].
    intros q [Hq1 Hq2]%filter_in Hb'. apply Hmin; [|done]. by apply HS.
  - intros q Hq%filter_in. apply HS in Hq as [Hq Hb]. simpl in Hb. by rewrite (Hr q Hq) in Hb.
Qed.

(** * A journal file *)

(** The entries of the file that the tree wants. *)
Definition wanted (e : Env) (f : JournalFile) (objs : list (Z * Z * Z)) (dch : Z -> list Z) (A : Z -> list (Z * Z))
    (levels : Levels) (p : Z) : bool :=
  match level0 levels with None => true | Some l0 => sat (entry_has e f objs dch A) (tree_of l0) p end.

Definition head_of (f : JournalFile) (p : Z) : EntryHead :=
  mkEntryHead (load64 (jf_mem f) (p + entry_seqnum)) (load64 (jf_mem f) (p + entry_realtime))
    (load64 (jf_mem f) (p + entry_monotonic)) (load_bytes (jf_mem f) (p + entry_boot_id) 16)
    (load64 (jf_mem f) (p + entry_xor_hash)).

Definition seqnum_id_of (f : JournalFile) : list Z := load_bytes (jf_mem f) off_seqnum_id 16.

Definition view_of (e : Env) (f : JournalFile) (objs : list (Z * Z * Z)) (dch : Z -> list Z) (A : Z -> list (Z * Z))
    (levels : Levels) : view :=
  mkView (reading f objs A) (List.filter (wanted e f objs dch A levels) (held f objs A 0)) (seqnum_id_of f) (head_of f).

Section File.
Context (e : Env) (fuel : nat) (f : JournalFile) (objs : list (Z * Z * Z)) (end_ : Z) (dch fch : Z -> list Z) (N : Z)
  (A : Z -> list (Z * Z)) (levels : Levels).
Hypothesis (He : mmap_ok e) (Hj : journal e f objs end_ dch fch N A) (Hdo : data_ordered f objs A) (Hor : ordered f objs A)
  (H62 : (62 <= fuel)%nat) (Hfuel : end_ <= 16 * Z.of_nat fuel).

Abbreviation U := (held f objs A 0).
Abbreviation reading := (reading f objs A).
Let Har : arena f objs end_ := st_arena _ _ _ _ _ _ (j_store _ _ _ _ _ _ _ _ Hj).

Lemma entry_object g p : reading g -> p ∈ U -> exists s, is_object g OBJECT_ENTRY p s.
Proof.
  intros [Hr _] Hp. destruct (do_entry _ _ _ Hdo p Hp) as [s Hs].
  destruct (arena_object _ _ _ (arena_reads f g Hr _ _ Har) _ _ _ Hs) as (Ho & _). by exists s.
Qed.

(** The order of offsets is that of sequence numbers. *)
Lemma seqnum_order p q : p ∈ U -> q ∈ U -> p < q -> seqnum_of f p < seqnum_of f q.
Proof.
  intros Hp Hq Hlt. pose proof (or_offset _ _ _ Hor) as Ho. pose proof (or_seqnum _ _ _ Hor) as Hs.
  apply list_elem_of_split in Hp as (l1 & l2 & El). rewrite El in Ho, Hs, Hq.
  apply sorted_split in Ho as [Ho1 Ho2], Hs as [Hs1 Hs2].
  apply elem_of_app in Hq as [Hq|[->|Hq]%elem_of_cons]; [|lia|by apply Hs2]. specialize (Ho1 q Hq). lia.
Qed.

Lemma seqnum_order_le p q : p ∈ U -> q ∈ U -> p <= q -> seqnum_of f p <= seqnum_of f q.
Proof. intros Hp Hq Hle. destruct (Z.eq_dec p q) as [->|]; [done|]. apply Z.lt_le_incl, seqnum_order; [done|done|lia]. Qed.

Lemma held_seqnum_sorted c : live objs c -> StronglySorted (fun p q => seqnum_of f p <= seqnum_of f q) (held f objs A c).
Proof.
  intros Hl. pose proof (do_sorted _ _ _ Hdo c Hl) as Hs.
  assert (forall p, p ∈ held f objs A c -> p ∈ U) as Hin by (intros p Hp; by apply (do_file _ _ _ Hdo c)).
  induction Hs as [|p l Hs IH Hf]; constructor; [apply IH; intros q Hq; apply Hin; by constructor|].
  apply Forall_forall. intros q Hq. apply seqnum_order_le; [apply Hin; constructor|apply Hin; by constructor|].
  by apply (proj1 (Forall_forall _ _) Hf).
Qed.

Lemma linear_search_key key l needle : StronglySorted Z.le l -> (forall p, p ∈ l -> 0 < p) ->
  is_first DIRECTION_DOWN (fun p => p ∈ l /\ needle <= key p) 0 (fst <$> linear_search DIRECTION_DOWN key needle l).
Proof.
  intros Hs Hpos. unfold linear_search. destruct (list_find _ l) as [[i p]|] eqn:E.
  - apply list_find_Some in E as (Hp & Hle & Hbefore). simpl. pose proof (list_elem_of_lookup_2 _ _ _ Hp) as Hin.
    split; [done|]. split; [apply Z.ltb_ge; specialize (Hpos p Hin); lia|].
    intros q [Hq Hk] _. apply Z.ltb_ge. apply list_elem_of_lookup_1 in Hq as [j Hjq].
    destruct (Nat.lt_ge_cases j i) as [Hlt|Hge]; [by destruct (Hbefore j q Hjq Hlt)|by eapply (sorted_nth id)].
  - apply list_find_None in E. rewrite Forall_forall in E. intros q [Hq Hk]. by destruct (E q Hq).
Qed.

Lemma held_pos c p : live objs c -> p ∈ held f objs A c -> 0 < p.
Proof.
  intros Hl Hp. destruct (do_entry _ _ _ Hdo p (do_file _ _ _ Hdo c p Hl Hp)) as [s Hs].
  destruct (arena_object _ _ _ Har _ _ _ Hs) as (Ho & _). by apply (obj_pos _ _ _ _ Ho).
Qed.

(** The location of an iteration: the head, or an entry of the files. *)
Definition low_of (l : Location) (p : Z) : Prop :=
  match l_type l with LOCATION_HEAD => True | _ => l_seqnum l <= seqnum_of f p end.

Definition plain (l : Location) : Prop :=
  match l_type l with
  | LOCATION_HEAD => True
  | LOCATION_DISCRETE | LOCATION_SEEK => l_seqnum_set l = true /\ l_seqnum_id l = seqnum_id_of f
  | LOCATION_TAIL => False
  end.

Lemma run_seqnum_id g : reading g -> file_seqnum_id g = (Ok (seqnum_id_of f), g).
Proof.
  intros [Hr _]. unfold file_seqnum_id, seqnum_id_of.
  rewrite <- (shows_bytes _ _ _ _ (re_shows _ _ Hr)) by (unfold off_seqnum_id; lia). reflexivity.
Qed.

Lemma next_entry_for_data_ok g c : reading g -> c <> 0 -> live objs c -> (exists s, is_object g OBJECT_DATA c s) ->
  journal_file_next_entry_for_data e fuel None 0 c DIRECTION_DOWN g = (Ok (head (held f objs A c)), g).
Proof.
  intros Hg Hc Hl [s Ho]. pose proof Hg as [Hr _]. destruct (slot_data c Hc) as (Es & Ei & Ec).
  pose proof (held_data f objs A c Hc Hl) as Hh.
  pose proof (load64_range (jf_mem f) (counter c) (ar_mem _ _ _ Har)) as [Hc0 _]. fold (count f c) in Hc0.
  assert (240 <= c) as Hc240 by (by eapply live_above).
  assert (load64 (jf_mem g) (c + data_n_entries) = count f c) as En by (unfold count; by rewrite Ec, (reads_load64 f g Hr) by hlia).
  unfold journal_file_next_entry_for_data. rewrite run_assert by done.
  rewrite (run_bind _ _ _ _ _ (move_to_object_ok e _ _ _ _ _ He Ho (or_introl eq_refl))). run. rewrite En, Hh.
  destruct (Z.eqb_spec (count f c) 0) as [->|Hn]; [done|]. destruct (Z.leb_spec (count f c) 0); [lia|]. run.
  unfold generic_array_get_plus_one. rewrite !(reads_load64 f g Hr) by hlia. simpl.
  destruct (entry_object g (load64 (jf_mem f) (c + data_entry_offset)) Hg) as [s' Ho'].
  { apply (do_file _ _ _ Hdo c); [done|]. rewrite Hh. constructor. }
  by rewrite (run_bind _ _ _ _ _ (move_to_object_ok e _ _ _ _ _ He Ho' (or_introl eq_refl))).
Qed.

Lemma entry_for_data_by_seqnum g c n s : reading g -> c <> 0 -> live objs c -> is_object g OBJECT_DATA c s ->
  exists r f', offset_of (journal_file_move_to_entry_by_seqnum_for_data e fuel c n DIRECTION_DOWN) g = (Ok r, f') /\ reading f'
    /\ is_first DIRECTION_DOWN (fun p => bool_decide (p ∈ held f objs A c) = true /\ n <= seqnum_of f p) 0 r.
Proof.
  intros Hg Hc Hlc Ho. unfold offset_of, journal_file_move_to_entry_by_seqnum_for_data, move_to_entry_for_data. rewrite bind_assoc.
  rewrite (run_bind _ _ _ _ _ (move_to_object_ok e _ _ _ _ _ He Ho (or_introl eq_refl))).
  destruct (bisect_data_key_ok e fuel f objs end_ dch fch N A He Hj Hdo H62 Hfuel (test_object_seqnum e) (seqnum_of f) g c n
    Hg Hc Hlc (held_seqnum_sorted c Hlc)) as (cache & Hrun & Hg').
  { intros p Hp. destruct (entry_object g p Hg) as [s' Ho']; [by apply (do_file _ _ _ Hdo c)|].
    unfold test_object_seqnum, seqnum_of. rewrite <- (reads_load64 f g (proj1 Hg)) by (pose proof (obj_pos _ _ _ _ Ho'); hlia).
    apply (test_object_field_ok e fuel g [] He H62 ltac:(simpl; lia)) with (s := s'). exact Ho'. }
  rewrite (run_bind _ _ _ _ _ Hrun). eexists _, _. split; [reflexivity|]. split; [exact Hg'|].
  eapply is_first_ext; [|apply (linear_search_key (seqnum_of f)); [by apply (do_sorted _ _ _ Hdo)|by intros p; apply held_pos]].
  intros p. simpl. by rewrite bool_decide_eq_true.
Qed.

#[export] Instance journal_locatable l : plain l ->
  Locatable e fuel l reading (entry_has e f objs dch A) U (low_of l).
Proof.
  intros Hl. split.
  2:{ intros p q Hp Hq Hle. unfold low_of. pose proof (seqnum_order_le p q Hp Hq Hle). destruct (l_type l); try done; lia. }
  intros g d Hg Hd. cbn [find_location_for_match]. rewrite Hd.
  pose proof (j_store _ _ _ _ _ _ _ _ Hj) as Hst.
  assert (fuel_for fuel (data_buckets f) dch) as Hff by (eapply side_fuel; [exact Har|apply (st_data _ _ _ _ _ _ Hst)|done]).
  rewrite (run_bind _ _ _ _ _ (find_data_reads f g (proj1 Hg) e fuel objs end_ dch fch (m_data d) He Hst Hff)).
  unfold entry_has. destruct (lookup_data e f dch (m_data d)) as [c|] eqn:El; [|exists None, g; by split_and!; [..|intros q [? _]]].
  destruct (lookup_live e fuel f objs end_ dch fch N A Hj H62 _ _ El) as (Hc & Hlc & s & Hs).
  destruct (arena_object _ _ _ (arena_reads f g (proj1 Hg) _ _ Har) _ _ _ Hs) as (Ho & _).
  unfold find_location_for_data, low_of, plain in *. destruct (l_type l); try done.
  - rewrite (next_entry_for_data_ok g c Hg Hc Hlc (ex_intro _ s Ho)). eexists _, g. split; [done|]. split; [done|].
    pose proof (do_sorted _ _ _ Hdo c Hlc) as Hsort. pose proof (held_pos c) as Hpos.
    destruct (held f objs A c) as [|p l0] eqn:Eh; simpl.
    + by intros q [Hq _].
    + assert (p ∈ p :: l0) as Hp by constructor. split; [by rewrite bool_decide_eq_true_2|].
      split; [apply Z.ltb_ge; specialize (Hpos p Hlc Hp); lia|]. intros q [Hq%bool_decide_eq_true _] _. apply Z.ltb_ge.
      apply elem_of_cons in Hq as [->|Hq]; [done|]. apply StronglySorted_inv in Hsort as [_ Hf].
      by apply (proj1 (Forall_forall _ _) Hf).
  - destruct Hl as [Hset Hid]. rewrite (run_bind _ _ _ _ _ (run_seqnum_id g Hg)), Hset, Hid, same_uuid_refl.
    by apply entry_for_data_by_seqnum with (s := s).
  - destruct Hl as [Hset Hid]. rewrite (run_bind _ _ _ _ _ (run_seqnum_id g Hg)), Hset, Hid, same_uuid_refl.
    by apply entry_for_data_by_seqnum with (s := s).
Qed.

(** ** The list of all entries *)

Lemma reading_entry_list g : reading g -> entry_list g (A 0).
Proof.
  intros [Hr Hc]. assert (entry_list (set_cache g []) (A 0)) as Hel.
  { apply (journal_entry_list e f objs end_ dch fch N A (set_cache g []) Hj Hor); [|done]. by destruct Hr as [[Hm Hl] _ _]. }
  assert (g = set_cache (set_cache g []) (jf_chain_cache g)) as -> by (by destruct g).
  apply entry_list_set_cache; [exact Hel|]. intros ci Hget.
  pose proof (cache_get_first _ _ _ Hget) as Hf. apply List.find_some in Hget as [Hin _]. apply list_elem_of_In in Hin.
  pose proof (Hc ci Hin 0 (live_file _) (eq_sym Hf)) as Hci. change (inline_entries 0) with 0 in Hci. rewrite Z.sub_0_r in Hci.
  exact Hci.
Qed.

Lemma reading_entries g : reading g -> entries g (A 0) = U.
Proof. intros [[Hs _ _] _]. rewrite held_file. apply (entries_shows f g _ Hs). by eapply journal_arrays_above. Qed.

Lemma reading_n g : reading g -> hdr off_n_entries g = zlen U.
Proof. intros Hg. rewrite <- (reading_entries g Hg). symmetry. by apply entries_length, reading_entry_list. Qed.

Lemma reading_sorted g : reading g -> entries_sorted g (A 0) (seqnum_of f).
Proof.
  intros Hg. pose proof (journal_entries_sorted e f objs end_ dch fch N A (set_cache g []) Hj Hor) as Hs.
  pose proof (reading_entry_list g Hg) as Hel.
  assert (forall p i, 0 <= i < hdr off_n_entries g -> nthz (items g (A 0)) i = Some p -> seqnum_of g p = seqnum_of f p) as Eq.
  { intros p i Hi Hp. rewrite <- (entries_nth g (A 0)) in Hp by lia. rewrite (reading_entries g Hg) in Hp.
    apply (held_seqnum e f objs end_ dch fch N A g Hj Hor); [apply Hg|]. by eapply list_elem_of_lookup_2. }
  intros i j p q Hi Hjn Hp Hq. rewrite <- (Eq p i), <- (Eq q j) by (done || lia).
  apply (Hs ltac:(by destruct Hg as [[[Hm Hok Hl] _ _] _]) ltac:(done) i j p q Hi Hjn Hp Hq).
Qed.

Lemma reading_increasing g : reading g -> offsets_increasing g (A 0).
Proof.
  intros Hg i j p q Hij Hjn Hp Hq. pose proof (reading_entry_list g Hg) as Hel.
  rewrite <- entries_nth, (reading_entries g Hg) in Hp by (done || lia).
  rewrite <- entries_nth, (reading_entries g Hg) in Hq by (done || lia).
  pose proof (or_offset _ _ _ Hor) as Hs. unfold nthz in *. rewrite <- (take_drop (Z.to_nat j) U) in Hs.
  eapply (StronglySorted_app_1_elem_of _ _ _ _ _ Hs).
  - eapply (list_elem_of_lookup_2 _ (Z.to_nat i)). rewrite lookup_take_lt by lia. exact Hp.
  - eapply (list_elem_of_lookup_2 _ 0). rewrite lookup_drop, Nat.add_0_r. exact Hq.
Qed.

Lemma reading_fuel : (length (A 0%Z) <= fuel)%nat.
Proof.
  destruct (j_ok _ _ _ _ _ _ _ _ Hj 0 (live_file _)) as [Hc _ _]. eapply echain_fuel; [exact Har|exact Hc|done].
Qed.

(** What a search of the file's own list leaves. *)
Lemma reading_searched g c : reading g -> searched g (A 0) c -> reading (set_cache g c).
Proof.
  intros Hg [_ Hgrow]. eapply (caches_kept e fuel f objs end_ dch fch N A Hj H62 g 0); [done|apply live_file|].
  change (inline_entries 0) with 0. rewrite Z.sub_0_r. exact Hgrow.
Qed.

Lemma next_entry_reads g o p i : reading g -> 0 < zlen U ->
  match o with
  | None => p = 0 /\ i = -1
  | Some o => o = p /\ 0 <= i /\ nthz U i = Some p
  end ->
  exists g', journal_file_next_entry e fuel o p DIRECTION_DOWN g = (Ok (nthz U (i + 1)), g') /\ reading g'.
Proof.
  intros Hg Hn Ho. pose proof (reading_entry_list g Hg) as Hel.
  destruct (journal_file_next_entry_ok e fuel He H62 g (A 0) o p i DIRECTION_DOWN reading_fuel Hel (reading_increasing g Hg))
    as (c & Hrun & Hc).
  - by rewrite reading_n.
  - destruct o as [o|]; [|exact Ho]. by rewrite reading_entries.
  - exists (set_cache g c). rewrite Hrun. split; [|by apply reading_searched].
    unfold nth_entry, neighbour. rewrite reading_entries by done. destruct (Z.ltb_spec (i + 1) 0); [|done].
    destruct o; lia.
Qed.

Lemma first_entry_reads g : reading g ->
  exists g', journal_file_next_entry e fuel None 0 DIRECTION_DOWN g = (Ok (head U), g') /\ reading g'.
Proof.
  intros Hg. destruct (Z.eq_dec (zlen U) 0) as [Hz|Hnz].
  - exists g. split; [|done]. unfold journal_file_next_entry. rewrite run_assert by done. run.
    fold (hdr off_n_entries g). rewrite (reading_n g Hg), Hz. simpl.
    apply length_zero_iff_nil in Hz || (assert (U = []) as -> by (apply length_zero_iff_nil; unfold zlen in Hz; lia)); done.
  - destruct (next_entry_reads g None 0 (-1) Hg) as (g' & Hrun & Hg'); [unfold zlen in *; lia|done|].
    exists g'. split; [|done]. rewrite Hrun. do 2 f_equal. unfold nthz. by destruct U.
Qed.

Lemma entry_by_seqnum_reads g s : reading g ->
  exists g', offset_of (journal_file_move_to_entry_by_seqnum e fuel s DIRECTION_DOWN) g
    = (Ok (List.find (fun p => s <=? seqnum_of f p) U), g') /\ reading g'.
Proof.
  intros Hg. pose proof (reading_entry_list g Hg) as Hel.
  destruct (bisect_entries e fuel g (A 0) He H62 reading_fuel Hel (test_object_seqnum e) DIRECTION_DOWN (seqnum_of f) s
    (reading_sorted g Hg)) as (c & Hrun & Hc).
  { intros p s' Ho'. unfold test_object_seqnum, seqnum_of. rewrite <- (reads_load64 f g (proj1 Hg)) by (pose proof (obj_pos _ _ _ _ Ho'); hlia).
    apply (test_object_field_ok e fuel g [] He H62 ltac:(simpl; lia)) with (s := s'). exact Ho'. }
  exists (set_cache g c). split; [|by apply reading_searched]. unfold offset_of, journal_file_move_to_entry_by_seqnum. run.
  unfold hdr in Hrun at 1 2. rewrite (run_bind _ _ _ _ _ Hrun). unfold up_past_full. simpl andb. cbv iota.
  unfold ret. do 2 f_equal. rewrite reading_entries by done. unfold linear_search. clear. induction U as [|p l IH]; [done|].
  cbn [List.find list_find]. destruct (Z.leb_spec s (seqnum_of f p)).
  - by rewrite decide_True.
  - rewrite decide_False by lia. rewrite <- IH. by destruct (list_find _ l) as [[i q]|].
Qed.

(** ** The promises *)

Definition tree_fits : Prop :=
  match level0 levels with
  | None => True
  | Some l0 => Forall hashed (discretes (tree_of l0)) /\ (and_fuel U (tree_of l0) <= fuel)%nat
  end.

Hypothesis Htree : tree_fits.

Abbreviation wanted := (wanted e f objs dch A levels).
Abbreviation wanted_entries := (List.filter wanted U).

Lemma file_searchable : Searchable e fuel DIRECTION_DOWN reading (entry_has e f objs dch A) U.
Proof. exact (journal_searchable e fuel f objs end_ dch fch N A He Hj Hdo H62 Hfuel). Qed.

Lemma wanted_in p : p ∈ wanted_entries <-> p ∈ U /\ wanted p = true.
Proof. apply filter_in. Qed.

Lemma wanted_sorted : StronglySorted Z.lt wanted_entries.
Proof. apply filter_sorted, Hor. Qed.

Lemma U_pos p : p ∈ U -> 0 < p.
Proof. apply (held_pos 0), live_file. Qed.

Lemma find_wanted b : (forall p, b p = true -> p ∈ U -> wanted p = true) -> List.find b wanted_entries = List.find b U.
Proof.
  intros H. assert (forall l, (forall p, p ∈ l -> p ∈ U) -> List.find b (List.filter wanted l) = List.find b l) as Hl; [|by apply Hl].
  induction l as [|p l IH]; intros Hl; [done|]. simpl.
  assert (forall q, q ∈ l -> q ∈ U) as Hl' by (intros q Hq; apply Hl; by constructor).
  destruct (b p) eqn:Eb.
  - rewrite H by (done || apply Hl; constructor). simpl. by rewrite Eb.
  - destruct (wanted p); simpl; rewrite ?Eb; by apply IH.
Qed.

(** Finding from a location. *)
Lemma find_reads l g : plain l -> reading g ->
  exists g', find_location_with_matches e fuel DIRECTION_DOWN l levels g
    = (Ok (List.find (fun p => match l_type l with LOCATION_HEAD => true | _ => l_seqnum l <=? seqnum_of f p end) wanted_entries), g')
    /\ reading g'.
Proof.
  intros Hl Hg. pose proof file_searchable as HS. unfold find_location_with_matches. pose proof Htree as Ht. unfold tree_fits in Ht.
  destruct (level0 levels) as [l0|] eqn:El.
  - destruct Ht as [Hh Haf]. pose proof (journal_locatable l Hl) as HL.
    destruct (find_location_for_match_ok e fuel l reading (entry_has e f objs dch A) U (low_of l) (tree_of l0) Hh Haf g Hg)
      as (r & g' & Hrun & Hg' & Hr). exists g'. split; [|done]. rewrite Hrun. do 2 f_equal.
    eapply is_first_find; [apply wanted_sorted|by intros p [Hp _]%wanted_in _; apply Z.lt_le_incl, U_pos| |exact Hr].
    intros p. rewrite wanted_in. unfold SdFiles.wanted. rewrite El. simpl. rewrite Z.ltb_ge. unfold low_of. split.
    + intros [[Hs Hlow] _]. split; [split; [|done]; by apply (sat_in e fuel reading (entry_has e f objs dch A) U (tree_of l0))|].
      destruct (l_type l); [done|..]; by apply Z.leb_le.
    + intros [[Hp Hs] Hlow]. pose proof (U_pos p Hp). split; [|lia]. split; [done|].
      destruct (l_type l); [done|..]; by apply Z.leb_le.
  - rewrite find_wanted by (intros p _ _; unfold SdFiles.wanted; by rewrite El).
    unfold find_location_without_matches, plain in *. destruct (l_type l); try done.
    + destruct (first_entry_reads g Hg) as (g' & Hrun & Hg'). exists g'. split; [|done]. rewrite Hrun. do 2 f_equal.
      clear. by destruct U.
    + destruct Hl as [Hset Hid]. rewrite (run_bind _ _ _ _ _ (run_seqnum_id g Hg)), Hset, Hid, same_uuid_refl.
      apply entry_by_seqnum_reads, Hg.
    + destruct Hl as [Hset Hid]. rewrite (run_bind _ _ _ _ _ (run_seqnum_id g Hg)), Hset, Hid, same_uuid_refl.
      apply entry_by_seqnum_reads, Hg.
Qed.

(** Finding after an entry. *)
Lemma next_reads p g : p ∈ U -> reading g ->
  exists g', next_with_matches e fuel DIRECTION_DOWN levels p p g
    = (Ok (List.find (fun q => p <? q) wanted_entries), g') /\ reading g'.
Proof.
  intros Hp Hg. pose proof file_searchable as HS. unfold next_with_matches. pose proof Htree as Ht. unfold tree_fits in Ht. pose proof (U_pos p Hp).
  destruct (level0 levels) as [l0|] eqn:El.
  - destruct Ht as [Hh Haf].
    assert (u64 (p + 1) = p + 1) as ->.
    { apply u64_small. destruct (do_entry _ _ _ Hdo p Hp) as [s Hs]. destruct (arena_object _ _ _ Har _ _ _ Hs) as (Ho & _ & ?).
      pose proof (object_ALIGN64 _ _ _ _ Ho). pose proof (ar_end _ _ _ Har). pose proof (ar_arena _ _ _ Har).
      pose proof (ar_size _ _ _ Har). unfold is_u64. lia. }
    destruct (next_for_match_ok e fuel DIRECTION_DOWN reading (entry_has e f objs dch A) U (tree_of l0) Hh Haf g (p + 1) Hg ltac:(lia))
      as (r & g' & Hrun & Hg' & Hr). exists g'. split; [|done]. rewrite Hrun. do 2 f_equal.
    eapply is_first_find; [apply wanted_sorted| | |exact Hr].
    + intros q _ Hq. apply Z.ltb_lt in Hq. lia.
    + intros q. rewrite wanted_in. unfold SdFiles.wanted. rewrite El. simpl. rewrite Z.ltb_ge, Z.ltb_lt. split.
      * intros [Hs Hle]. split; [|lia]. split; [|done]. by apply (sat_in e fuel reading (entry_has e f objs dch A) U (tree_of l0)).
      * intros [[_ Hs] Hle]. split; [done|lia].
  - rewrite find_wanted by (intros q _ _; unfold SdFiles.wanted; by rewrite El).
    apply list_elem_of_lookup_1 in Hp as [i Hi].
    destruct (next_entry_reads g (Some p) p (Z.of_nat i) Hg) as (g' & Hrun & Hg').
    { apply lookup_lt_Some in Hi. unfold zlen. lia. }
    { split; [done|]. split; [lia|]. unfold nthz. by rewrite Nat2Z.id. }
    exists g'. split; [|done]. rewrite Hrun. do 2 f_equal. unfold nthz.
    replace (Z.to_nat (Z.of_nat i + 1)) with (S i) by lia. pose proof (or_offset _ _ _ Hor) as Hs. clear -Hi Hs.
    revert i Hi Hs. induction U as [|q l IH]; intros i Hi Hs; [done|]. apply StronglySorted_inv in Hs as [Hs Hf].
    destruct i as [|i]; simpl in Hi |- *.
    + injection Hi as ->. rewrite Z.ltb_irrefl. rewrite <- head_lookup. symmetry. apply find_head.
      intros x Hx. apply Z.ltb_lt. by apply (proj1 (Forall_forall _ _) Hf).
    + pose proof (proj1 (Forall_forall _ _) Hf p (list_elem_of_lookup_2 _ _ _ Hi)).
      rewrite (proj2 (Z.ltb_ge p q)) by lia. by apply IH.
Qed.

Lemma entry_head_reads p g : p ∈ U -> reading g ->
  journal_file_move_to_object e OBJECT_ENTRY p g = (Ok p, g) /\ entry_head p g = (Ok (head_of f p), g).
Proof.
  intros Hp Hg. destruct (entry_object g p Hg Hp) as [s Ho].
  split; [by apply (move_to_object_ok e _ _ _ _ _ He Ho (or_introl eq_refl))|].
  unfold entry_head, head_of. pose proof (obj_pos _ _ _ _ Ho). pose proof (re_shows _ _ (proj1 Hg)) as Hsh.
  rewrite <- !(shows_load64 f g _ Hsh) by hlia. rewrite <- (shows_bytes f g _ _ Hsh) by hlia. reflexivity.
Qed.

#[export] Instance journal_enumerable : Enumerable e fuel levels (view_of e f objs dch A levels).
Proof.
  split; cbn [view_of v_keeps v_entries v_id v_head].
  - intros p [Hp _]%wanted_in. by apply U_pos.
  - apply wanted_sorted.
  - apply filter_sorted. exact (or_seqnum _ _ _ Hor).
  - intros g p Hg [Hp _]%wanted_in. by apply entry_head_reads.
  - intros g Hg. by apply run_seqnum_id.
  - intros g l Hg Hl. destruct (find_reads l g) as (g' & Hrun & Hg'); [unfold plain; by rewrite Hl|done|].
    exists g'. split; [|done]. rewrite Hrun, Hl. do 2 f_equal. by destruct wanted_entries.
  - intros g l Hg Hl Hset Hid. destruct (find_reads l g) as (g' & Hrun & Hg'); [unfold plain; by destruct Hl as [-> | ->]|done|].
    exists g'. split; [|done]. rewrite Hrun. by destruct Hl as [-> | ->].
  - intros g p Hg [Hp _]%wanted_in. by apply next_reads.
Qed.

End File.
