(* ===== verification/SdForeach.v ===== *)
(** SD_JOURNAL_FOREACH over well-formed journal files: it comes to an end and visits the
    matching entries of all files, of copies in several files one, in the order of their
    sequence numbers. *)
From S2P Require Import Prelude Lookup3 Uuid Memory CString Split JournalDef JournalFile ObjectLemmas JournalSeek.
From S2P Require Import JournalSamples StoreSpec StoreSamples JournalInv JournalAppend JournalSpec.
From S2P Require Import Match MatchProofs MatchSpec MatchFind SdJournal SdNext SdFiles.

(** A journal file and what is known of it: its objects, chains and entry arrays. *)
Record known := mkKnown {
  k_file : JournalFile;
  k_objs : list (Z * Z * Z);
  k_end : Z;
  k_dch : Z -> list Z;
  k_fch : Z -> list Z;
  k_bound : Z;
  k_arrays : Z -> list (Z * Z) }.

Definition k_entries (k : known) : list Z := held (k_file k) (k_objs k) (k_arrays k) 0.
Definition k_wanted (e : Env) (levels : Levels) (k : known) (p : Z) : bool :=
  wanted e (k_file k) (k_objs k) (k_dch k) (k_arrays k) levels p.
Definition k_head (k : known) (p : Z) : EntryHead := head_of (k_file k) p.
Definition k_view (e : Env) (levels : Levels) (k : known) : view :=
  view_of e (k_file k) (k_objs k) (k_dch k) (k_arrays k) levels.

(** Well formed and in order, and the fuel is enough for its searches. *)
Record well_formed (e : Env) (fuel : nat) (levels : Levels) (k : known) : Prop := {
  wf_journal : journal e (k_file k) (k_objs k) (k_end k) (k_dch k) (k_fch k) (k_bound k) (k_arrays k);
  wf_ordered : ordered (k_file k) (k_objs k) (k_arrays k);
  wf_data : data_ordered (k_file k) (k_objs k) (k_arrays k);
  wf_end : k_end k <= 16 * Z.of_nat fuel;
  wf_tree : tree_fits fuel (k_file k) (k_objs k) (k_arrays k) levels;
  wf_entries : (length (k_entries k) < fuel)%nat }.

(** The files of the handle, by their paths: one source of sequence numbers, and entries
    that compare as one only when they are copies. *)
Record one_source (files : list Z -> known) (paths : list (list Z)) (id : list Z) : Prop := {
  os_id : forall p, p ∈ paths -> seqnum_id_of (k_file (files p)) = id;
  os_copies : forall p q a b, p ∈ paths -> q ∈ paths -> a ∈ k_entries (files p) -> b ∈ k_entries (files q) ->
    copies (k_head (files p) a) (k_head (files q) b) }.

(** The handle reads these files. *)
Record reads_files (files : list Z -> known) (paths : list (list Z)) (levels : Levels) (getpid : Z) (j : sd_journal) : Prop := {
  rf_paths : map fs_path (j_files j) = paths;
  rf_levels : j_levels j = levels;
  rf_pid : j_original_pid j = getpid;
  rf_files : forall fs, fs ∈ j_files j ->
    let k := files (fs_path fs) in reading (k_file k) (k_objs k) (k_arrays k) (fs_file fs) }.

(** An entry of the files that the matches want. *)
Definition is_match (e : Env) (levels : Levels) (files : list Z -> known) (paths : list (list Z)) (x : list Z * Z) : Prop :=
  x.1 ∈ paths /\ x.2 ∈ k_entries (files x.1) /\ k_wanted e levels (files x.1) x.2 = true.

Definition seqnum_in (files : list Z -> known) (x : list Z * Z) : Z := eh_seqnum (k_head (files x.1) x.2).

(** The number of entries of all files. *)
Definition n_entries (files : list Z -> known) (paths : list (list Z)) : nat :=
  length (concat (map (fun p => k_entries (files p)) paths)).

Lemma seqnums_le e levels files paths :
  (length (all_seqnums (fun p => k_view e levels (files p)) paths) <= n_entries files paths)%nat.
Proof.
  unfold all_seqnums, n_entries. induction paths as [|p paths IH]; simpl; [done|].
  rewrite !length_app, length_map. unfold k_wanted.
  pose proof (filter_length_le (wanted e (k_file (files p)) (k_objs (files p)) (k_dch (files p)) (k_arrays (files p)) levels)
    (k_entries (files p))). unfold k_entries in *. simpl in *. lia.
Qed.

(** C4 Reading several journal files with SD_JOURNAL_FOREACH ends, and shows exactly what
    is there: on well-formed files that share a source of sequence numbers, with any
    matches (or none), the iteration visits matching entries only, in strictly increasing
    order of their sequence numbers whatever file they are in, and no matching entry is
    left out: it or a copy of it in another file is visited.  The number of turns is at
    most the number of entries, and one more to see the end. *)
Theorem SD_JOURNAL_FOREACH_correct e fuel getpid levels files paths id j n :
  mmap_ok e -> (62 <= fuel)%nat ->
  (forall p, p ∈ paths -> well_formed e fuel levels (files p)) ->
  one_source files paths id -> reads_files files paths levels getpid j -> (n_entries files paths < n)%nat ->
  exists visited j', SD_JOURNAL_FOREACH e fuel getpid n j = (Ok visited, j')
    /\ Forall (is_match e levels files paths) visited
    /\ StronglySorted (fun x y => seqnum_in files x < seqnum_in files y) visited
    /\ forall x, is_match e levels files paths x -> exists y, y ∈ visited /\ seqnum_in files y = seqnum_in files x.
Proof.
  intros He H62 Hwf [Hid Hcopies] [Rp Rl Rpid Rf] Hn.
  set (views := fun p => k_view e levels (files p)).
  assert (forall p a, p ∈ paths -> a ∈ v_entries (views p) -> a ∈ k_entries (files p)) as Hin by (by intros p a _ [? _]%filter_in).
  destruct (foreach_ok e fuel getpid levels views paths id) with (n := n) (j := j) as (its & j' & Hrun & Hall & Hsort & Hcomplete).
  - intros p Hp. destruct (Hwf p Hp). by eapply journal_enumerable.
  - exact Hid.
  - intros p q a b Hp Hq Ha Hb. apply Hcopies; [done|done|by apply Hin|by apply Hin].
  - intros p Hp. eapply Nat.le_lt_trans; [apply filter_length_le|]. by apply (wf_entries _ _ _ _ (Hwf p Hp)).
  - eapply Nat.le_lt_trans; [apply seqnums_le|done].
  - done.
  - done.
  - done.
  - exact Rf.
  - assert (forall x, is_match e levels files paths x <-> is_entry views paths x) as Hm.
    { intros [p a]. unfold is_match, is_entry. simpl. rewrite filter_in. unfold k_wanted, k_entries. tauto. }
    exists its, j'. split; [done|]. split; [|split].
    + eapply Forall_impl; [exact Hall|]. intros x [Hx _]. by apply Hm.
    + exact Hsort.
    + intros x Hx. apply Hm in Hx. by apply (Hcomplete x Hx).
Qed.

(** * Two copies of a file *)

Lemma copies_refl h : copies h h.
Proof. split; [done|]. intros _. split; [|done]. unfold same_entry. by rewrite same_uuid_refl, !Z.eqb_refl. Qed.

(** "C" *)
Definition sample_levels : Levels :=
  mkLevels (Some [[[[mkDiscrete (data_hash64 sample_data2) sample_data2]]]]) true true.

Definition sample_paths : list (list Z) := [[97]; [98]].

Definition sample_handle (f : JournalFile) : sd_journal :=
  set_levels (set_files (journal_new 7)
    (map (fun p => mkFileState p (set_cache f []) 0 DIRECTION_UP) sample_paths)) sample_levels.

Lemma foreach_witness :
  exists fuel k visited j',
    SD_JOURNAL_FOREACH sample_env fuel 7 3 (sample_handle (k_file k)) = (Ok visited, j')
    /\ k_entries k = [496]
    /\ Forall (is_match sample_env sample_levels (fun _ => k) sample_paths) visited
    /\ StronglySorted (fun x y => seqnum_in (fun _ => k) x < seqnum_in (fun _ => k) y) visited
    /\ forall x, is_match sample_env sample_levels (fun _ => k) sample_paths x ->
         exists y, y ∈ visited /\ seqnum_in (fun _ => k) y = seqnum_in (fun _ => k) x.
Proof.
  destruct sample_appended as (f' & objs' & end' & dch' & fch' & A' & _ & Hj & Ho & Hdo & Hheld).
  destruct (enough_fuel end' 2) as (n & H62 & Hend & _).
  destruct (SD_JOURNAL_FOREACH_correct sample_env n 7 sample_levels (fun _ => mkKnown f' objs' end' dch' fch' 4 A') sample_paths
    (seqnum_id_of f') (sample_handle f') 3 sample_mmap H62) as (visited & j' & Hrun & Hres).
  - intros p _. split; try done.
    + split; [repeat constructor|]. simpl. rewrite Hheld. simpl. lia.
    + unfold k_entries. simpl. rewrite Hheld. simpl. lia.
  - split; [done|]. unfold k_entries. simpl. rewrite Hheld. intros p q a b _ _ ->%list_elem_of_singleton ->%list_elem_of_singleton.
    apply copies_refl.
  - split; [done|done|done|]. intros fs Hfs. simpl in Hfs.
    rewrite !elem_of_cons in Hfs. destruct Hfs as [->|[->|Hfs]]; [..|by apply not_elem_of_nil in Hfs];
      by eapply reading_self.
  - unfold n_entries, k_entries. simpl. rewrite Hheld. simpl. lia.
  - exists n, (mkKnown f' objs' end' dch' fch' 4 A'), visited, j'. split; [exact Hrun|]. split; [exact Hheld|exact Hres].
Defined.
