(* ===== verification/Cursor.v ===== *)
(** lib/sd-journal.c, the cursors: the text that names an entry, written by
    sd_journal_get_cursor and read by sd_journal_seek_cursor and sd_journal_test_cursor. *)
From S2P Require Import Prelude Lookup3 Uuid Memory CString Split JournalDef Numbers JournalFile JournalSeek Match SdJournal.

(** * The standard library's formats *)

(** "%llx": [n] bounds the number of digits. *)
Fixpoint to_hex (n : nat) (v : Z) : list Z :=
  match n with
  | O => []
  | S n => if v <? 16 then [nth (Z.to_nat v) hex_table 0] else to_hex n (v / 16) ++ [nth (Z.to_nat (v mod 16)) hex_table 0]
  end.

Definition format_llx (v : Z) : list Z := to_hex 16 v.

Definition hex_digit (c : Z) : option Z :=
  if (48 <=? c) && (c <=? 57) then Some (c - 48)
  else if (97 <=? c) && (c <=? 102) then Some (c - 87)
  else if (65 <=? c) && (c <=? 70) then Some (c - 55)
  else None.

(** The value of the digits and their number. *)
Fixpoint scan_digits (s : list Z) (v : Z) (n : nat) : Z * nat :=
  match s with
  | c :: s' => match hex_digit c with Some d => scan_digits s' (v * 16 + d) (S n) | None => (v, n) end
  | [] => (v, n)
  end.

(** sscanf with "%llx", the number it stores; [None] when it does not return 1.  As the
    GNU library has it: a value that does not fit is the largest one. *)
Definition sscanf_llx (s : list Z) : option Z :=
  let s := skip_spaces s in
  let '(negative, s) := match s with
    | c :: s' => if c =? 45 then (true, s') else if c =? 43 then (false, s') else (false, s)
    | [] => (false, s) end in
  let '(zero, s) := match s with
    | c :: x :: s' => if (c =? 48) && ((x =? 120) || (x =? 88)) then (true, s') else (false, s)
    | _ => (false, s) end in
  let '(v, n) := scan_digits s 0 O in
  if Nat.eqb n 0 && negb zero then None
  else if u64_max <? v then Some u64_max
  else Some (if (negative : bool) then u64 (- v) else v).

(** * Writing *)

(** "s=%s;i=%llx;b=%s;m=%llx;t=%llx;x=%llx" *)
Definition cursor_of (seqnum_id : list Z) (o : EntryHead) : list Z :=
  [115; 61] ++ uuid_to_str seqnum_id ++ [59; 105; 61] ++ format_llx (eh_seqnum o) ++
  [59; 98; 61] ++ uuid_to_str (eh_boot_id o) ++ [59; 109; 61] ++ format_llx (eh_monotonic o) ++
  [59; 116; 61] ++ format_llx (eh_realtime o) ++ [59; 120; 61] ++ format_llx (eh_xor_hash o).

(** * Reading *)

(** The items that were given. *)
Record cursor := mkCursor {
  cu_seqnum_id : option (list Z); cu_seqnum : option Z; cu_boot_id : option (list Z);
  cu_monotonic : option Z; cu_realtime : option Z; cu_xor_hash : option Z }.

Definition no_cursor : cursor := mkCursor None None None None None None.

Section Read.
(** [heap]: what the memory holds behind the copy of an item, which uuid_parse reads when
    the item is too short. *)
Context (heap : list Z).

Definition read_uuid (item : list Z) (id : option (list Z)) : option (list Z) :=
  match uuid_parse (item ++ 0 :: heap) (default (replicate 16 0) id) with
  | Some (r, id) => if r <? 0 then None else Some id
  | None => None
  end.

(** One turn of the loop of sd_journal_seek_cursor; [None]: it returns -EINVAL. *)
Definition cursor_item (word : list Z) (c : cursor) : option cursor :=
  match word with
  | k :: e :: item =>
      if negb (e =? 61) then None
      else if k =? 115 then
        (fun id => mkCursor (Some id) (cu_seqnum c) (cu_boot_id c) (cu_monotonic c) (cu_realtime c) (cu_xor_hash c))
          <$> read_uuid item (cu_seqnum_id c)
      else if k =? 105 then
        (fun n => mkCursor (cu_seqnum_id c) (Some n) (cu_boot_id c) (cu_monotonic c) (cu_realtime c) (cu_xor_hash c))
          <$> sscanf_llx item
      else if k =? 98 then
        (fun id => mkCursor (cu_seqnum_id c) (cu_seqnum c) (Some id) (cu_monotonic c) (cu_realtime c) (cu_xor_hash c))
          <$> read_uuid item (cu_boot_id c)
      else if k =? 109 then
        (fun n => mkCursor (cu_seqnum_id c) (cu_seqnum c) (cu_boot_id c) (Some n) (cu_realtime c) (cu_xor_hash c))
          <$> sscanf_llx item
      else if k =? 116 then
        (fun n => mkCursor (cu_seqnum_id c) (cu_seqnum c) (cu_boot_id c) (cu_monotonic c) (Some n) (cu_xor_hash c))
          <$> sscanf_llx item
      else if k =? 120 then
        (fun n => mkCursor (cu_seqnum_id c) (cu_seqnum c) (cu_boot_id c) (cu_monotonic c) (cu_realtime c) (Some n))
          <$> sscanf_llx item
      else Some c
  | _ => None
  end.

Fixpoint cursor_items (ws : list (list Z)) (c : cursor) : option cursor :=
  match ws with
  | [] => Some c
  | w :: ws => match cursor_item w c with Some c => cursor_items ws c | None => None end
  end.

Definition is_set {A} (o : option A) : bool := match o with Some _ => true | None => false end.

(** The location for the items. *)
Definition cursor_location (c : cursor) : Location :=
  let with_seqnum := is_set (cu_seqnum c) && is_set (cu_seqnum_id c) in
  let with_monotonic := is_set (cu_monotonic c) && is_set (cu_boot_id c) in
  mkLocation LOCATION_SEEK with_seqnum (is_set (cu_realtime c)) with_monotonic (is_set (cu_xor_hash c))
    (if with_seqnum then default 0 (cu_seqnum c) else 0)
    (if with_seqnum then default (replicate 16 0) (cu_seqnum_id c) else replicate 16 0)
    (default 0 (cu_realtime c))
    (if with_monotonic then default 0 (cu_monotonic c) else 0)
    (if with_monotonic then default (replicate 16 0) (cu_boot_id c) else replicate 16 0)
    (default 0 (cu_xor_hash c)).

(** One turn of the loop of sd_journal_test_cursor: [None]: -EINVAL, [Some false]: it
    returns 0. *)
Definition test_item (seqnum_id : list Z) (o : EntryHead) (word : list Z) : option bool :=
  match word with
  | k :: e :: item =>
      if negb (e =? 61) then None
      else if k =? 115 then (fun id => same_uuid id seqnum_id) <$> read_uuid item None
      else if k =? 105 then Z.eqb (eh_seqnum o) <$> sscanf_llx item
      else if k =? 98 then (fun id => same_uuid id (eh_boot_id o)) <$> read_uuid item None
      else if k =? 109 then Z.eqb (eh_monotonic o) <$> sscanf_llx item
      else if k =? 116 then Z.eqb (eh_realtime o) <$> sscanf_llx item
      else if k =? 120 then Z.eqb (eh_xor_hash o) <$> sscanf_llx item
      else Some true
  | _ => None
  end.

Fixpoint test_items (seqnum_id : list Z) (o : EntryHead) (ws : list (list Z)) : outcome Z :=
  match ws with
  | [] => Ok 1
  | w :: ws =>
      match test_item seqnum_id o w with
      | None => Err EINVAL
      | Some false => Ok 0
      | Some true => test_items seqnum_id o ws
      end
  end.

Context (e : Env) (getpid : Z).

(** The cursor; memory is always available. *)
Definition sd_journal_get_cursor : J (list Z) :=
  check_pid getpid ~;; x <~ current_head e ;; jret (cursor_of x.2 x.1).

Definition sd_journal_seek_cursor (s : list Z) : J Z :=
  check_pid getpid ~;;
  jfail_if (bool_decide (s = [])) EINVAL ~;;
  match cursor_items (words s [59] false) no_cursor with
  | None => fun j => (Err EINVAL, j)
  | Some c =>
      jfail_if ((negb (is_set (cu_seqnum c)) || negb (is_set (cu_seqnum_id c)))
                && (negb (is_set (cu_monotonic c)) || negb (is_set (cu_boot_id c)))
                && negb (is_set (cu_realtime c))) EINVAL ~;;
      jmodify (fun j => set_current_location (reset_location j) (cursor_location c)) ~;; jret 0
  end.

Definition sd_journal_test_cursor (s : list Z) : J Z :=
  check_pid getpid ~;;
  jfail_if (bool_decide (s = [])) EINVAL ~;;
  x <~ current_head e ;;
  fun j => (test_items x.2 x.1 (words s [59] false), j).

End Read.

(** * Numbers *)

Lemma hex_table_digit d : 0 <= d < 16 -> hex_digit (nth (Z.to_nat d) hex_table 0) = Some d.
Proof.
  intros Hd. assert (forall k, (k < 16)%nat -> hex_digit (nth k hex_table 0) = Some (Z.of_nat k)) as H.
  { intros k Hk. do 16 (destruct k as [|k]; [reflexivity|]). lia. }
  rewrite H by lia. f_equal. lia.
Qed.

(** What can be between the ";". *)
Definition plain_char (c : Z) : Prop := c <> 59 /\ c <> 120 /\ c <> 88 /\ is_space c = false /\ c <> 45 /\ c <> 43.

Lemma hex_table_plain k : (k < 16)%nat -> plain_char (nth k hex_table 0).
Proof. intros Hk. do 16 (destruct k as [|k]; [by repeat split|]). lia. Qed.

Lemma scan_digits_app s d v n w m : scan_digits s v n = (w, m) -> Forall (fun c => hex_digit c <> None) s ->
  scan_digits (s ++ [d]) v n = scan_digits [d] w m.
Proof.
  revert v n. induction s as [|c s IH]; intros v n H Hs; simpl in H |- *; [by injection H as -> ->|].
  apply Forall_cons in Hs as [Hc Hs]. destruct (hex_digit c); [by apply IH|done].
Qed.

Lemma to_hex_ok n v : 0 <= v < 16 ^ Z.of_nat n -> (0 < n)%nat ->
  scan_digits (to_hex n v) 0 0 = (v, length (to_hex n v)) /\ Forall (fun c => hex_digit c <> None) (to_hex n v)
  /\ Forall plain_char (to_hex n v) /\ to_hex n v <> [].
Proof.
  revert v. induction n as [|n IH]; intros v Hv Hn; [lia|]. cbn [to_hex]. destruct (Z.ltb_spec v 16).
  - assert (hex_digit (nth (Z.to_nat v) hex_table 0) = Some v) as Hd by (apply hex_table_digit; lia).
    split; [cbn [scan_digits]; by rewrite Hd|]. split; [|split; [|done]].
    + constructor; [by rewrite Hd|constructor].
    + constructor; [apply hex_table_plain; lia|constructor].
  - rewrite Nat2Z.inj_succ, Z.pow_succ_r in Hv by lia.
    assert (0 < n)%nat as Hn0 by (destruct n; [simpl in Hv; lia|lia]).
    destruct (IH (v / 16) ltac:(Z.div_mod_to_equations; lia) Hn0) as (H1 & H2 & H3 & _).
    pose proof (Z.mod_pos_bound v 16 ltac:(lia)) as Hm. pose proof (hex_table_digit (v mod 16) Hm) as Hd.
    split; [|split; [|split]].
    + rewrite (scan_digits_app _ _ _ _ _ _ H1 H2). cbn [scan_digits]. rewrite Hd, length_app. f_equal; [Z.div_mod_to_equations; lia|simpl; lia].
    + apply Forall_app. split; [done|]. constructor; [by rewrite Hd|constructor].
    + apply Forall_app. split; [done|]. constructor; [apply hex_table_plain; lia|constructor].
    + by destruct (to_hex n (v / 16)).
Qed.

Lemma format_llx_plain v : is_u64 v -> Forall plain_char (format_llx v) /\ format_llx v <> [].
Proof. intros Hv. destruct (to_hex_ok 16 v) as (_ & _ & H); [unfold is_u64 in Hv; change (16 ^ Z.of_nat 16) with (2 ^ 64); lia|lia|done]. Qed.

(** What "%llx" writes, it reads. *)
Lemma sscanf_format v : is_u64 v -> sscanf_llx (format_llx v) = Some v.
Proof.
  intros Hv. destruct (to_hex_ok 16 v) as (H1 & H2 & H3 & H4); [unfold is_u64 in Hv; change (16 ^ Z.of_nat 16) with (2 ^ 64); lia|lia|].
  unfold format_llx. remember (to_hex 16 v) as s eqn:Es. clear Es. destruct s as [|c s]; [done|].
  apply Forall_cons in H3 as [(Hc1 & Hc2 & Hc3 & Hc4 & Hc5 & Hc6) H3].
  unfold sscanf_llx. cbn [skip_spaces]. rewrite Hc4, (proj2 (Z.eqb_neq c 45) Hc5), (proj2 (Z.eqb_neq c 43) Hc6).
  assert (match c :: s with
    | c :: x :: s' => if (c =? 48) && ((x =? 120) || (x =? 88)) then (true, s') else (false, c :: s)
    | _ => (false, c :: s) end = (false, c :: s)) as ->.
  { destruct s as [|x s]; [done|]. apply Forall_cons in H3 as [(Hx1 & Hx2 & Hx3 & _) _].
    by rewrite (proj2 (Z.eqb_neq x 120) Hx2), (proj2 (Z.eqb_neq x 88) Hx3), andb_false_r. }
  rewrite H1. simpl. destruct (Z.ltb_spec u64_max v); [unfold is_u64, u64_max in *; lia|done].
Qed.

(** * The items of a cursor *)

Lemma uuid_to_str_plain id : Forall plain_char (uuid_to_str id).
Proof.
  assert (forall x, (Z.to_nat (Z.land x 15) < 16)%nat) as Hx.
  { intros x. change 15 with (Z.ones 4). rewrite Z.land_ones by lia. pose proof (Z.mod_pos_bound x (2 ^ 4) ltac:(lia)). lia. }
  induction id as [|b id IH]; [constructor|]. simpl.
  constructor; [by apply hex_table_plain|]. constructor; [by apply hex_table_plain|done].
Qed.

Lemma item_word k s : k <> 59 -> Forall plain_char s -> a_word 59 ([k; 61] ++ s).
Proof.
  intros Hk Hs. split; [done|]. constructor; [done|]. constructor; [done|]. eapply Forall_impl; [exact Hs|]. by intros c [? _].
Qed.

(** An entry that can be named. *)
Record head_ok (o : EntryHead) : Prop := {
  ho_seqnum : is_u64 (eh_seqnum o);
  ho_monotonic : is_u64 (eh_monotonic o);
  ho_realtime : is_u64 (eh_realtime o);
  ho_xor_hash : is_u64 (eh_xor_hash o);
  ho_boot_id : uuid_ok (eh_boot_id o) }.

Definition cursor_words (seqnum_id : list Z) (o : EntryHead) : list (list Z) :=
  [[115; 61] ++ uuid_to_str seqnum_id; [105; 61] ++ format_llx (eh_seqnum o); [98; 61] ++ uuid_to_str (eh_boot_id o);
   [109; 61] ++ format_llx (eh_monotonic o); [116; 61] ++ format_llx (eh_realtime o); [120; 61] ++ format_llx (eh_xor_hash o)].

Lemma cursor_of_words seqnum_id o : head_ok o -> words (cursor_of seqnum_id o) [59] false = cursor_words seqnum_id o.
Proof.
  intros [H1 H2 H3 H4 _].
  assert (cursor_of seqnum_id o = join 59 (cursor_words seqnum_id o)) as ->.
  { unfold cursor_of, cursor_words. cbn [join]. rewrite <- !app_assoc. reflexivity. }
  apply words_join.
  repeat (constructor; [apply item_word; [done|]; first [apply uuid_to_str_plain|by apply format_llx_plain]|]). constructor.
Qed.

Lemma read_uuid_str heap id o : uuid_ok id -> o = None -> read_uuid heap (uuid_to_str id) o = Some id.
Proof. intros Hid ->. unfold read_uuid. by rewrite uuid_parse_str. Qed.

(** The location that a cursor is read as. *)
Definition full_location (seqnum_id : list Z) (o : EntryHead) : Location :=
  mkLocation LOCATION_SEEK true true true true (eh_seqnum o) seqnum_id (eh_realtime o) (eh_monotonic o) (eh_boot_id o) (eh_xor_hash o).

Lemma cursor_items_ok heap seqnum_id o : uuid_ok seqnum_id -> head_ok o ->
  cursor_items heap (cursor_words seqnum_id o) no_cursor
  = Some (mkCursor (Some seqnum_id) (Some (eh_seqnum o)) (Some (eh_boot_id o)) (Some (eh_monotonic o)) (Some (eh_realtime o))
      (Some (eh_xor_hash o))).
Proof.
  intros Hid [H1 H2 H3 H4 H5]. unfold cursor_words. cbn [cursor_items].
  repeat (unfold cursor_item at 1; cbn [app negb Z.eqb Pos.eqb no_cursor cu_seqnum_id cu_seqnum cu_boot_id cu_monotonic cu_realtime cu_xor_hash];
    rewrite ?read_uuid_str, ?sscanf_format by done; cbn [fmap option_fmap option_map]).
  reflexivity.
Qed.

Lemma test_items_ok heap seqnum_id o o' : uuid_ok seqnum_id -> head_ok o ->
  same_uuid (eh_boot_id o) (eh_boot_id o') = true -> eh_seqnum o' = eh_seqnum o -> eh_monotonic o' = eh_monotonic o ->
  eh_realtime o' = eh_realtime o -> eh_xor_hash o' = eh_xor_hash o ->
  test_items heap seqnum_id o' (cursor_words seqnum_id o) = Ok 1.
Proof.
  intros Hid [H1 H2 H3 H4 H5] Hb E1 E2 E3 E4. unfold cursor_words. cbn [test_items].
  assert (same_uuid seqnum_id seqnum_id = true) as Hs by (unfold same_uuid, uuid_equal; by rewrite !Z.eqb_refl).
  repeat (unfold test_item at 1; cbn [app negb Z.eqb Pos.eqb];
    rewrite ?read_uuid_str, ?sscanf_format by done; cbn [fmap option_fmap option_map];
    rewrite ?Hs, ?Hb, ?E1, ?E2, ?E3, ?E4, ?Z.eqb_refl).
  reflexivity.
Qed.
