(* ===== verification/SdCursor.v ===== *)
(** Cursors over well-formed journal files: the cursor of an entry leads back to it. *)
From S2P Require Import Prelude Lookup3 Uuid Memory CString Split JournalDef JournalFile ObjectLemmas ArenaProofs JournalSeek.
From S2P Require Import JournalSamples StoreProofs StoreOps StoreSpec StoreSamples JournalInv JournalAppend JournalSpec.
From S2P Require Import Match MatchProofs MatchSpec MatchFind SdJournal SdNext SdFiles SdForeach Cursor.

Lemma head_of_ok f p : mem_ok (jf_mem f) -> head_ok (head_of f p).
Proof.
  intros Hm. split; [by apply load64_range..|]. cbn [head_of eh_boot_id]. split; [by rewrite load_bytes_length|by apply load_bytes_ok].
Qed.

Section Handle.
Context (e : Env) (fuel : nat) (getpid : Z) (levels : Levels) (files : list Z -> known) (paths : list (list Z)) (id : list Z).
Hypothesis (He : mmap_ok e) (H62 : (62 <= fuel)%nat) (Hwf : forall p, p ∈ paths -> well_formed e fuel levels (files p))
  (Hos : one_source files paths id).

Abbreviation views := (fun p => k_view e levels (files p)).
Abbreviation handle_ok := (handle_ok getpid levels views paths).

Lemma files_enumerable p : p ∈ paths -> Enumerable e fuel levels (views p).
Proof. intros Hp. destruct (Hwf p Hp). by eapply journal_enumerable. Qed.

Lemma files_copies p q a b : p ∈ paths -> q ∈ paths -> a ∈ v_entries (views p) -> b ∈ v_entries (views q) ->
  copies (v_head (views p) a) (v_head (views q) b).
Proof.
  intros Hp Hq [Ha _]%filter_in [Hb _]%filter_in. by apply (os_copies _ _ _ Hos).
Qed.

Lemma files_fuel p : p ∈ paths -> (length (v_entries (views p)) < fuel)%nat.
Proof.
  intros Hp. eapply Nat.le_lt_trans; [apply filter_length_le|]. by apply (wf_entries _ _ _ _ (Hwf p Hp)).
Qed.

Lemma match_is_entry x : is_match e levels files paths x <-> is_entry views paths x.
Proof. destruct x as [p a]. unfold is_match, is_entry. simpl. rewrite filter_in. unfold k_wanted, k_entries. tauto. Qed.

Lemma files_mem p : p ∈ paths -> mem_ok (jf_mem (k_file (files p))).
Proof. intros Hp. destruct (Hwf p Hp) as [Hj _ _ _ _ _]. apply (ar_mem _ _ _ (st_arena _ _ _ _ _ _ (j_store _ _ _ _ _ _ _ _ Hj))). Qed.

Lemma id_ok p : p ∈ paths -> uuid_ok id.
Proof.
  intros Hp. rewrite <- (os_id _ _ _ Hos p Hp). split; [apply load_bytes_length|by apply load_bytes_ok, files_mem].
Qed.

(** What the entry's cursor is. *)
Lemma get_cursor_ok j x : handle_ok j -> is_match e levels files paths x -> at_entry j x ->
  exists j', sd_journal_get_cursor e getpid j = (Ok (cursor_of id (k_head (files x.1) x.2)), j') /\ handle_ok j' /\ at_entry j' x.
Proof.
  intros Hj Hx Hat. apply match_is_entry in Hx.
  destruct (current_head_ok e fuel getpid levels views paths id files_enumerable (os_id _ _ _ Hos) j x Hj Hx Hat)
    as (j' & Hrun & Hj' & Hat'). exists j'. split; [|done].
  unfold sd_journal_get_cursor, check_pid, jfail_if, jbind. rewrite (hk_pid _ _ _ _ _ Hj), Z.eqb_refl. simpl negb. cbv iota.
  by rewrite Hrun.
Qed.

Lemma cursor_of_some o : cursor_of id o <> [].
Proof. done. Qed.

Lemma test_cursor_ok heap j x y : handle_ok j -> is_match e levels files paths x -> is_match e levels files paths y ->
  seqnum_in files y = seqnum_in files x -> at_entry j y ->
  exists j', sd_journal_test_cursor heap e getpid (cursor_of id (k_head (files x.1) x.2)) j = (Ok 1, j').
Proof.
  intros Hj Hx Hy Hs Hat. pose proof Hx as (Hpx & Hax & _). pose proof Hy as (Hpy & Hay & _).
  apply match_is_entry in Hy.
  destruct (current_head_ok e fuel getpid levels views paths id files_enumerable (os_id _ _ _ Hos) j y Hj Hy Hat)
    as (j' & Hrun & _ & _). exists j'.
  unfold sd_journal_test_cursor, check_pid, jfail_if, jbind. rewrite (hk_pid _ _ _ _ _ Hj), Z.eqb_refl. simpl negb. cbv iota.
  rewrite bool_decide_eq_false_2 by apply cursor_of_some. rewrite Hrun. cbn [fst snd].
  pose proof (head_of_ok (k_file (files x.1)) x.2 (files_mem _ Hpx)) as Hok. fold (k_head (files x.1) x.2) in Hok.
  rewrite cursor_of_words by done. f_equal.
  destruct (os_copies _ _ _ Hos x.1 y.1 x.2 y.2 Hpx Hpy Hax Hay) as [_ Hc]. destruct (Hc (eq_sym Hs)) as [Hsame Hm].
  unfold same_entry in Hsame. apply andb_true_iff in Hsame as [[Hb Hr%Z.eqb_eq]%andb_true_iff Hx'%Z.eqb_eq].
  apply test_items_ok; [by apply (id_ok x.1)|done|exact Hb|exact Hs|done|done|done].
Qed.

Lemma seek_cursor_ok heap j x : handle_ok j -> is_match e levels files paths x ->
  sd_journal_seek_cursor heap getpid (cursor_of id (k_head (files x.1) x.2)) j
  = (Ok 0, set_current_location (reset_location j) (full_location id (k_head (files x.1) x.2))).
Proof.
  intros Hj (Hp & Ha & _). unfold sd_journal_seek_cursor, check_pid, jfail_if, jbind, jmodify, jret.
  rewrite (hk_pid _ _ _ _ _ Hj), Z.eqb_refl. simpl negb. cbv iota. rewrite bool_decide_eq_false_2 by apply cursor_of_some.
  pose proof (head_of_ok (k_file (files x.1)) x.2 (files_mem _ Hp)) as Hok. fold (k_head (files x.1) x.2) in Hok.
  rewrite cursor_of_words, cursor_items_ok by (done || by apply (id_ok x.1)). reflexivity.
Qed.

End Handle.

(** C11 A cursor leads back to its entry: what sd_journal_get_cursor returns for the current
    entry is accepted by sd_journal_seek_cursor, the next sd_journal_next moves to that
    entry or to a copy of it in another file, and sd_journal_test_cursor then confirms it.
    The numbers and uuids of every entry survive being printed and parsed. *)
Theorem cursor_round_trip e fuel getpid levels files paths id heap j x :
  mmap_ok e -> (62 <= fuel)%nat ->
  (forall p, p ∈ paths -> well_formed e fuel levels (files p)) ->
  one_source files paths id -> reads_files files paths levels getpid j ->
  is_match e levels files paths x -> at_entry j x ->
  exists c j1 j2 y j3 j4,
    sd_journal_get_cursor e getpid j = (Ok c, j1)
    /\ sd_journal_seek_cursor heap getpid c j1 = (Ok 0, j2)
    /\ sd_journal_next e fuel getpid j2 = (Ok 1, j3)
    /\ at_entry j3 y /\ is_match e levels files paths y /\ seqnum_in files y = seqnum_in files x
    /\ sd_journal_test_cursor heap e getpid c j3 = (Ok 1, j4).
Proof.
  intros He H62 Hwf Hos [R1 R2 R3 R4] Hx Hat. set (views := fun p => k_view e levels (files p)).
  assert (handle_ok getpid levels views paths j) as Hj by done.
  destruct (get_cursor_ok e fuel getpid levels files paths id He H62 Hwf Hos j x Hj Hx Hat) as (j1 & Hget & Hj1 & Hat1).
  pose proof (seek_cursor_ok e fuel getpid levels files paths id Hwf Hos heap j1 x Hj1 Hx) as Hseek.
  pose proof Hx as Hin. apply match_is_entry in Hin.
  destruct (seek_next_ok e fuel getpid levels views paths id (files_enumerable e fuel levels files paths He H62 Hwf) (os_id _ _ _ Hos)
    (files_copies e levels files paths id Hos) (files_fuel e fuel levels files paths Hwf) j1
    (full_location id (k_head (files x.1) x.2)) (seqnum_in files x) x Hj1)
    as (y & j3 & Hnext & Hy & Hle & Hmin & Hj3 & Hat3); [done|done|done|done|done|done|].
  assert (seqnum_in files y = seqnum_in files x) as Hs.
  { pose proof (Hmin x Hin (Z.le_refl _)) as Hmx. change (seqnum_in files y <= seqnum_in files x) in Hmx.
    change (seqnum_in files x <= seqnum_in files y) in Hle. lia. }
  apply match_is_entry in Hy.
  destruct (test_cursor_ok e fuel getpid levels files paths id He H62 Hwf Hos heap j3 x y Hj3 Hx Hy Hs Hat3) as (j4 & Htest).
  by eexists _, j1, _, y, j3, j4.
Qed.

(** A handle on two copies of a file, without matches, at the entry of the first. *)
Definition cursor_handle (f : JournalFile) : sd_journal :=
  set_current (set_files (journal_new 7)
    (map (fun p => mkFileState p (set_cache f []) 496 DIRECTION_DOWN) sample_paths)) (Some [97]) 0.

Lemma cursor_witness :
  exists fuel k c j1 j2 y j3 j4,
    k_entries k = [496]
    /\ sd_journal_get_cursor sample_env 7 (cursor_handle (k_file k)) = (Ok c, j1)
    /\ sd_journal_seek_cursor [] 7 c j1 = (Ok 0, j2)
    /\ sd_journal_next sample_env fuel 7 j2 = (Ok 1, j3)
    /\ at_entry j3 y /\ is_match sample_env no_matches (fun _ => k) sample_paths y
    /\ seqnum_in (fun _ => k) y = seqnum_in (fun _ => k) ([97], 496)
    /\ sd_journal_test_cursor [] sample_env 7 c j3 = (Ok 1, j4).
Proof.
  destruct sample_appended as (f' & objs' & end' & dch' & fch' & A' & _ & Hj & Ho & Hdo & Hheld).
  destruct (enough_fuel end' 2) as (n & H62 & Hend & _).
  destruct (cursor_round_trip sample_env n 7 no_matches (fun _ => mkKnown f' objs' end' dch' fch' 4 A') sample_paths
    (seqnum_id_of f') [] (cursor_handle f') ([97], 496) sample_mmap H62) as (c & j1 & j2 & y & j3 & j4 & Hres).
  - intros p _. split; try done. unfold k_entries. simpl. rewrite Hheld. simpl. lia.
  - split; [done|]. unfold k_entries. simpl. rewrite Hheld. intros p q a b _ _ ->%list_elem_of_singleton ->%list_elem_of_singleton.
    apply copies_refl.
  - split; [done|done|done|]. intros fs Hfs. cbn in Hfs. rewrite !elem_of_cons in Hfs.
    destruct Hfs as [->|[->|Hfs]]; [..|by apply not_elem_of_nil in Hfs]; by eapply reading_self.
  - split; [constructor|]. split; [|done]. unfold k_entries. simpl. rewrite Hheld. constructor.
  - split; [done|]. eexists. split; [done|]. done.
  - exists n, (mkKnown f' objs' end' dch' fch' 4 A'), c, j1, j2, y, j3, j4. split; [exact Hheld|exact Hres].
Defined.
