(* ===== verification/SdData.v ===== *)
(** lib/sd-journal.c, the data of entries: reading the fields of the current entry, the
    distinct values of a field over all files, the times the files span, and which files
    of a directory are read. *)
From S2P Require Import Prelude Lookup3 Uuid Memory CString Split JournalDef JournalFile JournalSeek Vacuum Match SdJournal.

(** memcmp with a prefix and what follows it: [data] is [prefix], then [extra], and more. *)
Definition starts_with (prefix : list Z) (extra : Z) (data : list Z) : bool :=
  (zlen prefix <? zlen data) && bool_decide (take (length prefix) data = prefix)
  && (nth (length prefix) data 0 =? extra).

(** The loop of field_is_valid. *)
Definition field_char (c : Z) : bool := (c =? 95) || is_upper c || is_digit c.

Definition field_is_valid (field : list Z) : bool :=
  negb (bool_decide (field = [])) && negb (bool_decide (take 2 field = [95; 95])) && forallb field_char field.

(** "system", "user-" *)
Definition str_system := [115; 121; 115; 116; 101; 109].
Definition str_user := [117; 115; 101; 114; 45].

Definition file_has_type_prefix (prefix filename : list Z) : bool :=
  let full := prefix ++ dot_journal in
  let atted := prefix ++ [64] in
  bool_decide (filename = full) || bool_decide (filename = full ++ [126])
  || bool_decide (take (length atted) filename = atted).

(** [uid]: getuid() in decimal. *)
Definition SD_JOURNAL_SYSTEM := 1.
Definition SD_JOURNAL_CURRENT_USER := 2.

Definition file_type_wanted (flags : Z) (uid filename : list Z) : bool :=
  if negb (endswith filename dot_journal) && negb (endswith filename dot_journal_tilde) then false
  else if Z.land flags (Z.lor SD_JOURNAL_SYSTEM SD_JOURNAL_CURRENT_USER) =? 0 then true
  else if negb (Z.land flags SD_JOURNAL_SYSTEM =? 0) && file_has_type_prefix str_system filename then true
  else negb (Z.land flags SD_JOURNAL_CURRENT_USER =? 0) && file_has_type_prefix (str_user ++ uid) filename.

Section Data.
Context (e : Env) (fuel : nat) (getpid : Z).

(** What the decoder does with a stream that it rejects in the end: what it yields when
    it stops after that many bytes, and what decompress_startswith returns. *)
Context (rejected : list Z -> Z -> outcome (list Z)) (rejected_prefix : list Z -> list Z -> Z -> Z).

(** decompress_blob, stopping after [max] bytes unless that is 0 *)
Definition decompress_blob_max (compression max : Z) (src : list Z) : outcome (list Z) :=
  if compression =? OBJECT_COMPRESSED_XZ then
    match env_decompress e src with
    | Some b => Ok (if 0 <? max then take (Z.to_nat max) b else b)
    | None => rejected src max
    end
  else if compression =? OBJECT_COMPRESSED_LZ4 then Err EPROTONOSUPPORT
  else Err EBADMSG.

(** decompress_startswith *)
Definition decompress_startswith (compression : Z) (src prefix : list Z) (extra : Z) : Z :=
  if compression =? OBJECT_COMPRESSED_XZ then
    match env_decompress e src with
    | Some b => if starts_with prefix extra b then 1 else 0
    | None => rejected_prefix src prefix extra
    end
  else if compression =? OBJECT_COMPRESSED_LZ4 then - EPROTONOSUPPORT
  else - EBADMSG.

Definition of_outcome {A} (r : outcome A) : M A := fun f => (r, f).

(** The compression flags and the stored bytes of a data object. *)
Definition stored (o : Z) : M (Z * list Z) :=
  s <- rd (o + obj_size) ;;
  flags <- rdb (o + obj_flags) ;;
  src <- rdbytes (o + data_payload) (s - data_payload) ;;
  ret (Z.land flags OBJECT_COMPRESSION_MASK, src).

(** size_t has 64 bits. *)
Definition return_data (threshold o : Z) : M (list Z) :=
  x <- stored o ;;
  if negb (x.1 =? 0) then of_outcome (decompress_blob_max x.1 threshold x.2) else ret x.2.

Definition sizeof_EntryItem_hash := 8.

(** Item [i] of the entry object at [o]: its data object, the hashes compared. *)
Definition item_data (o i : Z) : M Z :=
  p <- rd (entry_item o i) ;;
  le_hash <- rd (entry_item o i + sizeof_EntryItem_hash) ;;
  d <- journal_file_move_to_object e OBJECT_DATA p ;;
  h <- rd (d + data_hash) ;;
  fail_if (negb (le_hash =? h)) EBADMSG ;;
  ret d.

(** The loop of sd_journal_get_data over the items from [i] on; [k] of them are left.
    Any value of decompress_startswith but 0 counts as a match. *)
Fixpoint get_data_loop (k : nat) (threshold : Z) (field : list Z) (offset o i : Z) : M (list Z) :=
  match k with
  | O => err ENOENT
  | S k =>
      d <- item_data o i ;;
      x <- stored d ;;
      let next := (o <- journal_file_move_to_object e OBJECT_ENTRY offset ;; get_data_loop k threshold field offset o (i + 1)) in
      if negb (x.1 =? 0) then
        (if negb (decompress_startswith x.1 x.2 field 61 =? 0) then of_outcome (decompress_blob_max x.1 threshold x.2) else next)
      else if starts_with field 61 x.2 then ret x.2
      else next
  end.

Definition sd_journal_get_data (field : list Z) : J (list Z) :=
  check_pid getpid ~;;
  jfail_if (negb (field_is_valid field)) EINVAL ~;;
  c <~ current_entry ;;
  j <~ jget ;;
  on_file_ c.1 (o <- journal_file_move_to_object e OBJECT_ENTRY c.2 ;;
                n <- journal_file_entry_n_items o ;;
                get_data_loop (Z.to_nat n) (j_data_threshold j) field c.2 o 0).

(** [None]: it returns 0. *)
Definition sd_journal_enumerate_data : J (option (list Z)) :=
  check_pid getpid ~;;
  c <~ current_entry ;;
  j <~ jget ;;
  r <~ on_file_ c.1 (o <- journal_file_move_to_object e OBJECT_ENTRY c.2 ;;
                     n <- journal_file_entry_n_items o ;;
                     if n <=? j_current_field j then ret None else
                     (d <- item_data o (j_current_field j) ;;
                      x <- return_data (j_data_threshold j) d ;;
                      ret (Some x))) ;;
  match r with
  | None => jret None
  | Some x => jmodify (fun j => set_current j (j_current_file j) (j_current_field j + 1)) ~;; jret (Some x)
  end.

(** SD_JOURNAL_FOREACH_DATA, with the data it goes over; an error ends it like the end. *)
Fixpoint foreach_data (n : nat) : J (list (list Z)) := fun j =>
  match n with
  | O => (NoFuel, j)
  | S n =>
      match sd_journal_enumerate_data j with
      | (Ok (Some x), j) => jbind (foreach_data n) (fun xs => jret (x :: xs)) j
      | (Ok None, j) | (Err _, j) => (Ok [], j)
      | (Crash, j) => (Crash, j)
      | (NoFuel, j) => (NoFuel, j)
      end
  end.

Definition SD_JOURNAL_FOREACH_DATA (n : nat) : J (list (list Z)) :=
  sd_journal_restart_data ~;; foreach_data n.

(** ** The times of the files *)

(** A call on every file in turn, as the loops of the cutoffs make it: -ENOENT and 0 are
    passed over, other errors end it. *)
Fixpoint cutoff_loop (x : M (option (Z * Z))) (files : list (list Z)) (acc : option (Z * Z)) : J (option (Z * Z)) :=
  match files with
  | [] => jret acc
  | p :: files =>
      r <~ on_file p x ;;
      match r with
      | inr err => if err =? ENOENT then cutoff_loop x files acc else fun j => (Err err, j)
      | inl None => cutoff_loop x files acc
      | inl (Some (fr, t)) =>
          cutoff_loop x files (Some (match acc with None => (fr, t) | Some (fmin, tmax) => (Z.min fr fmin, Z.max t tmax) end))
      end
  end.

(** The earliest and the latest time; [None]: it returns 0. *)
Definition sd_journal_get_cutoff_realtime_usec : J (option (Z * Z)) :=
  check_pid getpid ~;;
  j <~ jget ;;
  cutoff_loop (x <- journal_file_get_cutoff_realtime_usec true true ;; ret (Some x)) (map fs_path (j_files j)) None.

Definition both {A} (x : option A * option A) : option (A * A) :=
  match x with (Some a, Some b) => Some (a, b) | _ => None end.

Definition sd_journal_get_cutoff_monotonic_usec (boot_id : list Z) : J (option (Z * Z)) :=
  check_pid getpid ~;;
  j <~ jget ;;
  cutoff_loop (r <- journal_file_get_cutoff_monotonic_usec e fuel boot_id true true ;;
               ret (match r with None => None | Some x => both x end)) (map fs_path (j_files j)) None.

(** ** The values of a field *)

Definition sd_journal_query_unique (field : list Z) : J Z :=
  check_pid getpid ~;;
  jfail_if (bool_decide (field = [])) EINVAL ~;;
  jfail_if (negb (field_is_valid field)) EINVAL ~;;
  jmodify (fun j => set_unique j (Some field) None 0) ~;; jret 0.

(** The next data object in the list of the field. *)
Definition unique_step (field : list Z) (offset : Z) : M Z :=
  if offset =? 0 then
    (r <- journal_file_find_field_object e fuel field ;;
     match r with None => ret 0 | Some o => rd (o + field_head_data_offset) end)
  else
    (o <- journal_file_move_to_object e OBJECT_DATA offset ;; rd (o + data_next_field_offset)).

(** The data object there, checked against the field: its data, cut at the threshold, and its hash. *)
Definition unique_data (threshold : Z) (field : list Z) (offset : Z) : M (list Z * Z) :=
  o <- journal_file_move_to_object e 0 offset ;;
  t <- rdb (o + obj_type) ;;
  fail_if (negb (t =? OBJECT_DATA)) EBADMSG ;;
  data <- return_data threshold o ;;
  fail_if (zlen data <=? zlen field) EBADMSG ;;
  fail_if (negb (starts_with field 61 data)) EBADMSG ;;
  h <- rd (o + data_hash) ;;
  ret (data, h).

(** Whether one of the files has the data. *)
Definition has_data (data : list Z) (hash : Z) : M bool :=
  h <- gets (header_contains off_n_fields) ;;
  n <- rd off_n_fields ;;
  if h && (n <=? 0) then ret false else
  (r <- journal_file_find_data_object_with_hash e fuel data hash ;;
   ret (match r with Some _ => true | None => false end)).

Fixpoint seen_before (files : list (list Z)) (current data : list Z) (hash : Z) (found : bool) : J bool :=
  match files with
  | [] => jret found
  | f :: files =>
      if bool_decide (f = current) then jret found else
      r <~ on_file_ f (has_data data hash) ;; seen_before files current data hash (found || r)
  end.

(** hashmap_next: the file behind that one in the order of the map. *)
Fixpoint next_path (p : list Z) (paths : list (list Z)) : option (list Z) :=
  match paths with
  | [] => None
  | q :: paths => if bool_decide (q = p) then head paths else next_path p paths
  end.

Fixpoint unique_loop (n : nat) (field : list Z) : J (option (list Z)) :=
  match n with
  | O => fun j => (NoFuel, j)
  | S n =>
      j <~ jget ;;
      match j_unique_file j with
      | None => fun j => (Crash, j)
      | Some f =>
          offset <~ on_file_ f (unique_step field (j_unique_offset j)) ;;
          jmodify (fun j => set_unique j (j_unique_field j) (j_unique_file j) offset) ~;;
          if offset =? 0 then
            match next_path f (map fs_path (j_files j)) with
            | None => jret None
            | Some g => jmodify (fun j => set_unique j (j_unique_field j) (Some g) (j_unique_offset j)) ~;; unique_loop n field
            end
          else
            x <~ on_file_ f (unique_data (j_data_threshold j) field offset) ;;
            found <~ seen_before (map fs_path (j_files j)) f x.1 x.2 false ;;
            if (found : bool) then unique_loop n field else jret (Some x.1)
      end
  end.

(** [None]: it returns 0. *)
Definition sd_journal_enumerate_unique : J (option (list Z)) :=
  check_pid getpid ~;;
  j <~ jget ;;
  match j_unique_field j with
  | None => fun j => (Err EINVAL, j)
  | Some field =>
      match j_unique_file j with
      | Some _ => unique_loop fuel field
      | None =>
          match j_files j with
          | [] => jret None
          | fs :: _ => jmodify (fun j => set_unique j (j_unique_field j) (Some (fs_path fs)) 0) ~;; unique_loop fuel field
          end
      end
  end.

Definition sd_journal_restart_unique : J unit := jmodify (fun j => set_unique j (j_unique_field j) None 0).

End Data.
