(* ===== verification/SdDataProofs.v ===== *)
(** What sd_journal_enumerate_data reads is what journal_file_append_entry wrote. *)
From S2P Require Import Prelude Lookup3 Uuid Memory CString Split JournalDef JournalFile ObjectLemmas ArenaProofs.
From S2P Require Import HashTableProofs HeaderProofs DataProofs StoreProofs StoreOps JournalSeek BisectProofs JournalSamples.
From S2P Require Import StoreSpec StoreSamples EntryArrayProofs JournalInv JournalAppend JournalSpec Match SdJournal SdNext SdData.

(** An item of an entry, from the bytes. *)
Lemma items_at m its : forall a i it,
  load_bytes m a (16 * length its) = flat_map item_bytes its -> its !! i = Some it ->
  load_bytes m (a + 16 * Z.of_nat i) 16 = item_bytes it.
Proof.
  induction its as [|x its IH]; intros a i it Hm Hi; [done|].
  replace (16 * length (x :: its))%nat with (16 + 16 * length its)%nat in Hm by (simpl; lia).
  rewrite load_bytes_app in Hm. cbn [flat_map] in Hm.
  apply app_inj_1 in Hm as [H1 H2]; [|by rewrite load_bytes_length, item_bytes_length].
  destruct i as [|i]; [injection Hi as ->; by rewrite Z.mul_0_r, Z.add_0_r|].
  rewrite <- (IH (a + 16) i it H2 Hi). f_equal. lia.
Qed.

Lemma item_loads m a it : load_bytes m a 16 = item_bytes it -> is_u64 it.1 -> is_u64 it.2 ->
  load64 m a = it.1 /\ load64 m (a + 8) = it.2.
Proof.
  intros H H1 H2. replace 16%nat with (8 + 8)%nat in H by lia. rewrite load_bytes_app in H. unfold item_bytes in H.
  apply app_inj_1 in H as [Ha Hb]; [|by rewrite load_bytes_length, le_bytes_length].
  unfold load64. change (Z.of_nat 8) with 8 in Hb. rewrite Ha, Hb, !le_val_bytes. split; by apply Z.mod_small.
Qed.

Section Enumerate.
Context (e : Env) (getpid : Z) (rejected : list Z -> Z -> outcome (list Z)).
Hypothesis He : mmap_ok e.

(** The entry at [p] of the file has the data [iovec]; [its] are its items. *)
Record has_entry (g : JournalFile) (p : Z) (its : list (Z * Z)) (datas : list (list Z)) : Prop := {
  he_entry : is_object g OBJECT_ENTRY p (entry_items + zlen its * sizeof_EntryItem);
  he_small : zlen its < 2 ^ 59;
  he_items : load_bytes (jf_mem g) (p + entry_items) (16 * length its) = flat_map item_bytes its;
  he_data : Forall2 (fun data it => is_u64 it.1 /\ is_u64 it.2 /\ (exists s, is_object g OBJECT_DATA it.1 s)
    /\ data_of e g it.1 = Some data /\ load64 (jf_mem g) (it.1 + data_hash) = it.2) datas its }.

Lemma item_data_ok g p its datas i data it : has_entry g p its datas -> datas !! i = Some data -> its !! i = Some it ->
  item_data e p (Z.of_nat i) g = (Ok it.1, g).
Proof.
  intros [Ho Hs Hits Hd] Hdi Hii.
  destruct (Forall2_lookup_lr _ _ _ _ _ _ Hd Hdi Hii) as (H1 & H2 & [s Hob] & _ & Hh).
  pose proof (items_at _ _ _ _ _ Hits Hii) as Hat. destruct (item_loads _ _ _ Hat H1 H2) as [E1 E2].
  unfold item_data, entry_item, sizeof_EntryItem_hash, sizeof_EntryItem. run. rewrite E1, E2.
  rewrite (run_bind _ _ _ _ _ (move_to_object_ok e _ _ _ _ _ He Hob (or_introl eq_refl))). run.
  done.
Qed.

(** The threshold does not cut the data. *)
Definition uncut (threshold : Z) (data : list Z) : Prop := threshold <= 0 \/ zlen data <= threshold.

Lemma return_data_ok g d data threshold : data_of e g d = Some data -> uncut threshold data ->
  return_data e rejected threshold d g = (Ok data, g).
Proof.
  intros Hd Hcut. unfold return_data, stored. run. unfold data_of, data_compressed in Hd. cbn [fst snd].
  fold (data_raw g d). destruct (negb _) eqn:Ec; [|by injection Hd as <-].
  destruct (_ =? OBJECT_COMPRESSED_XZ) eqn:Ex in Hd; [|done]. unfold of_outcome, decompress_blob_max.
  rewrite Ex, Hd. do 2 f_equal. destruct (Z.ltb_spec 0 threshold); [|done].
  apply take_ge. destruct Hcut; unfold zlen in *; lia.
Qed.

(** The handle is at the entry [p] of a file that has the data. *)
Record at_data (j : sd_journal) (path : list Z) (p : Z) (its : list (Z * Z)) (datas : list (list Z)) : Prop := {
  ad_pid : j_original_pid j = getpid;
  ad_current : j_current_file j = Some path;
  ad_file : exists fs, find_file path (j_files j) = Some fs /\ fs_current_offset fs = p /\ has_entry (fs_file fs) p its datas;
  ad_cut : Forall (uncut (j_data_threshold j)) datas }.

Lemma enumerate_data_ok j path p its datas k : at_data j path p its datas -> j_current_field j = Z.of_nat k ->
  exists j', sd_journal_enumerate_data e getpid rejected j = (Ok (datas !! k), j')
    /\ (is_Some (datas !! k) -> at_data j' path p its datas /\ j_current_field j' = Z.of_nat (S k)).
Proof.
  intros [Hpid Hcur (fs & Hfs & Hoff & He1) Hcut] Hk. pose proof He1 as [Ho Hs _ Hd].
  pose proof (Forall2_length _ _ _ Hd) as Hlen. pose proof (obj_pos _ _ _ _ Ho) as Hp.
  set (body := (o <- journal_file_move_to_object e OBJECT_ENTRY p ;;
                n <- journal_file_entry_n_items o ;;
                if n <=? j_current_field j then ret None else
                (d <- item_data e o (j_current_field j) ;;
                 x <- return_data e rejected (j_data_threshold j) d ;; ret (Some x)))).
  assert (body (fs_file fs) = (Ok (datas !! k), fs_file fs)) as Hbody.
  { unfold body. rewrite (run_bind _ _ _ _ _ (move_to_object_ok e _ _ _ _ _ He Ho (or_introl eq_refl))).
    rewrite (run_bind _ _ _ _ _ (entry_n_items_ok _ _ _ Ho ltac:(unfold zlen in *; lia))). rewrite Hk.
    destruct (datas !! k) as [data|] eqn:Ed.
    - pose proof (lookup_lt_Some _ _ _ Ed). destruct (Z.leb_spec (zlen its) (Z.of_nat k)); [unfold zlen in *; lia|].
      destruct (lookup_lt_is_Some_2 its k ltac:(lia)) as [it Hit].
      rewrite (run_bind _ _ _ _ _ (item_data_ok _ _ _ _ _ _ _ He1 Ed Hit)).
      destruct (Forall2_lookup_lr _ _ _ _ _ _ Hd Ed Hit) as (_ & _ & _ & Hdata & _).
      rewrite (run_bind _ _ _ _ _ (return_data_ok _ _ _ (j_data_threshold j) Hdata (proj1 (Forall_lookup _ _) Hcut _ _ Ed))). done.
    - apply lookup_ge_None in Ed. destruct (Z.leb_spec (zlen its) (Z.of_nat k)); [done|unfold zlen in *; lia]. }
  set (j1 := set_files j (update_file path (fun fs0 => set_handle fs0 (fs_file fs)) (j_files j))).
  assert (sd_journal_enumerate_data e getpid rejected j = match datas !! k with
    | None => (Ok None, j1)
    | Some x => (Ok (Some x), set_current j1 (j_current_file j1) (j_current_field j1 + 1)) end) as ->.
  { unfold sd_journal_enumerate_data, check_pid, jfail_if, jbind. rewrite Hpid, Z.eqb_refl. simpl negb. cbv iota.
    unfold current_entry, jbind, jget. rewrite Hcur, Hfs, Hoff. unfold jfail_if. destruct (Z.leb_spec p 0); [lia|].
    cbn [jret fst snd]. fold body. unfold on_file_, jbind, on_file. rewrite Hfs, Hbody. by destruct (datas !! k). }
  assert (at_data j1 path p its datas) as Hat.
  { split; [done|done| |done]. exists (set_handle fs (fs_file fs)). split; [|by destruct fs].
    unfold j1. cbn [j_files set_files]. by apply (find_update path (fun fs0 => set_handle fs0 (fs_file fs))). }
  destruct (datas !! k) as [x|]; eexists; (split; [reflexivity|]); [|by intros [? ?]].
  intros _. split; [destruct Hat; split; done|]. change (j_current_field j + 1 = Z.of_nat (S k)). lia.
Qed.

Lemma foreach_data_ok path p its datas n : forall j k, at_data j path p its datas -> j_current_field j = Z.of_nat k ->
  (k <= length datas)%nat -> (length datas < n + k)%nat ->
  exists j', foreach_data e getpid rejected n j = (Ok (drop k datas), j').
Proof.
  induction n as [|n IH]; intros j k Hat Hk Hle Hn; [lia|].
  destruct (enumerate_data_ok j path p its datas k Hat Hk) as (j1 & Hrun & Hnext). cbn [foreach_data]. rewrite Hrun.
  destruct (datas !! k) as [x|] eqn:E.
  - destruct (Hnext ltac:(by eexists)) as [Hat1 Hk1]. pose proof (lookup_lt_Some _ _ _ E).
    destruct (IH j1 (S k) Hat1 Hk1 ltac:(lia) ltac:(lia)) as (j' & Hrest). exists j'.
    unfold jbind. rewrite Hrest. by rewrite (drop_S _ _ _ E).
  - exists j1. apply lookup_ge_None in E. by rewrite drop_ge by lia.
Qed.

End Enumerate.

(** C3 What a program logs is what a reader gets: after journal_file_append_entry returned
    the entry [p] for some data, SD_JOURNAL_FOREACH_DATA in any handle whose current entry
    is [p], of a file that shows the written one, goes over exactly these data, every one
    as often as it was given, compressed or not (in the order of their objects in the
    file), unless the threshold of the handle cuts them. *)
Theorem written_data_is_read e fuel f objs end_ dch fch N A ts iovec seqnum p f' getpid rejected j fs path n :
  mmap_ok e -> page_ok e -> compress_law e ->
  journal e f objs end_ dch fch N A ->
  Forall (fun data => payload_fits e f data /\ bytes_ok data) iovec ->
  let ts' := default (env_now e) ts in
  is_u64 ts'.1 -> is_u64 ts'.2 ->
  hdr off_tail_entry_seqnum f < u64_max -> 0 <= jf_ext_seqnum f < u64_max ->
  entry_fits fuel end_ N iovec ->
  journal_file_append_entry e fuel ts iovec seqnum f = (Ok p, f') ->
  j_original_pid j = getpid -> j_current_file j = Some path -> find_file path (j_files j) = Some fs ->
  fs_current_offset fs = p -> shows f' (fs_file fs) -> Forall (uncut (j_data_threshold j)) iovec ->
  (length iovec < n)%nat ->
  exists datas j', SD_JOURNAL_FOREACH_DATA e getpid rejected n j = (Ok datas, j') /\ datas ≡ₚ iovec.
Proof.
  intros He Hpage Hlaw Hj Hfit ts' Ht1 Ht2 Hseq Hext Hroom Hrun Hpid Hcur Hfs Hoff Hshow Hcut Hn.
  destruct (append_entry_ok e fuel f objs end_ dch fch N A ts iovec seqnum He Hpage Hlaw Hj Hfit Ht1 Ht2 Hseq Hext Hroom)
    as (r & f2 & objs' & end' & dch' & fch' & A' & gain & Hrun' & Hj' & _ & _ & _ & Hr).
  rewrite Hrun in Hrun'. injection Hrun' as <- <-.
  destruct Hr as (its & xor & (s & Hin & Hat & _) & (its0 & _ & Hperm & Hits & _) & _).
  pose proof (st_arena _ _ _ _ _ _ (j_store _ _ _ _ _ _ _ _ Hj')) as Har.
  apply Forall2_flip in Hits.
  destruct (Permutation_Forall2 (symmetry Hperm) Hits) as (datas & Hdperm & Hd). apply Forall2_flip in Hd.
  assert (Forall bytes_ok datas) as Hbytes.
  { rewrite <- Hdperm. eapply Forall_impl; [exact Hfit|]. by intros ? [_ ?]. }
  assert (zlen its < 2 ^ 57) as Hlen.
  { pose proof (Forall2_length _ _ _ Hd) as Hl. destruct Hroom as [Hroom _]. pose proof (data_cost_nonneg iovec).
    pose proof (journal_bound_nonneg _ _ _ _ _ _ _ _ Hj). destruct (arena_above _ _ _ (st_arena _ _ _ _ _ _ (j_store _ _ _ _ _ _ _ _ Hj))).
    apply Permutation_length in Hdperm. unfold zlen in *. rewrite <- Hl, <- Hdperm.
    assert (0 <= entry_cost N (Z.of_nat (length iovec))); [|lia]. unfold entry_cost. clear -H0. nia. }
  destruct (foreach_data_ok e getpid rejected He path p its datas n (set_current j (j_current_file j) 0) 0) as (j' & Hrun');
    [|done|lia|rewrite <- Hdperm; lia|].
  - split; [done|done| |by rewrite <- Hdperm].
    exists fs. split; [done|]. split; [done|].
    destruct (arena_object _ _ _ Har _ _ _ Hin) as (Ho & ? & _). split.
    + eapply is_object_shows; [done|lia|done].
    + lia.
    + rewrite (shows_bytes _ _ _ _ Hshow) by hlia. apply Hat.
    + apply Forall2_same_length_lookup. split; [by eapply Forall2_length|]. intros i data it Hdi Hii.
      destruct (Forall2_lookup_lr _ _ _ _ _ _ Hd Hdi Hii) as ([so Hso] & Hdata & Hhash & Hstored).
      destruct (arena_object _ _ _ Har _ _ _ Hso) as (Hob & ? & _). pose proof (object_ALIGN64 _ _ _ _ Hob).
      pose proof (obj_pos _ _ _ _ Hob). pose proof (obj_end _ _ _ _ Hob). pose proof (obj_nowrap _ _ _ _ Hob).
      pose proof (obj_min _ _ _ _ Hob). pose proof (proj1 (Forall_lookup _ _) Hbytes _ _ Hdi) as Hb.
      split; [unfold is_u64; cbn in *; lia|]. split; [rewrite Hhash; apply hash64_range; [done|unfold zlen; lia]|].
      split; [exists so; eapply is_object_shows; [done|lia|done]|].
      rewrite (shows_load64 _ _ _ Hshow), (shows_data_of _ _ _ _ Hshow) by (unfold data_hash; lia). done.
  - exists datas, j'. split; [|done]. unfold SD_JOURNAL_FOREACH_DATA, sd_journal_restart_data, jbind, jmodify. exact Hrun'.
Qed.

(** A handle at the entry at 496 of a file. *)
Definition sample_reader (f : JournalFile) : sd_journal :=
  set_current (set_files (journal_new 7) [mkFileState [97] f 496 DIRECTION_DOWN]) (Some [97]) 3.

(** Two data, one of them twice. *)
Lemma written_data_witness :
  exists f' datas j',
    journal_file_append_entry sample_env 100 (Some (50, 5)) sample_iovec false fresh_file = (Ok 496, f')
    /\ SD_JOURNAL_FOREACH_DATA sample_env 7 (fun _ _ => Crash) 4 (sample_reader f') = (Ok datas, j')
    /\ datas ≡ₚ sample_iovec.
Proof.
  destruct (journal_file_append_entry sample_env 100 (Some (50, 5)) sample_iovec false fresh_file) as [r f'] eqn:Hrun.
  assert (r = Ok 496) as ->.
  { change r with (r, f').1. rewrite <- Hrun. vm_compute. reflexivity. }
  destruct (written_data_is_read sample_env 100 fresh_file fresh_objs 304 no_chains no_chains 0 no_arrays
    (Some (50, 5)) sample_iovec false 496 f' 7 (fun _ _ => Crash) (sample_reader f') (mkFileState [97] f' 496 DIRECTION_DOWN) [97] 4
    sample_mmap sample_page ltac:(intros src b H; discriminate H) fresh_journal sample_iovec_fits) as (datas & j' & Hread & Hperm).
  - unfold is_u64. simpl. lia.
  - unfold is_u64. simpl. lia.
  - vm_compute. reflexivity.
  - vm_compute. split; [discriminate|reflexivity].
  - apply sample_entry_fits.
  - exact Hrun.
  - reflexivity.
  - reflexivity.
  - reflexivity.
  - reflexivity.
  - exact (sample_shows _ _ Hrun).
  - unfold sample_iovec. do 3 (apply Forall_cons_2; [right; vm_compute; discriminate|]). constructor.
  - simpl. lia.
  - exists f', datas, j'. split; [reflexivity|]. split; [exact Hread|exact Hperm].
Defined.
