(* ===== verification/JournalCopy.v ===== *)
(** journal_file_copy_entry: the entry that is copied is one of the log of its file, and
    becomes the next one of the other log. *)
From S2P Require Import Prelude Lookup3 CString Vacuum Memory JournalDef JournalFile Metrics ObjectLemmas ArenaProofs.
From S2P Require Import HeaderProofs HashTableProofs DataProofs StoreProofs StoreOps JournalSeek BisectProofs ArraySearch.
From S2P Require Import JournalEntries JournalSamples StoreSpec StoreSamples EntryArrayProofs JournalInv.
From S2P Require Import JournalAppend JournalSpec Match SdJournal SdNext SdData SdDataProofs.
From S2P Require Import JournalOpen JournalOpenProofs JournalLog JournalLogSpec.

(** * The entry as a reader sees it *)

(** The entry object at [p] of [g] is the logged entry, its data in any order. *)
Definition shows_entry (e : Env) (g : JournalFile) (p : Z) (x : logged) : Prop :=
  exists its datas, has_entry e g p its datas
    /\ load64 (jf_mem g) (p + entry_seqnum) = lg_seqnum x
    /\ load64 (jf_mem g) (p + entry_realtime) = lg_realtime x
    /\ load64 (jf_mem g) (p + entry_monotonic) = lg_monotonic x
    /\ load_bytes (jf_mem g) (p + entry_boot_id) 16 = lg_boot_id x
    /\ lg_data x ≡ₚ datas.

Lemma entry_shows_reader e f objs end_ g p x :
  arena f objs end_ -> shows f g -> entry_shows e f objs p x -> shows_entry e g p x.
Proof.
  intros Har Hsh (its & datas & Hin & H1 & H2 & H3 & H4 & H5 & H6 & H7).
  destruct (arena_object _ _ _ Har _ _ _ Hin) as (Ho & Hp & _). pose proof (obj_end _ _ _ _ Ho) as Hend.
  pose proof (sw_last _ _ Hsh) as Hl. exists its, datas.
  rewrite !(shows_load64 _ _ _ Hsh), (shows_bytes _ _ _ _ Hsh) by hlia. split_and!; try done. split.
  - eapply is_object_shows; [done|lia|done].
  - hlia.
  - rewrite (shows_bytes _ _ _ _ Hsh) by hlia. done.
  - eapply Forall2_impl; [exact H6|]. intros data it ([so Hso] & Hd & _ & Hh).
    destruct (arena_object _ _ _ Har _ _ _ Hso) as (Hob & ? & _). pose proof (object_ALIGN64 _ _ _ _ Hob).
    pose proof (obj_end _ _ _ _ Hob). pose proof (obj_min _ _ _ _ Hob).
    split; [unfold is_u64; cbn in *; lia|]. split; [rewrite <- Hh; apply load64_range, Har|].
    split; [exists so; eapply is_object_shows; [done|lia|done]|].
    rewrite (shows_load64 _ _ _ Hsh), (shows_data_of _ _ _ _ Hsh) by (unfold data_hash; lia). done.
Qed.

(** Every entry of a log is at some offset of the file. *)
Lemma reads_log_entries e g N l : reads_log e g N l -> exists ps, Forall2 (shows_entry e g) ps l.
Proof.
  intros (f & (objs & end_ & dch & fch & A & [L1 _ _ L4]) & Hsh). exists (held f objs A 0).
  eapply Forall2_impl; [exact L4|]. intros p x. eapply entry_shows_reader; [|done].
  apply (st_arena _ _ _ _ _ _ (j_store _ _ _ _ _ _ _ _ L1)).
Qed.

(** * Copying it *)

Section Copy.
Context (e : Env) (fuel : nat).
Hypothesis (He : mmap_ok e).

Lemma copied_data_ok g p its datas i data it :
  has_entry e g p its datas -> datas !! i = Some data -> its !! i = Some it ->
  copied_data e p (Z.of_nat i) g = (Ok data, g).
Proof.
  intros [Ho Hs Hits Hd] Hdi Hii.
  destruct (Forall2_lookup_lr _ _ _ _ _ _ Hd Hdi Hii) as (H1 & H2 & [s Hob] & Hdata & Hh).
  pose proof (items_at _ _ _ _ _ Hits Hii) as Hat. destruct (item_loads _ _ _ Hat H1 H2) as [E1 E2].
  unfold copied_data, entry_item, sizeof_EntryItem. run. rewrite E1, E2.
  rewrite (run_bind _ _ _ _ _ (move_to_object_ok e _ _ _ _ _ He Hob (or_introl eq_refl))). run.
  fold (data_raw g it.1). unfold data_of, data_compressed in Hdata.
  destruct (negb _); [|by injection Hdata as <-].
  unfold decompress_blob. destruct (_ =? OBJECT_COMPRESSED_XZ); [|done]. by rewrite Hdata.
Qed.

(** The loop over the items writes their data like the loop over an iovec. *)
Lemma copy_items_ok g p its datas : has_entry e g p its datas -> forall n i to xor,
  (n + i = length datas)%nat ->
  copy_items e fuel n p (Z.of_nat i) g to xor
  = let '(r, to') := append_items e fuel (drop i datas) xor to in (r, g, to').
Proof.
  intros Hhe. pose proof Hhe as [Ho Hs _ Hd]. pose proof (Forall2_length _ _ _ Hd) as Hlen.
  induction n as [|n IH]; intros i to xor Hn; [by rewrite drop_ge by lia|].
  destruct (lookup_lt_is_Some_2 datas i ltac:(lia)) as [data Hdata].
  destruct (lookup_lt_is_Some_2 its i ltac:(lia)) as [it Hit].
  rewrite (drop_S _ _ _ Hdata). cbn [copy_items append_items]. unfold copy_item.
  rewrite (copied_data_ok g p its datas i data it Hhe Hdata Hit).
  unfold bind, rd, gets, ret. destruct (journal_file_append_data e fuel data to) as [[h|er| |] to1]; try done.
  rewrite (move_to_object_ok e _ _ _ _ _ He Ho (or_introl eq_refl)). cbn [fst snd].
  replace (Z.of_nat i + 1) with (Z.of_nat (S i)) by lia. rewrite IH by lia.
  destruct (append_items e fuel (drop (S i) datas) _ to1) as [[[its' x]|er| |] to2]; done.
Qed.

(** C36 journal_file_copy_entry writes the entry it is given to the end of the other log:
    the new entry has the data and the times of the old one, the next sequence number
    of its file and the boot id of that file (not the one of the old entry).  The file
    that is read is not changed, and when the call fails no entry of the other one is
    lost. *)
Theorem journal_file_copy_entry_correct from to p x N l seqnum :
  page_ok e -> compress_law e ->
  mem_ok (jf_mem from) -> shows_entry e from p x -> logs e to N l ->
  Forall (fun data => payload_fits e to data /\ bytes_ok data) (lg_data x) ->
  hdr off_tail_entry_seqnum to < u64_max -> 0 <= jf_ext_seqnum to < u64_max -> log_room fuel to N (lg_data x) ->
  exists r to', journal_file_copy_entry e fuel p seqnum from to = (r, from, to')
    /\ let l' := l ++ [mkLogged (hdr off_tail_entry_seqnum to') (lg_realtime x) (lg_monotonic x) (header_id to) (lg_data x)] in
       let N' := N + 1 + zlen (lg_data x) in
       match r with
       | Ok _ => logs e to' N' l'
       | Err _ => logs e to' N' l \/ logs e to' N' l'
       | _ => False
       end.
Proof.
  intros Hpage Hlaw Hok (its & datas & Hhe & _ & Ht1 & Ht2 & _ & Hperm) (objs & end_ & dch & fch & A & HL) Hfit Hseq Hext Hroom.
  pose proof (la_journal _ _ _ _ _ _ _ _ _ HL) as Hj.
  pose proof (st_arena _ _ _ _ _ _ (j_store _ _ _ _ _ _ _ _ Hj)) as Har.
  pose proof Hhe as [Ho Hs _ Hd]. pose proof (Forall2_length _ _ _ Hd) as Hlen.
  unfold journal_file_copy_entry. rewrite (w_writable _ (st_writable _ _ _ _ _ _ (j_store _ _ _ _ _ _ _ _ Hj))). simpl negb. cbv iota.
  rewrite (run_bind _ _ _ _ _ (entry_n_items_ok _ _ _ Ho ltac:(unfold zlen in *; lia))). unfold bind, rd, gets, ret.
  rewrite Ht1, Ht2. rewrite (copy_items_ok from p its datas Hhe (Z.to_nat (zlen its)) 0) by (unfold zlen; lia). rewrite drop_0.
  assert (zlen datas = zlen (lg_data x)) as Ez by (unfold zlen; by rewrite Hperm).
  assert (data_cost datas = data_cost (lg_data x)) as Ec by (by apply data_cost_perm).
  destruct (append_listed_ok id e fuel to objs end_ dch fch N A (lg_realtime x, lg_monotonic x) datas seqnum He Hpage Hlaw)
    as (r & to' & objs' & end' & dch' & fch' & A' & gain & Hrun & Hj' & Hck & Hgained); try done.
  { by rewrite <- Hperm. }
  { cbn. rewrite <- Ht1. by apply load64_range. }
  { cbn. rewrite <- Ht2. by apply load64_range. }
  { pose proof (log_room_fits _ _ _ _ _ _ Har Hroom) as Hf. unfold entry_fits in *. by rewrite Ez, Ec. }
  destruct (gained_logs id e to objs end_ dch fch N A l (lg_realtime x, lg_monotonic x) datas (lg_data x) seqnum r to'
    objs' end' dch' fch' _ A' gain HL Hj' Hck Hgained Hperm) as [_ Hlogs].
  rewrite Ez in Hlogs. exists r, to'. split; [|exact Hlogs].
  revert Hrun. unfold bind. destruct (append_items e fuel datas 0 to) as [[[its' xor]|er| |] to1]; cbn [fst snd id failed_as].
  - change (id its') with its'. by intros ->.
  - by injection 1 as <- <-.
  - by injection 1 as <- <-.
  - by injection 1 as <- <-.
Qed.

End Copy.

(** * An entry written to one new file and copied to another *)

Definition copy_fuel : nat := Z.to_nat 600000.

Definition sample_written : outcome Z * JournalFile :=
  match sample_opened with
  | (Ok new, _, _) => journal_file_append_entry sample_env copy_fuel (Some (50, 5)) sample_iovec false (of_file new)
  | _ => (Crash, new_handle false false 0)
  end.

(** What the sample needs of an opened file. *)
Definition roomy (x : outcome OpenFile * option JournalMetrics * Disk) : bool :=
  match x with
  | (Ok new, _, _) =>
      let f := of_file new in
      (hdr off_tail_entry_seqnum f <? u64_max) && (0 <=? jf_ext_seqnum f) && (jf_ext_seqnum f <? u64_max)
      && (jf_last_size f <=? 8388608)
  | _ => false
  end.

Lemma sample_roomy f metrics' d p flags mode :
  sample_opened = (Ok (mkOpenFile f p flags mode), metrics', d) ->
  hdr off_tail_entry_seqnum f < u64_max /\ 0 <= jf_ext_seqnum f < u64_max /\ log_room copy_fuel f 0 sample_iovec
  /\ Forall (fun data => payload_fits sample_env f data /\ bytes_ok data) sample_iovec.
Proof.
  intros Hopen. assert (roomy sample_opened = true) as Hr by (vm_compute; reflexivity). rewrite Hopen in Hr. clear Hopen.
  unfold roomy in Hr. apply andb_prop in Hr as [Hr R4]. apply andb_prop in Hr as [Hr R3]. apply andb_prop in Hr as [R1 R2].
  cbn [of_file] in *. apply Z.ltb_lt in R1, R3. apply Z.leb_le in R2, R4. split; [exact R1|]. split; [exact (conj R2 R3)|]. split.
  - assert (zlen sample_iovec = 3) as E by (vm_compute; reflexivity).
    assert (data_cost sample_iovec <= 1000) as Hd by (vm_compute; discriminate).
    assert (entry_cost 0 3 <= 1000) as He by (vm_compute; discriminate).
    assert (Z.of_nat copy_fuel = 600000) as Ef by (apply Z2Nat.id; lia).
    unfold log_room, entry_fits. rewrite E, Ef. clear -R4 Hd He. lia.
  - assert (Forall (fun data => zlen data < COMPRESSION_SIZE_THRESHOLD) sample_iovec) as Hs.
    { unfold sample_iovec. do 3 (apply Forall_cons_2; [vm_compute; reflexivity|]). constructor. }
    apply Forall_forall. intros data Hd. pose proof (proj1 (Forall_forall _ _) Hs _ Hd) as Hlt.
    split; [intros _ Hc; cbn beta in Hlt; lia|]. exact (proj2 (proj1 (Forall_forall _ _) sample_iovec_fits _ Hd)).
Qed.

Lemma copy_entry_witness : exists f mode metrics' d q from p seqnum r to',
  sample_opened = (Ok (mkOpenFile f sample_path sample_flags mode), metrics', d) /\ sample_written = (Ok q, from)
  /\ journal_file_copy_entry sample_env copy_fuel p false from f = (r, from, to')
  /\ (forall q', r = Ok q' -> logs sample_env to' 4 [mkLogged seqnum 50 5 (header_id f) sample_iovec]).
Proof.
  destruct sample_opened_logs as ([f path flags mode] & m & d & file & Hopen & _ & Hp & Hf & Hl). cbn in Hp, Hf, Hl. subst path flags.
  destruct (sample_roomy _ _ _ _ _ _ Hopen) as (R1 & R2 & R3 & R4).
  destruct (append_logs sample_env copy_fuel f 0 [] (Some (50, 5)) sample_iovec false sample_mmap sample_page
    ltac:(intros src b H; discriminate H) Hl R4) as (r & from & Hrun & _ & Hr); [cbn; unfold is_u64; lia..|exact R1|exact R2|exact R3|].
  assert (sample_written = (r, from)) as Hw by (unfold sample_written; rewrite Hopen; exact Hrun).
  assert (match sample_written with (Ok _, _) => true | _ => false end = true) as Hok by (vm_compute; reflexivity).
  rewrite Hw in Hok. destruct r as [q| | |]; [|discriminate Hok..].
  destruct (reads_log_entries _ _ _ _ (logs_reads _ _ _ _ Hr)) as (ps & Hps).
  inversion Hps as [|p x ps' l' Hpx _ E1 E2]; subst.
  destruct (logs_arena _ _ _ _ Hr) as (objs & end_ & Har & _).
  destruct (journal_file_copy_entry_correct sample_env copy_fuel sample_mmap from f p _ 0 [] false sample_page
    ltac:(intros src b H; discriminate H) (ar_mem _ _ _ Har) Hpx Hl R4 R1 R2 R3) as (r & to' & Hcopy & Hlogs).
  exists f, mode, m, d, q, from, p, (hdr off_tail_entry_seqnum to'), r, to'.
  split; [exact Hopen|]. split; [exact Hw|]. split; [exact Hcopy|]. intros q' ->. exact Hlogs.
Defined.
