(* ===== verification/Daemon.v ===== *)
(** src/core/journald-server.c: the items of a message and the fields the daemon adds
    to it.

    An item (struct iovec) points to memory that belongs to somebody: the datagram, the
    heap, a literal, or the stack frame of a function.  The model keeps what the item
    showed when it was made and where that is; a frame that is gone shows anything. *)
From S2P Require Import Prelude CString Memory Uuid JournalDef.

Definition LOG_INFO := 6.
Definition LOG_USER := 8.
Definition LOG_PRIMASK := 7.
Definition LOG_FACMASK := 1016.
Definition LOG_PRI (p : Z) : Z := Z.land p LOG_PRIMASK.
Definition LOG_FAC (p : Z) : Z := Z.shiftr (Z.land p LOG_FACMASK) 3.

Definition N_IOVEC_META_FIELDS := 20.
Definition N_IOVEC_KERNEL_FIELDS := 64.
Definition N_IOVEC_OBJECT_FIELDS := 11.

Inductive storage := DATAGRAM | HEAP | LITERAL | FRAME | RETURNED_FRAME.

#[export] Instance storage_eq_dec : EqDecision storage.
Proof. solve_decision. Defined.

Record iovec := mkIovec { iov_in : storage; iov_base : list Z }.

Record ucred := mkUcred { uc_pid : Z; uc_uid : Z; uc_gid : Z }.

Record timeval := mkTimeval { tv_sec : Z; tv_usec : Z }.

Definition USEC_INFINITY := u64_max.

Definition timeval_load (tv : timeval) : Z :=
  if (tv_sec tv =? -1) && (tv_usec tv =? -1) then USEC_INFINITY else
  if u64 (u64_max - tv_usec tv) / 1000000 <? u64 (tv_sec tv) then USEC_INFINITY else
  u64 (u64 (tv_sec tv) * 1000000 + u64 (tv_usec tv)).

(** What /proc answers about a process; [None] is an error. *)
Record Proc := mkProc {
  get_process_comm : Z -> option (list Z);
  get_process_exe : Z -> option (list Z);
  get_process_cmdline : Z -> option (list Z);
  get_process_uid : Z -> option Z;
  get_process_gid : Z -> option Z;
}.

(** "%u" and "%llu" *)
Definition format_u (v : Z) : list Z := decimal 20 v.

(** "%i" *)
Definition format_i (v : Z) : list Z := if v <? 0 then 45 :: decimal 20 (- v) else decimal 20 v.

(** IOVEC_SET_STRING of a string made from a prefix and a text in [st]. *)
Definition field_in (st : storage) (prefix : String.string) (s : list Z) : iovec := mkIovec st (txt prefix ++ s).

Definition field_of_option (st : storage) (prefix : String.string) (s : option (list Z)) : list iovec :=
  match s with Some s => [field_in st prefix s] | None => [] end.

(** A literal. *)
Definition literal (s : String.string) : iovec := mkIovec LITERAL (txt s).

Section Fields.
Context (proc : Proc).

(** The items dispatch_message_real stores; what they point to is on its stack. *)
Definition dispatch_message_real (uc : option ucred) : list iovec :=
  match uc with
  | None => []
  | Some c =>
      [field_in RETURNED_FRAME "_PID=" (format_u (uc_pid c));
       field_in RETURNED_FRAME "_UID=" (format_u (uc_uid c));
       field_in RETURNED_FRAME "_GID=" (format_u (uc_gid c))]
      ++ field_of_option RETURNED_FRAME "_COMM=" (get_process_comm proc (uc_pid c))
      ++ field_of_option RETURNED_FRAME "_EXE=" (get_process_exe proc (uc_pid c))
      ++ field_of_option RETURNED_FRAME "_CMDLINE=" (get_process_cmdline proc (uc_pid c))
  end.

(** The items dispatch_message_object stores, likewise. *)
Definition dispatch_message_object (object_pid : Z) : list iovec :=
  if object_pid =? 0 then [] else
  field_of_option RETURNED_FRAME "OBJECT_UID=" (format_u <$> get_process_uid proc object_pid)
  ++ field_of_option RETURNED_FRAME "OBJECT_GID=" (format_u <$> get_process_gid proc object_pid)
  ++ field_of_option RETURNED_FRAME "OBJECT_COMM=" (get_process_comm proc object_pid)
  ++ field_of_option RETURNED_FRAME "OBJECT_EXE=" (get_process_exe proc object_pid)
  ++ field_of_option RETURNED_FRAME "OBJECT_CMDLINE=" (get_process_cmdline proc object_pid).

End Fields.

(** The items dispatch_message stores. *)
Definition dispatch_message (boot_id hostname : list Z) (tv : option timeval) : list iovec :=
  match tv with
  | Some tv => [field_in RETURNED_FRAME "_SOURCE_REALTIME_TIMESTAMP=" (format_u (timeval_load tv))]
  | None => []
  end
  ++ (if uuid_is_null boot_id =? 0 then [field_in RETURNED_FRAME "_BOOT_ID=" (uuid_to_str boot_id)] else [])
  ++ (match cstring hostname with [] => [] | h => [field_in HEAP "_HOSTNAME=" h] end).

(** The calls by which the readers of messages act on the server. *)
Inductive call :=
| SERVER_DISPATCH_MESSAGE (items : list iovec) (m : Z) (uc : option ucred) (tv : option timeval) (priority : Z)
| FORWARD_SYSLOG_RAW (priority : Z) (buffer : list Z)
| SERVER_FORWARD_SYSLOG (priority : Z) (identifier : option (list Z)) (message : list Z) (uc : option ucred) (tv : option timeval)
| SERVER_FORWARD_CONSOLE (priority : Z) (identifier : option (list Z)) (message : list Z) (uc : option ucred)
| SERVER_DRIVER_MESSAGE (text : list Z).

(** greedy_realloc: the number of elements allocated afterwards; [None]: NULL. *)
Definition greedy_realloc (allocated need size : Z) : option Z :=
  if need <=? allocated then Some allocated else
  let newalloc := Z.max (u64 (need * 2)) (64 / size) in
  if u64 (newalloc * size) <? u64 (size * need) then None else Some newalloc.

(** * How many items there are *)

Lemma field_of_option_length st p s : (length (field_of_option st p s) <= 1)%nat.
Proof. destruct s; simpl; lia. Qed.

Lemma dispatch_message_real_length proc uc : (length (dispatch_message_real proc uc) <= 6)%nat.
Proof.
  destruct uc; simpl; [|lia]. rewrite !length_app.
  repeat match goal with |- context [length (field_of_option ?a ?b ?c)] =>
    lazymatch goal with H : (length (field_of_option a b c) <= 1)%nat |- _ => fail | _ => pose proof (field_of_option_length a b c) end end. lia.
Qed.
