(* ===== verification/Native.v ===== *)
(** The native protocol: how sd_journal_sendv (lib/journal-send.c) lays out a message
    and how server_process_native_message (src/core/journald-native.c) takes a datagram
    apart. *)
From S2P Require Import Prelude CString Memory Numbers JournalDef Daemon.

Definition ENTRY_SIZE_MAX := 1024 * 1024 * 770.
Definition DATA_SIZE_MAX := 1024 * 1024 * 768.

(** * Sending *)

(** IOVEC_SET_STRING(w[j++], "\n") *)
Definition newline : list Z := [10].

(** One turn of the loop of sd_journal_sendv: the elements it adds to the array [w];
    [None]: -EINVAL. *)
Definition sendv_item (iov : list Z) : option (list (list Z)) :=
  if zlen iov <=? 1 then None else
  match memchr 61 iov with
  | None | Some O => None
  | Some c =>
      match memchr 10 iov with
      | Some nl =>
          if Nat.ltb nl c then None else
          let l := zlen iov - Z.of_nat c - 1 in
          Some [take c iov; newline; le_bytes 8 (u64 l); drop (S c) iov; newline]
      | None => Some [iov; newline]
      end
  end.

Fixpoint sendv_items (iov : list (list Z)) : option (list (list Z)) :=
  match iov with
  | [] => Some []
  | i :: iov =>
      match sendv_item i with
      | None => None
      | Some w => match sendv_items iov with Some ws => Some (w ++ ws) | None => None end
      end
  end.

(** [c == iov_base + 17 && startswith(iov_base, "SYSLOG_IDENTIFIER")] *)
Definition is_identifier (iov : list Z) : bool :=
  bool_decide (memchr 61 iov = Some 17%nat) && startswith iov (txt "SYSLOG_IDENTIFIER").

(** The datagram that sendmsg is given.  The array has
    [sizeof(struct iovec) * n * 5 + 3] bytes, 16 for an element; writing beyond it is an
    overflow of the stack. *)
Definition sd_journal_sendv (program_invocation_short_name : list Z) (iov : list (list Z)) : outcome (list Z) :=
  match iov with
  | [] => Err EINVAL
  | _ =>
      match sendv_items iov with
      | None => Err EINVAL
      | Some w =>
          let w := w ++ if existsb is_identifier iov then [] else
                        [txt "SYSLOG_IDENTIFIER="; program_invocation_short_name; newline] in
          if 16 * zlen iov * 5 + 3 <? 16 * zlen w then Crash else Ok (concat w)
      end
  end.

(** * Receiving *)

Definition field_letter (c : Z) : bool :=
  ((65 <=? c) && (c <=? 90)) || ((48 <=? c) && (c <=? 57)) || (c =? 95).

(** [p]: the [l] bytes of the name *)
Definition valid_user_field (p : list Z) (allow_protected : bool) : bool :=
  if zlen p <=? 0 then false else
  if 64 <? zlen p then false else
  if negb allow_protected && (nth 0 p 0 =? 95) then false else
  if (48 <=? nth 0 p 0) && (nth 0 p 0 <=? 57) then false else
  forallb field_letter p.

Definition allow_object_pid (uc : option ucred) : bool :=
  match uc with Some c => uc_uid c =? 0 | None => false end.

(** The variables of server_process_native_message: the first [n] items of the array
    and its size [nt_m] (0: NULL). *)
Record native := mkNative {
  nt_iovec : list iovec; nt_m : Z; nt_entry_size : Z; nt_priority : Z;
  nt_identifier : option (list Z); nt_message : option (list Z); nt_object_pid : Z;
}.

Definition native0 : native := mkNative [] 0 0 LOG_INFO None None 0.

Definition nt_n (st : native) : Z := zlen (nt_iovec st).

Definition set_m (st : native) (m : Z) : native :=
  mkNative (nt_iovec st) m (nt_entry_size st) (nt_priority st) (nt_identifier st) (nt_message st) (nt_object_pid st).
Definition add_item (st : native) (i : iovec) : native :=
  mkNative (nt_iovec st ++ [i]) (nt_m st) (u64 (nt_entry_size st + zlen (iov_base i))) (nt_priority st)
    (nt_identifier st) (nt_message st) (nt_object_pid st).
Definition set_priority (st : native) (p : Z) : native :=
  mkNative (nt_iovec st) (nt_m st) (nt_entry_size st) p (nt_identifier st) (nt_message st) (nt_object_pid st).
Definition set_identifier (st : native) (t : list Z) : native :=
  mkNative (nt_iovec st) (nt_m st) (nt_entry_size st) (nt_priority st) (Some t) (nt_message st) (nt_object_pid st).
Definition set_message (st : native) (t : list Z) : native :=
  mkNative (nt_iovec st) (nt_m st) (nt_entry_size st) (nt_priority st) (nt_identifier st) (Some t) (nt_object_pid st).
Definition set_object_pid (st : native) (pid : Z) : native :=
  mkNative (nt_iovec st) (nt_m st) (nt_entry_size st) (nt_priority st) (nt_identifier st) (nt_message st) pid.

Section Receive.
Context (proc : Proc).
(** The bytes of an uninitialised buffer, and the settings of the server. *)
Context (uninit : list Z) (forward_to_syslog forward_to_console : bool).
Context (uc : option ucred) (tv : option timeval).

Definition digit_at (p : list Z) (i : nat) : bool := is_digit (nth i p 0).

(** What a property [p], a line of [l] bytes, changes besides the items. *)
Definition property_effects (p : list Z) (st : native) : native :=
  let l := zlen p in
  if (l =? 10) && startswith p (txt "PRIORITY=") && digit_at p 9 then
    set_priority st (Z.lor (Z.land (nt_priority st) LOG_FACMASK) (nth 9 p 0 - 48))
  else if (l =? 17) && startswith p (txt "SYSLOG_FACILITY=") && digit_at p 16 then
    set_priority st (Z.lor (Z.land (nt_priority st) LOG_PRIMASK) (Z.shiftl (nth 16 p 0 - 48) 3))
  else if (l =? 18) && startswith p (txt "SYSLOG_FACILITY=") && digit_at p 16 && digit_at p 17 then
    set_priority st (Z.lor (Z.land (nt_priority st) LOG_PRIMASK)
                           (Z.shiftl ((nth 16 p 0 - 48) * 10 + (nth 17 p 0 - 48)) 3))
  else if (19 <=? l) && startswith p (txt "SYSLOG_IDENTIFIER=") then
    set_identifier st (cstring (drop 18 p))
  else if (8 <=? l) && startswith p (txt "MESSAGE=") then
    set_message st (cstring (drop 8 p))
  else if (11 <? l) && (l <? 11 + 12) && startswith p (txt "OBJECT_PID=") && allow_object_pid uc then
    match parse_pid (take 11 (drop 11 p ++ drop (length p - 11) uninit)) with
    | inl pid => set_object_pid st pid
    | inr _ => st
    end
  else st.

(** A line with a '=' at [q]. *)
Definition property (p : list Z) (q : nat) (st : native) : native :=
  if valid_user_field (take q p) false then property_effects p (add_item st (mkIovec DATAGRAM p)) else st.

(** Writing [items] behind the first [n]: beyond the array it is an overflow. *)
Definition fits (st : native) (items : list iovec) : bool := nt_n st + zlen items <=? nt_m st.

Inductive step_result :=
| Next (p : list Z) (st : native) (calls : list call)
| Break (st : native)
| Fault.

(** An empty line.  [&iovec[n]] of no array is NULL, which dispatch_message_real
    asserts it is not. *)
Definition separator (p : list Z) (st : native) : step_result :=
  if ENTRY_SIZE_MAX <? nt_entry_size st + nt_n st + 1 then Next p st [] else
  if nt_m st =? 0 then Fault else
  let items := dispatch_message_real proc uc ++ dispatch_message_object proc (nt_object_pid st) in
  if negb (fits st items) then Fault else
  Next (drop 1 p) (mkNative [] (nt_m st) 0 LOG_INFO (nt_identifier st) (nt_message st) (nt_object_pid st))
    [SERVER_DISPATCH_MESSAGE (nt_iovec st ++ items) (nt_m st) uc tv (nt_priority st)].

(** A field whose name is [p]'s first line, of [e] bytes, with its size and data. *)
Definition binary (p : list Z) (e : nat) (st : native) : step_result :=
  if zlen p <? Z.of_nat e + 1 + 8 + 1 then Break st else
  let l := le_val (take 8 (drop (S e) p)) in
  if DATA_SIZE_MAX <? l then Break st else
  if (zlen p <? Z.of_nat e + 1 + 8 + l + 1) || negb (nth (e + 1 + 8 + Z.to_nat l) p 0 =? 10) then Break st else
  let k := take e p ++ [61] ++ take (Z.to_nat l) (drop (e + 1 + 8) p) in
  Next (drop (e + 1 + 8 + Z.to_nat l + 1) p)
    (if valid_user_field (take e p) false then add_item st (mkIovec HEAP k) else st) [].

(** One turn of the loop of server_process_native_message; [p] is not empty. *)
Definition native_step (p : list Z) (st : native) : step_result :=
  match memchr 10 p with
  | None => Break st
  | Some O => separator p st
  | Some e =>
      if (nth 0 p 0 =? 46) || (nth 0 p 0 =? 35) then Next (drop (S e) p) st [] else
      match greedy_realloc (nt_m st)
              (nt_n st + 1 + N_IOVEC_META_FIELDS + (if nt_object_pid st =? 0 then 0 else N_IOVEC_OBJECT_FIELDS)) 16 with
      | None => Break st
      | Some m =>
          let st := set_m st m in
          match memchr 61 (take e p) with
          | Some q => Next (drop (S e) p) (property (take e p) q st) []
          | None => binary p e st
          end
      end
  end.

Fixpoint native_loop (n : nat) (p : list Z) (st : native) : outcome (native * list call) :=
  match p with
  | [] => Ok (st, [])
  | _ =>
      match n with
      | O => NoFuel
      | S n =>
          match native_step p st with
          | Break st => Ok (st, [])
          | Fault => Crash
          | Next p st calls =>
              match native_loop n p st with
              | Ok (st, calls') => Ok (st, calls ++ calls')
              | r => r
              end
          end
      end
  end.

Definition forwards (st : native) : list call :=
  match nt_message st with
  | None => []
  | Some message =>
      (if forward_to_syslog then [SERVER_FORWARD_SYSLOG (nt_priority st) (nt_identifier st) message uc tv] else [])
      ++ (if forward_to_console then [SERVER_FORWARD_CONSOLE (nt_priority st) (nt_identifier st) message uc] else [])
  end.

(** The loop behind finish: the items but the [tn]-th are freed, unless they point into the
    datagram.  Freeing what is not on the heap is an error. *)
Fixpoint free_items (j : nat) (tn : option nat) (items : list iovec) : outcome unit :=
  match items with
  | [] => Ok tt
  | i :: items =>
      if bool_decide (tn = Some j) then free_items (S j) tn items
      else match iov_in i with
           | DATAGRAM | HEAP => free_items (S j) tn items
           | LITERAL | FRAME | RETURNED_FRAME => Crash
           end
  end.

(** What follows the loop: the calls, and how the freeing at the end goes. *)
Definition native_finish (st : native) : outcome (list call * outcome unit) :=
  if nt_n st <=? 0 then Ok ([], free_items 0 None (nt_iovec st)) else
  if negb (fits st [literal "_TRANSPORT=journal"]) then Crash else
  let tn := length (nt_iovec st) in
  let st := add_item st (literal "_TRANSPORT=journal") in
  if ENTRY_SIZE_MAX <? nt_entry_size st + nt_n st + 1 then Ok ([], free_items 0 (Some tn) (nt_iovec st)) else
  let items := dispatch_message_real proc uc ++ dispatch_message_object proc (nt_object_pid st) in
  if negb (fits st items) then Crash else
  Ok (forwards st ++ [SERVER_DISPATCH_MESSAGE (nt_iovec st ++ items) (nt_m st) uc tv (nt_priority st)],
      free_items 0 (Some tn) (nt_iovec st ++ items)).

(** The calls on the server, in their order, and how the freeing at the end goes. *)
Definition server_process_native_message (buffer : list Z) : outcome (list call * outcome unit) :=
  match native_loop (S (length buffer)) buffer native0 with
  | Ok (st, calls) =>
      match native_finish st with
      | Ok (calls', freed) => Ok (calls ++ calls', freed)
      | Err e => Err e
      | Crash => Crash
      | NoFuel => NoFuel
      end
  | Err e => Err e
  | Crash => Crash
  | NoFuel => NoFuel
  end.

End Receive.
