(* ===== verification/NativeSpec.v ===== *)
(** The native protocol: what the receiver does with any datagram, and that it gets from
    a sender's datagram what the sender was given. *)
From S2P Require Import Prelude CString Memory Numbers JournalDef Daemon Native.

(** * memchr *)

Lemma memchr_Some c l i : memchr c l = Some i -> exists l1 l2, l = l1 ++ c :: l2 /\ length l1 = i /\ c ∉ l1.
Proof.
  revert i. induction l as [|x l IH]; intros i; simpl; [done|]. destruct (Z.eqb_spec x c) as [->|Hx].
  - injection 1 as <-. exists [], l. split; [done|]. split; [done|]. apply not_elem_of_nil.
  - destruct (memchr c l) as [k|]; [|done]. injection 1 as <-. destruct (IH k eq_refl) as (l1 & l2 & -> & <- & Hn).
    exists (x :: l1), l2. split; [done|]. split; [done|]. apply not_elem_of_cons. by split.
Qed.

Lemma memchr_app c l1 l2 : c ∉ l1 -> memchr c (l1 ++ c :: l2) = Some (length l1).
Proof.
  induction l1 as [|x l1 IH]; simpl; [by rewrite Z.eqb_refl|]. intros [Hx Hn]%not_elem_of_cons.
  rewrite (proj2 (Z.eqb_neq _ _)) by done. by rewrite IH.
Qed.

Lemma memchr_None c l : memchr c l = None <-> c ∉ l.
Proof.
  induction l as [|x l IH]; simpl; [split; [intros _; apply not_elem_of_nil|done]|]. rewrite not_elem_of_cons.
  destruct (Z.eqb_spec x c) as [->|Hx]; [by split; [|intros []]|].
  destruct (memchr c l) as [k|].
  - simpl. split; [discriminate|]. intros [_ Hn]. by apply IH in Hn.
  - simpl. split; [|done]. intros _. split; [by apply not_eq_sym|by apply IH].
Qed.

Lemma drop_line {A} (l : list A) c p : drop (S (length l)) (l ++ c :: p) = p.
Proof. induction l; [done|]. simpl in *. done. Qed.

(** * What the daemon hands on *)

(** An item a client may send: a valid name that is not protected, and data. *)
Definition user_field (i : iovec) : Prop :=
  (iov_in i = DATAGRAM \/ iov_in i = HEAP) /\
  exists name data, iov_base i = name ++ 61 :: data /\ valid_user_field name false = true.

Section Receive.
Context (proc : Proc) (uninit : list Z) (fs fc : bool) (uc : option ucred) (tv : option timeval).

(** The items the daemon itself adds. *)
Definition meta_items (pid : Z) : list iovec := dispatch_message_real proc uc ++ dispatch_message_object proc pid.

(** A call of server_dispatch_message that may be made: the client's fields, the
    daemon's fields behind them, and room for three more. *)
Definition good_call (c : call) : Prop :=
  match c with
  | SERVER_DISPATCH_MESSAGE items m uc' tv' _ =>
      uc' = uc /\ tv' = tv /\ zlen items + 3 <= m
      /\ exists users transport pid, items = users ++ transport ++ meta_items pid
           /\ Forall user_field users /\ (transport = [] \/ transport = [literal "_TRANSPORT=journal"])
  | SERVER_FORWARD_SYSLOG _ _ _ uc' tv' => uc' = uc /\ tv' = tv
  | SERVER_FORWARD_CONSOLE _ _ _ uc' => uc' = uc
  | _ => False
  end.

(** The field that says how a message came in. *)
Definition is_transport (i : iovec) : bool :=
  match iov_in i with LITERAL => bool_decide (iov_base i = txt "_TRANSPORT=journal") | _ => false end.

Definition in_frame (i : iovec) : bool := match iov_in i with RETURNED_FRAME => true | _ => false end.

(** The message at the end of a datagram, which gets a field for the transport. *)
Definition last_message (c : call) : Prop :=
  match c with SERVER_DISPATCH_MESSAGE items _ _ _ _ => existsb is_transport items = true | _ => False end.

(** A call made for an entry that an empty line closes. *)
Definition entry_call (c : call) : Prop := good_call c /\ ~ last_message c.

(** The invariant of the loop: the array has room, and a bound on what was taken. *)
Record native_ok (bound : Z) (st : native) : Prop := {
  no_room : nt_m st = 0 /\ nt_iovec st = [] \/ 0 < nt_m st /\ nt_n st + 20 <= nt_m st;
  no_bound : 0 <= nt_entry_size st /\ nt_entry_size st + nt_n st <= bound;
  no_users : Forall user_field (nt_iovec st);
}.

Lemma field_length st p s : zlen (field_of_option st p s) <= 1.
Proof. destruct s; unfold zlen; simpl; lia. Qed.

Lemma zlen_app {A} (l1 l2 : list A) : zlen (l1 ++ l2) = zlen l1 + zlen l2.
Proof. unfold zlen. rewrite length_app. lia. Qed.

Lemma zlen_cons {A} (x : A) l : zlen (x :: l) = 1 + zlen l.
Proof. unfold zlen. simpl. lia. Qed.

Lemma zlen_nonneg {A} (l : list A) : 0 <= zlen l.
Proof. unfold zlen. lia. Qed.

Lemma meta_items_length pid : zlen (meta_items pid) <= 11.
Proof.
  unfold meta_items, dispatch_message_object. rewrite zlen_app.
  assert (zlen (dispatch_message_real proc uc) <= 6) by (pose proof (dispatch_message_real_length proc uc); unfold zlen; lia).
  destruct (pid =? 0); [unfold zlen in *; simpl; lia|]. rewrite !zlen_app.
  pose proof (field_length RETURNED_FRAME "OBJECT_UID=" (format_u <$> get_process_uid proc pid)).
  pose proof (field_length RETURNED_FRAME "OBJECT_GID=" (format_u <$> get_process_gid proc pid)).
  pose proof (field_length RETURNED_FRAME "OBJECT_COMM=" (get_process_comm proc pid)).
  pose proof (field_length RETURNED_FRAME "OBJECT_EXE=" (get_process_exe proc pid)).
  pose proof (field_length RETURNED_FRAME "OBJECT_CMDLINE=" (get_process_cmdline proc pid)). lia.
Qed.

(** property_effects leaves the array alone. *)
Lemma property_effects_same p st :
  let st' := property_effects uninit uc p st in
  nt_iovec st' = nt_iovec st /\ nt_m st' = nt_m st /\ nt_entry_size st' = nt_entry_size st.
Proof. unfold property_effects. repeat case_match; done. Qed.

Lemma greedy_realloc_ok m need : 0 <= m -> 0 < need < 2 ^ 32 -> exists m', greedy_realloc m need 16 = Some m' /\ need <= m' /\ m <= m'.
Proof.
  intros Hm Hneed. unfold greedy_realloc. destruct (Z.leb_spec need m); [by exists m|].
  rewrite (u64_small (need * 2)) by (unfold is_u64; lia). change (64 / 16) with 4.
  rewrite !u64_small by (unfold is_u64; lia). destruct (Z.ltb_spec (Z.max (need * 2) 4 * 16) (16 * need)); [lia|].
  eexists. split; [done|]. lia.
Qed.

(** Growing the array before an item is put in. *)
Lemma grow_ok bound st : native_ok bound st -> bound < 2 ^ 30 ->
  exists m, greedy_realloc (nt_m st)
    (nt_n st + 1 + N_IOVEC_META_FIELDS + (if nt_object_pid st =? 0 then 0 else N_IOVEC_OBJECT_FIELDS)) 16 = Some m
    /\ nt_n st + 21 <= m.
Proof.
  intros [Hr [Hb1 Hb2] _] Hbound. unfold N_IOVEC_META_FIELDS, N_IOVEC_OBJECT_FIELDS.
  assert (0 <= nt_n st) by apply zlen_nonneg.
  destruct (greedy_realloc_ok (nt_m st) (nt_n st + 1 + 20 + (if nt_object_pid st =? 0 then 0 else 11))) as (m & Hg & Hm & _);
    [lia|destruct (nt_object_pid st =? 0); lia|].
  exists m. split; [done|]. destruct (nt_object_pid st =? 0); lia.
Qed.

(** Room in the array once it was grown: the invariant with or without one more item. *)
Lemma set_m_ok bound st m : native_ok bound st -> nt_n st + 21 <= m -> native_ok bound (set_m st m).
Proof.
  intros [_ Hb Hu] Hm. assert (0 <= nt_n st) by apply zlen_nonneg.
  split; [right; change (nt_n (set_m st m)) with (nt_n st); simpl; lia|done|done].
Qed.

Lemma add_item_ok bound st m i k : native_ok bound st -> nt_n st + 21 <= m -> user_field i ->
  bound + k < 2 ^ 30 -> zlen (iov_base i) + 1 <= k -> native_ok (bound + k) (add_item (set_m st m) i).
Proof.
  intros [_ [Hb1 Hb2] Hu] Hm Hi Hbound Hl. assert (0 <= nt_n st) by apply zlen_nonneg.
  assert (nt_n (add_item (set_m st m) i) = nt_n st + 1) as E by (unfold nt_n; simpl; by rewrite zlen_app).
  pose proof (zlen_nonneg (iov_base i)). split.
  - right. rewrite E. simpl. lia.
  - rewrite E. simpl. rewrite u64_small by (unfold is_u64; lia). lia.
  - simpl. apply Forall_app. split; [done|]. by constructor.
Qed.

Lemma users_no_transport users : Forall user_field users -> existsb is_transport users = false /\ existsb in_frame users = false.
Proof. induction 1 as [|i users [[E|E] _] _ IH]; [done|..]; simpl; unfold is_transport, in_frame; by rewrite E. Qed.

Lemma meta_no_transport meta : Forall (fun i => iov_in i = RETURNED_FRAME) meta -> existsb is_transport meta = false.
Proof. induction 1 as [|i meta E _ IH]; [done|]. simpl. unfold is_transport. by rewrite E. Qed.

Lemma native_ok_weaken b b' st : native_ok b st -> b <= b' -> native_ok b' st.
Proof. intros [Hr Hb Hu] Hle. split; [done|lia|done]. Qed.

Lemma property_effects_ok bound p st : native_ok bound st -> native_ok bound (property_effects uninit uc p st).
Proof.
  intros [Hr Hb Hu]. destruct (property_effects_same p st) as (E1 & E2 & E3).
  split; unfold nt_n in *; by rewrite ?E1, ?E2, ?E3.
Qed.

(** A call for the items there are and the daemon's. *)
Lemma dispatch_ok bound st transport priority : native_ok bound st -> nt_m st <> 0 ->
  transport = [] \/ transport = [literal "_TRANSPORT=journal"] ->
  zlen (nt_iovec st ++ transport) + zlen (meta_items (nt_object_pid st)) <= nt_m st
  /\ good_call (SERVER_DISPATCH_MESSAGE ((nt_iovec st ++ transport) ++ meta_items (nt_object_pid st)) (nt_m st) uc tv priority).
Proof.
  intros [Hr Hb Hu] Hm Ht. destruct Hr as [[? _]|[_ Hr]]; [done|]. unfold nt_n in Hr.
  pose proof (meta_items_length (nt_object_pid st)). assert (zlen transport <= 1) by (destruct Ht as [->| ->]; unfold zlen; simpl; lia).
  split; [rewrite zlen_app; lia|]. split; [done|]. split; [done|]. split; [rewrite !zlen_app; lia|].
  exists (nt_iovec st), transport, (nt_object_pid st). by rewrite <- app_assoc.
Qed.

(** The daemon's items are on the stack frames that stored them. *)
Lemma meta_items_frame pid : Forall (fun i => iov_in i = RETURNED_FRAME) (meta_items pid).
Proof.
  unfold meta_items, dispatch_message_real, dispatch_message_object.
  apply Forall_app_2; [destruct uc|destruct (pid =? 0)]; repeat (apply Forall_app_2 || apply Forall_cons_2 || apply Forall_nil_2 || done);
    unfold field_of_option; case_match; repeat constructor.
Qed.

(** * One turn *)

Definition control_line (p : list Z) : Prop := nth 0 p 0 = 46 \/ nth 0 p 0 = 35.

Lemma separator_ok bound p st : native_ok bound st -> bound < 2 ^ 29 ->
  match separator proc uc tv (10 :: p) st with
  | Fault => nt_m st = 0
  | Break _ => False
  | Next p' st' calls => p' = p /\ nt_m st <> 0 /\ nt_m st' <> 0 /\ native_ok 0 st' /\ Forall entry_call calls
  end.
Proof.
  intros Hok Hbound. unfold separator. pose proof (no_bound _ _ Hok) as [Hb1 Hb2].
  rewrite (proj2 (Z.ltb_ge _ _)) by (unfold ENTRY_SIZE_MAX; lia).
  destruct (Z.eqb_spec (nt_m st) 0); [done|].
  destruct (dispatch_ok _ st [] (nt_priority st) Hok) as [Hfit Hgood]; [done|by left|].
  rewrite app_nil_r in Hfit, Hgood. fold (meta_items (nt_object_pid st)). unfold fits, nt_n.
  rewrite (proj2 (Z.leb_le _ _)) by done. simpl negb. cbv iota. split; [done|]. split; [done|]. split; [done|].
  assert (0 <= nt_n st) by apply zlen_nonneg.
  split; [|constructor; [split; [done|]|constructor]].
  2:{ simpl. rewrite existsb_app, (meta_no_transport _ (meta_items_frame _)), orb_false_r.
      by destruct (users_no_transport _ (no_users _ _ Hok)) as [-> _]. }
  split; [|unfold nt_n, zlen; simpl; lia|constructor].
  right. destruct (no_room _ _ Hok) as [[? _]|Hr]; [done|]. unfold nt_n, zlen in *. simpl. lia.
Qed.

Lemma control_ok bound l p st : native_ok bound st -> bound < 2 ^ 29 -> l <> [] -> 10 ∉ l -> control_line l ->
  native_step proc uninit uc tv (l ++ 10 :: p) st = Next p st [].
Proof.
  intros Hok Hbound Hl Hn Hc. unfold native_step. rewrite memchr_app by done.
  destruct l as [|c l]; [done|]. unfold control_line in Hc. simpl in Hc |- *.
  replace ((c =? 46) || (c =? 35)) with true by (by destruct Hc as [->| ->]).
  f_equal. exact (drop_line (c :: l) 10 p).
Qed.

Lemma user_field_text p q : 10 ∉ p -> memchr 61 p = Some q -> valid_user_field (take q p) false = true ->
  user_field (mkIovec DATAGRAM p).
Proof.
  intros _ Hq Hv. split; [by left|]. destruct (memchr_Some _ _ _ Hq) as (l1 & l2 & -> & <- & _).
  rewrite take_app_length in Hv. by exists l1, l2.
Qed.

(** A line that is not a control command: it makes the array, and takes the line as a
    property or the field whose name it is, or ends the loop. *)
Lemma line_ok bound l p st : native_ok bound st -> bound + zlen (l ++ 10 :: p) < 2 ^ 29 -> l <> [] -> 10 ∉ l ->
  bytes_ok p -> ~ control_line l ->
  match native_step proc uninit uc tv (l ++ 10 :: p) st with
  | Fault => False
  | Break st' => nt_m st' <> 0 /\ native_ok bound st'
  | Next p' st' calls =>
      nt_m st' <> 0 /\ calls = []
      /\ exists k, (S (length l) <= k)%nat /\ p' = drop k (l ++ 10 :: p) /\ (k <= length (l ++ 10%Z :: p))%nat
           /\ native_ok (bound + Z.of_nat k) st'
  end.
Proof.
  intros Hok Hbound Hl Hn Hp Hc. unfold native_step. rewrite memchr_app by done.
  destruct l as [|c l]; [done|]. unfold control_line in Hc. simpl length. cbv iota.
  change (nth 0 ((c :: l) ++ 10 :: p) 0) with c. change (nth 0 (c :: l) 0) with c in Hc.
  rewrite (proj2 (Z.eqb_neq c 46)), (proj2 (Z.eqb_neq c 35)) by (intros ->; apply Hc; auto). simpl orb. cbv iota.
  set (line := c :: l) in *. change (S (length l)) with (length line). rewrite !take_app_length.
  assert (0 <= zlen (line ++ 10 :: p)) by apply zlen_nonneg.
  destruct (grow_ok bound st Hok ltac:(lia)) as (m & -> & Hm).
  assert (0 <= nt_n st) by apply zlen_nonneg. pose proof (no_bound _ _ Hok) as [Hb1 Hb2].
  assert (zlen (line ++ 10 :: p) = zlen line + 1 + zlen p) as Ez by (rewrite zlen_app, zlen_cons; lia).
  pose proof (zlen_nonneg p). pose proof (zlen_nonneg line).
  destruct (memchr 61 line) as [q|] eqn:Hq.
  - assert (nt_m (property uninit uc line q (set_m st m)) = m) as Em.
    { unfold property. case_match; [|done]. by destruct (property_effects_same line (add_item (set_m st m) (mkIovec DATAGRAM line))) as (_ & -> & _). }
    rewrite Em. split; [lia|]. split; [done|]. exists (S (length line)). split; [lia|].
    split; [done|]. split; [rewrite length_app; simpl; lia|]. unfold property.
    destruct (valid_user_field (take q line) false) eqn:Hv.
    + apply property_effects_ok, add_item_ok; try done.
      * by eapply user_field_text.
      * unfold zlen in *. lia.
      * unfold zlen. cbn [iov_base]. lia.
    + eapply native_ok_weaken; [by apply set_m_ok|lia].
  - unfold binary. rewrite Ez. fold (zlen line).
    destruct (Z.ltb_spec (zlen line + 1 + zlen p) (zlen line + 1 + 8 + 1)) as [?|Hlen]; [split; [simpl; lia|by apply set_m_ok]|].
    set (v := le_val _). assert (0 <= v) as Hv.
    { unfold v. apply (le_val_range _). apply Forall_take.
      replace (S (length line)) with (length line + 1)%nat by lia. rewrite drop_app_add by lia. by apply (Forall_drop _ 0). }
    destruct (Z.ltb_spec DATA_SIZE_MAX v); [split; [simpl; lia|by apply set_m_ok]|].
    destruct (Z.ltb_spec (zlen line + 1 + zlen p) (zlen line + 1 + 8 + v + 1)) as [?|Hlen2]; simpl orb; cbv iota;
      [split; [simpl; lia|by apply set_m_ok]|].
    destruct (negb _); [split; [simpl; lia|by apply set_m_ok]|].
    assert (length p >= 8 + Z.to_nat v + 1)%nat as Hlp by (unfold zlen in *; lia).
    split; [by case_match; simpl; lia|]. split; [done|]. eexists. split; [|split; [reflexivity|]]; [lia|].
    split; [rewrite length_app; simpl; lia|]. rewrite take_app_length.
    destruct (valid_user_field line false) eqn:Hvf; [|eapply native_ok_weaken; [by apply set_m_ok|lia]].
    apply add_item_ok; try done.
    + split; [by right|]. by eexists line, _.
    + unfold zlen in *. lia.
    + unfold zlen. simpl. rewrite !length_app. simpl.
      pose proof (length_take_le (drop (length line + 1 + 8) (line ++ 10 :: p)) (Z.to_nat v)).
      rewrite length_take. lia.
Qed.

End Receive.


(** A datagram whose first line that is not a control command is empty. *)
Inductive blank_first : list Z -> Prop :=
| blank_here p : blank_first (10 :: p)
| blank_behind l p : l <> [] -> 10 ∉ l -> control_line l -> blank_first p -> blank_first (l ++ 10 :: p).

Lemma first_line p : 10 ∈ p -> exists l p', p = l ++ 10 :: p' /\ 10 ∉ l.
Proof.
  intros Hin. destruct (memchr 10 p) as [i|] eqn:E; [|by apply memchr_None in E].
  destruct (memchr_Some _ _ _ E) as (l & p' & -> & _ & Hn). by exists l, p'.
Qed.

Lemma line_inj l l' p p' : 10 ∉ l -> 10 ∉ l' -> l ++ 10 :: p = l' ++ 10 :: p' -> l = l' /\ p = p'.
Proof.
  intros Hl Hl' E. pose proof (memchr_app 10 l p Hl) as H. rewrite E, memchr_app in H by done.
  injection H as H. by apply app_inj_1 in E as [-> [= ->]].
Qed.

Lemma blank_first_line l p : (10 ∉ l) -> blank_first (l ++ 10 :: p) -> l = [] \/ control_line l /\ blank_first p.
Proof.
  intros Hl H. inversion H as [q E|l' q Hne Hn Hc Hq E].
  - left. assert ([] ++ 10 :: q = l ++ 10 :: p) as E' by done. apply line_inj in E' as [<- _]; [done|apply not_elem_of_nil|done].
  - right. apply line_inj in E as [-> ->]; done.
Qed.

Lemma blank_first_newline p : blank_first p -> 10 ∈ p.
Proof. destruct 1; [constructor|]. apply elem_of_app. right. constructor. Qed.

Section Receive.
Context (proc : Proc) (uninit : list Z) (fs fc : bool) (uc : option ucred) (tv : option timeval).
#[local] Abbreviation loop := (native_loop proc uninit uc tv).
#[local] Abbreviation good := (good_call proc uc tv).

(** The loop on any datagram. *)
Lemma native_loop_ok n : forall p st bound, (length p < n)%nat -> native_ok bound st -> bound + zlen p < 2 ^ 29 -> bytes_ok p ->
  match loop n p st with
  | Ok (st', calls) => native_ok (bound + zlen p) st' /\ Forall (entry_call proc uc tv) calls /\ (nt_m st = 0 -> ~ blank_first p)
  | Crash => nt_m st = 0 /\ blank_first p
  | _ => False
  end.
Proof.
  induction n as [|n IH]; intros p st bound Hn Hok Hb Hp; [lia|].
  destruct (decide (p = [])) as [->|Hne].
  { simpl. split; [eapply native_ok_weaken; [done|unfold zlen; simpl; lia]|]. split; [done|].
    intros _ H%blank_first_newline. by apply not_elem_of_nil in H. }
  assert (loop (S n) p st = match native_step proc uninit uc tv p st with
    | Break st => Ok (st, []) | Fault => Crash
    | Next p st calls => match loop n p st with Ok (st, calls') => Ok (st, calls ++ calls') | r => r end end) as -> by (by destruct p).
  pose proof (zlen_nonneg p). pose proof (no_bound _ _ Hok) as [Hb1 Hb2]. pose proof (zlen_nonneg (nt_iovec st)) as Hn0. fold (nt_n st) in Hn0.
  destruct (decide (10 ∈ p)) as [Hin|Hno].
  - destruct (first_line p Hin) as (l & p' & -> & Hl). rewrite zlen_app, zlen_cons in *.
    apply Forall_app in Hp as Hp2. destruct Hp2 as [_ Hp']. apply Forall_cons in Hp' as [_ Hp'].
    rewrite length_app in Hn. simpl in Hn. pose proof (zlen_nonneg l). pose proof (zlen_nonneg p').
    destruct (decide (l = [])) as [->|Hlne]; [|destruct (decide (nth 0 l 0 = 46 \/ nth 0 l 0 = 35)) as [Hc|Hc]].
    + unfold native_step. simpl. pose proof (separator_ok proc uc tv bound p' st Hok ltac:(lia)) as Hs.
      destruct (separator proc uc tv (10 :: p') st) as [q st' calls|st'|]; [|done|].
      * destruct Hs as (-> & Hm & Hm' & Hok' & Hcalls). specialize (IH p' st' 0 ltac:(simpl in *; lia) Hok' ltac:(lia) Hp').
        destruct (loop n p' st') as [[st2 calls2]| | |]; try done.
        -- destruct IH as (Hok2 & Hg & _). split; [eapply native_ok_weaken; [done|unfold zlen; simpl; lia]|].
           split; [by apply Forall_app|done].
        -- destruct IH as [? _]. done.
      * split; [done|constructor].
    + rewrite (control_ok proc uninit uc tv bound) by (done || lia).
      specialize (IH p' st bound ltac:(lia) Hok ltac:(lia) Hp'). destruct (loop n p' st) as [[st2 calls2]| | |]; try done.
      * destruct IH as (Hok2 & Hg & Hnb). split; [eapply native_ok_weaken; [done|lia]|]. split; [done|].
        intros Hm Hbf. apply blank_first_line in Hbf as [?|[_ ?]]; [done| |done]. by apply Hnb.
      * destruct IH as [? ?]. split; [done|]. by apply blank_behind.
    + pose proof (line_ok proc uninit uc tv bound l p' st Hok ltac:(rewrite zlen_app, zlen_cons; lia) Hlne Hl Hp' Hc) as Hs.
      assert (~ blank_first (l ++ 10 :: p')) as Hnb.
      { intros Hbf. apply blank_first_line in Hbf as [?|[? _]]; done. }
      destruct (native_step proc uninit uc tv (l ++ 10 :: p') st) as [q st' calls|st'|]; [| |done].
      * destruct Hs as (Hm & -> & k & Hk1 & -> & Hk2 & Hok'). rewrite length_app in Hk2. simpl in Hk2.
        assert (zlen (drop k (l ++ 10 :: p')) = zlen l + 1 + zlen p' - Z.of_nat k) as Ez.
        { unfold zlen. rewrite length_drop, length_app. simpl. lia. }
        specialize (IH (drop k (l ++ 10 :: p')) st' (bound + Z.of_nat k)). rewrite Ez in IH. 
        assert (bytes_ok (drop k (l ++ 10 :: p'))) as Hd by (by apply Forall_drop).
        specialize (IH ltac:(rewrite length_drop, length_app; simpl; lia) Hok' ltac:(lia) Hd).
        destruct (loop n (drop k (l ++ 10 :: p')) st') as [[st2 calls2]| | |]; try done.
        -- destruct IH as (Hok2 & Hg & _). split; [eapply native_ok_weaken; [done|lia]|]. by split.
        -- by destruct IH.
      * destruct Hs as [Hm Hok']. split; [eapply native_ok_weaken; [done|lia]|]. by split.
  - assert (native_step proc uninit uc tv p st = Break st) as -> by (unfold native_step; by rewrite (proj2 (memchr_None 10 p) Hno)).
    split; [eapply native_ok_weaken; [done|lia]|]. split; [done|]. by intros _ ?%blank_first_newline.
Qed.

Lemma native0_ok : native_ok 0 native0.
Proof. split; [by left|unfold nt_n, zlen; simpl; lia|constructor]. Qed.

(** The last call is for a message at the end of the datagram, which has the _TRANSPORT
    field, and has fields of the daemon: these lie in frames that have returned. *)
Definition frees_stack (calls : list call) : bool :=
  match last calls with
  | Some (SERVER_DISPATCH_MESSAGE items _ _ _ _) => existsb is_transport items && existsb in_frame items
  | _ => false
  end.

Lemma free_items_ok j tn users rest : Forall user_field users ->
  free_items j tn (users ++ rest) = free_items (j + length users) tn rest.
Proof.
  intros Hu. revert j. induction Hu as [|i users Hi _ IH]; intros j; cbn [app length free_items]; [by rewrite Nat.add_0_r|].
  rewrite IH, <- Nat.add_succ_comm. case_bool_decide; [done|]. by destruct Hi as [[-> | ->] _].
Qed.

Lemma free_items_transport users meta : Forall user_field users -> Forall (fun i => iov_in i = RETURNED_FRAME) meta ->
  free_items 0 (Some (length users)) ((users ++ [literal "_TRANSPORT=journal"]) ++ meta) = match meta with [] => Ok tt | _ => Crash end.
Proof.
  intros Hu Hm. rewrite <- app_assoc, free_items_ok by done. cbn [app free_items Nat.add]. rewrite bool_decide_true by done.
  destruct Hm as [|i meta Hi _]; [done|]. cbn [free_items]. rewrite bool_decide_false by (intros [=]; lia). by rewrite Hi.
Qed.

(** What follows the loop. *)
Lemma native_finish_ok bound st : native_ok bound st -> bound < 2 ^ 29 ->
  exists calls freed, native_finish proc fs fc uc tv st = Ok (calls, freed) /\ Forall good calls
    /\ ((calls = [] /\ freed = Ok tt)
        \/ (calls <> [] /\ freed = if frees_stack calls then Crash else Ok tt)).
Proof.
  intros Hok Hb. pose proof (no_users _ _ Hok) as Hu. unfold native_finish. destruct (Z.leb_spec (nt_n st) 0) as [Hn|Hn].
  { eexists _, _. split; [reflexivity|]. split; [constructor|]. left. split; [done|]. rewrite <- (app_nil_r (nt_iovec st)).
    by rewrite free_items_ok. }
  assert (nt_m st <> 0) as Hm.
  { destruct (no_room _ _ Hok) as [[? E]|[? _]]; [|lia]. unfold nt_n in Hn. rewrite E in Hn. done. }
  destruct (dispatch_ok proc uc tv _ st [literal "_TRANSPORT=journal"] (nt_priority st) Hok Hm (or_intror eq_refl)) as [Hfit Hgood].
  unfold fits, nt_n. rewrite zlen_app in Hfit. pose proof (zlen_nonneg (meta_items proc uc (nt_object_pid st))).
  rewrite (proj2 (Z.leb_le _ _)) by lia. simpl negb. cbv iota zeta. pose proof (no_bound _ _ Hok) as [Hb1 Hb2].
  rewrite (proj2 (Z.ltb_ge ENTRY_SIZE_MAX _)).
  2:{ simpl nt_entry_size. simpl nt_iovec. rewrite zlen_app. fold (nt_n st). unfold zlen. simpl length.
      pose proof (zlen_nonneg (nt_iovec st)) as Hn0. fold (nt_n st) in Hn0.
      rewrite u64_small by (unfold is_u64; lia). unfold ENTRY_SIZE_MAX. lia. }
  simpl nt_iovec. simpl nt_m. simpl nt_object_pid. simpl nt_priority. fold (meta_items proc uc (nt_object_pid st)).
  rewrite (proj2 (Z.leb_le _ _)) by (rewrite zlen_app; lia). simpl negb. cbv iota. eexists _, _. split; [reflexivity|]. split.
  - apply Forall_app. split; [|by constructor]. unfold forwards. simpl. destruct (nt_message st); [|done].
    apply Forall_app. split; [destruct fs|destruct fc]; repeat constructor.
  - right. split; [by intros [_ ?]%app_nil|]. pose proof (meta_items_frame proc uc (nt_object_pid st)) as Hf.
    unfold frees_stack. rewrite last_snoc, free_items_transport, !existsb_app by done.
    destruct (users_no_transport _ Hu) as [-> ->]. simpl. destruct Hf as [|i l Hi _]; [done|]. simpl. unfold in_frame. by rewrite Hi.
Qed.

End Receive.

(** * A datagram of sd_journal_sendv *)

Definition sendable (i : list Z) : Prop := exists name data, i = name ++ 61 :: data /\ valid_user_field name false = true.

Lemma valid_name name : valid_user_field name false = true ->
  name <> [] /\ (10 ∉ name) /\ (61 ∉ name) /\ ~ control_line name.
Proof.
  unfold valid_user_field. destruct name as [|c name]; [done|].
  do 4 (case_match; [done|]). intros Hall.
  assert (Forall (fun c => field_letter c = true) (c :: name)) as Hf by (apply Forall_forall; rewrite forallb_forall in Hall; intros x ?%list_elem_of_In; by apply Hall).
  split; [done|]. split; [|split].
  - intros Hin. rewrite Forall_forall in Hf. by specialize (Hf _ Hin).
  - intros Hin. rewrite Forall_forall in Hf. by specialize (Hf _ Hin).
  - apply Forall_cons in Hf as [Hc _]. unfold control_line. simpl. by intros [->| ->].
Qed.

(** What the receiver makes of an item. *)
Definition received (i : list Z) : iovec := mkIovec (if memchr 10 i is Some _ then HEAP else DATAGRAM) i.

Fixpoint total (its : list (list Z)) : Z := match its with [] => 0 | i :: its => zlen i + 1 + total its end.

Lemma total_app a b : total (a ++ b) = total a + total b.
Proof. induction a as [|i a IH]; simpl; lia. Qed.

Lemma total_nonneg its : 0 <= total its.
Proof. induction its as [|i its IH]; simpl; [lia|]. pose proof (zlen_nonneg i). lia. Qed.

Section Items.
Context (proc : Proc) (uninit : list Z) (fs fc : bool) (uc : option ucred) (tv : option timeval).

Lemma property_text p q st : valid_user_field (take q p) false = true ->
  nt_iovec (property uninit uc p q st) = nt_iovec st ++ [mkIovec DATAGRAM p].
Proof.
  intros Hv. unfold property. rewrite Hv. by destruct (property_effects_same uninit uc p (add_item st (mkIovec DATAGRAM p))) as (-> & _).
Qed.

(** A line that is not a control command, with the array grown. *)
Lemma native_step_line bound l p st : native_ok bound st -> bound < 2 ^ 29 -> l <> [] -> 10 ∉ l -> ~ control_line l ->
  exists m, nt_n st + 21 <= m
    /\ native_step proc uninit uc tv (l ++ 10 :: p) st
       = match memchr 61 l with
         | Some q => Next p (property uninit uc l q (set_m st m)) []
         | None => binary (l ++ 10 :: p) (length l) (set_m st m)
         end.
Proof.
  intros Hok Hb Hl Hn Hc. destruct (grow_ok bound st Hok ltac:(lia)) as (m & Hg & Hm). exists m. split; [done|].
  unfold native_step. rewrite memchr_app, Hg, take_app_length, drop_line by done. destruct l as [|c l]; [done|].
  unfold control_line in Hc. simpl in Hc. simpl length. cbv iota. change (nth 0 ((c :: l) ++ 10 :: p) 0) with c.
  by rewrite (proj2 (Z.eqb_neq c 46)), (proj2 (Z.eqb_neq c 35)) by tauto.
Qed.

Lemma nth_app_r {A} (l1 l2 : list A) i d : nth (length l1 + i) (l1 ++ l2) d = nth i l2 d.
Proof. rewrite app_nth2_plus. done. Qed.

(** A field with its size in front. *)
Lemma binary_step name data rest st : valid_user_field name false = true -> zlen data <= DATA_SIZE_MAX ->
  binary (name ++ 10 :: le_bytes 8 (zlen data) ++ data ++ 10 :: rest) (length name) st
  = Next rest (add_item st (mkIovec HEAP (name ++ 61 :: data))) [].
Proof.
  intros Hv Hd. set (l8 := le_bytes 8 (zlen data)). pose proof (zlen_nonneg data). pose proof (zlen_nonneg rest).
  assert (length l8 = 8%nat) as El8 by apply le_bytes_length.
  assert (le_val l8 = zlen data) as Ev.
  { unfold l8. rewrite le_val_bytes. apply Z.mod_small. change (256 ^ Z.of_nat 8) with 18446744073709551616. unfold DATA_SIZE_MAX in Hd. lia. }
  unfold binary. rewrite drop_line, (take_app_length' l8), Ev, take_app_length, Hv by done.
  assert (zlen (name ++ 10 :: l8 ++ data ++ 10 :: rest) = zlen name + 1 + 8 + zlen data + 1 + zlen rest) as ->.
  { rewrite !zlen_app, !zlen_cons, !zlen_app, zlen_cons. unfold zlen at 2. rewrite El8. lia. }
  fold (zlen name). rewrite (proj2 (Z.ltb_ge _ (_ + 1 + 8 + 1))), (proj2 (Z.ltb_ge DATA_SIZE_MAX _)), (proj2 (Z.ltb_ge (_ + zlen rest) _)) by lia.
  replace (Z.to_nat (zlen data)) with (length data) by (unfold zlen; lia).
  replace (length name + 1 + 8)%nat with (length (name ++ 10 :: l8)) by (rewrite length_app, length_cons, El8; lia).
  replace (name ++ 10 :: l8 ++ data ++ 10 :: rest) with ((name ++ 10 :: l8) ++ data ++ 10 :: rest) by (by rewrite <- app_assoc).
  rewrite nth_app_r, drop_app_length, take_app_length. rewrite <- (Nat.add_0_r (length data)) at 1. rewrite nth_app_r. simpl nth.
  simpl negb. cbv iota. rewrite <- Nat.add_assoc, drop_app_add, drop_app_add. reflexivity.
Qed.

(** One item, sent and received. *)
Lemma item_step i rest st bound : sendable i -> native_ok bound st -> bound + zlen i + 1 < 2 ^ 29 ->
  exists w st', sendv_item i = Some w /\ concat w <> [] /\ (length w <= if memchr 10 i is Some _ then 5 else 2)%nat
    /\ native_step proc uninit uc tv (concat w ++ rest) st = Next rest st' []
    /\ nt_iovec st' = nt_iovec st ++ [received i] /\ native_ok (bound + (zlen i + 1)) st'.
Proof.
  intros (name & data & -> & Hv) Hok Hb. destruct (valid_name name Hv) as (Hne & Hn10 & Hn61 & Hc).
  pose proof (no_bound _ _ Hok) as [Hb1 Hb2]. pose proof (zlen_nonneg (nt_iovec st)) as Hn0. fold (nt_n st) in Hn0.
  rewrite zlen_app, zlen_cons in *. pose proof (zlen_nonneg data).
  assert (1 <= zlen name) by (destruct name; [done|unfold zlen; simpl; lia]).
  unfold sendv_item. rewrite zlen_app, zlen_cons, (proj2 (Z.leb_gt _ _)), memchr_app by (done || lia).
  assert (exists k, length name = S k) as [k Ek] by (destruct name; [done|by eexists]). rewrite Ek. cbv iota beta. rewrite <- Ek.
  unfold received. destruct (memchr 10 (name ++ 61 :: data)) as [nl|] eqn:Hnl.
  - assert (length name <= nl)%nat as Hle.
    { destruct (memchr_Some _ _ _ Hnl) as (l1 & l2 & E & <- & Hn1).
      destruct (decide (length name <= length l1)%nat) as [|Hlt]; [done|]. exfalso.
      apply Hn10. rewrite <- (take_app_length name (61 :: data)), E, take_app_ge by lia. apply elem_of_app. right.
      replace (length name - length l1)%nat with (S (length name - length l1 - 1)) by lia. constructor. }
    rewrite (proj2 (Nat.ltb_ge _ _)) by done. rewrite take_app_length, drop_line.
    replace (zlen name + (1 + zlen data) - Z.of_nat (length name) - 1) with (zlen data) by (unfold zlen; lia).
    rewrite (u64_small (zlen data)) by (unfold is_u64; lia).
    destruct (native_step_line bound name (le_bytes 8 (zlen data) ++ data ++ 10 :: rest) st) as (m & Hm & Hstep); [done|lia|done|done|done|].
    do 2 eexists. split; [done|]. split; [by destruct name|]. split; [simpl; lia|].
    assert (concat [name; newline; le_bytes 8 (zlen data); data; newline] ++ rest
            = name ++ 10 :: le_bytes 8 (zlen data) ++ data ++ 10 :: rest) as ->.
    { unfold newline. cbn [concat]. repeat (rewrite <- ?app_assoc; cbn [app]). done. }
    rewrite Hstep, (proj2 (memchr_None 61 name) Hn61), binary_step by (done || (unfold DATA_SIZE_MAX; lia)).
    split; [done|]. split; [done|]. apply add_item_ok; [done|done| |lia|simpl iov_base; rewrite zlen_app, zlen_cons; lia].
    split; [by right|]. by exists name, data.
  - apply memchr_None in Hnl.
    destruct (native_step_line bound (name ++ 61 :: data) rest st) as (m & Hm & Hstep); [done|lia|by destruct name|done| |].
    { unfold control_line in *. by destruct name. }
    rewrite memchr_app in Hstep by done.
    do 2 eexists. split; [done|]. split; [by destruct name|]. split; [simpl; lia|].
    unfold newline. simpl concat. rewrite <- app_assoc. simpl app. split; [exact Hstep|].
    rewrite property_text by (by rewrite take_app_length). split; [done|].
    unfold property. rewrite take_app_length, Hv. apply property_effects_ok, add_item_ok; [done|done| |lia|].
    + eapply user_field_text; [done|by apply memchr_app|by rewrite take_app_length].
    + simpl iov_base. rewrite zlen_app, zlen_cons. lia.
Qed.

(** All items of a datagram. *)
Lemma items_loop its : Forall sendable its -> forall rest st bound, native_ok bound st -> bound + total its < 2 ^ 29 ->
  exists w st', sendv_items its = Some w /\ (length its <= length (concat w))%nat
    /\ zlen w + 3 * zlen (filter (fun i => memchr 10 i = None) its) <= 5 * zlen its
    /\ (forall n, native_loop proc uninit uc tv (length its + n) (concat w ++ rest) st = native_loop proc uninit uc tv n rest st')
    /\ nt_iovec st' = nt_iovec st ++ map received its /\ native_ok (bound + total its) st'.
Proof.
  induction 1 as [|i its Hi _ IH]; intros rest st bound Hok Hb.
  { exists [], st. simpl. rewrite app_nil_r. do 2 (split; [done|]). split; [unfold zlen; simpl; lia|]. split; [done|]. split; [done|]. by rewrite Z.add_0_r. }
  simpl total in *. pose proof (total_nonneg its).
  destruct (sendv_items its) as [ws|] eqn:Ews.
  2:{ destruct (IH rest st bound Hok ltac:(pose proof (zlen_nonneg i); lia)) as (? & ? & ? & _). done. }
  destruct (item_step i (concat ws ++ rest) st bound Hi Hok ltac:(lia)) as (w & st1 & Hw & Hne & Hlen & Hstep & Hst1 & Hok1).
  destruct (IH rest st1 _ Hok1 ltac:(lia)) as (ws' & st2 & [= <-] & Hlen2 & Hfit & Hloop & Hst2 & Hok2).
  exists (w ++ ws), st2. split; [simpl; by rewrite Hw, Ews|]. rewrite concat_app, length_app.
  split; [assert (0 < length (concat w))%nat by (destruct (concat w); [done|simpl; lia]); simpl; lia|].
  split.
  { rewrite filter_cons, zlen_app, zlen_cons. destruct (memchr 10 i) eqn:Em;
      [rewrite decide_False by done|rewrite decide_True, zlen_cons by done]; unfold zlen in *; lia. }
  split; [|split; [by rewrite Hst2, Hst1, <- app_assoc|by rewrite Z.add_assoc]].
  intros n. rewrite <- Hloop, <- app_assoc. simpl Nat.add.
  assert (concat w ++ concat ws ++ rest <> []) as Hne2 by (intros [? _]%app_nil; done).
  simpl native_loop. destruct (concat w ++ concat ws ++ rest) as [|c p]; [done|]. rewrite Hstep.
  by destruct (native_loop _ _ _ _ _ _ _) as [[??]| | |].
Qed.

End Items.

(** The items a datagram of sd_journal_sendv holds. *)
Definition sent (name : list Z) (iov : list (list Z)) : list (list Z) :=
  iov ++ if existsb is_identifier iov then [] else [txt "SYSLOG_IDENTIFIER=" ++ name].

Definition is_forward (c : call) : Prop :=
  match c with SERVER_FORWARD_SYSLOG _ _ _ _ _ | SERVER_FORWARD_CONSOLE _ _ _ _ => True | _ => False end.

Lemma identifier_sendable name : sendable (txt "SYSLOG_IDENTIFIER=" ++ name).
Proof. by exists (txt "SYSLOG_IDENTIFIER"), name. Qed.

Lemma sendv_items_app a b : sendv_items (a ++ b)
  = match sendv_items a, sendv_items b with Some x, Some y => Some (x ++ y) | _, _ => None end.
Proof.
  induction a as [|i a IH]; simpl; [by destruct (sendv_items b)|]. rewrite IH. destruct (sendv_item i), (sendv_items a), (sendv_items b); try done.
  by rewrite app_assoc.
Qed.

(** The datagram is that of the items, the name of the program being one of them. *)
Lemma sendv_datagram name iov w : iov <> [] -> (10 ∉ name) -> sendv_items (sent name iov) = Some w ->
  (Exists (fun i => 10 ∉ i) iov \/ existsb is_identifier iov = true) ->
  (forall v, sendv_items iov = Some v -> zlen v + 3 * zlen (filter (fun i => memchr 10 i = None) iov) <= 5 * zlen iov) ->
  sd_journal_sendv name iov = Ok (concat w).
Proof.
  intros Hne Hname Hw Hex Hfit. unfold sent in Hw. rewrite sendv_items_app in Hw. unfold sd_journal_sendv.
  destruct iov as [|i0 iov0] eqn:Ei; [done|]. rewrite <- Ei in *. destruct (sendv_items iov) as [v|] eqn:Ev; [|done].
  specialize (Hfit v eq_refl). destruct (existsb is_identifier iov).
  - simpl in Hw. rewrite app_nil_r in Hw |- *. injection Hw as <-.
    pose proof (zlen_nonneg (filter (fun i => memchr 10 i = None) iov)). by rewrite (proj2 (Z.ltb_ge _ _)) by lia.
  - destruct Hex as [Hex|]; [|done].
    assert (1 <= zlen (filter (fun i => memchr 10 i = None) iov)) as H1.
    { apply Exists_exists in Hex as (i & Hi & Hn). apply memchr_None in Hn.
      assert (i ∈ filter (fun i => memchr 10 i = None) iov) as Hin by (apply list_elem_of_filter; by split).
      destruct (filter _ _); [by apply not_elem_of_nil in Hin|]. unfold zlen. simpl. lia. }
    assert (sendv_items [txt "SYSLOG_IDENTIFIER=" ++ name] = Some [txt "SYSLOG_IDENTIFIER=" ++ name; newline]) as E.
    { assert (memchr 10 (txt "SYSLOG_IDENTIFIER=" ++ name) = None) as E1.
      { apply memchr_None. intros [H|H]%elem_of_app; [|done]. by apply (proj1 (memchr_None 10 _)) in H. }
      assert (1 < zlen (txt "SYSLOG_IDENTIFIER=" ++ name)) as E2
        by (rewrite zlen_app; pose proof (zlen_nonneg name); unfold zlen at 1; change (length (txt "SYSLOG_IDENTIFIER=")) with 18%nat; lia).
      assert (memchr 61 (txt "SYSLOG_IDENTIFIER=" ++ name) = Some 17%nat) as E3 by done.
      set (it := txt "SYSLOG_IDENTIFIER=" ++ name) in *. simpl. unfold sendv_item.
      by rewrite (proj2 (Z.leb_gt _ _)), E3, E1 by lia. }
    rewrite E in Hw. injection Hw as <-. rewrite (proj2 (Z.ltb_ge _ _)) by (rewrite zlen_app; change (zlen [txt "SYSLOG_IDENTIFIER="; name; newline]) with 3; lia).
    by rewrite !concat_app.
Qed.

(** C31 What a client sends is what the daemon hands to the journal.  The datagram that
    sd_journal_sendv makes of items with valid names, data with newlines and binary data
    included, is taken apart into one message with exactly these items in their order,
    the name of the program when the client gave no SYSLOG_IDENTIFIER, then the
    _TRANSPORT field and the fields of the daemon.  (How the items are freed after that
    is the subject of native_message_safe.)  At least one of the items must be
    free of newlines (or SYSLOG_IDENTIFIER be among them): otherwise sd_journal_sendv
    writes beyond its array. *)
Theorem sendv_received proc uninit fs fc uc tv name iov :
  iov <> [] -> Forall sendable iov -> (10 ∉ name) -> total (sent name iov) < 2 ^ 29 ->
  (Exists (fun i => 10 ∉ i) iov \/ existsb is_identifier iov = true) ->
  exists d forwarded items m priority pid freed,
    sd_journal_sendv name iov = Ok d
    /\ server_process_native_message proc uninit fs fc uc tv d
      = Ok (forwarded ++ [SERVER_DISPATCH_MESSAGE items m uc tv priority], freed)
    /\ Forall is_forward forwarded
    /\ map iov_base items = sent name iov ++ [txt "_TRANSPORT=journal"] ++ map iov_base (meta_items proc uc pid).
Proof.
  intros Hne Hs Hname Htotal Hex.
  assert (Forall sendable (sent name iov)) as Hsent.
  { unfold sent. apply Forall_app. split; [done|]. case_match; [done|]. constructor; [apply identifier_sendable|done]. }
  destruct (items_loop proc uninit uc tv (sent name iov) Hsent [] native0 0 native0_ok ltac:(lia))
    as (w & st & Hw & Hlen & _ & Hloop & Hst & Hok).
  assert (sd_journal_sendv name iov = Ok (concat w)) as Hd.
  { apply sendv_datagram; try done. intros v Hv. unfold sent in Htotal. rewrite total_app in Htotal.
    destruct (items_loop proc uninit uc tv iov Hs [] native0 0 native0_ok) as (v' & ? & Hv' & _ & Hfit & _);
      [pose proof (total_nonneg (if existsb is_identifier iov then [] else [txt "SYSLOG_IDENTIFIER=" ++ name])); lia|].
    rewrite Hv in Hv'. by injection Hv' as <-. }
  set (n := (S (length (concat w)) - length (sent name iov))%nat).
  specialize (Hloop n). replace (length (sent name iov) + n)%nat with (S (length (concat w))) in Hloop by lia.
  rewrite app_nil_r in Hloop. assert (native_loop proc uninit uc tv n [] st = Ok (st, [])) as Hend by (by destruct n).
  rewrite Hend in Hloop. simpl in Hst. pose proof (no_bound _ _ Hok) as [Hb1 Hb2].
  assert (0 < nt_n st) as Hn.
  { unfold nt_n. rewrite Hst. unfold zlen. rewrite length_map. unfold sent. rewrite length_app. destruct iov; [done|]. simpl. lia. }
  assert (nt_m st <> 0) as Hm.
  { destruct (no_room _ _ Hok) as [[_ E]|[? _]]; [|lia]. unfold nt_n in Hn. rewrite E in Hn. done. }
  destruct (dispatch_ok proc uc tv _ st [literal "_TRANSPORT=journal"] (nt_priority st) Hok Hm (or_intror eq_refl)) as [Hfit _].
  rewrite zlen_app in Hfit. pose proof (zlen_nonneg (meta_items proc uc (nt_object_pid st))).
  exists (concat w), (forwards fs fc uc tv st), ((nt_iovec st ++ [literal "_TRANSPORT=journal"]) ++ meta_items proc uc (nt_object_pid st)),
    (nt_m st), (nt_priority st), (nt_object_pid st). eexists.
  split; [done|]. split; [|split].
  - unfold server_process_native_message. rewrite Hloop. unfold native_finish. rewrite (proj2 (Z.leb_gt _ _)) by done.
    unfold fits. rewrite (proj2 (Z.leb_le (nt_n st + zlen [_]) _)) by (unfold nt_n; lia). simpl negb. cbv iota.
    cbv zeta. rewrite (proj2 (Z.ltb_ge ENTRY_SIZE_MAX _)).
    2:{ unfold nt_n. simpl nt_entry_size. simpl nt_iovec. rewrite zlen_app. fold (nt_n st). unfold zlen. simpl length.
        rewrite u64_small by (unfold is_u64; lia). unfold ENTRY_SIZE_MAX. lia. }
    unfold nt_n. simpl nt_iovec. simpl nt_m. simpl nt_object_pid. simpl nt_priority. fold (meta_items proc uc (nt_object_pid st)).
    rewrite (proj2 (Z.leb_le _ _)) by (rewrite zlen_app; lia). simpl negb. cbv iota. reflexivity.
  - unfold forwards. case_match; [|done]. apply Forall_app. split; [destruct fs|destruct fc]; repeat constructor.
  - rewrite !map_app, Hst, map_map. simpl. rewrite map_id. by rewrite <- app_assoc.
Qed.

Definition sample_proc : Proc :=
  mkProc (fun _ => Some (txt "sh")) (fun _ => None) (fun _ => None) (fun _ => Some 5) (fun _ => None).

(** "MESSAGE=hi" and a field A with the lines "x" and "y". *)
Definition sample_message : list (list Z) := [txt "MESSAGE=hi"; txt "A=x" ++ [10] ++ txt "y"].

Lemma sendv_received_witness :
  exists d forwarded items m priority pid freed,
    sd_journal_sendv (txt "me") sample_message = Ok d
    /\ server_process_native_message sample_proc (replicate 12 7) true true (Some (mkUcred 3 0 0)) None d
      = Ok (forwarded ++ [SERVER_DISPATCH_MESSAGE items m (Some (mkUcred 3 0 0)) None priority], freed)
    /\ Forall is_forward forwarded
    /\ map iov_base items = sent (txt "me") sample_message ++ [txt "_TRANSPORT=journal"]
         ++ map iov_base (meta_items sample_proc (Some (mkUcred 3 0 0)) pid).
Proof.
  apply sendv_received.
  - discriminate.
  - repeat constructor; [exists (txt "MESSAGE"), (txt "hi")|exists (txt "A"), (txt "x" ++ [10] ++ txt "y")]; by split.
  - by apply memchr_None.
  - vm_compute. reflexivity.
  - left. apply Exists_cons_hd. by apply memchr_None.
Defined.

(** sd_journal_sendv allocates its array with [n * 5 + 3] meant but [16 * n * 5 + 3]
    bytes written: a single field with a newline in it overflows the stack. *)
Lemma sendv_overflows : sd_journal_sendv (txt "me") [txt "A=x" ++ [10] ++ txt "y"] = Crash.
Proof. reflexivity. Qed.

(** * Any datagram *)

Definition has_room (c : call) : Prop :=
  match c with SERVER_DISPATCH_MESSAGE items m _ _ _ => zlen items + 3 <= m | _ => True end.

(** The receiver on any datagram, from the loop's lemma. *)
Lemma process_native_ok proc uninit fs fc uc tv buffer : bytes_ok buffer -> zlen buffer < 2 ^ 29 ->
  match server_process_native_message proc uninit fs fc uc tv buffer with
  | Ok (calls, freed) => ~ blank_first buffer /\ Forall (good_call proc uc tv) calls
      /\ freed = (if frees_stack calls then Crash else Ok tt)
  | Crash => blank_first buffer
  | _ => False
  end.
Proof.
  intros Hb Hl. pose proof (native_loop_ok proc uninit uc tv (S (length buffer)) buffer native0 0) as H.
  specialize (H ltac:(lia) native0_ok ltac:(lia) Hb). unfold server_process_native_message.
  destruct (native_loop _ _ _ _ _ _ _) as [[st calls]| | |]; try done; [|by destruct H].
  destruct H as (Hok & Hcalls & Hblank).
  destruct (native_finish_ok proc fs fc uc tv _ st Hok) as (calls' & freed & -> & Hcalls' & Hfreed); [lia|].
  split; [by apply Hblank|]. split.
  { apply Forall_app. split; [|done]. eapply Forall_impl; [exact Hcalls|]. by intros c [? _]. }
  unfold frees_stack. destruct Hfreed as [[-> ->]|[Hne ->]].
  - rewrite app_nil_r. destruct (last calls) as [c|] eqn:El; [|done]. apply last_Some in El as (l & ->).
    apply Forall_app in Hcalls as [_ [Hc He]%List.Forall_inv]. destruct c as [items m ? ? ?| | | |]; try done.
    simpl in He. by destruct (existsb is_transport items).
  - unfold frees_stack. by destruct (exists_last Hne) as (l & c & ->); rewrite app_assoc, !last_snoc.
Qed.

(** C29 On any datagram of up to 512 MB, server_process_native_message comes to an end,
    never writes beyond its array and leaves the room that dispatch_message needs, with
    two faults.  It aborts the daemon exactly when the first line of the datagram that is
    not a control command is empty, as it then passes a null pointer to
    dispatch_message_real.  And when it has made its calls, it frees memory of a stack
    frame (freed is Crash) exactly when the last of them is for a message at the end of
    the datagram with fields of the daemon, such as the credentials of the client. *)
Theorem native_message_safe proc uninit fs fc uc tv buffer :
  bytes_ok buffer -> zlen buffer < 2 ^ 29 ->
  match server_process_native_message proc uninit fs fc uc tv buffer with
  | Ok (calls, freed) => ~ blank_first buffer /\ Forall has_room calls
      /\ freed = (if frees_stack calls then Crash else Ok tt)
  | Crash => blank_first buffer
  | _ => False
  end.
Proof.
  intros Hb Hl. pose proof (process_native_ok proc uninit fs fc uc tv buffer Hb Hl) as H.
  destruct (server_process_native_message _ _ _ _ _ _ _) as [[calls freed]| | |]; try done. destruct H as (H1 & H2 & H3).
  split; [done|]. split; [|done].
  eapply Forall_impl; [exact H2|]. intros [items m ? ? ?| | | |]; simpl; try done. by intros (_ & _ & ? & _).
Qed.

(** Evaluates a run of the receiver in the goal and in the theorem applied to it. *)
#[local] Ltac evaluate_receiver :=
  match goal with H : match ?r with _ => _ end |- _ =>
    let v := eval vm_compute in r in replace r with v in H |- * by (vm_compute; reflexivity) end.

(** An empty line; a comment, a field, an empty line and noise; and a field of a client
    whose credentials are known. *)
Lemma native_message_safe_witness :
  blank_first [10]
  /\ server_process_native_message sample_proc (replicate 12 7) true true None None [10] = Crash
  /\ (exists calls, server_process_native_message sample_proc (replicate 12 7) true true None None (txt "#" ++ [10] ++ txt "A=1" ++ [10; 10; 66])
        = Ok (calls, Ok tt) /\ length calls = 1%nat /\ Forall has_room calls)
  /\ exists calls, server_process_native_message sample_proc (replicate 12 7) true true (Some (mkUcred 3 0 0)) None (txt "A=1" ++ [10])
        = Ok (calls, Crash) /\ frees_stack calls = true.
Proof.
  assert (forall b, forallb (fun c => (0 <=? c) && (c <? 256)) b = true -> bytes_ok b) as Hbytes.
  { intros b Hb. apply Forall_forall. intros c Hc. rewrite forallb_forall in Hb. apply list_elem_of_In, Hb, andb_true_iff in Hc as [? ?].
    unfold is_u8. lia. }
  split; [apply blank_here|]. split; [reflexivity|]. split.
  - pose proof (native_message_safe sample_proc (replicate 12 7) true true None None (txt "#" ++ [10] ++ txt "A=1" ++ [10; 10; 66])
      (Hbytes (txt "#" ++ [10] ++ txt "A=1" ++ [10; 10; 66]) ltac:(vm_compute; reflexivity)) ltac:(vm_compute; reflexivity)) as H.
    evaluate_receiver. destruct H as (_ & H & _). eexists. split; [reflexivity|]. split; [reflexivity|]. exact H.
  - pose proof (native_message_safe sample_proc (replicate 12 7) true true (Some (mkUcred 3 0 0)) None (txt "A=1" ++ [10])
      (Hbytes (txt "A=1" ++ [10]) ltac:(vm_compute; reflexivity)) ltac:(vm_compute; reflexivity)) as H.
    evaluate_receiver. destruct H as (_ & _ & H). eexists. split; [reflexivity|]. revert H. by destruct (frees_stack _).
Defined.

(** The items of a call: first fields of the client, then those of the daemon. *)
Definition trusted_call (proc : Proc) (uc : option ucred) (c : call) : Prop :=
  match c with
  | SERVER_DISPATCH_MESSAGE items _ uc' _ _ =>
      uc' = uc /\ exists users transport pid,
        items = users ++ transport ++ meta_items proc uc pid
        /\ (transport = [] \/ transport = [literal "_TRANSPORT=journal"])
        /\ Forall (fun i => exists name data, iov_base i = name ++ 61 :: data
             /\ Forall (fun c => field_letter c = true) name /\ 0 < zlen name <= 64 /\ nth 0 name 0 <> 95) users
  | _ => True
  end.

Lemma user_field_name i : user_field i -> exists name data, iov_base i = name ++ 61 :: data
  /\ Forall (fun c => field_letter c = true) name /\ 0 < zlen name <= 64 /\ nth 0 name 0 <> 95.
Proof.
  intros (_ & name & data & E & Hv). exists name, data. split; [done|]. unfold valid_user_field in Hv.
  destruct (Z.leb_spec (zlen name) 0); [done|]. destruct (Z.ltb_spec 64 (zlen name)); [done|].
  destruct (Z.eqb_spec (nth 0 name 0) 95); [done|]. simpl in Hv. case_match; [done|].
  split; [|done]. apply Forall_forall. rewrite forallb_forall in Hv. intros x ?%list_elem_of_In. by apply Hv.
Qed.

(** C30 Trusted fields cannot be forged: whatever a client sends, every message that
    reaches the journal consists of items NAME=data of the client whose names are 1 to
    64 letters A-Z, digits and underscores and do not start with an underscore, followed
    by the fields that the daemon made from the credentials of the client. *)
Theorem native_fields_are_trusted proc uninit fs fc uc tv buffer calls freed :
  bytes_ok buffer -> zlen buffer < 2 ^ 29 ->
  server_process_native_message proc uninit fs fc uc tv buffer = Ok (calls, freed) ->
  Forall (trusted_call proc uc) calls.
Proof.
  intros Hb Hl Hrun. pose proof (process_native_ok proc uninit fs fc uc tv buffer Hb Hl) as H. rewrite Hrun in H.
  destruct H as (_ & H & _). eapply Forall_impl; [exact H|]. intros [items m ? ? ?| | | |]; simpl; try done.
  intros (-> & _ & _ & users & transport & pid & -> & Hu & Ht). split; [done|]. exists users, transport, pid.
  split; [done|]. split; [done|]. eapply Forall_impl; [exact Hu|]. apply user_field_name.
Qed.

(** A client that tries to set _UID. *)
Definition forged : list Z := txt "_UID=0" ++ [10] ++ txt "A=1" ++ [10].

Lemma native_fields_are_trusted_witness :
  exists calls, server_process_native_message sample_proc (replicate 12 7) false false None None forged = Ok (calls, Ok tt)
    /\ length calls = 1%nat /\ Forall (trusted_call sample_proc None) calls.
Proof.
  eexists. split; [reflexivity|]. split; [reflexivity|].
  apply (native_fields_are_trusted sample_proc (replicate 12 7) false false None None forged _ (Ok tt)).
  - unfold bytes_ok, is_u8, forged. simpl. repeat constructor; lia.
  - reflexivity.
  - reflexivity.
Defined.
