(* ===== verification/Syslog.v ===== *)
(** src/core/journald-syslog.c: messages of syslog(3), and forwarding to a syslog
    daemon. *)
From S2P Require Import Prelude CString Split Escape JournalDef Daemon.

Definition WHITESPACE : list Z := txt " " ++ [9; 10; 13].

(** strstrip of shared/util.c *)
Fixpoint drop_trailing (s : list Z) : list Z :=
  match s with
  | [] => []
  | c :: s' => match drop_trailing s' with [] => if is_in WHITESPACE c then [] else [c] | t => c :: t end
  end.

Definition strstrip (s : list Z) : list Z := drop_trailing (drop (strspn s WHITESPACE) s).

Definition syslog_fixup_facility (priority : Z) : Z :=
  if Z.land priority LOG_FACMASK =? 0 then Z.lor (Z.land priority LOG_PRIMASK) LOG_USER else priority.

(** [p]: the memory from the string on, its terminator and what is behind included.
    The pointer's and the priority's new values. *)
Definition syslog_parse_priority (p : list Z) (priority : Z) (with_facility : bool) : list Z * Z :=
  let at_ i := nth i p 0 in
  let parsed a b c (k : nat) :=
    if (a <? 0) || (b <? 0) || (c <? 0) || (negb with_facility && (negb (a =? 0) || negb (b =? 0) || (7 <? c)))
    then (p, priority)
    else (drop k p, if with_facility then a * 100 + b * 10 + c else Z.lor (Z.land priority LOG_FACMASK) c) in
  if negb (at_ 0%nat =? 60) then (p, priority) else
  if negb (is_in (cstring p) 62) then (p, priority) else
  if at_ 2%nat =? 62 then parsed 0 0 (undecchar (at_ 1%nat)) 3%nat else
  if at_ 3%nat =? 62 then parsed 0 (undecchar (at_ 1%nat)) (undecchar (at_ 2%nat)) 4%nat else
  if at_ 4%nat =? 62 then parsed (undecchar (at_ 1%nat)) (undecchar (at_ 2%nat)) (undecchar (at_ 3%nat)) 5%nat else
  (p, priority).

Inductive date_part := LETTER | SPACE | NUMBER | SPACE_OR_NUMBER | COLON.

Definition sequence : list date_part :=
  [LETTER; LETTER; LETTER; SPACE; SPACE_OR_NUMBER; NUMBER; SPACE; SPACE_OR_NUMBER; NUMBER; COLON;
   SPACE_OR_NUMBER; NUMBER; COLON; SPACE_OR_NUMBER; NUMBER; SPACE].

(** Whether a character may stand there; the terminator may not. *)
Definition date_char (d : date_part) (c : Z) : bool :=
  if c =? 0 then false else
  match d with
  | SPACE => c =? 32
  | SPACE_OR_NUMBER => (c =? 32) || is_digit c
  | NUMBER => is_digit c
  | LETTER => ((65 <=? c) && (c <=? 90)) || ((97 <=? c) && (c <=? 122))
  | COLON => c =? 58
  end.

Fixpoint matches_date (ds : list date_part) (p : list Z) : option (list Z) :=
  match ds with
  | [] => Some p
  | d :: ds => if date_char d (chr p) then matches_date ds (tl p) else None
  end.

Definition syslog_skip_date (buf : list Z) : list Z := default buf (matches_date sequence buf).

(** The search for '[' from [k] downwards. *)
Fixpoint find_bracket (p : list Z) (k : nat) : option nat :=
  if nth k p 0 =? 91 then Some k else match k with O => None | S k => find_bracket p k end.

(** [buf]: the string at the pointer; [before]: the byte in front of it.  The pointer
    afterwards, the identifier and the pid that were set, and the number returned.
    [None]: a word of just ':' behind a ']', from which the search runs out of the
    memory. *)
Definition syslog_parse_identifier (buf : list Z) (before : Z)
  : option (list Z * option (list Z) * option (list Z) * nat) :=
  let skipped := strspn buf WHITESPACE in
  let p := drop skipped buf in
  let l := strcspn p WHITESPACE in
  if Nat.eqb l 0 || negb (nth (l - 1) p 0 =? 58) then Some (buf, None, None, O) else
  let e := l in
  let l := (l - 1)%nat in
  let last := match l with O => match skipped with O => before | _ => nth (skipped - 1) buf 0 end | S k => nth k p 0 end in
  let finish l pid :=
    let e := (e + strspn (drop e p) WHITESPACE)%nat in Some (drop e p, Some (take l p), pid, e) in
  if last =? 93 then
    match l with
    | O => None
    | S k =>
        match find_bracket p k with
        | Some k => finish k (Some (take (l - k - 2) (drop (k + 1) p)))
        | None => finish l None
        end
    end
  else finish l None.

Section Process.
Context (proc : Proc) (forward_to_syslog forward_to_console : bool).
Context (uc : option ucred) (tv : option timeval).

(** [buf]: the memory of the message, behind its terminator too. *)
Definition server_process_syslog_message (buf : list Z) (before : Z) : outcome (list call) :=
  let orig := cstring buf in
  let '(buf', priority) := syslog_parse_priority buf (Z.lor LOG_USER LOG_INFO) true in
  let raw := if forward_to_syslog then [FORWARD_SYSLOG_RAW priority orig] else [] in
  let dated := syslog_skip_date (cstring buf') in
  let before := if Nat.eqb (length orig - length dated) 0 then before else nth (length orig - length dated - 1) orig 0 in
  match syslog_parse_identifier dated before with
  | None => Crash
  | Some (text, identifier, pid, _) =>
      let console := if forward_to_console then [SERVER_FORWARD_CONSOLE priority identifier text uc] else [] in
      let items :=
        [literal "_TRANSPORT=syslog"; field_in HEAP "PRIORITY=" (format_i (Z.land priority LOG_PRIMASK))]
        ++ (if Z.land priority LOG_FACMASK =? 0 then [] else [field_in HEAP "SYSLOG_FACILITY=" (format_i (LOG_FAC priority))])
        ++ field_of_option HEAP "SYSLOG_IDENTIFIER=" identifier
        ++ field_of_option HEAP "SYSLOG_PID=" pid
        ++ [field_in HEAP "MESSAGE=" text]
        ++ dispatch_message_real proc uc in
      Ok (raw ++ console ++ [SERVER_DISPATCH_MESSAGE items (N_IOVEC_META_FIELDS + 6) uc tv priority])
  end.

End Process.

(** * Forwarding *)

(** snprintf into a buffer of [size] bytes *)
Definition snprintf (size : nat) (s : list Z) : list Z := take (size - 1) s.

(** The datagram forwarded to the syslog daemon, if any.  [time]: what localtime and
    strftime with "%h %e %T " made of the time, [None] when they fail. *)
Definition server_forward_syslog (proc : Proc) (max_level_syslog : Z) (time : option (list Z))
    (priority : Z) (identifier : option (list Z)) (message : list Z) (uc : option ucred) : outcome (option (list Z)) :=
  if (priority <? 0) || (999 <? priority) then Crash else
  if max_level_syslog <? LOG_PRI priority then Ok None else
  match time with
  | None => Ok None
  | Some time =>
      let header := snprintf 6 (txt "<" ++ format_i priority ++ txt ">") in
      let ident :=
        match uc with
        | Some c =>
            let identifier := match identifier with Some i => Some i | None => get_process_comm proc (uc_pid c) end in
            default [] identifier ++ snprintf 16 (txt "[" ++ format_u (uc_pid c) ++ txt "]: ")
        | None => match identifier with Some i => i ++ txt ": " | None => [] end
        end in
      Ok (Some (header ++ time ++ ident ++ message))
  end.

Definition forward_syslog_raw (max_level_syslog priority : Z) (buffer : list Z) : option (list Z) :=
  if max_level_syslog <? LOG_PRI priority then None else Some buffer.

(** server_forward_console of src/core/journald-console.c: the text written to the
    terminal.  [clock]: the monotonic time in seconds and nanoseconds, if it can be
    read; the format is "[%5ld.%06ld] ". *)
Definition pad (n : nat) (c : Z) (s : list Z) : list Z := replicate (n - length s) c ++ s.

Definition server_forward_console (proc : Proc) (max_level_console : Z) (clock : option (Z * Z))
    (priority : Z) (identifier : option (list Z)) (message : list Z) (uc : option ucred) : option (list Z) :=
  if max_level_console <? LOG_PRI priority then None else
  let header := match clock with
    | Some (sec, nsec) => txt "[" ++ pad 5 32 (format_i sec) ++ txt "." ++ pad 6 48 (format_i (nsec / 1000)) ++ txt "] "
    | None => [] end in
  let ident :=
    match uc with
    | Some c =>
        let identifier := match identifier with Some i => Some i | None => get_process_comm proc (uc_pid c) end in
        default [] identifier ++ snprintf 16 (txt "[" ++ format_u (uc_pid c) ++ txt "]: ")
    | None => match identifier with Some i => i ++ txt ": " | None => [] end
    end in
  Some (header ++ ident ++ message ++ [10]).
