(* ===== verification/SyslogSpec.v ===== *)
(** Messages of syslog(3): the parser of the priority stays within the string, and the
    daemon understands what it forwards. *)
From S2P Require Import Prelude CString Split Escape JournalDef Daemon Numbers Syslog.

(** * The priority *)

Lemma undecchar_range c : undecchar c = -22 \/ 0 <= undecchar c <= 9.
Proof. unfold undecchar, is_digit. destruct ((48 <=? c) && (c <=? 57)) eqn:E; [right; bprop; lia|by left]. Qed.

Lemma cstring_terminated s t : Forall (fun c => c <> 0) s -> cstring (s ++ 0 :: t) = s.
Proof. induction 1 as [|c s Hc _ IH]; [done|]. simpl. rewrite (proj2 (Z.eqb_neq _ _)) by done. by f_equal. Qed.

(** What the branches of syslog_parse_priority do with three digits. *)
Definition priority_of (a b c priority : Z) (with_facility : bool) : option Z :=
  if (a <? 0) || (b <? 0) || (c <? 0) || (negb with_facility && (negb (a =? 0) || negb (b =? 0) || (7 <? c))) then None
  else Some (if with_facility then a * 100 + b * 10 + c else Z.lor (Z.land priority LOG_FACMASK) c).

Definition within (s : list Z) (priority : Z) (wf : bool) : Prop :=
  exists k p', (k <= length s)%nat
    /\ (p' = priority \/ exists a b c, priority_of a b c priority wf = Some p' /\ a <= 9 /\ b <= 9 /\ c <= 9)
    /\ forall stale, syslog_parse_priority (s ++ 0 :: stale) priority wf = (drop k s ++ 0 :: stale, p').

Lemma drop_within {A} k (s t : list A) : (k <= length s)%nat -> drop k (s ++ t) = drop k s ++ t.
Proof. intros H. by apply drop_app_le. Qed.

Lemma parsed_within s priority wf a b c k : (k <= length s)%nat -> a <= 9 -> b <= 9 -> c <= 9 ->
  (forall stale, syslog_parse_priority (s ++ 0 :: stale) priority wf
    = match priority_of a b c priority wf with Some p => (drop k (s ++ 0 :: stale), p) | None => (s ++ 0 :: stale, priority) end) ->
  within s priority wf.
Proof.
  intros Hk Ha Hb Hc H. destruct (priority_of a b c priority wf) as [p|] eqn:E.
  - exists k, p. split; [done|]. split; [right; by exists a, b, c|]. intros stale. by rewrite H, drop_within.
  - exists 0%nat, priority. split; [lia|]. split; [by left|]. intros stale. by rewrite H, drop_0.
Qed.

Lemma priority_of_negative a b c priority wf : a < 0 \/ b < 0 \/ c < 0 -> priority_of a b c priority wf = None.
Proof. intros H. unfold priority_of. replace ((a <? 0) || (b <? 0) || (c <? 0)) with true; [done|]. symmetry. zdecide. Qed.

Lemma is_in_elem s c : is_in s c = true <-> c ∈ s.
Proof.
  unfold is_in. rewrite existsb_exists. split.
  - intros (x & Hx & E%Z.eqb_eq). subst x. by apply list_elem_of_In.
  - intros H. exists c. split; [by apply list_elem_of_In|apply Z.eqb_refl].
Qed.

Lemma undecchar_le c : undecchar c <= 9.
Proof. pose proof (undecchar_range c). lia. Qed.

Definition three (p : list Z) (priority : Z) (wf : bool) (a b c : Z) (k : nat) : list Z * Z :=
  match priority_of a b c priority wf with Some q => (drop k p, q) | None => (p, priority) end.

Lemma parse_priority_eq p priority wf : nth 0 p 0 = 60 -> is_in (cstring p) 62 = true ->
  let d i := undecchar (nth i p 0) in
  syslog_parse_priority p priority wf
  = (if nth 2 p 0 =? 62 then three p priority wf 0 0 (d 1%nat) 3
     else if nth 3 p 0 =? 62 then three p priority wf 0 (d 1%nat) (d 2%nat) 4
     else if nth 4 p 0 =? 62 then three p priority wf (d 1%nat) (d 2%nat) (d 3%nat) 5
     else (p, priority)).
Proof. intros H0 Hin d. unfold syslog_parse_priority, three, priority_of, d. rewrite H0, Hin. simpl negb. cbv iota.
  repeat (case_match; try done). Qed.

Lemma parse_priority_within s priority wf : Forall (fun c => c <> 0) s -> within s priority wf.
Proof.
  intros Hs.
  assert (forall stale, cstring (s ++ 0 :: stale) = s) as Hc by (intros; by apply cstring_terminated).
  assert ((forall stale, syslog_parse_priority (s ++ 0 :: stale) priority wf = (s ++ 0 :: stale, priority)) -> within s priority wf) as Hnone.
  { intros H. exists 0%nat, priority. split; [lia|]. split; [by left|]. intros stale. by rewrite H, drop_0. }
  destruct (nth 0 (s ++ [0]) 0 =? 60) eqn:E0.
  2:{ apply Hnone. intros stale. unfold syslog_parse_priority. replace (nth 0 (s ++ 0 :: stale) 0) with (nth 0 (s ++ [0]) 0) by (by destruct s).
      by rewrite E0. }
  destruct (is_in s 62) eqn:Ein; [|apply Hnone; intros stale; unfold syslog_parse_priority; rewrite Hc, Ein; by destruct (negb _)].
  destruct s as [|x s]; [done|]. simpl in E0. apply Z.eqb_eq in E0 as ->.
  assert (forall stale, syslog_parse_priority ((60 :: s) ++ 0 :: stale) priority wf = _) as Heq
    by (intros stale; apply parse_priority_eq; [done|by rewrite Hc]).
  assert (forall p b c k, three p priority wf (undecchar 62) b c k = (p, priority)) as H62 by (intros; unfold three; by rewrite priority_of_negative by (left; done)).
  assert (forall p a b k, three p priority wf a b (undecchar 62) k = (p, priority)) as H62c by (intros; unfold three; by rewrite priority_of_negative by (right; right; done)).
  assert (forall p a c k, three p priority wf a (undecchar 62) c k = (p, priority)) as H62b by (intros; unfold three; by rewrite priority_of_negative by (right; left; done)).
  assert (forall k a b c, (k <= length (60%Z :: s))%nat -> a <= 9 -> b <= 9 -> c <= 9 ->
    (forall stale, syslog_parse_priority ((60 :: s) ++ 0 :: stale) priority wf = three ((60 :: s) ++ 0 :: stale) priority wf a b c k) ->
    within (60 :: s) priority wf) as Hthree by (intros k a b c Hk ? ? ? H; by apply (parsed_within _ _ _ a b c k)).
  pose proof undecchar_le as Hle.
  destruct s as [|x [|y [|z [|w s]]]]; simpl in Heq.
  - done.
  - assert (x = 62) as -> by (apply is_in_elem in Ein; rewrite !elem_of_cons in Ein; pose proof (not_elem_of_nil 62); intuition lia).
    apply Hnone. intros stale. simpl app. rewrite Heq. case_match; [apply H62b|]. case_match; [apply H62|done].
  - destruct (Z.eqb_spec y 62) as [->|Hy]; [apply (Hthree 3%nat 0 0 (undecchar x)); [simpl; lia|lia|lia|apply Hle|exact Heq]|].
    assert (x = 62) as -> by (apply is_in_elem in Ein; rewrite !elem_of_cons in Ein; pose proof (not_elem_of_nil 62); intuition lia).
    apply Hnone. intros stale. simpl app. rewrite Heq. case_match; [apply H62|done].
  - destruct (Z.eqb_spec y 62) as [->|Hy]; [apply (Hthree 3%nat 0 0 (undecchar x)); [simpl; lia|lia|lia|apply Hle|exact Heq]|].
    destruct (Z.eqb_spec z 62) as [->|Hz]; [apply (Hthree 4%nat 0 (undecchar x) (undecchar y)); [simpl; lia|lia|apply Hle|apply Hle|exact Heq]|].
    by apply Hnone.
  - destruct (Z.eqb_spec y 62) as [->|Hy]; [apply (Hthree 3%nat 0 0 (undecchar x)); [simpl; lia|lia|lia|apply Hle|exact Heq]|].
    destruct (Z.eqb_spec z 62) as [->|Hz]; [apply (Hthree 4%nat 0 (undecchar x) (undecchar y)); [simpl; lia|lia|apply Hle|apply Hle|exact Heq]|].
    destruct (Z.eqb_spec w 62) as [->|Hw]; [|by apply Hnone].
    apply (Hthree 5%nat (undecchar x) (undecchar y) (undecchar z)); [simpl; lia|apply Hle|apply Hle|apply Hle|exact Heq].
Qed.

(** syslog_parse_priority does not look behind the string in effect, although it reads
    up to three bytes there: whatever those are, it consumes the same part of the string
    and yields the same priority, the old one or, with a facility, 0 to 999, without one
    the old facility with a new level. *)
Theorem syslog_parse_priority_within (s : list Z) (priority : Z) (with_facility : bool) :
  Forall (fun c => c <> 0) s ->
  exists k p', (k <= length s)%nat
    /\ (p' = priority \/ if with_facility then 0 <= p' <= 999
                         else exists c, 0 <= c <= 7 /\ p' = Z.lor (Z.land priority LOG_FACMASK) c)
    /\ forall stale, syslog_parse_priority (s ++ 0 :: stale) priority with_facility = (drop k s ++ 0 :: stale, p').
Proof.
  intros Hs. destruct (parse_priority_within s priority with_facility Hs) as (k & p' & Hk & Hp & Hall).
  exists k, p'. split; [done|]. split; [|done]. destruct Hp as [->|(a & b & c & E & Ha & Hb & Hc)]; [by left|right].
  unfold priority_of in E. destruct ((a <? 0) || (b <? 0) || (c <? 0)) eqn:E1; [done|].
  rewrite !orb_false_iff in E1. destruct E1 as [[? ?] ?]. destruct with_facility; simpl in E.
  - injection E as <-. bprop. lia.
  - destruct (negb (a =? 0) || negb (b =? 0) || (7 <? c)) eqn:E2; [done|]. injection E as <-.
    rewrite !orb_false_iff in E2. destruct E2 as [_ ?]. exists c. bprop. split; [lia|done].
Qed.

(** "<>" and what may be left behind it. *)
Lemma syslog_parse_priority_witness :
  syslog_parse_priority [60; 62; 0; 62; 62] 13 true = ([60; 62; 0; 62; 62], 13)
  /\ exists k p', (k <= 5)%nat
    /\ (p' = 6 \/ 0 <= p' <= 999)
    /\ forall stale, syslog_parse_priority (txt "<34>x" ++ 0 :: stale) 6 true = (drop k (txt "<34>x") ++ 0 :: stale, p').
Proof.
  split; [reflexivity|]. apply (syslog_parse_priority_within (txt "<34>x") 6 true). simpl. repeat constructor; discriminate.
Defined.

(** * Forwarding and receiving *)

Lemma decimal_small p : 0 <= p <= 999 ->
  decimal 20 p = if p <? 10 then [48 + p] else if p <? 100 then [48 + p / 10; 48 + p mod 10]
                 else [48 + p / 100; 48 + p / 10 mod 10; 48 + p mod 10].
Proof.
  intros Hp. cbn [decimal]. destruct (Z.ltb_spec p 10); [done|].
  replace (p / 10 <? 10) with (p <? 100) by (zcases; mlia). destruct (Z.ltb_spec p 100); [done|].
  rewrite (proj2 (Z.ltb_lt (p / 10 / 10) 10)) by mlia. rewrite Z.div_div by lia. done.
Qed.

Lemma undecchar_digit d : 0 <= d <= 9 -> undecchar (48 + d) = d.
Proof. intros H. unfold undecchar, is_digit. replace ((48 <=? 48 + d) && (48 + d <=? 57)) with true by (symmetry; zdecide). lia. Qed.

Lemma parse_priority_header p rest priority : 0 <= p <= 999 -> Forall (fun c => c <> 0) rest -> forall stale,
  syslog_parse_priority ((txt "<" ++ format_i p ++ txt ">") ++ rest ++ 0 :: stale) priority true = (rest ++ 0 :: stale, p).
Proof.
  intros Hp Hrest stale. unfold format_i. rewrite (proj2 (Z.ltb_ge _ _)), decimal_small by lia.
  assert (forall ds, Forall (fun c => 48 <= c <= 57) ds -> is_in (cstring ((txt "<" ++ ds ++ txt ">") ++ rest ++ 0 :: stale)) 62 = true) as Hin.
  { intros ds Hds. rewrite app_assoc, cstring_terminated.
    - apply is_in_elem. rewrite !elem_of_app. left. right. right. constructor.
    - repeat (apply Forall_app; split); [by repeat constructor|eapply Forall_impl; [exact Hds|simpl; lia]|by repeat constructor|done]. }
  assert (forall a b c k, 0 <= a <= 9 -> 0 <= b <= 9 -> 0 <= c <= 9 -> forall q,
    three q priority true a b c k = (drop k q, a * 100 + b * 10 + c)) as H3.
  { intros a b c k Ha Hb Hc q. unfold three, priority_of. replace ((a <? 0) || (b <? 0) || (c <? 0)) with false; [done|].
    symmetry. rewrite !orb_false_iff. zdecide. }
  destruct (Z.ltb_spec p 10); [|destruct (Z.ltb_spec p 100)].
  - rewrite parse_priority_eq by (done || apply Hin; repeat constructor; lia). cbn [app nth txt map]. simpl nth.
    rewrite undecchar_digit, H3 by lia. f_equal.
  - rewrite parse_priority_eq by (done || apply Hin; repeat constructor; mlia). simpl nth.
    assert ((48 + p mod 10 =? 62) = false) as -> by (apply Z.eqb_neq; mlia). rewrite !undecchar_digit, H3 by mlia. f_equal. mlia.
  - rewrite parse_priority_eq by (done || apply Hin; repeat constructor; mlia). simpl nth.
    assert ((48 + p / 10 mod 10 =? 62) = false) as -> by (apply Z.eqb_neq; mlia).
    assert ((48 + p mod 10 =? 62) = false) as -> by (apply Z.eqb_neq; mlia). rewrite !undecchar_digit, H3 by mlia. f_equal. mlia.
Qed.

Lemma matches_date_app ds t rest : matches_date ds t = Some [] -> matches_date ds (t ++ rest) = Some rest.
Proof.
  revert t. induction ds as [|d ds IH]; intros t; simpl; [by intros [= ->]|].
  destruct t as [|c t]; [unfold date_char; by rewrite Z.eqb_refl|]. simpl. destruct (date_char d c); [|done]. apply IH.
Qed.

Lemma matches_date_nonzero ds t : matches_date ds t = Some [] -> Forall (fun c => c <> 0) t.
Proof.
  revert t. induction ds as [|d ds IH]; intros t; simpl; [by intros [= ->]|].
  destruct t as [|c t]; [constructor|]. simpl. destruct (date_char d c) eqn:E; [|done]. intros H. constructor; [|by apply IH].
  intros ->. unfold date_char in E. by rewrite Z.eqb_refl in E.
Qed.

Definition not_space (c : Z) : Prop := c <> 0 /\ is_in WHITESPACE c = false.

Lemma strspn_not_space s : not_space (chr s) -> strspn s WHITESPACE = 0%nat.
Proof. destruct s as [|c s]; [by intros [? _]|]. intros [_ H]. simpl chr in H. cbn [strspn]. by rewrite H. Qed.

Lemma strcspn_word w c s : Forall not_space w -> is_in WHITESPACE c = true -> strcspn (w ++ c :: s) WHITESPACE = length w.
Proof.
  intros Hw Hc. induction Hw as [|x w [_ Hx] _ IH]; cbn [app strcspn]; [by rewrite Hc|]. rewrite Hx. simpl. by f_equal.
Qed.

Lemma find_bracket_ok i d rest k : Forall (fun c => c <> 91) d -> (k <= length d)%nat ->
  find_bracket (i ++ 91 :: d ++ rest) (length i + k) = Some (length i).
Proof.
  intros Hd. induction k as [|k IH]; intros Hk.
  - rewrite Nat.add_0_r. assert (nth (length i) (i ++ 91 :: d ++ rest) 0 = 91) as E by (by rewrite nth_middle).
    destruct (length i) eqn:El; simpl; by rewrite E.
  - rewrite Nat.add_succ_r. cbn [find_bracket].
    assert (nth (S (length i + k)) (i ++ 91 :: d ++ rest) 0 = nth k d 0) as ->.
    { replace (S (length i + k)) with (length i + S k)%nat by lia. rewrite app_nth2_plus. simpl. by rewrite app_nth1 by lia. }
    destruct (lookup_lt_is_Some_2 d k ltac:(lia)) as [x Hx]. rewrite Forall_lookup in Hd. specialize (Hd k x Hx).
    rewrite (nth_lookup_Some d k 0 x Hx). rewrite (proj2 (Z.eqb_neq x 91)) by done. apply IH. lia.
Qed.

(** "ident[pid]: message" *)
Lemma parse_identifier_ok i d m before : Forall not_space i -> Forall (fun c => is_digit c = true) d -> not_space (chr m) ->
  syslog_parse_identifier (i ++ 91 :: d ++ txt "]: " ++ m) before = Some (m, Some i, Some d, (length i + length d + 4)%nat).
Proof.
  intros Hi Hd Hm. set (w := i ++ 91 :: d ++ [93; 58]).
  assert (i ++ 91 :: d ++ txt "]: " ++ m = w ++ 32 :: m) as Ew by (unfold w; rewrite <- !app_assoc; simpl; by rewrite <- !app_assoc).
  assert (Forall not_space w) as Hw.
  { unfold w. apply Forall_app. split; [done|]. constructor; [by split|]. apply Forall_app. split; [|by repeat constructor].
    eapply Forall_impl; [exact Hd|]. intros c Hc. unfold is_digit in Hc. bprop. split; [lia|].
    destruct (is_in WHITESPACE c) eqn:E; [|done]. apply is_in_elem in E. unfold WHITESPACE in E. change (txt " ") with [32] in E. rewrite elem_of_app, !elem_of_cons in E. pose proof (not_elem_of_nil c).
    intuition lia. }
  assert (length w = (length i + length d + 3)%nat) as Lw by (unfold w; rewrite length_app, length_cons, length_app; simpl; lia).
  unfold syslog_parse_identifier. rewrite strspn_not_space.
  2:{ rewrite Ew. destruct w as [|c w'] eqn:E; [simpl in Lw; lia|]. simpl. by apply Forall_cons in Hw as [? _]. }
  rewrite drop_0, Ew, (strcspn_word w 32 m) by done. rewrite Lw.
  replace (length i + length d + 3 =? 0)%nat with false by (symmetry; apply Nat.eqb_neq; lia).
  assert (forall k x, nth k (91 :: d ++ [93; 58]) 0 = x -> (k < length d + 3)%nat -> nth (length i + k) (w ++ 32 :: m) 0 = x) as Hnth.
  { intros k x Hk Hl. rewrite app_nth1 by lia. unfold w. by rewrite app_nth2_plus. }
  assert (nth (length i + length d + 3 - 1) (w ++ 32 :: m) 0 = 58) as ->.
  { replace (length i + length d + 3 - 1)%nat with (length i + S (length d + 1))%nat by lia.
    apply Hnth; [|lia]. cbn [nth]. by rewrite app_nth2_plus. }
  simpl orb. cbv iota zeta. replace (length i + length d + 3 - 1)%nat with (S (length i + S (length d))) by lia. cbv iota beta.
  rewrite (Hnth (S (length d)) 93).
  2:{ cbn [nth]. rewrite <- (Nat.add_0_r (length d)). by rewrite app_nth2_plus. } 2:{ lia. }
  simpl Z.eqb. cbv iota. rewrite <- Ew.
  assert (find_bracket (i ++ 91 :: d ++ txt "]: " ++ m) (length i + S (length d)) = Some (length i)) as ->.
  { replace (d ++ txt "]: " ++ m) with ((d ++ [93]) ++ txt ": " ++ m) by (by rewrite <- app_assoc).
    apply find_bracket_ok; [|rewrite length_app; simpl; lia]. apply Forall_app. split; [|by repeat constructor].
    eapply Forall_impl; [exact Hd|]. by intros c Hc ->. }
  assert (drop (length i + length d + 3) (i ++ 91 :: d ++ txt "]: " ++ m) = 32 :: m) as E1 by (rewrite Ew, <- Lw; by rewrite drop_app_length).
  rewrite E1. cbn [strspn]. change (is_in WHITESPACE 32) with true. cbv iota. rewrite strspn_not_space by done.
  rewrite <- drop_drop, E1. change (drop 1 (32 :: m)) with m. rewrite take_app_length, drop_app_add.
  replace (S (length i + S (length d)) - length i - 2)%nat with (length d) by lia.
  match goal with |- context [drop 1 (91 :: ?t)] => change (drop 1 (91 :: t)) with t end. rewrite take_app_length.
  do 2 f_equal. lia.
Qed.

Lemma drop_trailing_last s c : is_in WHITESPACE c = false -> drop_trailing (s ++ [c]) = s ++ [c].
Proof.
  intros Hc. induction s as [|x s IH]; [simpl app; cbn [drop_trailing]; by rewrite Hc|]. simpl app. cbn [drop_trailing]. rewrite IH.
  by destruct s.
Qed.

(** A message that strstrip leaves alone. *)
Record plain_message (m : list Z) : Prop := {
  pm_first : not_space (chr m);
  pm_last : exists s c, m = s ++ [c] /\ is_in WHITESPACE c = false;
  pm_string : Forall (fun c => c <> 0) m;
}.

Lemma decimal_digits n v : 0 <= v < 10 ^ Z.of_nat n -> Forall (fun c => is_digit c = true) (decimal n v).
Proof.
  intros Hv. destruct (decimal_ok n v Hv) as (H & _). apply Forall_forall. rewrite forallb_forall in H.
  intros x ?%list_elem_of_In. by apply H.
Qed.

Lemma decimal_length n v : 0 <= v < 10 ^ Z.of_nat n -> (0 < n <= 20)%nat -> (length (decimal 20 v) <= n)%nat.
Proof.
  intros Hv Hn.
  assert (forall k j, (0 < j)%nat -> (j <= k)%nat -> forall v, 0 <= v < 10 ^ Z.of_nat j -> (length (decimal k v) <= j)%nat) as H.
  { clear. induction k as [|k IH]; intros j Hj0 Hj v Hv; simpl; [lia|]. destruct (Z.ltb_spec v 10); [simpl; lia|].
    rewrite length_app. simpl. destruct j as [|j]; [lia|]. rewrite Nat2Z.inj_succ, Z.pow_succ_r in Hv by lia.
    destruct j as [|j]; [simpl in Hv; lia|]. assert (0 <= v / 10 < 10 ^ Z.of_nat (S j)) as Hv' by (split; [apply Z.div_pos; lia|apply Z.div_lt_upper_bound; lia]).
    specialize (IH (S j) ltac:(lia) ltac:(lia) (v / 10) Hv'). lia. }
  apply H; lia || done.
Qed.

(** The items of a syslog message, but for those of the daemon. *)
Definition syslog_items (priority : Z) (identifier pid message : list Z) : list (list Z) :=
  [txt "_TRANSPORT=syslog"; txt "PRIORITY=" ++ format_i (Z.land priority LOG_PRIMASK)]
  ++ (if Z.land priority LOG_FACMASK =? 0 then [] else [txt "SYSLOG_FACILITY=" ++ format_i (LOG_FAC priority)])
  ++ [txt "SYSLOG_IDENTIFIER=" ++ identifier; txt "SYSLOG_PID=" ++ pid; txt "MESSAGE=" ++ message].

(** The text forwarded for a process. *)
Definition forwarded (priority : Z) (time i pid m : list Z) : list Z :=
  (txt "<" ++ format_i priority ++ txt ">") ++ time ++ i ++ 91 :: pid ++ txt "]: " ++ m.

Lemma forward_text proc ms time priority identifier m c : 0 <= priority <= 999 -> LOG_PRI priority <= ms -> is_u32 (uc_pid c) ->
  server_forward_syslog proc ms (Some time) priority identifier m (Some c)
  = Ok (Some (forwarded priority time (default [] (match identifier with Some i => Some i | None => get_process_comm proc (uc_pid c) end))
      (format_u (uc_pid c)) m)).
Proof.
  intros Hp Hms Hpid. unfold server_forward_syslog.
  replace ((priority <? 0) || (999 <? priority)) with false by (symmetry; rewrite orb_false_iff; zdecide).
  rewrite (proj2 (Z.ltb_ge _ _)) by done.
  assert (snprintf 6 (txt "<" ++ format_i priority ++ txt ">") = txt "<" ++ format_i priority ++ txt ">") as ->.
  { unfold snprintf, format_i. rewrite (proj2 (Z.ltb_ge _ _)), decimal_small by lia. by zcases. }
  assert (snprintf 16 (txt "[" ++ format_u (uc_pid c) ++ txt "]: ") = txt "[" ++ format_u (uc_pid c) ++ txt "]: ") as ->.
  { unfold snprintf. apply take_ge. rewrite !length_app. unfold is_u32 in Hpid.
    pose proof (decimal_length 10 (uc_pid c)) as H. change (10 ^ Z.of_nat 10) with 10000000000 in H.
    specialize (H ltac:(lia) ltac:(lia)).
    unfold format_u. change (16 - 1)%nat with 15%nat. change (length (txt "[")) with 1%nat. change (length (txt "]: ")) with 3%nat. lia. }
  unfold forwarded. do 3 f_equal. by rewrite <- !app_assoc.
Qed.

(** C32 The daemon understands the syslog messages it forwards: the datagram that
    server_forward_syslog makes of a message of a process is taken apart by
    server_process_syslog_message into the same priority and facility, identifier,
    process id and text.  (The time is skipped; the daemon stamps the message itself.) *)
Theorem syslog_forward_round_trip proc proc' ms fs fc uc' tv' time priority identifier m c before stale :
  let i := default [] (match identifier with Some i => Some i | None => get_process_comm proc (uc_pid c) end) in
  0 <= priority <= 999 -> LOG_PRI priority <= ms -> is_u32 (uc_pid c) ->
  matches_date sequence time = Some [] -> Forall not_space i -> plain_message m ->
  exists d others items,
    server_forward_syslog proc ms (Some time) priority identifier m (Some c) = Ok (Some d)
    /\ server_process_syslog_message proc' fs fc uc' tv' (strstrip d ++ 0 :: stale) before
       = Ok (others ++ [SERVER_DISPATCH_MESSAGE items (N_IOVEC_META_FIELDS + 6) uc' tv' priority])
    /\ map iov_base items
       = syslog_items priority i (format_u (uc_pid c)) m ++ map iov_base (dispatch_message_real proc' uc').
Proof.
  intros i Hp Hms Hpid Htime Hi [Hm1 (ms' & mc & Em & Hmc) Hm0]. unfold is_u32 in Hpid.
  rewrite forward_text by done. fold i. set (pid := format_u (uc_pid c)).
  assert (Forall (fun c => is_digit c = true) pid) as Hpd by (apply decimal_digits; simpl; lia).
  set (rest := time ++ i ++ 91 :: pid ++ txt "]: " ++ m).
  assert (Forall (fun c => c <> 0) rest) as Hrest.
  { unfold rest. apply Forall_app. split; [by eapply matches_date_nonzero|]. apply Forall_app.
    split; [eapply Forall_impl; [exact Hi|]; by intros x [? _]|]. constructor; [done|]. apply Forall_app.
    split; [eapply Forall_impl; [exact Hpd|]; by intros x Hx ->|]. apply Forall_app. split; [by repeat constructor|done]. }
  assert (strstrip (forwarded priority time i pid m) = (txt "<" ++ format_i priority ++ txt ">") ++ rest) as Hstrip.
  { unfold strstrip. rewrite strspn_not_space by done. rewrite drop_0. unfold forwarded, rest. rewrite Em.
    rewrite !app_comm_cons, !app_assoc. by apply drop_trailing_last. }
  pose proof (parse_priority_header priority rest (Z.lor LOG_USER LOG_INFO) Hp Hrest stale) as Hparse.
  do 3 eexists. split; [done|]. rewrite Hstrip, <- (app_assoc _ rest).
  unfold server_process_syslog_message. rewrite Hparse, cstring_terminated by done.
  unfold syslog_skip_date, rest. rewrite matches_date_app by done.
  match goal with |- context [default ?b (Some ?x)] => change (default b (Some x)) with x end. cbv zeta.
  rewrite parse_identifier_ok by done. split; [rewrite !app_assoc; reflexivity|].
  unfold syslog_items. rewrite !map_app. simpl map. by destruct (Z.land priority LOG_FACMASK =? 0).
Qed.

Definition sample_proc : Proc :=
  mkProc (fun _ => Some (txt "cron")) (fun _ => None) (fun _ => None) (fun _ => None) (fun _ => None).

(** The message of process 4711 whose name has to be looked up. *)
Lemma syslog_forward_witness :
  exists d others items,
    server_forward_syslog sample_proc 7 (Some (txt "Jan  5 07:08:09 ")) 38 None (txt "hello: world") (Some (mkUcred 4711 0 0)) = Ok (Some d)
    /\ server_process_syslog_message sample_proc true true None None (strstrip d ++ 0 :: [62; 10]) 0
       = Ok (others ++ [SERVER_DISPATCH_MESSAGE items (N_IOVEC_META_FIELDS + 6) None None 38])
    /\ map iov_base items = syslog_items 38 (txt "cron") (format_u 4711) (txt "hello: world") ++ map iov_base (dispatch_message_real sample_proc None).
Proof.
  apply (syslog_forward_round_trip sample_proc sample_proc 7 true true None None (txt "Jan  5 07:08:09 ") 38 None (txt "hello: world") (mkUcred 4711 0 0) 0 [62; 10]).
  - lia.
  - discriminate.
  - unfold is_u32. simpl. lia.
  - reflexivity.
  - simpl. repeat constructor; discriminate.
  - split; [by split|exists (txt "hello: worl"), 100; by split|]. simpl. repeat constructor; discriminate.
Defined.
