(* ===== verification/Kmsg.v ===== *)
(** src/core/journald-kmsg.c: the records of /dev/kmsg. *)
From S2P Require Import Prelude CString Split Escape Numbers JournalDef Daemon Syslog.

(** [*e = 0] *)
Definition set_nul (e : nat) (p : list Z) : list Z := take e p ++ 0 :: drop (S e) p.

(** The loop over the fields behind a message: at most [j] of them, in [l] bytes from
    [k] on.  The items and the memory from [k] on afterwards; [None]: a field without an
    end, for which dev_kmsg_record returns. *)
Fixpoint kernel_fields (j : nat) (k : list Z) (l : nat) : option (list iovec * list Z) :=
  match j with
  | O => Some ([], k)
  | S j =>
      if Nat.eqb l 0 then Some ([], k) else
      if negb (nth 0 k 0 =? 32) then Some ([], k) else
      let k1 := drop 1 k in
      let l := (l - 1)%nat in
      match memchr 10 (take l k1) with
      | None => None
      | Some e =>
          let k1 := set_nul e k1 in
          let m := cunescape_length_with_prefix k1 (Z.of_nat e) (txt "_KERNEL_") in
          match kernel_fields j (drop (S e) k1) (l - (e + 1))%nat with
          | None => None
          | Some (items, k2) => Some (mkIovec HEAP (cstring m) :: items, 32 :: take (S e) k1 ++ k2)
          end
      end
  end.

(** What is made of a message with its priority and time once it is known to be new:
    [p] is behind the ';', the byte in front of it is [before], and [l] bytes remain. *)
Definition kmsg_message (p : list Z) (l : nat) (before priority usec : Z) : list call :=
  match memchr 10 (take l p) with
  | None => []
  | Some e =>
      let p := set_nul e p in
      match kernel_fields (Z.to_nat N_IOVEC_KERNEL_FIELDS) (drop (S e) p) (l - (e + 1))%nat with
      | None => []
      | Some (fields, k) =>
          let p := take (S e) p ++ k in
          let '(idents, p, pl) :=
            if Z.land priority LOG_FACMASK =? 0 then ([literal "SYSLOG_IDENTIFIER=kernel"], p, Z.of_nat e) else
            match syslog_parse_identifier (cstring p) before with
            | None => ([], p, Z.of_nat e)
            | Some (rest, identifier, pid, n) =>
                (field_of_option HEAP "SYSLOG_IDENTIFIER=" identifier ++ field_of_option HEAP "SYSLOG_PID=" pid,
                 drop (length (cstring p) - length rest) p, Z.of_nat e - Z.of_nat n)
            end in
          let items :=
            fields
            ++ [field_in HEAP "_SOURCE_MONOTONIC_TIMESTAMP=" (format_u usec); literal "_TRANSPORT=kernel";
                field_in HEAP "PRIORITY=" (format_i (Z.land priority LOG_PRIMASK));
                field_in HEAP "SYSLOG_FACILITY=" (format_i (LOG_FAC priority))]
            ++ idents
            ++ [mkIovec HEAP (cstring (cunescape_length_with_prefix p pl (txt "MESSAGE=")))] in
          [SERVER_DISPATCH_MESSAGE items (N_IOVEC_META_FIELDS + 7 + N_IOVEC_KERNEL_FIELDS) None None priority]
      end
  end.

(** From the time on. *)
Definition kmsg_body (p : list Z) (l : nat) (priority : Z) : list call :=
  match memchr 59 (take l p) with
  | None => []
  | Some f =>
      let e := match memchr 44 (take l p) with None => f | Some e => if Nat.ltb f e then f else e end in
      match safe_atollu (take e p) with
      | inr _ => []
      | inl usec => kmsg_message (drop (S f) p) (l - (f + 1))%nat (if Nat.eqb e f then 0 else 59) priority usec
      end
  end.

Definition missed (serial kseqnum : Z) : list call :=
  if kseqnum <? serial
  then [SERVER_DRIVER_MESSAGE (txt "Missed " ++ format_u (serial - kseqnum) ++ txt " kernel messages")] else [].

(** A record of [l] bytes: the next serial number expected and the calls. *)
Definition dev_kmsg_record (p : list Z) (l : nat) (kseqnum : Z) : Z * list call :=
  if Nat.eqb l 0 then (kseqnum, []) else
  match memchr 44 (take l p) with
  | None => (kseqnum, [])
  | Some e =>
      match safe_atoi (take e p) with
      | inr _ => (kseqnum, [])
      | inl priority =>
          if (priority <? 0) || (999 <? priority) then (kseqnum, []) else
          let l := (l - (e + 1))%nat in
          let p := drop (S e) p in
          match memchr 44 (take l p) with
          | None => (kseqnum, [])
          | Some e =>
              match safe_atou64 (take e p) with
              | inr _ => (kseqnum, [])
              | inl serial =>
                  if serial <? kseqnum then (kseqnum, []) else
                  (u64 (serial + 1), missed serial kseqnum ++ kmsg_body (drop (S e) p) (l - (e + 1))%nat priority)
              end
          end
      end
  end.

(** server_flush_dev_kmsg: the records that are read one after the other, each with its
    length; the calls for each. *)
Fixpoint server_flush_dev_kmsg (records : list (list Z * nat)) (kseqnum : Z) : Z * list (list call) :=
  match records with
  | [] => (kseqnum, [])
  | (p, l) :: records =>
      let '(kseqnum, calls) := dev_kmsg_record p l kseqnum in
      let '(kseqnum, all) := server_flush_dev_kmsg records kseqnum in (kseqnum, calls :: all)
  end.
