(* ===== verification/KmsgSpec.v ===== *)
(** Records of the kernel: none is read twice and none is lost without notice, and a
    record in the format of the kernel becomes a message with its text and fields. *)
From S2P Require Import Prelude CString Split Escape Numbers JournalDef Daemon NativeSpec Syslog Kmsg.

(** * Serial numbers *)

(** The priority and serial number of a record, if it has both, and what follows. *)
Definition record_head (p : list Z) (l : nat) : option (Z * Z * list Z * nat) :=
  match memchr 44 (take l p) with
  | None => None
  | Some e =>
      match safe_atoi (take e p) with
      | inl priority =>
          if (0 <=? priority) && (priority <=? 999) then
            match memchr 44 (take (l - (e + 1)) (drop (S e) p)) with
            | None => None
            | Some e' =>
                match safe_atou64 (take e' (drop (S e) p)) with
                | inl serial => Some (priority, serial, drop (S e') (drop (S e) p), (l - (e + 1) - (e' + 1))%nat)
                | inr _ => None
                end
            end
          else None
      | inr _ => None
      end
  end.

Definition serial_of (p : list Z) (l : nat) : option Z := match record_head p l with Some (_, s, _, _) => Some s | None => None end.

Lemma record_eq p l k : dev_kmsg_record p l k
  = match record_head p l with
    | None => (k, [])
    | Some (priority, s, p', l') => if s <? k then (k, []) else (u64 (s + 1), missed s k ++ kmsg_body p' l' priority)
    end.
Proof.
  unfold dev_kmsg_record, record_head. destruct (Nat.eqb_spec l 0) as [->|_]; [done|].
  destruct (memchr 44 (take l p)) as [e|]; [|done]. destruct (safe_atoi _) as [pr|]; [|done].
  destruct (Z.ltb_spec pr 0); [by rewrite (proj2 (Z.leb_gt _ _)) by lia|]. rewrite (proj2 (Z.leb_le _ _)) by lia.
  destruct (Z.ltb_spec 999 pr); [by rewrite (proj2 (Z.leb_gt _ _)) by lia|]. rewrite (proj2 (Z.leb_le pr _)) by lia. simpl.
  destruct (memchr 44 _) as [e'|]; [|done]. by destruct (safe_atou64 _).
Qed.

(** A record's calls: none when it is old or no record, else the number of those lost
    before it, if any, and at most one message. *)
Definition accounted (calls : list call) (gap : option Z) : Prop :=
  match gap with
  | None => calls = []
  | Some n => 0 <= n /\ exists body,
      calls = (if 0 <? n then [SERVER_DRIVER_MESSAGE (txt "Missed " ++ format_u n ++ txt " kernel messages")] else []) ++ body
      /\ (length body <= 1)%nat /\ Forall (fun c => match c with SERVER_DISPATCH_MESSAGE _ _ _ _ _ => True | _ => False end) body
  end.

Fixpoint advance (gaps : list (option Z)) : Z :=
  match gaps with [] => 0 | None :: gaps => advance gaps | Some n :: gaps => n + 1 + advance gaps end.

Lemma kmsg_body_one p l priority : (length (kmsg_body p l priority) <= 1)%nat
  /\ Forall (fun c => match c with SERVER_DISPATCH_MESSAGE _ _ _ _ _ => True | _ => False end) (kmsg_body p l priority).
Proof.
  unfold kmsg_body. destruct (memchr 59 _) as [f|]; [|split; simpl; [lia|constructor]].
  destruct (safe_atollu _); [|split; simpl; [lia|constructor]]. unfold kmsg_message.
  destruct (memchr 10 _); [|split; simpl; [lia|constructor]].
  destruct (kernel_fields _ _ _) as [[fields k]|]; [|split; simpl; [lia|constructor]].
  destruct (if Z.land priority LOG_FACMASK =? 0 then _ else _) as [[idents q] pl]. split; [simpl; lia|by constructor].
Qed.

(** C33 The kernel's messages are read once each and in order, and losses are told.  For
    any records read, a record is accepted if its serial number is not below the next one
    expected; the count of those left out before it is exactly what the report says, and
    the next number expected is the first one plus all records accepted and reported
    missing.  A record already seen, and anything that is no record, has no effect. *)
Theorem kmsg_accounting (records : list (list Z * nat)) (kseqnum : Z) :
  is_u64 kseqnum ->
  Forall (fun r => match serial_of r.1 r.2 with Some s => 0 <= s < u64_max | None => True end) records ->
  let '(kseqnum', calls) := server_flush_dev_kmsg records kseqnum in
  exists gaps, kseqnum' = kseqnum + advance gaps /\ Forall2 accounted calls gaps
    /\ forall i p l, records !! i = Some (p, l) ->
       match gaps !! i with
       | Some (Some n) => serial_of p l = Some (kseqnum + advance (take i gaps) + n)
       | Some None => match serial_of p l with Some s => s < kseqnum + advance (take i gaps) | None => True end
       | None => False
       end.
Proof.
  intros Hk Hs. revert kseqnum Hk. induction Hs as [|[p l] records Hr _ IH]; intros k Hk.
  { exists []. simpl. split; [lia|]. split; [constructor|]. intros i p l. by rewrite lookup_nil. }
  simpl server_flush_dev_kmsg. rewrite record_eq. simpl in Hr. unfold serial_of in *. unfold is_u64, u64_max in *.
  destruct (record_head p l) as [[[[priority s] p'] l']|] eqn:Eh; [destruct (Z.ltb_spec s k)|].
  - specialize (IH k Hk). destruct (server_flush_dev_kmsg records k) as [k' calls]. destruct IH as (gaps & -> & Hacc & Hall).
    exists (None :: gaps). split; [done|]. split; [by constructor|]. intros [|i] q m; simpl.
    + injection 1 as <- <-. rewrite Eh. lia.
    + apply Hall.
  - rewrite u64_small by (unfold is_u64; lia). specialize (IH (s + 1) ltac:(lia)).
    destruct (server_flush_dev_kmsg records (s + 1)) as [k' calls]. destruct IH as (gaps & -> & Hacc & Hall).
    exists (Some (s - k) :: gaps). split; [simpl; lia|]. split.
    + constructor; [|done]. split; [lia|]. exists (kmsg_body p' l' priority). split; [|apply kmsg_body_one].
      unfold missed. by replace (0 <? s - k) with (k <? s) by (zcases; lia).
    + intros [|i] q m; simpl.
      * injection 1 as <- <-. rewrite Eh. f_equal. lia.
      * intros Hi. specialize (Hall i q m Hi). destruct (gaps !! i) as [[n|]|]; [|destruct (record_head q m) as [[[[??]?]?]|]|]; try done.
        -- rewrite Hall. f_equal. lia.
        -- lia.
  - specialize (IH k Hk). destruct (server_flush_dev_kmsg records k) as [k' calls]. destruct IH as (gaps & -> & Hacc & Hall).
    exists (None :: gaps). split; [done|]. split; [by constructor|]. intros [|i] q m; simpl.
    + injection 1 as <- <-. by rewrite Eh.
    + apply Hall.
Qed.

Definition sample_record (serial : String.string) : list Z * nat :=
  let r := txt "6," ++ txt serial ++ txt ",77,-;hello" ++ [10] in (r, length r).

(** Records 3, 5, again 3, and a broken one. *)
Definition sample_records : list (list Z * nat) := [sample_record "3"; sample_record "5"; sample_record "3"; (txt "6,7", 3%nat)].

Lemma kmsg_accounting_witness :
  serial_of (sample_record "5").1 (sample_record "5").2 = Some 5
  /\ let '(kseqnum', calls) := server_flush_dev_kmsg sample_records 3 in
  exists gaps, kseqnum' = 3 + advance gaps /\ Forall2 accounted calls gaps
    /\ forall i p l, sample_records !! i = Some (p, l) ->
       match gaps !! i with
       | Some (Some n) => serial_of p l = Some (3 + advance (take i gaps) + n)
       | Some None => match serial_of p l with Some s => s < 3 + advance (take i gaps) | None => True end
       | None => False
       end.
Proof.
  split; [reflexivity|]. apply (kmsg_accounting sample_records 3).
  - unfold is_u64. lia.
  - unfold sample_records. repeat constructor; vm_compute; congruence.
Defined.

(** * A record in the format of the kernel *)

(** "prio,seq,usec,flags;text\n", then " field\n" for every field, the texts escaped. *)
Definition kernel_line (f : list Z) : list Z := 32 :: xescape f [] ++ [10].

Definition kernel_record (priority serial usec : Z) (flags text : list Z) (fields : list (list Z)) : list Z :=
  decimal 20 priority ++ 44 :: decimal 20 serial ++ 44 :: decimal 20 usec ++ 44 :: flags ++ 59 ::
  xescape text [] ++ 10 :: concat (map kernel_line fields).

Definition kernel_text (s : list Z) : Prop := Forall (fun c => 0 < c < 256) s.

Lemma xescape_plain s : kernel_text s -> Forall (fun c => 32 <= c < 127) (xescape s []).
Proof. intros Hs. apply Forall_concat, Forall_map. exact (Forall_impl _ _ _ Hs (xescape_char_plain [])). Qed.

Lemma plain_not c s : Forall (fun c => 32 <= c < 127) s -> ~ 32 <= c < 127 -> c ∉ s.
Proof. intros Hs Hc Hin. rewrite Forall_forall in Hs. by apply Hc, Hs. Qed.

Lemma unescape_prefix s rest prefix : kernel_text s ->
  cunescape_length_with_prefix (xescape s [] ++ rest) (zlen (xescape s [])) prefix = prefix ++ s.
Proof.
  intros Hs. pose proof (cunescape_concat (xescape_char []) s rest (Forall_impl _ _ _ Hs (xescape_char_ok []))) as H.
  unfold cunescape_length, cunescape_length_with_prefix in *. rewrite app_nil_l in H. f_equal. exact H.
Qed.

Lemma set_nul_app l c p : set_nul (length l) (l ++ c :: p) = l ++ 0 :: p.
Proof. unfold set_nul. by rewrite take_app_length, drop_line. Qed.

Lemma kernel_text_string prefix s : Forall (fun c => c <> 0) prefix -> kernel_text s -> cstring (prefix ++ s) = prefix ++ s.
Proof.
  intros Hp Hs. apply cstring_plain, Forall_app. split; [done|]. eapply Forall_impl; [exact Hs|]. simpl. lia.
Qed.

Lemma kernel_fields_ok fields j : Forall kernel_text fields -> (length fields <= j)%nat ->
  exists k, kernel_fields j (concat (map kernel_line fields)) (length (concat (map kernel_line fields)))
            = Some (map (fun f => mkIovec HEAP (txt "_KERNEL_" ++ f)) fields, k).
Proof.
  intros Hf. revert j. induction Hf as [|f fields Hf _ IH]; intros j Hj.
  { exists []. by destruct j. }
  destruct j as [|j]; [simpl in Hj; lia|]. set (tail := concat (map kernel_line fields)) in *.
  assert (concat (map kernel_line (f :: fields)) = 32 :: xescape f [] ++ 10 :: tail) as -> by (simpl; by rewrite <- app_assoc).
  cbn [kernel_fields]. change (Nat.eqb (length (32 :: xescape f [] ++ 10 :: tail)) 0) with false.
  change (drop 1 (32 :: xescape f [] ++ 10 :: tail)) with (xescape f [] ++ 10 :: tail). cbv iota. change (negb (nth 0 (32 :: xescape f [] ++ 10 :: tail) 0 =? 32)) with false. cbv iota.
  replace (length (32%Z :: xescape f [] ++ 10%Z :: tail) - 1)%nat with (length (xescape f [] ++ 10 :: tail)) by (simpl; lia).
  rewrite take_ge by lia. rewrite memchr_app by (apply plain_not; [by apply xescape_plain|lia]).
  rewrite set_nul_app, drop_line. fold (zlen (xescape f [])). rewrite unescape_prefix, kernel_text_string by (done || by repeat constructor).
  replace (length (xescape f [] ++ 10%Z :: tail) - (length (xescape f []) + 1))%nat with (length tail) by (rewrite length_app; simpl; lia).
  destruct (IH j ltac:(simpl in Hj; lia)) as (k & ->). by eexists.
Qed.

Lemma digits_no c n v : 0 <= v < 10 ^ Z.of_nat n -> ~ 48 <= c <= 57 -> c ∉ decimal n v.
Proof.
  intros Hv Hc Hin. destruct (decimal_ok n v Hv) as (Hd & _). rewrite forallb_forall in Hd.
  specialize (Hd c (proj1 (list_elem_of_In _ _) Hin)). unfold is_digit in Hd. bprop. lia.
Qed.

Lemma atollu_decimal n : is_u64 n -> safe_atollu (decimal 20 n) = inl n.
Proof.
  unfold is_u64. intros Hn. unfold safe_atollu. rewrite strtox_decimal by (simpl; lia). unfold u64_max. by rewrite (proj2 (Z.ltb_ge _ _)) by lia.
Qed.

Lemma atoi_decimal n : 0 <= n < 2 ^ 31 -> safe_atoi (decimal 20 n) = inl n.
Proof.
  intros Hn. unfold safe_atoi, safe_atolli. rewrite strtox_decimal by (simpl; lia). unfold strtol_range.
  rewrite (proj2 (Z.ltb_ge _ _)), (proj2 (Z.ltb_ge _ _)) by lia. simpl orb. cbv iota. by rewrite int32_small, Z.eqb_refl by lia.
Qed.

(** The items made of a kernel message. *)
Definition kernel_items (priority usec : Z) (text : list Z) (fields : list (list Z)) : list (list Z) :=
  map (fun f => txt "_KERNEL_" ++ f) fields
  ++ [txt "_SOURCE_MONOTONIC_TIMESTAMP=" ++ format_u usec; txt "_TRANSPORT=kernel";
      txt "PRIORITY=" ++ format_i (Z.land priority LOG_PRIMASK); txt "SYSLOG_FACILITY=" ++ format_i (LOG_FAC priority);
      txt "SYSLOG_IDENTIFIER=kernel"; txt "MESSAGE=" ++ text].

(** C34 A message of the kernel arrives as it was logged: a record of /dev/kmsg in the
    documented format, its texts escaped and with up to 64 fields, that is the next one
    expected is handed to the journal with its text, its fields and its time. *)
Theorem dev_kmsg_record_correct priority serial usec flags text fields :
  0 <= priority <= 7 -> is_u64 serial -> is_u64 usec -> (59 ∉ flags) -> kernel_text text ->
  Forall kernel_text fields -> (length fields <= 64)%nat ->
  let record := kernel_record priority serial usec flags text fields in
  exists items,
    dev_kmsg_record record (length record) serial
    = (u64 (serial + 1), [SERVER_DISPATCH_MESSAGE items 91 None None priority])
    /\ map iov_base items = kernel_items priority usec text fields.
Proof.
  intros Hp Hs Hu Hflags Ht Hf Hn record. unfold is_u64 in Hs, Hu.
  set (lines := concat (map kernel_line fields)). set (r4 := xescape text [] ++ 10 :: lines).
  set (r3 := decimal 20 usec ++ 44 :: flags ++ 59 :: r4). set (r2 := decimal 20 serial ++ 44 :: r3).
  assert (record = decimal 20 priority ++ 44 :: r2) as -> by done.
  assert (record_head (decimal 20 priority ++ 44 :: r2) (length (decimal 20 priority ++ 44 :: r2)) = Some (priority, serial, r3, length r3)) as Hh.
  { unfold record_head. rewrite take_ge by lia. rewrite memchr_app by (apply digits_no; simpl; lia).
    rewrite take_app_length, atoi_decimal by lia. rewrite (proj2 (Z.leb_le _ _)), (proj2 (Z.leb_le _ _)) by lia. simpl andb. cbv iota.
    rewrite drop_line. replace (length (decimal 20 priority ++ 44%Z :: r2) - (length (decimal 20 priority) + 1))%nat with (length r2) by (rewrite length_app, length_cons; lia).
    rewrite take_ge by lia. unfold r2. rewrite memchr_app by (apply digits_no; simpl; lia). unfold safe_atou64.
    rewrite take_app_length, atollu_decimal, drop_line by (unfold is_u64; lia). do 2 f_equal. rewrite length_app, length_cons. lia. }
  rewrite record_eq, Hh, (proj2 (Z.ltb_ge _ _)) by lia. unfold missed. rewrite (proj2 (Z.ltb_ge _ _)) by lia. simpl app.
  unfold kmsg_body. rewrite take_ge by lia.
  assert (memchr 59 r3 = Some (length (decimal 20 usec ++ 44 :: flags))) as ->.
  { unfold r3. rewrite app_comm_cons, app_assoc. apply memchr_app. rewrite elem_of_app, elem_of_cons. intros [H|[H|H]]; [|done|done].
    revert H. apply digits_no; simpl; lia. }
  unfold r3 at 1. rewrite memchr_app by (apply digits_no; simpl; lia).
  assert (Nat.ltb (length (decimal 20 usec ++ 44 :: flags)) (length (decimal 20 usec)) = false) as -> by (apply Nat.ltb_ge; rewrite length_app; lia).
  unfold r3 at 1. rewrite take_app_length, atollu_decimal by (unfold is_u64; lia).
  assert (drop (S (length (decimal 20 usec ++ 44 :: flags))) r3 = r4) as ->.
  { unfold r3. rewrite app_comm_cons, app_assoc. apply drop_line. }
  assert (length r3 - (length (decimal 20 usec ++ 44%Z :: flags) + 1) = length r4)%nat as ->.
  { unfold r3. rewrite !length_app, !length_cons, length_app, length_cons. lia. }
  unfold kmsg_message. rewrite take_ge by lia. unfold r4 at 1.
  rewrite memchr_app by (apply plain_not; [by apply xescape_plain|lia]). unfold r4. rewrite set_nul_app, drop_line.
  replace (length (xescape text [] ++ 10%Z :: lines) - (length (xescape text []) + 1))%nat with (length lines) by (rewrite length_app, length_cons; lia).
  destruct (kernel_fields_ok fields (Z.to_nat N_IOVEC_KERNEL_FIELDS) Hf) as (k & Hk); [exact Hn|]. fold lines in Hk. rewrite Hk.
  assert (Z.land priority LOG_FACMASK = 0) as ->.
  { assert (priority ∈ seqZ 0 8) as Hin by (apply elem_of_seqZ; lia). revert Hin. clear. vm_compute seqZ.
    rewrite !elem_of_cons. intros H. pose proof (not_elem_of_nil priority). intuition (subst; done). }
  simpl Z.eqb. cbv iota. eexists. split; [reflexivity|].
  replace (S (length (xescape text []))) with (length (xescape text []) + 1)%nat by lia. rewrite take_app_add. simpl take.
  rewrite <- app_assoc. fold (zlen (xescape text [])). rewrite unescape_prefix, kernel_text_string by (done || by repeat constructor).
  unfold kernel_items. rewrite !map_app, map_map. simpl. reflexivity.
Qed.

Lemma dev_kmsg_record_witness :
  exists items,
    dev_kmsg_record (kernel_record 4 12 99 (txt "-") (txt "oops: " ++ [9]) [txt "SUBSYSTEM=usb"]) 45 12
    = (13, [SERVER_DISPATCH_MESSAGE items 91 None None 4])
    /\ map iov_base items = kernel_items 4 99 (txt "oops: " ++ [9]) [txt "SUBSYSTEM=usb"].
Proof.
  apply (dev_kmsg_record_correct 4 12 99 (txt "-") (txt "oops: " ++ [9]) [txt "SUBSYSTEM=usb"]).
  - lia.
  - unfold is_u64. lia.
  - unfold is_u64. lia.
  - by apply memchr_None.
  - unfold kernel_text. simpl. repeat constructor.
  - unfold kernel_text. simpl. repeat constructor.
  - simpl. lia.
Defined.
