(* ===== verification/TimeUtil.v ===== *)
(** shared/time-util.c: spans of time in microseconds as text, and the conversions of
    the clock's structures. *)
From S2P Require Import Prelude CString Escape Split Numbers JournalDef.

Definition USEC_INFINITY := u64_max.
Definition USEC_PER_MSEC := 1000.
Definition USEC_PER_SEC := 1000000.
Definition USEC_PER_MINUTE := 60 * USEC_PER_SEC.
Definition USEC_PER_HOUR := 60 * USEC_PER_MINUTE.
Definition USEC_PER_DAY := 24 * USEC_PER_HOUR.
Definition USEC_PER_WEEK := 7 * USEC_PER_DAY.
Definition USEC_PER_MONTH := 2629800 * USEC_PER_SEC.
Definition USEC_PER_YEAR := 31557600 * USEC_PER_SEC.
Definition NSEC_PER_USEC := 1000.

(** * The structures of the clock: seconds and nano- or microseconds *)

Definition timespec_load (sec nsec : Z) : Z :=
  if (sec =? -1) && (nsec =? -1) then USEC_INFINITY else
  if (u64 (u64_max - Z.quot nsec NSEC_PER_USEC)) / USEC_PER_SEC <? u64 sec then USEC_INFINITY else
  u64 (u64 (u64 sec * USEC_PER_SEC) + u64 nsec / NSEC_PER_USEC).

Definition timespec_store (u : Z) : Z * Z :=
  if u =? USEC_INFINITY then (-1, -1) else (u / USEC_PER_SEC, (u mod USEC_PER_SEC) * NSEC_PER_USEC).

Definition timeval_store (u : Z) : Z * Z :=
  if u =? USEC_INFINITY then (-1, -1) else (u / USEC_PER_SEC, u mod USEC_PER_SEC).

(** * Formatting *)

(** [for (cc = x; cc > 1; cc /= 10)]: the number of turns. *)
Fixpoint tens (n : nat) (x : Z) : nat :=
  match n with O => O | S n => if 1 <? x then S (tens n (x / 10)) else O end.
Definition tens64 (x : Z) : nat := tens 20 x.

(** "%0*llu" *)
Definition padded (width : nat) (v : Z) : list Z := let s := decimal 20 v in replicate (width - length s) 48 ++ s.

Definition span_table : list (list Z * Z) :=
  [(txt "y", USEC_PER_YEAR); (txt "month", USEC_PER_MONTH); (txt "w", USEC_PER_WEEK); (txt "d", USEC_PER_DAY);
   (txt "h", USEC_PER_HOUR); (txt "min", USEC_PER_MINUTE); (txt "s", USEC_PER_SEC); (txt "ms", USEC_PER_MSEC); (txt "us", 1)].

(** One part of the text: what is printed and what is left of the time. *)
Definition span_part (accuracy : Z) (first : bool) (suffix : list Z) (usec t : Z) : list Z * Z :=
  let a := t / usec in
  let b := t mod usec in
  let space := if first then [] else [32] in
  let j := Z.of_nat (tens64 usec) - Z.of_nat (tens64 accuracy) in
  let b' := Nat.iter (tens64 accuracy) (fun b => b / 10) b in
  if (t <? USEC_PER_MINUTE) && (0 <? b) && (0 <? j)
  then (space ++ decimal 20 a ++ [46] ++ padded (Z.to_nat j) b' ++ suffix, 0)
  else (space ++ decimal 20 a ++ suffix, b).

(** [l]: the room left in the buffer.  If a part does not fit, the terminator is written
    behind the buffer. *)
Fixpoint span_loop (table : list (list Z * Z)) (accuracy l t : Z) (out : list Z) (something : bool) : outcome (list Z) :=
  match table with
  | [] => Ok out
  | (suffix, usec) :: table =>
      if t <=? 0 then Ok out else
      if (t <? accuracy) && something then Ok out else
      if t <? usec then span_loop table accuracy l t out something else
      if l <=? 1 then Ok out else
      let '(part, t) := span_part accuracy (length out =? 0)%nat suffix usec t in
      if l <=? zlen part then Crash else
      span_loop table accuracy (l - zlen part) t (out ++ part) true
  end.

Definition format_timespan (l t accuracy : Z) : outcome (option (list Z)) :=
  if t =? USEC_INFINITY then Ok None else
  if t <=? 0 then Ok (Some (take (Z.to_nat (l - 1)) [48])) else
  match span_loop span_table accuracy l t [] false with
  | Ok s => Ok (Some s)
  | _ => Crash
  end.

Definition one_unit (s : list Z) (x : Z) (unit : list Z) : list Z := decimal 20 x ++ unit ++ s.
Definition two_units (s : list Z) (x : Z) (unit : list Z) (y : Z) (unit' : list Z) : list Z :=
  decimal 20 x ++ unit ++ decimal 20 y ++ unit' ++ s.

(** The time from now on or ago, in two units at most. *)
Definition format_timestamp_relative (now t : Z) : option (list Z) :=
  if (t <=? 0) || (t =? USEC_INFINITY) then None else
  let '(d, s) := if t <? now then (now - t, txt "ago") else (t - now, txt "left") in
  let two := two_units s in
  let one := one_unit s in
  Some (
    if USEC_PER_YEAR <=? d then two (d / USEC_PER_YEAR) (txt " years ") (d mod USEC_PER_YEAR / USEC_PER_MONTH) (txt " months ")
    else if USEC_PER_MONTH <=? d then two (d / USEC_PER_MONTH) (txt " months ") (d mod USEC_PER_MONTH / USEC_PER_DAY) (txt " days ")
    else if USEC_PER_WEEK <=? d then two (d / USEC_PER_WEEK) (txt " weeks ") (d mod USEC_PER_WEEK / USEC_PER_DAY) (txt " days ")
    else if 2 * USEC_PER_DAY <=? d then one (d / USEC_PER_DAY) (txt " days ")
    else if 25 * USEC_PER_HOUR <=? d then txt "1 day " ++ one ((d - USEC_PER_DAY) / USEC_PER_HOUR) (txt "h ")
    else if 6 * USEC_PER_HOUR <=? d then one (d / USEC_PER_HOUR) (txt "h ")
    else if USEC_PER_HOUR <=? d then two (d / USEC_PER_HOUR) (txt "h ") (d mod USEC_PER_HOUR / USEC_PER_MINUTE) (txt "min ")
    else if 5 * USEC_PER_MINUTE <=? d then one (d / USEC_PER_MINUTE) (txt "min ")
    else if USEC_PER_MINUTE <=? d then two (d / USEC_PER_MINUTE) (txt "min ") (d mod USEC_PER_MINUTE / USEC_PER_SEC) (txt "s ")
    else if USEC_PER_SEC <=? d then one (d / USEC_PER_SEC) (txt "s ")
    else if USEC_PER_MSEC <=? d then one (d / USEC_PER_MSEC) (txt "ms ")
    else if 0 <? d then one d (txt "us ")
    else txt "now").

(** * Parsing *)

(** strtoll with base 10: the value, whether it was out of range, and what follows (the
    whole string if there is no number). *)
Definition strtoll (s : list Z) : Z * bool * list Z :=
  let '(negative, digits) := match skip_spaces s with
    | c :: s' => if c =? 45 then (true, s') else if c =? 43 then (false, s') else (false, c :: s')
    | [] => (false, []) end in
  match scan_base 10 digits 0 false with
  | (v, true, rest) => let v := if (negative : bool) then - v else v in (v, strtol_range v, rest)
  | _ => (0, false, s)
  end.

Definition WHITESPACE : list Z := [32; 9; 10; 13].
Definition skip_whitespace (s : list Z) : list Z := drop (strspn s WHITESPACE) s.

Fixpoint find_suffix (table : list (list Z * Z)) (e : list Z) : option (list Z * Z) :=
  match table with
  | [] => None
  | (suffix, unit) :: table => if startswith e suffix then Some (suffix, unit) else find_suffix table e
  end.

(** What follows the integer part: a fraction and the number of its characters. *)
Definition parse_fraction (p e : list Z) : outcome (Z * nat * list Z) :=
  match e with
  | 46 :: b =>
      let '(z, erange, e') := strtoll b in
      if erange then Err ERANGE else
      if z <? 0 then Err ERANGE else
      if (length e' =? length b)%nat then Err EINVAL else
      Ok (z, (length b - length e')%nat, e')
  | _ => if (length e =? length p)%nat then Err EINVAL else Ok (0, 0%nat, e)
  end.

(** The loop of parse_sec and parse_nsec, which differ in the table only. *)
Fixpoint parse_span (table : list (list Z * Z)) (n : nat) (p : list Z) (r : Z) (something : bool) : outcome Z :=
  match n with
  | O => NoFuel
  | S n =>
      let p := skip_whitespace p in
      match p with
      | [] => if something then Ok r else Err EINVAL
      | _ =>
          let '(l, erange, e) := strtoll p in
          if erange then Err ERANGE else
          if l <? 0 then Err ERANGE else
          match parse_fraction p e with
          | Ok (z, d, e) =>
              let e := skip_whitespace e in
              match find_suffix table e with
              | Some (suffix, unit) =>
                  let k := Nat.iter d (fun k => k / 10) (u64 (z * unit)) in
                  parse_span table n (drop (length suffix) e) (u64 (r + u64 (u64 (l * unit) + k))) true
              | None => Err EINVAL
              end
          | Err er => Err er
          | _ => Crash
          end
      end
  end.

(** The names of the units, for both parsers; [us]: how many units a microsecond is. *)
Definition span_names (us : Z) : list (list Z * Z) :=
  [(txt "seconds", us * USEC_PER_SEC); (txt "second", us * USEC_PER_SEC); (txt "sec", us * USEC_PER_SEC); (txt "s", us * USEC_PER_SEC);
   (txt "minutes", us * USEC_PER_MINUTE); (txt "minute", us * USEC_PER_MINUTE); (txt "min", us * USEC_PER_MINUTE);
   (txt "months", us * USEC_PER_MONTH); (txt "month", us * USEC_PER_MONTH);
   (txt "msec", us * USEC_PER_MSEC); (txt "ms", us * USEC_PER_MSEC); (txt "m", us * USEC_PER_MINUTE);
   (txt "hours", us * USEC_PER_HOUR); (txt "hour", us * USEC_PER_HOUR); (txt "hr", us * USEC_PER_HOUR); (txt "h", us * USEC_PER_HOUR);
   (txt "days", us * USEC_PER_DAY); (txt "day", us * USEC_PER_DAY); (txt "d", us * USEC_PER_DAY);
   (txt "weeks", us * USEC_PER_WEEK); (txt "week", us * USEC_PER_WEEK); (txt "w", us * USEC_PER_WEEK);
   (txt "years", us * USEC_PER_YEAR); (txt "year", us * USEC_PER_YEAR); (txt "y", us * USEC_PER_YEAR);
   (txt "usec", us); (txt "us", us)].

Definition sec_table : list (list Z * Z) := span_names 1 ++ [([], USEC_PER_SEC)].
Definition nsec_table : list (list Z * Z) := span_names NSEC_PER_USEC ++ [(txt "nsec", 1); (txt "ns", 1); ([], 1)].

Definition parse_sec (s : list Z) : outcome Z := parse_span sec_table (S (length s)) (cstring s) 0 false.
Definition parse_nsec (s : list Z) : outcome Z := parse_span nsec_table (S (length s)) (cstring s) 0 false.

(** * What is printed is read back *)

(** The string does not go on with a digit. *)
Definition no_digit (s : list Z) : Prop := match s with [] => True | c :: _ => is_digit c = false end.

Lemma scan_digits_rest s rest v b :
  forallb is_digit s = true -> no_digit rest ->
  scan_base 10 (s ++ rest) v b = (digits_from v s, b || negb (Nat.eqb (length s) 0), rest).
Proof.
  revert v b. induction s as [|c s IH]; intros v b; simpl.
  - intros _ Hr. rewrite orb_false_r. destruct rest as [|c rest]; [done|]. simpl in Hr |- *.
    assert ((0 <=? unhexchar c) && (unhexchar c <? 10) = false) as ->; [|done].
    unfold unhexchar. rewrite Hr. apply andb_false_iff. rewrite Z.leb_gt, Z.ltb_ge.
    destruct ((97 <=? c) && (c <=? 102)) eqn:E1; [bprop; lia|]. destruct ((65 <=? c) && (c <=? 70)) eqn:E2; [bprop; lia|lia].
  - intros [Hc Hs]%andb_true_iff Hr. rewrite unhexchar_digit by done. unfold is_digit in Hc. bprop.
    rewrite (proj2 (Z.leb_le _ _)), (proj2 (Z.ltb_lt _ _)) by lia. simpl. rewrite IH by done. by rewrite orb_true_r.
Qed.

Lemma strtoll_digits ds rest :
  forallb is_digit ds = true -> ds <> [] -> no_digit rest -> digits_from 0 ds < 2 ^ 63 -> 0 <= digits_from 0 ds ->
  strtoll (ds ++ rest) = (digits_from 0 ds, false, rest).
Proof.
  intros Hd Hne Hr Hlt H0. unfold strtoll. destruct ds as [|c ds]; [done|].
  assert (48 <= c <= 57) as Hc. { simpl in Hd. apply andb_prop in Hd as [Hd _]. unfold is_digit in Hd. bprop. lia. }
  cbn [app skip_spaces]. unfold is_space.
  replace ((c =? 32) || ((9 <=? c) && (c <=? 13))) with false by (symmetry; zdecide; lia).
  rewrite (proj2 (Z.eqb_neq c 45)), (proj2 (Z.eqb_neq c 43)) by lia.
  change (c :: ds ++ rest) with ((c :: ds) ++ rest). rewrite scan_digits_rest by done. simpl Nat.eqb. simpl negb. cbn [orb].
  do 2 f_equal. unfold strtol_range. apply orb_false_iff. split; [apply Z.ltb_ge|apply Z.ltb_ge]; lia.
Qed.

Lemma decimal_length_lt n v : 0 <= v < 10 ^ Z.of_nat n -> v < 10 ^ Z.of_nat (length (decimal n v)).
Proof.
  revert v. induction n as [|n IH]; intros v Hv; [simpl in *; lia|]. cbn [decimal].
  destruct (Z.ltb_spec v 10); [simpl; lia|]. rewrite Nat2Z.inj_succ, Z.pow_succ_r in Hv by lia.
  rewrite length_app, Nat2Z.inj_add. simpl (Z.of_nat (length [_])). rewrite Z.pow_add_r by lia.
  specialize (IH (v / 10) ltac:(mlia)). mlia.
Qed.

Lemma decimal_length_le n m v : 0 <= v < 10 ^ Z.of_nat m -> (0 < m)%nat -> (length (decimal n v) <= m)%nat.
Proof.
  revert m v. induction n as [|n IH]; intros m v Hv Hm; [simpl; lia|]. cbn [decimal].
  destruct (Z.ltb_spec v 10); [simpl; lia|]. destruct m as [|m]; [lia|]. rewrite Nat2Z.inj_succ, Z.pow_succ_r in Hv by lia.
  rewrite length_app. simpl (length [_]). destruct m as [|m]; [simpl in Hv; lia|]. specialize (IH (S m) (v / 10) ltac:(mlia) ltac:(lia)). lia.
Qed.

Lemma decimal_ne v : decimal 20 v <> [].
Proof. cbn [decimal]. destruct (v <? 10); [done|]. by intros [? ?]%app_nil. Qed.

Lemma digits_zeros k s : digits_from 0 (replicate k 48 ++ s) = digits_from 0 s.
Proof. induction k as [|k IH]; [done|]. cbn [replicate app]. rewrite <- IH. unfold digits_from. by simpl. Qed.

Lemma padded_ok j v : 0 <= v < 10 ^ Z.of_nat j -> (0 < j <= 20)%nat ->
  forallb is_digit (padded j v) = true /\ length (padded j v) = j /\ digits_from 0 (padded j v) = v.
Proof.
  intros Hv Hj. unfold padded. assert (0 <= v < 10 ^ Z.of_nat 20) as Hv'.
  { split; [lia|]. eapply Z.lt_le_trans; [apply Hv|]. apply Z.pow_le_mono_r; lia. }
  destruct (decimal_ok 20 v Hv') as (Hd & Hval & _). pose proof (decimal_length_le 20 j v Hv ltac:(lia)).
  split_and!.
  - rewrite forallb_app, Hd, andb_true_r. clear. induction (j - length (decimal 20 v))%nat; [done|]. by simpl.
  - rewrite length_app, length_replicate. lia.
  - by rewrite digits_zeros.
Qed.

Lemma iter_div n x : 0 <= x -> Nat.iter n (fun k => k / 10) x = x / 10 ^ Z.of_nat n.
Proof.
  intros Hx. induction n as [|n IH]; [simpl; by rewrite Z.div_1_r|]. simpl Nat.iter. rewrite IH, Nat2Z.inj_succ, Z.pow_succ_r by lia.
  rewrite (Z.mul_comm 10), Z.div_div by lia. done.
Qed.

(** Nothing follows, or a space. *)
Definition part_end (s : list Z) : Prop := match s with [] => True | c :: _ => c = 32 end.

Lemma suffix_found rest : part_end rest ->
  Forall (fun x => find_suffix sec_table (x.1 ++ rest) = Some x /\ no_digit (x.1 ++ rest)
                   /\ match x.1 ++ rest with c :: _ => c <> 46 | [] => True end
                   /\ skip_whitespace (x.1 ++ rest) = x.1 ++ rest) span_table.
Proof.
  intros Hr. unfold span_table. destruct rest as [|c rest]; [|simpl in Hr; subst c];
    repeat (apply Forall_cons_2; [split_and!; (reflexivity || discriminate)|]); constructor.
Qed.

Section Part.
Context (suffix : list Z) (usec : Z).
Hypothesis (Hin : (suffix, usec) ∈ span_table).

Lemma part_unit : 0 < usec <= USEC_PER_YEAR /\ (usec < USEC_PER_MINUTE -> usec = 10 ^ Z.of_nat (tens64 usec) /\ (tens64 usec <= 6)%nat).
Proof.
  assert (forallb (fun x => (0 <? x.2) && (x.2 <=? USEC_PER_YEAR)
    && ((USEC_PER_MINUTE <=? x.2) || (x.2 =? 10 ^ Z.of_nat (tens64 x.2)) && (tens64 x.2 <=? 6)%nat)) span_table = true) as H
    by (vm_compute; reflexivity).
  rewrite forallb_forall in H. specialize (H _ (proj1 (list_elem_of_In _ _) Hin)). cbn [snd] in H.
  apply andb_prop in H as [H H3]. apply andb_prop in H as [H1 H2]. apply Z.ltb_lt in H1. apply Z.leb_le in H2. split; [done|].
  intros Hlt. apply orb_prop in H3 as [H3|H3]; [apply Z.leb_le in H3; lia|]. apply andb_prop in H3 as [H3 H4].
  apply Z.eqb_eq in H3. apply Nat.leb_le in H4. done.
Qed.

Lemma parse_fraction_plain p e :
  match e with c :: _ => c <> 46 | [] => True end -> length e <> length p -> parse_fraction p e = Ok (0, 0%nat, e).
Proof.
  intros Hc Hl. apply Nat.eqb_neq in Hl. unfold parse_fraction. destruct e as [|c e]; [by rewrite Hl|].
  destruct c as [|q|q]; [by rewrite Hl| |by rewrite Hl]. repeat (destruct q as [q|q|]; try by rewrite Hl); try done.
Qed.

(** The number at the head of a part. *)
Lemma parse_number sp a tail n r something :
  sp = [] \/ sp = [32] -> 0 <= a < 2 ^ 63 -> no_digit tail ->
  parse_span sec_table (S n) (sp ++ decimal 20 a ++ tail) r something =
  match parse_fraction (decimal 20 a ++ tail) tail with
  | Ok (z, d, e) =>
      let e := skip_whitespace e in
      match find_suffix sec_table e with
      | Some (suffix, unit) =>
          let k := Nat.iter d (fun k => k / 10) (u64 (z * unit)) in
          parse_span sec_table n (drop (length suffix) e) (u64 (r + u64 (u64 (a * unit) + k))) true
      | None => Err EINVAL
      end
  | Err er => Err er
  | _ => Crash
  end.
Proof.
  intros Hsp Ha Htail. assert (a < 10 ^ Z.of_nat 20) as Ha' by (eapply Z.lt_trans; [apply Ha|reflexivity]).
  destruct (decimal_ok 20 a (conj (proj1 Ha) Ha')) as (Hd & Hval & _).
  pose proof (decimal_ne a) as Hne. pose proof (strtoll_digits (decimal 20 a) tail Hd Hne Htail) as Hstr.
  rewrite Hval in Hstr. specialize (Hstr (proj2 Ha) (proj1 Ha)).
  assert (skip_whitespace (sp ++ decimal 20 a ++ tail) = decimal 20 a ++ tail) as Hskip.
  { destruct (decimal 20 a) as [|c ds]; [done|]. simpl in Hd. apply andb_prop in Hd as [Hc _]. unfold is_digit in Hc. bprop.
    assert (strspn (c :: ds ++ tail) WHITESPACE = 0%nat) as Hs0.
    { apply strspn_none. unfold WHITESPACE, is_in. cbn [existsb]. zdecide. }
    unfold skip_whitespace. destruct Hsp as [-> | ->]; cbn [app]; [by rewrite Hs0|].
    change (strspn (32 :: c :: ds ++ tail) WHITESPACE) with (S (strspn (c :: ds ++ tail) WHITESPACE)). by rewrite Hs0. }
  cbn [parse_span]. rewrite Hskip. rewrite Hstr. rewrite (proj2 (Z.ltb_ge a 0)) by lia. cbv iota.
  destruct (decimal 20 a ++ tail) eqn:E; [by apply app_nil in E as [? _]|]. done.
Qed.

(** A part is read as the time it stands for. *)
Lemma part_read accuracy first t t' part rest n r something :
  0 <= accuracy <= 1 -> usec <= t < 2 ^ 63 * usec -> span_part accuracy first suffix usec t = (part, t') ->
  part_end rest -> 0 <= r -> r + t < 2 ^ 64 ->
  parse_span sec_table (S n) (part ++ rest) r something = parse_span sec_table n rest (r + (t - t')) true
  /\ 0 <= t' < usec.
Proof.
  intros Hacc Ht Hp Hrest Hr Hsum. destruct part_unit as [Hu Htens].
  destruct (proj1 (Forall_forall _ _) (suffix_found rest Hrest) _ Hin) as (Hfind & Hnd & Hdot & Hws). cbn [fst snd] in *.
  assert (tens64 accuracy = 0%nat) as Hacc0 by (unfold tens64; cbn [tens]; by rewrite (proj2 (Z.ltb_ge 1 accuracy)) by lia).
  unfold span_part in Hp. rewrite Hacc0 in Hp. simpl Nat.iter in Hp. change (Z.of_nat 0) with 0 in Hp. rewrite Z.sub_0_r in Hp.
  set (a := t / usec) in *. set (b := t mod usec) in *. pose proof (Z.mod_pos_bound t usec ltac:(lia)) as Hb. fold b in Hb.
  pose proof (Z.div_mod t usec ltac:(lia)) as Hdiv. fold a b in Hdiv.
  assert (0 <= a < 2 ^ 63) as Ha. { unfold a. split; [apply Z.div_pos; lia|apply Z.div_lt_upper_bound; lia]. }
  set (sp := if first then [] else [32]) in *.
  assert (sp = [] \/ sp = [32]) as Hsp by (unfold sp; destruct first; auto).
  destruct ((t <? USEC_PER_MINUTE) && (0 <? b) && (0 <? Z.of_nat (tens64 usec))) eqn:Ed;
    apply pair_equal_spec in Hp as [Hp1 Hp2]; rewrite <- Hp1, <- Hp2; clear Hp1 Hp2.
  - bprop. destruct (Htens ltac:(lia)) as [Hpow Hsix]. rewrite Nat2Z.id. set (j := tens64 usec) in *.
    destruct (padded_ok j b ltac:(lia) ltac:(lia)) as (Hpd & Hpl & Hpv).
    split; [|lia]. rewrite <- !app_assoc. rewrite parse_number by (done || exact Ha).
    cbn [app]. unfold parse_fraction. assert (padded j b <> []) as Hpne by (intros E; rewrite E in Hpl; simpl in Hpl; lia).
    rewrite (strtoll_digits (padded j b) (suffix ++ rest) Hpd Hpne Hnd) by (rewrite Hpv; unfold USEC_PER_MINUTE, USEC_PER_SEC in *; lia).
    rewrite Hpv. rewrite (proj2 (Z.ltb_ge b 0)) by lia. rewrite (length_app (padded j b)), Hpl.
    rewrite (proj2 (Nat.eqb_neq _ _)) by lia. replace (j + length (suffix ++ rest) - length (suffix ++ rest))%nat with j by lia.
    rewrite Hws, Hfind. rewrite drop_app_length. cbv zeta. rewrite iter_div by apply u64_range.
    rewrite (u64_small (b * usec)) by (unfold is_u64, USEC_PER_MINUTE, USEC_PER_SEC in *; nia). rewrite <- Hpow, Z.div_mul by lia.
    rewrite (u64_small (a * usec)) by (unfold is_u64; nia). rewrite !u64_small by (rewrite ?u64_small; unfold is_u64; lia).
    f_equal. lia.
  - split; [|lia]. rewrite <- !app_assoc. rewrite parse_number by done.
    rewrite parse_fraction_plain; [|done|]. 2: { pose proof (decimal_ne a) as Hne. rewrite !length_app. destruct (decimal 20 a); [done|]. cbn [length]. lia. }
    cbv beta iota zeta. rewrite Hws, Hfind, drop_app_length. cbv beta iota zeta. simpl Nat.iter. rewrite Z.mul_0_l. change (u64 0) with 0. rewrite Z.add_0_r.
    assert (0 <= a * usec) by (apply Z.mul_nonneg_nonneg; lia).
    do 2 rewrite (u64_small (a * usec)) by (unfold is_u64; lia). rewrite u64_small by (unfold is_u64; lia). f_equal. lia.
Qed.

Lemma digits_plain ds : forallb is_digit ds = true -> Forall (fun c => c <> 0) ds.
Proof.
  intros H. apply Forall_forall. intros c Hc. rewrite forallb_forall in H. specialize (H c (proj1 (list_elem_of_In _ _) Hc)).
  unfold is_digit in H. bprop. lia.
Qed.

Lemma suffix_plain : Forall (fun c => c <> 0) suffix.
Proof.
  assert (Forall (fun x : list Z * Z => Forall (fun c => c <> 0) x.1) span_table) as H.
  { unfold span_table. repeat (apply Forall_cons_2; [repeat (apply Forall_cons_2; [done|]); constructor|]). constructor. }
  apply (proj1 (Forall_forall _ _) H _ Hin).
Qed.

(** What a part looks like; [m] digits before the point. *)
Lemma part_shape accuracy first t t' part m :
  0 <= accuracy <= 1 -> usec <= t < usec * 10 ^ Z.of_nat m -> (0 < m <= 20)%nat -> span_part accuracy first suffix usec t = (part, t') ->
  Forall (fun c => c <> 0) part /\ part <> [] /\ (first = false -> part_end part)
  /\ zlen part <= 1 + Z.of_nat m + (if usec <? USEC_PER_MINUTE then 1 + Z.of_nat (tens64 usec) else 0) + zlen suffix.
Proof.
  intros Hacc Ht Hm Hp. destruct part_unit as [Hu Htens]. pose proof suffix_plain as Hsf.
  assert (tens64 accuracy = 0%nat) as Hacc0 by (unfold tens64; cbn [tens]; by rewrite (proj2 (Z.ltb_ge 1 accuracy)) by lia).
  unfold span_part in Hp. rewrite Hacc0 in Hp. simpl Nat.iter in Hp. change (Z.of_nat 0) with 0 in Hp. rewrite Z.sub_0_r in Hp.
  set (a := t / usec) in *. set (b := t mod usec) in *. pose proof (Z.mod_pos_bound t usec ltac:(lia)) as Hb. fold b in Hb.
  assert (0 <= a < 10 ^ Z.of_nat m) as Ha. { unfold a. split; [apply Z.div_pos; lia|apply Z.div_lt_upper_bound; lia]. }
  assert (a < 10 ^ Z.of_nat 20) as Ha' by (eapply Z.lt_le_trans; [apply Ha|apply Z.pow_le_mono_r; lia]).
  destruct (decimal_ok 20 a (conj (proj1 Ha) Ha')) as (Hd & _ & _). pose proof (decimal_length_le 20 m a Ha ltac:(lia)) as Hlen.
  pose proof (digits_plain _ Hd) as Hdp. pose proof (decimal_ne a) as Hne. set (ds := decimal 20 a) in *. clearbody ds.
  set (sp := if first then [] else [32]) in *. assert (zlen sp <= 1) as Hsl by (unfold sp; by destruct first).
  assert (Forall (fun c => c <> 0) sp) as Hspp by (unfold sp; destruct first; repeat constructor; lia).
  assert (forall x, first = false -> part_end (sp ++ x)) as Hspe by (intros x ->; done).
  assert (zlen ds <= Z.of_nat m) as Hdl by (unfold zlen; lia). clearbody sp.
  destruct ((t <? USEC_PER_MINUTE) && (0 <? b) && (0 <? Z.of_nat (tens64 usec))) eqn:Ed;
    apply pair_equal_spec in Hp as [Hp1 _]; rewrite <- Hp1; clear Hp1.
  - bprop. assert (usec < USEC_PER_MINUTE) as Hum by lia. rewrite (proj2 (Z.ltb_lt _ _) Hum).
    destruct (Htens Hum) as [Hpow Hsix]. rewrite Nat2Z.id. set (j := tens64 usec) in *.
    destruct (padded_ok j b ltac:(lia) ltac:(lia)) as (Hpd & Hpl & _). pose proof (digits_plain _ Hpd) as Hpp.
    split_and!.
    + do 2 (apply Forall_app_2; [done|]). apply Forall_app_2; [repeat constructor; lia|]. by apply Forall_app_2.
    + destruct sp, ds; done.
    + auto.
    + unfold zlen in *. rewrite !length_app. simpl (length [_]). lia.
  - split_and!.
    + apply Forall_app_2; [done|]. by apply Forall_app_2.
    + destruct sp, ds; done.
    + auto.
    + unfold zlen in *. rewrite !length_app. destruct (usec <? USEC_PER_MINUTE); lia.
Qed.

End Part.

(** FORMAT_TIMESPAN_MAX *)
Definition FORMAT_TIMESPAN_MAX := 64.

(** The room for the rows of the table, for a time less than [B], and that the rows are
    those of smaller and smaller units down to one. *)
Definition row_digits (usec B : Z) : nat := length (decimal 20 ((B - 1) / usec)).

Fixpoint span_room (table : list (list Z * Z)) (B : Z) : Z :=
  match table with
  | [] => 0
  | (suffix, usec) :: table =>
      1 + Z.of_nat (row_digits usec B) + (if usec <? USEC_PER_MINUTE then 1 + Z.of_nat (tens64 usec) else 0) + zlen suffix
      + span_room table usec
  end.

Fixpoint rows_ok (table : list (list Z * Z)) (B : Z) : bool :=
  match table with
  | [] => B =? 1
  | (suffix, usec) :: table =>
      (usec <=? B) && (B <=? 2 ^ 63 * usec) && ((B - 1) / usec <? 10 ^ 20) && rows_ok table usec
  end.

Lemma row_ok usec B t : 0 < usec -> usec <= t < B -> (B - 1) / usec < 10 ^ 20 ->
  t < usec * 10 ^ Z.of_nat (row_digits usec B) /\ (0 < row_digits usec B <= 20)%nat.
Proof.
  intros Hu Ht HB. unfold row_digits. assert (0 <= (B - 1) / usec) as H0 by (apply Z.div_pos; lia).
  pose proof (decimal_length_lt 20 ((B - 1) / usec) ltac:(split; [lia|exact HB])) as Hlt.
  pose proof (decimal_length_le 20 20 ((B - 1) / usec) ltac:(split; [lia|exact HB]) ltac:(lia)) as Hle.
  pose proof (decimal_ne ((B - 1) / usec)) as Hne. set (k := length _) in *.
  assert (0 < k)%nat. { unfold k. destruct (decimal 20 ((B - 1) / usec)); [done|]. cbn [length]. lia. }
  split; [|lia]. pose proof (Z.mul_div_le (B - 1) usec Hu). pose proof (Z.mul_succ_div_gt (B - 1) usec Hu).
  assert (usec * (1 + (B - 1) / usec) <= usec * 10 ^ Z.of_nat k) by (apply Z.mul_le_mono_nonneg_l; lia). lia.
Qed.

Lemma span_loop_ok accuracy table : 0 <= accuracy <= 1 -> (forall x, x ∈ table -> x ∈ span_table) ->
  forall B l t out something, rows_ok table B = true -> 0 <= t < B -> B <= 2 ^ 64 -> span_room table B < l ->
  exists s, span_loop table accuracy l t out something = Ok (out ++ s)
    /\ zlen s <= span_room table B /\ Forall (fun c => c <> 0) s /\ (out <> [] -> part_end s)
    /\ forall n r b, (length s < n)%nat -> 0 <= r -> r + t < 2 ^ 64 -> 0 < t \/ b = true ->
        parse_span sec_table n s r b = Ok (r + t).
Proof.
  intros Hacc. induction table as [|[suffix usec] table IH]; intros Hsub B l t out something HB Ht HB64 Hl.
  { cbn [rows_ok] in HB. apply Z.eqb_eq in HB. exists []. cbn [span_loop]. rewrite app_nil_r. split_and!; [done|done|constructor|done|].
    intros n r b Hn Hr Hsum Hb. destruct n as [|n]; [simpl in Hn; lia|]. destruct Hb as [Hb| ->]; [lia|]. simpl. f_equal. lia. }
  cbn [rows_ok] in HB. apply andb_prop in HB as [HB HB4]. apply andb_prop in HB as [HB HB3]. apply andb_prop in HB as [HB1 HB2].
  apply Z.leb_le in HB1, HB2. apply Z.ltb_lt in HB3.
  assert ((suffix, usec) ∈ span_table) as Hin by (apply Hsub; constructor). destruct (part_unit _ _ Hin) as [Hu _].
  cbn [span_loop span_room] in *.
  assert (0 <= span_room table usec) as Hroom0.
  { clear. generalize usec. induction table as [|[sf u] tl IHt]; intros B; cbn [span_room]; [lia|]. specialize (IHt u).
    unfold zlen. destruct (_ <? _); lia. }
  destruct (Z.leb_spec t 0) as [Ht0|Ht0].
  { exists []. rewrite app_nil_r. split_and!; [done| |constructor|done|].
    { unfold zlen in *. cbn [length]. destruct (usec <? USEC_PER_MINUTE); lia. }
    intros n r b Hn Hr Hsum Hb. destruct n as [|n]; [simpl in Hn; lia|]. destruct Hb as [Hb| ->]; [lia|]. simpl. f_equal. lia. }
  rewrite (proj2 (Z.ltb_ge t accuracy)) by lia. cbn [andb].
  destruct (Z.ltb_spec t usec) as [Hlt|Hge].
  { assert (span_room table usec <= 1 + Z.of_nat (row_digits usec B)
      + (if usec <? USEC_PER_MINUTE then 1 + Z.of_nat (tens64 usec) else 0) + zlen suffix + span_room table usec) as Hle
      by (unfold zlen; destruct (usec <? USEC_PER_MINUTE); lia).
    destruct (IH (fun x Hx => Hsub x (list_elem_of_further _ _ _ Hx)) usec l t out something) as (s & H1 & H2 & H3 & H4 & H5);
      [done|lia|lia|lia|]. exists s. split_and!; try done. lia. }
  destruct (row_ok usec B t) as [Hrow Hdig]; [lia..|done|].
  destruct (span_part accuracy (length out =? 0)%nat suffix usec t) as [part t'] eqn:Ep.
  destruct (part_shape suffix usec Hin accuracy _ t t' part _ Hacc (conj Hge Hrow) Hdig Ep) as (Hpl & Hpne & Hpe & Hplen).
  assert (zlen part <= l - 1 - span_room table usec) as Hpl2 by lia.
  rewrite (proj2 (Z.leb_gt l 1)) by (unfold zlen in *; destruct part; [done|cbn [length] in *; lia]).
  rewrite (proj2 (Z.leb_gt l (zlen part))) by lia.
  destruct (part_read suffix usec Hin accuracy _ t t' part [] 1 0 true Hacc ltac:(lia) Ep I ltac:(lia) ltac:(lia)) as [_ Ht'].
  destruct (IH (fun x Hx => Hsub x (list_elem_of_further _ _ _ Hx)) usec (l - zlen part) t' (out ++ part) true HB4 Ht' ltac:(lia) ltac:(lia))
    as (s & -> & Hsl & Hs & Hse & Hread).
  assert (part_end s) as Hend by (apply Hse; intros [_ ?]%app_nil; done).
  exists (part ++ s). rewrite app_assoc. split_and!; [done| |by apply Forall_app_2| |].
  - unfold zlen in *. rewrite length_app. lia.
  - intros Hne. assert ((length out =? 0)%nat = false) as E by (destruct out; done). specialize (Hpe E). by destruct part.
  - intros n r b Hn Hr Hsum _. destruct n as [|n]; [lia|].
    destruct (part_read suffix usec Hin accuracy _ t t' part s n r b Hacc ltac:(lia) Ep Hend Hr Hsum) as [-> _].
    assert (t' <= t) by lia.
    rewrite length_app in Hn. rewrite Hread; [f_equal; lia|destruct part; [done|cbn [length] in *; lia]|lia|lia|by right].
Qed.

(** C37 parse_sec reads back what format_timespan writes, exactly, for every time but
    infinity, when the accuracy asked for is a microsecond or less; the text fits into a
    buffer of FORMAT_TIMESPAN_MAX bytes with its terminator. *)
Theorem parse_sec_format_timespan l t accuracy :
  0 <= t < USEC_INFINITY -> 0 <= accuracy <= 1 -> FORMAT_TIMESPAN_MAX <= l ->
  exists s, format_timespan l t accuracy = Ok (Some s) /\ zlen s < l /\ parse_sec s = Ok t.
Proof.
  intros Ht Hacc Hl. unfold FORMAT_TIMESPAN_MAX in Hl. unfold format_timespan. rewrite (proj2 (Z.eqb_neq t USEC_INFINITY)) by lia.
  destruct (Z.leb_spec t 0) as [H0|H0].
  { assert (t = 0) as -> by lia. exists [48]. rewrite take_ge by (simpl; lia). split_and!; [done|unfold zlen; simpl; lia|reflexivity]. }
  destruct (span_loop_ok accuracy span_table Hacc (fun x Hx => Hx) USEC_INFINITY l t [] false) as (s & -> & Hlen & Hs & _ & Hread).
  - vm_compute. reflexivity.
  - lia.
  - vm_compute. discriminate.
  - eapply Z.lt_le_trans; [|exact Hl]. vm_compute. reflexivity.
  - exists s. split; [done|]. split.
    + eapply Z.le_lt_trans; [exact Hlen|]. eapply Z.lt_le_trans; [|exact Hl]. vm_compute. reflexivity.
    + unfold parse_sec. rewrite cstring_plain by done. rewrite Hread; [done|lia|lia|unfold USEC_INFINITY, u64_max in *; lia|by left].
Qed.

Lemma format_timespan_witness : exists s, format_timespan 64 90061000123 0 = Ok (Some s) /\ s = txt "1d 1h 1min 1.000123s" /\ parse_sec s = Ok 90061000123.
Proof.
  destruct (parse_sec_format_timespan 64 90061000123 0) as (s & Hf & _ & Hp).
  - vm_compute. split; [discriminate|reflexivity].
  - lia.
  - vm_compute. discriminate.
  - exists s. split; [exact Hf|]. split; [|exact Hp]. vm_compute in Hf. injection Hf as <-. vm_compute. reflexivity.
Defined.

(** A text that does not fit is cut off, but its terminator goes behind the buffer. *)
Lemma format_timespan_overruns : format_timespan 5 90061000123 0 = Crash.
Proof. vm_compute. reflexivity. Qed.

(** Spaces and a sign count as digits of a fraction. *)
Lemma parse_sec_fraction_spaces : parse_sec (txt "1. 5s") = Ok 1050000.
Proof. vm_compute. reflexivity. Qed.
