(* ===== verification/Server.v ===== *)
(** src/core/journald-server.c and src/journald/journald.c: which journal a message is
    written to, rotating and vacuuming, the way of a message through the limits into a
    journal, opening the journals of the system, flushing the runtime journal, the signals
    and the turns of the main loop. *)
From S2P Require Import Prelude CString Memory Uuid JournalDef JournalFile Vacuum Metrics RateLimit Daemon TimeUtil.
From S2P Require Import JournalOpen Split Match SdJournal.

Definition EDQUOT := 122.
Definition EFBIG := 27.
Definition ENOSPC := 28.
Definition LOG_CRIT := 2.
Definition USER_JOURNALS_MAX : nat := 1024.
Definition RECHECK_AVAILABLE_SPACE_USEC := 30 * 1000000.
Definition SERVER_LINE_MAX : nat := 2048.

Inductive ServerState := SERVER_RUNNING | SERVER_EXITING | SERVER_FINISHED.

#[export] Instance server_state_eq_dec : EqDecision ServerState.
Proof. solve_decision. Defined.

(** The part of the server that its messages and journals are handled with; the user
    journals in the order of the hash map. *)
Record Server := mkServer {
  s_state : ServerState;
  runtime_journal : option OpenFile;
  system_journal : option OpenFile;
  user_journals : list (Z * OpenFile);
  s_seqnum : Z;
  s_rate_limit : option JournalRateLimit;
  runtime_metrics : JournalMetrics;
  system_metrics : JournalMetrics;
  s_compress : bool;
  cached_available_space : Z;
  cached_available_space_timestamp : Z;
  max_retention_usec : Z;
  max_file_usec : Z;
  oldest_file_usec : Z;
  max_level_store : Z;
  sync_interval_usec : Z;
  sync_seqnum : Z;
  sync_time : Z;
  s_boot_id : list Z;
  s_hostname : list Z }.

(** What is answered to one request: two rounds of opening a file, rename, the clocks,
    the directory that is vacuumed, the file system and directory whose space is
    counted, and access. *)
Record Answers := mkAnswers {
  an_open : OpenEnv;
  an_open_again : OpenEnv;
  an_rename : Z;
  an_now : Z;
  an_monotonic : Z;
  an_directory : list dirent + Z;
  an_readdir : Z;
  an_names : nat -> list Z;
  an_unlink : list Z -> Z;
  an_space : option (Z * Z * list (list Z * option (bool * Z)) * Z);
  an_access : bool }.

(** The server, the disk, and how many requests there were. *)
Record Host := mkHost { w_server : Server; w_disk : Disk; w_tick : nat }.

(** [Err] is not used: the functions return their results as values. *)
Definition W (A : Type) : Type := Host -> outcome A * Host.
Definition wret {A} (a : A) : W A := fun w => (Ok a, w).
Definition wbind {A B} (m : W A) (k : A -> W B) : W B := fun w =>
  match m w with
  | (Ok a, w) => k a w
  | (r, w) => (failed_as r, w)
  end.
Declare Scope server_scope.
Notation "'let*' x := m 'in' k" := (wbind m (fun x => k))
  (at level 10, x name, m at level 100, k at level 200) : server_scope.
Notation "'do*' m 'in' k" := (wbind m (fun _ => k))
  (at level 10, m at level 100, k at level 200) : server_scope.
#[local] Open Scope server_scope.

(** What a call returned: a value or an errno. *)
Definition returned {A} (r : outcome A) : W (A + Z) :=
  match r with
  | Ok a => wret (inl a)
  | Err er => wret (inr er)
  | Crash => fun w => (Crash, w)
  | NoFuel => fun w => (NoFuel, w)
  end.

Definition server : W Server := fun w => (Ok (w_server w), w).
Definition update (g : Server -> Server) : W unit := fun w => (Ok tt, mkHost (g (w_server w)) (w_disk w) (w_tick w)).
Definition on_disk (g : Disk -> Disk) : W unit := fun w => (Ok tt, mkHost (w_server w) (g (w_disk w)) (w_tick w)).

(** * Fields *)

Definition set_state (s : Server) (x : ServerState) : Server :=
  mkServer x (runtime_journal s) (system_journal s) (user_journals s) (s_seqnum s) (s_rate_limit s)
    (runtime_metrics s) (system_metrics s) (s_compress s) (cached_available_space s)
    (cached_available_space_timestamp s) (max_retention_usec s) (max_file_usec s) (oldest_file_usec s)
    (max_level_store s) (sync_interval_usec s) (sync_seqnum s) (sync_time s) (s_boot_id s) (s_hostname s).
Definition set_runtime_journal (s : Server) (x : option OpenFile) : Server :=
  mkServer (s_state s) x (system_journal s) (user_journals s) (s_seqnum s) (s_rate_limit s) (runtime_metrics s)
    (system_metrics s) (s_compress s) (cached_available_space s) (cached_available_space_timestamp s)
    (max_retention_usec s) (max_file_usec s) (oldest_file_usec s) (max_level_store s) (sync_interval_usec s)
    (sync_seqnum s) (sync_time s) (s_boot_id s) (s_hostname s).
Definition set_system_journal (s : Server) (x : option OpenFile) : Server :=
  mkServer (s_state s) (runtime_journal s) x (user_journals s) (s_seqnum s) (s_rate_limit s) (runtime_metrics s)
    (system_metrics s) (s_compress s) (cached_available_space s) (cached_available_space_timestamp s)
    (max_retention_usec s) (max_file_usec s) (oldest_file_usec s) (max_level_store s) (sync_interval_usec s)
    (sync_seqnum s) (sync_time s) (s_boot_id s) (s_hostname s).
Definition set_user_journals (s : Server) (x : list (Z * OpenFile)) : Server :=
  mkServer (s_state s) (runtime_journal s) (system_journal s) x (s_seqnum s) (s_rate_limit s) (runtime_metrics s)
    (system_metrics s) (s_compress s) (cached_available_space s) (cached_available_space_timestamp s)
    (max_retention_usec s) (max_file_usec s) (oldest_file_usec s) (max_level_store s) (sync_interval_usec s)
    (sync_seqnum s) (sync_time s) (s_boot_id s) (s_hostname s).
Definition set_seqnum (s : Server) (x : Z) : Server :=
  mkServer (s_state s) (runtime_journal s) (system_journal s) (user_journals s) x (s_rate_limit s) (runtime_metrics s)
    (system_metrics s) (s_compress s) (cached_available_space s) (cached_available_space_timestamp s)
    (max_retention_usec s) (max_file_usec s) (oldest_file_usec s) (max_level_store s) (sync_interval_usec s)
    (sync_seqnum s) (sync_time s) (s_boot_id s) (s_hostname s).
Definition set_rate_limit (s : Server) (x : option JournalRateLimit) : Server :=
  mkServer (s_state s) (runtime_journal s) (system_journal s) (user_journals s) (s_seqnum s) x (runtime_metrics s)
    (system_metrics s) (s_compress s) (cached_available_space s) (cached_available_space_timestamp s)
    (max_retention_usec s) (max_file_usec s) (oldest_file_usec s) (max_level_store s) (sync_interval_usec s)
    (sync_seqnum s) (sync_time s) (s_boot_id s) (s_hostname s).
Definition set_runtime_metrics (s : Server) (x : JournalMetrics) : Server :=
  mkServer (s_state s) (runtime_journal s) (system_journal s) (user_journals s) (s_seqnum s) (s_rate_limit s) x
    (system_metrics s) (s_compress s) (cached_available_space s) (cached_available_space_timestamp s)
    (max_retention_usec s) (max_file_usec s) (oldest_file_usec s) (max_level_store s) (sync_interval_usec s)
    (sync_seqnum s) (sync_time s) (s_boot_id s) (s_hostname s).
Definition set_system_metrics (s : Server) (x : JournalMetrics) : Server :=
  mkServer (s_state s) (runtime_journal s) (system_journal s) (user_journals s) (s_seqnum s) (s_rate_limit s)
    (runtime_metrics s) x (s_compress s) (cached_available_space s) (cached_available_space_timestamp s)
    (max_retention_usec s) (max_file_usec s) (oldest_file_usec s) (max_level_store s) (sync_interval_usec s)
    (sync_seqnum s) (sync_time s) (s_boot_id s) (s_hostname s).
Definition set_oldest_file_usec (s : Server) (x : Z) : Server :=
  mkServer (s_state s) (runtime_journal s) (system_journal s) (user_journals s) (s_seqnum s) (s_rate_limit s)
    (runtime_metrics s) (system_metrics s) (s_compress s) (cached_available_space s)
    (cached_available_space_timestamp s) (max_retention_usec s) (max_file_usec s) x (max_level_store s)
    (sync_interval_usec s) (sync_seqnum s) (sync_time s) (s_boot_id s) (s_hostname s).
Definition set_cached_available_space (s : Server) (x : Z) (ts : Z) : Server :=
  mkServer (s_state s) (runtime_journal s) (system_journal s) (user_journals s) (s_seqnum s) (s_rate_limit s)
    (runtime_metrics s) (system_metrics s) (s_compress s) x ts (max_retention_usec s) (max_file_usec s)
    (oldest_file_usec s) (max_level_store s) (sync_interval_usec s) (sync_seqnum s) (sync_time s) (s_boot_id s)
    (s_hostname s).
Definition set_sync (s : Server) (x : Z) (ts : Z) : Server :=
  mkServer (s_state s) (runtime_journal s) (system_journal s) (user_journals s) (s_seqnum s) (s_rate_limit s)
    (runtime_metrics s) (system_metrics s) (s_compress s) (cached_available_space s)
    (cached_available_space_timestamp s) (max_retention_usec s) (max_file_usec s) (oldest_file_usec s)
    (max_level_store s) (sync_interval_usec s) x ts (s_boot_id s) (s_hostname s).

(** The JournalFile pointers of the server. *)
Inductive slot := RUNTIME | SYSTEM | USER (uid : Z).

#[export] Instance slot_eq_dec : EqDecision slot.
Proof. solve_decision. Defined.

(** The hash map: hashmap_get, and the value of a key replaced in its place or removed. *)
Fixpoint user_get (uid : Z) (l : list (Z * OpenFile)) : option OpenFile :=
  match l with [] => None | (u, f) :: l => if u =? uid then Some f else user_get uid l end.
Definition user_set (uid : Z) (f : option OpenFile) (l : list (Z * OpenFile)) : list (Z * OpenFile) :=
  match f with
  | Some f => map (fun x => if x.1 =? uid then (uid, f) else x) l
  | None => filter (fun x => x.1 <> uid) l
  end.

Definition get_slot (s : Server) (i : slot) : option OpenFile :=
  match i with
  | RUNTIME => runtime_journal s
  | SYSTEM => system_journal s
  | USER uid => user_get uid (user_journals s)
  end.

Definition set_slot (i : slot) (f : option OpenFile) (s : Server) : Server :=
  match i with
  | RUNTIME => set_runtime_journal s f
  | SYSTEM => set_system_journal s f
  | USER uid => set_user_journals s (user_set uid f (user_journals s))
  end.

(** * The operations *)

Section Server.
Context (e : Env) (fuel : nat) (strftime : Z -> list Z) (ans : nat -> Answers).
Context (logdir rundir : list Z) (SYSTEM_UID_MAX : Z).
Context (proc : Proc) (self : ucred) (stale : nat -> iovec -> list Z).

Definition ask : W Answers := fun w => (Ok (ans (w_tick w)), mkHost (w_server w) (w_disk w) (S (w_tick w))).

(** A file in a directory; both directories and the one with a slash at its end. *)
Definition runtime_dir : list Z := rundir ++ txt "/log/".
Definition in_dir (dir name : list Z) : list Z := dir ++ (if endswith dir [47] then [] else [47]) ++ name.

Definition system_path : list Z := logdir ++ txt "/system.journal".
Definition runtime_path : list Z := runtime_dir ++ txt "system.journal".
Definition user_path (uid : Z) : list Z := logdir ++ txt "/user-" ++ format_u uid ++ txt ".journal".

(** What is left in the file of a handle; a file without a name is gone. *)
Definition close_journal (f : OpenFile) : W unit :=
  on_disk (fun d => match d !! of_path f with
                    | Some _ => <[of_path f := journal_file_close (of_file f)]> d
                    | None => d
                    end).

(** journal_file_open and journal_file_open_reliably with the metrics of the server. *)
Definition open_runtime (reliably : bool) (flags : Z) : W (OpenFile + Z) :=
  let* a := ask in
  let* s := server in
  fun w =>
    let '(r, m, d) :=
      if reliably
      then journal_file_open_reliably e strftime (an_open a) (an_open_again a) (an_rename a) (an_now a)
             runtime_path flags 416 (s_compress s) (Some (runtime_metrics s)) None (s_seqnum s) (w_disk w)
      else journal_file_open e (an_open a) runtime_path flags 416 (s_compress s) (Some (runtime_metrics s)) None
             (s_seqnum s) (w_disk w) in
    returned r (mkHost (set_runtime_metrics (w_server w) (default (runtime_metrics s) m)) d (w_tick w)).

Definition open_persistent (path : list Z) : W (OpenFile + Z) :=
  let* a := ask in
  let* s := server in
  fun w =>
    let '(r, m, d) :=
      journal_file_open_reliably e strftime (an_open a) (an_open_again a) (an_rename a) (an_now a)
        path (Z.lor O_RDWR O_CREAT) 416 (s_compress s) (Some (system_metrics s)) None (s_seqnum s) (w_disk w) in
    returned r (mkHost (set_system_metrics (w_server w) (default (system_metrics s) m)) d (w_tick w)).

(** Too many open: the first one is closed. *)
Fixpoint close_excess (l : list (Z * OpenFile)) : W (list (Z * OpenFile)) :=
  match l with
  | [] => wret []
  | (u, f) :: rest =>
      if (USER_JOURNALS_MAX <=? length l)%nat
      then do* close_journal f in close_excess rest
      else wret l
  end.

(** The slot of the journal for messages of a user. *)
Definition find_journal (uid : Z) : W (option slot) :=
  let* s := server in
  let system := match system_journal s with Some _ => Some SYSTEM | None => None end in
  match runtime_journal s with
  | Some _ => wret (Some RUNTIME)
  | None =>
      if uid <=? SYSTEM_UID_MAX then wret system else
      match user_get uid (user_journals s) with
      | Some _ => wret (Some (USER uid))
      | None =>
          let* rest := close_excess (user_journals s) in
          do* update (fun s => set_user_journals s rest) in
          let* r := open_persistent (user_path uid) in
          match r with
          | inr _ => wret system
          | inl f =>
              do* update (fun s => set_user_journals s (user_journals s ++ [(uid, f)])) in
              wret (Some (USER uid))
          end
      end
  end.

Definition do_rotate (i : slot) : W (unit + Z) :=
  let* s := server in
  match get_slot s i with
  | None => wret (inr EINVAL)
  | Some old =>
      let* a := ask in
      fun w =>
        let '(r, new, d) := journal_file_rotate e strftime (an_open a) (an_rename a) old (s_compress s) (w_disk w) in
        returned r (mkHost (set_slot i new (w_server w)) d (w_tick w))
  end.

Fixpoint rotate_all (l : list slot) : W unit :=
  match l with
  | [] => wret tt
  | i :: l => do* do_rotate i in rotate_all l
  end.

Definition server_rotate : W unit :=
  do* do_rotate RUNTIME in
  do* do_rotate SYSTEM in
  let* s := server in
  rotate_all (map USER (user_journals s).*1).

(** Setting a journal offline, whatever that returns. *)
Definition sync_slot (i : slot) : W unit :=
  update (fun s => match get_slot s i with
                   | Some f => set_slot i (Some (mkOpenFile (journal_file_set_offline (of_file f)).2 (of_path f) (of_flags f) (of_mode f))) s
                   | None => s
                   end).

Fixpoint sync_all (l : list slot) : W unit :=
  match l with
  | [] => wret tt
  | i :: l => do* sync_slot i in sync_all l
  end.

Definition server_sync : W unit :=
  let* s := server in
  if s_seqnum s <=? sync_seqnum s then wret tt else
  do* sync_slot SYSTEM in
  do* sync_all (map USER (user_journals s).*1) in
  let* a := ask in
  update (fun s => set_sync s (s_seqnum s) (an_monotonic a)).

Definition server_schedule_sync (priority : Z) : W unit :=
  if priority <=? LOG_CRIT then server_sync else wret tt.

(** The deleted names leave the disk. *)
Definition unlinked (dir : list Z) (names : list (list Z)) (d : Disk) : Disk :=
  foldr (fun name d => delete (in_dir dir name) d) d names.

Definition do_vacuum (sort : list vacuum_info -> list vacuum_info) (i : slot) (path : list Z) (max_use : Z) : W unit :=
  let* s := server in
  match get_slot s i with
  | None => wret tt
  | Some _ =>
      let* a := ask in
      let '(_, deleted, oldest) :=
        journal_directory_vacuum (an_names a) (an_unlink a) (an_now a) (an_directory a) (an_readdir a) sort
          max_use (max_retention_usec s) (oldest_file_usec s) in
      do* on_disk (unlinked path deleted) in
      update (fun s => set_oldest_file_usec s oldest)
  end.

Context (sort : list vacuum_info -> list vacuum_info).

Definition server_vacuum : W unit :=
  do* update (fun s => set_oldest_file_usec s 0) in
  let* s := server in
  do* do_vacuum sort SYSTEM logdir (max_use (system_metrics s)) in
  do* do_vacuum sort RUNTIME runtime_dir (max_use (runtime_metrics s)) in
  update (fun s => set_cached_available_space s (cached_available_space s) 0).

(** [r]: the errno; the comparison with +ESHUTDOWN is never true. *)
Definition shall_try_append_again (r : Z) : bool :=
  if (r =? E2BIG) || (r =? EFBIG) || (r =? EDQUOT) || (r =? ENOSPC) then true
  else if r =? EHOSTDOWN then true
  else if r =? EBUSY then true
  else if r =? EPROTONOSUPPORT then true
  else if (r =? EBADMSG) || (r =? ENODATA) || (- r =? ESHUTDOWN) then true
  else false.

(** What an item shows when it is written: one that points to the frame of a function
    that has returned shows what happens to be there. *)
Definition shown (t : nat) (it : iovec) : list Z :=
  if decide (iov_in it = RETURNED_FRAME) then stale t it else iov_base it.

(** journal_file_append_entry on a journal of the server; it asks for the time. *)
Definition append_to (i : slot) (items : list iovec) : W (Z + Z) :=
  let* s := server in
  match get_slot s i with
  | None => fun w => (Crash, w)
  | Some f => fun w =>
      let a := ans (w_tick w) in
      let '(r, f') := journal_file_append_entry e fuel (Some (an_now a, an_monotonic a))
        (map (shown (w_tick w)) items) true (set_ext_seqnum (of_file f) (s_seqnum s)) in
      let s := set_slot i (Some (mkOpenFile f' (of_path f) (of_flags f) (of_mode f))) (w_server w) in
      returned r (mkHost (set_seqnum s (jf_ext_seqnum f')) (w_disk w) (S (w_tick w)))
  end.

(** journal_file_rotate_suggested asks for the time. *)
Definition rotation_due (i : slot) : W bool :=
  let* s := server in
  let* a := ask in
  wret (match get_slot s i with
        | Some f => journal_file_rotate_suggested (of_file f) (max_file_usec s) (an_now a)
        | None => false
        end).

Definition rotate_and_find (uid : Z) : W (option slot) :=
  do* server_rotate in
  do* server_vacuum in
  find_journal uid.

(** The journal for the first try, and whether it has just been rotated. *)
Definition first_journal (uid : Z) : W (option (slot * bool)) :=
  let* f := find_journal uid in
  match f with
  | None => wret None
  | Some i =>
      let* due := rotation_due i in
      if due then (let* f := rotate_and_find uid in wret ((fun i => (i, true)) <$> f))
      else wret (Some (i, false))
  end.

Definition write_to_journal (realuid : Z) (items : list iovec) (priority : Z) : W unit :=
  if (length items =? 0)%nat then fun w => (Crash, w) else
  let uid := if 0 <? realuid then realuid else 0 in
  let* f := first_journal uid in
  match f with
  | None => wret tt
  | Some (i, vacuumed) =>
      let* r := append_to i items in
      match r with
      | inl _ => server_schedule_sync priority
      | inr er =>
          if vacuumed || negb (shall_try_append_again er) then wret tt else
          let* f := rotate_and_find uid in
          match f with
          | None => wret tt
          | Some i =>
              let* r := append_to i items in
              match r with
              | inl _ => server_schedule_sync priority
              | inr _ => wret tt
              end
          end
      end
  end.

(** [text]: the formatted message. *)
Definition server_driver_message (text : list Z) : W unit :=
  let* s := server in
  write_to_journal (uc_uid self)
    ([literal "PRIORITY=6"; literal "_TRANSPORT=driver";
      mkIovec FRAME (txt "MESSAGE=" ++ take (8 + SERVER_LINE_MAX) (cstring text))]
     ++ dispatch_message_real proc (Some self) ++ dispatch_message (s_boot_id s) (s_hostname s) None) LOG_INFO.

(** format_bytes: with one digit after the point, rounded down. *)
Fixpoint format_bytes_loop (l : list (String.string * Z)) (t : Z) : list Z :=
  match l with
  | [] => format_u t ++ txt "B"
  | (suffix, factor) :: l =>
      if factor <=? t
      then format_u (t / factor) ++ txt "." ++ format_u (u64 (t * 10) / factor mod 10) ++ txt suffix
      else format_bytes_loop l t
  end.

(** [t] is an off_t, written into FORMAT_BYTES_MAX bytes. *)
Definition FORMAT_BYTES_MAX : nat := 8.
Definition format_bytes (t : Z) : list Z :=
  take (FORMAT_BYTES_MAX - 1) (if 2 ^ 63 <=? t then format_u t ++ txt "B" else
  format_bytes_loop [("E"%string, 2 ^ 60); ("P"%string, 2 ^ 50); ("T"%string, 2 ^ 40); ("G"%string, 2 ^ 30);
                     ("M"%string, 2 ^ 20); ("K"%string, 2 ^ 10)] t).

(** The files counted as used space. *)
Definition used_space (l : list (list Z * option (bool * Z))) : Z :=
  foldl (fun sum x =>
    if endswith x.1 dot_journal || endswith x.1 dot_journal_tilde
    then match x.2 with Some (true, blocks) => u64 (sum + u64 (blocks * 512)) | _ => sum end
    else sum) 0 l.

Definition LESS_BY (a b : Z) : Z := if b <? a then a - b else 0.

Definition available_space (verbose : bool) : W Z :=
  let* s := server in
  let* a := ask in
  if (an_monotonic a <? u64 (cached_available_space_timestamp s + RECHECK_AVAILABLE_SPACE_USEC)) && negb verbose
  then wret (cached_available_space s) else
  match an_space a with
  | None => wret 0
  | Some (bsize, bavail, files, readdir) =>
      if negb (readdir =? 0) then wret 0 else
      let permanent := match system_journal s with Some _ => true | None => false end in
      let m := if permanent then system_metrics s else runtime_metrics s in
      let sum := used_space files in
      let ss_avail := u64 (bsize * bavail) in
      let m' := if min_use m <? sum then mkMetrics (max_size m) (min_size m) (max_use m) sum (keep_free m) else m in
      let avail := LESS_BY ss_avail (keep_free m') in
      let space := LESS_BY (Z.min (max_use m') avail) sum in
      do* update (fun s => set_cached_available_space
                    (if permanent then set_system_metrics s m' else set_runtime_metrics s m') space (an_monotonic a)) in
      do* (if verbose then
             server_driver_message
               (txt (if permanent then "Permanent" else "Runtime") ++ txt " journal is using " ++ format_bytes sum
                ++ txt " (max allowed " ++ format_bytes (max_use m') ++ txt ", trying to leave "
                ++ format_bytes (keep_free m') ++ txt " free of " ++ format_bytes ss_avail ++ txt " available "
                ++ [226; 134; 146] ++ txt " current limit " ++ format_bytes (u64 (space + sum)) ++ txt ").")
           else wret tt) in
      let* s := server in
      wret (cached_available_space s)
  end.

Definition server_dispatch_message (items : list iovec) (uc : option ucred) (tv : option timeval) (priority : Z) : W unit :=
  if (length items =? 0)%nat then wret tt else
  let* s := server in
  if max_level_store s <? LOG_PRI priority then wret tt else
  let finish (realuid : Z) : W unit :=
    let* s := server in
    write_to_journal realuid (items ++ dispatch_message (s_boot_id s) (s_hostname s) tv) priority in
  match uc with
  | None => finish 0
  | Some c =>
      let* space := available_space false in
      let* a := ask in
      let* s := server in
      let '(rl, limit) := journal_rate_limit_test (s_rate_limit s) (Z.land priority LOG_PRIMASK) space (an_monotonic a) in
      do* update (fun s => set_rate_limit s limit) in
      if rl =? 0 then wret tt else
      do* (if 1 <? rl
           then server_driver_message (txt "Suppressed " ++ format_u (rl - 1) ++ txt " messages from uid " ++ format_u (uc_uid c))
           else wret tt) in
      finish (uc_uid c)
  end.

(** The calls by which the readers of messages act on the server; the forwarding ones do
    not touch the journals. *)
Definition perform (c : call) : W unit :=
  match c with
  | SERVER_DISPATCH_MESSAGE items _ uc tv priority => server_dispatch_message items uc tv priority
  | SERVER_DRIVER_MESSAGE text => server_driver_message text
  | _ => wret tt
  end.

End Server.

#[local] Open Scope server_scope.

Definition EROFS := 30.

Section Main.
Context (e : Env) (fuel : nat) (strftime : Z -> list Z) (ans : nat -> Answers).
Context (logdir rundir : list Z) (SYSTEM_UID_MAX : Z).
Context (proc : Proc) (self : ucred) (stale : nat -> iovec -> list Z).
Context (sort : list vacuum_info -> list vacuum_info).

#[local] Abbreviation ask := (ask ans).
#[local] Abbreviation server_rotate := (server_rotate e strftime ans).
#[local] Abbreviation server_vacuum := (server_vacuum ans logdir rundir sort).
#[local] Abbreviation server_sync := (server_sync ans).
#[local] Abbreviation server_driver_message :=
  (server_driver_message e fuel strftime ans logdir rundir SYSTEM_UID_MAX proc self stale sort).
#[local] Abbreviation available_space :=
  (available_space e fuel strftime ans logdir rundir SYSTEM_UID_MAX proc self stale sort).

(** The result of system_journal_open: the errno of the runtime journal if that is what
    is needed and cannot be opened. *)
Definition system_journal_open : W (unit + Z) :=
  let* s := server in
  do* match system_journal s with
      | Some _ => wret tt
      | None =>
          let* a := ask in
          if an_access a then
            let* r := open_persistent e strftime ans (system_path logdir) in
            match r with
            | inl f => update (fun s => set_system_journal s (Some f))
            | inr _ => wret tt
            end
          else wret tt
      end in
  let* s := server in
  let* r :=
    match runtime_journal s with
    | Some _ => wret (inl tt)
    | None =>
        match system_journal s with
        | Some _ =>
            let* r := open_runtime e strftime ans rundir false O_RDWR in
            match r with
            | inl f => do* update (fun s => set_runtime_journal s (Some f)) in wret (inl tt)
            | inr _ => wret (inl tt)
            end
        | None =>
            let* r := open_runtime e strftime ans rundir true (Z.lor O_RDWR O_CREAT) in
            match r with
            | inl f => do* update (fun s => set_runtime_journal s (Some f)) in wret (inl tt)
            | inr er => wret (inr er)
            end
        end
    end in
  match r with
  | inr er => wret (inr er)
  | inl _ => do* available_space true in wret (inl tt)
  end.

(** journal_file_copy_entry to the system journal: what it returns, and the file that
    is read. *)
Definition copy_to_system (from : JournalFile) (p : Z) : W ((Z + Z) * JournalFile) := fun w =>
  match system_journal (w_server w) with
  | None => (Crash, w)
  | Some h =>
      let '(r, from, to) := journal_file_copy_entry e fuel p false from (of_file h) in
      wbind (returned r) (fun r => wret (r, from))
        (mkHost (set_system_journal (w_server w) (Some (mkOpenFile to (of_path h) (of_flags h) (of_mode h)))) (w_disk w) (w_tick w))
  end.

(** The copies of one entry: the result for the loop, [inr] to leave it. *)
Definition flush_entry (from : JournalFile) (p : Z) : W ((unit + Z) * JournalFile) :=
  let* c := copy_to_system from p in
  let '(r, from) := c in
  match r with
  | inl _ => wret (inl tt, from)
  | inr er =>
      if negb (shall_try_append_again er) then wret (inr er, from) else
      do* server_rotate in
      do* server_vacuum in
      let* s := server in
      match system_journal s with
      | None => wret (inr EIO, from)
      | Some _ =>
          let* c := copy_to_system from p in
          let '(r, from) := c in
          match r with
          | inl _ => wret (inl tt, from)
          | inr er => wret (inr er, from)
          end
      end
  end.

(** The reader with the handle of one of its files changed. *)
Definition put_file (path : list Z) (f : JournalFile) (j : sd_journal) : sd_journal :=
  set_files j (update_file path (fun fs => set_handle fs f) (j_files j)).

Context (getpid : Z).

(** SD_JOURNAL_FOREACH, which ends at an error of sd_journal_next as at the end.  The
    result and the number of entries. *)
Fixpoint flush_loop (n : nat) (count : Z) (j : sd_journal) : W ((unit + Z) * Z) :=
  match n with
  | O => fun w => (NoFuel, w)
  | S n =>
      match sd_journal_next e fuel getpid j with
      | (Crash, _) => fun w => (Crash, w)
      | (NoFuel, _) => fun w => (NoFuel, w)
      | (Err _, _) => wret (inl tt, count)
      | (Ok v, j) =>
          if v <=? 0 then wret (inl tt, count) else
          match j_current_file j with
          | None => fun w => (Crash, w)
          | Some path =>
              match find_file path (j_files j) with
              | None => fun w => (Crash, w)
              | Some fs =>
                  let p := fs_current_offset fs in
                  if p <=? 0 then fun w => (Crash, w) else
                  let count := u32 (count + 1) in
                  match journal_file_move_to_object e OBJECT_ENTRY p (fs_file fs) with
                  | (Ok o, f) =>
                      let* c := flush_entry f o in
                      match c with
                      | (inl _, f) => flush_loop n count (put_file path f j)
                      | (inr er, f) => wret (inr er, count)
                      end
                  | (Err er, _) => wret (inr er, count)
                  | (Crash, _) => fun w => (Crash, w)
                  | (NoFuel, _) => fun w => (NoFuel, w)
                  end
              end
          end
      end
  end.

(** [reader]: what sd_journal_open_directory gives for the runtime directory. *)
Context (reader : Host -> sd_journal + Z).

(** The label finish: the journals are put in order, and the runtime directory removed
    if all went well. *)
Definition flush_finish (r : unit + Z) : W unit :=
  let* s := server in
  match system_journal s, runtime_journal s with
  | Some h, Some f =>
      do* update (fun s => set_system_journal s
            (Some (mkOpenFile (journal_file_post_change (of_file h)) (of_path h) (of_flags h) (of_mode h)))) in
      do* close_journal f in
      do* update (fun s => set_runtime_journal s None) in
      match r with
      | inl _ => on_disk (filter (fun x => startswith x.1 (runtime_dir rundir) = false))
      | inr _ => wret tt
      end
  | _, _ => fun w => (Crash, w)
  end.

Definition server_flush_to_var (n : nat) : W (unit + Z) :=
  let* s := server in
  match runtime_journal s with
  | None => wret (inl tt)
  | Some _ =>
      do* system_journal_open in
      let* s := server in
      match system_journal s with
      | None => wret (inl tt)
      | Some _ =>
          let* a := ask in
          let* opened := (fun w => (Ok (reader w), w)) in
          match opened with
          | inr er => wret (inr er)
          | inl j =>
              let* c :=
                match (sd_journal_set_data_threshold getpid 0 ~;; sd_journal_seek_head getpid) j with
                | (Ok v, j) => if v <? 0 then wret (inl tt, 0) else flush_loop n 0 j
                | (Err _, j) => wret (inl tt, 0)
                | (Crash, _) => fun w => (Crash, w)
                | (NoFuel, _) => fun w => (NoFuel, w)
                end in
              let '(r, count) := c in
              do* flush_finish r in
              let* a' := ask in
              let span := match format_timespan FORMAT_TIMESPAN_MAX (u64 (an_monotonic a' - an_monotonic a)) 0 with
                          | Ok (Some s) => s | _ => txt "(null)" end in
              do* server_driver_message (txt "Time spent on flushing to /var is " ++ span ++ txt " for " ++ format_u count ++ txt " entries.") in
              wret r
          end
      end
  end.

(** * Signals *)

Definition dispatch_sigusr1 (n : nat) : W unit := do* server_flush_to_var n in server_sync.
Definition dispatch_sigusr2 : W unit := do* server_rotate in server_vacuum.
Definition dispatch_sigterm : W unit :=
  update (fun s => if decide (s_state s = SERVER_RUNNING) then set_state s SERVER_EXITING else s).

(** * The main loop *)

(** One turn; [server_run]: handling the events that are there, whose error ends the
    loop.  [true]: the loop goes on. *)
Definition main_turn (server_run : W (unit + Z)) : W (bool + Z) :=
  let* a := ask in
  let* s := server in
  let n := an_now a in
  if (0 <? max_retention_usec s) && (0 <? oldest_file_usec s)
     && (u64 (oldest_file_usec s + max_retention_usec s) <? n)
  then do* server_rotate in do* server_vacuum in wret (inl true)
  else
    let* r :=
      if decide (s_state s = SERVER_EXITING) then do* update (fun s => set_state s SERVER_FINISHED) in wret (inl tt)
      else server_run in
    match r with
    | inr er => wret (inr er)
    | inl _ =>
        let* s := server in
        do* (if n <? u64 (sync_time s + sync_interval_usec s) then server_sync else wret tt) in
        let* s := server in
        wret (inl (negb (bool_decide (s_state s = SERVER_FINISHED))))
    end.

Fixpoint close_all (l : list (Z * OpenFile)) : W unit :=
  match l with
  | [] => wret tt
  | (_, f) :: l => do* close_journal f in close_all l
  end.

Definition server_done : W unit :=
  let* s := server in
  do* match system_journal s with Some f => close_journal f | None => wret tt end in
  do* match runtime_journal s with Some f => close_journal f | None => wret tt end in
  close_all (user_journals s).

End Main.

(** * The kernel's command line *)

(** The switches [forward_to_syslog] and [forward_to_console] after a word; [behind]:
    the bytes behind its terminator. *)
Definition cmdline_word (behind word : list Z) (switches : bool * bool) : bool * bool :=
  if startswith word (txt "journald.forward_to_syslog=") then
    match parse_bool (Some (drop 35 (word ++ 0 :: behind))) with Some b => (b, switches.2) | None => switches end
  else if startswith word (txt "journald.forward_to_console=") then
    match parse_bool (Some (drop 36 (word ++ 0 :: behind))) with Some b => (switches.1, b) | None => switches end
  else switches.

Definition server_parse_proc_cmdline (behind : list Z -> list Z) (line : list Z) (switches : bool * bool) : bool * bool :=
  foldl (fun sw word => cmdline_word (behind word) word sw) switches (words line [32; 9; 10; 13] true).
