(* ===== verification/ServerStore.v ===== *)
(** The journals of the server as logs under their paths: what rotating, vacuuming,
    syncing and appending do to them, as events. *)
From S2P Require Import Prelude Lookup3 CString Numbers Vacuum Memory JournalDef JournalFile Metrics RateLimit ObjectLemmas ArenaProofs.
From S2P Require Import HeaderProofs HashTableProofs DataProofs StoreProofs StoreOps JournalSeek BisectProofs ArraySearch.
From S2P Require Import JournalEntries JournalSamples StoreSpec StoreSamples EntryArrayProofs JournalInv.
From S2P Require Import JournalAppend JournalSpec JournalOpen JournalOpenProofs JournalLog JournalLogSpec Daemon Server.

(** * How often an object can be listed, by the size of the file *)

Fixpoint sizes (objs : list (Z * Z * Z)) : Z :=
  match objs with [] => 0 | (_, _, s) :: objs => s + sizes objs end.

Lemma sizes_app a b : sizes (a ++ b) = sizes a + sizes b.
Proof. induction a as [|[[? ?] ?] a IH]; simpl; lia. Qed.

Lemma sizes_perm a b : a ≡ₚ b -> sizes a = sizes b.
Proof. induction 1 as [|[[? ?] ?]|[[? ?] ?] [[? ?] ?]|]; simpl; lia. Qed.

Lemma objects_from_sizes f p objs end_ : objects_from f p objs end_ -> p + sizes objs <= end_ /\ Forall (fun o => 0 <= o.2) objs.
Proof.
  revert p. induction objs as [|[[a ty] s] objs IH]; intros p; simpl; [by split; [lia|]|].
  intros (-> & Ho & Hr). apply IH in Hr as [? ?]. apply object_ALIGN64 in Ho. split; [lia|]. constructor; [simpl; lia|done].
Qed.

Definition array_objects (arrs : list (Z * Z)) : list (Z * Z * Z) :=
  map (fun x => (x.1, OBJECT_ENTRY_ARRAY, entry_array_items + 8 * x.2)) arrs.

Lemma array_objects_sizes arrs : 8 * caps arrs <= sizes (array_objects arrs).
Proof. induction arrs as [|[b k] arrs IH]; simpl; unfold entry_array_items in *; lia. Qed.

Lemma arena_caps f objs end_ a arrs : arena f objs end_ -> echain f objs a arrs -> 8 * caps arrs <= end_ - 240.
Proof.
  intros Har [_ Hin Hnd]. destruct (objects_from_sizes _ _ _ _ (ar_objects _ _ _ Har)) as [Hs Hpos].
  pose proof (ar_header _ _ _ Har). pose proof (array_objects_sizes arrs).
  assert (array_objects arrs ⊆+ objs) as Hsub.
  { apply NoDup_submseteq.
    - apply (NoDup_fmap_1 (fun o : Z * Z * Z => o.1.1)). unfold array_objects. rewrite <- list_fmap_compose. exact Hnd.
    - intros o (x & -> & Hx)%list_elem_of_fmap. destruct x as [b k]. by apply Hin. }
  apply submseteq_Permutation in Hsub as (rest & Hp). pose proof (sizes_perm _ _ Hp) as E. rewrite sizes_app in E.
  assert (Forall (fun o : Z * Z * Z => 0 <= o.2) rest) as Hrest.
  { rewrite Hp in Hpos. by apply Forall_app in Hpos as [_ ?]. }
  assert (0 <= sizes rest) as Hr0. { clear -Hrest. induction Hrest as [|[[? ?] ?] l Hx _ IH]; simpl in *; lia. }
  lia.
Qed.

(** No object is listed more often than this. *)
Definition crowd (f : JournalFile) : Z := jf_last_size f / 8.

Lemma journal_crowd e f objs end_ dch fch N A :
  journal e f objs end_ dch fch N A -> journal e f objs end_ dch fch (crowd f) A.
Proof.
  intros [J1 J2 J3 J4 J5]. pose proof (st_arena _ _ _ _ _ _ J1) as Har. split; try done.
  intros c Hl. destruct (J3 c Hl) as [Hc Hcount _]. split; [done|done|].
  pose proof (arena_caps _ _ _ _ _ Har Hc). pose proof (ar_end _ _ _ Har). pose proof (ar_arena _ _ _ Har).
  pose proof (ar_header _ _ _ Har). pose proof (objects_from_le _ _ _ _ (ar_objects _ _ _ Har)).
  assert (caps (A c) + 1 <= crowd f) by (unfold crowd; apply Z.div_le_lower_bound; lia).
  unfold inline_entries in Hcount. destruct (c =? 0); lia.
Qed.

(** The handle [f] is the log [l]. *)
Definition holds (e : Env) (f : JournalFile) (l : list logged) : Prop := logs e f (crowd f) l.

Lemma logs_holds e f N l : logs e f N l -> holds e f l.
Proof. intros (objs & end_ & dch & fch & A & [L1 L2 L3 L4]). exists objs, end_, dch, fch, A. split; try done. by eapply journal_crowd. Qed.

Definition keeps (e : Env) (file : mem * Z) (l : list logged) : Prop := exists N, file_logs e file N l.

(** Counters and sizes of a handle that only differ in what the log does not depend on. *)
Lemma holds_same e f g l : same_file f g -> writable g -> holds e f l -> holds e g l.
Proof. intros Hs Hw Hl. eapply logs_holds, logs_moved; [exact Hs|exact Hw|exact Hl]. Qed.

Lemma holds_ext e f l n : holds e f l -> holds e (set_ext_seqnum f n) l.
Proof.
  intros Hl. destruct (logs_arena _ _ _ _ Hl) as (objs & end_ & Har & [? ? ? ?]).
  pose proof (ar_arena _ _ _ Har). pose proof (ar_size _ _ _ Har).
  apply (holds_same e f); [|by split|exact Hl].
  split; cbn [set_ext_seqnum jf_mem jf_last_size jf_size jf_data_hash_table jf_field_hash_table]; try done; try lia. apply Har.
Qed.

(** * Paths *)

Section Paths.
Context (strftime : Z -> list Z) (logdir rundir : list Z).

Definition slot_path (i : slot) : list Z :=
  match i with
  | RUNTIME => runtime_path rundir
  | SYSTEM => system_path logdir
  | USER uid => user_path logdir uid
  end.

Definition uid_ok (uid : Z) : Prop := 0 <= uid < 2 ^ 32.
Definition slot_ok (i : slot) : Prop := match i with USER uid => uid_ok uid | _ => True end.

(** Neither directory is in the other one, nor the same. *)
Definition dirs_apart : Prop := forall x y, runtime_dir rundir ++ x <> logdir ++ 47 :: y.

(** The name of a persistent journal without its directory and its last eight characters. *)
Definition slot_name (i : slot) : list Z :=
  match i with USER uid => txt "user-" ++ format_u uid | _ => txt "system" end.
Definition slot_dir (i : slot) : list Z := match i with RUNTIME => runtime_dir rundir | _ => logdir ++ [47] end.

Lemma slot_path_eq i : slot_path i = slot_dir i ++ slot_name i ++ dot_journal.
Proof. destruct i; unfold slot_path, runtime_path, system_path, user_path, slot_dir, slot_name; rewrite <- ?app_assoc; reflexivity. Qed.

Lemma slot_path_journal i : endswith (slot_path i) dot_journal = true.
Proof.
  rewrite slot_path_eq, app_assoc. unfold endswith. rewrite length_app. simpl (length dot_journal).
  rewrite Nat.add_sub, drop_app_length. apply andb_true_iff. split; [by apply bool_decide_eq_true|]. apply Nat.leb_le. lia.
Qed.

Lemma replaced_slot i t suffix :
  replaced_name strftime (slot_path i) t suffix = slot_dir i ++ slot_name i ++ 45 :: format_timestamp_short strftime t ++ suffix.
Proof.
  unfold replaced_name. rewrite slot_path_eq, app_assoc, length_app. simpl (length dot_journal).
  rewrite Nat.add_sub, take_app_length. by rewrite <- app_assoc.
Qed.

Lemma digits_split a b c d x y :
  forallb is_digit a = true -> forallb is_digit b = true -> is_digit c = false -> is_digit d = false ->
  a ++ c :: x = b ++ d :: y -> a = b /\ c = d.
Proof.
  revert b. induction a as [|u a IH]; intros [|v b] Ha Hb Hc Hd E; simpl in *.
  - by injection E.
  - injection E as -> _. apply andb_prop in Hb as [Hb _]. congruence.
  - injection E as <- _. apply andb_prop in Ha as [Ha _]. congruence.
  - injection E as -> E. apply andb_prop in Ha as [_ Ha]. apply andb_prop in Hb as [_ Hb].
    destruct (IH b Ha Hb Hc Hd E) as [-> ->]. done.
Qed.

Lemma format_u_ok uid : uid_ok uid -> forallb is_digit (format_u uid) = true /\ digits_from 0 (format_u uid) = uid.
Proof.
  intros H. unfold uid_ok in H. destruct (decimal_ok 20 uid) as (? & ? & _); [|done].
  split; [lia|]. eapply Z.lt_trans; [apply H|]. reflexivity.
Qed.

(** The names in a directory, followed by something that is no digit. *)
Lemma slot_name_split i j c d x y : slot_ok i -> slot_ok j -> is_digit c = false -> is_digit d = false ->
  slot_name i ++ c :: x = slot_name j ++ d :: y -> slot_name i = slot_name j /\ c = d.
Proof.
  intros Hi Hj Hc Hd. destruct i as [| |u], j as [| |v]; cbn [slot_name]; intros E;
    try (change (txt "system") with [115; 121; 115; 116; 101; 109] in *; change (txt "user-") with [117; 115; 101; 114; 45] in *;
         cbn [app] in E; (discriminate E || (injection E as Ec _; by split))).
  change (txt "user-") with [117; 115; 101; 114; 45] in *. cbn [app] in E. injection E as E.
  destruct (digits_split _ _ _ _ _ _ (proj1 (format_u_ok _ Hi)) (proj1 (format_u_ok _ Hj)) Hc Hd E) as [-> ->]. done.
Qed.

Lemma slot_names i j : slot_ok i -> slot_ok j -> i <> RUNTIME -> j <> RUNTIME -> slot_name i = slot_name j -> i = j.
Proof.
  intros Hi Hj Hi' Hj' E. destruct i as [| |u], j as [| |v]; try done. f_equal. cbn [slot_name] in E. apply app_inv_head in E.
  by rewrite <- (proj2 (format_u_ok _ Hi)), E, (proj2 (format_u_ok _ Hj)).
Qed.

Hypothesis (Hdirs : dirs_apart).

Lemma slot_dirs i j x y : slot_dir i ++ x = slot_dir j ++ y -> slot_dir i = slot_dir j /\ x = y /\ (i = RUNTIME <-> j = RUNTIME).
Proof.
  destruct i, j; cbn [slot_dir]; rewrite <- ?app_assoc; intros E;
    try (by exfalso; apply (Hdirs _ _ E)); try (by exfalso; apply (Hdirs _ _ (eq_sym E)));
    (split; [done|]; split; [|done]); try (by apply app_inv_head in E); apply app_inv_head in E; by injection E.
Qed.

Lemma slot_path_inj i j : slot_ok i -> slot_ok j -> slot_path i = slot_path j -> i = j.
Proof.
  intros Hi Hj E. rewrite !slot_path_eq in E. apply slot_dirs in E as (_ & E & Hr).
  destruct (slot_name_split i j 46 46 _ _ Hi Hj eq_refl eq_refl E) as [En _].
  destruct (decide (i = RUNTIME)) as [->|Hn]; [symmetry; by apply Hr|]. apply slot_names; try done. by intros ->%Hr.
Qed.

(** No file that is moved away gets the name of a journal. *)
Lemma replaced_not_slot i j t suffix : slot_ok i -> slot_ok j ->
  replaced_name strftime (slot_path i) t suffix <> slot_path j.
Proof.
  intros Hi Hj E. rewrite replaced_slot, slot_path_eq in E. apply slot_dirs in E as (_ & E & _).
  destruct (slot_name_split i j 45 46 _ _ Hi Hj eq_refl eq_refl E) as [_ [=]].
Qed.

End Paths.

(** * What vacuuming deletes *)

Definition tilde (name : list Z) : Prop := endswith name dot_journal_tilde = true.

(** The directory as the vacuum finds it: the files cannot be opened by their bare names,
    since the working directory is another one, and the names stay readable. *)
Definition directory_ok (a : Answers) : Prop :=
  forall l, an_directory a = inl l ->
    Forall (fun de => endswith (d_name de) dot_journal = true -> d_journal de = None) l
    /\ forall i de, l !! i = Some de -> an_names a i = d_name de.

Section Vacuumed.
Context (names : nat -> list Z) (unlink : list Z -> Z).

Definition scan_tilde (s : scan) : Prop :=
  Forall tilde (sc_deleted s) /\ Forall (fun v => tilde (names (vi_filename v))) (sc_list s).

Lemma vacuum_entry_tilde i de s :
  (endswith (d_name de) dot_journal = true -> d_journal de = None) -> names i = d_name de ->
  scan_tilde s -> scan_tilde (vacuum_entry unlink i de s).
Proof.
  intros Hj Hn [H1 H2]. unfold vacuum_entry. destruct (d_stat de) as [[[reg blocks] mtime]|]; [|done].
  destruct (negb reg); [done|]. destruct (endswith (d_name de) dot_journal); [by rewrite Hj|].
  destruct (endswith (d_name de) dot_journal_tilde) eqn:E; [|done].
  destruct (negb _).
  - destruct (_ =? 0); [|done]. split; [|done]. apply Forall_app_2; [done|]. by repeat constructor.
  - split; [done|]. apply Forall_app_2; [done|]. repeat constructor. cbn. by rewrite Hn.
Qed.

Lemma vacuum_scan_tilde l : forall i s,
  Forall (fun de => endswith (d_name de) dot_journal = true -> d_journal de = None) l ->
  (forall k de, l !! k = Some de -> names (i + k)%nat = d_name de) -> scan_tilde s -> scan_tilde (vacuum_scan unlink i l s).
Proof.
  induction l as [|de l IH]; intros i s Hl Hn Hs; [done|]. apply Forall_cons in Hl as [Hd Hl]. cbn [vacuum_scan]. apply IH; [done|..].
  - intros k de' Hk. rewrite <- (Hn (S k) de' Hk). f_equal. lia.
  - apply vacuum_entry_tilde; [done| |done]. rewrite <- (Hn 0%nat de eq_refl). f_equal. lia.
Qed.

Lemma vacuum_loop_tilde ret limit use l : forall sum freed,
  Forall (fun v => tilde (names (vi_filename v))) l -> Forall tilde (vacuum_loop names unlink ret limit use l sum freed).1.1.
Proof.
  induction l as [|v l IH]; intros sum freed Hl; [constructor|]. apply Forall_cons in Hl as [Hv Hl]. cbn [vacuum_loop].
  destruct (_ && _); [constructor|]. destruct (_ =? 0); [|by apply IH].
  specialize (IH (if vi_usage v <? sum then sum - vi_usage v else 0) (u64 (freed + vi_usage v)) Hl).
  destruct (vacuum_loop _ _ _ _ _ _ _ _) as [[del rest] fr]. by constructor.
Qed.

Lemma vacuum_tilde now dir readdir sort use ret oldest :
  (forall x : list vacuum_info, Permutation x (sort x)) ->
  (forall l, dir = inl l -> Forall (fun de => endswith (d_name de) dot_journal = true -> d_journal de = None) l
    /\ forall i de, l !! i = Some de -> names i = d_name de) ->
  Forall tilde (journal_directory_vacuum names unlink now dir readdir sort use ret oldest).1.2.
Proof.
  intros Hsort Hdir. unfold journal_directory_vacuum. destruct (_ && _); [constructor|].
  destruct (if 0 <? ret then _ else _) as [ret' limit]. destruct dir as [l|errno]; [|constructor].
  destruct (Hdir l eq_refl) as [Hl Hn].
  destruct (vacuum_scan_tilde l 0 (mkScan [] 0 0 []) Hl Hn) as [Hd Hv]; [by split|]. set (s := vacuum_scan _ _ _ _) in *. clearbody s.
  destruct (negb _); [done|].
  assert (Forall (fun v => tilde (names (vi_filename v))) (if (0 <? length (sc_list s))%nat then sort (sc_list s) else sc_list s)) as Hs.
  { destruct (_ <? _)%nat; [|done]. eapply Permutation_Forall; [apply Hsort|done]. }
  pose proof (vacuum_loop_tilde ret' limit use _ (sc_sum s) (sc_freed s) Hs) as Hloop.
  destruct (vacuum_loop _ _ _ _ _ _ _ _) as [[del rest] fr]. cbn in *. by apply Forall_app_2.
Qed.

End Vacuumed.

(** * Handles *)

Lemma user_get_set uid f l uid' : is_Some (user_get uid l) ->
  user_get uid' (user_set uid f l) = if decide (uid' = uid) then f else user_get uid' l.
Proof.
  assert (user_get uid (user_set uid None l) = None) as Hnone.
  { simpl. induction l as [|[u g] l IH]; [done|]. rewrite filter_cons. simpl. destruct (decide (u <> uid)) as [Hne|]; [|done].
    simpl. by rewrite (proj2 (Z.eqb_neq _ _) Hne). }
  destruct (decide (uid' = uid)) as [->|Hne]; intros Hs.
  - destruct f as [g|]; [|exact Hnone]. clear Hnone. destruct Hs as [h Hs]. revert Hs. induction l as [|[u k] l IH]; [done|]. simpl.
    destruct (Z.eqb_spec u uid) as [->|Hu]; simpl; [by rewrite Z.eqb_refl|]. by rewrite (proj2 (Z.eqb_neq _ _) Hu).
  - clear Hs Hnone. destruct f as [g|]; simpl.
    + induction l as [|[u k] l IH]; [done|]. simpl. destruct (Z.eqb_spec u uid) as [->|Hu]; simpl.
      * by rewrite (proj2 (Z.eqb_neq uid uid')) by congruence.
      * by rewrite IH.
    + induction l as [|[u k] l IH]; [done|]. rewrite filter_cons. simpl. destruct (decide (u <> uid)) as [Hu|Hu]; simpl.
      * by rewrite IH.
      * assert (u = uid) as -> by lia. by rewrite (proj2 (Z.eqb_neq uid uid')) by congruence.
Qed.

Lemma get_set_slot s i f j : is_Some (get_slot s i) -> get_slot (set_slot i f s) j = if decide (j = i) then f else get_slot s j.
Proof.
  intros Hs. destruct (decide (j = i)) as [->|Hne].
  - destruct i; cbn in *; [done..|]. rewrite user_get_set by done. by rewrite decide_True.
  - destruct i, j; cbn in *; try done. rewrite user_get_set by done. rewrite decide_False by congruence. done.
Qed.

Lemma set_slot_same s i f s' : set_slot i f s = s' ->
  s_seqnum s' = s_seqnum s /\ sync_seqnum s' = sync_seqnum s /\ s_compress s' = s_compress s
  /\ max_file_usec s' = max_file_usec s /\ oldest_file_usec s' = oldest_file_usec s.
Proof. intros <-. by destruct i. Qed.

(** * Events *)

(** What happens to the logs: one gets another name, replacing what is there, and maybe a
    new one is begun in its place; one gets another entry; one is deleted. *)
Inductive event :=
| ROTATED (p q : list Z) (begun : bool)
| WRITTEN (p : list Z) (x : logged)
| DELETED (p : list Z).

Abbreviation Logs := (gmap (list Z) (list logged)).

Definition happen (L : Logs) (ev : event) : Logs :=
  match ev with
  | ROTATED p q begun =>
      match L !! p with
      | Some l => let L := <[q := l]> (delete p L) in if begun then <[p := []]> L else L
      | None => L
      end
  | WRITTEN p x => alter (fun l => l ++ [x]) p L
  | DELETED p => delete p L
  end.

Definition play (evs : list event) (L : Logs) : Logs := foldl happen L evs.

Lemma play_app a b L : play (a ++ b) L = play b (play a L).
Proof. apply foldl_app. Qed.

(** A log that is lost: it is deleted, or another one gets its name. *)
Definition lost (evs : list event) (L : Logs) (l : list logged) : Prop :=
  exists before ev after q l', evs = before ++ ev :: after /\ play before L !! q = Some (l ++ l')
    /\ (ev = DELETED q \/ exists p begun, ev = ROTATED p q begun).

(** Every other log is still there, under some name and maybe with more entries. *)
Lemma play_keeps evs : forall L p l, L !! p = Some l -> (exists q l', play evs L !! q = Some (l ++ l')) \/ lost evs L l.
Proof.
  induction evs as [|ev evs IH]; intros L p l Hl; [left; exists p, []; by rewrite app_nil_r|].
  change (play (ev :: evs) L) with (play evs (happen L ev)).
  assert ((exists q l', happen L ev !! q = Some (l ++ l')) \/ ev = DELETED p \/ exists p' begun, ev = ROTATED p' p begun) as [(q & l' & Hq)|Hev].
  { destruct ev as [p1 q1 b|p1 x|p1]; cbn [happen].
    - destruct (decide (p = q1)) as [->|Hne]; [eauto|]. left. destruct (L !! p1) as [l1|] eqn:E1; [|exists p, []; by rewrite app_nil_r].
      destruct (decide (p = p1)) as [->|Hp].
      + exists q1, []. rewrite app_nil_r. assert (l1 = l) as -> by congruence. destruct b; [rewrite lookup_insert_ne by done|]; apply lookup_insert_eq.
      + exists p, []. rewrite app_nil_r. destruct b; [rewrite lookup_insert_ne by done|]; by rewrite lookup_insert_ne, lookup_delete_ne by done.
    - left. destruct (decide (p = p1)) as [->|Hp]; [exists p1, [x]; by rewrite lookup_alter_eq, Hl|].
      exists p, []. rewrite app_nil_r. by rewrite lookup_alter_ne by done.
    - destruct (decide (p = p1)) as [->|Hp]; [auto|]. left. exists p, []. rewrite app_nil_r. by rewrite lookup_delete_ne. }
  - destruct (IH _ _ _ Hq) as [(q' & l'' & H)|(before & ev' & after & q' & l'' & -> & H & Hev)].
    + left. exists q', (l' ++ l''). by rewrite app_assoc.
    + right. exists (ev :: before), ev', after, q', (l' ++ l''). rewrite app_assoc. done.
  - right. exists [], ev, evs, p, []. rewrite app_nil_r. done.
Qed.

(** * The server's journals and the logs *)

Section Stored.
Context (e : Env) (strftime : Z -> list Z) (ans : nat -> Answers) (logdir rundir : list Z).
#[local] Abbreviation slot_path := (slot_path logdir rundir).

Record journals_stored (s : Server) (d : Disk) (L : Logs) : Prop := {
  so_open : forall i h, get_slot s i = Some h ->
    slot_ok i /\ of_path h = slot_path i /\ Z.land (of_flags h) O_ACCMODE = O_RDWR /\ is_Some (d !! slot_path i)
    /\ exists l, L !! slot_path i = Some l /\ holds e (of_file h) l;
  so_closed : forall p l, L !! p = Some l -> (forall i, is_Some (get_slot s i) -> slot_path i <> p) ->
    exists file, d !! p = Some file /\ keeps e file l }.

Definition stored_in (w : Host) (L : Logs) : Prop := journals_stored (w_server w) (w_disk w) L.

(** Only the slots matter. *)
Lemma stored_slots s s' d L : (forall i, get_slot s' i = get_slot s i) -> journals_stored s d L -> journals_stored s' d L.
Proof.
  intros Hg [H1 H2]. split.
  - intros i h. rewrite Hg. apply H1.
  - intros p l Hp Hi. apply H2; [done|]. intros i. rewrite <- Hg. apply Hi.
Qed.

(** A handle is replaced by one whose log is [l']. *)
Lemma stored_update s d L i h h' l' L' :
  dirs_apart logdir rundir -> get_slot s i = Some h -> journals_stored s d L ->
  of_path h' = slot_path i -> of_flags h' = of_flags h -> holds e (of_file h') l' ->
  (forall p, L' !! p = if decide (p = slot_path i) then Some l' else L !! p) ->
  journals_stored (set_slot i (Some h') s) d L'.
Proof.
  intros Hdirs Hi [H1 H2] Hp' Hf' Hl' HL. destruct (H1 i h Hi) as (Hok & Hp & Hf & Hd & l & Hl & _). split.
  - intros j g. rewrite get_set_slot by (by eexists). destruct (decide (j = i)) as [->|Hne].
    + intros [= <-]. rewrite Hf'. do 4 (split; [done|]). exists l'. rewrite HL. by rewrite decide_True.
    + intros Hj. destruct (H1 j g Hj) as (Hok' & ? & ? & ? & lg & Hlg & ?). do 4 (split; [done|]). exists lg.
      rewrite HL, decide_False; [done|]. intros E. apply Hne. by apply (slot_path_inj logdir rundir Hdirs).
  - intros p lp Hlp Hnot. assert (p <> slot_path i) as Hne.
    { intros ->. apply (Hnot i); [|done]. rewrite get_set_slot by (by eexists). by rewrite decide_True. }
    rewrite HL, decide_False in Hlp by done. apply H2; [done|]. intros j Hj. apply Hnot.
    rewrite get_set_slot by (by eexists). destruct (decide (j = i)); [done|done].
Qed.

(** The event of a rotation: a journal is moved to a name that is no journal's. *)
Definition rotation_event (ev : event) : Prop :=
  match ev with
  | ROTATED p q _ => (exists i, slot_ok i /\ p = slot_path i) /\ forall i, slot_ok i -> q <> slot_path i
  | _ => False
  end.

(** ** Rotating *)

Section Rotate.
Hypothesis (He : mmap_ok e) (Hpage : page_ok e) (Hdirs : dirs_apart logdir rundir).
Hypothesis (Hans : forall t, answers_ok e (an_open (ans t))).

(** The slots but [i] and the disk but two names are as before. *)
Lemma stored_moved s d L i h l p new d' :
  get_slot s i = Some h -> journals_stored s d L -> L !! slot_path i = Some l ->
  (forall j, slot_ok j -> p <> slot_path j) ->
  (forall q, q <> p -> q <> slot_path i -> d' !! q = d !! q) ->
  (exists archive, d' !! p = Some archive /\ keeps e archive l) ->
  match new with
  | Some h' => of_path h' = slot_path i /\ of_flags h' = of_flags h /\ holds e (of_file h') [] /\ is_Some (d' !! slot_path i)
  | None => True
  end ->
  journals_stored (set_slot i new s) d' (happen L (ROTATED (slot_path i) p match new with Some _ => true | None => false end)).
Proof.
  intros Hi [H1 H2] Hl Hp Hd' (archive & Ha & Hkeep) Hnew. destruct (H1 i h Hi) as (Hok & Hpath & Hflags & _).
  set (L' := happen L _).
  assert (forall q, L' !! q = if decide (q = p) then Some l
    else if decide (q = slot_path i) then (match new with Some _ => Some [] | None => None end) else L !! q) as HL.
  { intros q. unfold L'. cbn [happen]. rewrite Hl.
    assert (p <> slot_path i) by (by apply Hp).
    destruct (decide (q = p)) as [->|Hq].
    { destruct new; [rewrite lookup_insert_ne by congruence|]; apply lookup_insert_eq. }
    destruct (decide (q = slot_path i)) as [->|Hq2].
    { destruct new; [apply lookup_insert_eq|]. rewrite lookup_insert_ne by congruence. apply lookup_delete_eq. }
    destruct new; rewrite ?(lookup_insert_ne _ (slot_path i)) by congruence;
      rewrite lookup_insert_ne, lookup_delete_ne by congruence; done. }
  clearbody L'. split.
  - intros j g. rewrite get_set_slot by (by eexists). destruct (decide (j = i)) as [->|Hne].
    + intros ->. destruct Hnew as (E1 & E2 & E3 & E4). split; [done|]. split; [done|]. split; [by rewrite E2|]. split; [done|].
      exists []. rewrite HL, decide_False by (by apply not_eq_sym, Hp). by rewrite decide_True.
    + intros Hj. destruct (H1 j g Hj) as (Hokj & Hpj & Hfj & Hdj & lj & Hlj & Hh). pose proof (Hp j Hokj) as Hpne.
      assert (slot_path j <> slot_path i) as Hne2 by (intros E; apply Hne; by apply (slot_path_inj logdir rundir Hdirs)).
      do 3 (split; [done|]). rewrite Hd' by congruence. split; [done|]. exists lj.
      by rewrite HL, !decide_False by congruence.
  - intros q lq. rewrite HL. destruct (decide (q = p)) as [->|Hq]; [intros [= <-] _; by exists archive|].
    destruct (decide (q = slot_path i)) as [->|Hq2].
    + destruct new as [h'|]; [|done]. intros _ Hnot. exfalso. apply (Hnot i); [|done].
      rewrite get_set_slot by (by eexists). by rewrite decide_True.
    + intros Hlq Hnot. rewrite Hd' by done. apply H2; [done|]. intros j Hj. destruct (decide (j = i)) as [->|Hne]; [congruence|].
      apply Hnot. rewrite get_set_slot by (by eexists). by rewrite decide_False.
Qed.

Lemma do_rotate_ok i w L : stored_in w L ->
  exists r w' evs, do_rotate e strftime ans i w = (Ok r, w') /\ stored_in w' (play evs L)
    /\ Forall rotation_event evs /\ s_seqnum (w_server w') = s_seqnum (w_server w)
    /\ forall j, get_slot (w_server w) j = None -> get_slot (w_server w') j = None.
Proof.
  intros Hst. unfold do_rotate, wbind, server. destruct (get_slot (w_server w) i) as [old|] eqn:Hi.
  2:{ exists (inr EINVAL), w, []. split; [done|]. split; [exact Hst|]. split; [constructor|done]. }
  unfold ask. cbn [w_server w_disk w_tick]. set (a := ans (w_tick w)).
  destruct (so_open _ _ _ Hst i old Hi) as (Hok & Hpath & Hflags & [file Hfile] & l & Hl & Hh).
  assert (forall f j, get_slot (w_server w) j = None -> get_slot (set_slot i f (w_server w)) j = None) as Hnone.
  { intros f j Hj. rewrite get_set_slot by (by eexists). destruct (decide (j = i)) as [->|]; [congruence|done]. }
  pose proof (slot_path_journal logdir rundir i) as Hend.
  destruct (Z.eq_dec (an_rename a) 0) as [E0|Hren].
  - rewrite E0. destruct (rotate_logs e strftime (an_open a) old (s_compress (w_server w)) (w_disk w) _ l file He Hpage (Hans _)
      ltac:(by rewrite Hpath) Hflags ltac:(by rewrite Hpath) Hh) as (r & new & d' & -> & (archive & Ha & Hal & _) & Hd' & Hr).
    rewrite Hpath in *. set (p := replaced_name _ _ _ _) in *.
    assert (forall j, slot_ok j -> p <> slot_path j) as Hp by (intros j Hj; by apply replaced_not_slot).
    assert (exists archive, d' !! p = Some archive /\ keeps e archive l) as Harch by (exists archive; split; [done|by eexists]).
    destruct r as [[]|er| |]; try done.
    + destruct Hr as (_ & f & -> & Hf & _ & _ & _ & _ & Hd). eexists (inl tt), _, [ROTATED (slot_path i) p true].
      split; [reflexivity|]. split; [|split; [|split; [by destruct i|by apply Hnone]]].
      * eapply (stored_moved _ _ _ i old l p (Some _) d'); try done. split_and!; try done. by eapply logs_holds.
      * repeat constructor; try (by exists i). exact Hp.
    + subst new. eexists (inr er), _, [ROTATED (slot_path i) p false]. split; [reflexivity|]. split; [|split; [|split; [by destruct i|by apply Hnone]]].
      * by eapply (stored_moved _ _ _ i old l p None d').
      * repeat constructor; try (by exists i). exact Hp.
  - assert (journal_file_rotate e strftime (an_open a) (an_rename a) old (s_compress (w_server w)) (w_disk w)
      = (Err (an_rename a), Some old, w_disk w)) as ->.
    { destruct (logs_arena _ _ _ _ Hh) as (objs & end_ & _ & Hw). unfold journal_file_rotate.
      rewrite (w_writable _ Hw), Hpath, Hend. simpl negb. cbv iota. by rewrite (proj2 (Z.eqb_neq _ _) Hren). }
    eexists (inr _), _, []. split; [reflexivity|]. split; [|split; [constructor|split; [by destruct i|by apply Hnone]]].
    eapply stored_slots; [|exact Hst]. intros j. cbn [w_server]. rewrite get_set_slot by (by eexists).
    destruct (decide (j = i)) as [->|]; [by rewrite Hi|done].
Qed.

Lemma rotate_all_ok l : forall w L, stored_in w L ->
  exists w' evs, rotate_all e strftime ans l w = (Ok tt, w') /\ stored_in w' (play evs L)
    /\ Forall rotation_event evs /\ s_seqnum (w_server w') = s_seqnum (w_server w)
    /\ forall j, get_slot (w_server w) j = None -> get_slot (w_server w') j = None.
Proof.
  induction l as [|i l IH]; intros w L Hst.
  { exists w, []. split; [done|]. split; [exact Hst|]. split; [constructor|done]. }
  destruct (do_rotate_ok i w L Hst) as (r & w1 & evs1 & Hrun1 & Hst1 & Hev1 & Hs1 & Hn1).
  destruct (IH w1 _ Hst1) as (w2 & evs2 & Hrun2 & Hst2 & Hev2 & Hs2 & Hn2).
  exists w2, (evs1 ++ evs2). cbn [rotate_all]. unfold wbind. rewrite Hrun1. split; [exact Hrun2|].
  rewrite play_app. split; [exact Hst2|]. split; [by apply Forall_app_2|]. split; [congruence|auto].
Qed.

(** server_rotate: the same for every journal. *)
Lemma server_rotate_ok w L : stored_in w L ->
  exists w' evs, server_rotate e strftime ans w = (Ok tt, w') /\ stored_in w' (play evs L)
    /\ Forall rotation_event evs /\ s_seqnum (w_server w') = s_seqnum (w_server w)
    /\ forall j, get_slot (w_server w) j = None -> get_slot (w_server w') j = None.
Proof.
  intros Hst. destruct (do_rotate_ok RUNTIME w L Hst) as (r1 & w1 & evs1 & Hrun1 & Hst1 & Hev1 & Hs1 & Hn1).
  destruct (do_rotate_ok SYSTEM w1 _ Hst1) as (r2 & w2 & evs2 & Hrun2 & Hst2 & Hev2 & Hs2 & Hn2).
  destruct (rotate_all_ok (map USER (user_journals (w_server w2)).*1) w2 _ Hst2) as (w3 & evs3 & Hrun3 & Hst3 & Hev3 & Hs3 & Hn3).
  exists w3, (evs1 ++ evs2 ++ evs3). unfold server_rotate, wbind at 1. rewrite Hrun1. unfold wbind at 1. rewrite Hrun2.
  unfold wbind, server. split; [exact Hrun3|]. rewrite !play_app. split; [exact Hst3|].
  split; [by do 2 (apply Forall_app_2; [done|])|]. split; [congruence|auto].
Qed.

End Rotate.

(** ** Vacuuming *)

Definition vacuum_event (ev : event) : Prop :=
  match ev with DELETED p => exists dir name, p = in_dir dir name /\ tilde name | _ => False end.

Lemma tilde_last name : tilde name -> last name = Some 126.
Proof.
  unfold tilde, endswith. intros [H1 H2]%andb_prop. apply bool_decide_eq_true in H1. apply Nat.leb_le in H2.
  rewrite <- (take_drop (length name - length dot_journal_tilde) name), H1, last_app. done.
Qed.

Lemma in_dir_not_slot dir name j : tilde name -> in_dir dir name <> slot_path j.
Proof.
  intros Ht E. apply (f_equal last) in E. unfold in_dir in E. rewrite slot_path_eq, !last_app, (tilde_last _ Ht) in E. discriminate E.
Qed.

Lemma unlinked_lookup dir names d p : unlinked dir names d !! p = if decide (p ∈ map (in_dir dir) names) then None else d !! p.
Proof.
  induction names as [|n names IH]; [by rewrite decide_False by (by intros ?%not_elem_of_nil)|]. cbn [unlinked foldr map].
  destruct (decide (p = in_dir dir n)) as [->|Hne]; [rewrite lookup_delete_eq, decide_True by constructor; done|].
  rewrite lookup_delete_ne by done. unfold unlinked in IH. rewrite IH.
  destruct (decide (p ∈ map _ names)) as [Hin|Hin]; [by rewrite decide_True by (by constructor)|].
  rewrite decide_False; [done|]. by intros [?|?]%elem_of_cons.
Qed.

Lemma play_deleted ps : forall L p, play (map DELETED ps) L !! p = if decide (p ∈ ps) then None else L !! p.
Proof.
  induction ps as [|q ps IH]; intros L p; [by rewrite decide_False by (by intros ?%not_elem_of_nil)|]. cbn [map]. unfold play in *. cbn [foldl happen].
  rewrite IH. destruct (decide (p ∈ ps)) as [Hin|Hin]; [by rewrite decide_True by (by constructor)|].
  destruct (decide (p = q)) as [->|Hne]; [by rewrite decide_True, lookup_delete_eq by constructor|].
  rewrite lookup_delete_ne, decide_False by (done || by intros [?|?]%elem_of_cons). done.
Qed.

Lemma stored_unlinked s d L dir names :
  journals_stored s d L -> Forall tilde names -> journals_stored s (unlinked dir names d) (play (map DELETED (map (in_dir dir) names)) L).
Proof.
  intros [H1 H2] Hn. assert (forall j, (slot_path j) ∉ map (in_dir dir) names) as Hout.
  { intros j Hj. apply list_elem_of_fmap in Hj as (n & E & Hin). apply (in_dir_not_slot dir n j); [|done].
    by apply (proj1 (Forall_forall _ _) Hn). }
  split.
  - intros i h Hi. destruct (H1 i h Hi) as (? & ? & ? & ? & l & Hl & ?). do 3 (split; [done|]).
    rewrite unlinked_lookup, decide_False by apply Hout. split; [done|]. exists l. by rewrite play_deleted, decide_False by apply Hout.
  - intros p l. rewrite play_deleted, unlinked_lookup. destruct (decide (p ∈ _)); [done|]. apply H2.
Qed.

Context (sort : list vacuum_info -> list vacuum_info).
Hypothesis (Hsort : forall x, Permutation x (sort x)) (Hdirectory : forall t, directory_ok (ans t)).

(** The slots and counters of two servers are the same. *)
Definition same_slots (s s' : Server) : Prop := s_seqnum s' = s_seqnum s /\ forall i, get_slot s' i = get_slot s i.

Lemma do_vacuum_ok i path use w L : stored_in w L ->
  exists w' evs, do_vacuum ans sort i path use w = (Ok tt, w') /\ stored_in w' (play evs L)
    /\ Forall vacuum_event evs /\ same_slots (w_server w) (w_server w').
Proof.
  intros Hst. unfold do_vacuum, wbind, server. destruct (get_slot (w_server w) i).
  2:{ exists w, []. split; [done|]. split; [exact Hst|]. split; [constructor|done]. }
  unfold ask. cbn [w_server w_disk w_tick]. set (a := ans (w_tick w)).
  pose proof (vacuum_tilde (an_names a) (an_unlink a) (an_now a) (an_directory a) (an_readdir a) sort use
    (max_retention_usec (w_server w)) (oldest_file_usec (w_server w)) Hsort (Hdirectory _)) as Ht.
  destruct (journal_directory_vacuum _ _ _ _ _ _ _ _ _) as [[r deleted] oldest]. cbn in Ht.
  exists (mkHost (set_oldest_file_usec (w_server w) oldest) (unlinked path deleted (w_disk w)) (S (w_tick w))),
    (map DELETED (map (in_dir path) deleted)).
  split; [done|]. split; [|split; [|split; [done|by intros []]]].
  - apply (stored_slots (w_server w)); [by intros []|]. by apply stored_unlinked.
  - apply Forall_forall. intros ev Hev. apply list_elem_of_fmap in Hev as (p & -> & Hp). apply list_elem_of_fmap in Hp as (n & -> & Hn).
    exists path, n. split; [done|]. by apply (proj1 (Forall_forall _ _) Ht).
Qed.

Lemma server_vacuum_ok w L : stored_in w L ->
  exists w' evs, server_vacuum ans logdir rundir sort w = (Ok tt, w') /\ stored_in w' (play evs L)
    /\ Forall vacuum_event evs /\ same_slots (w_server w) (w_server w').
Proof.
  intros Hst. unfold server_vacuum. unfold wbind at 1, update at 1. unfold wbind at 1, server at 1.
  set (w0 := mkHost _ _ _). assert (stored_in w0 L) as Hst0 by (apply (stored_slots (w_server w)); [by intros []|exact Hst]).
  destruct (do_vacuum_ok SYSTEM logdir (max_use (system_metrics (w_server w0))) w0 L Hst0) as (w1 & evs1 & Hrun1 & Hst1 & Hev1 & Hn1 & Hs1).
  unfold wbind at 1. rewrite Hrun1.
  destruct (do_vacuum_ok RUNTIME (runtime_dir rundir) (max_use (runtime_metrics (w_server w0))) w1 _ Hst1) as (w2 & evs2 & Hrun2 & Hst2 & Hev2 & Hn2 & Hs2).
  unfold wbind at 1. rewrite Hrun2. unfold update. eexists _, (evs1 ++ evs2). split; [reflexivity|]. rewrite play_app.
  split; [apply (stored_slots (w_server w2)); [by intros []|exact Hst2]|]. split; [by apply Forall_app_2|]. split.
  - cbn. rewrite Hn2, Hn1. done.
  - intros i. transitivity (get_slot (w_server w2) i); [by destruct i|]. rewrite Hs2, Hs1. by destruct i.
Qed.

(** ** Syncing *)

Lemma set_offline_holds f l : holds e f l -> holds e (journal_file_set_offline f).2 l.
Proof.
  intros Hl. destruct (logs_arena _ _ _ _ Hl) as (objs & end_ & Har & [Hw Hfd Hh Hst]).
  pose proof (ar_arena _ _ _ Har). pose proof (ar_size _ _ _ Har). pose proof (ar_mem _ _ _ Har) as Hm.
  unfold journal_file_set_offline. run. rewrite Hw. run. rewrite run_fail_if by (rewrite Hh; zdecide).
  destruct (negb (hdr_state f =? STATE_ONLINE)); [exact Hl|]. set (g := (wrb _ _ _).2).
  assert (g = set_mem f (store8 (jf_mem f) off_state STATE_OFFLINE)) as -> by done.
  apply (holds_same e f); [| |exact Hl].
  - split; cbn [set_mem jf_mem jf_last_size jf_size jf_data_hash_table jf_field_hash_table]; try done; try lia.
    + intros a [Ha _]. by apply byte_at_store8_ne.
    + by apply mem_ok_store8.
  - split; try done. right. apply byte_at_store8_eq.
Qed.

Section Sync.
Hypothesis (Hdirs : dirs_apart logdir rundir).

Lemma sync_slot_ok i w L : stored_in w L ->
  exists w', sync_slot i w = (Ok tt, w') /\ stored_in w' L /\ s_seqnum (w_server w') = s_seqnum (w_server w)
    /\ forall j, get_slot (w_server w) j = None -> get_slot (w_server w') j = None.
Proof.
  intros Hst. unfold sync_slot, update. destruct (get_slot (w_server w) i) as [h|] eqn:Hi; [|by exists (mkHost (w_server w) (w_disk w) (w_tick w))].
  destruct (so_open _ _ _ Hst i h Hi) as (Hok & Hpath & _ & _ & l & Hl & Hh). eexists. split; [reflexivity|]. split; [|split].
  - eapply (stored_update _ _ _ i h _ l); try done; [by apply set_offline_holds|].
    intros p. destruct (decide (p = slot_path i)) as [->|]; [by rewrite Hl|done].
  - by destruct i.
  - intros j Hj. cbn [w_server]. rewrite get_set_slot by (by eexists). destruct (decide (j = i)) as [->|]; [congruence|done].
Qed.

Lemma sync_all_ok l : forall w L, stored_in w L ->
  exists w', sync_all l w = (Ok tt, w') /\ stored_in w' L /\ s_seqnum (w_server w') = s_seqnum (w_server w)
    /\ forall j, get_slot (w_server w) j = None -> get_slot (w_server w') j = None.
Proof.
  induction l as [|i l IH]; intros w L Hst; [by exists w|]. cbn [sync_all].
  destruct (sync_slot_ok i w L Hst) as (w1 & Hrun1 & Hst1 & Hs1 & Hn1). destruct (IH w1 L Hst1) as (w2 & Hrun2 & Hst2 & Hs2 & Hn2).
  exists w2. unfold wbind. rewrite Hrun1. split; [exact Hrun2|]. split; [exact Hst2|]. split; [congruence|auto].
Qed.

Lemma server_sync_ok w L : stored_in w L -> exists w', server_sync ans w = (Ok tt, w') /\ stored_in w' L.
Proof.
  intros Hst. unfold server_sync, wbind at 1, server at 1. destruct (_ <=? _); [by exists w|].
  destruct (sync_slot_ok SYSTEM w L Hst) as (w1 & Hrun1 & Hst1 & _).
  destruct (sync_all_ok (map USER (user_journals (w_server w)).*1) w1 L Hst1) as (w2 & Hrun2 & Hst2 & _).
  unfold wbind at 1. rewrite Hrun1. unfold wbind at 1. rewrite Hrun2. unfold wbind, ask, update. eexists. split; [reflexivity|].
  apply (stored_slots (w_server w2)); [by intros []|exact Hst2].
Qed.

Lemma server_schedule_sync_ok priority w L : stored_in w L -> exists w', server_schedule_sync ans priority w = (Ok tt, w') /\ stored_in w' L.
Proof. intros Hst. unfold server_schedule_sync. destruct (_ <=? _); [by apply server_sync_ok|by exists w]. Qed.

(** ** Appending *)

Context (fuel : nat) (stale : nat -> iovec -> list Z).
Hypothesis (He : mmap_ok e) (Hpage : page_ok e) (Hlaw : compress_law e).
Hypothesis (Hclock : forall t, is_u64 (an_now (ans t)) /\ is_u64 (an_monotonic (ans t))).

(** The journal can take an entry with these data. *)
Definition takes (f : JournalFile) (seqnum : Z) (datas : list (list Z)) : Prop :=
  Forall (fun data => payload_fits e f data /\ bytes_ok data) datas
  /\ hdr off_tail_entry_seqnum f < u64_max /\ 0 <= seqnum < u64_max /\ log_room fuel f (crowd f) datas.

(** The entry of the message whose items are written at the time [t]. *)
Definition entry_of (t : nat) (items : list iovec) (x : logged) : Prop :=
  lg_data x = map (shown stale t) items /\ lg_realtime x = an_now (ans t) /\ lg_monotonic x = an_monotonic (ans t).

Lemma append_to_ok i items w L h :
  stored_in w L -> get_slot (w_server w) i = Some h ->
  takes (of_file h) (s_seqnum (w_server w)) (map (shown stale (w_tick w)) items) ->
  exists r w' evs, append_to e fuel ans stale i items w = (Ok r, w') /\ stored_in w' (play evs L)
    /\ (forall j, get_slot (w_server w) j = None -> get_slot (w_server w') j = None)
    /\ exists x, entry_of (w_tick w) items x /\
       match r with
       | inl _ => evs = [WRITTEN (slot_path i) x]
       | inr _ => evs = [] \/ evs = [WRITTEN (slot_path i) x]
       end.
Proof.
  intros Hst Hi (Hfit & Hseq & Hext & Hroom). destruct (so_open _ _ _ Hst i h Hi) as (Hok & Hpath & Hflags & _ & l & Hl & Hh).
  destruct (Hclock (w_tick w)) as [Hc1 Hc2]. unfold append_to, wbind at 1, server at 1. rewrite Hi.
  set (a := ans (w_tick w)) in *. set (datas := map (shown stale (w_tick w)) items) in *.
  set (g := set_ext_seqnum (of_file h) (s_seqnum (w_server w))).
  destruct (append_logs e fuel g (crowd g) l (Some (an_now a, an_monotonic a)) datas true He Hpage Hlaw
    (holds_ext _ _ _ _ Hh) Hfit Hc1 Hc2 Hseq Hext Hroom) as (r & f' & Hrun & _ & Hr).
  rewrite Hrun. set (x := log_entry f' _ _ datas) in Hr. cbn [default] in Hr.
  set (w1 := mkHost _ _ _).
  assert (forall j, get_slot (w_server w) j = None -> get_slot (w_server w1) j = None) as Hnone.
  { intros j Hj. transitivity (get_slot (set_slot i (Some (mkOpenFile f' (of_path h) (of_flags h) (of_mode h))) (w_server w)) j); [by destruct j|].
    rewrite get_set_slot by (by eexists). destruct (decide (j = i)) as [->|]; [congruence|done]. }
  assert (entry_of (w_tick w) items x) as Hx by done.
  assert (forall l' evs, holds e f' l' -> (forall p, play evs L !! p = if decide (p = slot_path i) then Some l' else L !! p) ->
    stored_in w1 (play evs L)) as Hstore.
  { intros l' evs Hf' HL. apply (stored_slots (set_slot i (Some (mkOpenFile f' (of_path h) (of_flags h) (of_mode h))) (w_server w)));
      [by intros []|]. by eapply (stored_update _ _ _ i h _ l'). }
  assert (forall p, play [] L !! p = if decide (p = slot_path i) then Some l else L !! p) as H0.
  { intros p. destruct (decide (p = slot_path i)) as [->|]; [exact Hl|done]. }
  assert (forall p, play [WRITTEN (slot_path i) x] L !! p = if decide (p = slot_path i) then Some (l ++ [x]) else L !! p) as H1.
  { intros p. cbn [play foldl happen]. destruct (decide (p = slot_path i)) as [->|Hne].
    - rewrite lookup_alter_eq, Hl. done.
    - by rewrite lookup_alter_ne by congruence. }
  destruct r as [p|er| |]; try done.
  - eexists (inl p), w1, [WRITTEN (slot_path i) x]. split; [done|]. split; [by eapply Hstore; [eapply logs_holds, Hr|]|].
    split; [exact Hnone|]. by exists x.
  - destruct Hr as [Hr|Hr].
    + eexists (inr er), w1, []. split; [done|]. split; [by eapply Hstore; [eapply logs_holds, Hr|]|]. split; [exact Hnone|]. exists x. auto.
    + eexists (inr er), w1, [WRITTEN (slot_path i) x]. split; [done|]. split; [by eapply Hstore; [eapply logs_holds, Hr|]|].
      split; [exact Hnone|]. exists x. auto.
Qed.

End Sync.

End Stored.
