(* ===== verification/ServerSpec.v ===== *)
(** A message on its way through the server: write_to_journal. *)
From S2P Require Import Prelude Lookup3 CString Vacuum Memory JournalDef JournalFile Metrics RateLimit ObjectLemmas ArenaProofs.
From S2P Require Import StoreOps JournalSamples StoreSamples JournalAppend JournalSpec JournalOpen JournalOpenProofs JournalLog JournalLogSpec Daemon Server ServerStore.

Section Spec.
Context (e : Env) (fuel : nat) (strftime : Z -> list Z) (ans : nat -> Answers).
Context (logdir rundir : list Z) (SYSTEM_UID_MAX : Z) (stale : nat -> iovec -> list Z).
Context (sort : list vacuum_info -> list vacuum_info).

#[local] Abbreviation slot_path := (slot_path logdir rundir).
#[local] Abbreviation stored_in := (stored_in e logdir rundir).
#[local] Abbreviation rotate_and_vacuum := (wbind (server_rotate e strftime ans) (fun _ => server_vacuum ans logdir rundir sort)).
#[local] Abbreviation find_journal := (find_journal e strftime ans logdir SYSTEM_UID_MAX).
#[local] Abbreviation first_journal := (first_journal e strftime ans logdir rundir SYSTEM_UID_MAX sort).
#[local] Abbreviation append_to := (append_to e fuel ans stale).

(** The journal for the messages of a user, when none has to be opened for that. *)
Definition settled (uid : Z) (s : Server) : Prop :=
  is_Some (runtime_journal s) \/ uid <= SYSTEM_UID_MAX \/ is_Some (user_get uid (user_journals s)).

Definition journal_of (uid : Z) (s : Server) : option slot :=
  match runtime_journal s with
  | Some _ => Some RUNTIME
  | None =>
      if uid <=? SYSTEM_UID_MAX
      then match system_journal s with Some _ => Some SYSTEM | None => None end
      else match user_get uid (user_journals s) with Some _ => Some (USER uid) | None => None end
  end.

Lemma journal_of_open uid s i : journal_of uid s = Some i -> exists h, get_slot s i = Some h.
Proof.
  unfold journal_of. destruct (runtime_journal s) eqn:E1; [intros [= <-]; by eexists|].
  destruct (_ <=? _); [destruct (system_journal s) eqn:E2; intros [= <-]; by eexists|].
  destruct (user_get uid _) eqn:E3; intros [= <-]; by eexists.
Qed.

Lemma find_journal_ok uid w : settled uid (w_server w) -> find_journal uid w = (Ok (journal_of uid (w_server w)), w).
Proof.
  intros Hs. unfold find_journal, wbind, server, journal_of. destruct (runtime_journal (w_server w)) eqn:E1; [done|].
  destruct (Z.leb_spec uid SYSTEM_UID_MAX); [by destruct (system_journal _)|].
  destruct Hs as [[? Hs]|[Hs|[h Hs]]]; [congruence|lia|]. by rewrite Hs.
Qed.

(** What may happen besides the message itself. *)
Definition upkeep (ev : event) : Prop := rotation_event logdir rundir ev \/ vacuum_event ev.

Section Steps.
Hypothesis (He : mmap_ok e) (Hpage : page_ok e) (Hlaw : compress_law e) (Hdirs : dirs_apart logdir rundir).
Hypothesis (Hans : forall t, answers_ok e (an_open (ans t))) (Hdirectory : forall t, directory_ok (ans t)).
Hypothesis (Hclock : forall t, is_u64 (an_now (ans t)) /\ is_u64 (an_monotonic (ans t))).
Hypothesis (Hsort : forall x, Permutation x (sort x)).

Lemma rotate_and_vacuum_ok w L : stored_in w L ->
  exists w' evs, rotate_and_vacuum w = (Ok tt, w') /\ stored_in w' (play evs L) /\ Forall upkeep evs.
Proof.
  intros Hst. destruct (server_rotate_ok e strftime ans logdir rundir He Hpage Hdirs Hans w L Hst) as (w1 & evs1 & Hrun1 & Hst1 & Hev1 & _).
  destruct (server_vacuum_ok e ans logdir rundir sort Hsort Hdirectory w1 _ Hst1) as (w2 & evs2 & Hrun2 & Hst2 & Hev2 & _).
  exists w2, (evs1 ++ evs2). unfold wbind. rewrite Hrun1. split; [exact Hrun2|]. rewrite play_app. split; [exact Hst2|].
  apply Forall_app_2; (eapply Forall_impl; [done|]); [by left|by right].
Qed.

(** The worlds in which write_to_journal looks for the journal: at the start, when the
    journal was due for rotation, and after a write failed. *)
Inductive looks (uid : Z) (items : list iovec) (w : Host) : Host -> Prop :=
| looks_first : looks uid items w w
| looks_due i w1 w2 w3 : find_journal uid w = (Ok (Some i), w1) -> rotation_due ans i w1 = (Ok true, w2) ->
    rotate_and_vacuum w2 = (Ok tt, w3) -> looks uid items w w3
| looks_again i er w1 w2 w3 : first_journal uid w = (Ok (Some (i, false)), w1) -> append_to i items w1 = (Ok (inr er), w2) ->
    shall_try_append_again er = true -> rotate_and_vacuum w2 = (Ok tt, w3) -> looks uid items w w3.

(** In them no journal has to be opened, and the one found takes the message. *)
Definition ready (uid : Z) (items : list iovec) (s : Server) : Prop :=
  settled uid s
  /\ forall i h t, journal_of uid s = Some i -> get_slot s i = Some h -> takes e fuel (of_file h) (s_seqnum s) (map (shown stale t) items).

Lemma rotate_and_find_ok uid w w' : rotate_and_vacuum w = (Ok tt, w') -> settled uid (w_server w') ->
  rotate_and_find e strftime ans logdir rundir SYSTEM_UID_MAX sort uid w = (Ok (journal_of uid (w_server w')), w').
Proof.
  intros Hrun Hs. unfold rotate_and_find. revert Hrun. unfold wbind. destruct (server_rotate _ _ _ w) as [[[]|er| |] w1]; try (by intros [=]).
  intros ->. by apply find_journal_ok.
Qed.

Lemma rotation_due_ok i w : exists b, rotation_due ans i w = (Ok b, mkHost (w_server w) (w_disk w) (S (w_tick w))).
Proof. unfold rotation_due, wbind, server, ask, wret. by eexists. Qed.

Lemma first_journal_ok uid items w L : stored_in w L -> (forall w', looks uid items w w' -> ready uid items (w_server w')) ->
  exists r w' evs, first_journal uid w = (Ok r, w') /\ stored_in w' (play evs L) /\ Forall upkeep evs
    /\ match r with
       | Some (i, b) => exists h, get_slot (w_server w') i = Some h
           /\ forall t, takes e fuel (of_file h) (s_seqnum (w_server w')) (map (shown stale t) items)
       | None => True
       end.
Proof.
  intros Hst Hready. destruct (Hready w (looks_first _ _ _)) as [Hset Htakes]. unfold first_journal, Server.first_journal.
  unfold wbind at 1. rewrite (find_journal_ok uid w Hset). destruct (journal_of uid (w_server w)) as [i|] eqn:Ei.
  2:{ exists None, w, []. split; [done|]. split; [exact Hst|]. by split; [constructor|]. }
  unfold wbind at 1. destruct (rotation_due_ok i w) as [b Hdue]. rewrite Hdue. set (w1 := mkHost _ _ _) in *.
  assert (stored_in w1 L) as Hst1 by exact Hst. destruct (journal_of_open _ _ _ Ei) as [h Hh]. destruct b.
  - destruct (rotate_and_vacuum_ok w1 L Hst1) as (w2 & evs & Hrun & Hst2 & Hev).
    assert (looks uid items w w2) as Hlook.
    { eapply looks_due; [rewrite (find_journal_ok uid w Hset), Ei; reflexivity|exact Hdue|exact Hrun]. }
    destruct (Hready _ Hlook) as [Hset2 Htakes2]. unfold wbind at 1. rewrite (rotate_and_find_ok uid w1 w2 Hrun Hset2).
    destruct (journal_of uid (w_server w2)) as [j|] eqn:Ej; eexists _, w2, evs; (split; [reflexivity|]); (split; [exact Hst2|]); (split; [exact Hev|]); [|done].
    destruct (journal_of_open _ _ _ Ej) as [g Hg]. exists g. split; [exact Hg|]. intros t. by eapply Htakes2.
  - exists (Some (i, false)), w1, []. split; [done|]. split; [exact Hst1|]. split; [constructor|]. exists h. split; [exact Hh|].
    intros t. by eapply Htakes.
Qed.

End Steps.

(** The entries that are written among the events. *)
Definition writes (evs : list event) : list (list Z * logged) :=
  omap (fun ev => match ev with WRITTEN p x => Some (p, x) | _ => None end) evs.

Lemma writes_app a b : writes (a ++ b) = writes a ++ writes b.
Proof. apply omap_app. Qed.

Lemma writes_upkeep evs : Forall upkeep evs -> writes evs = [].
Proof. induction 1 as [|ev evs [H|H] _ IH]; [done|..]; destruct ev; done. Qed.

(** What is written: the message, to a journal of the server. *)
Definition message_written (items : list iovec) (ev : event) : Prop :=
  match ev with WRITTEN p x => exists i t, p = slot_path i /\ entry_of ans stale t items x | _ => upkeep ev end.

Lemma upkeep_written items evs : Forall upkeep evs -> Forall (message_written items) evs.
Proof. intros H. eapply Forall_impl; [exact H|]. intros ev [Hev|Hev]; destruct ev; try done; (by left) || (by right). Qed.

(** Without a journal nothing happens. *)
Lemma first_journal_none uid items w : (forall w', looks uid items w w' -> ready uid items (w_server w')) ->
  journal_of uid (w_server w) = None -> first_journal uid w = (Ok None, w).
Proof.
  intros Hready Hn. unfold first_journal, Server.first_journal, wbind at 1.
  by rewrite (find_journal_ok uid w (proj1 (Hready w (looks_first _ _ _)))), Hn.
Qed.

(** One try: nothing is written or one entry, and one if it succeeds. *)
Lemma try_ok i h items w L :
  mmap_ok e -> page_ok e -> compress_law e -> dirs_apart logdir rundir ->
  (forall t, is_u64 (an_now (ans t)) /\ is_u64 (an_monotonic (ans t))) ->
  stored_in w L -> get_slot (w_server w) i = Some h -> takes e fuel (of_file h) (s_seqnum (w_server w)) (map (shown stale (w_tick w)) items) ->
  exists r w1 evs, append_to i items w = (Ok r, w1) /\ stored_in w1 (play evs L) /\ Forall (message_written items) evs
    /\ (length (writes evs) <= 1)%nat /\ forall q, r = inl q -> exists x, writes evs = [(slot_path i, x)].
Proof.
  intros He Hpage Hlaw Hdirs Hclock Hst Hh Htakes.
  destruct (append_to_ok e ans logdir rundir Hdirs fuel stale He Hpage Hlaw Hclock i items w L h Hst Hh Htakes)
    as (r & w1 & evs & Hrun & Hst1 & _ & x & Hx & Hr).
  exists r, w1, evs. split; [exact Hrun|]. split; [exact Hst1|].
  assert (message_written items (WRITTEN (slot_path i) x)) as Hmsg by (by exists i, (w_tick w)).
  destruct r as [p|er]; [subst evs|destruct Hr as [-> | ->]]; (split; [by repeat constructor|]); (split; [simpl; lia|]); try done.
  intros q _. by exists x.
Qed.

(** The second try. *)
Lemma write_again_ok uid items priority w w' L :
  mmap_ok e -> page_ok e -> compress_law e -> dirs_apart logdir rundir ->
  (forall t, is_u64 (an_now (ans t)) /\ is_u64 (an_monotonic (ans t))) ->
  rotate_and_vacuum w = (Ok tt, w') -> stored_in w' L -> ready uid items (w_server w') ->
  exists w2 evs,
    wbind (rotate_and_find e strftime ans logdir rundir SYSTEM_UID_MAX sort uid) (fun f =>
      match f with
      | None => wret tt
      | Some i => wbind (append_to i items) (fun r => match r with inl _ => server_schedule_sync ans priority | inr _ => wret tt end)
      end) w = (Ok tt, w2)
    /\ stored_in w2 (play evs L) /\ Forall (message_written items) evs /\ (length (writes evs) <= 1)%nat.
Proof.
  intros He Hpage Hlaw Hdirs Hclock Hrun Hst [Hset Htakes]. unfold wbind at 1. rewrite (rotate_and_find_ok uid w w' Hrun Hset).
  destruct (journal_of uid (w_server w')) as [i|] eqn:Ei; [|exists w', []; split; [done|]; split; [exact Hst|]; split; [constructor|simpl; lia]].
  destruct (journal_of_open _ _ _ Ei) as [h Hh].
  destruct (try_ok i h items w' L He Hpage Hlaw Hdirs Hclock Hst Hh (Htakes i h _ eq_refl Hh)) as (r & w1 & evs & Hrun1 & Hst1 & Hev & Hlen & _).
  unfold wbind at 1. rewrite Hrun1.
  destruct r as [p|er].
  - destruct (server_schedule_sync_ok e ans logdir rundir Hdirs priority w1 _ Hst1) as (w2 & Hrun2 & Hst2).
    exists w2, evs. split; [exact Hrun2|]. by split.
  - exists w1, evs. split; [done|]. by split.
Qed.

(** C1 Handing a message to a journal.  When files can be mapped, the directories are as
    vacuuming expects them ([directory_ok]) and the journal of the user is open wherever it
    is looked for and has room ([looks], [ready]), write_to_journal returns, whichever of
    the other calls to the kernel fail, and does to the journals of the server only this:
    it writes the message (all its items, with the time of the call) to the end of a
    journal, at most twice, rotates journals and deletes files that were set aside as
    corrupted.  A message whose first try succeeds is written exactly once, to that
    journal; without a journal nothing happens.  Every log there was is still there with
    its entries, under its name or a new one, but for those that vacuuming deletes, under
    a name that ends in .journal~, and those whose name, no journal's of the server, a
    rotation gives to another log. *)
Theorem write_to_journal_correct realuid items priority w L :
  mmap_ok e -> page_ok e -> compress_law e -> dirs_apart logdir rundir ->
  (forall t, answers_ok e (an_open (ans t)) /\ directory_ok (ans t) /\ is_u64 (an_now (ans t)) /\ is_u64 (an_monotonic (ans t))) ->
  (forall x, Permutation x (sort x)) ->
  items <> [] -> stored_in w L ->
  let uid := if 0 <? realuid then realuid else 0 in
  (forall w', looks uid items w w' -> ready uid items (w_server w')) ->
  exists w' evs,
    write_to_journal e fuel strftime ans logdir rundir SYSTEM_UID_MAX stale sort realuid items priority w = (Ok tt, w')
    /\ stored_in w' (play evs L) /\ Forall (message_written items) evs /\ (length (writes evs) <= 2)%nat
    /\ (forall i b p w1 w2, first_journal uid w = (Ok (Some (i, b)), w1) -> append_to i items w1 = (Ok (inl p), w2) ->
         exists x, writes evs = [(slot_path i, x)])
    /\ (journal_of uid (w_server w) = None -> evs = [])
    /\ forall p l, L !! p = Some l -> (exists q l', play evs L !! q = Some (l ++ l')) \/ lost evs L l.
Proof.
  intros He Hpage Hlaw Hdirs Hall Hsort Hne Hst uid Hready.
  assert (forall t, answers_ok e (an_open (ans t))) as Hans by (intros t; apply Hall).
  assert (forall t, directory_ok (ans t)) as Hdirectory by (intros t; apply Hall).
  assert (forall t, is_u64 (an_now (ans t)) /\ is_u64 (an_monotonic (ans t))) as Hclock by (intros t; apply Hall).
  unfold write_to_journal. destruct items as [|it0 items0] eqn:Eitems; [done|]. rewrite <- Eitems in *. clear Hne.
  assert ((length items =? 0)%nat = false) as -> by (by rewrite Eitems). fold uid.
  pose proof (first_journal_none uid items w Hready) as Hnothing.
  destruct (first_journal_ok He Hpage Hdirs Hans Hdirectory Hsort uid items w L Hst Hready)
    as (r & w1 & evs1 & Hrun1 & Hst1 & Hev1 & Hr).
  unfold wbind at 1. rewrite Hrun1. destruct r as [[i b]|].
  2:{ assert (exists evs, (evs = evs1 \/ evs = []) /\ stored_in w1 (play evs L) /\ (journal_of uid (w_server w) = None -> evs = [])) as (evs & Hevs & Hst2 & Hnil).
      { destruct (journal_of uid (w_server w)) as [i|]; [exists evs1; split; [by left|]; split; [exact Hst1|done]|]. exists []. split; [by right|]. split; [|done].
        specialize (Hnothing eq_refl). rewrite Hrun1 in Hnothing. by injection Hnothing as ->. }
      assert (Forall upkeep evs) as Hup by (destruct Hevs as [-> | ->]; [done|constructor]). exists w1, evs.
      split; [done|]. split; [exact Hst2|]. split; [by apply upkeep_written|]. rewrite (writes_upkeep _ Hup).
      split; [simpl; lia|]. split; [congruence|]. split; [done|]. intros p l. apply play_keeps. }
  assert (journal_of uid (w_server w) <> None) as Hsome by (intros Hn; rewrite (Hnothing Hn) in Hrun1; discriminate Hrun1).
  clear Hnothing. destruct Hr as (h & Hh & Htakes).
  destruct (try_ok i h items w1 _ He Hpage Hlaw Hdirs Hclock Hst1 Hh (Htakes _)) as (r & w2 & evs2 & Hrun2 & Hst2 & Hev2 & Hlen2 & Hr).
  rewrite <- play_app in Hst2. unfold wbind at 1. rewrite Hrun2.
  assert (writes (evs1 ++ evs2) = writes evs2) as Hw by (by rewrite writes_app, (writes_upkeep _ Hev1)).
  assert (Forall (message_written items) (evs1 ++ evs2)) as Hev by (apply Forall_app_2; [by apply upkeep_written|done]).
  assert (forall i' b' p' w1' w2', (Ok (Some (i, b)), w1) = (Ok (Some (i', b')), w1') -> append_to i' items w1' = (Ok (inl p'), w2') ->
    exists x, writes (evs1 ++ evs2) = [(slot_path i', x)]) as Honce.
  { intros i' b' p' w1' w2' [= <- <- <-] H2. rewrite Hrun2 in H2.
    injection H2 as -> _. rewrite Hw. by apply (Hr p'). }
  destruct r as [p|er].
  - destruct (server_schedule_sync_ok e ans logdir rundir Hdirs priority w2 _ Hst2) as (w3 & Hrun3 & Hst3).
    exists w3, (evs1 ++ evs2). split; [exact Hrun3|]. split; [exact Hst3|]. split; [exact Hev|]. split; [rewrite Hw; lia|].
    split; [exact Honce|]. split; [done|]. intros q l. apply play_keeps.
  - destruct (b || negb (shall_try_append_again er)) eqn:Eb.
    { exists w2, (evs1 ++ evs2). split; [done|]. split; [exact Hst2|]. split; [exact Hev|]. split; [rewrite Hw; lia|].
      split; [exact Honce|]. split; [done|]. intros q l. apply play_keeps. }
    apply orb_false_iff in Eb as [-> Eb]. apply negb_false_iff in Eb.
    destruct (rotate_and_vacuum_ok He Hpage Hdirs Hans Hdirectory Hsort w2 _ Hst2) as (w3 & evs3 & Hrun3 & Hst3 & Hev3).
    assert (looks uid items w w3) as Hlook by (by eapply looks_again).
    destruct (write_again_ok uid items priority w2 w3 _ He Hpage Hlaw Hdirs Hclock Hrun3 Hst3 (Hready _ Hlook))
      as (w4 & evs4 & Hrun4 & Hst4 & Hev4 & Hlen4).
    exists w4, (evs1 ++ evs2 ++ evs3 ++ evs4). split; [exact Hrun4|]. rewrite app_assoc, !(play_app (evs1 ++ evs2)), (play_app evs3).
    split; [exact Hst4|]. split; [apply Forall_app_2; [done|]; apply Forall_app_2; [by apply upkeep_written|done]|].
    rewrite (writes_app (evs1 ++ evs2)), (writes_app evs3), (writes_upkeep _ Hev3). cbn [app].
    split; [rewrite length_app, Hw; lia|]. split; [|split; [done|]].
    + intros i' b' p' w1' w2' [= <- <-] H2. congruence.
    + rewrite <- (play_app evs3), <- (play_app (evs1 ++ evs2)). intros q l. apply play_keeps.
Qed.

End Spec.

(** * A message for the journal of the system *)

Definition sample_logdir : list Z := txt "/var/log/journal".
Definition sample_rundir : list Z := txt "/run/journald".
Definition sample_answers_of (_ : nat) : Answers :=
  mkAnswers sample_open sample_open 0 5000000 70 (inl []) 0 (fun _ => []) (fun _ => 0) None false.

Definition sample_system : outcome OpenFile * option JournalMetrics * Disk :=
  journal_file_open sample_env sample_open (system_path sample_logdir) sample_flags 416 false None None 0 ∅.

(** A server whose only journal is that of the system. *)
Definition sample_server (h : OpenFile) : Server :=
  mkServer SERVER_RUNNING None (Some h) [] 0 None zero_metrics zero_metrics false 0 0 0 0 0 7 0 0 0 (replicate 16 0) [].
Definition sample_world (h : OpenFile) (d : Disk) : Host := mkHost (sample_server h) d 0.

Definition sample_items : list iovec := [literal "PRIORITY=6"; literal "MESSAGE=hello"].
Definition sample_stale (_ : nat) (_ : iovec) : list Z := [].
Definition write_fuel : nat := Z.to_nat 4000000.

(** The journal is not due for rotation, and takes the message. *)
Definition sample_tried : bool :=
  match sample_system with
  | (Ok h, _, d) =>
      let w := sample_world h d in
      match rotation_due sample_answers_of SYSTEM w with
      | (Ok false, w) =>
          match append_to sample_env write_fuel sample_answers_of sample_stale SYSTEM sample_items w with
          | (Ok (inl _), _) => (hdr off_tail_entry_seqnum (of_file h) <? u64_max) && (jf_last_size (of_file h) <=? 8388608)
          | _ => false
          end
      | _ => false
      end
  | _ => false
  end.

Lemma sample_tried_ok : sample_tried = true.
Proof. vm_compute. reflexivity. Qed.

Lemma sample_dirs : dirs_apart sample_logdir sample_rundir.
Proof. intros x y E. discriminate E. Qed.

Lemma sample_system_logs : exists f m d,
  sample_system = (Ok (mkOpenFile f (system_path sample_logdir) sample_flags 416), m, d)
  /\ is_Some (d !! system_path sample_logdir) /\ holds sample_env f [].
Proof.
  assert (path_logs sample_env (system_path sample_logdir) sample_flags ∅ 0 []) as Hfree.
  { right. split; [unfold no_content; rewrite lookup_empty; discriminate|split; reflexivity]. }
  destruct (open_logs sample_env sample_open (system_path sample_logdir) sample_flags 416 false None None 0 ∅ 0 []
    sample_mmap sample_page sample_answers I eq_refl eq_refl Hfree) as (r & m & d & Hrun & _ & Hr).
  pose proof sample_tried_ok as Ht. unfold sample_tried, sample_system in Ht. rewrite Hrun in Ht.
  destruct r as [h| | |]; [|discriminate Ht..]. destruct Hr as (f & -> & Hl & _). exists f, m, d. split; [exact Hrun|].
  split; [by eapply open_some|]. by eapply logs_holds.
Qed.

(** What takes the sample's message. *)
Lemma sample_takes f t : hdr off_tail_entry_seqnum f < u64_max -> jf_last_size f <= 8388608 ->
  takes sample_env write_fuel f 0 (map (shown sample_stale t) sample_items).
Proof.
  intros H1 H2. change (map _ sample_items) with [txt "PRIORITY=6"; txt "MESSAGE=hello"].
  split; [|split; [exact H1|split; [split; [lia|reflexivity]|]]].
  - assert (forall data, (zlen data <? COMPRESSION_SIZE_THRESHOLD) = true -> forallb (fun b => (0 <=? b) && (b <? 256)) data = true ->
      payload_fits sample_env f data /\ bytes_ok data) as Hshort.
    { intros data Hlen Hb. apply Z.ltb_lt in Hlen. split; [intros _ Hc; exfalso; lia|]. apply Forall_forall. intros b Hin.
      apply list_elem_of_In, (proj1 (forallb_forall _ _) Hb), andb_true_iff in Hin as [H3%Z.leb_le H4%Z.ltb_lt]. by split. }
    apply Forall_cons_2; [|apply Forall_cons_2; [|constructor]]; (apply Hshort; vm_compute; reflexivity).
  - assert (Z.of_nat write_fuel = 4000000) as Ef by (apply Z2Nat.id; lia).
    assert (data_cost [txt "PRIORITY=6"; txt "MESSAGE=hello"] <= 1000) as Hd by (vm_compute; discriminate).
    unfold log_room, entry_fits. rewrite Ef. change (zlen [txt "PRIORITY=6"; txt "MESSAGE=hello"]) with 2.
    assert (crowd f <= 1048576) by (apply Z.div_le_upper_bound; lia).
    unfold entry_cost. lia.
Qed.

Section Sample.
#[local] Abbreviation first := (first_journal sample_env (fun _ => []) sample_answers_of sample_logdir sample_rundir 999 id).
#[local] Abbreviation append := (append_to sample_env write_fuel sample_answers_of sample_stale).

(** What [sample_tried] says of the journal that was opened. *)
Lemma sample_tried_runs h m d : sample_system = (Ok h, m, d) ->
  let w := sample_world h d in
  let w1 := mkHost (sample_server h) d 1 in
  rotation_due sample_answers_of SYSTEM w = (Ok false, w1)
  /\ (exists p w2, append SYSTEM sample_items w1 = (Ok (inl p), w2))
  /\ hdr off_tail_entry_seqnum (of_file h) < u64_max /\ jf_last_size (of_file h) <= 8388608.
Proof.
  intros E. pose proof sample_tried_ok as Ht. unfold sample_tried in Ht. rewrite E in Ht. clear E.
  destruct (rotation_due_ok sample_answers_of SYSTEM (sample_world h d)) as [b Hb]. rewrite Hb in Ht.
  destruct b; [discriminate Ht|]. change (mkHost _ _ _) with (mkHost (sample_server h) d 1) in Hb, Ht.
  destruct (append_to _ _ _ _ _ _ _) as [[[p|er]| | |] w2] eqn:Ea; try discriminate Ht.
  apply andb_true_iff in Ht as [H1%Z.ltb_lt H2%Z.leb_le]. by eauto 10.
Qed.

Lemma sample_first h d :
  rotation_due sample_answers_of SYSTEM (sample_world h d) = (Ok false, mkHost (sample_server h) d 1) ->
  first 0 (sample_world h d) = (Ok (Some (SYSTEM, false)), mkHost (sample_server h) d 1).
Proof.
  intros Hdue. unfold first_journal, wbind at 1. rewrite find_journal_ok by (right; left; lia).
  change (journal_of 999 0 (w_server (sample_world h d))) with (Some SYSTEM). unfold wbind at 1. by rewrite Hdue.
Qed.

Lemma sample_looks h m d w' : sample_system = (Ok h, m, d) ->
  looks sample_env write_fuel (fun _ => []) sample_answers_of sample_logdir sample_rundir 999 sample_stale id 0 sample_items
    (sample_world h d) w' -> w' = sample_world h d.
Proof.
  intros E. destruct (sample_tried_runs h m d E) as (Hdue & (p & w2 & Happ) & _). clear E.
  pose proof (sample_first _ _ Hdue) as Hfirst.
  destruct 1 as [|i v1 v2 v3 Hf Hr _|i er v1 v2 v3 Hf Hr _ _].
  - reflexivity.
  - rewrite find_journal_ok in Hf by (right; left; lia). change (journal_of 999 0 _) with (Some SYSTEM) in Hf.
    injection Hf as <- <-. rewrite Hdue in Hr. discriminate Hr.
  - rewrite Hfirst in Hf. injection Hf as <- <-. rewrite Happ in Hr. discriminate Hr.
Qed.

Lemma sample_ready h m d : sample_system = (Ok h, m, d) ->
  ready sample_env write_fuel 999 sample_stale 0 sample_items (sample_server h).
Proof.
  intros E. destruct (sample_tried_runs h m d E) as (_ & _ & H1 & H2). clear E. split; [right; left; lia|].
  intros i g t Hi Hg. change (journal_of 999 0 (sample_server h)) with (Some SYSTEM) in Hi. injection Hi as <-.
  change (get_slot (sample_server h) SYSTEM) with (Some h) in Hg. injection Hg as <-. by apply sample_takes.
Qed.

Lemma sample_stored h m d : sample_system = (Ok h, m, d) ->
  stored_in sample_env sample_logdir sample_rundir (sample_world h d) {[system_path sample_logdir := []]}.
Proof.
  intros E. destruct sample_system_logs as (f & m' & d' & E' & Hd & Hf). rewrite E in E'. injection E' as -> -> ->. clear E.
  split.
  - intros i g Hi. assert (i = SYSTEM /\ g = mkOpenFile f (system_path sample_logdir) sample_flags 416) as [-> ->].
    { destruct i; [discriminate Hi|by injection Hi|discriminate Hi]. }
    repeat split; try done. exists []. split; [apply lookup_singleton_eq|exact Hf].
  - intros p l Hp Hslots. exfalso. apply lookup_singleton_Some in Hp as [<- _]. by apply (Hslots SYSTEM).
Qed.

(** PRIORITY=6 and MESSAGE=hello are written to /var/log/journal/system.journal, once. *)
Lemma write_to_journal_witness : exists h m d w' evs x,
  sample_system = (Ok h, m, d)
  /\ write_to_journal sample_env write_fuel (fun _ => []) sample_answers_of sample_logdir sample_rundir 999 sample_stale id
       0 sample_items 6 (sample_world h d) = (Ok tt, w')
  /\ stored_in sample_env sample_logdir sample_rundir w' (play evs {[system_path sample_logdir := []]})
  /\ writes evs = [(system_path sample_logdir, x)].
Proof.
  destruct sample_system_logs as (f & m & d & E & _). pose proof (sample_ready _ _ _ E) as Hready.
  pose proof (sample_stored _ _ _ E) as Hst. pose proof (sample_tried_runs _ _ _ E) as (Hdue & (p & w2 & Happ) & _).
  pose proof (fun w' => sample_looks _ _ _ w' E) as Hlooks. revert Hready Hst Hdue Happ Hlooks.
  set (h := mkOpenFile _ _ _ _) in *. intros Hready Hst Hdue Happ Hlooks.
  destruct (write_to_journal_correct sample_env write_fuel (fun _ => []) sample_answers_of sample_logdir sample_rundir 999 sample_stale id
    0 sample_items 6 (sample_world h d) {[system_path sample_logdir := []]})
    as (w' & evs & Hrun & Hst' & _ & _ & Honce & _).
  - exact sample_mmap.
  - exact sample_page.
  - intros src b Hc. discriminate Hc.
  - exact sample_dirs.
  - intros t. split; [exact sample_answers|]. split; [|split; unfold is_u64; simpl; lia].
    intros l Hl. injection Hl as <-. split; [constructor|]. intros i de Hi. discriminate Hi.
  - intros x. reflexivity.
  - discriminate.
  - exact Hst.
  - intros w'' Hl. apply Hlooks in Hl. rewrite Hl. exact Hready.
  - assert (first 0 (sample_world h d) = (Ok (Some (SYSTEM, false)), mkHost (sample_server h) d 1)) as Hfirst.
    { apply sample_first. exact Hdue. }
    destruct (Honce _ _ _ _ _ Hfirst Happ) as [x Hx]. exists h, m, d, w', evs, x.
    split; [exact E|]. split; [exact Hrun|]. split; [exact Hst'|exact Hx].
Defined.

End Sample.
