(* ===== verification/Verify.v ===== *)
(** src/journalctl/journal-verify.c: checking the objects of a journal file, and that
    what refers to them is consistent. *)
From S2P Require Import Prelude Lookup3 Memory Uuid JournalDef JournalFile.

(** The three temporary files, which hold the offsets of the objects. *)
Inductive temp := data_fd | entry_fd | entry_array_fd.

(** What the calls for them answer: 0 or an errno.  [ve_found_last] is the
    uninitialised [found_last]. *)
Record VerifyEnv := mkVerifyEnv {
  ve_mkstemp : temp -> Z;
  ve_write : temp -> Z -> Z;
  ve_get : temp -> Z -> Z;
  ve_found_last : bool }.

Section Verify.
Context (e : Env) (fuel : nat) (v : VerifyEnv).

(** * Single objects *)

Definition valid_at (a : Z) : M bool := x <- rd a ;; ret (VALID64 x).

(** A loop over the items [i], [i + 1], ... of an object, ended by the first bad one. *)
Fixpoint each_item (check : Z -> M unit) (k : nat) (i : Z) : M unit :=
  match k with
  | O => ret tt
  | S k => check i ;; each_item check k (i + 1)
  end.

Definition verify_data_object (o flags size : Z) : M unit :=
  entry <- rd (o + data_entry_offset) ;;
  n <- rd (o + data_n_entries) ;;
  fail_if (xorb (entry =? 0) (n =? 0)) EBADMSG ;;
  fail_if (u64 (size - data_payload) <=? 0) EBADMSG ;;
  h1 <- rd (o + data_hash) ;;
  payload <- rdbytes (o + data_payload) (size - data_payload) ;;
  let compression := Z.land flags OBJECT_COMPRESSION_MASK in
  b <- (if negb (compression =? 0)
        then match decompress_blob e compression payload with
             | Ok b => ret b
             | Err er => err er
             | Crash => crash
             | NoFuel => nofuel
             end
        else ret payload) ;;
  fail_if (negb (h1 =? data_hash64 b)) EBADMSG ;;
  v1 <- valid_at (o + data_next_hash_offset) ;;
  v2 <- valid_at (o + data_next_field_offset) ;;
  v3 <- valid_at (o + data_entry_offset) ;;
  v4 <- valid_at (o + data_entry_array_offset) ;;
  fail_if (negb (v1 && v2 && v3 && v4)) EBADMSG.

Definition verify_field_object (o size : Z) : M unit :=
  fail_if (u64 (size - field_payload) <=? 0) EBADMSG ;;
  v1 <- valid_at (o + field_next_hash_offset) ;;
  v2 <- valid_at (o + field_head_data_offset) ;;
  fail_if (negb (v1 && v2)) EBADMSG.

Definition verify_entry_item (o i : Z) : M unit :=
  q <- rd (entry_item o i) ;;
  fail_if ((q =? 0) || negb (VALID64 q)) EBADMSG.

Definition verify_entry_object (o size : Z) : M unit :=
  fail_if (negb (u64 (size - entry_items) mod sizeof_EntryItem =? 0)) EBADMSG ;;
  fail_if (u64 (size - entry_items) / sizeof_EntryItem <=? 0) EBADMSG ;;
  seqnum <- rd (o + entry_seqnum) ;;
  fail_if (seqnum <=? 0) EBADMSG ;;
  realtime <- rd (o + entry_realtime) ;;
  fail_if (negb (VALID_REALTIME realtime)) EBADMSG ;;
  monotonic <- rd (o + entry_monotonic) ;;
  fail_if (negb (VALID_MONOTONIC monotonic)) EBADMSG ;;
  n <- journal_file_entry_n_items o ;;
  each_item (verify_entry_item o) (Z.to_nat n) 0.

Definition verify_hash_item (o i : Z) : M unit :=
  head <- rd (head_hash_offset (o + hash_table_items) i) ;;
  tail <- rd (tail_hash_offset (o + hash_table_items) i) ;;
  fail_if (negb (head =? 0) && negb (VALID64 head)) EBADMSG ;;
  fail_if (negb (tail =? 0) && negb (VALID64 tail)) EBADMSG ;;
  fail_if (xorb (negb (head =? 0)) (negb (tail =? 0))) EBADMSG.

Definition verify_hash_table_object (o size : Z) : M unit :=
  fail_if (negb (u64 (size - hash_table_items) mod sizeof_HashItem =? 0)
           || (u64 (size - hash_table_items) / sizeof_HashItem <=? 0)) EBADMSG ;;
  n <- journal_file_hash_table_n_items o ;;
  each_item (verify_hash_item o) (Z.to_nat n) 0.

Definition verify_array_item (o i : Z) : M unit :=
  q <- rd (array_item o i) ;;
  fail_if (negb (q =? 0) && negb (VALID64 q)) EBADMSG.

Definition verify_entry_array_object (o size : Z) : M unit :=
  fail_if (negb (u64 (size - entry_array_items) mod 8 =? 0)
           || (u64 (size - entry_array_items) / 8 <=? 0)) EBADMSG ;;
  v1 <- valid_at (o + entry_array_next) ;;
  fail_if (negb v1) EBADMSG ;;
  n <- journal_file_entry_array_n_items o ;;
  each_item (verify_array_item o) (Z.to_nat n) 0.

Definition journal_file_object_verify (o : Z) : M unit :=
  flags <- rdb (o + obj_flags) ;;
  ty <- rdb (o + obj_type) ;;
  size <- rd (o + obj_size) ;;
  fail_if (negb (Z.land flags OBJECT_COMPRESSED_XZ =? 0) && negb (ty =? OBJECT_DATA)) EBADMSG ;;
  if ty =? OBJECT_DATA then verify_data_object o flags size
  else if ty =? OBJECT_FIELD then verify_field_object o size
  else if ty =? OBJECT_ENTRY then verify_entry_object o size
  else if (ty =? OBJECT_DATA_HASH_TABLE) || (ty =? OBJECT_FIELD_HASH_TABLE) then verify_hash_table_object o size
  else if ty =? OBJECT_ENTRY_ARRAY then verify_entry_array_object o size
  else ret tt.

(** * The temporary files *)

(** Bisection.  The result is -errno when the file cannot be mapped. *)
Fixpoint contains_loop (fd : temp) (l : list Z) (p : Z) (n : nat) (a b : Z) : M Z :=
  if b <=? a then ret 0 else
  match n with
  | O => nofuel
  | S n =>
      let c := (a + b) / 2 in
      let r := ve_get v fd (c * 8) in
      if negb (r =? 0) then ret (- r) else
      let z := default 0 (l !! Z.to_nat c) in
      if z =? p then ret 1
      else if b <=? a + 1 then ret 0
      else if p <? z then contains_loop fd l p n a c
      else contains_loop fd l p n c b
  end.

Definition contains_uint64 (fd : temp) (l : list Z) (p : Z) : M Z :=
  contains_loop fd l p (S (length l)) 0 (zlen l).

(** [if (!contains_uint64(...)) return -EBADMSG;] *)
Definition known_object (fd : temp) (l : list Z) (p : Z) : M unit :=
  c <- contains_uint64 fd l p ;; fail_if (c =? 0) EBADMSG.

(** * References *)

(** The offsets that the first pass wrote to the temporary files. *)
Record Temps := mkTemps { tm_data : list Z; tm_entries : list Z; tm_arrays : list Z }.

Fixpoint points_to (k : nat) (o data_p i : Z) : M bool :=
  match k with
  | O => ret false
  | S k => q <- rd (entry_item o i) ;; if q =? data_p then ret true else points_to k o data_p (i + 1)
  end.

(** The bisection of one array of the main chain. *)
Fixpoint array_has (n : nat) (o p x y : Z) : M bool :=
  if y <=? x then ret false else
  match n with
  | O => nofuel
  | S n =>
      let z := (x + y) / 2 in
      q <- rd (array_item o z) ;;
      if q =? p then ret true
      else if y <=? x + 1 then ret false
      else if p <? q then array_has n o p x z
      else array_has n o p z y
  end.

(** An entry behind all that are listed is taken as listed. *)
Fixpoint in_main_array (k : nat) (p i n a : Z) : M unit :=
  if n <=? i then ret tt else
  match k with
  | O => nofuel
  | S k =>
      o <- journal_file_move_to_object e OBJECT_ENTRY_ARRAY a ;;
      m <- journal_file_entry_array_n_items o ;;
      let u := Z.min (n - i) m in
      q <- rd (array_item o (u - 1)) ;;
      if p <=? q then (found <- array_has fuel o p 0 u ;; fail_if (negb found) EBADMSG)
      else (next <- rd (o + entry_array_next) ;; in_main_array k p (u64 (i + u)) n next)
  end.

Definition entry_points_to_data (t : Temps) (entry_p data_p : Z) : M unit :=
  known_object entry_fd (tm_entries t) entry_p ;;
  o <- journal_file_move_to_object e OBJECT_ENTRY entry_p ;;
  n <- journal_file_entry_n_items o ;;
  found <- points_to (Z.to_nat n) o data_p 0 ;;
  fail_if (negb found) EBADMSG ;;
  n <- rd off_n_entries ;;
  a <- rd off_entry_array_offset ;;
  in_main_array fuel entry_p 0 n a.

(** The loops over a chain of entry arrays, of verify_data and verify_entry_array alike:
    the items of one array from [j], of index [i] among all [n], which must grow and pass
    the check; the index behind them and the last one. *)
Fixpoint array_items (check : Z -> M unit) (k : nat) (o a i j n m last : Z) : M (Z * Z) :=
  if (n <=? i) || (m <=? j) then ret (i, last) else
  match k with
  | O => nofuel
  | S k =>
      q <- rd (array_item o j) ;;
      fail_if (q <=? last) EBADMSG ;;
      check q ;;
      o <- journal_file_move_to_object e OBJECT_ENTRY_ARRAY a ;;
      array_items check k o a (i + 1) (j + 1) n m q
  end.

Fixpoint array_chain (t : Temps) (check : Z -> M unit) (k : nat) (a i n last : Z) : M unit :=
  if n <=? i then ret tt else
  match k with
  | O => nofuel
  | S k =>
      fail_if (a =? 0) EBADMSG ;;
      known_object entry_array_fd (tm_arrays t) a ;;
      o <- journal_file_move_to_object e OBJECT_ENTRY_ARRAY a ;;
      next <- rd (o + entry_array_next) ;;
      fail_if (negb (next =? 0) && (next <=? a)) EBADMSG ;;
      m <- journal_file_entry_array_n_items o ;;
      r <- array_items check fuel o a i 0 n m last ;;
      array_chain t check k next r.1 n r.2
  end.

Definition verify_data (t : Temps) (o p : Z) : M unit :=
  n <- rd (o + data_n_entries) ;;
  a <- rd (o + data_entry_array_offset) ;;
  fail_if (negb (a =? 0) && (n <? 2)) EBADMSG ;;
  if n =? 0 then ret tt else
  q <- rd (o + data_entry_offset) ;;
  assert_ (negb (q =? 0)) ;;
  entry_points_to_data t q p ;;
  array_chain t (fun q => entry_points_to_data t q p) fuel a 1 n q.

(** One hash chain; the last object of it. *)
Fixpoint verify_hash_chain (t : Temps) (k : nat) (i n p last : Z) : M Z :=
  if p =? 0 then ret last else
  match k with
  | O => nofuel
  | S k =>
      known_object data_fd (tm_data t) p ;;
      o <- journal_file_move_to_object e OBJECT_DATA p ;;
      next <- rd (o + data_next_hash_offset) ;;
      fail_if (negb (next =? 0) && (next <=? p)) EBADMSG ;;
      h <- rd (o + data_hash) ;;
      fail_if (negb (h mod n =? i)) EBADMSG ;;
      verify_data t o p ;;
      verify_hash_chain t k i n next p
  end.

(** The buckets from [i]; [k] are left. *)
Fixpoint verify_buckets (t : Temps) (k : nat) (i n : Z) : M unit :=
  match k with
  | O => ret tt
  | S k =>
      table <- gets jf_data_hash_table ;;
      p <- rd (head_hash_offset table i) ;;
      last <- verify_hash_chain t fuel i n p 0 ;;
      tail <- rd (tail_hash_offset table i) ;;
      fail_if (negb (last =? tail)) EBADMSG ;;
      verify_buckets t k (i + 1) n
  end.

Definition verify_hash_table (t : Temps) : M unit :=
  size <- rd off_data_hash_table_size ;;
  let n := size / sizeof_HashItem in
  verify_buckets t (Z.to_nat n) 0 n.

(** No check for a cycle: the walk may never end. *)
Fixpoint in_hash_chain (k : nat) (p q : Z) : M bool :=
  if q =? 0 then ret false else
  match k with
  | O => nofuel
  | S k =>
      if p =? q then ret true else
      o <- journal_file_move_to_object e OBJECT_DATA q ;;
      next <- rd (o + data_next_hash_offset) ;;
      in_hash_chain k p next
  end.

(** Division by an empty table is a signal. *)
Definition data_object_in_hash_table (hash p : Z) : M bool :=
  size <- rd off_data_hash_table_size ;;
  let n := size / sizeof_HashItem in
  assert_ (negb (n =? 0)) ;;
  table <- gets jf_data_hash_table ;;
  q <- rd (head_hash_offset table (hash mod n)) ;;
  in_hash_chain fuel p q.

Definition verify_item (t : Temps) (o i : Z) : M unit :=
  q <- rd (entry_item o i) ;;
  h <- rd (entry_item o i + 8) ;;
  known_object data_fd (tm_data t) q ;;
  u <- journal_file_move_to_object e OBJECT_DATA q ;;
  h' <- rd (u + data_hash) ;;
  fail_if (negb (h' =? h)) EBADMSG ;;
  found <- data_object_in_hash_table h q ;;
  fail_if (negb found) EBADMSG.

Definition verify_entry (t : Temps) (o : Z) : M unit :=
  n <- journal_file_entry_n_items o ;;
  each_item (verify_item t o) (Z.to_nat n) 0.

Definition verify_entry_at (t : Temps) (p : Z) : M unit :=
  known_object entry_fd (tm_entries t) p ;;
  o <- journal_file_move_to_object e OBJECT_ENTRY p ;;
  verify_entry t o.

Definition verify_entry_array (t : Temps) : M unit :=
  n <- rd off_n_entries ;;
  a <- rd off_entry_array_offset ;;
  array_chain t (verify_entry_at t) fuel a 0 n 0.

(** * The first pass *)

(** The variables of journal_file_verify.  The counters of the data objects, entries and
    arrays are the lengths of the files they are written to. *)
Record Pass := mkPass {
  ps_temps : Temps;
  ps_objects : Z;
  ps_fields : Z;
  ps_data_tables : Z;
  ps_field_tables : Z;
  ps_seqnum : option Z;
  ps_monotonic : option (Z * list Z);
  ps_realtime : option Z;
  ps_main_array : bool;
  ps_found_last : bool }.

Definition first_pass : Pass := mkPass (mkTemps [] [] []) 0 0 0 0 None None None false (ve_found_last v).

Definition set_temps (s : Pass) (t : Temps) : Pass :=
  mkPass t (ps_objects s) (ps_fields s) (ps_data_tables s) (ps_field_tables s) (ps_seqnum s) (ps_monotonic s)
    (ps_realtime s) (ps_main_array s) (ps_found_last s).

(** Another object, which may be the last one. *)
Definition count_object (s : Pass) (is_last : bool) : Pass :=
  mkPass (ps_temps s) (ps_objects s + 1) (ps_fields s) (ps_data_tables s) (ps_field_tables s) (ps_seqnum s)
    (ps_monotonic s) (ps_realtime s) (ps_main_array s) (is_last || ps_found_last s).

Definition count_tables (s : Pass) (fields data_tables field_tables : Z) : Pass :=
  mkPass (ps_temps s) (ps_objects s) (ps_fields s + fields) (ps_data_tables s + data_tables)
    (ps_field_tables s + field_tables) (ps_seqnum s) (ps_monotonic s) (ps_realtime s) (ps_main_array s)
    (ps_found_last s).

Definition set_main_array (s : Pass) : Pass :=
  mkPass (ps_temps s) (ps_objects s) (ps_fields s) (ps_data_tables s) (ps_field_tables s) (ps_seqnum s)
    (ps_monotonic s) (ps_realtime s) true (ps_found_last s).

Definition write_uint64 (fd : temp) (l : list Z) (p : Z) : M (list Z) :=
  let r := ve_write v fd (8 * zlen l) in
  fail_if (negb (r =? 0)) r ;; ret (l ++ [p]).

Definition pass_data (p : Z) (s : Pass) : M Pass :=
  let t := ps_temps s in
  l <- write_uint64 data_fd (tm_data t) p ;;
  ret (set_temps s (mkTemps l (tm_entries t) (tm_arrays t))).

Definition pass_entry (o p : Z) (s : Pass) : M Pass :=
  let t := ps_temps s in
  l <- write_uint64 entry_fd (tm_entries t) p ;;
  seqnum <- rd (o + entry_seqnum) ;;
  head <- rd off_head_entry_seqnum ;;
  fail_if (match ps_seqnum s with None => negb (seqnum =? head) | Some q => seqnum <=? q end) EBADMSG ;;
  monotonic <- rd (o + entry_monotonic) ;;
  boot_id <- rdbytes (o + entry_boot_id) 16 ;;
  fail_if (match ps_monotonic s with
           | Some (m, b) => negb (uuid_equal b boot_id =? 0) && (monotonic <? m)
           | None => false
           end) EBADMSG ;;
  realtime <- rd (o + entry_realtime) ;;
  head <- rd off_head_entry_realtime ;;
  fail_if (match ps_realtime s with None => negb (realtime =? head) | Some _ => false end) EBADMSG ;;
  ret (mkPass (mkTemps (tm_data t) l (tm_arrays t)) (ps_objects s) (ps_fields s) (ps_data_tables s)
         (ps_field_tables s) (Some seqnum) (Some (monotonic, boot_id)) (Some realtime) (ps_main_array s)
         (ps_found_last s)).

(** [seen]: how many tables of the kind there were; two are accepted. *)
Definition pass_table (off_offset off_size seen o p : Z) : M unit :=
  fail_if (1 <? seen) EBADMSG ;;
  offset <- rd off_offset ;;
  fail_if (negb (offset =? u64 (p + hash_table_items))) EBADMSG ;;
  size <- rd off_size ;;
  s <- rd (o + obj_size) ;;
  fail_if (negb (size =? u64 (s - hash_table_items))) EBADMSG.

Definition pass_array (p : Z) (s : Pass) : M Pass :=
  let t := ps_temps s in
  l <- write_uint64 entry_array_fd (tm_arrays t) p ;;
  let s := set_temps s (mkTemps (tm_data t) (tm_entries t) l) in
  main <- rd off_entry_array_offset ;;
  if p =? main then (fail_if (ps_main_array s) EBADMSG ;; ret (set_main_array s)) else ret s.

Definition pass_object (ty o p : Z) (s : Pass) : M Pass :=
  if ty =? OBJECT_DATA then pass_data p s
  else if ty =? OBJECT_FIELD then ret (count_tables s 1 0 0)
  else if ty =? OBJECT_ENTRY then pass_entry o p s
  else if ty =? OBJECT_DATA_HASH_TABLE then
    (pass_table off_data_hash_table_offset off_data_hash_table_size (ps_data_tables s) o p ;;
     ret (count_tables s 0 1 0))
  else if ty =? OBJECT_FIELD_HASH_TABLE then
    (pass_table off_field_hash_table_offset off_field_hash_table_size (ps_field_tables s) o p ;;
     ret (count_tables s 0 0 1))
  else if ty =? OBJECT_ENTRY_ARRAY then pass_array p s
  else ret s.

(** The objects from [p] to the last one.  With a progress bar the position is divided
    by tail_object_offset. *)
Fixpoint pass_objects (show_progress : bool) (k : nat) (p : Z) (s : Pass) : M Pass :=
  if p =? 0 then ret s else
  match k with
  | O => nofuel
  | S k =>
      tail <- rd off_tail_object_offset ;;
      assert_ (negb (show_progress && (tail =? 0))) ;;
      o <- journal_file_move_to_object e (-1) p ;;
      fail_if (tail <? p) EBADMSG ;;
      let s := count_object s (p =? tail) in
      journal_file_object_verify o ;;
      flags <- rdb (o + obj_flags) ;;
      let xz := negb (Z.land flags OBJECT_COMPRESSED_XZ =? 0) in
      let lz4 := negb (Z.land flags OBJECT_COMPRESSED_LZ4 =? 0) in
      incompatible <- gets (fun f => load32 (jf_mem f) off_incompatible_flags) ;;
      fail_if (xz && lz4) EINVAL ;;
      fail_if (xz && (Z.land incompatible HEADER_INCOMPATIBLE_COMPRESSED_XZ =? 0)) EBADMSG ;;
      fail_if (lz4 && (Z.land incompatible HEADER_INCOMPATIBLE_COMPRESSED_LZ4 =? 0)) EBADMSG ;;
      ty <- rdb (o + obj_type) ;;
      s <- pass_object ty o p s ;;
      size <- rd (o + obj_size) ;;
      pass_objects show_progress k (if p =? tail then 0 else u64 (p + ALIGN64 size)) s
  end.

(** What is compared at the end of the pass. *)
Definition pass_complete (s : Pass) : M unit :=
  let t := ps_temps s in
  fail_if (negb (ps_found_last s)) EBADMSG ;;
  f <- get ;;
  fail_if (negb (ps_objects s =? hdr off_n_objects f)) EBADMSG ;;
  fail_if (negb (zlen (tm_entries t) =? hdr off_n_entries f)) EBADMSG ;;
  fail_if (header_contains off_n_data f && negb (zlen (tm_data t) =? hdr off_n_data f)) EBADMSG ;;
  fail_if (header_contains off_n_fields f && negb (ps_fields s =? hdr off_n_fields f)) EBADMSG ;;
  fail_if (header_contains off_n_entry_arrays f && negb (zlen (tm_arrays t) =? hdr off_n_entry_arrays f)) EBADMSG ;;
  fail_if (negb (ps_data_tables s =? 1)) EBADMSG ;;
  fail_if (negb (ps_field_tables s =? 1)) EBADMSG ;;
  fail_if (negb (ps_main_array s)) EBADMSG ;;
  fail_if (match ps_seqnum s with Some q => negb (q =? hdr off_tail_entry_seqnum f) | None => false end) EBADMSG ;;
  fail_if (match ps_monotonic s with
           | Some (m, b) => (uuid_equal b (load_bytes (jf_mem f) off_boot_id 16) =? 0)
                            || negb (m =? hdr off_tail_entry_monotonic f)
           | None => false
           end) EBADMSG ;;
  fail_if (match ps_realtime s with Some r => negb (r =? hdr off_tail_entry_realtime f) | None => false end) EBADMSG.

Fixpoint reserved_zero (k : nat) (a : Z) : M unit :=
  match k with
  | O => ret tt
  | S k => b <- rdb a ;; fail_if (negb (b =? 0)) EBADMSG ;; reserved_zero k (a + 1)
  end.

Definition make_temp (fd : temp) : M unit := fail_if (negb (ve_mkstemp v fd =? 0)) (ve_mkstemp v fd).

Definition journal_file_verify (show_progress : bool) : M unit :=
  make_temp data_fd ;;
  make_temp entry_fd ;;
  make_temp entry_array_fd ;;
  compatible <- gets (fun f => load32 (jf_mem f) off_compatible_flags) ;;
  fail_if (negb (compatible =? 0)) ENOTSUP ;;
  reserved_zero 7 off_reserved ;;
  p <- rd off_header_size ;;
  s <- pass_objects show_progress fuel p first_pass ;;
  pass_complete s ;;
  verify_entry_array (ps_temps s) ;;
  verify_hash_table (ps_temps s).

End Verify.
