(* ===== verification/VerifySpec.v ===== *)
(** What a successful journal_file_verify says about a file: its second pass over the
    references, its first pass over the objects, and what a file is that it accepts. *)
From S2P Require Import Prelude Lookup3 Memory Uuid JournalDef JournalFile ObjectLemmas ArenaProofs HeaderProofs.
From S2P Require Import HashTableProofs DataProofs StoreProofs BisectProofs JournalInv JournalSpec Verify StoreSamples.


(** * Successful runs *)

Lemma bind_Ok {A B} (m : M A) (k : A -> M B) f b f' :
  bind m k f = (Ok b, f') -> exists a f1, m f = (Ok a, f1) /\ k a f1 = (Ok b, f').
Proof. unfold bind. destruct (m f) as [[a| | |] f1]; [eauto|discriminate..]. Qed.

Lemma fail_if_Ok {B} (c : bool) er (k : unit -> M B) f r : bind (fail_if c er) k f = (Ok r.1, r.2) -> c = false /\ k tt f = (Ok r.1, r.2).
Proof. by destruct c. Qed.

Lemma fail_if_Ok1 (c : bool) er f f' : fail_if c er f = (Ok tt, f') -> c = false /\ f' = f.
Proof. destruct c; [discriminate|]. by intros [= <-]. Qed.

Lemma assert_Ok {B} (c : bool) (k : unit -> M B) f b f' : bind (assert_ c) k f = (Ok b, f') -> c = true /\ k tt f = (Ok b, f').
Proof. by destruct c. Qed.

(** One more step of a run that succeeded. *)
Ltac take_step H :=
  autorewrite with run in H;
  match type of H with
  | bind (fail_if ?c ?e) _ _ = _ =>
      let Hc := fresh "Hc" in
      apply (fail_if_Ok c e _ _ (_, _)) in H as [Hc H]; cbn [fst snd] in H
  | bind (assert_ ?c) _ _ = _ => let Hc := fresh "Hc" in apply assert_Ok in H as [Hc H]
  | fail_if _ _ _ = _ => let Hc := fresh "Hc" in apply fail_if_Ok1 in H as [Hc ->]
  end.

(** A file as it is after opening: its size is known. *)
Record measured (f : JournalFile) : Prop := {
  ms_mem : mem_ok (jf_mem f);
  ms_last : jf_last_size f = jf_size f;
  ms_size : jf_size f < 2 ^ 63 }.

(** Nothing is mapped that would not fit into the address space. *)
Definition mmap_within (e : Env) : Prop := forall c o s, env_mmap e c o s = 0 -> o + s < 2 ^ 63.

Lemma set_sizes_same f : measured f -> set_sizes f (jf_size f) (jf_size f) = f.
Proof. intros [_ H _]. destruct f. simpl in *. by subst. Qed.

Section Verified.
Context (e : Env) (f : JournalFile) (Hm : measured f) (Hmap : mmap_within e).

Lemma move_to_Ok c p s o f' :
  0 <= p -> 0 <= s -> journal_file_move_to e c p s f = (Ok o, f') -> f' = f /\ o = p /\ p + s <= jf_last_size f.
Proof.
  intros Hp Hs H. unfold journal_file_move_to in H. take_step H. autorewrite with run in H. apply bind_Ok in H as ([] & f1 & H1 & H).
  assert (f1 = f /\ u64 (p + s) <= jf_last_size f) as [-> Hl].
  { unfold when in H1. destruct (Z.ltb_spec (jf_last_size f) (u64 (p + s))); [|by injection H1 as <-].
    take_step H1. autorewrite with run in H1. rewrite set_sizes_same in H1 by done. apply fail_if_Ok1 in H1 as [Hc1 ->].
    destruct Hm as [_ Hl _]. rewrite Hl in *. bprop. lia. }
  take_step H. injection H as <- <-. apply negb_false_iff, Z.eqb_eq, Hmap in Hc0. split; [done|]. split; [done|].
  rewrite u64_small in Hl; [lia|]. unfold is_u64. lia.
Qed.

Lemma move_to_object_Ok t p o f' :
  0 <= p -> journal_file_move_to_object e t p f = (Ok o, f') ->
  f' = f /\ o = p /\ (0 < p -> exists ty s, is_object f ty p s /\ (0 < t -> ty = t)).
Proof.
  intros Hp H. unfold journal_file_move_to_object in H. take_step H. apply bind_Ok in H as (o1 & f1 & H1 & H).
  apply move_to_Ok in H1 as (-> & -> & Hl1); [|lia|done]. autorewrite with run in H.
  do 4 take_step H. pose proof (ms_size _ Hm). pose proof (ms_last _ Hm).
  set (s := load64 (jf_mem f) (p + obj_size)) in *. set (ty := byte_at (jf_mem f) (p + obj_type)) in *.
  unfold sizeof_ObjectHeader, OBJECT_UNUSED in *.
  assert (f' = f /\ o = p /\ p + s <= jf_last_size f) as (-> & -> & Hl).
  { destruct (Z.ltb_spec 16 s).
    - apply move_to_Ok in H as (-> & -> & ?); [done|lia|lia].
    - injection H as <- <-. split; [done|]. split; [done|]. bprop. lia. }
  split; [done|]. split; [done|]. intros Hp0. exists ty, s. pose proof (minimum_header_size_ge ty). unfold sizeof_ObjectHeader in *.
  split.
  - split; unfold sizeof_ObjectHeader; try done; try (bprop; lia). by apply negb_false_iff.
  - intros Ht. destruct (Z.eqb_spec ty t); [done|]. apply Z.ltb_lt in Ht. rewrite Ht in Hc3. discriminate Hc3.
Qed.

(** * Single objects *)

Lemma each_item_Ok (check : Z -> M unit) (P : Z -> Prop) :
  (forall i f', check i f = (Ok tt, f') -> f' = f /\ P i) ->
  forall k i f', each_item check k i f = (Ok tt, f') -> f' = f /\ forall j, i <= j < i + Z.of_nat k -> P j.
Proof.
  intros Hc. induction k as [|k IH]; intros i f' H; simpl in H.
  - injection H as <-. split; [done|lia].
  - apply bind_Ok in H as ([] & f1 & H1 & H). apply Hc in H1 as [-> Hi]. apply IH in H as [-> Hk].
    split; [done|]. intros j Hj. destruct (Z.eq_dec j i) as [->|]; [done|]. apply Hk. lia.
Qed.

(** An entry object and an entry array of whole items. *)
Definition entry_count (p : Z) : Z := (load64 (jf_mem f) (p + obj_size) - entry_items) / sizeof_EntryItem.

Record entry_valid (p : Z) : Prop := {
  ev_seqnum : 0 < load64 (jf_mem f) (p + entry_seqnum);
  ev_realtime : VALID_REALTIME (load64 (jf_mem f) (p + entry_realtime)) = true;
  ev_monotonic : VALID_MONOTONIC (load64 (jf_mem f) (p + entry_monotonic)) = true;
  ev_count : 0 < entry_count p /\ load64 (jf_mem f) (p + obj_size) = entry_items + sizeof_EntryItem * entry_count p;
  ev_items : forall i, 0 <= i < entry_count p -> load64 (jf_mem f) (entry_item p i) <> 0 }.

Lemma verify_data_Ok p s flags f' :
  is_object f OBJECT_DATA p s -> flags = byte_at (jf_mem f) (p + obj_flags) ->
  verify_data_object e p flags s f = (Ok tt, f') -> f' = f /\ data_good e f p /\ data_payload < s.
Proof.
  intros Ho -> H. unfold verify_data_object in H. do 2 take_step H. autorewrite with run in H.
  pose proof (obj_min _ _ _ _ Ho) as Hmin. pose proof (obj_size_eq _ _ _ _ Ho) as Hs. cbn in Hmin.
  pose proof (load64_range (jf_mem f) (p + obj_size) (ms_mem _ Hm)) as Hr. unfold data_payload in *.
  rewrite u64_small in Hc0 by (unfold is_u64 in *; lia). apply Z.leb_gt in Hc0.
  set (src := load_bytes (jf_mem f) (p + 64) (Z.to_nat (s - 64))) in *.
  apply bind_Ok in H as (b & f1 & H1 & H). autorewrite with run in H.
  assert (f1 = f /\ data_of e f p = Some b) as [-> Hb].
  { unfold data_of, data_compressed, data_raw. unfold data_payload. rewrite Hs. fold src.
    destruct (negb (Z.land _ OBJECT_COMPRESSION_MASK =? 0)); [|by injection H1 as <- <-].
    unfold decompress_blob in H1. destruct (_ =? OBJECT_COMPRESSED_XZ); [|by destruct (_ =? OBJECT_COMPRESSED_LZ4)].
    destruct (env_decompress e src); [by injection H1 as <- <-|discriminate H1]. }
  take_step H. unfold valid_at in H. autorewrite with run in H. repeat take_step H. split; [done|].
  split; [|lia]. split; [|intros; unfold data_payload; lia].
  exists b. split; [done|]. apply negb_false_iff, Z.eqb_eq in Hc1. done.
Qed.

Lemma sized_u64 ty p s n : is_object f ty p s -> 0 <= n -> n <= minimum_header_size ty -> u64 (s - n) = s - n.
Proof.
  intros Ho Hn Hle. pose proof (obj_min _ _ _ _ Ho). pose proof (obj_end _ _ _ _ Ho). pose proof (obj_nowrap _ _ _ _ Ho).
  pose proof (obj_pos _ _ _ _ Ho). apply u64_small. unfold is_u64. lia.
Qed.

Lemma entry_count_ok p s : is_object f OBJECT_ENTRY p s -> journal_file_entry_n_items p f = (Ok (entry_count p), f).
Proof.
  intros Ho. unfold journal_file_entry_n_items, entry_count. run. rewrite (obj_type_eq _ _ _ _ Ho), (obj_size_eq _ _ _ _ Ho).
  by rewrite (sized_u64 _ _ _ _ Ho).
Qed.

Lemma verify_entry_object_Ok p s f' :
  is_object f OBJECT_ENTRY p s -> verify_entry_object p s f = (Ok tt, f') -> f' = f /\ entry_valid p.
Proof.
  intros Ho H. unfold verify_entry_object in H. rewrite (sized_u64 _ _ _ _ Ho) in H by done. repeat take_step H.
  rewrite (run_bind _ _ _ _ _ (entry_count_ok p s Ho)) in H.
  apply (each_item_Ok _ (fun i => load64 (jf_mem f) (entry_item p i) <> 0)) in H as [-> Hit].
  - split; [done|]. pose proof (obj_size_eq _ _ _ _ Ho) as Hs.
    apply negb_false_iff, Z.eqb_eq in Hc. apply Z.leb_gt in Hc0, Hc1. apply negb_false_iff in Hc2, Hc3.
    assert (entry_count p = (s - entry_items) / sizeof_EntryItem) as En by (unfold entry_count; by rewrite Hs).
    split; [done|done|done|..].
    + rewrite En, Hs. split; [done|]. unfold sizeof_EntryItem in *. pose proof (Z.div_mod (s - entry_items) 16). lia.
    + intros i Hi. apply Hit. lia.
  - intros i g Hi. unfold verify_entry_item in Hi. take_step Hi. split; [done|]. bprop. done.
Qed.

Lemma verify_array_object_Ok p s f' :
  is_object f OBJECT_ENTRY_ARRAY p s -> verify_entry_array_object p s f = (Ok tt, f') ->
  f' = f /\ exists k, s = entry_array_items + 8 * k /\ is_array f p k.
Proof.
  intros Ho H. unfold verify_entry_array_object in H. rewrite (sized_u64 _ _ _ _ Ho) in H by done.
  take_step H. unfold valid_at in H. autorewrite with run in H. take_step H.
  apply orb_false_iff in Hc as [Hc1 Hc2]. apply negb_false_iff, Z.eqb_eq in Hc1. apply Z.leb_gt in Hc2.
  set (k := (s - entry_array_items) / 8) in *. assert (s = entry_array_items + 8 * k) as Hk.
  { pose proof (Z.div_mod (s - entry_array_items) 8). fold k in H0. lia. }
  assert (is_array f p k) as Ha by (split; [by rewrite <- Hk|done]).
  rewrite (run_bind _ _ _ _ _ (n_items_ok f p k Ha)) in H.
  apply (each_item_Ok _ (fun _ => True)) in H as [-> _].
  - split; [done|]. by exists k.
  - intros i g Hi. unfold verify_array_item in Hi. take_step Hi. done.
Qed.

Lemma verify_table_object_Ok ty p s f' :
  ty = OBJECT_DATA_HASH_TABLE \/ ty = OBJECT_FIELD_HASH_TABLE -> is_object f ty p s ->
  verify_hash_table_object p s f = (Ok tt, f') -> f' = f /\ (s - hash_table_items) mod sizeof_HashItem = 0 /\ hash_table_items < s.
Proof.
  intros Hty Ho H. unfold verify_hash_table_object in H.
  rewrite (sized_u64 _ _ _ _ Ho) in H by (by destruct Hty as [-> | ->]). take_step H.
  apply orb_false_iff in Hc as [Hc1 Hc2]. apply negb_false_iff, Z.eqb_eq in Hc1. apply Z.leb_gt in Hc2.
  unfold journal_file_hash_table_n_items in H. autorewrite with run in H.
  apply (each_item_Ok _ (fun _ => True)) in H as [-> _].
  - split; [done|]. split; [done|]. unfold sizeof_HashItem, hash_table_items in *.
    destruct (Z.le_gt_cases (s - 16) 0); [|lia]. assert ((s - 16) / 16 <= 0) by (apply Z.div_le_upper_bound; lia). lia.
  - intros i g Hi. unfold verify_hash_item in Hi. repeat take_step Hi. done.
Qed.

(** What is known of an object that was accepted. *)
Definition object_valid (o : Z * Z * Z) : Prop :=
  let '(p, ty, s) := o in
  (ty = OBJECT_DATA -> data_good e f p)
  /\ (ty = OBJECT_ENTRY -> entry_valid p)
  /\ (ty = OBJECT_ENTRY_ARRAY -> exists k, s = entry_array_items + 8 * k /\ is_array f p k)
  /\ (ty = OBJECT_DATA_HASH_TABLE \/ ty = OBJECT_FIELD_HASH_TABLE -> (s - hash_table_items) mod sizeof_HashItem = 0 /\ hash_table_items < s).

Lemma object_verify_Ok ty p s f' :
  is_object f ty p s -> journal_file_object_verify e p f = (Ok tt, f') -> f' = f /\ object_valid (p, ty, s).
Proof.
  intros Ho H. unfold journal_file_object_verify in H. take_step H.
  rewrite (obj_type_eq _ _ _ _ Ho), (obj_size_eq _ _ _ _ Ho) in H. unfold object_valid.
  destruct (Z.eqb_spec ty OBJECT_DATA) as [->|].
  { apply verify_data_Ok in H as (-> & Hg & _); [|done|done]. by split_and!; [..|intros [?|?]]. }
  destruct (Z.eqb_spec ty OBJECT_FIELD) as [->|].
  { unfold verify_field_object, valid_at in H. autorewrite with run in H. repeat take_step H. by split_and!; [..|intros [?|?]]. }
  destruct (Z.eqb_spec ty OBJECT_ENTRY) as [->|].
  { apply (verify_entry_object_Ok _ s) in H as [-> Hv]; [|done]. by split_and!; [..|intros [?|?]]. }
  destruct (_ || _) eqn:Et.
  { apply orb_true_iff in Et. rewrite !Z.eqb_eq in Et. apply (verify_table_object_Ok ty _ s) in H as [-> Hv]; [|done..].
    split_and!; [done|tauto|tauto|by destruct Et as [-> | ->]|done]. }
  destruct (Z.eqb_spec ty OBJECT_ENTRY_ARRAY) as [->|].
  { apply verify_array_object_Ok in H as [-> Hv]; [|done]. by split_and!; [..|intros [?|?]]. }
  injection H as <-. apply orb_false_iff in Et. rewrite !Z.eqb_neq in Et. split_and!; [done|tauto..].
Qed.

(** * References *)

Context (fuel : nat) (v : VerifyEnv) (Hget : forall fd a, ve_get v fd a = 0).

Lemma load_nonneg a : 0 <= load64 (jf_mem f) a.
Proof. apply (load64_range _ _ (ms_mem _ Hm)). Qed.
#[local] Hint Resolve load_nonneg : core.

Lemma contains_loop_Ok fd l p : forall n a b c f',
  0 <= a -> b <= zlen l -> contains_loop v fd l p n a b f = (Ok c, f') -> f' = f /\ (c <> 0 -> p ∈ l).
Proof.
  induction n as [|n IH]; intros a b c f' Ha Hb H; simpl in H.
  { destruct (b <=? a); [|discriminate H]. by injection H as <- <-. }
  destruct (Z.leb_spec b a); [by injection H as <- <-|]. rewrite Hget in H. cbn [negb Z.eqb] in H.
  assert (a <= (a + b) / 2 < b) by (split; [apply Z.div_le_lower_bound; lia|apply Z.div_lt_upper_bound; lia]).
  destruct (Z.eqb_spec (default 0 (l !! Z.to_nat ((a + b) / 2))) p) as [Hz|_].
  { injection H as <- <-. split; [done|]. intros _. destruct (l !! _) eqn:El.
    - simpl in Hz. subst. by eapply list_elem_of_lookup_2.
    - apply lookup_ge_None in El. unfold zlen in Hb. lia. }
  destruct (b <=? a + 1); [by injection H as <- <-|]. destruct (p <? _); apply IH in H; (done || lia).
Qed.

Lemma known_object_Ok fd l p f' : known_object v fd l p f = (Ok tt, f') -> f' = f /\ p ∈ l.
Proof.
  intros H. unfold known_object, contains_uint64 in H. apply bind_Ok in H as (c & f1 & H1 & H).
  apply contains_loop_Ok in H1 as [-> Hin]; [|lia|lia]. take_step H. split; [done|]. apply Hin. by apply Z.eqb_neq.
Qed.

(** The entry at [q] has an item that points to [d]. *)
Definition points (q d : Z) : Prop := exists i, 0 <= i < entry_count q /\ load64 (jf_mem f) (entry_item q i) = d.

Lemma points_to_Ok o d : forall k i b f',
  points_to k o d i f = (Ok b, f') ->
  f' = f /\ (b = true -> exists j, i <= j < i + Z.of_nat k /\ load64 (jf_mem f) (entry_item o j) = d).
Proof.
  induction k as [|k IH]; intros i b f' H; simpl in H; [by injection H as <- <-|]. autorewrite with run in H.
  destruct (Z.eqb_spec (load64 (jf_mem f) (entry_item o i)) d) as [E|_].
  - injection H as <- <-. split; [done|]. intros _. exists i. split; [lia|done].
  - apply IH in H as [-> Hb]. split; [done|]. intros Ht. destruct (Hb Ht) as (j & Hj & E). exists j. split; [lia|done].
Qed.

Lemma array_has_Ok o p : forall n x y b f', array_has n o p x y f = (Ok b, f') -> f' = f.
Proof.
  induction n as [|n IH]; intros x y b f' H; simpl in H; (destruct (y <=? x); [by injection H|]); [discriminate H|].
  autorewrite with run in H. destruct (_ =? p); [by injection H|]. destruct (y <=? x + 1); [by injection H|].
  destruct (p <? _); by apply IH in H.
Qed.

Lemma array_n_items_quiet a m f' : journal_file_entry_array_n_items a f = (Ok m, f') -> f' = f.
Proof. unfold journal_file_entry_array_n_items. autorewrite with run. by intros [= _ <-]. Qed.

Lemma in_main_array_Ok p : forall k i n a f', 0 <= a -> in_main_array e fuel k p i n a f = (Ok tt, f') -> f' = f.
Proof.
  induction k as [|k IH]; intros i n a f' Ha H; simpl in H; (destruct (n <=? i); [by injection H|]); [discriminate H|].
  apply bind_Ok in H as (o & f1 & H1 & H). apply move_to_object_Ok in H1 as (-> & -> & _); [|done..].
  apply bind_Ok in H as (m & f1 & H1 & H). apply array_n_items_quiet in H1 as ->. autorewrite with run in H.
  destruct (p <=? _).
  - apply bind_Ok in H as (b & f1 & H1 & H). apply array_has_Ok in H1 as ->. by take_step H.
  - autorewrite with run in H. by apply IH in H.
Qed.

Lemma entry_points_to_data_Ok t q d f' :
  (forall p, p ∈ tm_entries t -> 0 < p) ->
  entry_points_to_data e fuel v t q d f = (Ok tt, f') -> f' = f /\ q ∈ tm_entries t /\ points q d.
Proof.
  intros Hpos H. unfold entry_points_to_data in H. apply bind_Ok in H as ([] & f1 & H1 & H).
  apply known_object_Ok in H1 as [-> Hq]. pose proof (Hpos _ Hq) as Hq0.
  apply bind_Ok in H as (o & f1 & H1 & H). apply move_to_object_Ok in H1 as (-> & -> & Ho); [|lia].
  destruct (Ho Hq0) as (ty & s & Hob & Hty). specialize (Hty eq_refl). subst ty.
  rewrite (run_bind _ _ _ _ _ (entry_count_ok q s Hob)) in H.
  apply bind_Ok in H as (b & f1 & H1 & H). apply points_to_Ok in H1 as [-> Hb]. take_step H. autorewrite with run in H.
  apply in_main_array_Ok in H as ->; [|done]. split; [done|]. split; [done|]. apply negb_false_iff in Hc.
  destruct (Hb Hc) as (j & Hj & E). exists j. split; [|done]. lia.
Qed.

(** * Chains of entry arrays *)

(** Arrays one behind the other, from [a] to where the last one points. *)
Fixpoint chain_to (a : Z) (arrs : list (Z * Z)) (b : Z) : Prop :=
  match arrs with
  | [] => a = b
  | (a', k) :: arrs => a = a' /\ is_array f a k /\ chain_to (load64 (jf_mem f) (a + entry_array_next)) arrs b
  end.

(** The first [n] items of the chain at [a]. *)
Definition lists (a n : Z) (l : list Z) : Prop :=
  exists arrs b, chain_to a arrs b /\ 0 <= n <= caps arrs /\ l = take (Z.to_nat n) (items f arrs).

Lemma increasing_cons x y (l : list Z) : x < y -> StronglySorted Z.lt (y :: l) -> StronglySorted Z.lt (x :: y :: l).
Proof.
  intros Hxy Hs. constructor; [done|]. constructor; [done|]. inversion_clear Hs as [|? ? _ Hf].
  eapply Forall_impl; [exact Hf|]. intros z Hz. simpl in Hz. lia.
Qed.

Lemma last_behind (x y : Z) l : default x (last (y :: l)) = default y (last l).
Proof. rewrite last_cons. by destruct (last l). Qed.

Lemma increasing_app l : forall x l',
  StronglySorted Z.lt (x :: l) -> StronglySorted Z.lt (default x (last l) :: l') -> StronglySorted Z.lt (x :: l ++ l').
Proof.
  induction l as [|y l IH]; intros x l' H1 H2; [done|]. rewrite last_behind in H2. inversion_clear H1 as [|? ? Hs Hf].
  inversion_clear Hf as [|? ? Hxy _]. apply increasing_cons; [done|]. by apply IH.
Qed.

Lemma last_app_default (x : Z) l l' : default x (last (l ++ l')) = default (default x (last l)) (last l').
Proof. rewrite last_app. by destruct (last l'). Qed.

Section Chains.
Context (check : Z -> M unit) (P : Z -> Prop).
Hypothesis (Hcheck : forall q f', 0 <= q -> check q f = (Ok tt, f') -> f' = f /\ P q).

Lemma array_items_Ok a m n : is_array f a m -> forall k i j lst r f',
  0 <= j -> array_items e check k a a i j n m lst f = (Ok r, f') ->
  let l := map (arr_item f a) (seqZ j (Z.min (n - i) (m - j))) in
  f' = f /\ r = (i + zlen l, default lst (last l)) /\ StronglySorted Z.lt (lst :: l) /\ Forall P l.
Proof.
  intros Ha. induction k as [|k IH]; intros i j lst r f' Hj H; simpl in H;
    (destruct (_ || _) eqn:E;
      [apply orb_true_iff in E; rewrite !Z.leb_le in E; injection H as <- <-; rewrite seqZ_nil by lia;
       unfold zlen; simpl; rewrite Z.add_0_r; split_and!; repeat constructor|]); [discriminate H|].
  apply orb_false_iff in E. rewrite !Z.leb_gt in E. take_step H. fold (arr_item f a j) in H, Hc. apply Z.leb_gt in Hc.
  apply bind_Ok in H as ([] & f1 & H1 & H). apply Hcheck in H1 as [-> HP]; [|apply load_nonneg].
  apply bind_Ok in H as (o & f1 & H1 & H). apply move_to_object_Ok in H1 as (-> & -> & _); [|pose proof (obj_pos _ _ _ _ (proj1 Ha)); lia].
  apply IH in H; [|lia]. cbv zeta in H. destruct H as (-> & -> & Hs & Hf). rewrite (seqZ_cons j) by lia. change (Z.succ j) with (j + 1).
  replace (Z.min (n - (i + 1)) (m - (j + 1))) with (Z.pred (Z.min (n - i) (m - j))) in * by lia.
  cbn [map]. rewrite last_behind. split; [done|]. split; [|split; [by apply increasing_cons|by constructor]].
  f_equal. unfold zlen. cbn [length]. lia.
Qed.

Lemma take_items a m arrs k : 0 <= m -> 0 <= k ->
  take (Z.to_nat k) (items f ((a, m) :: arrs)) = map (arr_item f a) (seqZ 0 (Z.min k m)) ++ take (Z.to_nat (k - m)) (items f arrs).
Proof.
  intros Hm0 Hk. rewrite items_cons, take_app, arr_items_length by done. f_equal; [|f_equal; lia].
  unfold arr_items. cbn [fst snd]. rewrite firstn_map. f_equal. destruct (Z.le_gt_cases k m).
  - replace m with (k + (m - k)) at 1 by lia. rewrite seqZ_app by lia. rewrite take_app_length' by (rewrite length_seqZ; lia). f_equal. lia.
  - rewrite take_ge by (rewrite length_seqZ; lia). f_equal. lia.
Qed.

Lemma array_chain_Ok t n : (forall p, p ∈ tm_arrays t -> exists k, is_array f p k) -> forall k a i lst f',
  0 <= i <= n -> array_chain e fuel v t check k a i n lst f = (Ok tt, f') ->
  f' = f /\ exists l, lists a (n - i) l /\ StronglySorted Z.lt (lst :: l) /\ Forall P l.
Proof.
  intros Harr. induction k as [|k IH]; intros a i lst f' Hi H; simpl in H;
    (destruct (Z.leb_spec n i);
      [injection H as <-; split; [done|]; exists []; split; [|by repeat constructor];
       exists [], a; split; [done|]; simpl; split; [lia|]; by rewrite take_nil|]); [discriminate H|].
  take_step H. apply bind_Ok in H as ([] & f1 & H1 & H). apply known_object_Ok in H1 as [-> Ha].
  destruct (Harr _ Ha) as [m Hm']. assert (0 < a) as Hpos by apply Hm'. assert (0 < m) as Hm0 by apply Hm'.
  apply bind_Ok in H as (o & f1 & H1 & H). apply move_to_object_Ok in H1 as (-> & -> & _); [|lia]. take_step H.
  rewrite (run_bind _ _ _ _ _ (n_items_ok f a m Hm')) in H. apply bind_Ok in H as (r & f1 & H1 & H).
  apply (array_items_Ok a m n Hm') in H1; [|lia]. rewrite Z.sub_0_r in H1. cbv zeta in H1.
  set (l1 := map _ _) in H1. destruct H1 as (-> & -> & Hs1 & Hf1). cbn [fst snd] in H.
  assert (zlen l1 = Z.min (n - i) m) as Hl1 by (unfold l1, zlen; rewrite length_map, length_seqZ; lia).
  apply IH in H as (-> & l2 & (arrs & b & Hch & Hcap & ->) & Hs2 & Hf2); [|lia]. split; [done|].
  exists (l1 ++ take (Z.to_nat (n - (i + zlen l1))) (items f arrs)). split; [|split; [by apply increasing_app|by apply Forall_app_2]].
  exists ((a, m) :: arrs), b. cbn [chain_to caps]. split; [done|]. split; [lia|]. rewrite take_items by lia. f_equal. f_equal. lia.
Qed.

End Chains.

(** * Data objects and the hash table *)

(** The entries that a data object lists: one in itself, the others in its arrays. *)
Definition lists_entries (d : Z) (l : list Z) : Prop :=
  let n := load64 (jf_mem f) (d + data_n_entries) in
  (n = 0 /\ l = []) \/
  exists l', l = load64 (jf_mem f) (d + data_entry_offset) :: l' /\ lists (load64 (jf_mem f) (d + data_entry_array_offset)) (n - 1) l'.

Definition data_listed (t : Temps) (d : Z) : Prop :=
  exists l, lists_entries d l /\ StronglySorted Z.lt l /\ Forall (fun q => q ∈ tm_entries t /\ points q d) l.

(** The chain from [p]. *)
Fixpoint hash_walk (k : nat) (p : Z) : list Z :=
  match k with
  | O => []
  | S k => if p =? 0 then [] else p :: hash_walk k (load64 (jf_mem f) (p + data_next_hash_offset))
  end.

Definition table_size : Z := hdr off_data_hash_table_size f / sizeof_HashItem.

Definition bucket_chain (h : Z) : list Z := hash_walk fuel (load64 (jf_mem f) (head_hash_offset (jf_data_hash_table f) h)).

Section Temps.
Context (t : Temps) (objs : list (Z * Z * Z)).
Hypothesis (Hdata : forall p, p ∈ tm_data t -> exists s, (p, OBJECT_DATA, s) ∈ objs /\ is_object f OBJECT_DATA p s).
Hypothesis (Hentries : forall p, p ∈ tm_entries t -> exists s, is_object f OBJECT_ENTRY p s).
Hypothesis (Harrays : forall p, p ∈ tm_arrays t -> exists k, is_array f p k).

Lemma entry_pos p : p ∈ tm_entries t -> 0 < p.
Proof. intros Hp. destruct (Hentries p Hp) as [s Hs]. apply Hs. Qed.

Lemma verify_data_refs_Ok d f' : verify_data e fuel v t d d f = (Ok tt, f') -> f' = f /\ data_listed t d.
Proof.
  intros H. unfold verify_data in H. take_step H. unfold data_listed, lists_entries.
  destruct (Z.eqb_spec (load64 (jf_mem f) (d + data_n_entries)) 0) as [E|En].
  { injection H as <-. split; [done|]. exists []. split; [by left|]. by repeat constructor. }
  take_step H. apply bind_Ok in H as ([] & f1 & H1 & H). apply entry_points_to_data_Ok in H1 as (-> & Hq & Hp); [|exact entry_pos].
  pose proof (load_nonneg (d + data_n_entries)).
  eapply (array_chain_Ok _ (fun q => q ∈ tm_entries t /\ points q d)) in H as (-> & l & Hl & Hs & Hf); [|..|exact Harrays|lia].
  - split; [done|]. eexists. split; [right; by exists l|]. split; [done|]. by constructor.
  - intros q g _ Hg. apply entry_points_to_data_Ok in Hg as (-> & ? & ?); [done|exact entry_pos].
Qed.

Lemma verify_hash_chain_Ok i n : forall k p lst r f', 0 <= p ->
  verify_hash_chain e fuel v t k i n p lst f = (Ok r, f') ->
  let l := hash_walk k p in
  f' = f /\ r = default lst (last l) /\ hchain f objs OBJECT_DATA p l /\ StronglySorted Z.lt l
  /\ Forall (fun d => load64 (jf_mem f) (d + data_hash) mod n = i /\ d ∈ tm_data t /\ data_listed t d) l.
Proof.
  induction k as [|k IH]; intros p lst r f' Hp H; simpl in H |- *.
  { destruct (Z.eqb_spec p 0) as [->|]; [|discriminate H]. injection H as <- <-. by repeat constructor. }
  destruct (Z.eqb_spec p 0) as [->|Hp0]; [injection H as <- <-; by repeat constructor|].
  apply bind_Ok in H as ([] & f1 & H1 & H). apply known_object_Ok in H1 as [-> Hin].
  apply bind_Ok in H as (o & f1 & H1 & H). apply move_to_object_Ok in H1 as (-> & -> & _); [|done]. do 2 take_step H.
  apply bind_Ok in H as ([] & f1 & H1 & H). apply verify_data_refs_Ok in H1 as [-> Hl].
  apply IH in H; [|apply load_nonneg]. cbv zeta in H. set (l := hash_walk k _) in *. destruct H as (-> & -> & Hch & Hs & Hf).
  rewrite last_behind. apply negb_false_iff, Z.eqb_eq in Hc0. split; [done|]. split; [done|].
  split; [|split; [|by constructor]].
  - destruct (Hdata p Hin) as (s & Hs' & _). split; [done|]. split; [by exists s|]. exact Hch.
  - destruct l as [|x l]; [by repeat constructor|]. destruct Hch as [<- _]. apply increasing_cons; [|done].
    apply andb_false_iff in Hc as [Hc|Hc]; [|by apply Z.leb_gt in Hc]. apply negb_false_iff, Z.eqb_eq in Hc.
    exfalso. inversion_clear Hf as [|? ? (_ & Hx & _) _]. rewrite Hc in Hx. destruct (Hdata 0 Hx) as (? & _ & Ho). pose proof (obj_pos _ _ _ _ Ho). lia.
Qed.

(** One bucket. *)
Definition bucket_ok (n h : Z) : Prop :=
  let l := bucket_chain h in
  hchain f objs OBJECT_DATA (load64 (jf_mem f) (head_hash_offset (jf_data_hash_table f) h)) l
  /\ load64 (jf_mem f) (tail_hash_offset (jf_data_hash_table f) h) = default 0 (last l) /\ StronglySorted Z.lt l
  /\ Forall (fun d => load64 (jf_mem f) (d + data_hash) mod n = h /\ d ∈ tm_data t /\ data_listed t d) l.

Lemma verify_buckets_Ok n : forall k i f', verify_buckets e fuel v t k i n f = (Ok tt, f') ->
  f' = f /\ forall h, i <= h < i + Z.of_nat k -> bucket_ok n h.
Proof.
  induction k as [|k IH]; intros i f' H; simpl in H.
  - injection H as <-. split; [done|lia].
  - autorewrite with run in H. apply bind_Ok in H as (r & f1 & H1 & H). apply verify_hash_chain_Ok in H1; [|apply load_nonneg].
    cbv zeta in H1. destruct H1 as (-> & -> & Hb). take_step H. apply negb_false_iff, Z.eqb_eq in Hc.
    apply IH in H as [-> Hk]. split; [done|]. intros h Hh. destruct (Z.eq_dec h i) as [->|]; [|apply Hk; lia].
    destruct Hb as (? & ? & ?). by split_and!.
Qed.

Lemma in_hash_chain_Ok p : forall k q b f', 0 <= q -> in_hash_chain e k p q f = (Ok b, f') -> f' = f /\ (b = true -> p ∈ hash_walk k q).
Proof.
  induction k as [|k IH]; intros q b f' Hq H; simpl in H |- *; (destruct (q =? 0); [by injection H as <- <-|]); [discriminate H|].
  destruct (Z.eqb_spec p q) as [->|]; [injection H as <- <-; split; [done|]; by constructor|].
  apply bind_Ok in H as (o & f1 & H1 & H). apply move_to_object_Ok in H1 as (-> & -> & _); [|done]. autorewrite with run in H.
  apply IH in H as [-> Hb]; [|apply load_nonneg]. split; [done|]. intros Ht. constructor. by apply Hb.
Qed.

(** An item of an entry. *)
Definition item_ok (p i : Z) : Prop :=
  let d := load64 (jf_mem f) (entry_item p i) in
  d ∈ tm_data t /\ load64 (jf_mem f) (entry_item p i + 8) = load64 (jf_mem f) (d + data_hash)
  /\ d ∈ bucket_chain (load64 (jf_mem f) (d + data_hash) mod table_size).

Lemma verify_entry_at_Ok p f' :
  verify_entry_at e fuel v t p f = (Ok tt, f') -> f' = f /\ p ∈ tm_entries t /\ forall i, 0 <= i < entry_count p -> item_ok p i.
Proof.
  intros H. unfold verify_entry_at in H. apply bind_Ok in H as ([] & f1 & H1 & H). apply known_object_Ok in H1 as [-> Hin].
  destruct (Hentries p Hin) as [s Hs]. apply bind_Ok in H as (o & f1 & H1 & H).
  apply move_to_object_Ok in H1 as (-> & -> & _); [|pose proof (obj_pos _ _ _ _ Hs); lia].
  unfold verify_entry in H. rewrite (run_bind _ _ _ _ _ (entry_count_ok p s Hs)) in H.
  apply (each_item_Ok _ (item_ok p)) in H as [-> Hit]; [split; [done|]; split; [done|]; intros i Hi; apply Hit; lia|].
  intros i g Hg. unfold verify_item in Hg. autorewrite with run in Hg.
  apply bind_Ok in Hg as ([] & f1 & H1 & Hg). apply known_object_Ok in H1 as [-> Hd].
  apply bind_Ok in Hg as (o & f1 & H1 & Hg). apply move_to_object_Ok in H1 as (-> & -> & _); [|apply load_nonneg]. take_step Hg.
  apply negb_false_iff, Z.eqb_eq in Hc. apply bind_Ok in Hg as (b & f1 & H1 & Hg).
  unfold data_object_in_hash_table in H1. take_step H1. autorewrite with run in H1. apply in_hash_chain_Ok in H1 as [-> Hb]; [|apply load_nonneg].
  take_step Hg. apply negb_false_iff in Hc1. split; [done|]. unfold item_ok. rewrite Hc. split; [done|]. split; [done|].
  unfold bucket_chain, table_size. by apply Hb.
Qed.

Lemma verify_entry_array_Ok f' : verify_entry_array e fuel v t f = (Ok tt, f') ->
  f' = f /\ exists l, lists (hdr off_entry_array_offset f) (hdr off_n_entries f) l /\ StronglySorted Z.lt l
    /\ Forall (fun p => p ∈ tm_entries t /\ forall i, 0 <= i < entry_count p -> item_ok p i) l.
Proof.
  intros H. unfold verify_entry_array in H. autorewrite with run in H.
  apply (array_chain_Ok _ (fun p => p ∈ tm_entries t /\ forall i, 0 <= i < entry_count p -> item_ok p i)) in H as (-> & l & Hl & Hs & Hf).
  - split; [done|]. exists l. rewrite Z.sub_0_r in Hl. split; [exact Hl|]. split; [by inversion Hs|done].
  - intros q g _. apply verify_entry_at_Ok.
  - exact Harrays.
  - split; [lia|apply load_nonneg].
Qed.

End Temps.

End Verified.


(** The objects of a type. *)
Definition of_type (ty : Z) (objs : list (Z * Z * Z)) : list Z :=
  (fun o => o.1.1) <$> filter (fun o => o.1.2 = ty) objs.

Lemma of_type_snoc ty objs p ty' s :
  of_type ty (objs ++ [(p, ty', s)]) = of_type ty objs ++ if decide (ty' = ty) then [p] else [].
Proof.
  unfold of_type. rewrite filter_app, fmap_app. f_equal. rewrite filter_cons, filter_nil. cbn [fst snd]. by destruct (decide (ty' = ty)).
Qed.

Lemma elem_of_type ty objs p : p ∈ of_type ty objs <-> exists s, (p, ty, s) ∈ objs.
Proof.
  unfold of_type. rewrite list_elem_of_fmap. split.
  - intros ([[q ty'] s] & -> & [E H]%list_elem_of_filter). cbn in *. subst. by exists s.
  - intros [s H]. exists (p, ty, s). split; [done|]. by apply list_elem_of_filter.
Qed.

Lemma sorted_last {A} (R : A -> A -> Prop) l x y : StronglySorted R l -> last l = Some y -> x ∈ l -> x = y \/ R x y.
Proof.
  intros Hs Hl. apply last_Some in Hl as [l' ->]. intros [Hx| ->%list_elem_of_singleton]%elem_of_app; [right|by left].
  apply (StronglySorted_app_1_elem_of _ _ _ _ _ Hs Hx). constructor.
Qed.

Definition realtime_of (f : JournalFile) (p : Z) : Z := load64 (jf_mem f) (p + entry_realtime).
Definition monotonic_of (f : JournalFile) (p : Z) : Z := load64 (jf_mem f) (p + entry_monotonic).
Definition boot_id_of (f : JournalFile) (p : Z) : list Z := load_bytes (jf_mem f) (p + entry_boot_id) 16.

(** Entries of one boot that follow each other are in the order of their times. *)
Definition times_grow (f : JournalFile) (l : list Z) : Prop :=
  forall i p q, l !! i = Some p -> l !! S i = Some q -> boot_id_of f p = boot_id_of f q -> monotonic_of f p <= monotonic_of f q.

Lemma times_grow_snoc f l q :
  times_grow f l -> (forall p, last l = Some p -> boot_id_of f p = boot_id_of f q -> monotonic_of f p <= monotonic_of f q) ->
  times_grow f (l ++ [q]).
Proof.
  intros Ht Hq i x y Hx Hy Hb. destruct (decide (S i < length l)%nat) as [Hi|Hi].
  - rewrite lookup_app_l in Hx, Hy by lia. by eapply Ht.
  - apply lookup_app_Some in Hy as [Hy|[Hl Hy]]; [apply lookup_lt_Some in Hy; lia|].
    apply list_lookup_singleton_Some in Hy as [Hl' ->]. rewrite lookup_app_l in Hx by lia. apply Hq; [|done].
    rewrite last_lookup, <- Hx. f_equal. lia.
Qed.

(** What the header says of a hash table. *)
Definition table_in_header (f : JournalFile) (o : Z * Z * Z) : Prop :=
  let '(p, ty, s) := o in
  (ty = OBJECT_DATA_HASH_TABLE -> hdr off_data_hash_table_offset f = p + hash_table_items
     /\ hdr off_data_hash_table_size f = s - hash_table_items)
  /\ (ty = OBJECT_FIELD_HASH_TABLE -> hdr off_field_hash_table_offset f = p + hash_table_items
     /\ hdr off_field_hash_table_size f = s - hash_table_items).

(** The variables after the objects [objs]. *)
Record passed (e : Env) (f : JournalFile) (objs : list (Z * Z * Z)) (s : Pass) : Prop := {
  pa_temps : ps_temps s = mkTemps (of_type OBJECT_DATA objs) (of_type OBJECT_ENTRY objs) (of_type OBJECT_ENTRY_ARRAY objs);
  pa_objects : ps_objects s = zlen objs;
  pa_fields : ps_fields s = zlen (of_type OBJECT_FIELD objs);
  pa_data_tables : ps_data_tables s = zlen (of_type OBJECT_DATA_HASH_TABLE objs);
  pa_field_tables : ps_field_tables s = zlen (of_type OBJECT_FIELD_HASH_TABLE objs);
  pa_seqnum : ps_seqnum s = seqnum_of f <$> last (of_type OBJECT_ENTRY objs);
  pa_monotonic : ps_monotonic s = (fun p => (monotonic_of f p, boot_id_of f p)) <$> last (of_type OBJECT_ENTRY objs);
  pa_realtime : ps_realtime s = realtime_of f <$> last (of_type OBJECT_ENTRY objs);
  pa_sorted : StronglySorted (fun p q => seqnum_of f p < seqnum_of f q) (of_type OBJECT_ENTRY objs);
  pa_head : forall p, head (of_type OBJECT_ENTRY objs) = Some p ->
    seqnum_of f p = hdr off_head_entry_seqnum f /\ realtime_of f p = hdr off_head_entry_realtime f;
  pa_times : times_grow f (of_type OBJECT_ENTRY objs);
  pa_valid : Forall (object_valid e f) objs;
  pa_tables : Forall (table_in_header f) objs }.

Section Pass.
Context (e : Env) (f : JournalFile) (Hm : measured f) (Hmap : mmap_within e) (v : VerifyEnv) (fuel : nat).

Lemma first_passed : passed e f [] (first_pass v).
Proof. split; try done; try constructor. Qed.

(** An object that is not an entry. *)
Lemma passed_other objs s s' p ty sz :
  passed e f objs s -> ty <> OBJECT_ENTRY -> object_valid e f (p, ty, sz) -> table_in_header f (p, ty, sz) ->
  let objs' := objs ++ [(p, ty, sz)] in
  ps_temps s' = mkTemps (of_type OBJECT_DATA objs') (of_type OBJECT_ENTRY objs') (of_type OBJECT_ENTRY_ARRAY objs') ->
  ps_objects s' = ps_objects s + 1 -> ps_fields s' = zlen (of_type OBJECT_FIELD objs') ->
  ps_data_tables s' = zlen (of_type OBJECT_DATA_HASH_TABLE objs') ->
  ps_field_tables s' = zlen (of_type OBJECT_FIELD_HASH_TABLE objs') ->
  ps_seqnum s' = ps_seqnum s -> ps_monotonic s' = ps_monotonic s -> ps_realtime s' = ps_realtime s -> passed e f objs' s'.
Proof.
  intros Hp Hty Hv Ht objs' E1 E2 E3 E4 E5 E6 E7 E8.
  assert (of_type OBJECT_ENTRY objs' = of_type OBJECT_ENTRY objs) as E.
  { unfold objs'. rewrite of_type_snoc, decide_False by done. apply app_nil_r. }
  destruct Hp. split; rewrite ?E; try done; try congruence.
  - rewrite E2, pa_objects0. unfold zlen, objs'. rewrite length_app. simpl. lia.
  - apply Forall_app_2; [done|]. by constructor.
  - apply Forall_app_2; [done|]. by constructor.
Qed.

(** What a run of the first pass adds. *)
Ltac types := rewrite ?of_type_snoc; repeat (rewrite decide_True by done || rewrite decide_False by done); rewrite ?app_nil_r.

Lemma zlen_snoc {A} (l : list A) x : zlen (l ++ [x]) = zlen l + 1.
Proof. unfold zlen. rewrite length_app. simpl. lia. Qed.

Lemma table_header_other p ty sz : ty <> OBJECT_DATA_HASH_TABLE -> ty <> OBJECT_FIELD_HASH_TABLE -> table_in_header f (p, ty, sz).
Proof. by split. Qed.

Lemma write_Ok fd l p l' f' : write_uint64 v fd l p f = (Ok l', f') -> f' = f /\ l' = l ++ [p].
Proof. unfold write_uint64. intros H. take_step H. by injection H as <- <-. Qed.

Lemma pass_table_Ok off_offset off_size seen p ty sz f' :
  is_object f ty p sz -> hash_table_items <= sz ->
  pass_table off_offset off_size seen p p f = (Ok tt, f') ->
  f' = f /\ hdr off_offset f = p + hash_table_items /\ hdr off_size f = sz - hash_table_items.
Proof.
  intros Ho Hsz H. unfold pass_table in H. do 3 take_step H. split; [done|].
  apply negb_false_iff, Z.eqb_eq in Hc0, Hc1. rewrite (obj_size_eq _ _ _ _ Ho) in Hc1.
  destruct Ho. unfold hash_table_items in *. rewrite u64_small in Hc0, Hc1 by (unfold is_u64; lia). done.
Qed.

Lemma boot_id_ok p : uuid_ok (boot_id_of f p).
Proof. split; [apply load_bytes_length|apply load_bytes_ok, Hm]. Qed.

Lemma same_boot p q : negb (uuid_equal (boot_id_of f p) (boot_id_of f q) =? 0) = true <-> boot_id_of f p = boot_id_of f q.
Proof.
  rewrite (proj1 (uuid_equal_correct _ _ (boot_id_ok p) (boot_id_ok q))). by destruct (decide _).
Qed.

Lemma pass_entry_Ok objs s b p sz s' f' :
  passed e f objs s -> object_valid e f (p, OBJECT_ENTRY, sz) -> pass_entry v p p (count_object s b) f = (Ok s', f') ->
  f' = f /\ passed e f (objs ++ [(p, OBJECT_ENTRY, sz)]) s' /\ ps_found_last s' = b || ps_found_last s.
Proof.
  intros Hp Hv H. unfold pass_entry in H. apply bind_Ok in H as (l & f1 & H1 & H). apply write_Ok in H1 as [-> ->].
  do 3 take_step H. injection H as <- <-. split; [done|]. split; [|done].
  fold (seqnum_of f p) (monotonic_of f p) (realtime_of f p) in *. cbn [count_object ps_seqnum ps_monotonic ps_realtime ps_temps] in *.
  change (load_bytes (jf_mem f) (p + entry_boot_id) (Z.to_nat 16)) with (boot_id_of f p) in *.
  assert (of_type OBJECT_ENTRY (objs ++ [(p, OBJECT_ENTRY, sz)]) = of_type OBJECT_ENTRY objs ++ [p]) as E by (by types).
  destruct Hp. rewrite pa_seqnum0 in Hc. rewrite pa_monotonic0 in Hc0. rewrite pa_realtime0 in Hc1.
  split; cbn [ps_temps ps_objects ps_fields ps_data_tables ps_field_tables ps_seqnum ps_monotonic ps_realtime]; rewrite ?E, ?last_snoc; try (types; done).
  - rewrite pa_temps0. cbn [tm_data tm_entries tm_arrays]. by types.
  - cbn [count_object ps_objects]. rewrite pa_objects0, zlen_snoc. done.
  - apply StronglySorted_app_2; [|done|by repeat constructor]. intros x y Hx ->%list_elem_of_singleton.
    destruct (last (of_type OBJECT_ENTRY objs)) as [y|] eqn:Ey; [|apply last_None in Ey; rewrite Ey in Hx; by apply not_elem_of_nil in Hx].
    apply Z.leb_gt in Hc. destruct (sorted_last _ _ _ _ pa_sorted0 Ey Hx) as [->|Hxy]; cbn beta in *; lia.
  - intros x Hx. destruct (of_type OBJECT_ENTRY objs) as [|y l]; [|by apply pa_head0].
    injection Hx as <-. apply negb_false_iff, Z.eqb_eq in Hc, Hc1. done.
  - apply times_grow_snoc; [done|]. intros x Hx Hb. rewrite Hx in Hc0. apply andb_false_iff in Hc0 as [Hc0|Hc0].
    + by rewrite (proj2 (same_boot x p) Hb) in Hc0.
    + by apply Z.ltb_ge in Hc0.
  - apply Forall_app_2; [done|]. by constructor.
  - apply Forall_app_2; [done|]. by repeat constructor.
Qed.

(** The variables that other objects leave alone. *)
Definition same_entry (s s' : Pass) : Prop :=
  ps_objects s' = ps_objects s + 1 /\ ps_seqnum s' = ps_seqnum s /\ ps_monotonic s' = ps_monotonic s /\ ps_realtime s' = ps_realtime s.

Ltac other_object Hp := eapply passed_other; [exact Hp|done|done|done|..]; cbv zeta; types;
  let Q1 := fresh in let Q2 := fresh in let Q3 := fresh in let Q4 := fresh in let Q5 := fresh in destruct Hp as [Q1 Q2 Q3 Q4 Q5 _ _ _ _ _ _ _ _];
  cbn [count_tables count_object set_temps set_main_array ps_temps ps_objects ps_fields ps_data_tables ps_field_tables ps_seqnum ps_monotonic ps_realtime
    tm_data tm_entries tm_arrays]; rewrite ?Q1, ?Q2, ?Q3, ?Q4, ?Q5, ?zlen_snoc; cbn [tm_data tm_entries tm_arrays]; try done; try lia.

Lemma pass_object_Ok objs s b p ty sz s' f' :
  is_object f ty p sz -> passed e f objs s -> object_valid e f (p, ty, sz) ->
  pass_object v ty p p (count_object s b) f = (Ok s', f') ->
  f' = f /\ passed e f (objs ++ [(p, ty, sz)]) s' /\ ps_found_last s' = b || ps_found_last s.
Proof.
  intros Ho Hp Hv H. unfold pass_object in H.
  destruct (Z.eqb_spec ty OBJECT_DATA) as [->|N1].
  { unfold pass_data in H. apply bind_Ok in H as (l & f1 & H1 & H). apply write_Ok in H1 as [-> ->]. injection H as <- <-.
    split; [done|]. split; [|done]. assert (table_in_header f (p, OBJECT_DATA, sz)) by done. other_object Hp. }
  destruct (Z.eqb_spec ty OBJECT_FIELD) as [->|N2].
  { injection H as <- <-. split; [done|]. split; [|done]. assert (table_in_header f (p, OBJECT_FIELD, sz)) by done. other_object Hp. }
  destruct (Z.eqb_spec ty OBJECT_ENTRY) as [->|N3]; [by eapply pass_entry_Ok|].
  destruct (Z.eqb_spec ty OBJECT_DATA_HASH_TABLE) as [->|N4].
  { apply bind_Ok in H as ([] & f1 & H1 & H). eapply pass_table_Ok in H1 as (-> & E1 & E2); [|done|apply Ho]. injection H as <- <-.
    split; [done|]. split; [|done]. assert (table_in_header f (p, OBJECT_DATA_HASH_TABLE, sz)) by done. other_object Hp. }
  destruct (Z.eqb_spec ty OBJECT_FIELD_HASH_TABLE) as [->|N5].
  { apply bind_Ok in H as ([] & f1 & H1 & H). eapply pass_table_Ok in H1 as (-> & E1 & E2); [|done|apply Ho]. injection H as <- <-.
    split; [done|]. split; [|done]. assert (table_in_header f (p, OBJECT_FIELD_HASH_TABLE, sz)) by done. other_object Hp. }
  destruct (Z.eqb_spec ty OBJECT_ENTRY_ARRAY) as [->|N6].
  { unfold pass_array in H. apply bind_Ok in H as (l & f1 & H1 & H). apply write_Ok in H1 as [-> ->]. autorewrite with run in H.
    assert (table_in_header f (p, OBJECT_ENTRY_ARRAY, sz)) by done.
    destruct (p =? _); [take_step H|]; injection H as <- <-; (split; [done|]); (split; [|done]); other_object Hp. }
  injection H as <- <-. split; [done|]. split; [|done]. assert (table_in_header f (p, ty, sz)) by done. other_object Hp.
  all: by rewrite !decide_False, !app_nil_r by done.
Qed.

Lemma pass_objects_Ok show h : 0 < h -> forall k p objs s s' f',
  objects_from f h objs p -> passed e f objs s -> pass_objects e v show k p s f = (Ok s', f') ->
  f' = f /\ exists objs' end_, objects_from f h objs' end_ /\ passed e f objs' s' /\ tail_offset objs' = hdr off_tail_object_offset f
    /\ objs' <> [].
Proof.
  intros Hh. induction k as [|k IH]; intros p objs s s' f' Hobjs Hp H; simpl in H;
    (destruct (Z.eqb_spec p 0) as [->|_]; [pose proof (objects_from_le _ _ _ _ Hobjs); lia|]); [discriminate H|].
  pose proof (objects_from_le _ _ _ _ Hobjs). take_step H. apply bind_Ok in H as (o & f1 & H1 & H).
  apply move_to_object_Ok in H1 as (-> & -> & Ho); [|done|done|lia]. destruct (Ho ltac:(lia)) as (ty & sz & Hob & _). clear Ho.
  take_step H. apply bind_Ok in H as ([] & f1 & H1 & H). apply (object_verify_Ok e f Hm ty p sz) in H1 as [-> Hv]; [|done].
  do 3 take_step H. autorewrite with run in H. rewrite (obj_type_eq _ _ _ _ Hob) in H.
  apply bind_Ok in H as (s1 & f1 & H1 & H). eapply pass_object_Ok in H1 as (-> & Hp1 & _); [|exact Hob|exact Hp|exact Hv].
  autorewrite with run in H. rewrite (obj_size_eq _ _ _ _ Hob) in H.
  pose proof (objects_from_snoc _ _ _ _ _ _ Hobjs Hob) as Hobjs1. pose proof (object_ALIGN64 _ _ _ _ Hob).
  destruct (Z.eqb_spec p (load64 (jf_mem f) off_tail_object_offset)) as [E|].
  - assert (f' = f /\ s' = s1) as [-> ->] by (destruct k; by injection H as <- <-). split; [done|].
    eexists _, _. split; [exact Hobjs1|]. split; [exact Hp1|]. split; [unfold tail_offset; by rewrite last_snoc|by destruct objs].
  - rewrite u64_small in H by (destruct Hob; unfold is_u64; lia). by eapply IH.
Qed.

End Pass.

(** * What is accepted *)

(** [chains h] are the data objects of bucket [h]. *)
Record verified (e : Env) (f : JournalFile) (objs : list (Z * Z * Z)) (chains : Z -> list Z) : Prop := {
  vf_objects : exists end_, objects_from f (hdr off_header_size f) objs end_;
  vf_tail : hdr off_tail_object_offset f = tail_offset objs;
  vf_counts : hdr off_n_objects f = zlen objs /\ hdr off_n_entries f = zlen (of_type OBJECT_ENTRY objs)
    /\ hdr off_n_data f = zlen (of_type OBJECT_DATA objs) /\ hdr off_n_fields f = zlen (of_type OBJECT_FIELD objs)
    /\ hdr off_n_entry_arrays f = zlen (of_type OBJECT_ENTRY_ARRAY objs);
  vf_valid : Forall (object_valid e f) objs;
  vf_entries : lists f (hdr off_entry_array_offset f) (hdr off_n_entries f) (of_type OBJECT_ENTRY objs);
  vf_seqnums : StronglySorted (fun p q => seqnum_of f p < seqnum_of f q) (of_type OBJECT_ENTRY objs);
  vf_times : times_grow f (of_type OBJECT_ENTRY objs);
  vf_first : forall p, head (of_type OBJECT_ENTRY objs) = Some p ->
    seqnum_of f p = hdr off_head_entry_seqnum f /\ realtime_of f p = hdr off_head_entry_realtime f;
  vf_last : forall p, last (of_type OBJECT_ENTRY objs) = Some p ->
    seqnum_of f p = hdr off_tail_entry_seqnum f /\ realtime_of f p = hdr off_tail_entry_realtime f
    /\ monotonic_of f p = hdr off_tail_entry_monotonic f /\ boot_id_of f p = load_bytes (jf_mem f) off_boot_id 16;
  vf_items : forall p i, p ∈ of_type OBJECT_ENTRY objs -> 0 <= i < entry_count f p ->
    let d := load64 (jf_mem f) (entry_item p i) in
    d ∈ of_type OBJECT_DATA objs /\ load64 (jf_mem f) (entry_item p i + 8) = load64 (jf_mem f) (d + data_hash)
    /\ d ∈ chains (load64 (jf_mem f) (d + data_hash) mod table_size f);
  vf_store : side (data_kind e) f objs (jf_data_hash_table f) (table_size f) chains;
  vf_listed : forall h d, 0 <= h < table_size f -> d ∈ chains h ->
    exists l, lists_entries f d l /\ StronglySorted Z.lt l
      /\ Forall (fun q => q ∈ of_type OBJECT_ENTRY objs /\ points f q d) l }.

Lemma objects_from_sorted f h objs end_ : objects_from f h objs end_ ->
  StronglySorted Z.lt ((fun o => o.1.1) <$> objs) /\ Forall (fun o => h <= o.1.1) objs.
Proof.
  revert h. induction objs as [|[[a ty] s] objs IH]; intros h; [by repeat constructor|]. intros (-> & Ho & Hr).
  destruct (IH _ Hr) as [Hs Hf]. pose proof (object_ALIGN64 _ _ _ _ Ho).
  assert (Forall (fun o => h < o.1.1) objs) as Hf' by (eapply Forall_impl; [exact Hf|]; intros [[b ?] ?] Hb; cbn in *; lia).
  split.
  - rewrite fmap_cons. constructor; [done|]. apply Forall_fmap. eapply Forall_impl; [exact Hf'|]. done.
  - constructor; [cbn; lia|]. eapply Forall_impl; [exact Hf'|]. intros [[b ?] ?] Hb. cbn in *. lia.
Qed.

Lemma of_type_sorted f h objs end_ ty : objects_from f h objs end_ -> StronglySorted Z.lt (of_type ty objs).
Proof.
  intros H. apply objects_from_sorted in H as [H _]. unfold of_type. induction objs as [|o objs IH]; [constructor|].
  rewrite fmap_cons in H. inversion_clear H as [|? ? Hs Hf]. rewrite filter_cons. destruct (decide _); [|by apply IH].
  rewrite fmap_cons. constructor; [by apply IH|]. apply Forall_fmap.
  rewrite Forall_forall in Hf. apply Forall_forall. intros x [_ Hx]%list_elem_of_filter. apply Hf, list_elem_of_fmap. by exists x.
Qed.

(** Two increasing lists of the same length, one within the other. *)
Lemma increasing_sub l1 l2 : StronglySorted Z.lt l1 -> StronglySorted Z.lt l2 -> (forall x, x ∈ l1 -> x ∈ l2) ->
  length l1 = length l2 -> l1 = l2.
Proof.
  intros H1 H2 Hin Hl. assert (NoDup l1) as Hnd.
  { clear -H1. induction H1 as [|x l Hs IH Hf]; constructor; [|done]. intros Hx. pose proof (proj1 (Forall_forall _ _) Hf _ Hx). lia. }
  eapply (StronglySorted_unique_strong Z.lt); [lia|done|done|].
  apply submseteq_length_Permutation; [by apply NoDup_submseteq|lia].
Qed.

Section Sound.
Context (e : Env) (f : JournalFile) (Hm : measured f) (Hmap : mmap_within e) (fuel : nat) (v : VerifyEnv).
Context (Hget : forall fd a, ve_get v fd a = 0).

(** Reading the header changes nothing. *)
Lemma reserved_zero_Ok : forall k a f', reserved_zero k a f = (Ok tt, f') -> f' = f.
Proof. induction k as [|k IH]; intros a f' H; simpl in H; [by injection H|]. take_step H. by apply IH in H. Qed.

Lemma pass_complete_Ok objs s f' : 240 <= hdr off_header_size f -> passed e f objs s -> pass_complete s f = (Ok tt, f') ->
  f' = f /\ hdr off_n_objects f = zlen objs /\ hdr off_n_entries f = zlen (of_type OBJECT_ENTRY objs)
  /\ hdr off_n_data f = zlen (of_type OBJECT_DATA objs) /\ hdr off_n_fields f = zlen (of_type OBJECT_FIELD objs)
  /\ hdr off_n_entry_arrays f = zlen (of_type OBJECT_ENTRY_ARRAY objs)
  /\ zlen (of_type OBJECT_DATA_HASH_TABLE objs) = 1
  /\ forall p, last (of_type OBJECT_ENTRY objs) = Some p ->
    seqnum_of f p = hdr off_tail_entry_seqnum f /\ realtime_of f p = hdr off_tail_entry_realtime f
    /\ monotonic_of f p = hdr off_tail_entry_monotonic f /\ boot_id_of f p = load_bytes (jf_mem f) off_boot_id 16.
Proof.
  intros Hh Hp H. unfold pass_complete in H. repeat take_step H. destruct Hp.
  rewrite pa_temps0 in *. cbn [tm_data tm_entries tm_arrays] in *.
  assert (forall off, off + 8 <= 240 -> header_contains off f = true) as Hc' by (intros; apply Z.leb_le; lia).
  rewrite !Hc' in * by (cbv; discriminate).
  apply negb_false_iff, Z.eqb_eq in Hc0, Hc1, Hc2, Hc3, Hc4, Hc5. rewrite pa_objects0 in Hc0. rewrite pa_fields0 in Hc3.
  rewrite pa_data_tables0 in Hc5. do 7 (split; [done|]). intros p Hl.
  rewrite pa_seqnum0, Hl in Hc8. rewrite pa_monotonic0, Hl in Hc9. rewrite pa_realtime0, Hl in Hc10.
  apply negb_false_iff, Z.eqb_eq in Hc8, Hc10. apply orb_false_iff in Hc9 as [Hb Ht]. apply negb_false_iff, Z.eqb_eq in Ht.
  split; [exact Hc8|]. split; [exact Hc10|]. split; [exact Ht|]. change (load_bytes _ _ 16) with (boot_id_of f 16).
  apply (same_boot f Hm). change (boot_id_of f 16) with (load_bytes (jf_mem f) off_boot_id 16). by rewrite Hb.
Qed.

Lemma lists_length a n l : lists f a n l -> zlen l = n.
Proof.
  intros (arrs & b & Hch & Hn & ->). assert (zlen (items f arrs) = caps arrs) as Hl.
  { clear Hn. revert a Hch. induction arrs as [|[c k] arrs IH]; intros a Hch; [done|]. destruct Hch as (_ & [_ Hk] & Hch).
    apply IH in Hch. rewrite items_cons. unfold zlen in *. rewrite length_app, arr_items_length by lia. cbn [caps]. lia. }
  unfold zlen in *. rewrite length_take. lia.
Qed.

(** The objects that the first pass wrote down. *)
Lemma temps_objects objs s h end_ : objects_from f h objs end_ -> passed e f objs s ->
  (forall p, p ∈ tm_data (ps_temps s) -> exists sz, (p, OBJECT_DATA, sz) ∈ objs /\ is_object f OBJECT_DATA p sz)
  /\ (forall p, p ∈ tm_entries (ps_temps s) -> exists sz, is_object f OBJECT_ENTRY p sz)
  /\ (forall p, p ∈ tm_arrays (ps_temps s) -> exists k, is_array f p k).
Proof.
  intros Hobjs Hp. rewrite (pa_temps _ _ _ _ Hp). cbn [tm_data tm_entries tm_arrays].
  split_and!; intros p [sz Hin]%elem_of_type.
  - exists sz. split; [done|]. by eapply objects_from_range.
  - exists sz. by eapply objects_from_range.
  - pose proof (proj1 (Forall_forall _ _) (pa_valid _ _ _ _ Hp) _ Hin) as (_ & _ & Ha & _). destruct (Ha eq_refl) as (k & _ & Hk). by exists k.
Qed.

(** The hash table is that of the header. *)
Lemma table_object objs s : passed e f objs s -> jf_data_hash_table f = hdr off_data_hash_table_offset f ->
  zlen (of_type OBJECT_DATA_HASH_TABLE objs) = 1 ->
  exists sz, (jf_data_hash_table f - hash_table_items, OBJECT_DATA_HASH_TABLE, sz) ∈ objs
    /\ 0 < table_size f /\ hash_table_items + 16 * table_size f <= sz.
Proof.
  intros Hp Ht Hn. destruct (of_type OBJECT_DATA_HASH_TABLE objs) as [|p l] eqn:E; [discriminate Hn|].
  assert (p ∈ of_type OBJECT_DATA_HASH_TABLE objs) as [sz Hin]%elem_of_type by (rewrite E; constructor).
  destruct (proj1 (Forall_forall _ _) (pa_tables _ _ _ _ Hp) _ Hin) as [[E1 E2] _]; [done|].
  destruct (proj1 (Forall_forall _ _) (pa_valid _ _ _ _ Hp) _ Hin) as (_ & _ & _ & Hv). destruct Hv as [Hmod Hsz]; [by left|].
  exists sz. rewrite Ht, E1. unfold table_size. rewrite E2. unfold hash_table_items, sizeof_HashItem in *.
  split; [by replace (p + 16 - 16) with p by lia|]. pose proof (Z.div_mod (sz - 16) 16). lia.
Qed.

Lemma store_verified objs s : passed e f objs s -> jf_data_hash_table f = hdr off_data_hash_table_offset f ->
  zlen (of_type OBJECT_DATA_HASH_TABLE objs) = 1 ->
  (forall h, 0 <= h < table_size f -> bucket_ok f fuel (ps_temps s) objs (table_size f) h) ->
  side (data_kind e) f objs (jf_data_hash_table f) (table_size f) (bucket_chain f fuel).
Proof.
  intros Hp Ht Hn Hb. destruct (table_object _ _ Hp Ht Hn) as (sz & Hin & Hpos & Hle).
  assert (forall h d, 0 <= h < table_size f -> d ∈ bucket_chain f fuel h ->
    load64 (jf_mem f) (d + data_hash) mod table_size f = h /\ d ∈ of_type OBJECT_DATA objs) as Hd.
  { intros h d Hh Hd. destruct (Hb h Hh) as (_ & _ & _ & Hf). destruct (proj1 (Forall_forall _ _) Hf _ Hd) as (? & Hi & _).
    rewrite (pa_temps _ _ _ _ Hp) in Hi. done. }
  split; [split|]; cbn [data_kind k_ty k_tty k_good].
  - done.
  - by exists sz.
  - intros h Hh. apply (Hb h Hh).
  - intros h Hh. apply (Hb h Hh).
  - intros h d Hh Hin'. by apply Hd.
  - intros h Hh. destruct (Hb h Hh) as (_ & _ & Hs & _). clear -Hs. induction Hs as [|x l Hs IH Hf]; constructor; [|done].
    intros Hx. pose proof (proj1 (Forall_forall _ _) Hf _ Hx). lia.
  - intros h d Hh Hin'. destruct (Hd h d Hh Hin') as [_ [s' Hs']%elem_of_type].
    by apply (proj1 (Forall_forall _ _) (pa_valid _ _ _ _ Hp) _ Hs').
Qed.


End Sound.

(** * Files that are accepted and files that are not *)

Definition byte_ok (b : Z) : bool := (0 <=? b) && (b <? 256).

Lemma mem_checked m : forallb (fun x => byte_ok x.2) (map_to_list m) = true -> mem_ok m.
Proof.
  intros H a. unfold byte_at. destruct (m !! a) as [b|] eqn:E; [|done]. apply elem_of_map_to_list, list_elem_of_In in E.
  apply (proj1 (forallb_forall _ _) H) in E. apply andb_true_iff in E as [H1%Z.leb_le H2%Z.ltb_lt]. by split.
Qed.

(** A machine with an address space of 2^62 bytes. *)
Definition bounded_env : Env :=
  mkEnv 4096 None (fun _ _ => 0) 0 (fun _ o s => if o + s <? 2 ^ 62 then 0 else ENOMEM) (fun n => n)
    (fun _ => None) (fun _ => None) (1000, 7) 0.

Lemma bounded_within : mmap_within bounded_env.
Proof. intros c o s H. unfold bounded_env in H. cbn [env_mmap] in H. destruct (Z.ltb_spec (o + s) (2 ^ 62)); [lia|discriminate H]. Qed.

Definition sample_temps : VerifyEnv := mkVerifyEnv (fun _ => 0) (fun _ _ => 0) (fun _ _ => 0) false.

Definition append_to_sample (ts : Z * Z) (items : list (list Z)) (f : JournalFile) : JournalFile :=
  (journal_file_append_entry bounded_env 100 (Some ts) items false f).2.

(** A file with the entries "A=B" and "C", "A=B". *)
Definition two_entries : JournalFile :=
  append_to_sample (60, 6) [sample_data2; sample_data] (append_to_sample (50, 5) [sample_data] fresh_file).

Lemma two_entries_accepted : (journal_file_verify bounded_env 100 sample_temps false two_entries).1 = Ok tt.
Proof. vm_compute. reflexivity. Qed.

(** A file without entries has no entry array, and is refused. *)
Lemma empty_file_refused : (journal_file_verify bounded_env 100 sample_temps false fresh_file).1 = Err EBADMSG.
Proof. vm_compute. reflexivity. Qed.

(** An entry with the same data twice is listed twice by the data object. *)
Lemma repeated_data_refused :
  (journal_file_verify bounded_env 100 sample_temps false (append_to_sample (50, 5) [sample_data; sample_data] fresh_file)).1 = Err EBADMSG.
Proof. vm_compute. reflexivity. Qed.

(** The walk along a hash chain that runs in a circle does not end. *)
Lemma hash_cycle_endless e f p q s k : mmap_ok e -> is_object f OBJECT_DATA q s ->
  load64 (jf_mem f) (q + data_next_hash_offset) = q -> p <> q -> in_hash_chain e k p q f = (NoFuel, f).
Proof.
  intros He Ho Hq Hp. pose proof (obj_pos _ _ _ _ Ho). induction k as [|k IH]; cbn [in_hash_chain].
  - by destruct (Z.eqb_spec q 0); [lia|].
  - destruct (Z.eqb_spec q 0); [lia|]. destruct (Z.eqb_spec p q); [done|].
    rewrite (run_bind _ _ _ _ _ (move_to_object_ok e _ _ _ _ _ He Ho (or_introl eq_refl))). run. by rewrite Hq.
Qed.

Lemma two_entries_measured : measured two_entries /\ jf_data_hash_table two_entries = hdr off_data_hash_table_offset two_entries
  /\ 240 <= hdr off_header_size two_entries.
Proof.
  split; [split|].
  - apply mem_checked. vm_compute. reflexivity.
  - vm_compute. reflexivity.
  - vm_compute. reflexivity.
  - split; vm_compute; [reflexivity|discriminate].
Qed.

