(* ===== verification/Config.v ===== *)
(** src/core/conf-parser.c and src/core/journald-gperf.gperf, with parse_size of
    shared/util.c and path_kill_slashes of shared/path-util.c: reading journald.conf, and
    what config_parse makes of a configuration file. *)
From Stdlib Require Import SpecFloat.
From S2P Require Import Prelude CString Split Utf8 JournalDef Numbers Daemon TimeUtil Syslog SyslogSpec.

Definition LOG_DEBUG := 7.

(** * parse_size *)

(** The double numbers of the fraction. *)
Definition double_of (n : Z) : spec_float := binary_normalize 53 1024 n 0 false.
Definition double_div10 (x : spec_float) : spec_float := SFdiv 53 1024 x (double_of 10).

(** Taken as an unsigned long long, towards zero. *)
Definition ull_of (x : spec_float) : Z :=
  match x with
  | S754_finite false m ex => u64 (if 0 <=? ex then Z.pos m * 2 ^ ex else Z.pos m / 2 ^ (- ex))
  | _ => 0
  end.

Definition positive (x : spec_float) : bool := match x with S754_finite false _ _ => true | _ => false end.

(** strtoull with base 10 of a text that begins with a digit: the value and the rest;
    [None]: out of range. *)
Definition strtoull_digits (s : list Z) : option (Z * list Z) :=
  let '(v, _, rest) := scan_base 10 s 0 false in if u64_max <? v then None else Some (v, rest).

(** The fraction after a number, and what follows it. *)
Definition size_fraction (e : list Z) : outcome (spec_float * list Z) :=
  match e with
  | 46 :: e =>
      if is_digit (chr e) then
        match strtoull_digits e with
        | None => Err ERANGE
        | Some (l2, e2) => Ok (Nat.iter (length e - length e2) double_div10 (double_of l2), e2)
        end
      else Ok (S754_zero false, e)
  | _ => Ok (S754_zero false, e)
  end.

Definition size_table (base : Z) : list (list Z * Z) :=
  [(txt "E", base ^ 6); (txt "P", base ^ 5); (txt "T", base ^ 4); (txt "G", base ^ 3); (txt "M", base ^ 2); (txt "K", base);
   (txt "B", 1); ([], 1)].

(** The first suffix from [i] on that the text begins with: its length and factor, and
    the place behind it in the table. *)
Fixpoint size_suffix (table : list (list Z * Z)) (e : list Z) (i : nat) : option (nat * Z * nat) :=
  match table with
  | [] => None
  | (suffix, factor) :: table =>
      if startswith e suffix then Some (length suffix, factor, S i) else size_suffix table e (S i)
  end.

(** The sum of the terms.  The check that the result fits into an off_t compares it with
    itself and never fails. *)
Fixpoint parse_size_loop (table : list (list Z * Z)) (n : nat) (p : list Z) (r : Z) (start_pos : nat) : outcome Z :=
  match n with
  | O => NoFuel
  | S n =>
      let '(l, erange, e) := strtoll p in
      if erange then Err ERANGE else
      if l <? 0 then Err ERANGE else
      if (length e =? length p)%nat then Err EINVAL else
      match size_fraction e with
      | Ok (frac, e) =>
          let e := skip_whitespace e in
          match size_suffix (drop start_pos table) e start_pos with
          | None => Err EINVAL
          | Some (len, factor, next) =>
              if u64_max / factor <? u64 (l + (if positive frac then 1 else 0)) then Err ERANGE else
              let tmp := u64 (l * factor + ull_of (SFmul 53 1024 frac (double_of factor))) in
              if u64_max - r <? tmp then Err ERANGE else
              let r := u64 (r + tmp) in
              let p := drop len e in
              if chr p =? 0 then Ok r else parse_size_loop table n p r next
          end
      | Err er => Err er
      | _ => Crash
      end
  end.

Definition parse_size (t : list Z) (base : Z) : outcome Z :=
  if negb ((base =? 1000) || (base =? 1024)) then Crash else
  parse_size_loop (size_table base) 9 (cstring t) 0 0.

(** * Values *)

(** path_kill_slashes; [slash]: slashes were passed over. *)
Fixpoint kill_slashes (slash : bool) (s : list Z) : list Z :=
  match s with
  | [] => []
  | c :: s =>
      if c =? 47 then kill_slashes true s
      else (if slash then [47] else []) ++ c :: kill_slashes false s
  end.

Definition path_kill_slashes (s : list Z) : list Z :=
  match kill_slashes false s with
  | [] => if is_in s 47 then [47] else []
  | t => t
  end.

Definition path_is_absolute (s : list Z) : bool := chr s =? 47.

Definition log_level_table : list (list Z) :=
  map txt ["emerg"; "alert"; "crit"; "err"; "warning"; "notice"; "info"; "debug"]%string.

Definition log_level_from_string (s : list Z) : option Z :=
  match list_find (fun x => x = s) log_level_table with
  | Some (i, _) => Some (Z.of_nat i)
  | None => match safe_atou s with inl u => if u <=? LOG_DEBUG then Some u else None | inr _ => None end
  end.

(** * The settings *)

(** The places of the server that can be set. *)
Inductive field :=
| runuser | rungroup | compress | sync_interval | rate_limit_interval | rate_limit_burst | retention | file_usec
| forward_syslog | forward_console | tty_path | level_store | level_syslog | level_kmsg | level_console
| system_max_use | system_max_size | system_keep_free | runtime_max_use | runtime_max_size | runtime_keep_free.

#[export] Instance field_eq_dec : EqDecision field.
Proof. solve_decision. Defined.

Inductive value := VNumber (n : Z) | VBool (b : bool) | VString (s : option (list Z)).

Definition Config : Type := field -> value.
Definition store (fld : field) (v : value) (c : Config) : Config := fun x => if decide (x = fld) then v else c x.

Inductive parser := config_parse_unsigned | config_parse_sec | config_parse_iec_off | config_parse_bool
  | config_parse_string | config_parse_path | config_parse_log_level.

(** The new value of a place; [None]: it is left as it is.  A failure is only logged. *)
Definition parse_value (p : parser) (rvalue : list Z) (old : value) : option value :=
  match p with
  | config_parse_unsigned => match safe_atou rvalue with inl n => Some (VNumber n) | inr _ => None end
  | config_parse_sec => match parse_sec rvalue with Ok n => Some (VNumber n) | _ => None end
  | config_parse_iec_off => match parse_size rvalue 1024 with Ok n => Some (VNumber n) | _ => None end
  | config_parse_bool => VBool <$> parse_bool (Some rvalue)
  | config_parse_string =>
      match utf8_is_valid (S (length rvalue)) rvalue with
      | Some true => Some (VString (if (length rvalue =? 0)%nat then None else Some rvalue))
      | _ => None
      end
  | config_parse_path =>
      if negb (path_is_absolute rvalue) then None else
      match utf8_is_valid (S (length rvalue)) rvalue with
      | Some true => Some (VString (Some (path_kill_slashes rvalue)))
      | _ => None
      end
  | config_parse_log_level =>
      match log_level_from_string rvalue, old with
      | Some x, VNumber o => Some (VNumber (Z.lor (Z.land o LOG_FACMASK) x))
      | _, _ => None
      end
  end.

(** The table of journald-gperf.gperf. *)
Definition journald_items : list (list Z * (parser * field)) :=
  [(txt "Journal.User", (config_parse_string, runuser));
   (txt "Journal.Group", (config_parse_string, rungroup));
   (txt "Journal.Compress", (config_parse_bool, compress));
   (txt "Journal.SyncIntervalSec", (config_parse_sec, sync_interval));
   (txt "Journal.RateLimitInterval", (config_parse_sec, rate_limit_interval));
   (txt "Journal.RateLimitBurst", (config_parse_unsigned, rate_limit_burst));
   (txt "Journal.MaxRetentionSec", (config_parse_sec, retention));
   (txt "Journal.MaxFileSec", (config_parse_sec, file_usec));
   (txt "Journal.ForwardToSyslog", (config_parse_bool, forward_syslog));
   (txt "Journal.ForwardToConsole", (config_parse_bool, forward_console));
   (txt "Journal.TTYPath", (config_parse_path, tty_path));
   (txt "Journal.MaxLevelStore", (config_parse_log_level, level_store));
   (txt "Journal.MaxLevelSyslog", (config_parse_log_level, level_syslog));
   (txt "Journal.MaxLevelKMsg", (config_parse_log_level, level_kmsg));
   (txt "Journal.MaxLevelConsole", (config_parse_log_level, level_console));
   (txt "System.MaxUse", (config_parse_iec_off, system_max_use));
   (txt "System.MaxFileSize", (config_parse_iec_off, system_max_size));
   (txt "System.KeepFree", (config_parse_iec_off, system_keep_free));
   (txt "Runtime.MaxUse", (config_parse_iec_off, runtime_max_use));
   (txt "Runtime.MaxFileSize", (config_parse_iec_off, runtime_max_size));
   (txt "Runtime.KeepFree", (config_parse_iec_off, runtime_keep_free))].

Fixpoint find_item (key : list Z) (l : list (list Z * (parser * field))) : option (parser * field) :=
  match l with
  | [] => None
  | (k, x) :: l => if bool_decide (k = key) then Some x else find_item key l
  end.

(** config_item_perf_lookup and the callback; an unknown name is only logged. *)
Definition config_item_perf_lookup (section : option (list Z)) (lvalue : list Z) : option (parser * field) :=
  find_item (match section with Some s => s ++ txt "." ++ lvalue | None => lvalue end) journald_items.

Definition next_assignment (section : option (list Z)) (lvalue rvalue : list Z) (c : Config) : Config :=
  match config_item_perf_lookup section lvalue with
  | Some (p, fld) => match parse_value p rvalue (c fld) with Some v => store fld v c | None => c end
  | None => c
  end.

(** * Lines *)

Definition COMMENTS : list Z := txt "#;".
Definition sections : list (list Z) := map txt ["Journal"; "System"; "Runtime"]%string.

(** The variables of config_parse; a name that is set is the current section. *)
Record State := mkState {
  st_section : option (list Z);
  st_section_line : Z;
  st_section_ignored : bool;
  st_config : Config }.

(** The text before the first [c] and after it. *)
Fixpoint split_at (c : Z) (s : list Z) : option (list Z * list Z) :=
  match s with
  | [] => None
  | x :: s =>
      if x =? c then Some ([], s)
      else match split_at c s with Some (a, b) => Some (x :: a, b) | None => None end
  end.

Definition parse_line (line : Z) (l : list Z) (st : State) : outcome unit * State :=
  let l := strstrip l in
  match l with
  | [] => (Ok tt, st)
  | c :: _ =>
      if is_in (COMMENTS ++ [10]) c then (Ok tt, st)
      else if startswith l (txt ".include ") then (Ok tt, st)
      else if c =? 91 then
        if negb (default 0 (last l) =? 93) then (Err EBADMSG, st) else
        let n := take (length l - 2) (drop 1 l) in
        if existsb (fun s => bool_decide (s = n)) sections
        then (Ok tt, mkState (Some n) line false (st_config st))
        else (Ok tt, mkState None 0 true (st_config st))
      else
        match st_section st with
        | None => (Ok tt, st)
        | Some section =>
            match split_at 61 l with
            | None => (Err EBADMSG, st)
            | Some (a, b) =>
                (Ok tt, mkState (Some section) (st_section_line st) (st_section_ignored st)
                          (next_assignment (Some section) (strstrip a) (strstrip b) (st_config st)))
            end
        end
  end.

(** fgets into a buffer of [n] bytes. *)
Fixpoint fgets (n : nat) (s : list Z) : list Z * list Z :=
  match n, s with
  | S (S n), c :: s => if c =? 10 then ([c], s) else let '(a, b) := fgets (S n) s in (c :: a, b)
  | _, _ => ([], s)
  end.

Definition LINE_MAX : nat := 2048.
Definition NEWLINE : list Z := [10; 13].
Definition truncate_nl (s : list Z) : list Z := take (strcspn s NEWLINE) s.

(** The end is escaped: an odd number of backslashes. *)
Fixpoint ends_escaped (escaped : bool) (s : list Z) : bool :=
  match s with
  | [] => escaped
  | c :: s => ends_escaped (if escaped then false else c =? 92) s
  end.

(** The rest [s] of the file.  A continuation at the end of the file is lost. *)
Fixpoint config_lines (n : nat) (s : list Z) (continuation : option (list Z)) (line : Z) (st : State) : outcome unit * State :=
  match s with
  | [] => (Ok tt, st)
  | _ =>
      match n with
      | O => (NoFuel, st)
      | S n =>
          let '(l, rest) := fgets LINE_MAX s in
          let l := truncate_nl (cstring l) in
          let p := match continuation with Some c => c ++ l | None => l end in
          if ends_escaped false p
          then config_lines n rest (Some (take (length p - 1) p ++ [32])) line st
          else
            let line := u32 (line + 1) in
            match parse_line line p st with
            | (Ok _, st) => config_lines n rest None line st
            | r => r
            end
      end
  end.

(** [file]: what is in the file, which is read without errors, or the errno of fopen. *)
Definition config_parse (file : list Z + Z) (c : Config) : outcome unit * State :=
  let st := mkState None 0 false c in
  match file with
  | inr er => if er =? ENOENT then (Ok tt, st) else (Err er, st)
  | inl s => config_lines (length s) s None 0 st
  end.
