(* ===== verification/ConfigSpec.v ===== *)
(** What journald.conf says (the settings, their places and their values, as the manual
    has them) and that config_parse of Config.v does what it says. *)
From Stdlib Require Import SpecFloat.
From S2P Require Import Prelude CString Split Utf8 JournalDef Numbers Daemon TimeUtil Syslog SyslogSpec Config.

(** * Settings *)

Inductive kind := KNumber | KTime | KSize | KBool | KText | KPath | KLevel.

(** The section and the key of each place, and the kind of its value. *)
Definition setting (f : field) : list Z * list Z * kind :=
  match f with
  | runuser => (txt "Journal", txt "User", KText)
  | rungroup => (txt "Journal", txt "Group", KText)
  | compress => (txt "Journal", txt "Compress", KBool)
  | sync_interval => (txt "Journal", txt "SyncIntervalSec", KTime)
  | rate_limit_interval => (txt "Journal", txt "RateLimitInterval", KTime)
  | rate_limit_burst => (txt "Journal", txt "RateLimitBurst", KNumber)
  | retention => (txt "Journal", txt "MaxRetentionSec", KTime)
  | file_usec => (txt "Journal", txt "MaxFileSec", KTime)
  | forward_syslog => (txt "Journal", txt "ForwardToSyslog", KBool)
  | forward_console => (txt "Journal", txt "ForwardToConsole", KBool)
  | tty_path => (txt "Journal", txt "TTYPath", KPath)
  | level_store => (txt "Journal", txt "MaxLevelStore", KLevel)
  | level_syslog => (txt "Journal", txt "MaxLevelSyslog", KLevel)
  | level_kmsg => (txt "Journal", txt "MaxLevelKMsg", KLevel)
  | level_console => (txt "Journal", txt "MaxLevelConsole", KLevel)
  | system_max_use => (txt "System", txt "MaxUse", KSize)
  | system_max_size => (txt "System", txt "MaxFileSize", KSize)
  | system_keep_free => (txt "System", txt "KeepFree", KSize)
  | runtime_max_use => (txt "Runtime", txt "MaxUse", KSize)
  | runtime_max_size => (txt "Runtime", txt "MaxFileSize", KSize)
  | runtime_keep_free => (txt "Runtime", txt "KeepFree", KSize)
  end.

Definition is_section (name : list Z) : Prop := exists f, (setting f).1.1 = name.

(** * Values *)

Definition letter (c : Z) : Prop := 65 <= c <= 90 \/ 97 <= c <= 122.

(** The units of time in microseconds, with their names. *)
Definition time_units : list (Z * list String.string) :=
  [(1, ["us"; "usec"]); (1000, ["ms"; "msec"]); (1000000, ["s"; "sec"; "second"; "seconds"]);
   (60 * 1000000, ["m"; "min"; "minute"; "minutes"]); (3600 * 1000000, ["h"; "hr"; "hour"; "hours"]);
   (24 * 3600 * 1000000, ["d"; "day"; "days"]); (7 * 24 * 3600 * 1000000, ["w"; "week"; "weeks"]);
   (2629800 * 1000000, ["month"; "months"]); (31557600 * 1000000, ["y"; "year"; "years"])]%string.

Definition unit_names : list (list Z * Z) := flat_map (fun x => map (fun name => (txt name, x.1)) x.2) time_units.

(** A span of time: numbers with the names of their units, such as 1h 30min. *)
Definition time_text (t : Z * (list Z * Z)) : list Z := decimal 20 t.1 ++ t.2.1.
Definition time_value (ts : list (Z * (list Z * Z))) : Z := fold_right (fun t r => t.1 * t.2.2 + r) 0 ts.
Definition time_ok (t : Z * (list Z * Z)) : Prop := 0 <= t.1 < 2 ^ 63 /\ t.2 ∈ unit_names.

(** A size: numbers with suffixes of decreasing size, such as 1G512M; [k] is the place of
    the suffix. *)
Definition suffix_text (k : nat) : list Z := nth k (map txt ["E"; "P"; "T"; "G"; "M"; "K"; "B"; ""]%string) [].
Definition suffix_value (k : nat) : Z := 1024 ^ Z.of_nat (6 - k).
Definition size_text (t : Z * nat) : list Z := decimal 20 t.1 ++ suffix_text t.2.
Definition size_value (ts : list (Z * nat)) : Z := fold_right (fun t r => t.1 * suffix_value t.2 + r) 0 ts.
Fixpoint sizes_from (k : nat) (ts : list (Z * nat)) : Prop :=
  match ts with
  | [] => True
  | t :: ts => 0 <= t.1 < 2 ^ 63 /\ (k <= t.2 < 8)%nat /\ sizes_from (S t.2) ts
  end.

(** A path: components behind one slash or more, and slashes at the end. *)
Definition component (c : nat * list Z) : list Z := replicate (S c.1) 47 ++ c.2.
Definition component_ok (c : nat * list Z) : Prop := c.2 <> [] /\ 47 ∉ c.2.
Definition clean_path (cs : list (nat * list Z)) : list Z :=
  match cs with [] => [47] | _ => flat_map (fun c => 47 :: c.2) cs end.

Definition level_names : list (list Z) := map txt ["emerg"; "alert"; "crit"; "err"; "warning"; "notice"; "info"; "debug"]%string.

Definition no_number (s : list Z) : Prop := match s with [] => True | c :: _ => letter c end.

(** The new value of a place that held [old], for a value written as [s].  The last five
    are for texts that are no value of their kind: the place is left as it is. *)
Inductive denotes : kind -> list Z -> value -> value -> Prop :=
| den_number n old : 0 <= n < 2 ^ 32 -> denotes KNumber (decimal 30 n) old (VNumber n)
| den_seconds n old : 0 <= n * 1000000 < 2 ^ 64 -> denotes KTime (decimal 20 n) old (VNumber (n * 1000000))
| den_time ts old : ts <> [] -> Forall time_ok ts -> time_value ts < 2 ^ 64 ->
    denotes KTime (join 32 (map time_text ts)) old (VNumber (time_value ts))
| den_size ts old : ts <> [] -> sizes_from 0 ts -> size_value ts < 2 ^ 64 ->
    denotes KSize (flat_map size_text ts) old (VNumber (size_value ts))
| den_bool b s old : lower <$> s ∈ bool_words b -> denotes KBool s old (VBool b)
| den_text s old : utf8_text s -> denotes KText s old (VString (match s with [] => None | _ => Some s end))
| den_path cs k old : cs <> [] \/ (0 < k)%nat -> Forall component_ok cs -> utf8_text (flat_map component cs ++ replicate k 47) ->
    denotes KPath (flat_map component cs ++ replicate k 47) old (VString (Some (clean_path cs)))
| den_level i name o : level_names !! i = Some name -> denotes KLevel name (VNumber o) (VNumber (8 * (o / 8 mod 128) + Z.of_nat i))
| den_level_number i o : 0 <= i <= 7 -> denotes KLevel (decimal 30 i) (VNumber o) (VNumber (8 * (o / 8 mod 128) + i))
| den_no_bool s old : (forall b, lower <$> s ∉ bool_words b) -> denotes KBool s old old
| den_no_text s old : ~ utf8_text s -> denotes KText s old old
| den_no_path s old : head s <> Some 47 \/ ~ utf8_text s -> denotes KPath s old old
| den_no_number k s old : k ∈ [KNumber; KTime; KSize] -> no_number s -> denotes k s old old
| den_no_level s old : s ∉ level_names -> no_number s -> denotes KLevel s old old.

Definition parser_of (k : kind) : parser :=
  match k with
  | KNumber => config_parse_unsigned
  | KTime => config_parse_sec
  | KSize => config_parse_iec_off
  | KBool => config_parse_bool
  | KText => config_parse_string
  | KPath => config_parse_path
  | KLevel => config_parse_log_level
  end.

(** * Numbers and levels *)

Lemma letter_ws c : letter c -> is_in WHITESPACE c = false.
Proof.
  intros H. unfold letter in H. change WHITESPACE with [32; 9; 10; 13]. unfold is_in. cbn [existsb].
  rewrite !(proj2 (Z.eqb_neq c _)) by lia. done.
Qed.

Lemma letter_no_digit c s : letter c -> no_digit (c :: s) /\ scan_base 10 (c :: s) 0 false = (0, false, c :: s).
Proof.
  intros Hc. assert (no_digit (c :: s)) as Hd by (unfold letter in Hc; simpl; unfold is_digit; zdecide; lia).
  split; [done|]. exact (scan_digits_rest [] (c :: s) 0 false eq_refl Hd).
Qed.

Lemma cstring_letter c s : letter c -> cstring (c :: s) = c :: cstring s.
Proof. intros Hc. unfold letter in Hc. simpl. by rewrite (proj2 (Z.eqb_neq c 0)) by lia. Qed.

Lemma letter_strto c s : letter c -> strtoll (c :: s) = (0, false, c :: s) /\ strtox (c :: s) = None.
Proof.
  intros Hc. unfold strtoll, strtox. rewrite cstring_letter by done. destruct (letter_no_digit c s Hc) as [_ E1].
  destruct (letter_no_digit c (cstring s) Hc) as [_ E2]. unfold letter in Hc. cbn [skip_spaces]. unfold is_space.
  replace ((c =? 32) || ((9 <=? c) && (c <=? 13))) with false by (symmetry; zdecide; lia).
  rewrite (proj2 (Z.eqb_neq c 45)), (proj2 (Z.eqb_neq c 43)) by lia. rewrite E1. split; [done|].
  unfold base_of. rewrite (proj2 (Z.eqb_neq c 48)) by lia. by rewrite E2.
Qed.

Lemma no_number_atou s : no_number s -> exists e, safe_atou s = inr e.
Proof.
  intros Hs. unfold safe_atou, safe_atollu. destruct s as [|c s]; [by eexists|].
  destruct (letter_strto c s Hs) as [_ ->]. by eexists.
Qed.

Lemma read_number n old : 0 <= n < 2 ^ 32 -> parse_value config_parse_unsigned (decimal 30 n) old = Some (VNumber n).
Proof.
  intros Hn. unfold parse_value. destruct (parsers_read_decimal n) as (_ & -> & _); [lia|].
  by rewrite (proj2 (Z.ltb_lt _ _)) by lia.
Qed.

Lemma facility_part o i : 0 <= i < 8 -> Z.lor (Z.land o LOG_FACMASK) i = 8 * (o / 8 mod 128) + i.
Proof.
  intros Hi. unfold LOG_FACMASK.
  assert (Z.land o 1016 = Z.shiftl (Z.land (Z.shiftr o 3) (Z.ones 7)) 3) as ->.
  { apply Z.bits_inj'. intros n Hn. rewrite Z.land_spec, Z.shiftl_spec by lia. change 1016 with (Z.shiftl (Z.ones 7) 3).
    rewrite Z.shiftl_spec by lia. destruct (Z.ltb_spec n 3).
    - by rewrite !(Z.testbit_neg_r _ (n - 3)), andb_false_r by lia.
    - rewrite Z.land_spec, Z.shiftr_spec by lia. by replace (n - 3 + 3) with n by lia. }
  rewrite Z.land_ones, Z.shiftr_div_pow2, lor_shiftl by lia. change (2 ^ 3) with 8. change (2 ^ 7) with 128. lia.
Qed.

Lemma read_level s i o : log_level_from_string s = Some i -> 0 <= i <= 7 ->
  parse_value config_parse_log_level s (VNumber o) = Some (VNumber (8 * (o / 8 mod 128) + i)).
Proof. intros E Hi. unfold parse_value. by rewrite E, facility_part by lia. Qed.

Lemma level_name i name : level_names !! i = Some name -> log_level_from_string name = Some (Z.of_nat i) /\ 0 <= Z.of_nat i <= 7.
Proof. intros H. do 8 (destruct i as [|i]; [injection H as <-; split; [reflexivity|lia]|]). done. Qed.

Lemma level_number i : 0 <= i <= 7 -> log_level_from_string (decimal 30 i) = Some i.
Proof.
  intros Hi. assert (i = 0 \/ i = 1 \/ i = 2 \/ i = 3 \/ i = 4 \/ i = 5 \/ i = 6 \/ i = 7) as H by lia.
  repeat destruct H as [->|H]; try reflexivity. subst. reflexivity.
Qed.

Lemma no_level s : s ∉ level_names -> no_number s -> log_level_from_string s = None.
Proof.
  intros Hn Hs. unfold log_level_from_string. destruct (no_number_atou s Hs) as (e & ->).
  destruct (list_find _ _) as [[i x]|] eqn:E; [|done]. apply list_find_Some in E as (Hi & -> & _). destruct Hn.
  by apply list_elem_of_lookup_2 in Hi.
Qed.

(** * Times *)

(** What follows the number of a term: the name of a unit, then a space or nothing. *)
Lemma unit_found rest : part_end rest ->
  Forall (fun x => find_suffix sec_table (x.1 ++ rest) = Some x /\ no_digit (x.1 ++ rest)
                   /\ match x.1 ++ rest with c :: _ => c <> 46 | [] => True end
                   /\ skip_whitespace (x.1 ++ rest) = x.1 ++ rest) unit_names.
Proof.
  intros Hr. let v := eval vm_compute in unit_names in change unit_names with v.
  destruct rest as [|c rest]; [|simpl in Hr; subst c];
    repeat (apply Forall_cons_2; [split_and!; (reflexivity || discriminate)|]); constructor.
Qed.

(** A term is read as what it stands for. *)
Lemma term_read sp a name u rest n r something :
  sp = [] \/ sp = [32] -> 0 <= a < 2 ^ 63 -> 0 <= r -> 0 <= a * u -> r + a * u < 2 ^ 64 ->
  find_suffix sec_table (name ++ rest) = Some (name, u) -> no_digit (name ++ rest) ->
  match name ++ rest with c :: _ => c <> 46 | [] => True end -> skip_whitespace (name ++ rest) = name ++ rest ->
  parse_span sec_table (S n) (sp ++ decimal 20 a ++ name ++ rest) r something = parse_span sec_table n rest (r + a * u) true.
Proof.
  intros Hsp Ha Hr Hau Hsum Hf Hnd Hdot Hws. rewrite parse_number by done.
  rewrite parse_fraction_plain; [|done|]. 2: { pose proof (decimal_ne a). rewrite !length_app. destruct (decimal 20 a); [done|]. cbn [length]. lia. }
  cbv beta iota zeta. rewrite Hws, Hf, drop_app_length. cbv beta iota zeta. simpl Nat.iter. rewrite Z.mul_0_l. change (u64 0) with 0.
  rewrite Z.add_0_r. do 2 rewrite (u64_small (a * u)) by (unfold is_u64; lia). by rewrite u64_small by (unfold is_u64; lia).
Qed.

Lemma unit_value name u : (name, u) ∈ unit_names -> 0 < u.
Proof.
  intros Hin. assert (Forall (fun x => (0 <? x.2) = true) unit_names) as H by (apply (bool_decide_unpack _); vm_compute; exact I).
  by apply (proj1 (Forall_forall _ _) H), Z.ltb_lt in Hin.
Qed.

Lemma time_value_nonneg ts : Forall time_ok ts -> 0 <= time_value ts.
Proof.
  induction 1 as [|[a [name u]] ts [Ha Hu%unit_value] _ IH]; [done|]. cbn [time_value fold_right fst snd] in *.
  fold (time_value ts). nia.
Qed.

Lemma time_text_plain t : time_ok t -> Forall (fun c => c <> 0) (time_text t) /\ time_text t <> [].
Proof.
  intros [Ha Hu]. destruct t as [a [name u]]. cbn [fst snd] in *. unfold time_text. cbn [fst snd]. split.
  - apply Forall_app_2; [apply digits_plain, decimal_ok; lia|].
    assert (Forall (fun x => Forall (fun c => c <> 0) x.1) unit_names) as H by (apply (bool_decide_unpack _); vm_compute; exact I).
    exact (proj1 (Forall_forall _ _) H _ Hu).
  - intros [E _]%app_nil. by apply decimal_ne in E.
Qed.

Lemma times_read ts : Forall time_ok ts -> forall sp n r something, sp = [] \/ sp = [32] -> ts <> [] -> (length ts < n)%nat ->
  0 <= r -> r + time_value ts < 2 ^ 64 ->
  parse_span sec_table n (sp ++ join 32 (map time_text ts)) r something = Ok (r + time_value ts).
Proof.
  induction 1 as [|[a [name u]] ts Ht Hts IH]; [done|]. intros sp n r something Hsp _ Hn Hr Hsum.
  destruct Ht as [Ha Hu]. cbn [fst snd] in *. cbn [time_value fold_right fst snd] in *. fold (time_value ts) in *.
  pose proof (unit_value _ _ Hu) as Hu0. pose proof (time_value_nonneg ts Hts) as Hv0. assert (0 <= a * u) by nia.
  set (rest := match ts with [] => [] | _ => 32 :: join 32 (map time_text ts) end).
  assert (join 32 (map time_text ((a, (name, u)) :: ts)) = decimal 20 a ++ name ++ rest) as ->.
  { unfold rest. destruct ts as [|t ts]; cbn [map join]; unfold time_text at 1; cbn [fst snd]; [by rewrite app_nil_r|by rewrite <- app_assoc]. }
  assert (part_end rest) as Hend by (unfold rest; by destruct ts).
  destruct (proj1 (Forall_forall _ _) (unit_found rest Hend) _ Hu) as (Hf & Hnd & Hdot & Hws). cbn [fst] in *.
  destruct n as [|n]; [lia|]. rewrite (term_read sp a name u rest) by (done || lia). unfold rest.
  destruct ts as [|t ts].
  - destruct n as [|n]; [simpl in Hn; lia|]. cbn. f_equal. lia.
  - change (32 :: join 32 (map time_text (t :: ts))) with ([32] ++ join 32 (map time_text (t :: ts))).
    rewrite IH; [f_equal; lia|by right|done|cbn [length] in *; lia|lia|lia].
Qed.

Lemma join_nonzero ws : Forall (Forall (fun c => c <> 0)) ws -> Forall (fun c => c <> 0) (join 32 ws).
Proof.
  induction 1 as [|w ws Hw _ IH]; [constructor|]. destruct ws as [|w2 ws]; [done|].
  change (join 32 (w :: w2 :: ws)) with (w ++ 32 :: join 32 (w2 :: ws)). apply Forall_app_2; [done|]. by constructor.
Qed.

Lemma read_time ts : ts <> [] -> Forall time_ok ts -> time_value ts < 2 ^ 64 ->
  parse_sec (join 32 (map time_text ts)) = Ok (time_value ts).
Proof.
  intros Hne Hts Hlt. unfold parse_sec. rewrite cstring_plain.
  - change (join 32 (map time_text ts)) with ([] ++ join 32 (map time_text ts)) at 2.
    rewrite times_read; [done|done|by left|done| |done|lia].
    pose proof (join_length 32 (map time_text ts)) as Hl. rewrite length_map in Hl.
    destruct Hts as [|t ts Ht Hts]; [done|]. destruct (time_text_plain t Ht) as [_ Hne2].
    destruct ts as [|t2 ts]; [cbn [map join length]; destruct (time_text t); [done|cbn [length]; lia]|].
    cbn [map] in *. change (join 32 (time_text t :: time_text t2 :: map time_text ts)) with (time_text t ++ 32 :: join 32 (time_text t2 :: map time_text ts)) in *.
    rewrite length_app. cbn [length]. pose proof (join_length 32 (time_text t2 :: map time_text ts)) as Hl2.
    cbn [length] in Hl2. rewrite length_map in Hl2. destruct (time_text t); [done|cbn [length]; lia].
  - apply join_nonzero. apply Forall_map. eapply Forall_impl; [exact Hts|]. intros t Ht. by apply time_text_plain.
Qed.

Lemma read_seconds n : 0 <= n * 1000000 < 2 ^ 64 -> parse_sec (decimal 20 n) = Ok (n * 1000000).
Proof.
  intros Hn. unfold parse_sec. rewrite cstring_plain by (apply digits_plain, decimal_ok; lia).
  pose proof (term_read [] n [] 1000000 [] (length (decimal 20 n)) 0 false (or_introl eq_refl)) as H.
  rewrite !app_nil_r in H. rewrite app_nil_l in H.
  rewrite H; [|lia..|done|done|done|done]. pose proof (decimal_ne n). destruct (decimal 20 n); [done|]. cbn. f_equal.
Qed.

(** * Sizes *)

(** A suffix, where it may stand, is found behind its number. *)
Lemma suffix_read start k rest : (start <= k < 8)%nat -> (k = 7%nat -> rest = []) ->
  no_digit (suffix_text k ++ rest) /\ size_fraction (suffix_text k ++ rest) = Ok (S754_zero false, suffix_text k ++ rest)
  /\ skip_whitespace (suffix_text k ++ rest) = suffix_text k ++ rest
  /\ size_suffix (drop start (size_table 1024)) (suffix_text k ++ rest) start = Some (length (suffix_text k), suffix_value k, S k)
  /\ ull_of (SFmul 53 1024 (S754_zero false) (double_of (suffix_value k))) = 0.
Proof.
  intros Hk Hrest. assert (k = 7%nat -> rest = []) as Hr by done. clear Hrest.
  do 8 (destruct k as [|k]; [try (rewrite Hr by done);
    split_and!; try reflexivity; do 8 (destruct start as [|start]; [try reflexivity; lia|]); lia|]). lia.
Qed.

Lemma suffix_value_pos k : 0 < suffix_value k.
Proof. unfold suffix_value. apply Z.pow_pos_nonneg; lia. Qed.

Lemma size_value_nonneg ts k : sizes_from k ts -> 0 <= size_value ts.
Proof.
  revert k. induction ts as [|[a i] ts IH]; intros k H; [done|]. destruct H as (Ha & _ & H). apply IH in H.
  cbn [size_value fold_right fst snd] in *. fold (size_value ts). pose proof (suffix_value_pos i). nia.
Qed.

Lemma size_term_shape t k : sizes_from k [t] -> exists c d, size_text t = c :: d /\ c <> 0 /\ Forall (fun c => c <> 0) d.
Proof.
  intros (Ha & Hk & _). destruct (decimal_ok 20 t.1 ltac:(lia)) as (Hd & _). pose proof (decimal_ne t.1) as Hne.
  apply digits_plain in Hd. unfold size_text. destruct Hd as [|c d Hc Hd]; [done|]. eexists c, _. split; [reflexivity|]. split; [done|].
  apply Forall_app_2; [done|]. destruct t as [a i]. cbn [snd] in *.
  do 8 (destruct i as [|i]; [apply (bool_decide_unpack _); vm_compute; exact I|]). lia.
Qed.

Lemma size_text_shape t ts k : sizes_from k (t :: ts) ->
  chr (flat_map size_text (t :: ts)) <> 0 /\ Forall (fun c => c <> 0) (flat_map size_text (t :: ts)).
Proof.
  revert t k. induction ts as [|t2 ts IH]; intros t k (Ha & Hk & Hts);
    destruct (size_term_shape t k (conj Ha (conj Hk I))) as (c & d & E & Hc & Hd); cbn [flat_map]; rewrite E; (split; [done|]).
  - apply Forall_app_2; [by constructor|constructor].
  - apply Forall_app_2; [by constructor|]. by apply (IH t2 _ Hts).
Qed.

Lemma sizes_read ts : forall start n r, ts <> [] -> sizes_from start ts -> (length ts <= n)%nat -> 0 <= r -> r + size_value ts < 2 ^ 64 ->
  parse_size_loop (size_table 1024) n (flat_map size_text ts) r start = Ok (r + size_value ts).
Proof.
  induction ts as [|[a k] ts IH]; [done|]. intros start n r _ Hts Hn Hr Hsum. pose proof Hts as Hall. destruct Hts as (Ha & Hk & Hts). cbn [fst snd] in *.
  destruct n as [|n]; [simpl in Hn; lia|]. cbn [flat_map]. unfold size_text at 1. cbn [fst snd]. rewrite <- app_assoc.
  assert (k = 7%nat -> flat_map size_text ts = []) as Hlast by (intros ->; destruct ts as [|t ts]; [done|destruct Hts as (_ & ? & _); lia]).
  destruct (suffix_read start k (flat_map size_text ts) Hk Hlast) as (Hnd & Hfr & Hws & Hsf & Hull).
  pose proof (suffix_value_pos k) as Hf. pose proof (size_value_nonneg ts _ Hts) as Hv0.
  cbn [size_value fold_right fst snd] in *. fold (size_value ts) in *.
  destruct (decimal_ok 20 a ltac:(lia)) as (Hd & Hval & _). pose proof (decimal_ne a) as Hne.
  pose proof (TimeUtil.strtoll_digits (decimal 20 a) _ Hd Hne Hnd) as Hstr. rewrite Hval in Hstr.
  cbn [parse_size_loop]. rewrite Hstr by lia. rewrite (proj2 (Z.ltb_ge a 0)) by lia. cbv iota.
  assert ((length (suffix_text k ++ flat_map size_text ts) =? length (decimal 20 a ++ suffix_text k ++ flat_map size_text ts))%nat = false) as ->.
  { apply Nat.eqb_neq. rewrite !length_app. destruct (decimal 20 a); [done|]. cbn [length]. lia. }
  rewrite Hfr. cbv zeta. rewrite Hws, Hsf, Hull. cbn [positive]. rewrite !Z.add_0_r.
  assert (0 <= a * suffix_value k) by nia. assert (is_u64 (a * suffix_value k)) by (unfold is_u64; lia).
  rewrite (u64_small a) by (unfold is_u64; lia). rewrite !(u64_small (a * suffix_value k)) by done.
  rewrite (proj2 (Z.ltb_ge _ a)) by (apply Z.div_le_lower_bound; [lia|]; unfold u64_max; lia).
  rewrite (proj2 (Z.ltb_ge _ (a * suffix_value k))) by (unfold u64_max; lia).
  rewrite (u64_small (r + _)) by (unfold is_u64; lia). rewrite drop_app_length.
  destruct ts as [|t ts]; [cbn; f_equal; lia|].
  destruct (size_text_shape t ts _ Hts) as (Hc & _). rewrite (proj2 (Z.eqb_neq _ 0)) by done.
  rewrite IH; [f_equal; lia|done|done|cbn [length] in *; lia|lia|lia].
Qed.

Lemma sizes_count k ts : sizes_from k ts -> (length ts + k <= 8 \/ ts = [])%nat.
Proof.
  revert k. induction ts as [|t ts IH]; intros k H; [by right|]. left. destruct H as (_ & Hk & H). apply IH in H as [H| ->]; cbn [length]; lia.
Qed.

Lemma read_size ts : ts <> [] -> sizes_from 0 ts -> size_value ts < 2 ^ 64 -> parse_size (flat_map size_text ts) 1024 = Ok (size_value ts).
Proof.
  intros Hne Hts Hlt. unfold parse_size. cbn [negb orb Z.eqb Pos.eqb]. destruct ts as [|t ts]; [done|].
  destruct (size_text_shape t ts 0 Hts) as (_ & Hp). rewrite cstring_plain by done.
  rewrite sizes_read; [done|done|done| |done|done]. destruct (sizes_count _ _ Hts); [lia|done].
Qed.

(** * Paths, texts and booleans *)

Lemma kill_slashes_component c b s : c <> [] -> 47 ∉ c -> kill_slashes b (c ++ s) = (if b then [47] else []) ++ c ++ kill_slashes false s.
Proof.
  revert b. induction c as [|x c IH]; [done|]. intros b _ Hn. apply not_elem_of_cons in Hn as [Hx Hn].
  cbn [app kill_slashes]. rewrite (proj2 (Z.eqb_neq x 47)) by congruence. destruct c as [|y c]; [by destruct b|].
  rewrite IH by done. by destruct b.
Qed.

Lemma kill_slashes_replicate b k s : kill_slashes b (replicate k 47 ++ s) = kill_slashes (if (k =? 0)%nat then b else true) s.
Proof. revert b. induction k as [|k IH]; intros b; [done|]. cbn [replicate app kill_slashes]. rewrite Z.eqb_refl, IH. by destruct k. Qed.

Lemma kill_slashes_path cs k : Forall component_ok cs -> kill_slashes false (flat_map component cs ++ replicate k 47) = flat_map (fun c => 47 :: c.2) cs.
Proof.
  induction 1 as [|[j c] cs [Hc Hn] _ IH].
  - cbn [flat_map app]. rewrite <- (app_nil_r (replicate k 47)), kill_slashes_replicate. by destruct k.
  - cbn [flat_map fst snd] in *. unfold component at 1. cbn [fst snd]. rewrite <- !app_assoc, kill_slashes_replicate.
    cbn [Nat.eqb]. rewrite kill_slashes_component by done. rewrite IH. done.
Qed.

Lemma read_path cs k : cs <> [] \/ (0 < k)%nat -> Forall component_ok cs ->
  path_is_absolute (flat_map component cs ++ replicate k 47) = true
  /\ path_kill_slashes (flat_map component cs ++ replicate k 47) = clean_path cs.
Proof.
  intros Hne Hcs. unfold path_kill_slashes, path_is_absolute. rewrite kill_slashes_path by done. destruct cs as [|[j c] cs].
  - destruct Hne as [?|Hk]; [done|]. destruct k as [|k]; [lia|]. done.
  - done.
Qed.

Lemma utf8_decides s : bytes_ok s -> Forall (fun c => c <> 0) s ->
  exists b, utf8_is_valid (S (length s)) s = Some b /\ (b = true <-> utf8_text s).
Proof.
  intros Hb Hs. destruct (utf8_is_valid_ok (S (length s)) s Hb) as (b & H1 & H2); [lia|]. rewrite cstring_plain in H2 by done. by exists b.
Qed.

Lemma parse_value_bool s old : bytes_ok s -> Forall (fun c => c <> 0) s ->
  (forall b, lower <$> s ∈ bool_words b -> parse_value config_parse_bool s old = Some (VBool b))
  /\ ((forall b, lower <$> s ∉ bool_words b) -> parse_value config_parse_bool s old = None).
Proof.
  intros Hb Hs. assert (forall b, parse_bool (Some s) = Some b <-> lower <$> s ∈ bool_words b) as H.
  { intros b. rewrite parse_bool_correct by done. by rewrite cstring_plain. }
  unfold parse_value. split.
  - intros b Hin. apply H in Hin. by rewrite Hin.
  - intros Hno. destruct (parse_bool (Some s)) as [b|]; [|done]. by destruct (Hno b); apply H.
Qed.

Lemma no_number_values k s old : k ∈ [KNumber; KTime; KSize] -> no_number s -> parse_value (parser_of k) s old = None.
Proof.
  intros Hk Hs. assert (chr s = 0 /\ s = [] \/ exists c t, s = c :: t /\ letter c) as [[_ ->]|(c & t & -> & Hc)].
  { destruct s as [|c s]; [by left|]. right. by exists c, s. }
  { repeat (apply elem_of_cons in Hk as [->|Hk]; [reflexivity|]). by apply not_elem_of_nil in Hk. }
  destruct (letter_strto c (cstring t) Hc) as [Hl _]. destruct (no_number_atou (c :: t) Hc) as (e & He).
  repeat (apply elem_of_cons in Hk as [->|Hk]); [| | |by apply not_elem_of_nil in Hk]; cbn [parser_of parse_value].
  - by rewrite He.
  - unfold parse_sec. rewrite cstring_letter by done. cbn [parse_span length].
    assert (skip_whitespace (c :: cstring t) = c :: cstring t) as ->.
    { unfold skip_whitespace. by rewrite strspn_none by (by apply letter_ws). }
    rewrite Hl. cbn [Z.ltb Z.compare]. unfold parse_fraction.
    assert (c <> 46) by (unfold letter in Hc; lia). rewrite (Nat.eqb_refl (length (c :: cstring t))).
    destruct c as [|q|q]; try done. repeat (destruct q as [q|q|]; try done).
  - unfold parse_size. cbn [negb orb Z.eqb Pos.eqb]. rewrite cstring_letter by done. cbn [parse_size_loop]. rewrite Hl.
    cbn [Z.ltb Z.compare]. by rewrite Nat.eqb_refl.
Qed.

(** Every value is read as what it denotes. *)
Lemma parse_value_denotes k s old v : bytes_ok s -> Forall (fun c => c <> 0) s -> denotes k s old v ->
  default old (parse_value (parser_of k) s old) = v.
Proof.
  intros Hb Hs H. destruct H as [n old Hn|n old Hn|ts old Hne Hts Hlt|ts old Hne Hts Hlt|b s old Hin|s old Ht|cs k old Hne Hcs Ht|i name o Hi|i o Hi|
    s old Hno|s old Hno|s old Hno|k s old Hk Hno|s old Hno Hnn]; cbn [parser_of].
  - by rewrite read_number.
  - unfold parse_value. by rewrite read_seconds.
  - unfold parse_value. by rewrite read_time.
  - unfold parse_value. by rewrite read_size.
  - by rewrite (proj1 (parse_value_bool s old Hb Hs) b Hin).
  - unfold parse_value. destruct (utf8_decides s Hb Hs) as (b & -> & Hiff). rewrite (proj2 Hiff Ht). by destruct s.
  - unfold parse_value. destruct (read_path cs k Hne Hcs) as [-> ->]. destruct (utf8_decides _ Hb Hs) as (b & -> & Hiff).
    by rewrite (proj2 Hiff Ht).
  - destruct (level_name i name Hi) as [E ?]. by rewrite (read_level _ _ o E).
  - by rewrite (read_level _ _ o (level_number i Hi)).
  - by rewrite (proj2 (parse_value_bool s old Hb Hs) Hno).
  - unfold parse_value. destruct (utf8_decides s Hb Hs) as (b & -> & Hiff). destruct b; [|done]. by destruct Hno; apply Hiff.
  - unfold parse_value. destruct (path_is_absolute s) eqn:Ea; [|done]. destruct (utf8_decides s Hb Hs) as (b & -> & Hiff).
    destruct Hno as [Hno|Hno]; [|destruct b; [|done]; by destruct Hno; apply Hiff].
    apply Z.eqb_eq in Ea. destruct s; [done|]. simpl in Ea. by subst.
  - by rewrite no_number_values.
  - unfold parse_value. by rewrite no_level.
Qed.

(** * The table *)

Lemma split_at_app c k v : c ∉ k -> split_at c (k ++ c :: v) = Some (k, v).
Proof.
  induction k as [|x k IH]; intros Hn; cbn [app split_at]; [by rewrite Z.eqb_refl|].
  apply not_elem_of_cons in Hn as [Hx Hn]. rewrite (proj2 (Z.eqb_neq x c)) by congruence. by rewrite IH.
Qed.

Lemma find_item_in key l x : find_item key l = Some x -> (key, x) ∈ l.
Proof.
  induction l as [|[k y] l IH]; [done|]. cbn [find_item]. case_bool_decide as E; [intros [= ->]; subst; constructor|].
  intros H. constructor. by apply IH.
Qed.

(** The rows of the table are the settings. *)
Lemma lookup_setting f section key k : setting f = (section, key, k) -> config_item_perf_lookup (Some section) key = Some (parser_of k, f).
Proof. intros H. destruct f; injection H as <- <- <-; reflexivity. Qed.

Lemma journald_items_settings key p f : (key, (p, f)) ∈ journald_items -> key = (setting f).1.1 ++ 46 :: (setting f).1.2.
Proof.
  intros Hin. assert (Forall (fun x => x.1 = (setting x.2.2).1.1 ++ 46 :: (setting x.2.2).1.2) journald_items) as H
    by (apply (bool_decide_unpack _); vm_compute; exact I).
  exact (proj1 (Forall_forall _ _) H _ Hin).
Qed.

Lemma section_dot name : is_section name -> 46 ∉ name.
Proof. intros [f <-]. destruct f; apply (bool_decide_unpack _); vm_compute; exact I. Qed.

Lemma lookup_unknown section key : is_section section -> (forall f, (setting f).1 <> (section, key)) ->
  config_item_perf_lookup (Some section) key = None.
Proof.
  intros Hs Hno. unfold config_item_perf_lookup. destruct (find_item _ _) as [[p f]|] eqn:E; [|done].
  apply find_item_in, journald_items_settings in E. change (txt ".") with [46] in E.
  pose proof (split_at_app 46 section key (section_dot _ Hs)) as H1. cbn [app] in E. rewrite E in H1.
  rewrite split_at_app in H1 by (apply section_dot; by exists f). injection H1 as H1 H2. destruct (Hno f).
  by rewrite <- H1, <- H2, <- surjective_pairing.
Qed.

Lemma is_section_sections name : is_section name <-> name ∈ sections.
Proof.
  split.
  - intros [f <-]. destruct f; apply (bool_decide_unpack _); vm_compute; exact I.
  - intros H. repeat (apply elem_of_cons in H as [->|H]); [by exists compress|by exists system_max_use|by exists runtime_max_use|].
    by apply not_elem_of_nil in H.
Qed.

(** * The language of the file *)

(** A line of the file: an assignment may be continued over several. *)
Inductive cline :=
| LBlank
| LComment (mark : Z) (text : list Z)
| LSection (name : list Z)
| LSet (key : list Z) (pieces : list (list Z)).

Definition continued : list Z := [92; 10].
Fixpoint render_pieces (ps : list (list Z)) : list Z :=
  match ps with
  | [] => [10]
  | [p] => p ++ [10]
  | p :: ps => p ++ continued ++ render_pieces ps
  end.

Definition render (x : cline) : list Z :=
  match x with
  | LBlank => [10]
  | LComment mark text => mark :: text ++ [10]
  | LSection name => 91 :: name ++ [93; 10]
  | LSet key ps => key ++ 61 :: render_pieces ps
  end.

(** What is written of a value: its pieces with spaces between them, but not the blanks
    at its ends. *)
Definition blank (c : Z) : Prop := c = 32 \/ c = 9.
Definition trimmed (s : list Z) : Prop := match s with [] => True | c :: _ => ~ blank c /\ ~ blank (List.last s 0) end.
Definition value_text (ps : list (list Z)) (s : list Z) : Prop :=
  trimmed s /\ exists a b, Forall blank a /\ Forall blank b /\ join 32 ps = a ++ s ++ b.

(** What a line makes of the section it is in ([None]: not a known one) and of the
    settings. *)
Inductive line_means : option (list Z) -> Config -> cline -> option (list Z) -> Config -> Prop :=
| means_blank name c : line_means name c LBlank name c
| means_comment name c mark text : line_means name c (LComment mark text) name c
| means_section old c name : is_section name -> line_means old c (LSection name) (Some name) c
| means_other old c name : ~ is_section name -> line_means old c (LSection name) None c
| means_set name key f k ps s c v c' : setting f = (name, key, k) -> value_text ps s -> denotes k s (c f) v ->
    c' f = v -> (forall g, g <> f -> c' g = c g) -> line_means (Some name) c (LSet key ps) (Some name) c'
| means_unknown name key ps c : is_section name -> (forall f, (setting f).1 <> (name, key)) ->
    line_means (Some name) c (LSet key ps) (Some name) c
| means_outside key ps c : line_means None c (LSet key ps) None c.

Inductive means : option (list Z) -> Config -> list cline -> Config -> Prop :=
| means_end name c : means name c [] c
| means_line name c x name1 c1 ls c2 : line_means name c x name1 c1 -> means name1 c1 ls c2 -> means name c (x :: ls) c2.

(** Text that needs no quoting. *)
Definition plain (c : Z) : Prop := 0 < c < 256 /\ c <> 10 /\ c <> 13 /\ c <> 92.

(** The lines fit into the buffer. *)
Definition line_ok (x : cline) : Prop :=
  match x with
  | LBlank => True
  | LComment mark text => mark ∈ [35; 59] /\ Forall plain text /\ (length text + 2 < LINE_MAX)%nat
  | LSection name => Forall letter name /\ (length name + 3 < LINE_MAX)%nat
  | LSet key ps => Forall letter key /\ key <> [] /\ ps <> [] /\ Forall (Forall plain) ps
      /\ Forall (fun p => length key + length p + 3 < LINE_MAX)%nat ps
  end.

(** * Physical lines *)

Lemma fgets_line : forall l n rest, Forall (fun c => c <> 10) l -> (length l + 1 < n)%nat -> fgets n (l ++ 10 :: rest) = (l ++ [10], rest).
Proof.
  induction l as [|c l IH]; intros n rest Hl Hn; (destruct n as [|[|n]]; [simpl in Hn; lia..|]).
  - done.
  - inversion_clear Hl as [|? ? Hc Hl']. cbn [fgets app]. rewrite (proj2 (Z.eqb_neq c 10)) by done.
    rewrite IH by (simpl in Hn; done || lia). done.
Qed.

Lemma truncate_line l : Forall (fun c => c <> 0 /\ c <> 10 /\ c <> 13) l -> truncate_nl (cstring (l ++ [10])) = l.
Proof.
  intros Hl. rewrite cstring_plain.
  - unfold truncate_nl. assert (strcspn (l ++ [10]) NEWLINE = length l) as ->.
    { apply strcspn_app; [|done]. eapply Forall_impl; [exact Hl|]. intros c (_ & H1 & H2). unfold is_in, NEWLINE. simpl. bprop.
      apply orb_false_iff. split; [by apply Z.eqb_neq|]. rewrite (proj2 (Z.eqb_neq c 13)) by done. done. }
    by rewrite take_app_length.
  - apply Forall_app_2; [|by repeat constructor]. eapply Forall_impl; [exact Hl|]. by intros c [? _].
Qed.

Lemma plain_text l : Forall plain l -> Forall (fun c => c <> 0 /\ c <> 10 /\ c <> 13) l.
Proof. intros H. eapply Forall_impl; [exact H|]. intros c (? & ? & ? & ?). lia. Qed.

Lemma letter_plain l : Forall letter l -> Forall plain l.
Proof. intros H. eapply Forall_impl; [exact H|]. unfold letter, plain. intros c. lia. Qed.

Lemma escaped_plain l : Forall plain l -> forall b t, ends_escaped b (l ++ t) = ends_escaped (if (length l =? 0)%nat then b else false) t.
Proof.
  induction 1 as [|c l (_ & _ & _ & Hc) _ IH]; intros b t; [done|]. cbn [app ends_escaped length]. rewrite IH.
  rewrite (proj2 (Z.eqb_neq c 92)) by done. by destruct b, l.
Qed.

Lemma not_escaped l : Forall plain l -> ends_escaped false l = false.
Proof. intros H. rewrite <- (app_nil_r l), escaped_plain by done. by destruct l. Qed.

Lemma escaped_end l : Forall plain l -> ends_escaped false (l ++ [92]) = true.
Proof. intros H. rewrite escaped_plain by done. by destruct l. Qed.

(** One physical line. *)
Lemma physical_line n body rest cont line st :
  Forall (fun c => c <> 0 /\ c <> 10 /\ c <> 13) body -> (length body + 1 < LINE_MAX)%nat ->
  config_lines (S n) (body ++ 10 :: rest) cont line st =
  let p := default [] cont ++ body in
  if ends_escaped false p then config_lines n rest (Some (take (length p - 1) p ++ [32])) line st
  else match parse_line (u32 (line + 1)) p st with
       | (Ok _, st) => config_lines n rest None (u32 (line + 1)) st
       | r => r
       end.
Proof.
  intros Hb Hlen. assert (fgets LINE_MAX (body ++ 10 :: rest) = (body ++ [10], rest)) as Hf.
  { apply fgets_line; [|done]. eapply Forall_impl; [exact Hb|]. by intros c (_ & ? & _). }
  assert (body ++ 10 :: rest <> []) as Hne by (by destruct body). cbn [config_lines].
  destruct (body ++ 10 :: rest) as [|x y] eqn:E; [done|]. rewrite Hf, truncate_line by done. by destruct cont.
Qed.

(** The pieces of a value, behind what has been read of the line. *)
Lemma continued_lines ps : ps <> [] -> forall n head acc rest line st,
  Forall (Forall plain) ps -> Forall plain head -> Forall plain (default [] acc) ->
  Forall (fun p => length head + length p + 2 < LINE_MAX)%nat ps ->
  (length (head ++ render_pieces ps ++ rest) <= n)%nat ->
  exists n', (length rest <= n')%nat /\
  config_lines n (head ++ render_pieces ps ++ rest) acc line st =
  match parse_line (u32 (line + 1)) (default [] acc ++ head ++ join 32 ps) st with
  | (Ok _, st) => config_lines n' rest None (u32 (line + 1)) st
  | r => r
  end.
Proof.
  induction ps as [|p ps IH]; [done|]. intros _ n head acc rest line st Hps Hh Hacc Hlen Hn.
  inversion_clear Hps as [|? ? Hp Hps']. inversion_clear Hlen as [|? ? Hl Hlen'].
  destruct n as [|n]; [rewrite !length_app in Hn; destruct ps; simpl in Hn; rewrite ?length_app in Hn; simpl in Hn; lia|].
  destruct ps as [|q ps].
  - cbn [render_pieces join] in *. replace (head ++ (p ++ [10]) ++ rest) with ((head ++ p) ++ 10 :: rest) in * by (by rewrite <- !app_assoc).
    exists n. split; [rewrite !length_app in Hn; simpl in Hn; lia|].
    rewrite physical_line; [|by apply Forall_app_2; apply plain_text|rewrite length_app; lia]. cbv zeta.
    rewrite not_escaped by (repeat apply Forall_app_2; done). done.
  - change (render_pieces (p :: q :: ps)) with (p ++ continued ++ render_pieces (q :: ps)) in *.
    replace (head ++ (p ++ continued ++ render_pieces (q :: ps)) ++ rest) with ((head ++ p ++ [92]) ++ 10 :: render_pieces (q :: ps) ++ rest) in *
      by (unfold continued; by rewrite <- !app_assoc).
    set (rest' := render_pieces (q :: ps) ++ rest) in *.
    rewrite physical_line; [|repeat apply Forall_app_2; [by apply plain_text..|by repeat constructor]|rewrite !length_app; simpl; lia].
    cbv zeta. set (full := default [] acc ++ head ++ p).
    assert (default [] acc ++ head ++ p ++ [92] = full ++ [92]) as -> by (unfold full; by rewrite <- !app_assoc).
    assert (Forall plain full) as Hfull by (repeat apply Forall_app_2; done).
    rewrite escaped_end by done. rewrite length_app. replace (length full + length [92%Z] - 1)%nat with (length full) by (simpl; lia).
    rewrite take_app_length.
    destruct (IH ltac:(done) n [] (Some (full ++ [32])) rest line st) as (n' & Hn' & E); [done|constructor|..].
    + apply Forall_app_2; [done|]. by repeat constructor.
    + eapply Forall_impl; [exact Hlen'|]. intros x Hx. cbn [length] in *. lia.
    + rewrite !length_app in Hn. simpl in Hn. cbn [app]. fold rest'. lia.
    + exists n'. split; [done|]. cbn [app] in E. fold rest' in E. rewrite E.
      assert (default [] (Some (full ++ [32])) ++ join 32 (q :: ps) = default [] acc ++ head ++ join 32 (p :: q :: ps)) as ->.
      { change (join 32 (p :: q :: ps)) with (p ++ 32 :: join 32 (q :: ps)). unfold full. simpl default. by rewrite <- !app_assoc. }
      done.
Qed.

(** * Stripping *)

Lemma drop_trailing_idem s : drop_trailing (drop_trailing s) = drop_trailing s.
Proof.
  induction s as [|c s IH]; [done|]. cbn [drop_trailing]. destruct (drop_trailing s) as [|x t] eqn:E.
  - destruct (is_in WHITESPACE c) eqn:Ec; [done|]. cbn [drop_trailing]. by rewrite Ec.
  - cbn [drop_trailing] in *. by rewrite IH.
Qed.

Lemma drop_trailing_app a c b : is_in WHITESPACE c = false -> drop_trailing (a ++ c :: b) = a ++ c :: drop_trailing b.
Proof.
  intros Hc. induction a as [|x a IH]; cbn [app drop_trailing].
  - destruct (drop_trailing b); [by rewrite Hc|done].
  - rewrite IH. by destruct a.
Qed.

Lemma strstrip_trailing s : strstrip (drop_trailing s) = strstrip s.
Proof.
  unfold strstrip. induction s as [|c s IH]; [done|]. cbn [drop_trailing]. destruct (drop_trailing s) as [|x t] eqn:E.
  - destruct (is_in WHITESPACE c) eqn:Ec.
    + cbn [strspn]. rewrite Ec. cbn [drop]. exact IH.
    + cbn [strspn]. rewrite Ec. cbn [drop drop_trailing]. by rewrite Ec, E.
  - cbn [strspn]. destruct (is_in WHITESPACE c) eqn:Ec; [exact IH|]. cbn [drop]. cbn [drop_trailing] in *.
    rewrite E. pose proof (drop_trailing_idem s) as Hi. rewrite E in Hi. cbn [drop_trailing] in Hi. by rewrite Hi.
Qed.

Lemma strip_nothing s : s <> [] -> Forall (fun c => is_in WHITESPACE c = false) s -> strstrip s = s.
Proof.
  intros Hne Hs. unfold strstrip. destruct Hs as [|c s Hc Hs]; [done|]. cbn [strspn]. rewrite Hc. cbn [drop].
  destruct (@exists_last _ (c :: s)) as (t & x & E); [done|]. rewrite E. apply drop_trailing_last.
  assert (Forall (fun c => is_in WHITESPACE c = false) (t ++ [x])) as H by (rewrite <- E; by constructor).
  apply Forall_app in H as [_ H]. by inversion H.
Qed.

Lemma letters_ws l : Forall letter l -> Forall (fun c => is_in WHITESPACE c = false) l.
Proof. intros H. eapply Forall_impl; [exact H|]. exact letter_ws. Qed.

(** * Logical lines *)

Lemma letters_no_equals k : Forall letter k -> 61 ∉ k.
Proof. intros H Hin. apply (proj1 (Forall_forall _ _) H) in Hin. unfold letter in Hin. lia. Qed.

Lemma startswith_letters k v p : Forall letter k -> k <> [] -> startswith (k ++ 61 :: v) (46 :: p) = false.
Proof.
  intros Hk Hne. destruct Hk as [|c k Hc _]; [done|]. apply bool_decide_eq_false. cbn [app length take]. intros [= -> _].
  unfold letter in Hc. lia.
Qed.

Lemma parse_assignment line k v st : Forall letter k -> k <> [] ->
  exists st', parse_line line (k ++ 61 :: v) st = (Ok tt, st') /\ st_section st' = st_section st
    /\ st_config st' = match st_section st with Some s => next_assignment (Some s) k (strstrip v) (st_config st) | None => st_config st end.
Proof.
  intros Hk Hne. unfold parse_line.
  assert (strstrip (k ++ 61 :: v) = k ++ 61 :: drop_trailing v) as ->.
  { unfold strstrip. destruct Hk as [|c k Hc Hk]; [done|]. cbn [app strspn]. rewrite letter_ws by done. cbn [drop].
    exact (drop_trailing_app (c :: k) 61 v eq_refl). }
  change (txt ".include ") with (46 :: txt "include ").
  rewrite startswith_letters, split_at_app by (done || by apply letters_no_equals). rewrite strstrip_trailing, strip_nothing; [|done|by apply letters_ws].
  destruct Hk as [|c k Hc Hk]; [done|]. cbn [app]. unfold letter in Hc.
  assert (is_in (COMMENTS ++ [10]) c = false) as ->.
  { change (COMMENTS ++ [10]) with [35; 59; 10]. unfold is_in. cbn [existsb]. rewrite !(proj2 (Z.eqb_neq c _)) by lia. done. }
  rewrite (proj2 (Z.eqb_neq c 91)) by lia. destruct (st_section st) eqn:E; eexists; (split; [reflexivity|]); by split.
Qed.

Lemma parse_section line name st : Forall letter name ->
  exists st', parse_line line (91 :: name ++ [93]) st = (Ok tt, st') /\ st_config st' = st_config st
    /\ st_section st' = if decide (name ∈ sections) then Some name else None.
Proof.
  intros Hn. unfold parse_line.
  assert (strstrip (91 :: name ++ [93]) = 91 :: name ++ [93]) as ->.
  { apply strip_nothing; [done|]. constructor; [done|]. apply Forall_app_2; [by apply letters_ws|by repeat constructor]. }
  change (is_in (COMMENTS ++ [10]) 91) with false. cbv iota.
  assert (startswith (91 :: name ++ [93]) (txt ".include ") = false) as -> by (by apply bool_decide_eq_false).
  rewrite Z.eqb_refl. change (91 :: name ++ [93]) with ((91 :: name) ++ [93]). rewrite last_snoc. cbn [default Z.eqb Pos.eqb negb].
  assert (take (length ((91 :: name) ++ [93]) - 2) (drop 1 ((91 :: name) ++ [93])) = name) as ->.
  { cbn [app length]. rewrite length_app. cbn [length drop]. replace (S (length name + 1) - 2)%nat with (length name) by lia.
    apply take_app_length. }
  destruct (existsb _ sections) eqn:E.
  - eexists. split; [reflexivity|]. split; [done|]. apply existsb_exists in E as (x & Hx & ->%bool_decide_eq_true).
    by rewrite decide_True by (by apply list_elem_of_In).
  - eexists. split; [reflexivity|]. split; [done|]. rewrite decide_False; [done|]. intros Hin. apply not_true_iff_false in E. destruct E.
    apply existsb_exists. exists name. split; [by apply list_elem_of_In|]. by apply bool_decide_eq_true.
Qed.

Lemma parse_comment line mark text st : mark ∈ COMMENTS -> parse_line line (mark :: text) st = (Ok tt, st).
Proof.
  intros Hm. unfold parse_line, strstrip.
  assert (is_in WHITESPACE mark = false /\ is_in (COMMENTS ++ [10]) mark = true) as [H1 H2].
  { apply elem_of_cons in Hm as [->|Hm]; [done|]. by apply list_elem_of_singleton in Hm as ->. }
  cbn [strspn]. rewrite H1. cbn [drop]. rewrite (drop_trailing_app [] mark text H1 : drop_trailing (mark :: text) = _). cbn [app]. by rewrite H2.
Qed.

(** * Whole files *)

Lemma blank_ws c : plain c -> is_in WHITESPACE c = true <-> blank c.
Proof.
  intros (_ & H1 & H2 & _). unfold blank. change WHITESPACE with [32; 9; 10; 13]. unfold is_in. cbn [existsb].
  rewrite !orb_true_iff, !Z.eqb_eq. intuition (congruence || auto).
Qed.

Lemma strspn_blanks a s : Forall (fun c => is_in WHITESPACE c = true) a -> strspn (a ++ s) WHITESPACE = (length a + strspn s WHITESPACE)%nat.
Proof. induction 1 as [|c a Hc _ IH]; [done|]. cbn [app strspn length]. by rewrite Hc, IH. Qed.

Lemma drop_trailing_blanks b : Forall (fun c => is_in WHITESPACE c = true) b -> drop_trailing b = [].
Proof. induction 1 as [|c b Hc _ IH]; [done|]. cbn [drop_trailing]. by rewrite IH, Hc. Qed.

Lemma strip_value ps s : Forall plain (join 32 ps) -> value_text ps s -> strstrip (join 32 ps) = s /\ Forall plain s.
Proof.
  intros Hp (Ht & a & b & Ha & Hb & E). rewrite E in *. apply Forall_app in Hp as [Hpa Hp]. apply Forall_app in Hp as [Hps Hpb]. split; [|done].
  assert (forall l, Forall plain l -> Forall blank l -> Forall (fun c => is_in WHITESPACE c = true) l) as Hws.
  { intros l H1 H2. induction H1 as [|c l Hc _ IH]; [constructor|]. apply Forall_cons in H2 as [Hcb H2]. constructor; [by apply blank_ws|by apply IH]. }
  unfold strstrip. rewrite strspn_blanks by (by apply Hws). rewrite drop_app_add.
  destruct s as [|c s]; [|destruct Ht as [Hc Hl]].
  - cbn [app]. rewrite <- (app_nil_r b), strspn_blanks by (by apply Hws). cbn [strspn]. by rewrite drop_app_add.
  - apply Forall_cons in Hps as [Hpc Hps]. cbn [app]. rewrite strspn_none by (rewrite <- blank_ws in Hc by done; by apply not_true_is_false).
    cbn [drop]. destruct (@exists_last _ (c :: s)) as (t & x & Ex); [done|]. rewrite Ex in Hl. rewrite last_last in Hl.
    change (c :: s ++ b) with ((c :: s) ++ b). rewrite Ex, <- app_assoc. cbn [app].
    assert (plain x) as Hpx. { assert (Forall plain (c :: s)) as H by (by constructor). rewrite Ex in H. apply Forall_app in H as [_ H]. by inversion H. }
    rewrite drop_trailing_app by (rewrite <- blank_ws in Hl by done; by apply not_true_is_false).
    by rewrite drop_trailing_blanks by (by apply Hws).
Qed.

Lemma join_plain ps : Forall (Forall plain) ps -> Forall plain (join 32 ps).
Proof.
  induction 1 as [|w ws Hw _ IH]; [constructor|]. destruct ws as [|w2 ws]; [done|].
  change (join 32 (w :: w2 :: ws)) with (w ++ 32 :: join 32 (w2 :: ws)). apply Forall_app_2; [done|]. by constructor.
Qed.

(** An assignment, made to settings that are the same at every place. *)
Lemma next_assignment_means name key ps c c0 c' : Forall (Forall plain) ps -> line_means (Some name) c (LSet key ps) (Some name) c' ->
  (forall f, c0 f = c f) -> forall f, next_assignment (Some name) key (strstrip (join 32 ps)) c0 f = c' f.
Proof.
  intros Hps H Hc g. unfold next_assignment. inversion H as [| | | |? ? f k ? s ? v ? Hf Hv Hd Hset Hother|? ? ? ? Hsec Hno|]; subst.
  - rewrite (lookup_setting f name key k) by done. destruct (strip_value ps s (join_plain ps Hps) Hv) as [-> Hs].
    assert (bytes_ok s /\ Forall (fun c => c <> 0) s) as [Hb Hz].
    { split; (eapply Forall_impl; [exact Hs|]); intros x (? & _); unfold is_u8; lia. }
    pose proof (parse_value_denotes k s (c f) (c' f) Hb Hz Hd) as Hr. rewrite Hc.
    destruct (parse_value (parser_of k) s (c f)) as [v|]; cbn [default] in Hr.
    + unfold store. destruct (decide (g = f)) as [->|Hne]; [done|]. by rewrite Hc, Hother.
    + rewrite Hc. destruct (decide (g = f)) as [->|Hne]; [done|]. by rewrite Hother.
  - by rewrite lookup_unknown.
Qed.

Lemma config_line_ok x n rest line st name c name' c' : line_ok x -> (length (render x ++ rest) <= n)%nat ->
  line_means name c x name' c' -> st_section st = name -> (forall f, st_config st f = c f) ->
  exists n' line' st', (length rest <= n')%nat /\ config_lines n (render x ++ rest) None line st = config_lines n' rest None line' st'
    /\ st_section st' = name' /\ forall f, st_config st' f = c' f.
Proof.
  intros Hx Hn Hm Hname Hc. destruct x as [|mark text|section|key ps]; cbn [render] in *.
  - inversion Hm; subst. destruct n as [|n]; [simpl in Hn; lia|]. exists n, (u32 (line + 1)), st. split; [simpl in Hn; lia|]. split; [|done].
    by rewrite (physical_line n [] rest _ _ _ ltac:(constructor) ltac:(unfold LINE_MAX; simpl; lia)).
  - inversion Hm; subst. destruct Hx as (Hmark & Htext & Hlen). assert (plain mark) as Hpm.
    { apply elem_of_cons in Hmark as [->|Hmark]; [done|]. by apply list_elem_of_singleton in Hmark as ->. }
    assert (Forall plain (mark :: text)) as Hp by (by constructor).
    destruct n as [|n]; [simpl in Hn; lia|]. exists n, (u32 (line + 1)), st. split; [cbn [app length] in Hn; rewrite !length_app in Hn; simpl in Hn; lia|].
    split; [|done]. change ((mark :: text ++ [10]) ++ rest) with (mark :: ((text ++ [10]) ++ rest)). rewrite <- app_assoc.
    change (mark :: text ++ [10] ++ rest) with ((mark :: text) ++ 10 :: rest).
    rewrite physical_line by (by apply plain_text || (cbn [length]; lia)). cbn [default app]. rewrite not_escaped, parse_comment by done. done.
  - destruct Hx as (Hs & Hlen). assert (Forall plain (91 :: section ++ [93])) as Hp.
    { constructor; [done|]. apply Forall_app_2; [by apply letter_plain|by repeat constructor]. }
    destruct n as [|n]; [simpl in Hn; lia|]. destruct (parse_section (u32 (line + 1)) section st Hs) as (st' & Hrun & Ec & Es).
    exists n, (u32 (line + 1)), st'. split; [cbn [app length] in Hn; rewrite !length_app in Hn; simpl in Hn; lia|]. split.
    + replace ((91 :: section ++ [93; 10]) ++ rest) with ((91 :: section ++ [93]) ++ 10 :: rest) by (cbn [app]; by rewrite <- !app_assoc).
      rewrite physical_line by (by apply plain_text || (cbn [length]; rewrite length_app; simpl; lia)). cbn [default app].
      rewrite not_escaped by done. by rewrite Hrun.
    + rewrite Ec, Es. inversion Hm as [| |? ? ? Hin|? ? ? Hin| | |]; subst; rewrite is_section_sections in Hin; [by rewrite decide_True|by rewrite decide_False].
  - destruct Hx as (Hk & Hne & Hps & Hpl & Hlen).
    assert (Forall plain (key ++ [61])) as Hp by (apply Forall_app_2; [by apply letter_plain|by repeat constructor]).
    replace ((key ++ 61 :: render_pieces ps) ++ rest) with ((key ++ [61]) ++ render_pieces ps ++ rest) in * by (by rewrite <- !app_assoc).
    destruct (continued_lines ps Hps n (key ++ [61]) None rest line st Hpl Hp) as (n' & Hn' & E); [constructor| |done|].
    { eapply Forall_impl; [exact Hlen|]. intros p Hpn. cbv beta in Hpn. rewrite length_app. simpl length. lia. }
    rewrite E. cbn [default app]. rewrite <- app_assoc. cbn [app].
    destruct (parse_assignment (u32 (line + 1)) key (join 32 ps) st Hk Hne) as (st' & Hrun & Es & Ec). rewrite Hrun.
    exists n', (u32 (line + 1)), st'. split; [done|]. split; [done|]. rewrite Es, Ec, Hname.
    destruct name as [name|]; [|inversion Hm; subst; done].
    assert (name' = Some name) as -> by (by inversion Hm). split; [done|]. by apply (next_assignment_means name key ps c).
Qed.

Lemma config_lines_ok name c ls c' : means name c ls c' -> Forall line_ok ls -> forall n line st, (length (flat_map render ls) <= n)%nat ->
  st_section st = name -> (forall f, st_config st f = c f) ->
  exists st', config_lines n (flat_map render ls) None line st = (Ok tt, st') /\ forall f, st_config st' f = c' f.
Proof.
  induction 1 as [name c|name c x name1 c1 ls c2 Hx _ IH]; intros Hls n line st Hn Hname Hc; cbn [flat_map] in *.
  - exists st. split; [by destruct n|done].
  - apply Forall_cons in Hls as [Hok Hls].
    destruct (config_line_ok x n (flat_map render ls) line st name c name1 c1 Hok Hn Hx Hname Hc) as (n' & line' & st' & Hn' & -> & Hname' & Hc').
    by apply IH.
Qed.


(** * A file *)

#[export] Instance plain_dec c : Decision (plain c).
Proof. unfold plain. apply _. Defined.

#[export] Instance letter_dec c : Decision (letter c).
Proof. unfold letter. apply _. Defined.

#[export] Instance blank_dec c : Decision (blank c).
Proof. unfold blank. apply _. Defined.

#[export] Instance line_ok_dec x : Decision (line_ok x).
Proof. destruct x; cbn [line_ok]; apply _. Defined.

#[export] Instance sizes_from_dec k ts : Decision (sizes_from k ts).
Proof. revert k. induction ts; intros k; cbn [sizes_from]; apply _. Defined.

#[export] Instance trimmed_dec s : Decision (trimmed s).
Proof. destruct s; cbn [trimmed]; apply _. Defined.

Definition sample_lines : list cline :=
  [LComment 35 (txt " storage"); LSection (txt "Journal"); LSet (txt "Compress") [txt " no "]; LBlank;
   LSet (txt "User") [txt "system"; txt "journal"]; LSet (txt "MaxRetentionSec") [txt "2weeks 3d"];
   LSet (txt "TTYPath") [txt "//dev/tty12/"]; LSet (txt "MaxLevelStore") [txt "err"]; LSet (txt "Colour") [txt "red"];
   LSection (txt "System"); LSet (txt "MaxUse") [txt "1G512M"]; LSet (txt "KeepFree") [txt "lots"];
   LSection (txt "Other"); LSet (txt "Group") [txt "none"]].

Definition sample_config : Config := fun x =>
  match x with compress => VBool true | runuser | rungroup | tty_path => VString None | level_store => VNumber 7 | _ => VNumber 0 end.

(** The settings after the file. *)
Definition sample_result : Config :=
  store system_max_use (VNumber (1536 * 1024 * 1024)) (store level_store (VNumber 3) (store tty_path (VString (Some (txt "/dev/tty12")))
    (store retention (VNumber (17 * 24 * 3600 * 1000000)) (store runuser (VString (Some (txt "system journal")))
      (store compress (VBool false) sample_config))))).

Lemma stored f v c : store f v c f = v /\ forall g, g <> f -> store f v c g = c g.
Proof. unfold store. split; [by rewrite decide_True|]. intros g Hg. by rewrite decide_False. Qed.

(** An assignment whose text [s] has [a] and [b] around it. *)
Lemma means_stored name key f k ps s a b c v ls c' : setting f = (name, key, k) -> bool_decide (trimmed s /\ Forall blank a /\ Forall blank b /\ join 32 ps = a ++ s ++ b) = true ->
  denotes k s (c f) v -> means (Some name) (store f v c) ls c' -> means (Some name) c (LSet key ps :: ls) c'.
Proof.
  intros Hf Hs%bool_decide_eq_true Hd Hm. destruct Hs as (Ht & Ha & Hb & Hj). eapply means_line; [|exact Hm].
  destruct (stored f v c) as [H1 H2]. eapply means_set; [exact Hf| |exact Hd|exact H1|exact H2]. split; [done|]. by exists a, b.
Qed.

Lemma ascii_text s : forallb (fun c => (0 <? c) && (c <? 128)) s = true -> utf8_text s.
Proof.
  intros H. assert (bytes_ok s /\ Forall (fun c => c <> 0) s) as [Hb Hz].
  { split; apply Forall_forall; intros c Hc; rewrite forallb_forall in H; apply list_elem_of_In, H in Hc; unfold is_u8; bprop; lia. }
  exists s. assert (Forall (fun c => 0 < c < 128) s) as Hr.
  { apply Forall_forall. intros c Hc. rewrite forallb_forall in H. apply list_elem_of_In, H in Hc. bprop. lia. }
  clear H Hb Hz. split.
  - eapply Forall_impl; [exact Hr|]. intros c Hc. cbv beta in Hc. split; [|lia]. split; [lia|]. left. lia.
  - induction Hr as [|c s Hc _ IH]; [done|]. cbn [flat_map]. rewrite <- IH. unfold utf8_encode. by rewrite (proj2 (Z.ltb_lt _ _)) by lia.
Qed.

#[local] Ltac decided := apply (bool_decide_unpack _); vm_compute; exact I.

Lemma sample_means : means None sample_config sample_lines sample_result.
Proof.
  unfold sample_lines. eapply means_line; [apply means_comment|]. eapply means_line; [apply means_section; by exists compress|].
  eapply (means_stored _ _ compress KBool _ (txt "no") [32] [32]); [reflexivity|vm_compute; reflexivity|apply (den_bool false); decided|].
  eapply means_line; [apply means_blank|].
  eapply (means_stored _ _ runuser KText _ (txt "system journal") [] []); [reflexivity|vm_compute; reflexivity|by apply den_text, ascii_text|].
  eapply (means_stored _ _ retention KTime _ (join 32 (map time_text [(2, (txt "weeks", 7 * 24 * 3600 * 1000000)); (3, (txt "d", 24 * 3600 * 1000000))])) [] []);
    [reflexivity|vm_compute; reflexivity|apply den_time; [done| |done]|].
  { repeat constructor; try (cbn; lia); decided. }
  eapply (means_stored _ _ tty_path KPath _ (flat_map component [(1%nat, txt "dev"); (0%nat, txt "tty12")] ++ replicate 1 47) [] []);
    [reflexivity|vm_compute; reflexivity|apply den_path; [by left| |by apply ascii_text]|].
  { repeat constructor; try done; decided. }
  eapply (means_stored _ _ level_store KLevel _ (txt "err") [] []); [reflexivity|vm_compute; reflexivity|by apply (den_level 3)|].
  eapply means_line; [apply means_unknown; [by exists compress|by intros []]|].
  eapply means_line; [apply means_section; by exists system_max_use|].
  eapply (means_stored _ _ system_max_use KSize _ (flat_map size_text [(1, 3%nat); (512, 4%nat)]) [] []);
    [reflexivity|vm_compute; reflexivity|apply den_size; [done|decided|done]|].
  eapply means_line.
  { eapply (means_set _ _ system_keep_free KSize _ (txt "lots")); [reflexivity| |apply den_no_number; [repeat constructor|by right; vm_compute]|reflexivity|reflexivity].
    split; [decided|]. exists [], []. split; [constructor|]. split; [constructor|reflexivity]. }
  eapply means_line; [apply means_other; by intros [[] ?]|]. eapply means_line; [apply means_outside|]. apply means_end.
Qed.

