(* ===== verification/Mmap.v ===== *)
(** src/lib/mmap/mmap-cache.c: the windows through which the journal files are seen.

    A window, a context and a file descriptor are the structs of the file; the pointers of
    the intrusive lists are the lists themselves, kept by their owner: the windows of a
    descriptor, the unused windows, the contexts of a window.  The two hash maps are
    association lists in the order of insertion, which is what Hashmap.v implements. *)
From S2P Require Import Prelude JournalDef.

(** * Association lists *)

Fixpoint get {A} (k : Z) (l : list (Z * A)) : option A :=
  match l with
  | [] => None
  | (x, v) :: l => if x =? k then Some v else get k l
  end.

Fixpoint put {A} (k : Z) (v : A) (l : list (Z * A)) : list (Z * A) :=
  match l with
  | [] => [(k, v)]
  | (x, y) :: l => if x =? k then (k, v) :: l else (x, y) :: put k v l
  end.

Definition del {A} (k : Z) (l : list (Z * A)) : list (Z * A) := filter (fun e => e.1 <> k) l.

(** An element of an intrusive list is unlinked. *)
Definition without (w : nat) (l : list nat) : list nat := filter (fun x => x <> w) l.

(** What the back pointer of an element says. *)
Fixpoint previous (w : nat) (l : list nat) : option nat :=
  match l with
  | a :: ((b :: _) as l) => if decide (b = w) then Some a else previous w l
  | _ => None
  end.

(** * The cache *)

Record Window := mkWindow {
  keep_always : bool;
  in_unused : bool;
  w_prot : Z;
  w_ptr : Z;
  w_offset : Z;
  w_size : Z;
  w_fd : option Z;
  w_contexts : list Z }.

(** What the kernel has mapped at an address. *)
Record Mapping := mkMapping { m_fd : Z; m_prot : Z; m_offset : Z; m_size : Z }.

(** [windows] are the blocks of the allocator that hold windows, [maps] the mappings of
    the kernel by their first address, [n_mmap] counts the requests made to it. *)
Record MMapCache := mkMMapCache {
  n_ref : Z;
  n_windows : Z;
  n_hit : Z;
  n_missed : Z;
  fds : list (Z * list nat);
  contexts : list (Z * option nat);
  unused : list nat;
  last_unused : option nat;
  windows : gmap nat Window;
  maps : gmap Z Mapping;
  n_mmap : nat }.

Definition WINDOWS_MIN : Z := 64.
Definition WINDOW_SIZE : Z := 8 * 1024 * 1024.

Definition mmap_cache_new (kernel : gmap Z Mapping) : MMapCache :=
  mkMMapCache 1 0 0 0 [] [] [] None ∅ kernel 0.

Definition set_refs (n : Z) (m : MMapCache) : MMapCache :=
  mkMMapCache n (n_windows m) (n_hit m) (n_missed m) (fds m) (contexts m) (unused m) (last_unused m) (windows m) (maps m) (n_mmap m).
Definition set_n_windows (n : Z) (m : MMapCache) : MMapCache :=
  mkMMapCache (n_ref m) n (n_hit m) (n_missed m) (fds m) (contexts m) (unused m) (last_unused m) (windows m) (maps m) (n_mmap m).
Definition set_counts (hit missed : Z) (m : MMapCache) : MMapCache :=
  mkMMapCache (n_ref m) (n_windows m) hit missed (fds m) (contexts m) (unused m) (last_unused m) (windows m) (maps m) (n_mmap m).
Definition set_fds (l : list (Z * list nat)) (m : MMapCache) : MMapCache :=
  mkMMapCache (n_ref m) (n_windows m) (n_hit m) (n_missed m) l (contexts m) (unused m) (last_unused m) (windows m) (maps m) (n_mmap m).
Definition set_contexts (l : list (Z * option nat)) (m : MMapCache) : MMapCache :=
  mkMMapCache (n_ref m) (n_windows m) (n_hit m) (n_missed m) (fds m) l (unused m) (last_unused m) (windows m) (maps m) (n_mmap m).
Definition set_unused (l : list nat) (last : option nat) (m : MMapCache) : MMapCache :=
  mkMMapCache (n_ref m) (n_windows m) (n_hit m) (n_missed m) (fds m) (contexts m) l last (windows m) (maps m) (n_mmap m).
Definition set_windows (h : gmap nat Window) (m : MMapCache) : MMapCache :=
  mkMMapCache (n_ref m) (n_windows m) (n_hit m) (n_missed m) (fds m) (contexts m) (unused m) (last_unused m) h (maps m) (n_mmap m).
Definition set_maps (k : gmap Z Mapping) (n : nat) (m : MMapCache) : MMapCache :=
  mkMMapCache (n_ref m) (n_windows m) (n_hit m) (n_missed m) (fds m) (contexts m) (unused m) (last_unused m) (windows m) k n.

Definition set_window (w : nat) (x : Window) (m : MMapCache) : MMapCache := set_windows (<[w:=x]> (windows m)) m.

(** ** Fields of a window *)

Definition with_contexts (l : list Z) (x : Window) : Window :=
  mkWindow (keep_always x) (in_unused x) (w_prot x) (w_ptr x) (w_offset x) (w_size x) (w_fd x) l.
Definition with_unused (b : bool) (x : Window) : Window :=
  mkWindow (keep_always x) b (w_prot x) (w_ptr x) (w_offset x) (w_size x) (w_fd x) (w_contexts x).
Definition with_keep (b : bool) (x : Window) : Window :=
  mkWindow (keep_always x || b) (in_unused x) (w_prot x) (w_ptr x) (w_offset x) (w_size x) (w_fd x) (w_contexts x).
Definition zero_window : Window := mkWindow false false 0 0 0 0 None [].

(** * Operations; [None]: an assertion fails or a dangling pointer is followed. *)

(** munmap of a whole mapping. *)
Definition munmap (ptr size : Z) (m : MMapCache) : option MMapCache :=
  k ← maps m !! ptr;
  if decide (m_size k = size) then Some (set_maps (delete ptr (maps m)) (n_mmap m) m) else None.

(** The contexts that look through a window lose it. *)
Fixpoint forget_window (w : nat) (cs : list Z) (l : list (Z * option nat)) : option (list (Z * option nat)) :=
  match cs with
  | [] => Some l
  | c :: cs =>
      v ← get c l;
      if decide (v = Some w) then forget_window w cs (put c None l) else None
  end.

Definition window_unlink (w : nat) (m : MMapCache) : option MMapCache :=
  x ← windows m !! w;
  m ← (if w_ptr x =? 0 then Some m else munmap (w_ptr x) (w_size x) m);
  m ← (match w_fd x with
       | Some fd => ws ← get fd (fds m); Some (set_fds (put fd (without w ws) (fds m)) m)
       | None => Some m
       end);
  let m :=
    if in_unused x
    then set_unused (without w (unused m))
           (if decide (last_unused m = Some w) then previous w (unused m) else last_unused m) m
    else m in
  l ← forget_window w (w_contexts x) (contexts m);
  Some (set_contexts l m).

Definition window_free (w : nat) (m : MMapCache) : option MMapCache :=
  m ← window_unlink w m;
  Some (set_windows (delete w (windows m)) (set_n_windows (u32 (n_windows m - 1)) m)).

Definition window_matches (x : Window) (fd prot offset size : Z) : bool :=
  bool_decide (w_fd x = Some fd) && (prot =? w_prot x) && (w_offset x <=? offset)
  && (u64 (offset + size) <=? u64 (w_offset x + w_size x)).

(** A block for a window: a new one, or that of the last unused window. *)
Definition window_add (m : MMapCache) : option (nat * MMapCache) :=
  match last_unused m with
  | Some w =>
      if n_windows m <=? WINDOWS_MIN
      then let w := fresh (dom (windows m)) in
           Some (w, set_window w zero_window (set_n_windows (u32 (n_windows m + 1)) m))
      else m ← window_unlink w m; Some (w, set_window w zero_window m)
  | None =>
      let w := fresh (dom (windows m)) in
      Some (w, set_window w zero_window (set_n_windows (u32 (n_windows m + 1)) m))
  end.

Definition context_detach_window (c : Z) (m : MMapCache) : option MMapCache :=
  v ← get c (contexts m);
  match v with
  | None => Some m
  | Some w =>
      x ← windows m !! w;
      let m := set_contexts (put c None (contexts m)) m in
      let l := filter (fun y => y <> c) (w_contexts x) in
      let x := with_contexts l x in
      if bool_decide (l = []) && negb (keep_always x)
      then Some (set_window w (with_unused true x)
                   (set_unused (w :: unused m) (match last_unused m with Some y => Some y | None => Some w end) m))
      else Some (set_window w x m)
  end.

(** When the window is the last unused one, its back pointer, which has just been cleared,
    becomes [last_unused]. *)
Definition context_attach_window (c : Z) (w : nat) (m : MMapCache) : option MMapCache :=
  v ← get c (contexts m);
  if decide (v = Some w) then Some m else
  m ← context_detach_window c m;
  x ← windows m !! w;
  let m :=
    if in_unused x
    then set_unused (without w (unused m)) (if decide (last_unused m = Some w) then None else last_unused m) m
    else m in
  Some (set_window w (with_contexts (c :: w_contexts x) (with_unused false x)) (set_contexts (put c (Some w) (contexts m)) m)).

Definition context_add (id : Z) (m : MMapCache) : MMapCache :=
  match get id (contexts m) with
  | Some _ => m
  | None => set_contexts (put id None (contexts m)) m
  end.

Definition context_free (c : Z) (m : MMapCache) : option MMapCache :=
  m ← context_detach_window c m;
  _ ← get c (contexts m);
  Some (set_contexts (del c (contexts m)) m).

(** The windows of a descriptor are freed from the front. *)
Fixpoint free_windows (n : nat) (fd : Z) (m : MMapCache) : option MMapCache :=
  match get fd (fds m) with
  | None => None
  | Some [] => Some m
  | Some (w :: _) =>
      match n with
      | O => None
      | S n => m ← window_free w m; free_windows n fd m
      end
  end.

Definition fd_free (fd : Z) (m : MMapCache) : option MMapCache :=
  ws ← get fd (fds m);
  m ← free_windows (length ws) fd m;
  Some (set_fds (del fd (fds m)) m).

Definition fd_add (fd : Z) (m : MMapCache) : MMapCache :=
  match get fd (fds m) with
  | Some _ => m
  | None => set_fds (put fd [] (fds m)) m
  end.

Fixpoint free_contexts (n : nat) (m : MMapCache) : option MMapCache :=
  match contexts m with
  | [] => Some m
  | (c, _) :: _ => match n with O => None | S n => m ← context_free c m; free_contexts n m end
  end.

Fixpoint free_fds (n : nat) (m : MMapCache) : option MMapCache :=
  match fds m with
  | [] => Some m
  | (fd, _) :: _ => match n with O => None | S n => m ← fd_free fd m; free_fds n m end
  end.

Fixpoint free_unused (n : nat) (m : MMapCache) : option MMapCache :=
  match unused m with
  | [] => Some m
  | w :: _ => match n with O => None | S n => m ← window_free w m; free_unused n m end
  end.

Definition mmap_cache_free (m : MMapCache) : option MMapCache :=
  m ← free_contexts (length (contexts m)) m;
  m ← free_fds (length (fds m)) m;
  free_unused (length (unused m)) m.

Definition mmap_cache_ref (m : MMapCache) : option MMapCache :=
  if 0 <? n_ref m then Some (set_refs (n_ref m + 1) m) else None.

Definition mmap_cache_unref (m : MMapCache) : option MMapCache :=
  if negb (0 <? n_ref m) then None else
  let m := set_refs (n_ref m - 1) m in
  if n_ref m =? 0 then mmap_cache_free m else Some m.

Definition make_room (m : MMapCache) : option (bool * MMapCache) :=
  match last_unused m with
  | None => Some (false, m)
  | Some w => m ← window_free w m; Some (true, m)
  end.

(** The address of a range that the window of the context shows; [keep] is added to the
    window's keep_always. *)
Definition try_context (fd prot context : Z) (keep : bool) (offset size : Z) (m : MMapCache) : option (option Z * MMapCache) :=
  match get context (contexts m) with
  | None | Some None => Some (None, m)
  | Some (Some w) =>
      x ← windows m !! w;
      if window_matches x fd prot offset size
      then Some (Some (w_ptr x + (offset - w_offset x)), set_window w (with_keep keep x) m)
      else m ← context_detach_window context m; Some (None, m)
  end.

Fixpoint find_window (h : gmap nat Window) (ws : list nat) (fd prot offset size : Z) : option (option nat) :=
  match ws with
  | [] => Some None
  | w :: ws =>
      x ← h !! w;
      if window_matches x fd prot offset size then Some (Some w) else find_window h ws fd prot offset size
  end.

Definition find_mmap (fd prot context : Z) (keep : bool) (offset size : Z) (m : MMapCache) : option (option Z * MMapCache) :=
  match get fd (fds m) with
  | None => Some (None, m)
  | Some ws =>
      r ← find_window (windows m) ws fd prot offset size;
      match r with
      | None => Some (None, m)
      | Some w =>
          m ← context_attach_window context w (context_add context m);
          x ← windows m !! w;
          Some (Some (w_ptr x + (offset - w_offset x)), set_window w (with_keep keep x) m)
      end
  end.

Section kernel.
(** The page size, and the answer of mmap: an address or an errno. *)
Context (page_size : Z) (mmap : nat -> gmap Z Mapping -> Mapping -> Z + Z).

Definition PAGE_ALIGN (l : Z) : Z := align_to l page_size.

(** The range of the file that a new window shows; [st]: the size of the file. *)
Definition window_range (offset size : Z) (st : option Z) : (Z * Z) + Z :=
  let woffset := Z.land offset (u64_max - (page_size - 1)) in
  let wsize := PAGE_ALIGN (u64 (size + (offset - woffset))) in
  let '(woffset, wsize) :=
    if wsize <? WINDOW_SIZE
    then let delta := PAGE_ALIGN ((WINDOW_SIZE - wsize) / 2) in
         (if offset <? delta then 0 else u64 (woffset - delta), WINDOW_SIZE)
    else (woffset, wsize) in
  match st with
  | Some st_size =>
      if u64 st_size <=? woffset then inr EADDRNOTAVAIL
      else inl (woffset, if u64 st_size <? u64 (woffset + wsize) then PAGE_ALIGN (u64 (st_size - woffset)) else wsize)
  | None => inl (woffset, wsize)
  end.

(** mmap, with windows given up as long as there is no memory. *)
Fixpoint map_window (n : nat) (rq : Mapping) (m : MMapCache) : option ((Z + Z) * MMapCache) :=
  let r := mmap (n_mmap m) (maps m) rq in
  let m := set_maps (match r with inl d => <[d:=rq]> (maps m) | inr _ => maps m end) (S (n_mmap m)) m in
  match r with
  | inl d => Some (inl d, m)
  | inr er =>
      if negb (er =? ENOMEM) then Some (inr er, m) else
      '(room, m) ← make_room m;
      if (room : bool) then match n with O => None | S n => map_window n rq m end
      else Some (inr ENOMEM, m)
  end.

Definition add_mmap (fd prot context : Z) (keep : bool) (offset size : Z) (st : option Z) (m : MMapCache) : option ((Z + Z) * MMapCache) :=
  match window_range offset size st with
  | inr er => Some (inr er, m)
  | inl (woffset, wsize) =>
      '(r, m) ← map_window (length (unused m)) (mkMapping fd prot woffset wsize) m;
      match r with
      | inr er => Some (inr er, m)
      | inl d =>
          let m := fd_add fd (context_add context m) in
          '(w, m) ← window_add m;
          ws ← get fd (fds m);
          let m := set_fds (put fd (w :: ws) (fds m)) (set_window w (mkWindow keep false prot d woffset wsize (Some fd) []) m) in
          m ← context_detach_window context m;
          x ← windows m !! w;
          Some (inl (d + (offset - woffset)),
                set_window w (with_contexts (context :: w_contexts x) x) (set_contexts (put context (Some w) (contexts m)) m))
      end
  end.

Definition mmap_cache_get (fd prot context : Z) (keep : bool) (offset size : Z) (st : option Z) (m : MMapCache) : option ((Z + Z) * MMapCache) :=
  if negb ((0 <? n_ref m) && (0 <=? fd) && (0 <? size)) then None else
  '(r, m) ← try_context fd prot context keep offset size m;
  match r with
  | Some a => Some (inl a, set_counts (u32 (n_hit m + 1)) (n_missed m) m)
  | None =>
      '(r, m) ← find_mmap fd prot context keep offset size m;
      match r with
      | Some a => Some (inl a, set_counts (u32 (n_hit m + 1)) (n_missed m) m)
      | None => add_mmap fd prot context keep offset size st (set_counts (n_hit m) (u32 (n_missed m + 1)) m)
      end
  end.

End kernel.

Definition mmap_cache_close_fd (fd : Z) (m : MMapCache) : option MMapCache :=
  match get fd (fds m) with
  | None => Some m
  | Some _ => fd_free fd m
  end.
