(* ===== verification/MmapInv.v ===== *)
(** The invariant of the mmap cache, and what its operations do to the windows that
    somebody was given a pointer into. *)
From S2P Require Import Prelude JournalDef Mmap.

(** * Association lists *)

Lemma get_put {A} k (v : A) l j : get j (put k v l) = if decide (j = k) then Some v else get j l.
Proof.
  induction l as [|[x y] l IH]; cbn [put get].
  - destruct (Z.eqb_spec k j), (decide (j = k)); congruence.
  - destruct (Z.eqb_spec x k) as [->|Hx]; cbn [get].
    + destruct (Z.eqb_spec k j), (decide (j = k)); congruence.
    + destruct (Z.eqb_spec x j) as [->|]; [by rewrite decide_False|exact IH].
Qed.

Lemma get_del {A} k (l : list (Z * A)) j : get j (del k l) = if decide (j = k) then None else get j l.
Proof.
  unfold del. induction l as [|[x y] l IH]; [by destruct (decide _)|]. rewrite filter_cons. cbn [get fst].
  destruct (decide (x <> k)) as [Hx|Hx]; cbn [get]; rewrite IH; destruct (Z.eqb_spec x j) as [->|], (decide (j = k)); naive_solver.
Qed.

Lemma elem_of_without w l y : y ∈ without w l <-> y ∈ l /\ y <> w.
Proof. unfold without. rewrite list_elem_of_filter. tauto. Qed.

Lemma NoDup_without w l : NoDup l -> NoDup (without w l).
Proof. apply NoDup_filter. Qed.

Lemma without_absent w l : w ∉ l -> without w l = l.
Proof.
  intros H. unfold without. induction l as [|y l IH]; [done|]. apply not_elem_of_cons in H as [? H].
  rewrite filter_cons_True by done. by rewrite IH.
Qed.

Lemma previous_in w l y : NoDup l -> previous w l = Some y -> y ∈ without w l.
Proof.
  induction l as [|a l IH]; [done|]. intros Hl H. apply NoDup_cons in Hl as [Ha Hl]. destruct l as [|b l]; [done|].
  cbn [previous] in H. apply elem_of_without. destruct (decide (b = w)) as [->|Hb].
  - injection H as <-. split; [by left|]. intros ->. apply Ha. by left.
  - apply IH in H; [|done]. apply elem_of_without in H as [H ?]. split; [by right|done].
Qed.

Lemma without_length w l : w ∈ l -> (length (without w l) < length l)%nat.
Proof. intros H. apply (length_filter_lt _ _ w); [done|tauto]. Qed.

Lemma put_keys {A} k (v y : A) l : get k l = Some y -> map fst (put k v l) = map fst l.
Proof.
  induction l as [|[x z] l IH]; [done|]. cbn [get put]. destruct (Z.eqb_spec x k) as [->|]; [done|]. intros H.
  cbn [map]. by rewrite IH.
Qed.

(** * Pointers *)

(** What a caller was given: the address of a range of a file, for a context or, with
    keep_always, for as long as the file is open. *)
Record Grant := mkGrant {
  g_fd : Z; g_prot : Z; g_context : Z; g_keep : bool; g_offset : Z; g_size : Z; g_addr : Z }.

Definition covers (x : Window) (g : Grant) : Prop :=
  w_fd x = Some (g_fd g) /\ w_prot x = g_prot g /\ w_offset x <= g_offset g
  /\ g_offset g + g_size g <= w_offset x + w_size x /\ g_addr g = w_ptr x + (g_offset g - w_offset x).

Definition granted (m : MMapCache) (g : Grant) : Prop :=
  exists w x, windows m !! w = Some x /\ covers x g
    /\ if g_keep g then keep_always x = true else get (g_context g) (contexts m) = Some (Some w).

(** Everything that was granted still is, but for what was given to the context [c] for
    the time being and to the file [closed]. *)
Definition steady (c closed : option Z) (m m' : MMapCache) : Prop :=
  forall g, granted m g -> (c = Some (g_context g) -> g_keep g = true) -> closed <> Some (g_fd g) -> granted m' g.

Lemma steady_refl c closed m : steady c closed m m.
Proof. by intros g. Qed.

Lemma steady_trans c closed m1 m2 m3 : steady c closed m1 m2 -> steady c closed m2 m3 -> steady c closed m1 m3.
Proof. intros H1 H2 g Hg Hc Hd. by apply H2; [apply H1| |]. Qed.

Lemma steady_weaken c closed m1 m2 : steady None None m1 m2 -> steady c closed m1 m2.
Proof. intros H g Hg _ _. by apply H. Qed.

(** * The invariant *)

Definition shows (x : Window) (k : Mapping) : Prop :=
  w_fd x = Some (m_fd k) /\ w_prot x = m_prot k /\ w_offset x = m_offset k /\ w_size x = m_size k.

Definition bounded (x : Window) : Prop := 0 <= w_offset x /\ 0 < w_size x /\ w_offset x + w_size x < 2 ^ 64.

(** [others]: the mappings of the process that are not those of the cache; [lost]: a
    mapping that no window has yet; [busy]: a window that is being attached. *)
Record valid (others : gmap Z Mapping) (lost : option Z) (busy : option nat) (m : MMapCache) : Prop := {
  v_fd : forall fd ws, get fd (fds m) = Some ws ->
    NoDup ws /\ forall w, w ∈ ws -> exists x, windows m !! w = Some x /\ w_fd x = Some fd;
  v_window : forall w x, windows m !! w = Some x ->
    bounded x /\ exists fd ws, w_fd x = Some fd /\ get fd (fds m) = Some ws /\ w ∈ ws;
  v_context : forall c w, get c (contexts m) = Some (Some w) -> exists x, windows m !! w = Some x /\ c ∈ w_contexts x;
  v_contexts : forall w x, windows m !! w = Some x ->
    NoDup (w_contexts x) /\ forall c, c ∈ w_contexts x -> get c (contexts m) = Some (Some w);
  v_unused : NoDup (unused m);
  v_in_unused : forall w, w ∈ unused m <-> exists x, windows m !! w = Some x /\ in_unused x = true;
  v_state : forall w x, windows m !! w = Some x ->
    in_unused x = if decide (busy = Some w) then false else bool_decide (w_contexts x = []) && negb (keep_always x);
  v_last : forall w, last_unused m = Some w -> w ∈ unused m;
  v_count : n_windows m = u32 (Z.of_nat (size (windows m)));
  v_map : forall w x, windows m !! w = Some x ->
    w_ptr x <> 0 /\ others !! w_ptr x = None /\ lost <> Some (w_ptr x) /\ exists k, maps m !! w_ptr x = Some k /\ shows x k;
  v_ptr : forall w1 w2 x1 x2, windows m !! w1 = Some x1 -> windows m !! w2 = Some x2 -> w_ptr x1 = w_ptr x2 -> w1 = w2;
  v_others : others ⊆ maps m;
  v_maps : forall a, is_Some (maps m !! a) -> is_Some (others !! a) \/ lost = Some a \/ exists w x, windows m !! w = Some x /\ w_ptr x = a }.

Lemma new_valid others : valid others None None (mmap_cache_new others).
Proof.
  constructor; cbn; intros; try done; try (rewrite lookup_empty in *; done).
  - by constructor.
  - split; [by intros ?%elem_of_nil|]. by intros (x & ? & _).
  - by left.
Qed.

(** * One window changes *)

(** The same part of the same file. *)
Definition same_map (x y : Window) : Prop :=
  w_ptr y = w_ptr x /\ w_fd y = w_fd x /\ w_prot y = w_prot x /\ w_offset y = w_offset x /\ w_size y = w_size x.

Section cache.
Context (others : gmap Z Mapping).

Lemma touch_valid lost busy busy' m m' w x x' :
  valid others lost busy m -> windows m !! w = Some x -> same_map x x' ->
  fds m' = fds m -> n_windows m' = n_windows m -> maps m' = maps m -> windows m' = <[w:=x']> (windows m) ->
  NoDup (w_contexts x') -> (forall c, c ∈ w_contexts x' <-> get c (contexts m') = Some (Some w)) ->
  (forall c w', w' <> w -> get c (contexts m') = Some (Some w') <-> get c (contexts m) = Some (Some w')) ->
  NoDup (unused m') -> (forall w', w' ∈ unused m' <-> if decide (w' = w) then in_unused x' = true else w' ∈ unused m) ->
  (forall w', last_unused m' = Some w' -> w' ∈ unused m') ->
  (forall w', w' <> w -> busy' = Some w' <-> busy = Some w') ->
  in_unused x' = (if decide (busy' = Some w) then false else bool_decide (w_contexts x' = []) && negb (keep_always x')) ->
  valid others lost busy' m'.
Proof.
  intros V Hx (Hp & Hf & Hpr & Ho & Hs) Ef En Em Ew Hnd Hc Hc' Hun Hin Hl Hb Hst.
  assert (forall w' y, windows m' !! w' = Some y -> if decide (w' = w) then y = x' else windows m !! w' = Some y) as Hget.
  { intros w' y. rewrite Ew. destruct (decide (w' = w)) as [->|]; [rewrite lookup_insert_eq; congruence|by rewrite lookup_insert_ne]. }
  assert (forall w' y, windows m !! w' = Some y -> exists y', windows m' !! w' = Some y' /\ w_fd y' = w_fd y /\ w_ptr y' = w_ptr y) as Hold.
  { intros w' y Hy. rewrite Ew. destruct (decide (w' = w)) as [->|]; [exists x'; rewrite lookup_insert_eq; replace y with x by congruence; done|].
    exists y. by rewrite lookup_insert_ne. }
  assert (forall w' y, windows m' !! w' = Some y -> exists y', windows m !! w' = Some y' /\ same_map y' y) as Hback.
  { intros w' y Hy. apply Hget in Hy. destruct (decide (w' = w)) as [->|]; [subst y; exists x; done|exists y; done]. }
  constructor.
  - intros fd ws. rewrite Ef. intros H. destruct (v_fd _ _ _ _ V fd ws H) as [H1 H2]. split; [done|].
    intros w' (y & Hy & Hfd)%H2. destruct (Hold _ _ Hy) as (y' & ? & ? & _). exists y'. by rewrite <- Hfd.
  - intros w' y (y' & Hy & Hq)%Hback. destruct Hq as (_ & E & _ & Eo & Es). rewrite Ef, E. unfold bounded. rewrite Eo, Es. by apply (v_window _ _ _ _ V w').
  - intros c w' H. destruct (decide (w' = w)) as [->|Hne].
    + exists x'. rewrite Ew, lookup_insert_eq. split; [done|]. by apply Hc.
    + rewrite Hc' in H by done. destruct (v_context _ _ _ _ V c w' H) as (y & Hy & Hin'). exists y. by rewrite Ew, lookup_insert_ne.
  - intros w' y H. apply Hget in H. destruct (decide (w' = w)) as [->|Hne].
    + subst y. split; [done|]. intros c. apply Hc.
    + destruct (v_contexts _ _ _ _ V w' y H) as [H1 H2]. split; [done|]. intros c H3. apply Hc'; [done|]. by apply H2.
  - done.
  - intros w'. rewrite Hin, Ew. destruct (decide (w' = w)) as [->|Hne].
    + rewrite lookup_insert_eq. split; [by exists x'|]. by intros (? & [= <-] & ?).
    + rewrite lookup_insert_ne by done. apply (v_in_unused _ _ _ _ V).
  - intros w' y H. apply Hget in H. destruct (decide (w' = w)) as [->|Hne]; [by subst y|].
    rewrite (v_state _ _ _ _ V w' y H). specialize (Hb w' Hne). destruct (decide (busy = Some w')), (decide (busy' = Some w')); tauto.
  - done.
  - rewrite En, Ew, (v_count _ _ _ _ V), map_size_insert, Hx. done.
  - intros w' y (y' & Hy & E1 & E2 & E3 & E4 & E5)%Hback. rewrite Em, E1. unfold shows. rewrite E2, E3, E4, E5. by apply (v_map _ _ _ _ V w').
  - intros w1 w2 x1 x2 (y1 & H1 & E1 & _)%Hback (y2 & H2 & E2 & _)%Hback. rewrite E1, E2. by apply (v_ptr _ _ _ _ V).
  - rewrite Em. apply (v_others _ _ _ _ V).
  - intros a. rewrite Em. intros [?|[?|(w' & y & Hy & <-)]]%(v_maps _ _ _ _ V); [by left|by right; left|right; right].
    destruct (Hold _ _ Hy) as (y' & ? & _ & ?). by exists w', y'.
Qed.

(** It is the pointers into it that have to stay. *)
Lemma touch_steady c closed m m' w x x' :
  windows m !! w = Some x -> same_map x x' -> windows m' = <[w:=x']> (windows m) ->
  (keep_always x = true -> keep_always x' = true) ->
  (forall c' w', c <> Some c' -> get c' (contexts m) = Some (Some w') -> get c' (contexts m') = Some (Some w')) ->
  steady c closed m m'.
Proof.
  intros Hx (Hp & Hf & Hpr & Ho & Hs) Ew Hk Hc g (w' & y & Hy & Hcov & Hg) Hgc _.
  assert (if g_keep g then True else get (g_context g) (contexts m') = Some (Some w')) as Hg'.
  { destruct (g_keep g) eqn:Ek; [done|]. apply Hc; [|done]. intros E. by apply Hgc in E. }
  destruct (decide (w' = w)) as [->|Hne].
  - exists w, x'. rewrite Ew, lookup_insert_eq. split; [done|]. replace y with x in * by congruence. split.
    + unfold covers in *. by rewrite Hp, Hf, Hpr, Ho, Hs.
    + destruct (g_keep g); auto.
  - exists w', y. rewrite Ew, lookup_insert_ne by done. split; [done|]. split; [done|]. by destruct (g_keep g).
Qed.

(** A window that is looked through gets the flag keep_always. *)
Lemma with_keep_ok lost m w x c keep :
  valid others lost None m -> windows m !! w = Some x -> get c (contexts m) = Some (Some w) ->
  valid others lost None (set_window w (with_keep keep x) m) /\ steady None None m (set_window w (with_keep keep x) m).
Proof.
  intros V Hx Hc. destruct (v_contexts _ _ _ _ V w x Hx) as [Hnd Hctx].
  destruct (v_context _ _ _ _ V c w Hc) as (x2 & Hx2 & Hin). replace x2 with x in * by congruence.
  pose proof (v_state _ _ _ _ V w x Hx) as Hst. rewrite decide_False in Hst by done.
  assert (bool_decide (w_contexts x = []) = false) as Hne by (apply bool_decide_eq_false; intros E; rewrite E in Hin; by apply not_elem_of_nil in Hin).
  split.
  - apply (touch_valid lost None None m _ w x (with_keep keep x)); try done; cbn.
    + intros c'. split; [apply Hctx|]. intros H. destruct (v_context _ _ _ _ V c' w H) as (x3 & ? & ?). by replace x with x3 by congruence.
    + apply (v_unused _ _ _ _ V).
    + intros w'. destruct (decide (w' = w)) as [->|]; [|done]. rewrite (v_in_unused _ _ _ _ V). split; [|by exists x].
      intros (y & Hy & E). by replace x with y by congruence.
    + apply (v_last _ _ _ _ V).
    + rewrite Hst, Hne. done.
  - apply (touch_steady _ _ _ _ w x (with_keep keep x)); try done. intros Hk. cbn. by rewrite Hk.
Qed.

(** What no detaching changes. *)
Definition frame (m m' : MMapCache) : Prop :=
  n_ref m' = n_ref m /\ fds m' = fds m /\ maps m' = maps m /\ n_mmap m' = n_mmap m
  /\ map fst (contexts m') = map fst (contexts m).

Lemma context_detach_window_ok lost busy m c v :
  valid others lost busy m -> get c (contexts m) = Some v -> (v = None \/ busy <> v) ->
  exists m', context_detach_window c m = Some m' /\ valid others lost busy m' /\ steady (Some c) None m m' /\ frame m m'
    /\ (forall c', get c' (contexts m') = if decide (c' = c) then Some None else get c' (contexts m))
    /\ forall w x, windows m !! w = Some x -> v <> Some w -> windows m' !! w = Some x.
Proof.
  intros V Hc Hb. unfold context_detach_window. rewrite Hc. destruct v as [w|]; cbn [mbind option_bind].
  2:{ exists m. split; [done|]. split; [done|]. split; [apply steady_refl|]. split; [done|]. split; [|done].
      intros c'. by destruct (decide (c' = c)) as [->|]. }
  destruct Hb as [|Hb]; [done|]. destruct (v_context _ _ _ _ V c w Hc) as (x & Hx & Hin). rewrite Hx. cbn [mbind option_bind].
  set (l := filter (fun y => y <> c) (w_contexts x)). destruct (v_contexts _ _ _ _ V w x Hx) as [Hnd Hctx].
  pose proof (v_state _ _ _ _ V w x Hx) as Hst. rewrite decide_False in Hst by done.
  assert (in_unused x = false) as Hiu.
  { rewrite Hst. rewrite (bool_decide_eq_false_2 (_ = [])); [done|]. intros E. rewrite E in Hin. by apply not_elem_of_nil in Hin. }
  assert (w ∉ unused m) as Hnu.
  { intros (y & Hy & E)%(v_in_unused _ _ _ _ V). replace y with x in E by congruence. congruence. }
  set (free := bool_decide (l = []) && negb (keep_always x)). set (y := with_unused free (with_contexts l x)).
  set (un := if free then w :: unused m else unused m).
  set (last := if free then match last_unused m with Some y => Some y | None => Some w end else last_unused m).
  set (m' := set_window w y (set_unused un last (set_contexts (put c None (contexts m)) m))).
  assert ((if free then Some (set_window w (with_unused true (with_contexts l x)) (set_unused (w :: unused m)
       (match last_unused m with Some y => Some y | None => Some w end) (set_contexts (put c None (contexts m)) m)))
     else Some (set_window w (with_contexts l x) (set_contexts (put c None (contexts m)) m))) = Some m') as Hrun.
  { unfold m', un, last, y. destruct free; [done|]. do 3 f_equal. unfold with_unused, with_contexts. cbn. by rewrite Hiu. }
  exists m'. split; [exact Hrun|].
  assert (forall c', get c' (contexts m') = if decide (c' = c) then Some None else get c' (contexts m)) as Hget by (intros c'; apply get_put).
  split.
  { apply (touch_valid lost busy busy m m' w x y); try done.
    - by apply NoDup_filter.
    - intros c'. rewrite Hget. cbn [w_contexts y with_unused with_contexts]. unfold l. rewrite list_elem_of_filter.
      destruct (decide (c' = c)) as [->|Hne]; [by split; [intros [? _]|]|]. split; [intros [_ H]; by apply Hctx|]. intros H. split; [done|].
      destruct (v_context _ _ _ _ V c' w H) as (x' & ? & ?). by replace x with x' by congruence.
    - intros c' w' Hne. rewrite Hget. destruct (decide (c' = c)) as [->|]; [|done]. rewrite Hc. split; congruence.
    - cbn. unfold un. pose proof (v_unused _ _ _ _ V). destruct free; [by constructor|done].
    - intros w'. cbn. unfold un. destruct (decide (w' = w)) as [->|]; destruct free; rewrite ?elem_of_cons; cbn; intuition congruence.
    - intros w'. cbn. unfold last, un. pose proof (v_last _ _ _ _ V w') as Hl. destruct free; [|done].
      destruct (last_unused m) as [z|]; intros [= <-]; [right; by apply Hl|by left].
    - rewrite decide_False by done. done. }
  split.
  { apply (touch_steady _ _ _ _ w x y); try done. intros c' w' Hne H. rewrite Hget. rewrite decide_False by congruence. done. }
  split; [by repeat split; apply (put_keys _ _ (Some w))|]. split; [exact Hget|].
  intros w' x' H Hne. cbn. rewrite lookup_insert_ne; [done|]. intros ->. by apply Hne.
Qed.

(** A context that looks through no window gets one. *)
Lemma hook_ok lost busy m w x c :
  valid others lost busy m -> windows m !! w = Some x -> get c (contexts m) = Some None -> (busy = None \/ busy = Some w) ->
  let un := if in_unused x then without w (unused m) else unused m in
  forall last, (forall w', last = Some w' -> w' ∈ un) ->
  let m' := set_window w (with_contexts (c :: w_contexts x) (with_unused false x))
              (set_contexts (put c (Some w) (contexts m)) (set_unused un last m)) in
  valid others lost None m' /\ steady (Some c) None m m'.
Proof.
  intros V Hx Hc Hb un last Hl m'. destruct (v_contexts _ _ _ _ V w x Hx) as [Hnd Hctx].
  assert (c ∉ w_contexts x) as Hnin by (intros H%Hctx; congruence).
  assert (forall c', get c' (contexts m') = if decide (c' = c) then Some (Some w) else get c' (contexts m)) as Hget by (intros c'; apply get_put).
  assert (w ∉ un) as Hw.
  { unfold un. destruct (in_unused x) eqn:E; [rewrite elem_of_without; tauto|].
    intros (y & Hy & E')%(v_in_unused _ _ _ _ V). replace y with x in E' by congruence. congruence. }
  split.
  - apply (touch_valid lost busy None m m' w x (with_contexts (c :: w_contexts x) (with_unused false x))); try done.
    + by constructor.
    + intros c'. rewrite Hget. cbn. rewrite elem_of_cons. destruct (decide (c' = c)) as [->|Hne]; [intuition|].
      split; [intros [?|H]; [done|by apply Hctx]|]. intros H. right. destruct (v_context _ _ _ _ V c' w H) as (x' & ? & ?).
      by replace x with x' by congruence.
    + intros c' w' Hne. rewrite Hget. destruct (decide (c' = c)) as [->|]; [|done]. rewrite Hc. split; congruence.
    + cbn. unfold un. pose proof (v_unused _ _ _ _ V). destruct (in_unused x); [by apply NoDup_without|done].
    + intros w'. destruct (decide (w' = w)) as [->|Hne]; cbn; [intuition congruence|]. unfold un.
      destruct (in_unused x); [|done]. rewrite elem_of_without. tauto.
    + intros w' Hne. destruct Hb; split; congruence.
  - apply (touch_steady _ _ _ _ w x (with_contexts (c :: w_contexts x) (with_unused false x))); try done.
    intros c' w' Hne H. rewrite Hget. rewrite decide_False by congruence. done.
Qed.

Lemma context_attach_window_ok m c w x v :
  valid others None None m -> windows m !! w = Some x -> get c (contexts m) = Some v ->
  exists m' x', context_attach_window c w m = Some m' /\ valid others None None m' /\ steady (Some c) None m m' /\ n_ref m' = n_ref m
    /\ get c (contexts m') = Some (Some w) /\ windows m' !! w = Some x' /\ same_map x x'.
Proof.
  intros V Hx Hc. unfold context_attach_window. rewrite Hc. cbn [mbind option_bind]. destruct (decide (v = Some w)) as [->|Hv].
  { exists m, x. split; [done|]. split; [done|]. split; [apply steady_refl|]. done. }
  destruct (context_detach_window_ok None None m c v V Hc) as (m1 & -> & V1 & S1 & F1 & Hget & Hwin); [by destruct v; [right|left]|].
  cbn [mbind option_bind]. rewrite (Hwin w x Hx Hv). cbn [mbind option_bind].
  set (un := if in_unused x then without w (unused m1) else unused m1).
  set (last := if in_unused x then if decide (last_unused m1 = Some w) then None else last_unused m1 else last_unused m1).
  replace (if in_unused x then set_unused (without w (unused m1)) (if decide (last_unused m1 = Some w) then None else last_unused m1) m1 else m1)
    with (set_unused un last m1) by (unfold un, last; destruct (in_unused x); [done|by destruct m1]).
  destruct (hook_ok None None m1 w x c V1 (Hwin w x Hx Hv)) with (last := last) as [V2 S2].
  - by rewrite Hget, decide_True.
  - by left.
  - unfold last, un. intros w' E. destruct (in_unused x); [|by apply (v_last _ _ _ _ V1)].
    destruct (decide (last_unused m1 = Some w)); [done|]. apply elem_of_without. split; [by apply (v_last _ _ _ _ V1)|]. congruence.
  - eexists _, _. split; [reflexivity|]. split; [exact V2|]. split; [exact (steady_trans _ _ _ _ _ S1 S2)|].
    split; [apply F1|]. split; [cbn; by rewrite get_put, decide_True|]. split; [apply lookup_insert_eq|done].
Qed.

End cache.
