(* ===== verification/MmapSpec.v ===== *)
(** Windows come and go: what freeing and adding them does to the invariant of the
    mmap cache, mmap_cache_get and mmap_cache_close_fd as a whole, and what the cache
    promises to its users over any sequence of requests. *)
From S2P Require Import Prelude JournalDef ArenaProofs Mmap MmapInv.

Lemma forget_window_ok w cs : NoDup cs -> forall l, (forall c, c ∈ cs -> get c l = Some (Some w)) ->
  exists l', forget_window w cs l = Some l' /\ map fst l' = map fst l
    /\ forall c, get c l' = if decide (c ∈ cs) then Some None else get c l.
Proof.
  induction 1 as [|c cs Hc _ IH]; intros l Hl.
  - exists l. split; [done|]. split; [done|]. intros c. by rewrite decide_False by apply not_elem_of_nil.
  - pose proof (Hl c (list_elem_of_here _ _)) as E. cbn [forget_window]. rewrite E. cbn [mbind option_bind]. rewrite decide_True by done.
    destruct (IH (put c None l)) as (l' & Hrun & Hk & Hget).
    { intros c' H. rewrite get_put, decide_False by (by intros ->). apply Hl. by right. }
    exists l'. split; [done|]. split; [by rewrite Hk, (put_keys _ _ _ _ E)|]. intros c'. rewrite Hget, get_put.
    destruct (decide (c' = c)) as [->|Hne].
    + rewrite (decide_True (P := c ∈ c :: cs)) by (by left). by destruct (decide (c ∈ cs)).
    + destruct (decide (c' ∈ cs)) as [H|H]; [by rewrite decide_True by (by right)|]. rewrite decide_False; [done|].
      by intros [?|?]%elem_of_cons.
Qed.

Section cache.
Context (others : gmap Z Mapping).

(** What is left when a window is unlinked. *)
Definition unlinked (w : nat) (x : Window) (m m1 : MMapCache) : Prop :=
  n_ref m1 = n_ref m /\ n_windows m1 = n_windows m /\ n_mmap m1 = n_mmap m /\ windows m1 = windows m
  /\ unused m1 = without w (unused m) /\ (forall y, last_unused m1 = Some y -> y ∈ unused m1)
  /\ maps m1 = delete (w_ptr x) (maps m)
  /\ map fst (fds m1) = map fst (fds m)
  /\ (forall fd, get fd (fds m1) = if decide (w_fd x = Some fd) then without w <$> get fd (fds m) else get fd (fds m))
  /\ map fst (contexts m1) = map fst (contexts m)
  /\ forall c, get c (contexts m1) = if decide (get c (contexts m) = Some (Some w)) then Some None else get c (contexts m).

Lemma window_unlink_runs lost m w x : valid others lost None m -> windows m !! w = Some x ->
  exists m1, window_unlink w m = Some m1 /\ unlinked w x m m1.
Proof.
  intros V Hx. unfold window_unlink. rewrite Hx. cbn [mbind option_bind].
  destruct (v_map _ _ _ _ V w x Hx) as (Hp & _ & _ & k & Hk & _ & _ & _ & Hs).
  rewrite (proj2 (Z.eqb_neq _ 0)) by done. unfold munmap. rewrite Hk. cbn [mbind option_bind]. rewrite decide_True by done. cbn [mbind option_bind].
  destruct (v_window _ _ _ _ V w x Hx) as (_ & fd & ws & Hfd & Hws & Hin). rewrite Hfd. cbn. rewrite Hws. cbn [mbind option_bind].
  destruct (v_contexts _ _ _ _ V w x Hx) as [Hnd Hctx].
  destruct (forget_window_ok w (w_contexts x) Hnd (contexts m) Hctx) as (l & Hl & Hkeys & Hget).
  assert (forall c, get c l = if decide (get c (contexts m) = Some (Some w)) then Some None else get c (contexts m)) as Hget'.
  { intros c. rewrite Hget. destruct (decide (c ∈ w_contexts x)) as [H|H]; [by rewrite decide_True by auto|].
    rewrite decide_False; [done|]. intros (y & Hy & H')%(v_context _ _ _ _ V). replace y with x in H' by congruence. done. }
  assert (forall fd', get fd' (put fd (without w ws) (fds m)) = if decide (Some fd = Some fd') then without w <$> get fd' (fds m) else get fd' (fds m)) as Hfds.
  { intros fd'. rewrite get_put. destruct (decide (fd' = fd)) as [->|], (decide (Some fd = Some _)); try congruence. by rewrite Hws. }
  pose proof (put_keys fd (without w ws) ws (fds m) Hws) as Hfk.
  destruct (in_unused x) eqn:Eu; cbn; rewrite Hl; cbn [mbind option_bind]; (eexists; split; [reflexivity|]); repeat split; rewrite ?Hfd; try done; cbn.
  - destruct (decide (last_unused m = Some w)).
    + intros y. by apply previous_in, (v_unused _ _ _ _ V).
    + intros y Hy. apply elem_of_without. split; [by apply (v_last _ _ _ _ V)|congruence].
  - symmetry. apply without_absent. intros (y & Hy & E)%(v_in_unused _ _ _ _ V). congruence.
  - apply (v_last _ _ _ _ V).
Qed.

(** The block of the window is given back. *)
Definition discard (w : nat) (m : MMapCache) : MMapCache :=
  set_windows (delete w (windows m)) (set_n_windows (u32 (n_windows m - 1)) m).

Lemma u32_pred n : 0 < n -> u32 (u32 n - 1) = u32 (n - 1).
Proof. intros. unfold u32. mlia. Qed.

Lemma unlinked_valid lost m m1 w x : valid others lost None m -> windows m !! w = Some x -> unlinked w x m m1 ->
  valid others lost None (discard w m1).
Proof.
  intros V Hx (_ & En & _ & Ew & Eu & Hl & Em & _ & Hfds & _ & Hctx).
  assert (forall w' y, windows (discard w m1) !! w' = Some y <-> w' <> w /\ windows m !! w' = Some y) as Hwin.
  { intros w' y. cbn. rewrite Ew, lookup_delete_Some. split; intros [? ?]; by split. }
  constructor.
  - cbn [fds discard set_windows set_n_windows]. intros fd ws. rewrite Hfds. destruct (decide (w_fd x = Some fd)) as [E|E].
    + destruct (get fd (fds m)) as [ws'|] eqn:Eg; [|done]. intros [= <-]. destruct (v_fd _ _ _ _ V fd ws' Eg) as [H1 H2].
      split; [by apply NoDup_without|]. intros w' [(y & Hy & ?)%H2 ?]%elem_of_without. exists y. by rewrite Hwin.
    + intros Eg. destruct (v_fd _ _ _ _ V fd ws Eg) as [H1 H2]. split; [done|]. intros w' Hw'. destruct (H2 w' Hw') as (y & Hy & ?).
      exists y. rewrite Hwin. split; [|done]. split; [|done]. intros ->. congruence.
  - intros w' y [Hne Hy]%Hwin. destruct (v_window _ _ _ _ V w' y Hy) as (Hb & fd & ws & E & Hg & Hin). split; [done|].
    cbn. destruct (decide (w_fd x = Some fd)) as [E'|E'].
    + exists fd, (without w ws). rewrite Hfds, decide_True, Hg by done. split; [done|]. split; [done|]. by apply elem_of_without.
    + exists fd, ws. by rewrite Hfds, decide_False.
  - cbn. intros c w'. rewrite Hctx. destruct (decide _) as [|Hne]; [done|]. intros H. destruct (v_context _ _ _ _ V c w' H) as (y & Hy & ?).
    exists y. split; [|done]. apply (proj2 (Hwin w' y)). split; [|done]. intros ->. done.
  - intros w' y [Hne Hy]%Hwin. destruct (v_contexts _ _ _ _ V w' y Hy) as [H1 H2]. split; [done|]. intros c Hc%H2. cbn.
    rewrite Hctx, decide_False; [done|]. rewrite Hc. congruence.
  - cbn. rewrite Eu. apply NoDup_without, (v_unused _ _ _ _ V).
  - intros w'. cbn [unused discard set_windows set_n_windows]. rewrite Eu, elem_of_without, (v_in_unused _ _ _ _ V). setoid_rewrite Hwin.
    split; [intros [(y & ? & ?) ?]; by exists y|]. intros (y & [? ?] & ?). split; [by exists y|done].
  - intros w' y [Hne Hy]%Hwin. apply (v_state _ _ _ _ V w' y Hy).
  - exact Hl.
  - cbn. rewrite Ew, En, (v_count _ _ _ _ V). assert (0 < Z.of_nat (size (windows m))).
    { destruct (size (windows m)) eqn:E; [|lia]. apply map_size_empty_inv in E. by rewrite E, lookup_empty in Hx. }
    rewrite u32_pred, map_size_delete, Hx by done. f_equal. lia.
  - intros w' y [Hne Hy]%Hwin. destruct (v_map _ _ _ _ V w' y Hy) as (H1 & H2 & H3 & k & H4 & H5). split; [done|]. split; [done|]. split; [done|].
    exists k. cbn. rewrite Em, lookup_delete_ne; [done|]. intros E. apply Hne. by apply (v_ptr _ _ _ _ V w' w y x).
  - intros w1 w2 x1 x2 [_ H1]%Hwin [_ H2]%Hwin. by apply (v_ptr _ _ _ _ V).
  - cbn. rewrite Em. apply map_subseteq_spec. intros a k Ha. destruct (v_map _ _ _ _ V w x Hx) as (_ & H & _).
    rewrite lookup_delete_ne by congruence. by apply (lookup_weaken others _ _ _ Ha), (v_others _ _ _ _ V).
  - cbn [maps discard set_windows set_n_windows]. intros a. rewrite Em. intros [k [Ha Hk]%lookup_delete_Some].
    destruct (v_maps _ _ _ _ V a) as [?|[?|(w' & y & Hy & <-)]]; [by eexists|by left|by right; left|right; right].
    exists w', y. rewrite Hwin. split; [|done]. split; [|done]. intros ->. congruence.
Qed.

Lemma unlinked_steady lost c closed m m1 w x : valid others lost None m -> windows m !! w = Some x -> unlinked w x m m1 ->
  in_unused x = true \/ closed = w_fd x -> steady c closed m (discard w m1).
Proof.
  intros V Hx (_ & _ & _ & Ew & _ & _ & _ & _ & _ & _ & Hctx) Hw g (w' & y & Hy & Hcov & Hg) _ Hcl.
  assert (w' <> w) as Hne.
  { intros ->. replace y with x in * by congruence. destruct Hw as [Hu| ->]; [|by destruct Hcov as [? _]; congruence].
    rewrite (v_state _ _ _ _ V w x Hx) in Hu. cbn in Hu. apply andb_true_iff in Hu as [E1%bool_decide_eq_true E2].
    destruct (g_keep g); [by rewrite Hg in E2|]. destruct (v_context _ _ _ _ V _ _ Hg) as (z & Hz & Hin).
    replace z with x in Hin by congruence. rewrite E1 in Hin. by apply not_elem_of_nil in Hin. }
  exists w', y. cbn. rewrite Ew, lookup_delete_ne by done. split; [done|]. split; [done|]. destruct (g_keep g); [done|].
  rewrite Hctx, decide_False; [done|]. rewrite Hg. congruence.
Qed.

Lemma window_free_ok lost m w x : valid others lost None m -> windows m !! w = Some x ->
  exists m1, window_free w m = Some (discard w m1) /\ unlinked w x m m1 /\ valid others lost None (discard w m1)
    /\ forall c closed, in_unused x = true \/ closed = w_fd x -> steady c closed m (discard w m1).
Proof.
  intros V Hx. destruct (window_unlink_runs lost m w x V Hx) as (m1 & Hrun & Hu). exists m1. unfold window_free. rewrite Hrun.
  cbn [mbind option_bind]. split; [done|]. split; [done|]. split; [by apply (unlinked_valid lost m m1 w x)|]. intros c closed. by apply (unlinked_steady lost).
Qed.

End cache.

(** * The range of a new window *)

Lemma align_pages l k : 0 <= k <= 23 -> 0 <= l <= 2 ^ 63 -> align_to l (2 ^ k) = (l + 2 ^ k - 1) / 2 ^ k * 2 ^ k.
Proof.
  intros Hk Hl. assert (1 <= 2 ^ k <= 2 ^ 23) as Hp by (split; [pose proof (Z.pow_pos_nonneg 2 k)|apply Z.pow_le_mono_r]; lia).
  unfold align_to. rewrite u64_small by (unfold is_u64; lia). apply land_mask; [unfold is_u64; lia|lia].
Qed.

(** The range starts at a page and holds what was asked for, and it ends with the last
    page of the file. *)
Lemma window_range_ok k offset size st : 0 <= k <= 23 -> 0 <= offset -> 0 < size -> offset + size < 2 ^ 62 ->
  (forall s, st = Some s -> offset + size <= s < 2 ^ 62) ->
  exists wo ws, window_range (2 ^ k) offset size st = inl (wo, ws)
    /\ 0 <= wo <= offset /\ wo mod 2 ^ k = 0 /\ offset + size <= wo + ws /\ wo + ws < 2 ^ 64
    /\ forall s, st = Some s -> wo + ws < s + 2 ^ k.
Proof.
  intros Hk Ho Hs Hb Hst. assert (1 <= 2 ^ k <= 2 ^ 23) as Hp by (split; [pose proof (Z.pow_pos_nonneg 2 k)|apply Z.pow_le_mono_r]; lia).
  assert (exists c, WINDOW_SIZE = c * 2 ^ k) as [c Hc].
  { exists (2 ^ (23 - k)). rewrite <- Z.pow_add_r by lia. by replace (23 - k + k) with 23 by lia. }
  assert (forall x y, x <= y -> x * 2 ^ k <= y * 2 ^ k) as Hmul by (intros; apply Z.mul_le_mono_nonneg_r; lia).
  assert (forall x y, x * 2 ^ k < y * 2 ^ k -> x < y) as Hdiv by (intros x y; apply Z.mul_lt_mono_pos_r; lia).
  unfold window_range, PAGE_ALIGN. pose proof (fun l => align_pages l k Hk) as Hap. set (P := 2 ^ k) in *.
  assert (Z.land offset (u64_max - (P - 1)) = offset / P * P) as -> by (apply land_mask; [unfold is_u64; lia|lia]).
  set (a := offset / P). pose proof (Z.div_mod offset P ltac:(lia)) as Hdm. pose proof (Z.mod_pos_bound offset P ltac:(lia)) as Hmb. fold a in Hdm.
  assert (0 <= a) as Ha by (apply Z.div_pos; lia).
  rewrite u64_small by (unfold is_u64; lia). rewrite Hap by lia.
  set (b := (size + (offset - a * P) + P - 1) / P).
  pose proof (Z.div_mod (size + (offset - a * P) + P - 1) P ltac:(lia)) as Hdb. pose proof (Z.mod_pos_bound (size + (offset - a * P) + P - 1) P ltac:(lia)). fold b in Hdb.
  assert (0 < b) by nia. assert (b * P < size + (offset - a * P) + P) by lia.
  set (r := if b * P <? WINDOW_SIZE then _ else _).
  assert (exists wo ws, r = (wo, ws) /\ 0 <= wo <= offset /\ wo mod P = 0 /\ offset + size <= wo + ws /\ wo + ws < 2 ^ 63) as (wo & ws & -> & Hwo & Hal & Hend & Hmax).
  { unfold r. destruct (Z.ltb_spec (b * P) WINDOW_SIZE) as [Hlt|Hge].
    2:{ exists (a * P), (b * P). split; [done|]. split; [lia|]. split; [apply Z.mod_mul; lia|]. lia. }
    assert (b < c) as Hbc by (apply Hdiv; lia). assert (0 <= (WINDOW_SIZE - b * P) / 2 <= WINDOW_SIZE - b * P) as HD by mlia.
    assert (WINDOW_SIZE <= 2 ^ 23) as HW by done. rewrite Hap by lia.
    set (e := ((WINDOW_SIZE - b * P) / 2 + P - 1) / P).
    pose proof (Z.div_mod ((WINDOW_SIZE - b * P) / 2 + P - 1) P ltac:(lia)) as Hde.
    pose proof (Z.mod_pos_bound ((WINDOW_SIZE - b * P) / 2 + P - 1) P ltac:(lia)). fold e in Hde.
    assert (0 <= e <= c - b) as He.
    { split; [apply Z.div_pos; lia|]. apply Z.lt_succ_r, Hdiv. rewrite Z.mul_succ_l, Z.mul_sub_distr_r. lia. }
    pose proof (Hmul e (c - b) ltac:(lia)) as He'. rewrite Z.mul_sub_distr_r in He'. destruct (Z.ltb_spec offset (e * P)) as [Hd|Hd].
    - exists 0, WINDOW_SIZE. split; [done|]. split; [lia|]. split; [apply Z.mod_0_l; lia|]. assert (a < e) as Hae by (apply Hdiv; lia). pose proof (Hmul (a + b) c ltac:(lia)) as Hac. rewrite Z.mul_add_distr_r in Hac. lia.
    - assert (e <= a) as Hae by (apply Z.lt_succ_r, Hdiv; rewrite Z.mul_succ_l; lia). pose proof (Hmul e a Hae). rewrite u64_small by (unfold is_u64; lia).
      exists (a * P - e * P), WINDOW_SIZE. split; [done|]. split; [lia|].
      split; [rewrite <- Z.mul_sub_distr_r; apply Z.mod_mul; lia|]. lia. }
  destruct st as [s|].
  2:{ exists wo, ws. split; [done|]. split; [done|]. split; [done|]. split; [done|]. split; [lia|]. by intros. }
  specialize (Hst s eq_refl). rewrite u64_small by (unfold is_u64; lia). rewrite (proj2 (Z.leb_gt s wo)) by lia.
  rewrite u64_small by (unfold is_u64; lia). destruct (Z.ltb_spec s (wo + ws)) as [Hsh|Hsh].
  - rewrite u64_small by (unfold is_u64; lia). pose proof (align_to_spec (s - wo) k ltac:(lia) ltac:(lia) ltac:(fold P; lia)) as Hsp. fold P in Hsp.
    eexists _, _. split; [done|]. split; [done|]. split; [done|]. split; [lia|]. split; [lia|]. intros ? [= <-]. lia.
  - exists wo, ws. split; [done|]. split; [done|]. split; [done|]. split; [done|]. split; [lia|]. intros ? [= <-]. lia.
Qed.

(** * Operations *)

Section ops.
Context (others : gmap Z Mapping).

Lemma context_add_ok lost busy m c : valid others lost busy m ->
  valid others lost busy (context_add c m) /\ steady None None m (context_add c m) /\ n_ref (context_add c m) = n_ref m
  /\ windows (context_add c m) = windows m /\ maps (context_add c m) = maps m /\ unused (context_add c m) = unused m
  /\ exists v, get c (contexts (context_add c m)) = Some v.
Proof.
  intros V. unfold context_add. destruct (get c (contexts m)) as [v|] eqn:E.
  { split; [done|]. split; [apply steady_refl|]. split_and!; [done..|by exists v]. }
  assert (forall c' w, get c' (put c None (contexts m)) = Some (Some w) <-> get c' (contexts m) = Some (Some w)) as Hget.
  { intros c' w. rewrite get_put. destruct (decide (c' = c)) as [->|]; [|done]. rewrite E. done. }
  split; [|split; [|split_and!; [done..|exists None; cbn; by rewrite get_put, decide_True]]].
  - destruct V. constructor; cbn; try done; [intros c' w H%Hget; auto|]. intros w x Hx. destruct (v_contexts w x Hx) as [H1 H2].
    split; [done|]. intros c' Hc'%H2. by apply Hget.
  - intros g (w & x & Hx & Hcov & Hg) _ _. exists w, x. split; [done|]. split; [done|]. destruct (g_keep g); [done|]. by apply Hget.
Qed.

Lemma fd_add_ok lost busy m fd : valid others lost busy m ->
  valid others lost busy (fd_add fd m) /\ steady None None m (fd_add fd m) /\ n_ref (fd_add fd m) = n_ref m
  /\ windows (fd_add fd m) = windows m /\ maps (fd_add fd m) = maps m /\ contexts (fd_add fd m) = contexts m
  /\ exists ws, get fd (fds (fd_add fd m)) = Some ws.
Proof.
  intros V. unfold fd_add. destruct (get fd (fds m)) as [v|] eqn:E.
  { split; [done|]. split; [apply steady_refl|]. split_and!; [done..|by exists v]. }
  split; [|split; [|split_and!; [done..|exists []; cbn; by rewrite get_put, decide_True]]].
  - destruct V. constructor; cbn; try done.
    + intros fd' ws. rewrite get_put. destruct (decide (fd' = fd)) as [->|]; [|apply v_fd]. intros [= <-]. split; [constructor|].
      intros w H. by apply not_elem_of_nil in H.
    + intros w x Hx. destruct (v_window w x Hx) as (Hb & fd' & ws & H1 & H2 & H3). split; [done|]. exists fd', ws.
      rewrite get_put, decide_False by congruence. done.
  - intros g (w & x & Hx & Hcov & Hg) _ _. by exists w, x.
Qed.

Lemma counts_ok lost busy m h k : valid others lost busy m ->
  valid others lost busy (set_counts h k m) /\ steady None None m (set_counts h k m).
Proof. intros V. split; [by destruct V; constructor|]. intros g (w & x & Hg) _ _. by exists w, x. Qed.

(** ** Room and mappings *)

Lemma unused_window m w : valid others None None m -> w ∈ unused m -> exists x, windows m !! w = Some x /\ in_unused x = true.
Proof. intros V H. by apply (v_in_unused _ _ _ _ V). Qed.

Lemma make_room_ok m : valid others None None m ->
  exists room m', make_room m = Some (room, m') /\ valid others None None m' /\ steady None None m m' /\ n_ref m' = n_ref m
    /\ if room : bool then (length (unused m') < length (unused m))%nat else True.
Proof.
  intros V. unfold make_room. destruct (last_unused m) as [w|] eqn:El.
  2:{ exists false, m. split; [done|]. split; [done|]. split; [apply steady_refl|]. done. }
  pose proof (v_last _ _ _ _ V w El) as Hin. destruct (unused_window m w V Hin) as (x & Hx & Hu).
  destruct (window_free_ok others None m w x V Hx) as (m1 & -> & Hul & V1 & S1). exists true, (discard w m1). split; [done|].
  split; [done|]. split; [apply S1; by left|]. destruct Hul as (E1 & _ & _ & _ & E2 & _). split; [done|].
  cbn. rewrite E2. by apply without_length.
Qed.

Context (P : Z) (mmap : nat -> gmap Z Mapping -> Mapping -> Z + Z).

(** mmap gives addresses at which nothing is mapped yet. *)
Context (mmap_law : forall n maps rq d, mmap n maps rq = inl d -> d <> 0 /\ maps !! d = None).

Lemma map_ok m d rq n : valid others None None m -> maps m !! d = None ->
  valid others (Some d) None (set_maps (<[d:=rq]> (maps m)) n m) /\ steady None None m (set_maps (<[d:=rq]> (maps m)) n m).
Proof.
  intros V Hd. split; [|intros g (w & x & Hg) _ _; by exists w, x]. destruct V. constructor; cbn; try done.
  - intros w x Hx. destruct (v_map w x Hx) as (H1 & H2 & _ & k & H3 & H4). assert (d <> w_ptr x) by (intros ->; congruence).
    split; [done|]. split; [done|]. split; [congruence|]. exists k. by rewrite lookup_insert_ne.
  - etransitivity; [exact v_others|]. by apply insert_subseteq.
  - intros a [k [[-> _]|[? Ha]]%lookup_insert_Some]; [by right; left|]. destruct (v_maps a) as [?|[?|?]]; [by exists k|by left|done|by right; right].
Qed.

Lemma map_window_eq n rq m :
  map_window mmap n rq m =
  match mmap (n_mmap m) (maps m) rq with
  | inl d => Some (inl d, set_maps (<[d:=rq]> (maps m)) (S (n_mmap m)) m)
  | inr er =>
      let m := set_maps (maps m) (S (n_mmap m)) m in
      if negb (er =? ENOMEM) then Some (inr er, m) else
      '(room, m) ← make_room m;
      if (room : bool) then match n with O => None | S n => map_window mmap n rq m end else Some (inr ENOMEM, m)
  end.
Proof. by destruct n; cbn [map_window]; destruct (mmap _ _ rq). Qed.

Lemma map_window_ok rq : forall n m, valid others None None m -> (length (unused m) <= n)%nat ->
  exists r m', map_window mmap n rq m = Some (r, m') /\ steady None None m m' /\ n_ref m' = n_ref m
    /\ match r with
       | inl d => valid others (Some d) None m' /\ maps m' !! d = Some rq /\ d <> 0 /\ others !! d = None
       | inr er => valid others None None m'
       end.
Proof.
  induction n as [n IH] using lt_wf_ind; intros m V Hn. rewrite map_window_eq. cbv zeta.
  destruct (mmap (n_mmap m) (maps m) rq) as [d|er] eqn:Em.
  - destruct (mmap_law _ _ _ _ Em) as [Hd Hfree]. destruct (map_ok m d rq (S (n_mmap m)) V Hfree) as [V1 S1].
    eexists (inl d), _. split; [reflexivity|]. split; [done|]. split; [done|]. split; [done|]. split; [apply lookup_insert_eq|].
    split; [done|]. apply (lookup_weaken_None _ (maps m)); [done|apply (v_others _ _ _ _ V)].
  - set (m1 := set_maps (maps m) (S (n_mmap m)) m). assert (valid others None None m1) as V1 by (destruct V; by constructor).
    assert (steady None None m m1) as S1 by (intros g (w & x & Hg) _ _; by exists w, x).
    destruct (negb (er =? ENOMEM)); [by exists (inr er), m1|]. destruct (make_room_ok m1 V1) as (room & m2 & -> & V2 & S2 & E2 & Hlen).
    cbn [mbind option_bind]. pose proof (steady_trans _ _ _ _ _ S1 S2) as S3. destruct room; [|by exists (inr ENOMEM), m2].
    change (unused m1) with (unused m) in Hlen. destruct n as [|n]; [lia|].
    destruct (IH n ltac:(lia) m2 V2 ltac:(lia)) as (r & m3 & -> & S4 & E3 & H). exists r, m3. split; [done|].
    split; [by apply (steady_trans _ _ _ _ _ S3)|]. split; [by rewrite E3|done].
Qed.

(** ** New windows *)

(** What a block for a window is got from. *)
Lemma window_add_ok lost m : valid others lost None m ->
  exists w m1, window_add m = Some (w, m1) /\ windows m1 !! w = Some zero_window /\ valid others lost None (discard w m1)
    /\ steady None None m (discard w m1) /\ n_ref m1 = n_ref m
    /\ n_windows m1 = u32 (Z.of_nat (size (delete w (windows m1))) + 1)
    /\ (forall d k, lost = Some d -> maps m !! d = Some k -> maps m1 !! d = Some k)
    /\ (forall c v, get c (contexts m) = Some v -> exists v', get c (contexts m1) = Some v')
    /\ (forall fd v, get fd (fds m) = Some v -> exists v', get fd (fds m1) = Some v').
Proof.
  intros V.
  assert (forall w m1, windows m !! w = None -> m1 = set_window w zero_window (set_n_windows (u32 (n_windows m + 1)) m) ->
    windows m1 !! w = Some zero_window /\ discard w m1 = m /\ n_windows m1 = u32 (Z.of_nat (size (delete w (windows m1))) + 1)) as Hnew.
  { intros w m1 Hw ->. split; [apply lookup_insert_eq|]. pose proof (v_count _ _ _ _ V) as Hcount.
    unfold discard. cbn [windows n_windows set_window set_windows set_n_windows]. rewrite delete_insert_id by done.
    rewrite Hcount. split; [|unfold u32; mlia].
    replace (u32 (u32 (u32 (Z.of_nat (size (windows m))) + 1) - 1)) with (n_windows m) by (rewrite Hcount; unfold u32; mlia). by destruct m. }
  unfold window_add. destruct (last_unused m) as [w|] eqn:El; [destruct (n_windows m <=? WINDOWS_MIN)|].
  1,3: destruct (Hnew (fresh (dom (windows m))) _ (proj1 (not_elem_of_dom _ _) (is_fresh _)) eq_refl) as (H1 & H2 & H3);
    eexists _, _; (split; [reflexivity|]); rewrite H2; split_and!; try done; [apply steady_refl|intros c v H; by exists v..].
  pose proof (v_last _ _ _ _ V w El) as Hin. destruct (proj1 (v_in_unused _ _ _ _ V w) Hin) as (x & Hx & Hu).
  destruct (window_unlink_runs others lost m w x V Hx) as (m1 & -> & Hul). cbn [mbind option_bind].
  pose proof (unlinked_valid others lost m m1 w x V Hx Hul) as V1.
  pose proof (unlinked_steady others lost None None m m1 w x V Hx Hul (or_introl Hu)) as S1.
  assert (windows (set_window w zero_window m1) = <[w:=zero_window]> (windows m1)) as Ew by done.
  assert (discard w (set_window w zero_window m1) = discard w m1) as Ed.
  { unfold discard. cbn. by rewrite delete_insert_eq. }
  destruct Hul as (E1 & E2 & _ & E3 & _ & _ & E4 & _ & Hfds & _ & Hctx).
  exists w, (set_window w zero_window m1). split; [done|]. rewrite Ew, Ed. split; [apply lookup_insert_eq|]. split; [done|]. split; [done|]. split; [done|].
  split.
  { cbn. rewrite delete_insert_eq, E2, E3, (v_count _ _ _ _ V), map_size_delete, Hx. f_equal.
    assert (size (windows m) <> 0%nat) by (intros E%map_size_empty_inv; by rewrite E, lookup_empty in Hx). cbn. lia. }
  split.
  { intros d k Hd Hk. cbn. rewrite E4, lookup_delete_ne; [done|]. destruct (v_map _ _ _ _ V w x Hx) as (_ & _ & Hne & _). congruence. }
  split.
  - intros c v H. cbn. rewrite Hctx. destruct (decide _); [by exists None|by exists v].
  - intros fd v H. cbn. rewrite Hfds, H. destruct (decide _); eauto.
Qed.

(** The block becomes a window onto the mapping that was made for it. *)
Lemma insert_ok m d w x k fd ws :
  valid others (Some d) None (discard w m) -> windows m !! w = Some zero_window ->
  n_windows m = u32 (Z.of_nat (size (delete w (windows m))) + 1) ->
  maps m !! d = Some k -> d <> 0 -> others !! d = None -> shows x k -> w_ptr x = d -> bounded x ->
  w_contexts x = [] -> in_unused x = false -> w_fd x = Some fd -> get fd (fds m) = Some ws ->
  let m' := set_fds (put fd (w :: ws) (fds m)) (set_window w x m) in
  valid others None (Some w) m' /\ steady None None (discard w m) m'.
Proof.
  intros V Hz Hn Hk Hd Ho Hsh Hp Hb Hc Hu Hf Hws m'.
  assert (forall w' y, windows (discard w m) !! w' = Some y <-> w' <> w /\ windows m !! w' = Some y) as Hwin.
  { intros w' y. cbn. rewrite lookup_delete_Some. split; intros [? ?]; by split. }
  assert (forall w' y, windows m' !! w' = Some y -> w' = w /\ y = x \/ windows (discard w m) !! w' = Some y) as Hget.
  { intros w' y. cbn. rewrite lookup_insert_Some, lookup_delete_Some. intuition. }
  assert (forall w' y, windows (discard w m) !! w' = Some y -> windows m' !! w' = Some y) as Hold.
  { intros w' y [Hne Hy]%Hwin. cbn. by rewrite lookup_insert_ne. }
  assert (windows m' !! w = Some x) as Hw by apply lookup_insert_eq.
  assert (forall y, windows (discard w m) !! w <> Some y) as Hnw by (intros y [? _]%Hwin; done).
  assert (forall fd', get fd' (fds m') = if decide (fd' = fd) then Some (w :: ws) else get fd' (fds m)) as Hfds by (intros; apply get_put).
  split; [|intros g (w' & y & Hy & Hg) _ _; exists w', y; by auto].
  constructor.
  - intros fd' l. rewrite Hfds. destruct (decide (fd' = fd)) as [->|]; intros H.
    + injection H as <-. destruct (v_fd _ _ _ _ V fd ws Hws) as [H1 H2]. split; [constructor; [|done]; by intros (y & Hy%Hnw & _)%H2|].
      intros w' [->|(y & Hy%Hold & ?)%H2]%elem_of_cons; [by exists x|by exists y].
    + destruct (v_fd _ _ _ _ V fd' l H) as [H1 H2]. split; [done|]. intros w' (y & Hy%Hold & ?)%H2. by exists y.
  - intros w' y [[-> ->]|Hy]%Hget; [split; [done|]; exists fd, (w :: ws); rewrite Hfds, decide_True by done; split_and!; [done..|by left]|].
    destruct (v_window _ _ _ _ V w' y Hy) as (Hb' & fd' & l & E & Hl & Hin). split; [done|]. destruct (decide (fd' = fd)) as [->|Hne].
    + exists fd, (w :: ws). rewrite Hfds, decide_True by done. cbn in Hl. rewrite Hws in Hl. injection Hl as <-. split_and!; [done..|by right].
    + exists fd', l. rewrite Hfds, decide_False by done. done.
  - intros c w' H. destruct (v_context _ _ _ _ V c w' H) as (y & Hy%Hold & ?). by exists y.
  - intros w' y [[-> ->]|Hy]%Hget; [rewrite Hc; split; [constructor|]; by intros c ?%not_elem_of_nil|]. exact (v_contexts _ _ _ _ V w' y Hy).
  - exact (v_unused _ _ _ _ V).
  - intros w'. etransitivity; [apply (v_in_unused _ _ _ _ V)|]. split; [intros (y & Hy%Hold & ?); by exists y|].
    intros (y & [[-> ->]|Hy]%Hget & ?); [congruence|by exists y].
  - intros w' y [[-> ->]|Hy]%Hget; [by rewrite decide_True|]. rewrite decide_False by (intros [= <-]; by apply Hnw in Hy).
    exact (v_state _ _ _ _ V w' y Hy).
  - exact (v_last _ _ _ _ V).
  - cbn. rewrite Hn, <- insert_delete_eq, map_size_insert, lookup_delete_eq. f_equal. cbn. lia.
  - intros w' y [[-> ->]|Hy]%Hget; [rewrite Hp; split_and!; try done; by exists k|].
    destruct (v_map _ _ _ _ V w' y Hy) as (H1 & H2 & _ & H4). done.
  - assert (forall w' y, windows (discard w m) !! w' = Some y -> w_ptr y <> d) as Hdis.
    { intros w' y Hy E. destruct (v_map _ _ _ _ V w' y Hy) as (_ & _ & Hl & _). by rewrite E in Hl. }
    intros w1 w2 x1 x2 [[-> ->]|H1]%Hget [[-> ->]|H2]%Hget E; [done|by destruct (Hdis _ _ H2); congruence|by destruct (Hdis _ _ H1); congruence|].
    by apply (v_ptr _ _ _ _ V _ _ _ _ H1 H2).
  - exact (v_others _ _ _ _ V).
  - intros a [?|[[= <-]|(w' & y & Hy%Hold & ?)]]%(v_maps _ _ _ _ V); [by left|right; right; by exists w, x|right; right; by exists w', y].
Qed.

(** ** mmap_cache_get *)

(** What every part of it promises. *)
Definition gives (fd prot c : Z) (keep : bool) (offset size : Z) (m m' : MMapCache) (a : Z) : Prop :=
  valid others None None m' /\ steady (Some c) None m m' /\ n_ref m' = n_ref m
  /\ granted m' (mkGrant fd prot c keep offset size a).

Definition only_lets_go (c : Z) (m m' : MMapCache) : Prop :=
  valid others None None m' /\ steady (Some c) None m m' /\ n_ref m' = n_ref m.

(** A range in a window that the context looks through. *)
Lemma found_ok m c w x fd prot keep offset size :
  valid others None None m -> get c (contexts m) = Some (Some w) -> windows m !! w = Some x ->
  w_fd x = Some fd -> w_prot x = prot -> w_offset x <= offset -> offset + size <= w_offset x + w_size x ->
  gives fd prot c keep offset size m (set_window w (with_keep keep x) m) (w_ptr x + (offset - w_offset x)).
Proof.
  intros V Hc Hx Hf Hp Ho Hs. destruct (with_keep_ok others None m w x c keep V Hx Hc) as [V1 S1].
  split; [done|]. split; [by apply steady_weaken|]. split; [done|]. exists w, (with_keep keep x).
  split; [apply lookup_insert_eq|]. split; [by split_and!|]. cbn. destruct keep; [by rewrite orb_true_r|done].
Qed.

Context (k : Z) (Hk : 0 <= k <= 23).
Context (fd prot c : Z) (keep : bool) (offset size : Z) (st : option Z).
Context (Hoff : 0 <= offset) (Hsize : 0 < size) (Hend : offset + size < 2 ^ 62)
  (Hst : forall s, st = Some s -> offset + size <= s < 2 ^ 62).

Lemma add_mmap_ok m : valid others None None m ->
  exists r m', add_mmap (2 ^ k) mmap fd prot c keep offset size st m = Some (r, m')
    /\ match r with inl a => gives fd prot c keep offset size m m' a | inr _ => only_lets_go c m m' end.
Proof.
  intros V. unfold add_mmap. destruct (window_range_ok k offset size st Hk Hoff Hsize Hend Hst) as (wo & ws & -> & Hwo & _ & Hwe & Hmax & _).
  destruct (map_window_ok (mkMapping fd prot wo ws) _ m V (Nat.le_refl _)) as (r & m1 & -> & S1 & E1 & Hr). cbn [mbind option_bind].
  destruct r as [d|er]; [|exists (inr er), m1; split; [done|]; split; [done|]; split; [by apply steady_weaken|done]].
  destruct Hr as (V1 & Hd & Hd0 & Hod). destruct (context_add_ok _ _ m1 c V1) as (V2 & S2 & E2 & W2 & M2 & _ & v & Hv).
  destruct (fd_add_ok _ _ (context_add c m1) fd V2) as (V3 & S3 & E3 & W3 & M3 & C3 & l & Hl).
  set (m3 := fd_add fd (context_add c m1)) in *. cbv zeta.
  destruct (window_add_ok (Some d) m3 V3) as (w & m4 & -> & Hz & V4 & S4 & E4 & N4 & M4 & C4 & F4). cbn [mbind option_bind].
  destruct (F4 fd l Hl) as (l' & Hl'). rewrite Hl'. cbn [mbind option_bind]. set (x := mkWindow keep false prot d wo ws (Some fd) []).
  assert (maps m4 !! d = Some (mkMapping fd prot wo ws)) as Hmap by (apply (M4 d _ eq_refl); by rewrite M3, M2).
  destruct (insert_ok m4 d w x _ fd l' V4 Hz N4 Hmap Hd0 Hod) as [V5 S5]; try done; [unfold bounded; cbn; lia|].
  set (m5 := set_fds (put fd (w :: l') (fds m4)) (set_window w x m4)) in *.
  destruct (C4 c v) as (v' & Hv'); [by rewrite C3|]. assert (Some w <> v') as Hne.
  { intros <-. destruct (v_context _ _ _ _ V4 c w Hv') as (y & Hy & _). cbn in Hy. by rewrite lookup_delete_eq in Hy. }
  destruct (context_detach_window_ok _ None (Some w) m5 c v' V5 Hv' (or_intror Hne)) as (m6 & -> & V6 & S6 & F6 & G6 & W6).
  cbn [mbind option_bind]. assert (windows m6 !! w = Some x) as Hw6 by (apply W6; [apply lookup_insert_eq|done]). rewrite Hw6. cbn [mbind option_bind].
  destruct (hook_ok others None (Some w) m6 w x c V6 Hw6) with (last := last_unused m6) as [V7 S7];
    [by rewrite G6, decide_True|by right|apply (v_last _ _ _ _ V6)|].
  match type of V7 with valid _ _ _ ?t => set (m7 := t) in * end.
  replace (set_window w (with_contexts (c :: w_contexts x) x) (set_contexts (put c (Some w) (contexts m6)) m6)) with m7 by (by destruct m6).
  exists (inl (d + (offset - wo))), m7. split; [done|]. split; [done|]. split; [|split].
  - apply (steady_trans _ _ _ m1); [by apply steady_weaken|]. apply (steady_trans _ _ _ m3); [apply steady_weaken; by apply (steady_trans _ _ _ _ _ S2)|].
    apply (steady_trans _ _ _ m5); [apply steady_weaken; by apply (steady_trans _ _ _ _ _ S4)|]. by apply (steady_trans _ _ _ _ _ S6).
  - cbn. destruct F6 as [-> _]. change (n_ref m5) with (n_ref m4). congruence.
  - exists w, (with_contexts (c :: w_contexts x) (with_unused false x)). split; [apply lookup_insert_eq|]. split; [by split_and!; cbn; try lia|].
    cbn [g_keep g_context]. destruct keep; [done|]. cbn. by rewrite get_put, decide_True.
Qed.

Lemma window_matches_true x : bounded x -> window_matches x fd prot offset size = true ->
  w_fd x = Some fd /\ w_prot x = prot /\ w_offset x <= offset /\ offset + size <= w_offset x + w_size x.
Proof.
  unfold window_matches, bounded. intros ? H. bprop. rewrite !u64_small in * by (unfold is_u64; lia). by split_and!.
Qed.

Lemma try_context_ok m : valid others None None m ->
  exists r m', try_context fd prot c keep offset size m = Some (r, m')
    /\ match r with Some a => gives fd prot c keep offset size m m' a | None => only_lets_go c m m' end.
Proof.
  intros V. unfold try_context. destruct (get c (contexts m)) as [[w|]|] eqn:Ec.
  2,3: exists None, m; split; [done|]; split; [done|]; split; [apply steady_refl|done].
  destruct (v_context _ _ _ _ V c w Ec) as (x & Hx & _). rewrite Hx. cbn [mbind option_bind].
  destruct (window_matches x fd prot offset size) eqn:Em.
  - destruct (window_matches_true x (proj1 (v_window _ _ _ _ V w x Hx)) Em) as (H1 & H2 & H3 & H4).
    eexists _, _. split; [reflexivity|]. by apply found_ok.
  - destruct (context_detach_window_ok _ None None m c _ V Ec) as (m1 & -> & V1 & S1 & F1 & _); [by right|].
    exists None, m1. split; [done|]. split; [done|]. split; [done|]. apply F1.
Qed.

Lemma find_window_ok h ws : (forall w, w ∈ ws -> is_Some (h !! w)) ->
  exists r, find_window h ws fd prot offset size = Some r
    /\ match r with Some w => exists x, w ∈ ws /\ h !! w = Some x /\ window_matches x fd prot offset size = true | None => True end.
Proof.
  induction ws as [|w ws IH]; intros Hws; [by exists None|]. destruct (Hws w) as [x Hx]; [by left|]. cbn [find_window]. rewrite Hx. cbn [mbind option_bind].
  destruct (window_matches x fd prot offset size) eqn:E; [exists (Some w); split; [done|]; exists x; by split_and!; [left|..]|].
  destruct IH as (r & Hr & H); [intros; apply Hws; by right|]. exists r. split; [done|]. destruct r as [w'|]; [|done].
  destruct H as (y & ? & ?). exists y. split; [by right|done].
Qed.

Lemma find_mmap_ok m : valid others None None m ->
  exists r m', find_mmap fd prot c keep offset size m = Some (r, m')
    /\ match r with Some a => gives fd prot c keep offset size m m' a | None => m' = m end.
Proof.
  intros V. unfold find_mmap. destruct (get fd (fds m)) as [ws|] eqn:Ef; [|by exists None, m].
  destruct (find_window_ok (windows m) ws) as (r & -> & Hr). { intros w Hw. destruct (v_fd _ _ _ _ V fd ws Ef) as [_ H]. destruct (H w Hw) as (x & ? & _). by exists x. }
  cbn [mbind option_bind]. destruct r as [w|]; [|by exists None, m]. destruct Hr as (x & Hw & Hx & Hm).
  destruct (window_matches_true x (proj1 (v_window _ _ _ _ V w x Hx)) Hm) as (H1 & H2 & H3 & H4).
  destruct (context_add_ok _ _ m c V) as (V1 & S1 & E1 & W1 & _ & _ & v & Hv).
  destruct (context_attach_window_ok others (context_add c m) c w x v V1) as (m2 & y & -> & V2 & S2 & E2 & Hc & Hy & Hsm); [by rewrite W1|done|].
  cbn [mbind option_bind]. rewrite Hy. cbn [mbind option_bind]. destruct Hsm as (P1 & P2 & P3 & P4 & P5).
  destruct (found_ok m2 c w y fd prot keep offset size V2 Hc Hy) as (V3 & S3 & E3 & G3); try congruence.
  eexists _, _. split; [reflexivity|]. split; [done|]. split; [|split; [by rewrite E3, E2, E1|done]].
  apply (steady_trans _ _ _ (context_add c m)); [by apply steady_weaken|]. by apply (steady_trans _ _ _ _ _ S2).
Qed.

Lemma mmap_cache_get_ok m : valid others None None m -> 0 < n_ref m -> 0 <= fd ->
  exists r m', mmap_cache_get (2 ^ k) mmap fd prot c keep offset size st m = Some (r, m')
    /\ match r with inl a => gives fd prot c keep offset size m m' a | inr _ => only_lets_go c m m' end.
Proof.
  intros V Hr Hfd. unfold mmap_cache_get. rewrite !(proj2 (Z.ltb_lt _ _)), (proj2 (Z.leb_le _ _)) by done. cbn [andb negb].
  assert (forall m1 m2 h n a, gives fd prot c keep offset size m1 m2 a -> gives fd prot c keep offset size m1 (set_counts h n m2) a) as Hcount.
  { intros m1 m2 h n a (V1 & S1 & E1 & G1). destruct (counts_ok None None m2 h n V1) as [V2 S2].
    split; [done|]. split; [apply (steady_trans _ _ _ _ _ S1); by apply steady_weaken|]. split; [done|]. by apply S2. }
  destruct (try_context_ok m V) as (r & m1 & -> & H1). cbn [mbind option_bind]. destruct r as [a|].
  { eexists _, _. split; [reflexivity|]. by apply Hcount. }
  destruct H1 as (V1 & S1 & E1). destruct (find_mmap_ok m1 V1) as (r & m2 & -> & H2). cbn [mbind option_bind]. destruct r as [a|].
  { eexists _, _. split; [reflexivity|]. apply Hcount. destruct H2 as (V2 & S2 & E2 & G2). split; [done|].
    split; [by apply (steady_trans _ _ _ _ _ S1)|]. split; [congruence|done]. }
  subst m2. destruct (counts_ok None None m1 (n_hit m1) (u32 (n_missed m1 + 1)) V1) as [V2 S2].
  destruct (add_mmap_ok _ V2) as (r & m3 & -> & H3). exists r, m3. split; [done|].
  pose proof (steady_trans _ _ _ _ _ S1 (steady_weaken (Some c) None _ _ S2)) as S3.
  destruct r; [destruct H3 as (V3 & S4 & E3 & G3)|destruct H3 as (V3 & S4 & E3)]; (split; [done|]); (split; [by apply (steady_trans _ _ _ _ _ S3)|]).
  - split; [rewrite E3; done|done].
  - rewrite E3. done.
Qed.

End ops.

(** * Closing files and the end of the cache *)

Section closing.
Context (others : gmap Z Mapping).

Lemma length_del {A} k (v : A) l : get k l = Some v -> (length (del k l) < length l)%nat.
Proof.
  unfold del. induction l as [|[x y] l IH]; [done|]. cbn [get]. rewrite filter_cons. destruct (Z.eqb_spec x k) as [->|Hne].
  - intros _. rewrite decide_False by tauto. cbn. pose proof (length_filter (fun e : Z * A => e.1 <> k) l). lia.
  - intros H%IH. rewrite decide_True by done. cbn. lia.
Qed.

Lemma keys_length {A B} (l : list (Z * A)) (l' : list (Z * B)) : map fst l = map fst l' -> length l = length l'.
Proof. intros H. rewrite <- (length_map fst l), H. apply length_map. Qed.

Lemma free_windows_ok fd : forall n m ws, valid others None None m -> get fd (fds m) = Some ws -> (length ws <= n)%nat ->
  exists m', free_windows n fd m = Some m' /\ valid others None None m' /\ steady None (Some fd) m m' /\ n_ref m' = n_ref m
    /\ get fd (fds m') = Some [] /\ map fst (fds m') = map fst (fds m) /\ map fst (contexts m') = map fst (contexts m).
Proof.
  induction n as [|n IH]; intros m ws V Hws Hn; cbn [free_windows]; rewrite Hws.
  { destruct ws; [|cbn in Hn; lia]. exists m. split; [done|]. split; [done|]. split; [apply steady_refl|]. done. }
  destruct ws as [|w ws]; [exists m; split; [done|]; split; [done|]; split; [apply steady_refl|]; done|].
  destruct (v_fd _ _ _ _ V fd _ Hws) as [Hnd Hin]. destruct (Hin w) as (x & Hx & Hf); [by left|].
  destruct (window_free_ok others None m w x V Hx) as (m1 & -> & Hul & V1 & S1). cbn [mbind option_bind].
  destruct Hul as (E1 & _ & _ & _ & _ & _ & _ & K1 & Hfds & K2 & _).
  destruct (IH (discard w m1) (without w (w :: ws)) V1) as (m2 & -> & V2 & S2 & E2 & G2 & K3 & K4).
  - cbn [fds discard set_windows set_n_windows]. by rewrite Hfds, decide_True, Hws.
  - pose proof (without_length w (w :: ws) (list_elem_of_here _ _)). cbn [length] in *. lia.
  - exists m2. split; [done|]. split; [done|]. split; [apply (steady_trans _ _ _ _ _ (S1 None (Some fd) (or_intror (eq_sym Hf)))); done|].
    split; [rewrite E2; done|]. split; [done|]. split; [rewrite K3; exact K1|rewrite K4; exact K2].
Qed.

Lemma fd_free_ok m fd ws : valid others None None m -> get fd (fds m) = Some ws ->
  exists m', fd_free fd m = Some m' /\ valid others None None m' /\ steady None (Some fd) m m' /\ n_ref m' = n_ref m
    /\ (length (fds m') < length (fds m))%nat.
Proof.
  intros V Hws. unfold fd_free. rewrite Hws. cbn [mbind option_bind].
  destruct (free_windows_ok fd (length ws) m ws V Hws (Nat.le_refl _)) as (m1 & -> & V1 & S1 & E1 & G1 & K1 & _). cbn [mbind option_bind].
  eexists. split; [reflexivity|]. split; [|split; [|split; [done|]]].
  - destruct V1. constructor; cbn; try done.
    + intros fd' l. rewrite get_del. destruct (decide (fd' = fd)); [done|]. apply v_fd.
    + intros w x Hx. destruct (v_window w x Hx) as (Hb & fd' & l & H1 & H2 & H3). split; [done|]. exists fd', l.
      rewrite get_del, decide_False; [done|]. intros ->. rewrite G1 in H2. injection H2 as <-. by apply not_elem_of_nil in H3.
  - apply (steady_trans _ _ _ _ _ S1). intros g (w & x & Hg) _ _. by exists w, x.
  - cbn. apply keys_length in K1. pose proof (length_del fd _ _ G1). lia.
Qed.

Lemma close_fd_ok m fd : valid others None None m ->
  exists m', mmap_cache_close_fd fd m = Some m' /\ valid others None None m' /\ steady None (Some fd) m m' /\ n_ref m' = n_ref m.
Proof.
  intros V. unfold mmap_cache_close_fd. destruct (get fd (fds m)) as [ws|] eqn:E.
  - destruct (fd_free_ok m fd ws V E) as (m' & ? & ? & ? & ? & _). by exists m'.
  - exists m. split; [done|]. split; [done|]. split; [apply steady_refl|done].
Qed.

Lemma context_free_ok m c v : valid others None None m -> get c (contexts m) = Some v ->
  exists m', context_free c m = Some m' /\ valid others None None m' /\ (length (contexts m') < length (contexts m))%nat.
Proof.
  intros V Hc. unfold context_free. destruct (context_detach_window_ok others None None m c v V Hc) as (m1 & -> & V1 & _ & F1 & G1 & _).
  { destruct v; [by right|by left]. }
  cbn [mbind option_bind]. assert (get c (contexts m1) = Some None) as E by (by rewrite G1, decide_True). rewrite E. cbn [mbind option_bind].
  eexists. split; [reflexivity|]. split.
  - destruct V1. constructor; cbn; try done.
    + intros c' w. rewrite get_del. destruct (decide (c' = c)); [done|]. apply v_context.
    + intros w x Hx. destruct (v_contexts w x Hx) as [H1 H2]. split; [done|]. intros c' Hc'. rewrite get_del, decide_False; [by apply H2|].
      intros ->. apply H2 in Hc'. congruence.
  - cbn. destruct F1 as (_ & _ & _ & _ & Hkeys). apply keys_length in Hkeys. pose proof (length_del c _ _ E). lia.
Qed.

Lemma get_head {A} k (v : A) l : get k ((k, v) :: l) = Some v.
Proof. cbn. by rewrite Z.eqb_refl. Qed.

Lemma free_contexts_ok : forall n m, valid others None None m -> (length (contexts m) <= n)%nat ->
  exists m', free_contexts n m = Some m' /\ valid others None None m'.
Proof.
  induction n as [|n IH]; intros m V Hn; cbn [free_contexts]; destruct (contexts m) as [|[c v] l] eqn:E; try (by exists m); [cbn in Hn; lia|].
  destruct (context_free_ok m c v V) as (m1 & -> & V1 & Hl); [by rewrite E, get_head|]. cbn [mbind option_bind].
  apply (IH m1 V1). rewrite E in Hl. lia.
Qed.

Lemma free_fds_ok : forall n m, valid others None None m -> (length (fds m) <= n)%nat ->
  exists m', free_fds n m = Some m' /\ valid others None None m' /\ fds m' = [].
Proof.
  induction n as [|n IH]; intros m V Hn; cbn [free_fds]; destruct (fds m) as [|[fd ws] l] eqn:E; try (by exists m); [cbn in Hn; lia|].
  destruct (fd_free_ok m fd ws V) as (m1 & -> & V1 & _ & _ & Hl); [by rewrite E, get_head|]. cbn [mbind option_bind].
  apply (IH m1 V1). rewrite E in Hl. lia.
Qed.

(** When the last reference is dropped, everything the cache has mapped is unmapped. *)
Lemma unref_ok m : valid others None None m -> n_ref m = 1 -> exists m', mmap_cache_unref m = Some m' /\ maps m' = others.
Proof.
  intros V Hr. assert (mmap_cache_unref m = mmap_cache_free (set_refs 0 m)) as -> by (unfold mmap_cache_unref; rewrite Hr; reflexivity).
  assert (valid others None None (set_refs 0 m)) as V0 by (destruct V; by constructor).
  unfold mmap_cache_free. destruct (free_contexts_ok _ _ V0 (Nat.le_refl _)) as (m1 & -> & V1). cbn [mbind option_bind].
  destruct (free_fds_ok _ _ V1 (Nat.le_refl _)) as (m2 & -> & V2 & E2). cbn [mbind option_bind].
  assert (forall w x, windows m2 !! w <> Some x) as Hw.
  { intros w x Hx. destruct (v_window _ _ _ _ V2 w x Hx) as (_ & fd & ws & _ & H & _). by rewrite E2 in H. }
  assert (unused m2 = []) as Hu.
  { destruct (unused m2) as [|w l] eqn:E; [done|]. destruct (proj1 (v_in_unused _ _ _ _ V2 w)) as (x & Hx & _); [rewrite E; by left|].
    by apply Hw in Hx. }
  rewrite Hu. exists m2. split; [cbn [length free_unused]; by rewrite Hu|]. apply map_eq. intros a. destruct (others !! a) as [k|] eqn:Ea.
  - by apply (lookup_weaken others), (v_others _ _ _ _ V2).
  - destruct (maps m2 !! a) as [k|] eqn:Em; [|done].
    destruct (v_maps _ _ _ _ V2 a) as [[? ?]|[?|(w & x & Hx & _)]]; [by exists k|congruence|done|by apply Hw in Hx].
Qed.

End closing.


(** * Requests *)

Inductive op :=
| Get (fd prot context : Z) (keep : bool) (offset size : Z) (st : option Z)
| CloseFd (fd : Z).

(** A range inside of the file, as journal_file_move_to asks for. *)
Definition op_ok (o : op) : Prop :=
  match o with
  | Get fd _ _ _ offset size st =>
      0 <= fd /\ 0 <= offset /\ 0 < size /\ offset + size < 2 ^ 62 /\ (forall s, st = Some s -> offset + size <= s < 2 ^ 62)
  | CloseFd _ => True
  end.

(** The pointers that a caller may use after a request: those of the other contexts, those
    that were to be kept always, and the new one; none into a file that is closed. *)
Definition promised (o : op) (r : option (Z + Z)) (gs : list Grant) : list Grant :=
  match o with
  | Get fd prot c keep offset size _ =>
      let gs := filter (fun g => g_context g <> c \/ g_keep g = true) gs in
      match r with
      | Some (inl a) => mkGrant fd prot c keep offset size a :: gs
      | _ => gs
      end
  | CloseFd fd => filter (fun g => g_fd g <> fd) gs
  end.

(** At the address there is a mapping of the file, with the protection that was asked for,
    that shows the range. *)
Definition readable (k : gmap Z Mapping) (g : Grant) : Prop :=
  exists base x, k !! base = Some x /\ m_fd x = g_fd g /\ m_prot x = g_prot g
    /\ base <= g_addr g /\ m_offset x + (g_addr g - base) = g_offset g /\ g_addr g + g_size g <= base + m_size x.

Section kernel.
Context (page : Z) (mmap : nat -> gmap Z Mapping -> Mapping -> Z + Z).

Definition step (o : op) (m : MMapCache) : option (option (Z + Z) * MMapCache) :=
  match o with
  | Get fd prot c keep offset size st => '(r, m) ← mmap_cache_get page mmap fd prot c keep offset size st m; Some (Some r, m)
  | CloseFd fd => m ← mmap_cache_close_fd fd m; Some (None, m)
  end.

Fixpoint run (ops : list op) (gs : list Grant) (m : MMapCache) : option (list Grant * MMapCache) :=
  match ops with
  | [] => Some (gs, m)
  | o :: ops => '(r, m) ← step o m; run ops (promised o r gs) m
  end.

(** The address is not NULL, and nothing was mapped there. *)
Definition mmap_law : Prop := forall n k rq d, mmap n k rq = inl d -> d <> 0 /\ k !! d = None.

Context (k : Z) (Hpage : page = 2 ^ k) (Hk : 0 <= k <= 23) (Hmmap : mmap_law) (others : gmap Z Mapping).

Lemma step_ok o gs m : op_ok o -> valid others None None m -> 0 < n_ref m -> Forall (granted m) gs ->
  exists r m', step o m = Some (r, m') /\ valid others None None m' /\ n_ref m' = n_ref m /\ Forall (granted m') (promised o r gs).
Proof.
  intros Ho V Hr Hgs. destruct o as [fd prot c keep offset size st|fd]; cbn [step promised].
  - destruct Ho as (Hfd & Hoff & Hsize & Hend & Hst). rewrite Hpage.
    destruct (mmap_cache_get_ok others mmap Hmmap k Hk fd prot c keep offset size st Hoff Hsize Hend Hst m V Hr Hfd) as (r & m' & -> & H).
    cbn [mbind option_bind]. exists (Some r), m'. split; [done|].
    assert (steady (Some c) None m m' -> Forall (granted m') (filter (fun g => g_context g <> c \/ g_keep g = true) gs)) as Hold.
    { intros S. apply Forall_forall. intros g [Hg Hin]%list_elem_of_filter. apply S; [|intros [= E]; destruct Hg; [congruence|done]|done].
      by apply (proj1 (Forall_forall _ _) Hgs). }
    destruct r as [a|er]; [destruct H as (V' & S & E & G)|destruct H as (V' & S & E)]; (split; [done|]); (split; [done|]); auto.
  - destruct (close_fd_ok others m fd V) as (m' & -> & V' & S & E). cbn [mbind option_bind]. exists None, m'. split; [done|]. split; [done|].
    split; [done|]. apply Forall_forall. intros g [Hg Hin]%list_elem_of_filter. apply S; [|done|congruence].
    by apply (proj1 (Forall_forall _ _) Hgs).
Qed.

Lemma run_ok ops : Forall op_ok ops -> forall gs m, valid others None None m -> 0 < n_ref m -> Forall (granted m) gs ->
  exists gs' m', run ops gs m = Some (gs', m') /\ valid others None None m' /\ n_ref m' = n_ref m /\ Forall (granted m') gs'.
Proof.
  induction 1 as [|o ops Ho _ IH]; intros gs m V Hr Hgs; [by exists gs, m|]. cbn [run].
  destruct (step_ok o gs m Ho V Hr Hgs) as (r & m1 & -> & V1 & E1 & G1). cbn [mbind option_bind].
  destruct (IH _ m1 V1 ltac:(lia) G1) as (gs2 & m2 & ? & ? & E2 & ?). exists gs2, m2. split_and!; try done. congruence.
Qed.

Lemma granted_readable m g : valid others None None m -> granted m g -> readable (maps m) g.
Proof.
  intros V (w & x & Hx & (Hf & Hp & Ho & He & Ha) & _). destruct (v_map _ _ _ _ V w x Hx) as (_ & _ & _ & y & Hy & Hsf & Hsp & Hso & Hss).
  exists (w_ptr x), y. split; [done|]. split; [congruence|]. split; [congruence|]. lia.
Qed.

(** C6 The mmap cache keeps its promise: after any sequence of requests for ranges of
    files and of closed files, whatever mmap answers, no assertion has failed and no
    dangling pointer was followed, and every pointer that was given and is not
    outdated (the context has not asked again, or the range was to be kept always, and
    the file was not closed) points to a mapping of its range; the windows are counted
    right, and dropping the cache unmaps exactly what it had mapped. *)
Theorem mmap_cache_correct ops : Forall op_ok ops ->
  exists gs m, run ops [] (mmap_cache_new others) = Some (gs, m) /\ Forall (readable (maps m)) gs
    /\ n_windows m = u32 (Z.of_nat (size (windows m)))
    /\ exists m', mmap_cache_unref m = Some m' /\ maps m' = others.
Proof.
  intros Hops. destruct (run_ok ops Hops [] _ (new_valid others) ltac:(done) (List.Forall_nil _)) as (gs & m & Hrun & V & E & G).
  exists gs, m. split; [done|]. split; [|split; [apply (v_count _ _ _ _ V)|by apply (unref_ok others)]].
  eapply Forall_impl; [exact G|]. intros g. by apply granted_readable.
Qed.
End kernel.

(** * Examples *)

(** A kernel that finds room for [n] mappings. *)
Definition some_room (n : nat) : nat -> gmap Z Mapping -> Mapping -> Z + Z :=
  fun i k _ => if (i <? n)%nat then inl (fresh (dom k ∪ {[0]})) else inr ENOMEM.

Lemma some_room_law n : mmap_law (some_room n).
Proof.
  intros i k rq d. unfold some_room. destruct (i <? n)%nat; [|done]. intros [= <-]. pose proof (is_fresh (dom k ∪ {[0]})) as H.
  apply not_elem_of_union in H as [H1 H2]. split; [by intros E; apply H2, elem_of_singleton|]. by apply not_elem_of_dom.
Qed.

Definition sample_requests : list op :=
  [Get 3 1 0 true 0 240 (Some 8388608); Get 3 1 4 false 300 64 (Some 8388608); Get 4 1 4 false 12345678 100 (Some 16777216);
   Get 4 3 5 false 0 240 None; CloseFd 3].

Lemma mmap_cache_witness :
  (prod_map (map g_context) n_windows) <$> run 4096 (some_room 3) sample_requests [] (mmap_cache_new ∅) = Some ([5; 4], 2) /\
  exists gs m, run 4096 (some_room 3) sample_requests [] (mmap_cache_new ∅) = Some (gs, m) /\ Forall (readable (maps m)) gs
    /\ n_windows m = u32 (Z.of_nat (size (windows m)))
    /\ exists m', mmap_cache_unref m = Some m' /\ maps m' = ∅.
Proof.
  split; [vm_compute; reflexivity|]. apply (mmap_cache_correct 4096 (some_room 3) 12); [done|done|apply some_room_law|].
  repeat (apply List.Forall_cons; [cbn [op_ok]; repeat match goal with |- _ /\ _ => split end; (lia || done || (intros ? [= <-]; lia))|]).
  constructor.
Defined.

(** Two windows are unused, and the one that is [last_unused] is taken again: the other is
    not found when room is needed, and the request fails. *)
Definition reuse_requests : list op :=
  [Get 3 1 1 false 0 8 None; Get 4 1 2 false 0 8 None; Get 5 1 1 false 0 8 None; Get 5 1 2 false 0 8 None; Get 3 1 3 false 0 8 None].

Lemma unused_window_forgotten :
  ('(_, m) ← run 4096 (some_room 3) reuse_requests [] (mmap_cache_new ∅);
   '(r, _) ← step 4096 (some_room 3) (Get 6 1 4 false 0 8 None) m;
   Some (length (unused m), last_unused m, r)) = Some (1%nat, None, Some (inr ENOMEM)).
Proof. vm_compute. reflexivity. Qed.
