(* ===== verification/Output.v ===== *)
(** src/journalctl/logs-show.c, with shared/gunicode.c: the texts that an entry is shown,
    exported and serialised as. *)
From S2P Require Import Prelude CString Memory Split Utf8 Uuid Numbers JournalDef Cursor Daemon Syslog TimeUtil Server.

Definition PRINT_LINE_THRESHOLD : nat := 3.
Definition PRINT_CHAR_THRESHOLD : nat := 300.
Definition JSON_THRESHOLD : nat := 4096.

Inductive OutputMode := OUTPUT_SHORT | OUTPUT_SHORT_ISO | OUTPUT_SHORT_PRECISE | OUTPUT_SHORT_MONOTONIC | OUTPUT_VERBOSE
  | OUTPUT_EXPORT | OUTPUT_JSON | OUTPUT_JSON_PRETTY | OUTPUT_JSON_SSE | OUTPUT_CAT.

Definition OUTPUT_SHOW_ALL := 1.
Definition OUTPUT_FULL_WIDTH := 8.
Definition OUTPUT_COLOR := 16.
Definition has_flag (flags x : Z) : bool := negb (Z.land flags x =? 0).

(** * The entry *)

(** A piece of memory: the bytes that count and those behind them. *)
Record Buf := mkBuf { b_data : list Z; b_behind : list Z }.

(** The answers of the library about the current entry; what the enumeration visits and
    its last answer, and a field, depend on the data threshold. *)
Record Entry := mkEntry {
  e_realtime : Z + Z;
  e_monotonic : (Z * list Z) + Z;
  e_cursor : list Z + Z;
  e_data : Z -> list Buf * Z;
  e_get : Z -> list Z -> Buf + Z }.

(** The text that was written and what was returned: [- errno], or a count. *)
Definition Out : Type := list Z * Z.

(** A value that parse_field has copied, with its terminator. *)
Definition copied (s : list Z) : Buf := mkBuf s [0].

Definition parse_field (data : Buf) (field : list Z) : option (list Z) :=
  let fl := length field in
  if (length (b_data data) <? fl)%nat then None
  else if bool_decide (take fl (b_data data) = field) then Some (drop fl (b_data data)) else None.

Definition utf8_is_printable_buf (b : Buf) (newline : bool) : bool :=
  let s := b_data b ++ b_behind b in
  default false (utf8_is_printable_newline (S (length s)) s (Z.of_nat (length (b_data b))) newline).

Definition utf8_is_printable (b : Buf) : bool := utf8_is_printable_buf b true.

Definition shall_print (p : list Z) (flags : Z) : bool :=
  if has_flag flags OUTPUT_SHOW_ALL then true
  else if (PRINT_CHAR_THRESHOLD <=? length p)%nat then false
  else utf8_is_printable (copied p).

(** "%.*s" and "%s" *)
Definition format_s (n : nat) (s : list Z) : list Z := take n (cstring s).

(** The string in a block of memory; without a terminator the block is left. *)
Definition string_in (block : list Z) : outcome (list Z) := if is_in block 0 then Ok (cstring block) else Crash.

(** * Shortening *)

Definition ascii_ellipsize_mem (s : list Z) (old_length new_length percent : nat) : list Z :=
  if ((old_length <=? 3) || (old_length <=? new_length))%nat then format_s old_length s else
  let x := Nat.min (new_length * percent / 100) (new_length - 3) in
  cstring (take x s ++ txt "..." ++ take (new_length - x - 3) (drop (old_length - (new_length - x - 3)) s)).

(** The table of gunicode.c; bsearch finds the interval the character is in. *)
Definition wide : list (Z * Z) :=
  [(0x1100, 0x115F); (0x2329, 0x232A); (0x2E80, 0x2E99); (0x2E9B, 0x2EF3);
   (0x2F00, 0x2FD5); (0x2FF0, 0x2FFB); (0x3000, 0x303E); (0x3041, 0x3096);
   (0x3099, 0x30FF); (0x3105, 0x312D); (0x3131, 0x318E); (0x3190, 0x31BA);
   (0x31C0, 0x31E3); (0x31F0, 0x321E); (0x3220, 0x3247); (0x3250, 0x32FE);
   (0x3300, 0x4DBF); (0x4E00, 0xA48C); (0xA490, 0xA4C6); (0xA960, 0xA97C);
   (0xAC00, 0xD7A3); (0xF900, 0xFAFF); (0xFE10, 0xFE19); (0xFE30, 0xFE52);
   (0xFE54, 0xFE66); (0xFE68, 0xFE6B); (0xFF01, 0xFF60); (0xFFE0, 0xFFE6);
   (0x1B000, 0x1B001); (0x1F200, 0x1F202); (0x1F210, 0x1F23A);
   (0x1F240, 0x1F248); (0x1F250, 0x1F251); (0x1F300, 0x1F567); (0x20000, 0x2FFFD); (0x30000, 0x3FFFD)].

Definition unichar_iswide (c : Z) : bool := existsb (fun '(a, b) => (a <=? c) && (c <=? b)) wide.

Definition utf8_skip_data (c : Z) : nat :=
  if c <? 192 then 1 else if c <? 224 then 2 else if c <? 240 then 3 else if c <? 248 then 4
  else if c <? 252 then 5 else if c <? 254 then 6 else 1.

(** The index of the character before [j]; [None]: there is none in the string. *)
Fixpoint utf8_prev_char (s : list Z) (j : nat) : option nat :=
  match j with
  | O => None
  | S j => if negb (Z.land (chr (drop j s)) 0xc0 =? 0x80) then Some j else utf8_prev_char s j
  end.

(** The width of the character at [i]. *)
Definition width_at (s : list Z) (i : nat) : option nat :=
  let c := utf8_encoded_to_unichar (drop i s) in
  if c <? 0 then None else Some (if unichar_iswide c then 2 else 1)%nat.

(** The beginning that is kept: its end and its width; [None]: an invalid character. *)
Fixpoint keep_front (n : nat) (s : list Z) (old_length x i k : nat) : option (nat * nat) :=
  if ((k <? x) && (i <? old_length))%nat then
    match n with
    | O => None
    | S n => match width_at s i with
             | None => None
             | Some w => keep_front n s old_length x (i + utf8_skip_data (chr (drop i s))) (k + w)
             end
    end
  else Some (i, k).

(** The end that is kept; [Err]: an invalid character. *)
Fixpoint keep_back (n : nat) (s : list Z) (new_length i j k : nat) : outcome nat :=
  if ((k <? new_length) && (i <? j))%nat then
    match n with
    | O => NoFuel
    | S n =>
        match utf8_prev_char s j with
        | None => Crash
        | Some j => match width_at s j with None => Err EINVAL | Some w => keep_back n s new_length i j (k + w) end
        end
    end
  else Ok j.

(** [s]: the string with its terminator and all that is behind [old_length].  The block
    that is returned; [Ok None]: NULL. *)
Definition ellipsize_mem (s : list Z) (old_length new_length percent : nat) : outcome (option (list Z)) :=
  if ascii_is_valid s then Ok (Some (ascii_ellipsize_mem s old_length new_length percent ++ [0])) else
  if ((old_length <=? 3) || (old_length <=? new_length))%nat then Ok (Some (format_s old_length s ++ [0])) else
  let x := Nat.min (new_length * percent / 100) (new_length - 3) in
  match keep_front (S old_length) s old_length x 0 0 with
  | None => Ok None
  | Some (i, k) =>
      match keep_back (S old_length) s new_length i old_length k with
      | Ok j =>
          if (j <? i)%nat then Crash else
          if (i =? j)%nat then Ok (Some (take (old_length + 1) s)) else
          let j := (j + utf8_skip_data (chr (drop j s)))%nat in
          if (old_length <? j)%nat then Crash else
          Ok (Some (take i s ++ [226; 128; 166] ++ take (old_length - j + 1) (drop j s)))
      | Err _ => Ok None
      | Crash => Crash
      | NoFuel => NoFuel
      end
  end.

(** * Messages of several lines *)

Definition ANSI (s : String.string) : list Z := 27 :: txt s.

Definition colors (flags priority : Z) : list Z * list Z :=
  if has_flag flags OUTPUT_COLOR then
    if priority <=? 3 then (ANSI "[38;5;9m", ANSI "[0m")
    else if priority <=? 4 then (ANSI "[38;5;228m", ANSI "[0m")
    else if priority <=? 5 then (ANSI "[38;5;153m", ANSI "[0m")
    else ([], [])
  else ([], []).

(** The rest [s] of the message, which begins at [pos]. *)
Fixpoint print_lines (n : nat) (prefix n_columns : nat) (flags : Z) (on off : list Z) (line pos : nat) (s : list Z)
    (ellipsized : bool) : outcome (list Z * bool) :=
  match s with
  | [] => Ok ([], ellipsized)
  | _ =>
      match n with
      | O => NoFuel
      | S n =>
          let len := strcspn s [10] in
          let tail_line := (line + 1 =? PRINT_LINE_THRESHOLD)%nat || (PRINT_CHAR_THRESHOLD <=? pos + len + 1)%nat in
          let indent := if (0 <? line)%nat then replicate prefix 32 else [] in
          let shown t := indent ++ on ++ t ++ off ++ [10] in
          let next := print_lines n prefix n_columns flags on off (S line) (pos + len + 1) (drop (len + 1) s) in
          if has_flag flags (Z.lor OUTPUT_FULL_WIDTH OUTPUT_SHOW_ALL) || (prefix + len + 1 <? n_columns)%nat && negb tail_line
          then match next ellipsized with Ok (t, e) => Ok (shown (format_s len s) ++ t, e) | r => r end
          else
            match
              (if ((prefix <? n_columns) && (3 <=? n_columns - prefix))%nat then
                 if (len + 3 <? n_columns - prefix)%nat then Ok (shown (format_s len s ++ txt "..."))
                 else match ellipsize_mem (s ++ [0]) len (n_columns - prefix) (if tail_line then 100 else 90) with
                      | Ok None => Ok (shown (format_s len s))
                      | Ok (Some block) => match string_in block with Ok t => Ok (shown t) | Err er => Err er | Crash => Crash | NoFuel => NoFuel end
                      | Err er => Err er
                      | Crash => Crash
                      | NoFuel => NoFuel
                      end
               else Ok (txt "..." ++ [10]))
            with
            | Ok t =>
                if tail_line then Ok (t, true)
                else match next true with Ok (t', e) => Ok (t ++ t', e) | r => r end
            | Err er => Err er
            | Crash => Crash
            | NoFuel => NoFuel
            end
      end
  end.

Definition print_multiline (prefix n_columns : nat) (flags priority : Z) (message : list Z) : outcome (list Z * bool) :=
  let '(on, off) := colors flags priority in
  match message with
  | [] => Ok ([10], false)
  | _ => print_lines (length message) prefix n_columns flags on off 0 0 message false
  end.

(** * Colours and tabs *)

(** [STATE_BRACKET] with the place to go back to. *)
Inductive strip_state := STATE_OTHER | STATE_ESCAPE | STATE_BRACKET (begin : list Z).

Fixpoint strip_loop (n : nat) (state : strip_state) (i : list Z) : outcome (list Z) :=
  match n with
  | O => NoFuel
  | S n =>
      let put t r := match r with Ok s => Ok (t ++ s) | r => r end in
      match state, i with
      | STATE_OTHER, [] => Ok []
      | STATE_OTHER, c :: i =>
          if c =? 27 then strip_loop n STATE_ESCAPE i
          else if c =? 9 then put (replicate 8 32) (strip_loop n STATE_OTHER i)
          else put [c] (strip_loop n STATE_OTHER i)
      | STATE_ESCAPE, [] => Ok [27]
      | STATE_ESCAPE, c :: i =>
          if c =? 91 then strip_loop n (STATE_BRACKET i) i
          else put [27; c] (strip_loop n STATE_OTHER i)
      | STATE_BRACKET begin, [] => put [27; 91] (strip_loop n STATE_OTHER begin)
      | STATE_BRACKET begin, c :: i =>
          if negb (is_digit c) && negb (c =? 59) && negb (c =? 109) then put [27; 91] (strip_loop n STATE_OTHER begin)
          else if c =? 109 then strip_loop n STATE_OTHER i
          else strip_loop n (STATE_BRACKET begin) i
      end
  end.

Definition strip_tab_ansi (s : list Z) : outcome (list Z) := strip_loop (S (length s) * S (length s)) STATE_OTHER s.

(** * One line per message *)

(** The fields that are collected; an item sets the first one that it has the name of. *)
Definition short_fields : list (list Z) :=
  map txt ["PRIORITY="; "_HOSTNAME="; "SYSLOG_IDENTIFIER="; "_COMM="; "_PID="; "SYSLOG_PID="; "_SOURCE_REALTIME_TIMESTAMP=";
           "_SOURCE_MONOTONIC_TIMESTAMP="; "MESSAGE="]%string.

Fixpoint take_field (names : list (list Z)) (b : Buf) (values : list (option (list Z))) : list (option (list Z)) :=
  match names, values with
  | name :: names, v :: values =>
      match parse_field b name with Some x => Some x :: values | None => v :: take_field names b values end
  | _, _ => values
  end.

Definition collect (items : list Buf) : list (option (list Z)) :=
  foldl (fun values b => take_field short_fields b values) (replicate 9 None) items.

Section output.
(** strftime with a format, of local time; nothing when it fails.  The width of the
    terminal, and format_timestamp_us. *)
Context (strftime : list Z -> Z -> list Z) (columns : nat) (format_timestamp_us : Z -> list Z).

Definition short_time (e : Entry) (mode : OutputMode) (realtime monotonic : option (list Z)) : list Z + Z :=
  let parsed o := match o with Some s => safe_atou64 (cstring s) | None => inr ENOENT end in
  match mode with
  | OUTPUT_SHORT_MONOTONIC =>
      match (match parsed monotonic with
             | inl t => inl t
             | inr _ => match e_monotonic e with inl (t, _) => inl t | inr er => inr er end
             end) with
      | inl t => inl (txt "[" ++ pad 5 32 (format_u (t / USEC_PER_SEC)) ++ txt "." ++ padded 6 (t mod USEC_PER_SEC) ++ txt "]")
      | inr er => inr er
      end
  | _ =>
      match (match parsed realtime with inl x => inl x | inr _ => e_realtime e end) with
      | inr er => inr er
      | inl x =>
          let t := x / USEC_PER_SEC in
          let buf :=
            match mode with
            | OUTPUT_SHORT_ISO => strftime (txt "%Y-%m-%dT%H:%M:%S%z") t
            | OUTPUT_SHORT_PRECISE =>
                match strftime (txt "%b %d %H:%M:%S") t with
                | [] => []
                | s => take 63 (s ++ txt "." ++ padded 6 (x mod USEC_PER_SEC))
                end
            | _ => strftime (txt "%b %d %H:%M:%S") t
            end in
          match buf with [] => inr EINVAL | _ => inl buf end
      end
  end.

(** What a header field adds to the line, and the number of its columns. *)
Definition short_part (v : option (list Z)) (flags : Z) (open close : list Z) : option (list Z * nat) :=
  match v with
  | Some s => if shall_print s flags then Some (open ++ format_s (length s) s ++ close, length (open ++ s ++ close)) else None
  | None => None
  end.

(** The first of two fields that is there, or [other]. *)
Definition either (a b : option (list Z * nat)) (other : list Z) : list Z * nat :=
  match a, b with Some x, _ => x | None, Some x => x | None, None => (other, O) end.

Definition output_short (e : Entry) (mode : OutputMode) (n_columns : nat) (flags : Z) : outcome Out :=
  let '(items, r) := e_data e (if has_flag flags (Z.lor OUTPUT_SHOW_ALL OUTPUT_FULL_WIDTH) then 0 else Z.of_nat (PRINT_CHAR_THRESHOLD + 1)) in
  if r <? 0 then Ok ([], r) else
  match collect items with
  | [priority; hostname; identifier; comm; pid; fake_pid; realtime; monotonic; message] =>
      match message with
      | None => Ok ([], 0)
      | Some message =>
          match (if has_flag flags OUTPUT_SHOW_ALL then Ok message else strip_tab_ansi message) with
          | Ok message =>
              let p := match priority with Some [c] => if (48 <=? c) && (c <=? 55) then c - 48 else LOG_INFO | _ => LOG_INFO end in
              match short_time e mode realtime monotonic with
              | inr er => Ok ([], - er)
              | inl time =>
                  let (host, n1) := either (short_part hostname flags [32] []) None [] in
                  let (ident, n2) := either (short_part identifier flags [32] []) (short_part comm flags [32] []) [32] in
                  let (id, n3) := either (short_part pid flags (txt "[") (txt "]")) (short_part fake_pid flags (txt "[") (txt "]")) [] in
                  let head := time ++ host ++ ident ++ id in
                  let n := ((match mode with OUTPUT_SHORT_MONOTONIC => 14 | _ => length time end) + n1 + n2 + n3)%nat in
                  if negb (has_flag flags OUTPUT_SHOW_ALL) && negb (utf8_is_printable (copied message))
                  then Ok (head ++ txt ": [" ++ format_bytes (Z.of_nat (length message)) ++ txt " blob data]" ++ [10], 0)
                  else
                    match print_multiline (n + 2) n_columns flags p message with
                    | Ok (t, ellipsized) => Ok (head ++ txt ": " ++ t, if ellipsized : bool then 1 else 0)
                    | Err er => Err er
                    | Crash => Crash
                    | NoFuel => NoFuel
                    end
              end
          | Err er => Err er
          | Crash => Crash
          | NoFuel => NoFuel
          end
      end
  | _ => Crash
  end.

(** * All fields *)

(** memchr for [=]: the name and the value. *)
Fixpoint split_field (s : list Z) : option (list Z * list Z) :=
  match s with
  | [] => None
  | c :: s => if c =? 61 then Some ([], s) else match split_field s with Some (a, b) => Some (c :: a, b) | None => None end
  end.

Definition verbose_realtime (e : Entry) : outcome (Z + Z) :=
  match e_get e 0 (txt "_SOURCE_REALTIME_TIMESTAMP") with
  | inr er => Ok (if er =? ENOENT then e_realtime e else inr er)
  | inl b =>
      match parse_field b (txt "_SOURCE_REALTIME_TIMESTAMP=") with
      | Some value => Ok (match safe_atou64 (cstring value) with inl t => inl t | inr _ => e_realtime e end)
      | None => Crash
      end
  end.

Fixpoint verbose_fields (items : list Buf) (flags : Z) : outcome Out :=
  match items with
  | [] => Ok ([], 0)
  | b :: items =>
      let data := b_data b in
      match split_field data with
      | None => Ok ([], - EINVAL)
      | Some (name, value) =>
          let '(on, off) :=
            if has_flag flags OUTPUT_COLOR && startswith (data ++ b_behind b) (txt "MESSAGE=") then (ANSI "[1;39m", ANSI "[0m") else ([], []) in
          match
            (if has_flag flags OUTPUT_SHOW_ALL
                || ((length data <? PRINT_CHAR_THRESHOLD)%nat || has_flag flags OUTPUT_FULL_WIDTH) && utf8_is_printable b
             then match print_multiline (4 + length name + 1) 0 OUTPUT_FULL_WIDTH 0 value with
                  | Ok (t, _) => Ok (txt "    " ++ on ++ format_s (length name) name ++ txt "=" ++ t ++ off)
                  | Err er => Err er
                  | Crash => Crash
                  | NoFuel => NoFuel
                  end
             else Ok (txt "    " ++ on ++ format_s (length name) name ++ txt "=[" ++ format_bytes (Z.of_nat (length value)) ++ txt " blob data]" ++ off ++ [10]))
          with
          | Ok t => match verbose_fields items flags with Ok (t', r) => Ok (t ++ t', r) | r => r end
          | Err er => Err er
          | Crash => Crash
          | NoFuel => NoFuel
          end
      end
  end.

Definition output_verbose (e : Entry) (flags : Z) : outcome Out :=
  match verbose_realtime e with
  | Err er => Err er
  | Crash => Crash
  | NoFuel => NoFuel
  | Ok (inr er) => Ok ([], - er)
  | Ok (inl realtime) =>
      match e_cursor e with
      | inr er => Ok ([], - er)
      | inl cursor =>
          let '(items, r) := e_data e 0 in
          match verbose_fields items flags with
          | Ok (t, r') => Ok (format_timestamp_us realtime ++ txt " [" ++ cursor ++ txt "]" ++ [10] ++ t, if r' <? 0 then r' else if r <? 0 then r else 0)
          | x => x
          end
      end
  end.

(** * Export *)

Definition is_boot_id (data : list Z) : bool := startswith data (txt "_BOOT_ID=").

Definition export_field (b : Buf) : list Z + Z :=
  if utf8_is_printable_buf b false then inl (b_data b ++ [10])
  else match split_field (b_data b) with
       | None => inr EINVAL
       | Some (name, value) => inl (name ++ [10] ++ le_bytes 8 (u64 (Z.of_nat (length value))) ++ value ++ [10])
       end.

Fixpoint export_fields (items : list Buf) : Out :=
  match items with
  | [] => ([], 0)
  | b :: items =>
      if is_boot_id (b_data b) then export_fields items
      else match export_field b with
           | inl t => let '(t', r) := export_fields items in (t ++ t', r)
           | inr er => ([], - er)
           end
  end.

(** The times, the boot and the cursor of the entry. *)
Definition entry_addresses (e : Entry) : (Z * Z * list Z * list Z) + Z :=
  match e_realtime e with
  | inr er => inr er
  | inl realtime =>
      match e_monotonic e with
      | inr er => inr er
      | inl (monotonic, boot_id) =>
          match e_cursor e with inr er => inr er | inl cursor => inl (realtime, monotonic, boot_id, cursor) end
      end
  end.

Definition output_export (e : Entry) : Out :=
  match entry_addresses e with
  | inr er => ([], - er)
  | inl (realtime, monotonic, boot_id, cursor) =>
      let head :=
        txt "__CURSOR=" ++ cursor ++ [10] ++ txt "__REALTIME_TIMESTAMP=" ++ format_u realtime ++ [10]
        ++ txt "__MONOTONIC_TIMESTAMP=" ++ format_u monotonic ++ [10] ++ txt "_BOOT_ID=" ++ uuid_to_str boot_id ++ [10] in
      let '(items, r) := e_data e 0 in
      let '(t, r') := export_fields items in
      if r' <? 0 then (head ++ t, r') else if r <? 0 then (head ++ t, r) else (head ++ t ++ [10], 0)
  end.

(** * JSON *)

(** "%u" of a byte; "%04x" of a char, which is signed. *)
Definition format_04x (c : Z) : list Z := pad 4 48 (format_llx (if c <? 128 then c else u32 (c - 256))).

Fixpoint json_numbers (not_first : bool) (p : list Z) : list Z :=
  match p with
  | [] => []
  | c :: p => (if not_first then txt ", " else []) ++ format_u c ++ json_numbers true p
  end.

Definition json_char (c : Z) : list Z :=
  if (c =? 34) || (c =? 92) then [92; c]
  else if c =? 10 then txt "\n"
  else if (c <? 32) || (128 <=? c) then txt "\u" ++ format_04x c
  else [c].

Definition json_escape (p : Buf) (flags : Z) : list Z :=
  if negb (has_flag flags OUTPUT_SHOW_ALL) && (JSON_THRESHOLD <=? length (b_data p))%nat then txt "null"
  else if negb (utf8_is_printable p) then txt "[ " ++ json_numbers false (b_data p) ++ txt " ]"
  else [34] ++ flat_map json_char (b_data p) ++ [34].

(** The fields that have not been written, with the number of times they appear. *)
Fixpoint count_of (name : list Z) (h : list (list Z * Z)) : Z :=
  match h with
  | [] => 0
  | (k, u) :: h => if bool_decide (k = name) then u else count_of name h
  end.

Fixpoint count_set (name : list Z) (u : Z) (h : list (list Z * Z)) : list (list Z * Z) :=
  match h with
  | [] => [(name, u)]
  | (k, x) :: h => if bool_decide (k = name) then (k, u) :: h else (k, x) :: count_set name u h
  end.

Definition count_remove (name : list Z) (h : list (list Z * Z)) : list (list Z * Z) := filter (fun e => e.1 <> name) h.

Fixpoint json_count (items : list Buf) (h : list (list Z * Z)) : list (list Z * Z) :=
  match items with
  | [] => h
  | b :: items =>
      if is_boot_id (b_data b) then json_count items h else
      match split_field (b_data b) with
      | None => json_count items h
      | Some (name, _) => let n := cstring name in json_count items (count_set n (u32 (count_of n h + 1)) h)
      end
  end.

(** The value of an item with the same name; what is behind it stays behind it. *)
Definition value_of (b : Buf) (m : nat) : Buf := mkBuf (drop (m + 1) (b_data b)) (b_behind b).

Definition same_name (name : list Z) (b : Buf) : bool :=
  let m := length name in
  negb (length (b_data b) <? m + 1)%nat && bool_decide (take m (b_data b) = name) && (chr (drop m (b_data b)) =? 61).

Fixpoint json_more (name : list Z) (items : list Buf) (flags : Z) : list Z :=
  match items with
  | [] => []
  | b :: items =>
      (if same_name name b then txt ", " ++ json_escape (value_of b (length name)) flags else []) ++ json_more name items flags
  end.

Definition name_of (b : Buf) (m : nat) : Buf := mkBuf (take m (b_data b)) (drop m (b_data b) ++ b_behind b).

(** One pass over the items; [done]: it went through to the end. *)
Fixpoint json_pass (pretty : bool) (items : list Buf) (flags : Z) (h : list (list Z * Z)) (separator : bool)
    : list Z * list (list Z * Z) * bool * bool :=
  match items with
  | [] => ([], h, separator, true)
  | b :: items =>
      if is_boot_id (b_data b) then json_pass pretty items flags h separator else
      match split_field (b_data b) with
      | None => json_pass pretty items flags h separator
      | Some (name, _) =>
          let m := length name in
          let n := cstring name in
          let sep := if separator then if pretty then txt "," ++ [10; 9] else txt ", " else [] in
          let u := count_of n h in
          if u =? 0 then
            let '(t, h, s, d) := json_pass pretty items flags h false in (sep ++ t, h, s, d)
          else if u =? 1 then
            let '(t, h, s, d) := json_pass pretty items flags (count_remove n h) true in
            (sep ++ json_escape (name_of b m) flags ++ txt " : " ++ json_escape (value_of b m) flags ++ t, h, s, d)
          else
            (sep ++ json_escape (name_of b m) flags ++ txt " : [ " ++ json_escape (value_of b m) flags ++ json_more name items flags ++ txt " ]",
             count_remove n h, true, false)
      end
  end.

Fixpoint json_passes (n : nat) (pretty : bool) (items : list Buf) (flags : Z) (h : list (list Z * Z)) (separator : bool)
    : outcome (list Z) :=
  match n with
  | O => NoFuel
  | S n =>
      let '(t, h, separator, fin) := json_pass pretty items flags h separator in
      if fin : bool then Ok t
      else match json_passes n pretty items flags h separator with Ok t' => Ok (t ++ t') | r => r end
  end.

Definition quoted (s : list Z) : list Z := [34] ++ s ++ [34].

Definition output_json (e : Entry) (mode : OutputMode) (flags : Z) : outcome Out :=
  match entry_addresses e with
  | inr er => Ok ([], - er)
  | inl (realtime, monotonic, boot_id, cursor) =>
      let pretty := match mode with OUTPUT_JSON_PRETTY => true | _ => false end in
      let item name value := quoted name ++ txt " : " ++ quoted value in
      let sep := if pretty then txt "," ++ [10; 9] else txt ", " in
      let head :=
        (match mode with OUTPUT_JSON_PRETTY => txt "{" ++ [10; 9] | OUTPUT_JSON_SSE => txt "data: { " | _ => txt "{ " end)
        ++ item (txt "__CURSOR") cursor ++ sep ++ item (txt "__REALTIME_TIMESTAMP") (format_u realtime) ++ sep
        ++ item (txt "__MONOTONIC_TIMESTAMP") (format_u monotonic) ++ sep ++ item (txt "_BOOT_ID") (uuid_to_str boot_id) in
      let '(items, r) := e_data e (if has_flag flags OUTPUT_SHOW_ALL then 0 else Z.of_nat JSON_THRESHOLD) in
      if r <? 0 then Ok (head, r) else
      match json_passes (S (length items)) pretty items flags (json_count items []) true with
      | Ok t =>
          Ok (head ++ t ++ (match mode with
                            | OUTPUT_JSON_PRETTY => [10] ++ txt "}" ++ [10]
                            | OUTPUT_JSON_SSE => txt "}" ++ [10; 10]
                            | _ => txt " }" ++ [10]
                            end), 0)
      | Err er => Err er
      | Crash => Crash
      | NoFuel => NoFuel
      end
  end.

(** * The message only *)

Definition output_cat (e : Entry) : outcome Out :=
  match e_get e 0 (txt "MESSAGE") with
  | inr er => Ok ([], if er =? ENOENT then 0 else - er)
  | inl b => if (length (b_data b) <? 8)%nat then Crash else Ok (drop 8 (b_data b) ++ [10], 0)
  end.

(** The text, what is returned, and whether something was shortened. *)
Definition output_journal (e : Entry) (mode : OutputMode) (n_columns : nat) (flags : Z) : outcome (Out * bool) :=
  let n_columns := if (n_columns =? 0)%nat then columns else n_columns in
  match
    (match mode with
     | OUTPUT_SHORT | OUTPUT_SHORT_ISO | OUTPUT_SHORT_PRECISE | OUTPUT_SHORT_MONOTONIC => output_short e mode n_columns flags
     | OUTPUT_VERBOSE => output_verbose e flags
     | OUTPUT_EXPORT => Ok (output_export e)
     | OUTPUT_JSON | OUTPUT_JSON_PRETTY | OUTPUT_JSON_SSE => output_json e mode flags
     | OUTPUT_CAT => output_cat e
     end)
  with
  | Ok x => Ok (x, 0 <? x.2)
  | Err er => Err er
  | Crash => Crash
  | NoFuel => NoFuel
  end.
End output.
