(* ===== verification/OutputSpec.v ===== *)
(** What is exported and what is serialised as JSON can be read back, and what becomes of
    colours and tabs. *)
From S2P Require Import Prelude CString Memory Split Utf8 Uuid Numbers JournalDef Cursor Match Daemon Native Syslog.
From S2P Require Import TimeUtil Server SdData Output.

(** * The export format *)

(** The reader of the format: lines of text with [=], or a line with the name of a field
    that is followed by the length of its value in 8 bytes, the value and a newline; an
    empty line ends the entry.  The fields, and what follows the entry. *)
Fixpoint read_export (n : nat) (s : list Z) : option (list (list Z * list Z) * list Z) :=
  match n with
  | O => None
  | S n =>
      let len := strcspn s [10] in
      let line := take len s in
      let s := drop (len + 1) s in
      match line with
      | [] => Some ([], s)
      | _ =>
          let '(field, s) :=
            match split_field line with
            | Some field => (field, s)
            | None => let size := Z.to_nat (le_val (take 8 s)) in ((line, take size (drop 8 s)), drop (8 + size + 1) s)
            end in
          match read_export n s with Some (fields, s) => Some (field :: fields, s) | None => None end
      end
  end.

(** A field of an entry; behind it there may be anything. *)
Definition item (x : list Z * list Z * list Z) : Buf := let '(name, value, behind) := x in mkBuf (name ++ 61 :: value) behind.

Definition item_ok (x : list Z * list Z * list Z) : Prop :=
  let '(name, value, behind) := x in
  name <> [] /\ Forall (fun c => field_char c = true) name /\ bytes_ok value /\ bytes_ok behind /\ Z.of_nat (length (name ++ 61 :: value)) < 2 ^ 64.

Lemma field_char_plain c : field_char c = true -> 48 <= c <= 122 /\ c <> 61 /\ c <> 58 /\ c <> 92.
Proof.
  unfold field_char, is_upper, is_digit. intros H. apply orb_true_iff in H as [H|H]; bprop; [|lia]. apply orb_true_iff in H as [H|H]; bprop; lia.
Qed.

Lemma split_field_ok name value : Forall (fun c => c <> 61) name -> split_field (name ++ 61 :: value) = Some (name, value).
Proof.
  induction 1 as [|c name Hc _ IH]; [done|]. cbn [app split_field]. rewrite (proj2 (Z.eqb_neq c 61)) by done. by rewrite IH.
Qed.

Lemma split_field_none name : Forall (fun c => c <> 61) name -> split_field name = None.
Proof. induction 1 as [|c name Hc _ IH]; [done|]. cbn [split_field]. rewrite (proj2 (Z.eqb_neq c 61)) by done. by rewrite IH. Qed.

Lemma field_no_equals name : Forall (fun c => field_char c = true) name -> Forall (fun c => c <> 61) name.
Proof. intros H. eapply Forall_impl; [exact H|]. intros c Hc%field_char_plain. tauto. Qed.

Lemma field_no_newline name : Forall (fun c => field_char c = true) name -> Forall (fun c => c <> 10) name.
Proof. intros H. eapply Forall_impl; [exact H|]. intros c Hc%field_char_plain. lia. Qed.

Lemma is_boot_id_iff name value : Forall (fun c => c <> 61) name -> is_boot_id (name ++ 61 :: value) = bool_decide (name = txt "_BOOT_ID").
Proof.
  intros Hn. unfold is_boot_id, startswith. change (txt "_BOOT_ID=") with (txt "_BOOT_ID" ++ [61]). rewrite length_app. cbn [length].
  apply bool_decide_ext. split; [|intros ->; reflexivity].
  intros H. assert (name ++ 61 :: value = txt "_BOOT_ID" ++ 61 :: drop 9 (name ++ 61 :: value)) as E.
  { rewrite <- (take_drop 9 (name ++ 61 :: value)) at 1. by rewrite (H : take 9 _ = _), <- app_assoc. }
  pose proof (split_field_ok name value Hn) as H1. rewrite E, split_field_ok in H1; [by injection H1|by repeat constructor].
Qed.

(** ** Printable text has no newlines *)

Lemma high_not_newline n s : all_high n s = true -> Forall (fun c => c <> 10) (take n s).
Proof.
  revert s. induction n as [|n IH]; intros s H; [constructor|]. cbn [all_high] in H. apply andb_true_iff in H as [Hc H].
  destruct s as [|c s]; [constructor|]. cbn [take]. constructor; [|by apply IH]. intros ->. done.
Qed.

Lemma errno_negative : ~ 0 <= - Utf8.EINVAL.
Proof. intros H. by apply H. Qed.

Lemma printable_step s : let l := utf8_encoded_valid_unichar s in 0 <= l ->
  1 <= l /\ (l = 1 -> utf8_encoded_to_unichar s = chr s /\ chr s < 128) /\ (1 < l -> Forall (fun c => c <> 10) (take (Z.to_nat l) s)).
Proof.
  unfold utf8_encoded_valid_unichar. set (len := utf8_encoded_expected_len s).
  assert (len = 0 \/ 1 <= len) as Hlen.
  { unfold len, utf8_encoded_expected_len. repeat match goal with |- context [if ?b then _ else _] => destruct b end; lia. }
  destruct (Z.eqb_spec len 0); [by intros ?%errno_negative|]. destruct (Z.eqb_spec len 1) as [E|]; [intros _; split; [lia|]; split; [|lia]|].
  - intros _. split.
    + unfold utf8_encoded_to_unichar. fold len. rewrite E. done.
    + unfold len, utf8_encoded_expected_len in E. destruct (Z.ltb_spec (chr s) 128); [done|].
      repeat match type of E with context [if ?b then _ else _] => destruct b end; lia.
  - destruct (all_high (Z.to_nat len) s) eqn:Eh; [|by intros ?%errno_negative]. cbn [negb].
    repeat match goal with |- context [if ?b then _ else _] => destruct b end; try by intros ?%errno_negative.
    intros _. split; [lia|]. split; [lia|]. intros _. by apply high_not_newline.
Qed.

Lemma printable_no_newline fuel : forall d b, Z.of_nat (length d) < 2 ^ 64 ->
  utf8_is_printable_newline fuel (d ++ b) (Z.of_nat (length d)) false = Some true -> Forall (fun c => c <> 10) d.
Proof.
  induction fuel as [|fuel IH]; intros d b Hd H; cbn [utf8_is_printable_newline] in H; destruct (Z.eqb_spec (Z.of_nat (length d)) 0) as [E|E];
    try (destruct d; [constructor|cbn in E; lia]); try done.
  pose proof (printable_step (d ++ b)) as Hs. cbv zeta in Hs. set (l := utf8_encoded_valid_unichar (d ++ b)) in *.
  destruct (Z.ltb_spec l 0); [done|]. destruct (Hs ltac:(lia)) as (H1 & Hone & Hmany). cbn [orb negb andb] in H.
  destruct (utf8_encoded_to_unichar (d ++ b) <? 0); [done|]. destruct (is_unicode_control _); [done|].
  destruct (Z.eqb_spec (utf8_encoded_to_unichar (d ++ b)) 10) as [|Hne]; [done|]. cbn [orb] in H.
  rewrite <- (take_drop (Z.to_nat l) d). apply Forall_app. assert (Forall (fun c => c <> 10) (take (Z.to_nat l) d)) as Hfront.
  { destruct (Z.eq_dec l 1) as [E1|E1].
    - destruct d as [|c d]; [done|]. rewrite E1. change (Z.to_nat 1) with 1%nat. destruct (Hone E1) as [Hv _]. repeat constructor. by rewrite Hv in Hne.
    - specialize (Hmany ltac:(lia)). rewrite take_app in Hmany. by apply Forall_app in Hmany as [? _]. }
  split; [done|]. destruct (le_lt_dec (length d) (Z.to_nat l)) as [Hle|Hlt]; [rewrite drop_ge by done; constructor|].
  apply (IH _ b); [rewrite length_drop; lia|]. rewrite drop_app_le in H by lia.
  rewrite u64_small in H by (unfold is_u64; lia). rewrite length_drop. by replace (Z.of_nat (length d - Z.to_nat l)) with (Z.of_nat (length d) - l) by lia.
Qed.

(** ** Reading it back *)

Lemma read_line n line s : line <> [] -> Forall (fun c => c <> 10) line ->
  read_export (S n) (line ++ 10 :: s) =
  let '(field, s) :=
    match split_field line with
    | Some field => (field, s)
    | None => let size := Z.to_nat (le_val (take 8 s)) in ((line, take size (drop 8 s)), drop (8 + size + 1) s)
    end in
  match read_export n s with Some (fields, s) => Some (field :: fields, s) | None => None end.
Proof.
  intros Hne Hl. cbn [read_export].
  assert (strcspn (line ++ 10 :: s) [10] = length line) as ->.
  { apply strcspn_app; [|done]. eapply Forall_impl; [exact Hl|]. intros c Hc. unfold is_in. cbn. by rewrite (proj2 (Z.eqb_neq c 10)). }
  rewrite take_app_length. replace (drop (length line + 1) (line ++ 10 :: s)) with s by (by rewrite drop_app, drop_ge, Nat.add_sub' by lia).
  destruct line; [done|]. done.
Qed.

Lemma read_text n name value s : name <> [] -> Forall (fun c => c <> 61) name -> Forall (fun c => c <> 10) (name ++ 61 :: value) ->
  read_export (S n) ((name ++ 61 :: value) ++ 10 :: s) =
  match read_export n s with Some (fields, s) => Some ((name, value) :: fields, s) | None => None end.
Proof. intros Hne Hn Hl. rewrite read_line by (done || by destruct name). by rewrite split_field_ok. Qed.

Lemma read_field n x t s : item_ok x -> export_field (item x) = inl t ->
  read_export (S n) (t ++ s) = match read_export n s with Some (fields, s) => Some (x.1 :: fields, s) | None => None end.
Proof.
  destruct x as [[name value] behind]. intros (Hne & Hn & Hv & Hb & Hlen). unfold export_field, item. cbn [b_data b_behind fst].
  pose proof (field_no_equals _ Hn) as Heq. rewrite split_field_ok by done. destruct (utf8_is_printable_buf _ false) eqn:Ep; intros <-%(inj inl).
  - rewrite <- (app_assoc _ [10]). apply read_text; [done|done|]. unfold utf8_is_printable_buf in Ep. cbn [b_data b_behind] in Ep.
    destruct (utf8_is_printable_newline _ _ _ false) as [[]|] eqn:E; [|done..]. eapply printable_no_newline; [exact Hlen|exact E].
  - rewrite <- !app_assoc.
    match goal with |- read_export _ ?l = _ => change l with (name ++ 10 :: (le_bytes 8 (u64 (Z.of_nat (length value))) ++ value ++ 10 :: s)) end.
    rewrite read_line by (done || by apply field_no_newline). rewrite split_field_none by done.
    set (size := Z.of_nat (length value)). assert (0 <= size < 2 ^ 64) as Hsz.
    { unfold size. rewrite length_app in Hlen. cbn [length] in Hlen. lia. }
    assert (forall r, take 8 (le_bytes 8 (u64 size) ++ r) = le_bytes 8 (u64 size)) as Ht by (intros r; by rewrite take_app_le, take_ge by (rewrite le_bytes_length; lia)).
    assert (forall r, drop 8 (le_bytes 8 (u64 size) ++ r) = r) as Hd by (intros r; rewrite drop_app_ge by (by rewrite le_bytes_length); by rewrite le_bytes_length).
    rewrite Ht, le_val_bytes. rewrite u64_small by (unfold is_u64; lia). rewrite Z.mod_small by (change (256 ^ Z.of_nat 8) with (2 ^ 64); lia).
    unfold size. rewrite Nat2Z.id. rewrite <- Nat.add_assoc, <- drop_drop. fold size.
    rewrite u64_small in Hd by (unfold is_u64; lia). rewrite Hd, take_app_length.
    rewrite <- drop_drop, drop_app_length. done.
Qed.

Lemma export_field_runs x : item_ok x -> exists t, export_field (item x) = inl t.
Proof.
  destruct x as [[name value] behind]. intros (_ & Hn & _). unfold export_field, item. cbn [b_data]. rewrite split_field_ok by (by apply field_no_equals).
  destruct (utf8_is_printable_buf _ false); by eexists.
Qed.

Lemma export_fields_ok xs : Forall item_ok xs ->
  exists t, export_fields (map item xs) = (t, 0)
    /\ forall n s fields s', read_export n s = Some (fields, s') ->
       exists k, read_export (k + n) (t ++ s) = Some (filter (fun f => f.1 <> txt "_BOOT_ID") (map fst xs) ++ fields, s')
         /\ (k <= length xs)%nat.
Proof.
  induction 1 as [|x xs Hx _ (t & IH & Hread)].
  { exists []. split; [done|]. intros n s fields s' H. exists 0%nat. by split. }
  cbn [map export_fields]. pose proof Hx as Hx'. destruct x as [[name value] behind]. destruct Hx' as (_ & Hn & _).
  change (b_data (item (name, value, behind))) with (name ++ 61 :: value). rewrite is_boot_id_iff by (by apply field_no_equals). cbn [map fst].
  rewrite filter_cons. cbn [fst]. destruct (bool_decide_reflect (name = txt "_BOOT_ID")) as [Heq|Hne].
  - exists t. split; [done|]. intros n s fields s' H. destruct (Hread n s fields s' H) as (k & Hk & Hl). exists k.
    rewrite decide_False by tauto. split; [done|]. cbn. lia.
  - destruct (export_field_runs _ Hx) as (t1 & E1). rewrite E1, IH. exists (t1 ++ t). split; [done|]. intros n s fields s' H.
    destruct (Hread n s fields s' H) as (k & Hk & Hl). exists (S k). rewrite decide_True by done. cbn [Nat.add]. rewrite <- app_assoc.
    rewrite (read_field _ _ _ _ Hx E1), Hk. split; [done|]. cbn. lia.
Qed.

Lemma read_export_more n : forall m s r, (n <= m)%nat -> read_export n s = Some r -> read_export m s = Some r.
Proof.
  induction n as [|n IH]; intros m s r Hm H; [done|]. destruct m as [|m]; [lia|]. cbn [read_export] in *.
  destruct (take _ s); [done|]. destruct (match split_field _ with Some _ => _ | None => _ end) as [field s'].
  destruct (read_export n s') as [[fields s'']|] eqn:E; [|done]. by rewrite (IH m s' _ ltac:(lia) E).
Qed.

(** What needs no escaping. *)
Definition quiet (c : Z) : Prop := c <> 10 /\ c <> 34 /\ c <> 92 /\ 32 <= c < 127.

#[export] Instance quiet_dec c : Decision (quiet c).
Proof. unfold quiet. apply _. Defined.

Lemma digits_quiet v : is_u64 v -> Forall quiet (format_u v).
Proof.
  intros Hv. unfold is_u64 in Hv. destruct (decimal_ok 20 v) as (H & _); [simpl; lia|]. rewrite forallb_forall in H.
  apply Forall_forall. intros c Hc%list_elem_of_In%H. unfold is_digit in Hc. bprop. unfold quiet. lia.
Qed.

Lemma hex_quiet k : (k < 16)%nat -> quiet (nth k hex_table 0).
Proof. intros Hk. unfold quiet. do 16 (destruct k as [|k]; [cbn; lia|]). lia. Qed.

Lemma uuid_quiet id : Forall quiet (uuid_to_str id).
Proof.
  unfold uuid_to_str. induction id as [|b id IH]; [constructor|]. cbn [flat_map]. apply Forall_app. split; [|exact IH].
  assert (forall x, (Z.to_nat (Z.land x 15) < 16)%nat) as Hk.
  { intros x. change 15 with (Z.ones 4). rewrite Z.land_ones by lia. pose proof (Z.mod_pos_bound x (2 ^ 4)). lia. }
  repeat constructor; by apply hex_quiet.
Qed.

Lemma read_head n (name : String.string) value s : Forall (fun c => field_char c = true) (txt name) -> txt name <> [] -> Forall quiet value ->
  read_export (S n) (txt name ++ 61 :: value ++ 10 :: s) =
  match read_export n s with Some (fields, s) => Some ((txt name, value) :: fields, s) | None => None end.
Proof.
  intros Hn Hne Hv. change (61 :: value ++ 10 :: s) with ((61 :: value) ++ 10 :: s). rewrite app_assoc.
  apply read_text; [done|by apply field_no_equals|]. apply Forall_app. split; [by apply field_no_newline|]. constructor; [done|].
  eapply Forall_impl; [exact Hv|]. by intros c [? _].
Qed.

Ltac all_field := repeat (constructor; [reflexivity|]); constructor.

(** C39 An exported entry can be read back by its format: its cursor, its times, its boot
    and all other fields, whatever bytes their values hold and whatever is behind them
    in memory, and what follows the entry is left. *)
Theorem output_export_round_trip e realtime monotonic boot_id cursor xs :
  entry_addresses e = inl (realtime, monotonic, boot_id, cursor) -> e_data e 0 = (map item xs, 0) ->
  is_u64 realtime -> is_u64 monotonic -> Forall quiet cursor -> Forall item_ok xs ->
  exists text, output_export e = (text, 0) /\ forall n rest, (length xs + 5 <= n)%nat ->
    read_export n (text ++ rest) =
    Some ([(txt "__CURSOR", cursor); (txt "__REALTIME_TIMESTAMP", format_u realtime); (txt "__MONOTONIC_TIMESTAMP", format_u monotonic);
           (txt "_BOOT_ID", uuid_to_str boot_id)] ++ filter (fun f => f.1 <> txt "_BOOT_ID") (map fst xs), rest).
Proof.
  intros Ha He Hr Hm Hc Hxs. unfold output_export. rewrite Ha, He. destruct (export_fields_ok xs Hxs) as (t & -> & Hread).
  cbn [Z.ltb Z.compare]. eexists. split; [reflexivity|]. intros n rest Hn.
  destruct (Hread 1%nat (10 :: rest) [] rest eq_refl) as (k & Hk & Hl). apply (read_export_more (4 + (k + 1))); [lia|].
  match goal with |- read_export _ ?l = _ => replace l with
    (txt "__CURSOR" ++ 61 :: cursor ++ 10 :: txt "__REALTIME_TIMESTAMP" ++ 61 :: format_u realtime ++ 10 ::
     txt "__MONOTONIC_TIMESTAMP" ++ 61 :: format_u monotonic ++ 10 :: txt "_BOOT_ID" ++ 61 :: uuid_to_str boot_id ++ 10 :: t ++ 10 :: rest)
    by (rewrite <- !app_assoc; reflexivity) end.
  change (4 + (k + 1))%nat with (S (S (S (S (k + 1))))).
  rewrite !read_head by (done || all_field || by apply digits_quiet || apply uuid_quiet). rewrite Hk, app_nil_r. done.
Qed.

(** An entry with a text and a value of any bytes. *)
Definition sample_fields : list (list Z * list Z * list Z) :=
  [(txt "MESSAGE", txt "hello", [0; 7]); (txt "_BOOT_ID", txt "0", []); (txt "BLOB", [10; 61; 200; 0], [255])].

Definition sample_entry : Entry :=
  mkEntry (inl 5) (inl (7, repeat 171 16)) (inl (txt "s=1;i=2")) (fun _ => (map item sample_fields, 0)) (fun _ _ => inr ENOENT).

Lemma bytes_fields : Forall item_ok sample_fields.
Proof.
  repeat constructor; cbn; try done; unfold is_u8; try lia.
Qed.

Lemma output_export_witness : exists text, output_export sample_entry = (text, 0) /\
  read_export 8 (text ++ txt "next") =
  Some ([(txt "__CURSOR", txt "s=1;i=2"); (txt "__REALTIME_TIMESTAMP", txt "5"); (txt "__MONOTONIC_TIMESTAMP", txt "7");
         (txt "_BOOT_ID", txt "abababababababababababababababab"); (txt "MESSAGE", txt "hello"); (txt "BLOB", [10; 61; 200; 0])], txt "next").
Proof.
  destruct (output_export_round_trip sample_entry 5 7 (repeat 171 16) (txt "s=1;i=2") sample_fields) as (t & H1 & H2).
  - reflexivity.
  - reflexivity.
  - unfold is_u64; lia.
  - unfold is_u64; lia.
  - apply (bool_decide_unpack _). vm_compute. exact I.
  - exact bytes_fields.
  - exists t. split; [exact H1|]. rewrite H2 by (cbn; lia). vm_compute. reflexivity.
Defined.

(** * Colours and tabs *)

(** A message is made of characters, tabs and colour sequences. *)
Inductive token := TChar (c : Z) | TTab | TColor (parameters : list Z).

Definition token_ok (t : token) : Prop :=
  match t with
  | TChar c => c <> 27 /\ c <> 9
  | TTab => True
  | TColor ps => Forall (fun c => is_digit c = true \/ c = 59) ps
  end.

Definition written (t : token) : list Z := match t with TChar c => [c] | TTab => [9] | TColor ps => 27 :: 91 :: ps ++ [109] end.
Definition shown (t : token) : list Z := match t with TChar c => [c] | TTab => replicate 8 32 | TColor _ => [] end.

Lemma strip_color ps : Forall (fun c => is_digit c = true \/ c = 59) ps -> forall n b s,
  strip_loop (length ps + 1 + n) (STATE_BRACKET b) (ps ++ 109 :: s) = strip_loop n STATE_OTHER s.
Proof.
  induction 1 as [|c ps Hc _ IH]; intros n b s; [done|]. cbn [length Nat.add app strip_loop].
  destruct Hc as [Hd| ->]; [|by apply IH]. rewrite Hd. cbn [negb andb]. unfold is_digit in Hd. bprop.
  rewrite (proj2 (Z.eqb_neq c 109)) by lia. by apply IH.
Qed.

(** strip_tab_ansi removes the colour sequences of a message, replaces each tab by eight
    spaces and keeps everything else. *)
Theorem strip_tab_ansi_correct ts : Forall token_ok ts -> strip_tab_ansi (flat_map written ts) = Ok (flat_map shown ts).
Proof.
  intros Hts. unfold strip_tab_ansi. set (N := (_ * _)%nat). assert (length (flat_map written ts) < N)%nat as Hn by (unfold N; lia).
  clearbody N. revert N Hn. induction Hts as [|t ts Ht _ IH]; intros n Hn; (destruct n as [|n]; [lia|]); [done|].
  destruct t as [c| |ps]; cbn [flat_map written shown app] in *.
  - destruct Ht as [H1 H2]. cbn [strip_loop length] in *. rewrite (proj2 (Z.eqb_neq c 27)), (proj2 (Z.eqb_neq c 9)) by done. by rewrite IH by lia.
  - cbn [strip_loop length] in *. rewrite IH by lia. done.
  - rewrite <- app_assoc in *. cbn [app length] in *. rewrite length_app in Hn. cbn [length] in Hn.
    destruct n as [|n]; [lia|]. cbn [strip_loop Z.eqb Pos.eqb].
    replace n with (length ps + 1 + (n - length ps - 1))%nat by lia. rewrite strip_color by done. apply IH. lia.
Qed.

(** Whatever the message holds, the backtracking ends. *)
Lemma strip_loop_ends len : forall i n, (length i <= len)%nat -> (S len * S len <= n)%nat -> exists t, strip_loop n STATE_OTHER i = Ok t.
Proof.
  induction len as [len IH] using lt_wf_ind. intros i n Hi Hn. destruct n as [|n]; [lia|].
  destruct i as [|c i]; [by exists []|]. cbn [length] in Hi. destruct len as [|len]; [lia|].
  destruct (IH len ltac:(lia) i n ltac:(lia) ltac:(lia)) as (t & E). cbn [strip_loop].
  destruct (c =? 27); [|destruct (c =? 9); rewrite E; by eexists].
  destruct n as [|n]; [lia|]. destruct i as [|c' i]; [by exists [27]|]. cbn [strip_loop length] in *.
  destruct (c' =? 91); [|destruct (IH len ltac:(lia) i n ltac:(lia) ltac:(lia)) as (t' & ->); by eexists].
  assert (forall b m, (length b <= length i)%nat -> (length b + 1 + S len * S len <= m)%nat -> exists t, strip_loop m (STATE_BRACKET i) b = Ok t) as Hb.
  { induction b as [|x b IHb]; intros m Hl Hm; (destruct m as [|m]; [lia|]); cbn [strip_loop length] in *;
      destruct (IH len ltac:(lia) i m ltac:(lia) ltac:(lia)) as (t1 & E1); [rewrite E1; by eexists|].
    destruct (negb (is_digit x) && _ && _); [rewrite E1; by eexists|]. destruct (x =? 109).
    - destruct (IH len ltac:(lia) b m ltac:(lia) ltac:(lia)) as (t2 & E2). rewrite E2. by eexists.
    - apply IHb; lia. }
  apply Hb; lia.
Qed.

Lemma strip_tab_ansi_ends s : exists t, strip_tab_ansi s = Ok t.
Proof. by apply (strip_loop_ends (length s)). Qed.

(** A line that is not ASCII and is shortened has no terminator when a newline follows
    it: printing it reads behind the block. *)
Lemma shortened_line_unterminated :
  print_multiline 0 8 0 LOG_INFO (concat (replicate 10 [195; 169]) ++ [10; 120]) = Crash.
Proof. vm_compute. reflexivity. Qed.


(** * A reader of JSON *)

(** The characters of a string up to its closing quote; only escapes of single bytes are
    needed. *)
Fixpoint json_chars (s : list Z) : option (list Z * list Z) :=
  let cons c r := match r with Some (t, s) => Some (c :: t, s) | None => None end in
  match s with
  | [] => None
  | 34 :: s => Some ([], s)
  | 92 :: 34 :: s => cons 34 (json_chars s)
  | 92 :: 92 :: s => cons 92 (json_chars s)
  | 92 :: 110 :: s => cons 10 (json_chars s)
  | 92 :: 117 :: a :: b :: c :: d :: s =>
      match hex_digit a, hex_digit b, hex_digit c, hex_digit d with
      | Some a, Some b, Some c, Some d =>
          let v := ((a * 16 + b) * 16 + c) * 16 + d in if v <? 128 then cons v (json_chars s) else None
      | _, _, _, _ => None
      end
  | 92 :: _ => None
  | c :: s => if c <? 32 then None else cons c (json_chars s)
  end.

Fixpoint read_number (s : list Z) (v : Z) : Z * list Z :=
  match s with
  | c :: s' => if is_digit c then read_number s' (v * 10 + (c - 48)) else (v, s)
  | [] => (v, [])
  end.

Definition json_space (c : Z) : Prop := c = 32 \/ c = 9 \/ c = 10 \/ c = 13.

Fixpoint skip (s : list Z) : list Z :=
  match s with
  | c :: s' => if (c =? 32) || (c =? 9) || (c =? 10) || (c =? 13) then skip s' else s
  | [] => []
  end.

(** An array of numbers, after its first bracket. *)
Fixpoint json_array (n : nat) (s : list Z) : option (list Z * list Z) :=
  match n with
  | O => None
  | S n =>
      let s := skip s in
      if negb (is_digit (chr s)) then None else
      let '(v, s) := read_number s 0 in
      match skip s with
      | 44 :: s => match json_array n s with Some (l, s) => Some (v :: l, s) | None => None end
      | 93 :: s => Some ([v], s)
      | _ => None
      end
  end.

(** A value: the bytes of a string, or of an array of numbers; [None] for null. *)
Definition json_value (s : list Z) : option (option (list Z) * list Z) :=
  match skip s with
  | 34 :: s => match json_chars s with Some (t, s) => Some (Some t, s) | None => None end
  | 91 :: s => match json_array (S (length s)) s with Some (t, s) => Some (Some t, s) | None => None end
  | 110 :: 117 :: 108 :: 108 :: s => Some (None, s)
  | _ => None
  end.

(** A member of an object, whose name is a string. *)
Definition json_member (s : list Z) : option (list Z * option (list Z) * list Z) :=
  match skip s with
  | 34 :: s =>
      match json_chars s with
      | Some (name, s) =>
          match skip s with
          | 58 :: s => match json_value s with Some (value, s) => Some (name, value, s) | None => None end
          | _ => None
          end
      | None => None
      end
  | _ => None
  end.

Fixpoint json_members (n : nat) (s : list Z) : option (list (list Z * option (list Z)) * list Z) :=
  match n with
  | O => None
  | S n =>
      match json_member s with
      | Some (name, value, s) =>
          match skip s with
          | 44 :: s => match json_members n s with Some (l, s) => Some ((name, value) :: l, s) | None => None end
          | 125 :: s => Some ([(name, value)], s)
          | _ => None
          end
      | None => None
      end
  end.

(** The members of an object, and what follows it. *)
Definition json_object (n : nat) (s : list Z) : option (list (list Z * option (list Z)) * list Z) :=
  match skip s with 123 :: s => json_members n s | _ => None end.

(** * Values *)

Lemma read_number_ok d : forallb is_digit d = true -> forall v s, is_digit (chr s) = false -> read_number (d ++ s) v = (digits_from v d, s).
Proof.
  induction d as [|c d IH]; cbn [forallb app]; intros Hd v s Hs.
  - destruct s as [|c s]; [done|]. cbn [read_number]. cbn in Hs. by rewrite Hs.
  - apply andb_true_iff in Hd as [Hc Hd]. cbn [read_number]. rewrite Hc. by apply IH.
Qed.

Lemma read_byte c s : is_u8 c -> is_digit (chr s) = false -> read_number (format_u c ++ s) 0 = (c, s).
Proof.
  intros Hc Hs. unfold is_u8 in Hc. destruct (decimal_ok 20 c) as (H1 & H2 & _); [simpl; lia|]. unfold format_u. by rewrite read_number_ok, H2.
Qed.

Lemma skip_spaces_json w s : Forall json_space w -> skip (w ++ s) = skip s.
Proof. induction 1 as [|c w Hc _ IH]; [done|]. cbn [app skip]. rewrite IH. by destruct Hc as [->|[->|[->| ->]]]. Qed.

Lemma skip_digit c s : is_digit c = true -> skip (c :: s) = c :: s.
Proof. intros H. unfold is_digit in H. bprop. cbn [skip]. by rewrite !(proj2 (Z.eqb_neq c _)) by lia. Qed.

Lemma format_u_head c : is_u8 c -> exists d ds, format_u c = d :: ds /\ is_digit d = true.
Proof.
  intros Hc. unfold is_u8 in Hc. destruct (decimal_ok 20 c) as (H & _); [simpl; lia|]. pose proof (decimal_ne c). unfold format_u.
  destruct (decimal 20 c) as [|d ds]; [done|]. cbn [forallb] in H. apply andb_true_iff in H as [H _]. by exists d, ds.
Qed.

Lemma array_number n c s : is_u8 c -> is_digit (chr s) = false ->
  json_array (S n) (format_u c ++ s) =
  match skip s with
  | 44 :: s => match json_array n s with Some (l, s) => Some (c :: l, s) | None => None end
  | 93 :: s => Some ([c], s)
  | _ => None
  end.
Proof.
  intros Hc Hs. pose proof (read_byte c s Hc Hs) as Hr. destruct (format_u_head c Hc) as (d & ds & E & Hd). rewrite E in *.
  cbn [json_array]. change ((d :: ds) ++ s) with (d :: (ds ++ s)) in *. rewrite skip_digit by done. cbn [chr hd]. rewrite Hd. cbn [negb]. by rewrite Hr.
Qed.

Lemma json_array_skip n s : json_array n (32 :: s) = json_array n s.
Proof. by destruct n. Qed.

Lemma json_array_ok p : bytes_ok p -> p <> [] -> forall n s, (length p <= n)%nat -> json_array n (json_numbers false p ++ txt " ]" ++ s) = Some (p, s).
Proof.
  induction 1 as [|c p Hc Hp IH]; [done|]. intros _ n s Hn. destruct n as [|n]; [cbn in Hn; lia|]. destruct p as [|c' p].
  - cbn [json_numbers]. rewrite app_nil_r. cbn [app]. by rewrite array_number.
  - change (json_numbers false (c :: c' :: p)) with (format_u c ++ txt ", " ++ json_numbers false (c' :: p)).
    rewrite <- !app_assoc. rewrite array_number by done.
    change (txt ", " ++ json_numbers false (c' :: p) ++ txt " ]" ++ s) with (44 :: 32 :: (json_numbers false (c' :: p) ++ txt " ]" ++ s)).
    change (skip (44 :: ?x)) with (44 :: x). cbv iota. rewrite json_array_skip, IH; [done|done|cbn in *; lia].
Qed.

Lemma escaped_char c s : 0 <= c < 128 ->
  json_chars (json_char c ++ s) = match json_chars s with Some (t, s) => Some (c :: t, s) | None => None end.
Proof.
  intros Hc.
  assert (forall P : Z -> Prop, (forall k, (k < 128)%nat -> P (Z.of_nat k)) -> P c) as Hall.
  { intros P H. specialize (H (Z.to_nat c) ltac:(lia)). by rewrite Z2Nat.id in H by lia. }
  apply (Hall (fun c => json_chars (json_char c ++ s) = match json_chars s with Some (t, s) => Some (c :: t, s) | None => None end)).
  intros k Hk. do 128 (destruct k as [|k]; [reflexivity|]). lia.
Qed.

Lemma json_chars_ok p : Forall (fun c => 0 <= c < 128) p -> forall s, json_chars (flat_map json_char p ++ 34 :: s) = Some (p, s).
Proof.
  induction 1 as [|c p Hc _ IH]; intros s; [done|]. cbn [flat_map]. by rewrite <- app_assoc, escaped_char, IH.
Qed.

(** What json_escape can write: text of ASCII, and what is not printable. *)
Definition json_safe (b : Buf) : Prop :=
  bytes_ok (b_data b) /\ (Forall (fun c => c < 128) (b_data b) \/ utf8_is_printable b = false).

(** What of it is written: null for a long value, unless all is to be shown. *)
Definition shown_value (flags : Z) (value : list Z) : option (list Z) :=
  if has_flag flags OUTPUT_SHOW_ALL || (length value <? 4096)%nat then Some value else None.

Lemma json_numbers_length p b : (length p <= length (json_numbers b p))%nat.
Proof.
  revert b. induction p as [|c p IH]; intros b; [done|]. cbn [json_numbers length]. rewrite !length_app. specialize (IH true).
  pose proof (decimal_ne c). unfold format_u. destruct (decimal 20 c); [done|]. cbn [length]. lia.
Qed.

Lemma json_text_ok p s : bytes_ok p -> Forall (fun c => c < 128) p -> json_chars (flat_map json_char p ++ 34 :: s) = Some (p, s).
Proof.
  intros Hb Hd. apply json_chars_ok. apply Forall_forall. intros c Hc. pose proof (proj1 (Forall_forall _ _) Hb c Hc) as H1.
  pose proof (proj1 (Forall_forall _ _) Hd c Hc) as H2. unfold is_u8 in H1. cbv beta in H2. lia.
Qed.

Lemma shown_null flags b : negb (has_flag flags OUTPUT_SHOW_ALL) && (JSON_THRESHOLD <=? length (b_data b))%nat
  = match shown_value flags (b_data b) with Some _ => false | None => true end.
Proof.
  unfold shown_value, JSON_THRESHOLD. destruct (has_flag flags OUTPUT_SHOW_ALL); [done|]. cbn [negb andb orb].
  destruct (Nat.leb_spec 4096 (length (b_data b))), (Nat.ltb_spec (length (b_data b)) 4096); done || lia.
Qed.

Lemma json_value_ok b flags s : json_safe b -> json_value (32 :: json_escape b flags ++ s) = Some (shown_value flags (b_data b), s).
Proof.
  intros (Hb & Hd). unfold json_value. change (skip (32 :: ?x)) with (skip x). unfold json_escape. rewrite shown_null.
  assert (forall v, shown_value flags (b_data b) = Some v -> v = b_data b) as Hv by (unfold shown_value; intros v; by destruct (_ || _); [intros [= ->]|]).
  destruct (shown_value flags (b_data b)) as [v|]; [|done]. rewrite (Hv v eq_refl).
  destruct (utf8_is_printable b) eqn:Ep; cbn [negb].
  - destruct Hd as [Hd|]; [|done]. rewrite <- !app_assoc. change (skip ([34] ++ ?x)) with (34 :: x). cbv iota. cbn [app]. by rewrite json_text_ok.
  - rewrite <- !app_assoc. change (skip (txt "[ " ++ ?x)) with (91 :: 32 :: x). cbv iota. rewrite json_array_skip, json_array_ok; [done|done| |].
    + intros E. unfold utf8_is_printable, utf8_is_printable_buf in Ep. rewrite E in Ep. done.
    + cbn [length]. rewrite length_app. pose proof (json_numbers_length (b_data b) false). lia.
Qed.

(** The name of a field is printable. *)
Lemma printable_more n : forall m s l nl r, (n <= m)%nat -> utf8_is_printable_newline n s l nl = Some r -> utf8_is_printable_newline m s l nl = Some r.
Proof.
  induction n as [|n IH]; intros m s l nl r Hm H; (destruct m as [|m]; [try lia; exact H|]); cbn [utf8_is_printable_newline] in *;
    (destruct (l =? 0); [done|]); [done|]. destruct (_ || _); [done|]. apply IH; [lia|done].
Qed.

Lemma field_printable name rest : Forall (fun c => field_char c = true) name -> Z.of_nat (length name) < 2 ^ 64 ->
  utf8_is_printable (mkBuf name rest) = true.
Proof.
  intros Hn Hl. unfold utf8_is_printable, utf8_is_printable_buf. cbn [b_data b_behind].
  assert (flat_map utf8_encode name = name) as E.
  { clear Hl. induction Hn as [|c name Hc%field_char_plain _ IH]; [done|]. cbn [flat_map]. rewrite IH. unfold utf8_encode.
    by rewrite (proj2 (Z.ltb_lt _ _)) by lia. }
  pose proof (utf8_is_printable_newline_correct name rest true) as H. rewrite E in H.
  rewrite (printable_more (length name) _ _ _ _ (forallb (printable true) name)); [|rewrite length_app; lia|apply H; [|done]].
  - cbn [default]. apply forallb_forall. intros c Hc%list_elem_of_In. apply (proj1 (Forall_forall _ _) Hn) in Hc. cbv beta in Hc.
    apply field_char_plain in Hc. unfold printable, is_unicode_control. cbn [orb]. rewrite andb_true_r. zdecide; lia.
  - eapply Forall_impl; [exact Hn|]. intros c Hc%field_char_plain. split; [lia|]. left. lia.
Qed.

(** * Members *)

Definition member_reads (t : list Z) (f : list Z * option (list Z)) : Prop :=
  forall w s, Forall json_space w -> json_member (w ++ t ++ s) = Some (f.1, f.2, s).

(** The members with a comma and the spaces [w1] between them; [w2] before the brace. *)
Lemma json_members_ok w1 w2 ts fs : Forall json_space w1 -> Forall json_space w2 -> Forall2 member_reads ts fs ->
  forall w t f n s, Forall json_space w -> member_reads t f -> (length ts < n)%nat ->
  json_members n (w ++ t ++ flat_map (fun t => (44 :: w1) ++ t) ts ++ w2 ++ 125 :: s) = Some (f :: fs, s).
Proof.
  intros Hw1 Hw2. induction 1 as [|t' f' ts fs Hr' _ IH]; intros w t f n s Hw Hr Hn; (destruct n as [|n]; [lia|]);
    cbn [json_members flat_map]; rewrite (Hr w _ Hw).
  - cbn [app]. rewrite skip_spaces_json by done. by destruct f.
  - rewrite <- !app_assoc. change (skip ((44 :: w1) ++ ?x)) with (44 :: (w1 ++ x)). cbv iota. cbn [length] in Hn.
    rewrite (IH w1 t' f') by (done || lia). by destruct f.
Qed.

Lemma quiet_escape v : Forall quiet v -> flat_map json_char v = v.
Proof.
  induction 1 as [|c v Hc _ IH]; [done|]. cbn [flat_map]. rewrite IH. unfold json_char, quiet in *.
  rewrite !(proj2 (Z.eqb_neq c _)), (proj2 (Z.ltb_ge c _)), (proj2 (Z.leb_gt _ c)) by lia. done.
Qed.

Lemma quiet_chars v s : Forall quiet v -> json_chars (v ++ 34 :: s) = Some (v, s).
Proof.
  intros Hv. replace v with (flat_map json_char v) at 1.
  - apply json_chars_ok. eapply Forall_impl; [exact Hv|]. intros c Hc. unfold quiet in Hc. lia.
  - by apply quiet_escape.
Qed.

Lemma quoted_reads v s : Forall quiet v -> json_value (32 :: quoted v ++ s) = Some (Some v, s).
Proof.
  intros Hv. unfold json_value, quoted. rewrite <- !app_assoc. change (skip (32 :: [34] ++ ?x)) with (34 :: x). cbv iota. cbn [app].
  by rewrite quiet_chars.
Qed.

Lemma member_ok name b vb : Forall quiet name -> (forall s, json_value (32 :: b ++ s) = Some (vb, s)) ->
  member_reads (quoted name ++ txt " : " ++ b) (name, vb).
Proof.
  intros Hn Hb w s Hw. unfold json_member, quoted. rewrite skip_spaces_json by done. rewrite <- !app_assoc.
  change (skip ([34] ++ ?x)) with (34 :: x). cbv iota. cbn [app]. rewrite quiet_chars by done.
  change (skip (txt " : " ++ ?x)) with (58 :: 32 :: x). cbv iota. by rewrite Hb.
Qed.

(** * Passes over the fields *)

Definition names (xs : list (list Z * list Z * list Z)) : list (list Z) := map (fun x => x.1.1) xs.
Definition listed (xs : list (list Z * list Z * list Z)) := filter (fun x => x.1.1 <> txt "_BOOT_ID") xs.

Lemma listed_cons name value behind xs : listed ((name, value, behind) :: xs) =
  if decide (name <> txt "_BOOT_ID") then (name, value, behind) :: listed xs else listed xs.
Proof. unfold listed. rewrite filter_cons. done. Qed.

Lemma count_of_set n m u h : count_of n (count_set m u h) = if decide (n = m) then u else count_of n h.
Proof.
  induction h as [|[k x] h IH]; cbn [count_set count_of].
  - case_bool_decide; destruct (decide (n = m)); congruence.
  - case_bool_decide; cbn [count_of]; [subst k; case_bool_decide; destruct (decide (n = m)); congruence|].
    rewrite IH. case_bool_decide; destruct (decide (n = m)); congruence.
Qed.

Lemma count_of_remove n m h : count_of n (count_remove m h) = if decide (n = m) then 0 else count_of n h.
Proof.
  unfold count_remove. induction h as [|[k x] h IH]; [by destruct (decide _)|]. rewrite filter_cons. cbn [fst].
  destruct (decide (k <> m)) as [Hk|Hk]; cbn [count_of]; rewrite IH; case_bool_decide; destruct (decide (n = m)); try done; subst; tauto.
Qed.

Lemma count_remove_length n h : count_of n h <> 0 -> (length (count_remove n h) < length h)%nat.
Proof.
  unfold count_remove. induction h as [|[k x] h IH]; [done|]. cbn [count_of]. rewrite filter_cons. cbn [fst]. case_bool_decide as E.
  - intros _. rewrite decide_False by tauto. cbn. pose proof (length_filter (fun e : list Z * Z => e.1 <> n) h). lia.
  - intros H%IH. rewrite decide_True by done. cbn. lia.
Qed.

Lemma field_cstring name : Forall (fun c => field_char c = true) name -> cstring name = name.
Proof. intros H. apply cstring_plain. eapply Forall_impl; [exact H|]. intros c Hc%field_char_plain. lia. Qed.

Section fields.
Context (flags : Z).

Definition json_ok (x : list Z * list Z * list Z) : Prop :=
  let '(name, value, behind) := x in item_ok x /\ json_safe (mkBuf value behind) /\ (length name < 4096)%nat.

Definition member_text (x : list Z * list Z * list Z) : list Z :=
  json_escape (name_of (item x) (length x.1.1)) flags ++ txt " : " ++ json_escape (value_of (item x) (length x.1.1)) flags.

(** The member that is read for a field. *)
Definition member_of (x : list Z * list Z * list Z) : list Z * option (list Z) := (x.1.1, shown_value flags x.1.2).

Lemma field_quiet name : Forall (fun c => field_char c = true) name -> Forall quiet name.
Proof. intros Hn. eapply Forall_impl; [exact Hn|]. intros c Hc%field_char_plain. unfold quiet. lia. Qed.

Lemma member_text_reads x : json_ok x -> member_reads (member_text x) (member_of x).
Proof.
  destruct x as [[name value] behind]. intros ((Hne & Hn & Hv & Hb & Hlen) & Hs & Hl).
  assert (take (length name) (name ++ 61 :: value) = name) as Ht by apply take_app_length.
  assert (drop (length name + 1) (name ++ 61 :: value) = value) as Hd by (rewrite <- drop_drop, drop_app_length; done).
  unfold member_text, name_of, value_of, item, member_of. cbn [b_data b_behind fst snd]. rewrite Ht, Hd.
  assert (json_escape (mkBuf name (drop (length name) (name ++ 61 :: value) ++ behind)) flags = quoted name) as ->.
  { unfold json_escape. rewrite shown_null. cbn [b_data]. unfold shown_value. rewrite (proj2 (Nat.ltb_lt _ _)), orb_true_r by done.
    rewrite field_printable by (done || rewrite length_app in Hlen; cbn [length] in Hlen; lia). cbn [negb]. by rewrite quiet_escape by (by apply field_quiet). }
  apply member_ok; [by apply field_quiet|]. intros s. by apply json_value_ok.
Qed.

Lemma members_read l : Forall json_ok l -> Forall2 member_reads (map member_text l) (map member_of l).
Proof. induction 1 as [|x l Hx _ IH]; cbn [map]; [constructor|]. constructor; [by apply member_text_reads|exact IH]. Qed.

Lemma json_count_ok xs : Forall item_ok xs -> NoDup (names (listed xs)) -> forall h, (forall n, n ∈ names (listed xs) -> count_of n h = 0) ->
  forall n, count_of n (json_count (map item xs) h) = if decide (n ∈ names (listed xs)) then 1 else count_of n h.
Proof.
  induction 1 as [|x xs Hx _ IH]; intros Hnd h Hh n; [by rewrite decide_False by apply not_elem_of_nil|].
  destruct x as [[name value] behind]. destruct Hx as (_ & Hn & _). pose proof (field_no_equals _ Hn) as Heq.
  rewrite listed_cons in *. cbn [map json_count]. change (b_data (item (name, value, behind))) with (name ++ 61 :: value).
  rewrite is_boot_id_iff, split_field_ok, field_cstring by done. destruct (decide (name <> txt "_BOOT_ID")) as [Hb|Hb].
  - rewrite bool_decide_eq_false_2 by done. cbn [names map fst] in *. apply NoDup_cons in Hnd as [Hnin Hnd].
    rewrite (Hh name) by (by left). rewrite IH; [|done|].
    + rewrite count_of_set. destruct (decide (n = name)) as [->|Hne].
      * rewrite (decide_True (P := name ∈ name :: _)) by (by left). by rewrite decide_False.
      * destruct (decide (n ∈ names (listed xs))) as [Hin|Hin]; [by rewrite decide_True by (by right)|].
        rewrite decide_False; [done|]. by intros [?|?]%elem_of_cons.
    + intros n' Hn'. rewrite count_of_set, decide_False by (intros ->; done). apply Hh. by right.
  - rewrite bool_decide_eq_true_2 by (destruct (decide (name = txt "_BOOT_ID")); tauto). by apply IH.
Qed.

(** Between two members. *)
Definition spaces_of (pretty : bool) : list Z := if pretty then [10; 9] else [32].

Lemma json_pass_ok pretty xs : Forall item_ok xs -> NoDup (names (listed xs)) -> forall h, (forall n, n ∈ names (listed xs) -> count_of n h = 1) ->
  exists h' s', json_pass pretty (map item xs) flags h true
    = (flat_map (fun t => (44 :: spaces_of pretty) ++ t) (map member_text (listed xs)), h', s', true).
Proof.
  induction 1 as [|x xs Hx _ IH]; intros Hnd h Hh; [by exists h, true|].
  destruct x as [[name value] behind]. destruct Hx as (_ & Hn & _). pose proof (field_no_equals _ Hn) as Heq.
  rewrite listed_cons in *. cbn [map json_pass]. change (b_data (item (name, value, behind))) with (name ++ 61 :: value).
  rewrite is_boot_id_iff, split_field_ok, field_cstring by done. destruct (decide (name <> txt "_BOOT_ID")) as [Hb|Hb].
  - rewrite bool_decide_eq_false_2 by done. cbn [names map fst] in *. apply NoDup_cons in Hnd as [Hnin Hnd].
    rewrite (Hh name) by (by left). cbn [Z.eqb Pos.eqb]. destruct (IH Hnd (count_remove name h)) as (h' & s' & ->).
    + intros n Hin. rewrite count_of_remove, decide_False by (intros ->; done). apply Hh. by right.
    + exists h', s'. cbn [flat_map map]. unfold member_text at 2. cbn [fst]. rewrite <- !app_assoc. by destruct pretty.
  - rewrite bool_decide_eq_true_2 by (destruct (decide (name = txt "_BOOT_ID")); tauto). by apply IH.
Qed.

(** However often fields are repeated, the passes end. *)
Lemma json_pass_shrinks pretty items : forall h s t h' s' d, json_pass pretty items flags h s = (t, h', s', d) ->
  (length h' <= length h)%nat /\ (d = false -> length h' < length h)%nat.
Proof.
  induction items as [|b items IH]; intros h s t h' s' d; cbn [json_pass]; [intros [= <- <- <- <-]; by split|].
  destruct (is_boot_id (b_data b)); [apply IH|]. destruct (split_field (b_data b)) as [[name value]|]; [|apply IH].
  destruct (Z.eqb_spec (count_of (cstring name) h) 0) as [|Hne];
    [destruct (json_pass pretty items flags h false) as [[[t1 h1] s1] d1] eqn:E; intros [= <- <- <- <-]; by apply IH in E|].
  pose proof (count_remove_length _ _ Hne) as Hlt. destruct (count_of (cstring name) h =? 1); [|intros [= <- <- <- <-]; lia].
  destruct (json_pass pretty items flags (count_remove (cstring name) h) true) as [[[t1 h1] s1] d1] eqn:E. intros [= <- <- <- <-]. apply IH in E. lia.
Qed.

Lemma json_passes_end pretty items : forall n h s, (length h < n)%nat -> exists t, json_passes n pretty items flags h s = Ok t.
Proof.
  induction n as [|n IH]; intros h s Hn; [lia|]. cbn [json_passes].
  destruct (json_pass pretty items flags h s) as [[[t h'] s'] d] eqn:E. apply json_pass_shrinks in E as [_ E]. destruct d; [by exists t|].
  destruct (IH h' s') as (t' & ->); [specialize (E eq_refl); lia|]. by exists (t ++ t').
Qed.

Lemma count_set_length n u h : (length (count_set n u h) <= S (length h))%nat.
Proof. induction h as [|[k x] h IH]; [done|]. cbn [count_set]. case_bool_decide; cbn; lia. Qed.

Lemma json_count_length items : forall h, (length (json_count items h) <= length items + length h)%nat.
Proof.
  induction items as [|b items IH]; intros h; [done|]. cbn [json_count length]. specialize (IH h) as IH'.
  destruct (is_boot_id (b_data b)); [lia|]. destruct (split_field (b_data b)) as [[name value]|]; [|lia].
  etransitivity; [apply IH|]. pose proof (count_set_length (cstring name) (u32 (count_of (cstring name) h + 1)) h). lia.
Qed.

Lemma output_json_ends e mode : exists out, output_json e mode flags = Ok out.
Proof.
  unfold output_json. destruct (entry_addresses e) as [[[[rt mt] id] cursor]|er]; [|by eexists].
  destruct (e_data e _) as [items r]. destruct (r <? 0); [by eexists|].
  destruct (json_passes_end (match mode with OUTPUT_JSON_PRETTY => true | _ => false end) items (S (length items)) (json_count items []) true) as (t & ->);
    [|by eexists]. pose proof (json_count_length items []). cbn in *. lia.
Qed.

(** ** No newlines *)

#[local] Abbreviation one_line l := (Forall (fun c => c <> 10) l).

Lemma json_char_line c : is_u8 c -> one_line (json_char c).
Proof.
  intros Hc. assert (forallb (fun x => negb (x =? 10)) (json_char c) = true) as H.
  { apply (all_bytes (fun c => forallb (fun x => negb (x =? 10)) (json_char c))); [vm_compute; reflexivity|exact Hc]. }
  rewrite forallb_forall in H. apply Forall_forall. intros x Hx%list_elem_of_In%H. by intros ->.
Qed.

Lemma not_in_line l : one_line l -> 10 ∉ l.
Proof. intros H Hin. by apply (proj1 (Forall_forall _ _) H) in Hin. Qed.

Lemma quiet_line l : Forall quiet l -> one_line l.
Proof. intros H. eapply Forall_impl; [exact H|]. by intros c [? _]. Qed.

Lemma quoted_line l : Forall quiet l -> one_line (quoted l).
Proof. intros H. unfold quoted. repeat apply Forall_app_2; [by repeat constructor|by apply quiet_line|by repeat constructor]. Qed.

Lemma json_numbers_line p b : bytes_ok p -> one_line (json_numbers b p).
Proof.
  intros H. revert b. induction H as [|c p Hc _ IH]; intros b; cbn [json_numbers]; [constructor|]. apply Forall_app_2.
  - destruct b; [|constructor]. apply (bool_decide_unpack _). vm_compute. exact I.
  - apply Forall_app_2; [|apply IH]. apply quiet_line, digits_quiet. unfold is_u8, is_u64 in *. lia.
Qed.

Lemma json_escape_line b : bytes_ok (b_data b) -> one_line (json_escape b flags).
Proof.
  intros Hb. unfold json_escape. destruct (_ && _); [apply (bool_decide_unpack _); vm_compute; exact I|]. destruct (negb _).
  - apply Forall_app_2; [apply (bool_decide_unpack _); vm_compute; exact I|].
    apply Forall_app_2; [by apply json_numbers_line|apply (bool_decide_unpack _); vm_compute; exact I].
  - apply Forall_app_2; [by repeat constructor|]. apply Forall_app_2; [|by repeat constructor].
    induction Hb as [|c l Hc _ IH]; [constructor|]. cbn [flat_map]. apply Forall_app_2; [by apply json_char_line|exact IH].
Qed.

Lemma member_line x : item_ok x -> one_line (member_text x).
Proof.
  destruct x as [[name value] behind]. intros (_ & Hn & Hv & _).
  assert (take (length name) (name ++ 61 :: value) = name) as Ht by apply take_app_length.
  assert (drop (length name + 1) (name ++ 61 :: value) = value) as Hd by (rewrite <- drop_drop, drop_app_length; done).
  unfold member_text, name_of, value_of, item. cbn [b_data b_behind fst snd]. rewrite Ht, Hd.
  apply Forall_app_2; [|apply Forall_app_2; [apply (bool_decide_unpack _); vm_compute; exact I|by apply json_escape_line]].
  apply json_escape_line. cbn [b_data]. eapply Forall_impl; [exact Hn|]. intros c Hc%field_char_plain. unfold is_u8. lia.
Qed.

Lemma members_line w xs : one_line w -> Forall item_ok xs -> one_line (flat_map (fun t => (44 :: w) ++ t) (map member_text (listed xs))).
Proof.
  intros Hw Hxs. assert (Forall item_ok (listed xs)) as Hl.
  { apply Forall_forall. intros x [_ Hx]%list_elem_of_filter. by apply (proj1 (Forall_forall _ _) Hxs). }
  induction Hl as [|x l Hx _ IH]; [constructor|]. cbn [map flat_map]. apply Forall_app_2; [apply Forall_app_2; [by constructor|by apply member_line]|exact IH].
Qed.

(** ** The object *)

(** What is around the object in the three formats. *)
Definition opening (mode : OutputMode) : list Z := match mode with OUTPUT_JSON_SSE => txt "data: " | _ => [] end.
Definition closing (mode : OutputMode) : list Z := match mode with OUTPUT_JSON_SSE => [10; 10] | _ => [10] end.

(** Its head, as members. *)
Definition head_texts (realtime monotonic : Z) (boot_id cursor : list Z) : list (list Z) :=
  [quoted (txt "__REALTIME_TIMESTAMP") ++ txt " : " ++ quoted (format_u realtime);
   quoted (txt "__MONOTONIC_TIMESTAMP") ++ txt " : " ++ quoted (format_u monotonic);
   quoted (txt "_BOOT_ID") ++ txt " : " ++ quoted (uuid_to_str boot_id)].
Definition cursor_text (cursor : list Z) : list Z := quoted (txt "__CURSOR") ++ txt " : " ++ quoted cursor.

Definition object_text (mode : OutputMode) (first : list Z) (ts : list (list Z)) : list Z :=
  let pretty := match mode with OUTPUT_JSON_PRETTY => true | _ => false end in
  [123] ++ spaces_of pretty ++ first ++ flat_map (fun t => (44 :: spaces_of pretty) ++ t) ts
    ++ match mode with OUTPUT_JSON_PRETTY => [10] | OUTPUT_JSON_SSE => [] | _ => [32] end ++ [125].

Lemma output_json_text e mode realtime monotonic boot_id cursor xs :
  entry_addresses e = inl (realtime, monotonic, boot_id, cursor) ->
  e_data e (if has_flag flags OUTPUT_SHOW_ALL then 0 else Z.of_nat JSON_THRESHOLD) = (map item xs, 0) ->
  Forall item_ok xs -> NoDup (names (listed xs)) ->
  output_json e mode flags = Ok (opening mode ++ object_text mode (cursor_text cursor)
    (head_texts realtime monotonic boot_id cursor ++ map member_text (listed xs)) ++ closing mode, 0).
Proof.
  intros Ha He Hit Hnd. unfold output_json. rewrite Ha, He. cbn [Z.ltb Z.compare].
  destruct (json_pass_ok (match mode with OUTPUT_JSON_PRETTY => true | _ => false end) xs Hit Hnd (json_count (map item xs) [])) as (h' & s' & E).
  { intros n Hn. by rewrite json_count_ok, decide_True. }
  cbn [json_passes]. rewrite E. do 2 f_equal. unfold object_text, cursor_text, head_texts. rewrite flat_map_app. cbn [flat_map].
  destruct mode; cbn [spaces_of opening closing]; rewrite <- ?app_assoc; reflexivity.
Qed.

(** C40 The JSON of an entry whose field names are all different can be read back, in all
    three formats: behind the opening of the format it is one object with the cursor,
    the times, the boot and all other fields, and then there is the end of the format
    only.  The values are the bytes that were logged, as long as they are ASCII or not
    printable (for other text see json_escape_not_ascii); unless all is to be shown, a
    value of 4096 bytes or more is null.  The names have fewer than 4096 bytes.  But for
    the pretty format the object is a single line. *)
Theorem output_json_round_trip e mode realtime monotonic boot_id cursor xs :
  entry_addresses e = inl (realtime, monotonic, boot_id, cursor) ->
  e_data e (if has_flag flags OUTPUT_SHOW_ALL then 0 else Z.of_nat JSON_THRESHOLD) = (map item xs, 0) ->
  is_u64 realtime -> is_u64 monotonic -> Forall quiet cursor -> Forall json_ok xs -> NoDup (names (listed xs)) ->
  exists json, output_json e mode flags = Ok (opening mode ++ json ++ closing mode, 0)
    /\ (mode <> OUTPUT_JSON_PRETTY -> 10 ∉ json)
    /\ forall n rest, (length xs + 4 <= n)%nat ->
      json_object n (json ++ rest) =
      Some ([(txt "__CURSOR", Some cursor); (txt "__REALTIME_TIMESTAMP", Some (format_u realtime));
             (txt "__MONOTONIC_TIMESTAMP", Some (format_u monotonic)); (txt "_BOOT_ID", Some (uuid_to_str boot_id))]
            ++ map (fun x => (x.1.1, shown_value flags x.1.2)) (listed xs), rest).
Proof.
  intros Ha He Hr Hm Hc Hxs Hnd.
  assert (Forall item_ok xs) as Hit by (eapply Forall_impl; [exact Hxs|]; by intros [[? ?] ?] [? _]).
  eexists. split; [by apply (output_json_text e mode realtime monotonic boot_id cursor xs)|].
  assert (Forall quiet (txt "__CURSOR") /\ Forall quiet (txt "__REALTIME_TIMESTAMP") /\ Forall quiet (txt "__MONOTONIC_TIMESTAMP") /\ Forall quiet (txt "_BOOT_ID"))
    as (Q1 & Q2 & Q3 & Q4) by (apply (bool_decide_unpack _); vm_compute; exact I).
  pose proof (digits_quiet _ Hr) as Qr. pose proof (digits_quiet _ Hm) as Qm. pose proof (uuid_quiet boot_id) as Qb. split.
  - intros Hmode. apply not_in_line. assert (one_line (txt " : ")) as Hsep by (apply (bool_decide_unpack _); vm_compute; exact I).
    assert (one_line [32; 125] /\ one_line [125]) as [? ?] by (split; by repeat constructor).
    unfold object_text, cursor_text, head_texts. rewrite flat_map_app. cbn [flat_map].
    assert (one_line [123]) by (by repeat constructor). assert (one_line (44 :: spaces_of false)) by (by repeat constructor).
    destruct mode; try done; cbn [spaces_of]; rewrite !Forall_app; split_and!; try done;
      try (by apply quoted_line); try (by apply (members_line (spaces_of false)); [by repeat constructor|]); by repeat constructor.
  - intros n rest Hn. set (ts := map member_text (listed xs)).
    assert (Forall2 member_reads ts (map member_of (listed xs))) as Hts.
    { apply members_read, Forall_forall. intros x [_ Hx]%list_elem_of_filter. by apply (proj1 (Forall_forall _ _) Hxs). }
    assert (forall name v, Forall quiet name -> Forall quiet v -> member_reads (quoted name ++ txt " : " ++ quoted v) (name, Some v)) as Hq.
    { intros name v H1 H2. apply member_ok; [done|]. intros s. by apply quoted_reads. }
    set (pretty := match mode with OUTPUT_JSON_PRETTY => true | _ => false end).
    set (w2 := match mode with OUTPUT_JSON_PRETTY => [10] | OUTPUT_JSON_SSE => [] | _ => [32] end).
    assert (Forall json_space (spaces_of pretty)) as Hw1 by (unfold spaces_of, json_space; destruct pretty; repeat constructor; lia).
    assert (Forall json_space w2) as Hw2 by (unfold w2, json_space; destruct mode; repeat constructor; lia).
    assert (object_text mode (cursor_text cursor) (head_texts realtime monotonic boot_id cursor ++ ts) ++ rest
      = 123 :: (spaces_of pretty ++ cursor_text cursor ++ flat_map (fun t => (44 :: spaces_of pretty) ++ t)
          (head_texts realtime monotonic boot_id cursor ++ ts) ++ w2 ++ 125 :: rest)) as ->.
    { unfold object_text. fold pretty w2. rewrite <- !app_assoc. done. }
    cbn [json_object skip]. change (skip (123 :: ?x)) with (123 :: x). cbv iota.
    apply (json_members_ok _ _ _ ((txt "__REALTIME_TIMESTAMP", Some (format_u realtime)) :: (txt "__MONOTONIC_TIMESTAMP", Some (format_u monotonic))
       :: (txt "_BOOT_ID", Some (uuid_to_str boot_id)) :: map member_of (listed xs)) Hw1 Hw2); [|done|by apply Hq|].
    + unfold head_texts. cbn [app]. repeat (constructor; [by apply Hq|]). exact Hts.
    + rewrite length_app. unfold ts. rewrite length_map. pose proof (length_filter (fun x : list Z * list Z * list Z => x.1.1 <> txt "_BOOT_ID") xs).
      change (filter _ xs) with (listed xs) in *. cbn [head_texts length]. lia.
Qed.
End fields.

(** * Examples *)

Lemma sample_json_ok : Forall json_ok sample_fields.
Proof.
  pose proof bytes_fields as H. inversion_clear H as [|? ? H1 H']. inversion_clear H' as [|? ? H2 H'']. inversion_clear H'' as [|? ? H3 _].
  assert (forall x, item_ok x -> (length x.1.1 < 100)%nat ->
    Forall (fun c => c < 128) x.1.2 \/ utf8_is_printable (mkBuf x.1.2 x.2) = false -> json_ok x) as Hok.
  { intros [[name value] behind] Hi Hl1 Hp. cbn [fst snd] in *. split; [done|]. destruct Hi as (_ & _ & Hv & _ & _). split; [done|]. lia. }
  constructor; [|constructor; [|constructor; [|constructor]]]; apply Hok; try assumption; try (cbn; lia).
  - left. apply (bool_decide_unpack _). vm_compute. exact I.
  - left. apply (bool_decide_unpack _). vm_compute. exact I.
  - right. reflexivity.
Qed.

(** An entry with a long field, as an event. *)
Definition long_fields : list (list Z * list Z * list Z) := sample_fields ++ [(txt "LONG", replicate 4096 65, [])].
Definition long_entry : Entry :=
  mkEntry (inl 5) (inl (7, repeat 171 16)) (inl (txt "s=1;i=2")) (fun _ => (map item long_fields, 0)) (fun _ _ => inr ENOENT).

Lemma output_json_witness : exists json, output_json long_entry OUTPUT_JSON_SSE 0 = Ok (txt "data: " ++ json ++ [10; 10], 0) /\ (10 ∉ json) /\
  json_object 8 (json ++ [10; 10]) =
  Some ([(txt "__CURSOR", Some (txt "s=1;i=2")); (txt "__REALTIME_TIMESTAMP", Some (txt "5")); (txt "__MONOTONIC_TIMESTAMP", Some (txt "7"));
         (txt "_BOOT_ID", Some (txt "abababababababababababababababab")); (txt "MESSAGE", Some (txt "hello"));
         (txt "BLOB", Some [10; 61; 200; 0]); (txt "LONG", None)], [10; 10]).
Proof.
  destruct (output_json_round_trip 0 long_entry OUTPUT_JSON_SSE 5 7 (repeat 171 16) (txt "s=1;i=2") long_fields) as (t & H1 & H2 & H3).
  - reflexivity.
  - reflexivity.
  - unfold is_u64; lia.
  - unfold is_u64; lia.
  - apply (bool_decide_unpack _). vm_compute. exact I.
  - apply Forall_app_2; [exact sample_json_ok|]. constructor; [|constructor]. split; [|split; [|cbn; lia]].
    + split; [done|]. split; [by repeat constructor|]. split; [|split; [constructor|]].
      * apply Forall_replicate. unfold is_u8. lia.
      * rewrite length_app. cbn [length]. rewrite length_replicate. cbn. lia.
    + split; [apply Forall_replicate; unfold is_u8; lia|]. left. apply Forall_replicate. lia.
  - apply (bool_decide_unpack _). vm_compute. exact I.
  - exists t. split; [exact H1|]. split; [by apply H2|]. rewrite (H3 8%nat [10; 10]) by (cbn; lia). vm_compute. reflexivity.
Defined.

(** A char is signed, and a byte of a character that is not ASCII is written as the
    escape of an int: the JSON of a letter with umlaut is two other characters and eight letters. *)
Lemma json_escape_not_ascii : json_escape (mkBuf [195; 164] [0]) 0 = [34] ++ txt "\uffffffc3\uffffffa4" ++ [34].
Proof. vm_compute. reflexivity. Qed.

(** When the last field of an entry has been written before, because a field before it
    was repeated, the object ends with a comma. *)
Lemma output_json_trailing_comma :
  output_json (mkEntry (inl 5) (inl (7, repeat 171 16)) (inl (txt "s=1")) (fun _ => ([mkBuf (txt "A=1") []; mkBuf (txt "A=2") []], 0)) (fun _ _ => inr ENOENT)) OUTPUT_JSON 0
  = Ok (txt "{ " ++ quoted (txt "__CURSOR") ++ txt " : " ++ quoted (txt "s=1") ++ txt ", " ++ quoted (txt "__REALTIME_TIMESTAMP") ++ txt " : " ++ quoted (txt "5")
        ++ txt ", " ++ quoted (txt "__MONOTONIC_TIMESTAMP") ++ txt " : " ++ quoted (txt "7") ++ txt ", " ++ quoted (txt "_BOOT_ID") ++ txt " : "
        ++ quoted (uuid_to_str (repeat 171 16)) ++ txt ", " ++ quoted (txt "A") ++ txt " : [ " ++ quoted (txt "1") ++ txt ", " ++ quoted (txt "2") ++ txt " ], " ++ txt " }" ++ [10], 0).
Proof. vm_compute. reflexivity. Qed.
